(* ===== verification/_CoqProject ===== *)
-Q . S2P
Prelude.v
GoLib.v
Channel.v
Errors.v
Account.v
Cooldown.v
Policy.v
Merge.v
Credentials.v
AccountStore.v
ConnTracker.v
LoadBalancer.v
Pricing.v
Ledger.v
Keys.v
Json.v
Marshal.v
Tools.v
Tokens.v
SseFrame.v
OpenAISSE.v
Stream.v
ClientCache.v
Catalogs.v
Selection.v
Retry.v
ModelPolicy.v
Models.v
Prompt.v
Structured.v
PublicModels.v
Requests.v
Commands.v
NonStream.v
Gateway.v
Entrance.v
Proxy.v
Wire.v
WorkBuddyWire.v
ClineWire.v
