(* ===== verification/Prelude.v ===== *)
(** * Orchids API gateway: verification library (root and prelude)

    The gateway puts one HTTP API in front of pools of provider accounts (Qoder,
    WorkBuddy, Cline, Grok). A request is authorised and its cost reserved against
    a client key; an account is chosen for it and one of the account's concurrency
    slots is taken; the request goes to the provider with that account's
    credentials; the provider's events are translated to the protocol of the
    caller; a failure is classified, recorded on the account and perhaps retried
    on another one; the cost is settled. The library follows that path. All paths
    below are under src/internal/.

    ** The parts, and the files that model them

    Foundations.
    - This file: [result], the record-update notation, the tactics
      ([bool_to_prop], [split_ifs], [by_cases]) and sums over lists and maps.
    - GoLib.v: byte strings, instants, 64-bit wrap-around and binary64 as Go has
      them. Json.v and Marshal.v: encoding/json (decoder, string encoder, numbers).

    The entrance.
    - Proxy.v (middleware/trusted_proxy.go): the address of the caller and who needs
      no key. Entrance.v (middleware/concurrency.go, provider_admission.go,
      session.go, billing.go, composed by inferenceAuth of cmd/server/routes.go):
      the slots, the key and the hold on its budget, for interleaving requests.

    Accounts and their policy.
    - Channel.v (channel/channel.go), Errors.v (errors/), Account.v (store/store.go,
      store/quota_snapshots.go), Cooldown.v (store/account_cooldown.go), Policy.v
      (accountpolicy/policy.go): what a failure of an upstream means for the
      account and for the request.
    - Merge.v (store/account_merge.go, store/credential_patch.go), Credentials.v
      (store/credential_cipher.go), AccountStore.v (store/redis_store.go and the
      statistics script): the rows in Redis, their merge, encryption and the
      optimistic transactions that write them.

    Choosing an account.
    - ConnTracker.v (loadbalancer/conn_tracker.go): the slots of an account.
    - LoadBalancer.v (loadbalancer/loadbalancer.go), Selection.v (what a selection
      leaves of the shared accounts), Catalogs.v (the model catalogues of qoder/,
      workbuddy/, cline/), ClientCache.v (handler/client_cache.go).

    Models.
    - ModelPolicy.v (modelpolicy/), Models.v (store/model.go, store/redis_models.go,
      store/store_models.go and the reconciliation script): the rows and their
      indexes. PublicModels.v (modelcatalog/, handler/models.go,
      handler/codex_models.go): the public list, the Codex catalogue and the row a
      requested name resolves to.

    Money and keys.
    - Pricing.v (pricing/pricing.go), Ledger.v (the billing scripts of
      store/redis_scripts.go), Keys.v (store/redis_api_keys.go,
      store/store_api_keys.go).

    The request.
    - Prompt.v (prompt/prompt.go, handler/system_items.go,
      handler/generation_controls.go): what is decoded. Requests.v (handler/utils.go,
      tools.go, tool_compaction.go, caching.go, token_breakdown.go, count_tokens.go,
      util/tool_results.go): what it asks for and how it is rewritten. Commands.v
      (handler/command.go): what the gateway answers itself. Structured.v
      (upstream/schema.go, structured.go, protocol.go): structured output.

    The answer.
    - SseFrame.v (handler/sse_frame.go), OpenAISSE.v (adapter/openai_sse.go),
      Tools.v (toolname/toolname.go and the tool functions of
      handler/stream_handler.go), Tokens.v (tiktoken/tokenizer.go), Stream.v
      (handler/stream_handler.go): from provider events to the bytes of the caller.
      NonStream.v: the one JSON body of a request that asked for no stream.
    - Wire.v (upstream/emit.go, util/toolstream.go, util/tool_args.go),
      WorkBuddyWire.v (workbuddy/stream.go, client.go, auth.go), ClineWire.v
      (cline/stream.go): from the bytes of a provider to the events of the relay.

    One whole request.
    - Retry.v (the loop of HandleMessages in handler/handler.go,
      handler/handler_helpers.go, handler/no_account.go), which composes the
      balancer, the policy, the catalogues and the relay; Gateway.v (HandleMessages
      from its first guard), which composes reading, local answers, resolution,
      Retry.v and the body.

    ** State and operations

    A Go struct is a [Record] with the fields of the source (a large struct is
    split by concern, with coercions), an operation a [Definition] of the same
    name from state to state; a method that can fail returns [result] or [option].
    Shared memory is explicit: the balancer keeps accounts in a heap
    ([LoadBalancer.LB]) because the code hands out pointers; the client cache
    names its clients by the order they were built; Redis is a record of maps per
    namespace ([AccountStore.Db], [Keys.KeyDb]), a script one function on it. A
    reading of the clock, a random draw, a network answer or a failing write is an
    argument, often a stream of answers asked in order.

    Concurrency is modelled where the code has to survive it: the compare-and-swap
    loops of the memory tracker and the critical sections of the client cache are
    step relations or interpreters over arbitrary schedules; the requests of a
    process interleave at every shared access of the entrance, with their stacks of
    deferred calls; the WATCH loop of the store commits against arbitrary
    interference; the billing scripts interleave in any order; the relay meets its
    keep-alive goroutine at every lock; a whole request runs among others that may
    write the accounts it points to.

    Interfaces between the parts are classes with laws: [AccountStoreOps] (what
    the balancer asks of a store; [RedisStoreOps] implements it),
    [AccountStoreLaws] (a write lists no new account), [ModelRows], [AEAD] with
    [AEADLaws] (the cipher), [Weighted] with [WeightedLaws] (the semaphore),
    [UnicodeTable] (which runes Go prints).

    ** What the theorems show

    - No lost update, no lost credential, complete listings, spaced probes, one
      count per operation (AccountStore.v, Merge.v, Credentials.v).
    - A slot limit is never exceeded, in memory (a refinement of an atomic
      specification) or in Redis; a closed process leaves no lease (ConnTracker.v).
    - At the entrance no slot is lost or oversold, every request has one fate, and
      no budget stays held for a request that ended (Entrance.v); a caller cannot
      choose its address, nor pass without a key unless listed (Proxy.v).
    - A selected account may serve; an eligible account is not overlooked; an empty
      pool is explained by its cause (LoadBalancer.v).
    - A verdict is well formed, parks the account it blames and bounds its hold
      (Policy.v).
    - A budget is never exceeded, an event is charged once, a reservation covers
      its settlement, a revoked key stops working (Ledger.v, Pricing.v, Keys.v).
    - The reconciliation of the model rows computes its specification; an
      authoritative catalogue is what its channel offers; lookups are exact
      (Models.v); the public list shows what may be shown and an advertised name is
      served (PublicModels.v).
    - Cache markers are few and well placed, a persisted result is read only from
      its directory (Requests.v); a schema check accepts exactly the values that
      match (Structured.v).
    - The bytes written parse back to the frames meant; the stream follows the
      protocol whatever the upstream sends and whichever write fails; what the
      model says reaches the caller unchanged, streamed or in one body (SseFrame.v,
      Stream.v, NonStream.v).
    - A provider's stream is read whole or refused: text, reasoning and tool calls,
      rebuilt from interleaved fragments, come out once and in order, however the
      bytes are cut; with the relay this goes from the provider's bytes to the
      client's (Wire.v, WorkBuddyWire.v, ClineWire.v).
    - A request ends, with a bounded number of attempts and bounded waits; it is
      answered exactly once, and only one that passed every guard reaches an
      account; it gives back every slot and client (Retry.v, Gateway.v,
      ClientCache.v).

    ** Bounds and fuel

    A loop that is not structural takes fuel and a theorem says that the fuel the
    definition passes suffices: the bytes left for the scanners of Json.v,
    SseFrame.v, Tokens.v and ClineWire.v, eight attempts for the WATCH loop (the code's own
    bound), one attempt more than [MaxRetries] for the retry loop, and nine passes
    over the accounts in sight for the reservation loop, whose only bound in the
    code is that the accounts are finitely many ([Retry.request_terminates] takes
    that as a hypothesis). An IPv6 text has at most eight groups (Proxy.v).
    Integers wrap at 64 bits where the code could reach the bound
    ([GoLib.wrap64]); amounts in Redis scripts are kept below 2^53, where Lua's
    doubles are exact.

    ** Not modelled

    Code that only talks to a network, a disk or a browser: the HTTP clients and
    login flows of the providers, self-update, the admin console and its JSON
    views, logging, audit and debug capture. AES-GCM, SHA-256, the Unicode tables
    and the splitting of a command line (shellquote) are parameters. The Grok
    channel's own request path, the Qoder stream and the translation between the
    OpenAI Responses API and chat are left out: each is a program of its own beside
    the shared path modelled here. What a part leaves
    out is said in the note of its component and at the top of its file. *)

From stdpp Require Import base numbers list gmap strings.

(** ** Outcomes of fallible code

    A Go function returning [(T, error)] is modelled by [result T E]. *)
Inductive result (A E : Type) : Type :=
| Ok (a : A)
| Err (e : E).
Arguments Ok {A E} _.
Arguments Err {A E} _.

Definition result_bind {A B E} (r : result A E) (k : A -> result B E) : result B E :=
  match r with
  | Ok a => k a
  | Err e => Err e
  end.

Declare Scope orchids_scope.
Delimit Scope orchids_scope with orchids.
Notation "'let?' x := r 'in' k" := (result_bind r (fun x => k))
  (at level 200, x pattern, r at level 100, k at level 200, right associativity) : orchids_scope.

(** ** Tactics

    [bool_to_prop] turns the boolean tests of the code into the propositions
    they decide; [split_ifs] follows every conditional of the goal;
    [by_cases] does both and closes the arithmetic. *)
Ltac bool_to_prop :=
  repeat match goal with
  | H : (_ && _)%bool = true |- _ => apply andb_true_iff in H as [? ?]
  | H : (_ || _)%bool = false |- _ => apply orb_false_iff in H as [? ?]
  | H : negb _ = true |- _ => apply negb_true_iff in H
  | H : negb _ = false |- _ => apply negb_false_iff in H
  | H : (_ <? _)%Z = true |- _ => apply Z.ltb_lt in H
  | H : (_ <? _)%Z = false |- _ => apply Z.ltb_ge in H
  | H : (_ <=? _)%Z = true |- _ => apply Z.leb_le in H
  | H : (_ <=? _)%Z = false |- _ => apply Z.leb_gt in H
  | H : (_ =? _)%Z = true |- _ => apply Z.eqb_eq in H
  | H : (_ =? _)%Z = false |- _ => apply Z.eqb_neq in H
  | H : (_ >? _)%Z = _ |- _ => rewrite Z.gtb_ltb in H
  | H : (_ >=? _)%Z = _ |- _ => rewrite Z.geb_leb in H
  | H : bool_decide _ = true |- _ => apply bool_decide_eq_true_1 in H
  | H : bool_decide _ = false |- _ => apply bool_decide_eq_false_1 in H
  end.

Ltac split_ifs :=
  repeat (match goal with
  | |- context [if ?b then _ else _] =>
      lazymatch type of b with
      | bool => let E := fresh "Hb" in destruct b eqn:E
      | _ => destruct b
      end
  end; try done).

Ltac by_cases := split_ifs; bool_to_prop; try lia; try done.

(** ** Updating one field of a record

    A record type names its eta expansion once ([Eta]); a field is then updated
    with [s <| field := v |>]. The setter of a field is found by abstracting its
    projection out of the expansion. *)
Class Eta (R : Type) : Type := eta : R -> R.
Class Setter {R T : Type} (p : R -> T) : Type := update : T -> R -> R.
Arguments update {R T} p {_} _ _.

Ltac find_setter p :=
  lazymatch type of p with
  | ?R -> ?T =>
      let f := constr:(fun (v : T) (r : R) => ltac:(
        let body := eval hnf in (eta (R := R) r) in
        let abs := eval pattern (p r) in body in
        lazymatch abs with
        | ?g _ => let b := eval cbv beta in (g v) in exact b
        end)) in
      exact f
  end.
#[export] Hint Extern 1 (Setter ?p) => find_setter p : typeclass_instances.

Notation "s <| p := v |>" := (update p v s)
  (at level 12, left associativity, p constr at level 200, v constr at level 200,
   format "s  <| p  :=  v |>") : orchids_scope.

(** ** Sums over lists and finite maps *)
Definition sumZ {A} (f : A -> Z) (l : list A) : Z :=
  foldr (fun a acc => (f a + acc)%Z) 0%Z l.

Definition map_sum {K V} `{Countable K} (f : V -> Z) (m : gmap K V) : Z :=
  sumZ (fun kv => f kv.2) (map_to_list m).

Section Sums.
  Local Open Scope Z_scope.

Lemma sumZ_cons {A} (f : A -> Z) x l : sumZ f (x :: l) = f x + sumZ f l.
  Proof. done. Qed.

Lemma sumZ_app {A} (f : A -> Z) l1 l2 : sumZ f (l1 ++ l2) = sumZ f l1 + sumZ f l2.
  Proof. induction l1 as [|x l1 IH]; simpl; [done|]. rewrite IH. lia. Qed.

Lemma sumZ_perm {A} (f : A -> Z) l1 l2 : l1 ≡ₚ l2 -> sumZ f l1 = sumZ f l2.
  Proof. induction 1; simpl; lia. Qed.

Lemma sumZ_ext {A} (f g : A -> Z) l :
    (forall x, x ∈ l -> f x = g x) -> sumZ f l = sumZ g l.
  Proof.
    induction l as [|x l IH]; intros Hfg; simpl; [done|].
    rewrite (Hfg x), IH; [done| |]; set_solver.
  Qed.

Lemma sumZ_le {A} (f g : A -> Z) l :
    (forall x, x ∈ l -> f x <= g x) -> sumZ f l <= sumZ g l.
  Proof.
    induction l as [|x l IH]; intros Hfg; simpl; [done|].
    pose proof (Hfg x ltac:(set_solver)). specialize (IH ltac:(set_solver)). lia.
  Qed.

Lemma sumZ_nonneg {A} (f : A -> Z) l :
    (forall x, x ∈ l -> 0 <= f x) -> 0 <= sumZ f l.
  Proof.
    induction l as [|x l IH]; intros Hf; simpl; [done|].
    pose proof (Hf x ltac:(set_solver)). specialize (IH ltac:(set_solver)). lia.
  Qed.

  Context {K V : Type} `{Countable K}.
  Implicit Types (m : gmap K V) (f : V -> Z).

Lemma map_sum_empty f : map_sum f (∅ : gmap K V) = 0.
  Proof. unfold map_sum. by rewrite map_to_list_empty. Qed.

Lemma map_sum_insert f m k v :
    m !! k = None -> map_sum f (<[k := v]> m) = f v + map_sum f m.
  Proof.
    intros Hk. unfold map_sum.
    by rewrite (sumZ_perm _ _ _ (map_to_list_insert m k v Hk)).
  Qed.

Lemma map_sum_delete f m k v :
    m !! k = Some v -> map_sum f m = f v + map_sum f (delete k m).
  Proof.
    intros Hk. rewrite <- (insert_delete_id m k v Hk) at 1.
    apply map_sum_insert, lookup_delete_eq.
  Qed.

Lemma map_sum_nonneg f m :
    (forall k v, m !! k = Some v -> 0 <= f v) -> 0 <= map_sum f m.
  Proof.
    intros Hf. apply sumZ_nonneg. intros [k v] Hin.
    apply (Hf k). by apply elem_of_map_to_list.
  Qed.

Lemma map_sum_ext f g m :
    (forall k v, m !! k = Some v -> f v = g v) -> map_sum f m = map_sum g m.
  Proof.
    intros Hf. apply sumZ_ext. intros [k v] Hin.
    apply (Hf k). by apply elem_of_map_to_list.
  Qed.

Lemma map_sum_le f g m :
    (forall k v, m !! k = Some v -> f v <= g v) -> map_sum f m <= map_sum g m.
  Proof.
    intros Hf. apply sumZ_le. intros [k v] Hin.
    apply (Hf k). by apply elem_of_map_to_list.
  Qed.

  (** Deleting a key whose value weighs nothing leaves the sum alone. *)
Lemma map_sum_delete_zero f m k :
    (forall v, m !! k = Some v -> f v = 0) -> map_sum f (delete k m) = map_sum f m.
  Proof.
    intros Hz. destruct (m !! k) as [v|] eqn:Hk.
    - rewrite (map_sum_delete f m k v Hk), (Hz v); [lia|done].
    - by rewrite delete_id.
  Qed.

  (** A part of a map of non-negative weights weighs no more than the whole. *)
Lemma map_sum_subseteq f m m' :
    m' ⊆ m -> (forall k v, m !! k = Some v -> 0 <= f v) -> map_sum f m' <= map_sum f m.
  Proof.
    revert m. induction m' as [|k v m' Hk IH] using map_ind; intros m Hsub Hf.
    - rewrite map_sum_empty. by apply map_sum_nonneg.
    - assert (Hm : m !! k = Some v) by (eapply lookup_weaken; [apply lookup_insert_eq|done]).
      rewrite map_sum_insert, (map_sum_delete f m k v Hm) by done.
      assert (Hsub' : m' ⊆ delete k m).
      { apply map_subseteq_spec. intros j x Hj. destruct (decide (j = k)) as [->|Hne]; [congruence|].
        rewrite lookup_delete_ne by done. eapply lookup_weaken; [|exact Hsub].
        by rewrite lookup_insert_ne. }
      assert (map_sum f m' <= map_sum f (delete k m)); [|lia].
      apply IH; [done|]. intros j x Hj%lookup_delete_Some. naive_solver.
  Qed.
End Sums.

(** ** Folding a per-key update over the entries of a map

    When each step only touches its own key, the fold acts on a key through the
    one entry the map holds for it, whatever the order of the entries. *)
Section KeyedFold.
  Context {K A B : Type} `{Countable K}.
  Variable step : gmap K B -> K * A -> gmap K B.
  Variable upd : A -> option B -> option B.

Lemma foldl_keyed_lookup (m0 : gmap K B) (es : list (K * A)) (n : K) :
    NoDup es.*1 ->
    (forall m k v, (k, v) ∈ es ->
       step m (k, v) !! n = if decide (k = n) then upd v (m !! n) else m !! n) ->
    foldl step m0 es !! n =
    match (list_to_map es : gmap K A) !! n with
    | Some v => upd v (m0 !! n)
    | None => m0 !! n
    end.
  Proof.
    revert m0; induction es as [|[k v] es IH]; intros m0 Hnd Hstep; simpl; [by rewrite lookup_empty|].
    apply NoDup_cons in Hnd as [Hk Hnd].
    rewrite IH by (done || set_solver). rewrite (Hstep m0 k v) by set_solver.
    case_decide as Hkn; [subst k|by rewrite lookup_insert_ne].
    rewrite lookup_insert_eq. by rewrite (proj1 (not_elem_of_list_to_map _ _) Hk).
  Qed.

Lemma foldl_map_lookup (m0 : gmap K B) (M : gmap K A) (n : K) :
    (forall m k v, M !! k = Some v ->
       step m (k, v) !! n = if decide (k = n) then upd v (m !! n) else m !! n) ->
    foldl step m0 (map_to_list M) !! n =
    match M !! n with Some v => upd v (m0 !! n) | None => m0 !! n end.
  Proof.
    intros Hstep. rewrite foldl_keyed_lookup.
    - by rewrite list_to_map_to_list.
    - apply NoDup_fst_map_to_list.
    - intros m k v Hin. apply Hstep. by apply elem_of_map_to_list.
  Qed.
End KeyedFold.

Create HintDb orchids.
#[export] Hint Rewrite @map_sum_empty @sumZ_app : orchids.
