(* ===== verification/GoLib.v ===== *)
(** * The Go standard library, as the gateway uses it

    Byte strings (package [strings]), instants and durations (package [time]),
    64-bit integers and IEEE binary64 numbers. A Go string is a sequence of
    bytes, here a [string] of 8-bit characters.

    - [TrimSpace] is exact: the ASCII white space and the UTF-8 encodings of
      every Unicode space [unicode.IsSpace] accepts.
    - [ToLower] maps the ASCII letters and the only two other runes whose lower
      case is an ASCII letter (the Kelvin sign, and the capital I with a dot);
      the bytes of any other rune are kept, which no comparison with an ASCII
      text can see.
    - [EqualFold] folds the ASCII letters and the two other runes that fold with
      one (the Kelvin sign with k, the long s with s); it is exact when one side
      is ASCII, as the channel names and the status codes are. *)

From Stdlib Require Import Ascii Wf_nat.
From stdpp Require Import base numbers list strings pretty.
From Corelib Require Import SpecFloat.
From S2P Require Import Prelude.

(** ** Bytes *)
Definition byte_of (a : Ascii.ascii) : nat := Ascii.nat_of_ascii a.

Definition lower_byte (a : Ascii.ascii) : Ascii.ascii :=
  let n := byte_of a in
  if (65 <=? n) && (n <=? 90) then Ascii.ascii_of_nat (n + 32) else a.

Definition is_byte (n : nat) (a : Ascii.ascii) : bool := byte_of a =? n.

(** The double quote and the backslash, which Rocq strings cannot spell plainly. *)
Definition dquote : string := String (Ascii.ascii_of_nat 34) EmptyString.
Definition backslash : Ascii.ascii := Ascii.ascii_of_nat 92.

(** ** Package strings *)
Fixpoint HasPrefix (s p : string) {struct p} : bool :=
  match p, s with
  | EmptyString, _ => true
  | String a p', String b s' => Ascii.eqb a b && HasPrefix s' p'
  | String _ _, EmptyString => false
  end.

Fixpoint sdrop (n : nat) (s : string) : string :=
  match n, s with
  | O, _ => s
  | S n', String _ s' => sdrop n' s'
  | S _, EmptyString => EmptyString
  end.

Fixpoint stake (n : nat) (s : string) : string :=
  match n, s with
  | S n', String a s' => String a (stake n' s')
  | _, _ => EmptyString
  end.

Definition HasSuffix (s suf : string) : bool :=
  (String.length suf <=? String.length s) &&
  String.eqb (sdrop (String.length s - String.length suf) s) suf.

Definition TrimPrefix (s p : string) : string :=
  if HasPrefix s p then sdrop (String.length p) s else s.

Fixpoint Contains (s sub : string) : bool :=
  HasPrefix s sub ||
  match s with
  | EmptyString => false
  | String _ s' => Contains s' sub
  end.

(** [Index] is [None] where Go returns -1. *)
Fixpoint Index (s sub : string) : option nat :=
  if HasPrefix s sub then Some 0
  else match s with
       | EmptyString => None
       | String _ s' => S <$> Index s' sub
       end.

Fixpoint contains_byte (chars : string) (a : Ascii.ascii) : bool :=
  match chars with
  | EmptyString => false
  | String b rest => Ascii.eqb a b || contains_byte rest a
  end.

(** [IndexAny] and [TrimLeft] with an ASCII set of characters. *)
Fixpoint IndexAny (s chars : string) : option nat :=
  match s with
  | EmptyString => None
  | String a s' => if contains_byte chars a then Some 0 else S <$> IndexAny s' chars
  end.

Fixpoint TrimLeft (s cutset : string) : string :=
  match s with
  | String a s' => if contains_byte cutset a then TrimLeft s' cutset else s
  | EmptyString => EmptyString
  end.

(** [strings.ReplaceAll(s, "<a>", "")] for a one-byte [a]. *)
Fixpoint RemoveAll (s : string) (a : Ascii.ascii) : string :=
  match s with
  | EmptyString => EmptyString
  | String b s' => if Ascii.eqb b a then RemoveAll s' a else String b (RemoveAll s' a)
  end.

Fixpoint ToLower (s : string) : string :=
  match s with
  | EmptyString => EmptyString
  | String a s1 =>
      match s1 with
      | String b s2 =>
          if is_byte 196 a && is_byte 176 b then String "i"%char (ToLower s2)
          else match s2 with
               | String c s3 =>
                   if is_byte 226 a && is_byte 132 b && is_byte 170 c
                   then String "k"%char (ToLower s3)
                   else String (lower_byte a) (ToLower s1)
               | EmptyString => String (lower_byte a) (ToLower s1)
               end
      | EmptyString => String (lower_byte a) EmptyString
      end
  end.

(** The fold class [EqualFold] compares. *)
Fixpoint fold_case (s : string) : string :=
  match s with
  | EmptyString => EmptyString
  | String a s1 =>
      match s1 with
      | String b s2 =>
          if is_byte 197 a && is_byte 191 b then String "s"%char (fold_case s2)
          else match s2 with
               | String c s3 =>
                   if is_byte 226 a && is_byte 132 b && is_byte 170 c
                   then String "k"%char (fold_case s3)
                   else String (lower_byte a) (fold_case s1)
               | EmptyString => String (lower_byte a) (fold_case s1)
               end
      | EmptyString => String (lower_byte a) EmptyString
      end
  end.

Definition EqualFold (s t : string) : bool := String.eqb (fold_case s) (fold_case t).

(** White space: one, two and three byte encodings. *)
Definition space1 (a : Ascii.ascii) : bool :=
  let n := byte_of a in ((9 <=? n) && (n <=? 13)) || (n =? 32).
Definition space2 (a b : Ascii.ascii) : bool :=
  is_byte 194 a && (is_byte 133 b || is_byte 160 b).
Definition space3 (a b c : Ascii.ascii) : bool :=
  (is_byte 225 a && is_byte 154 b && is_byte 128 c) ||
  (is_byte 226 a && is_byte 128 b &&
     (((128 <=? byte_of c) && (byte_of c <=? 138)) ||
      is_byte 168 c || is_byte 169 c || is_byte 175 c)) ||
  (is_byte 226 a && is_byte 129 b && is_byte 159 c) ||
  (is_byte 227 a && is_byte 128 b && is_byte 128 c).

(** Drops leading spaces; [flip] reads the encodings of a reversed string. *)
Fixpoint trim_front (flip : bool) (s : string) : string :=
  match s with
  | EmptyString => EmptyString
  | String a s1 =>
      if space1 a then trim_front flip s1
      else match s1 with
           | EmptyString => s
           | String b s2 =>
               if (if flip then space2 b a else space2 a b) then trim_front flip s2
               else match s2 with
                    | EmptyString => s
                    | String c s3 =>
                        if (if flip then space3 c b a else space3 a b c)
                        then trim_front flip s3 else s
                    end
           end
  end.

Definition TrimSpace (s : string) : string :=
  String.rev (trim_front true (String.rev (trim_front false s))).

(** [fmt]'s %d. *)
Definition fmt_d (z : Z) : string := pretty z.

(** ** Package time

    An instant is its distance in nanoseconds from January 1 of year 1, so the
    zero [time.Time] is 0; a duration is a signed 64-bit count of nanoseconds,
    and [Sub] saturates at its bounds. *)
Definition max_int64 : Z := 9223372036854775807.
Definition min_int64 : Z := -9223372036854775808.

Abbreviation Time := Z (only parsing).
Abbreviation Duration := Z (only parsing).

Definition zero_time : Time := 0%Z.
Definition IsZero (t : Time) : bool := (t =? 0)%Z.
Definition Before (t u : Time) : bool := (t <? u)%Z.
Definition After (t u : Time) : bool := (u <? t)%Z.
Definition Add (t : Time) (d : Duration) : Time := (t + d)%Z.
Definition Sub (t u : Time) : Duration := Z.max min_int64 (Z.min max_int64 (t - u)).

Definition Nanosecond : Duration := 1%Z.
Definition Millisecond : Duration := 1000000%Z.
Definition Second : Duration := 1000000000%Z.
Definition Minute : Duration := 60000000000%Z.
Definition Hour : Duration := 3600000000000%Z.

(** Nanoseconds from year 1 to the Unix epoch; [Unix] and [UnixMilli] floor. *)
Definition unix_epoch : Time := 62135596800000000000%Z.
Definition Unix (t : Time) : Z := ((t - unix_epoch) / 1000000000)%Z.
Definition UnixMilli (t : Time) : Z := ((t - unix_epoch) / 1000000)%Z.

(** ** Machine integers *)
Definition wrap64 (z : Z) : Z := ((z + 2 ^ 63) mod 2 ^ 64 - 2 ^ 63)%Z.
Definition in_int64 (z : Z) : Prop := (min_int64 <= z <= max_int64)%Z.

(** ** IEEE binary64 *)
Abbreviation float64 := spec_float (only parsing).
Definition f64_of_Z (z : Z) : float64 := binary_normalize 53 1024 z 0 false.
Definition f64_div : float64 -> float64 -> float64 := SFdiv 53 1024.
Definition f64_sub : float64 -> float64 -> float64 := SFsub 53 1024.
Definition f64_add : float64 -> float64 -> float64 := SFadd 53 1024.
Definition f64_lt : float64 -> float64 -> bool := SFltb.
Definition f64_le : float64 -> float64 -> bool := SFleb.
Definition f64_eq : float64 -> float64 -> bool := SFeqb.
Definition f64_zero : float64 := S754_zero false.

(** ** Lemmas: substrings *)
#[global] Arguments String.append : simpl nomatch.

Fixpoint str_all (P : Ascii.ascii -> bool) (s : string) : bool :=
  match s with
  | EmptyString => true
  | String a s' => P a && str_all P s'
  end.

Definition ascii7 (a : Ascii.ascii) : bool := byte_of a <? 128.
Definition digit_or_sign (a : Ascii.ascii) : bool :=
  ((48 <=? byte_of a) && (byte_of a <=? 57)) || (byte_of a =? 45).

Lemma sapp_assoc (a b c : string) : (a +:+ b) +:+ c = a +:+ (b +:+ c).
Proof. induction a as [|x a IH]; simpl; [done|]. by f_equal. Qed.

Lemma sapp_nil_r (a : string) : a +:+ "" = a.
Proof. induction a as [|x a IH]; simpl; [done|]. by f_equal. Qed.
Lemma stake_app (a b : string) : stake (String.length a) (a +:+ b) = a.
Proof. induction a as [|c a IH]; simpl; [by destruct b|by rewrite IH]. Qed.
Lemma stake_sdrop n s : stake n s +:+ sdrop n s = s.
Proof. revert s; induction n as [|n IH]; intros [|a s]; simpl; [done..|]. by rewrite IH. Qed.

Lemma HasPrefix_spec s p : HasPrefix s p = true <-> exists q, s = p +:+ q.
Proof.
  revert s; induction p as [|a p IH]; intros s; simpl; [split; [by exists s|done]|].
  destruct s as [|b s]; simpl; [by split; [|intros [q Hq]]|].
  rewrite andb_true_iff, Ascii.eqb_eq, IH. split.
  - intros [-> [q ->]]. eauto.
  - intros [q [= -> ->]]. eauto.
Qed.

Lemma Contains_spec s sub : Contains s sub = true <-> exists p q, s = p +:+ sub +:+ q.
Proof.
  induction s as [|a s IH]; simpl; rewrite orb_true_iff, HasPrefix_spec.
  - split; [intros [[q Hq]|]; [by exists "", q|done]|].
    intros (p & q & Hp). left. destruct p; simplify_eq/=; by exists q.
  - rewrite IH. split.
    + intros [[q Hq]|(p & q & ->)]; [by exists "", q|by exists (String a p), q].
    + intros (p & q & Hp). destruct p as [|b p]; [left; by exists q|].
      right. simplify_eq/=. eauto.
Qed.

Lemma Contains_app_l a b n : Contains a n = true -> Contains (a +:+ b) n = true.
Proof.
  rewrite !Contains_spec. intros (p & q & ->). exists p, (q +:+ b).
  by rewrite !sapp_assoc.
Qed.

Lemma Contains_app_r a b n : Contains b n = true -> Contains (a +:+ b) n = true.
Proof.
  rewrite !Contains_spec. intros (p & q & ->). exists (a +:+ p), q.
  by rewrite !sapp_assoc.
Qed.

Lemma Contains_trans a b c :
  Contains a b = true -> Contains b c = true -> Contains a c = true.
Proof.
  rewrite !Contains_spec. intros (p & q & ->) (p' & q' & ->).
  exists (p +:+ p'), (q' +:+ q). by rewrite !sapp_assoc.
Qed.

Lemma HasPrefix_sep (P : Ascii.ascii -> bool) a b d n :
  str_all (fun c => negb (P c)) n = true -> P d = true ->
  HasPrefix (a +:+ String d b) n = HasPrefix a n.
Proof.
  revert a; induction n as [|c n IH]; intros a Hn Hd; simpl in *; [done|].
  apply andb_true_iff in Hn as [Hc Hn]. apply negb_true_iff in Hc.
  destruct a as [|c' a]; simpl.
  - destruct (Ascii.eqb_spec c d) as [->|]; [congruence|done].
  - by rewrite IH.
Qed.

(** A separator the needle does not mention splits the search. *)
Lemma Contains_sep (P : Ascii.ascii -> bool) a b d n :
  str_all (fun c => negb (P c)) n = true -> n <> "" -> P d = true ->
  Contains (a +:+ String d b) n = Contains a n || Contains b n.
Proof.
  intros Hn Hne Hd. induction a as [|c a IH].
  - simpl. rewrite (HasPrefix_sep P "" b d n Hn Hd : HasPrefix (String d b) n = _).
    destruct n; [done|]. simpl. done.
  - change (Contains (String c (a +:+ String d b)) n = Contains (String c a) n || Contains b n).
    cbn [Contains]. rewrite IH, (HasPrefix_sep P (String c a) b d n Hn Hd : HasPrefix (String c (a +:+ String d b)) n = _).
    by rewrite orb_assoc.
Qed.

Lemma Contains_all_sep (P : Ascii.ascii -> bool) ds b n :
  str_all (fun c => negb (P c)) n = true -> n <> "" -> str_all P ds = true ->
  Contains (ds +:+ b) n = Contains b n.
Proof.
  intros Hn Hne. induction ds as [|d ds IH]; intros Hds; [done|].
  simpl in Hds. apply andb_true_iff in Hds as [Hd Hds].
  change (Contains ("" +:+ String d (ds +:+ b)) n = Contains b n).
  rewrite (Contains_sep P) by done. rewrite IH by done.
  by destruct n.
Qed.

(** A non-empty run of separators splits the search in the same way. *)
Lemma Contains_run_sep (P : Ascii.ascii -> bool) a ds b n :
  str_all (fun c => negb (P c)) n = true -> n <> "" ->
  ds <> "" -> str_all P ds = true ->
  Contains (a +:+ ds +:+ b) n = Contains a n || Contains b n.
Proof.
  intros Hn Hne Hds HP. destruct ds as [|d ds]; [done|].
  simpl in HP. apply andb_true_iff in HP as [Hd HP].
  change (String d ds +:+ b) with (String d (ds +:+ b)).
  rewrite (Contains_sep P) by done.
  by rewrite (Contains_all_sep P ds).
Qed.

(** ** Lemmas: lower case and numerals *)
Lemma ascii7_not_multibyte c n : ascii7 c = true -> 128 <= n -> is_byte n c = false.
Proof.
  unfold ascii7, is_byte. intros Hc Hn. apply Nat.ltb_lt in Hc. apply Nat.eqb_neq. lia.
Qed.

Lemma ToLower_cons c s :
  ascii7 c = true -> ToLower (String c s) = String (lower_byte c) (ToLower s).
Proof.
  intros Hc. cbn [ToLower].
  rewrite (ascii7_not_multibyte c 196), (ascii7_not_multibyte c 226) by (done || lia).
  by destruct s as [|b [|d s]].
Qed.

Lemma ToLower_app a b :
  str_all ascii7 a = true -> ToLower (a +:+ b) = ToLower a +:+ ToLower b.
Proof.
  induction a as [|c a IH]; intros Ha; [done|].
  simpl in Ha. apply andb_true_iff in Ha as [Hc Ha].
  change (String c a +:+ b) with (String c (a +:+ b)).
  by rewrite !ToLower_cons, IH.
Qed.

Lemma digit_or_sign_ascii7 c : digit_or_sign c = true -> ascii7 c = true.
Proof.
  unfold digit_or_sign, ascii7. rewrite orb_true_iff, andb_true_iff, !Nat.leb_le, Nat.eqb_eq, Nat.ltb_lt.
  lia.
Qed.

Lemma digit_or_sign_lower c : digit_or_sign c = true -> lower_byte c = c.
Proof.
  unfold digit_or_sign, lower_byte.
  rewrite orb_true_iff, andb_true_iff, !Nat.leb_le, Nat.eqb_eq. intros H.
  destruct (65 <=? byte_of c) eqn:E; [|done]. apply Nat.leb_le in E. lia.
Qed.

Lemma str_all_impl (P Q : Ascii.ascii -> bool) s :
  (forall c, P c = true -> Q c = true) -> str_all P s = true -> str_all Q s = true.
Proof.
  intros HPQ. induction s as [|c s IH]; simpl; [done|].
  rewrite !andb_true_iff. naive_solver.
Qed.

Lemma ToLower_digits s : str_all digit_or_sign s = true -> ToLower s = s.
Proof.
  induction s as [|c s IH]; simpl str_all; intros Hs; [done|].
  apply andb_true_iff in Hs as [Hc Hs].
  rewrite ToLower_cons by by apply digit_or_sign_ascii7.
  by rewrite IH, digit_or_sign_lower.
Qed.

Lemma pretty_N_char_digit x : digit_or_sign (pretty_N_char x) = true.
Proof. by destruct x as [|[[[[]|[]|]|[[]|[]|]|]|[[[]|[]|]|[[]|[]|]|]|]]. Qed.

Lemma pretty_N_go_digits x s :
  str_all digit_or_sign s = true -> str_all digit_or_sign (pretty_N_go x s) = true.
Proof.
  revert s. induction (N.lt_wf_0 x) as [x _ IH]; intros s Hs.
  destruct (decide (x = 0)%N) as [->|Hx]; [by rewrite pretty_N_go_0|].
  rewrite pretty_N_go_step by lia. apply IH; [apply N.div_lt; lia|].
  simpl. by rewrite pretty_N_char_digit, Hs.
Qed.

Lemma pretty_N_digits (x : N) : str_all digit_or_sign (pretty x) = true.
Proof.
  unfold pretty, pretty_N. case_decide; [done|]. by apply pretty_N_go_digits.
Qed.

Lemma fmt_d_digits z : str_all digit_or_sign (fmt_d z) = true.
Proof.
  unfold fmt_d. destruct z as [|p|p]; [done| |]; unfold pretty, pretty_Z.
  - apply (pretty_N_digits (N.pos p)).
  - change (digit_or_sign "-" && str_all digit_or_sign (pretty (N.pos p)) = true).
    by rewrite (pretty_N_digits (N.pos p)).
Qed.

Lemma pretty_N_go_nonempty x s : (s <> "" \/ (0 < x)%N) -> pretty_N_go x s <> "".
Proof.
  revert s. induction (N.lt_wf_0 x) as [x _ IH]; intros s Hs.
  destruct (decide (x = 0)%N) as [->|Hx]; [rewrite pretty_N_go_0; naive_solver lia|].
  rewrite pretty_N_go_step by lia. apply IH; [apply N.div_lt; lia|by left].
Qed.

Lemma fmt_d_nonempty z : fmt_d z <> "".
Proof.
  unfold fmt_d. destruct z as [|p|p]; [done| |done].
  unfold pretty, pretty_Z, pretty, pretty_positive, pretty, pretty_N.
  case_decide; [done|]. apply pretty_N_go_nonempty. right. lia.
Qed.

(** ** Lemmas: order of binary64 numbers *)
Lemma pos_compare_CompOpp_Lt c : CompOpp c = Lt <-> c = Gt.
Proof. by destruct c. Qed.

Lemma SFcompare_lt_trans x y z :
  SFcompare x y = Some Lt -> SFcompare y z = Some Lt -> SFcompare x z = Some Lt.
Proof.
  destruct x as [[]|[]| |[] mx ex], y as [[]|[]| |[] my ey], z as [[]|[]| |[] mz ez]; simpl; try done;
    destruct (Z.compare_spec ex ey), (Z.compare_spec ey ez), (Z.compare_spec ex ez);
    subst; try done; try lia; intros Hxy Hyz; simplify_eq; try done;
    rewrite ?pos_compare_CompOpp_Lt, ?Pos.compare_gt_iff, ?Pos.compare_lt_iff in *;
    f_equal; rewrite ?pos_compare_CompOpp_Lt, ?Pos.compare_gt_iff, ?Pos.compare_lt_iff; lia.
Qed.

Lemma f64_lt_trans x y z : f64_lt x y = true -> f64_lt y z = true -> f64_lt x z = true.
Proof.
  unfold f64_lt, SFltb. intros Hxy Hyz.
  destruct (SFcompare x y) as [[]|] eqn:E1; try done.
  destruct (SFcompare y z) as [[]|] eqn:E2; try done.
  by rewrite (SFcompare_lt_trans x y z).
Qed.

Lemma SFcompare_eq_lt_trans x y z :
  SFcompare x y = Some Lt -> SFcompare y z = Some Eq -> SFcompare x z = Some Lt.
Proof.
  destruct x as [[]|[]| |[] mx ex], y as [[]|[]| |[] my ey], z as [[]|[]| |[] mz ez]; simpl; try done;
    destruct (Z.compare_spec ex ey), (Z.compare_spec ey ez), (Z.compare_spec ex ez);
    subst; try done; try lia; intros Hxy Hyz; simplify_eq; try done;
    destruct (Pos.compare_cont Eq my mz) eqn:E; simplify_eq/=; try done;
    apply Pos.compare_eq in E; subst; by f_equal.
Qed.

Lemma f64_lt_irrefl x : f64_lt x x = false.
Proof.
  unfold f64_lt, SFltb, SFcompare. destruct x as [[]|[]| |[] m e]; try done;
    by rewrite Z.compare_refl, Pos.compare_refl.
Qed.

Lemma f64_lt_eq_trans x y z : f64_lt x y = true -> f64_eq y z = true -> f64_lt x z = true.
Proof.
  unfold f64_lt, f64_eq, SFltb, SFeqb. intros Hxy Hyz.
  destruct (SFcompare x y) as [[]|] eqn:E1; try done.
  destruct (SFcompare y z) as [[]|] eqn:E2; try done.
  by rewrite (SFcompare_eq_lt_trans x y z).
Qed.

(** ** Lemmas: white space *)
(** What follows the leading space of a string, when it has one. *)
Definition space_rest (flip : bool) (s : string) : option string :=
  match s with
  | EmptyString => None
  | String a s1 =>
      if space1 a then Some s1
      else match s1 with
           | EmptyString => None
           | String b s2 =>
               if (if flip then space2 b a else space2 a b) then Some s2
               else match s2 with
                    | EmptyString => None
                    | String c s3 =>
                        if (if flip then space3 c b a else space3 a b c) then Some s3 else None
                    end
           end
  end.

Lemma trim_front_step flip s :
  trim_front flip s = match space_rest flip s with Some r => trim_front flip r | None => s end.
Proof.
  destruct s as [|a s1]; [done|]. cbn [trim_front space_rest].
  destruct (space1 a); [done|]. destruct s1 as [|b s2]; [done|].
  destruct (if flip then space2 b a else space2 a b); [done|].
  destruct s2 as [|c s3]; [done|]. by destruct (if flip then space3 c b a else space3 a b c).
Qed.

Lemma space_rest_split flip s r :
  space_rest flip s = Some r -> exists p, s = p +:+ r /\ p <> "".
Proof.
  destruct s as [|a s1]; [done|]. cbn [space_rest].
  destruct (space1 a); [intros [= <-]; by exists (String a "")|].
  destruct s1 as [|b s2]; [done|].
  destruct (if flip then space2 b a else space2 a b);
    [intros [= <-]; by exists (String a (String b ""))|].
  destruct s2 as [|c s3]; [done|].
  destruct (if flip then space3 c b a else space3 a b c); [|done].
  intros [= <-]. by exists (String a (String b (String c ""))).
Qed.

Lemma sdrop_app (a b : string) : sdrop (String.length a) (a +:+ b) = b.
Proof. induction a as [|c a IH]; simpl; done. Qed.

Lemma sdrop_length n s : String.length (sdrop n s) = String.length s - n.
Proof. revert s; induction n as [|n IH]; intros [|a s]; simpl; try done. Qed.

Lemma TrimPrefix_app p s : TrimPrefix (p +:+ s) p = s.
Proof. unfold TrimPrefix. rewrite (proj2 (HasPrefix_spec _ _)) by eauto. apply sdrop_app. Qed.

Lemma sapp_length (a b : string) :
  String.length (a +:+ b) = String.length a + String.length b.
Proof. induction a; simpl; lia. Qed.

Lemma space_rest_shorter flip s r :
  space_rest flip s = Some r -> String.length r < String.length s.
Proof.
  intros (p & -> & Hp)%space_rest_split. rewrite sapp_length.
  destruct p; [done|]. simpl. lia.
Qed.

(** Induction on a string by dropping one leading space at a time. *)
Lemma trim_front_ind flip (P : string -> string -> Prop) :
  (forall s, space_rest flip s = None -> P s s) ->
  (forall s r, space_rest flip s = Some r -> P r (trim_front flip r) -> P s (trim_front flip r)) ->
  forall s, P s (trim_front flip s).
Proof.
  intros Hn Hs s. induction s as [s IH] using (induction_ltof1 _ String.length).
  rewrite trim_front_step. destruct (space_rest flip s) as [r|] eqn:Hr; [|by apply Hn].
  apply Hs; [done|]. apply IH. by eapply space_rest_shorter.
Qed.

Lemma trim_front_stops flip s : space_rest flip (trim_front flip s) = None.
Proof. by apply (trim_front_ind flip (fun _ t => space_rest flip t = None)). Qed.

Lemma trim_front_fix flip s : space_rest flip s = None -> trim_front flip s = s.
Proof. intros H. by rewrite trim_front_step, H. Qed.

Lemma trim_front_suffix flip s : exists p, s = p +:+ trim_front flip s.
Proof.
  apply (trim_front_ind flip (fun s t => exists p, s = p +:+ t)); clear s.
  - intros s _. by exists "".
  - intros s r (p & -> & _)%space_rest_split [q Hq].
    exists (p +:+ q). by rewrite sapp_assoc, <- Hq.
Qed.

Lemma space_rest_prefix flip p q :
  space_rest flip (p +:+ q) = None -> space_rest flip p = None.
Proof.
  destruct p as [|a p]; [done|]. change (String a p +:+ q) with (String a (p +:+ q)).
  cbn [space_rest]. destruct (space1 a); [done|].
  destruct p as [|b p]; [done|]. change (String b p +:+ q) with (String b (p +:+ q)); cbn iota beta.
  destruct (if flip then space2 b a else space2 a b); [done|].
  destruct p as [|c p]; [done|]. change (String c p +:+ q) with (String c (p +:+ q)); cbn iota beta.
  by destruct (if flip then space3 c b a else space3 a b c).
Qed.

Lemma rev_app_app s acc1 acc2 : String.rev_app s (acc1 +:+ acc2) = String.rev_app s acc1 +:+ acc2.
Proof.
  revert acc1; induction s as [|a s IH]; intros acc1; simpl; [done|].
  by rewrite <- (IH (String a acc1)).
Qed.

Lemma rev_cons a s : String.rev (String a s) = String.rev s +:+ String a "".
Proof. exact (rev_app_app s "" (String a "")). Qed.

Lemma rev_app_distr s t : String.rev (s +:+ t) = String.rev t +:+ String.rev s.
Proof.
  induction s as [|a s IH]; simpl.
  - by rewrite sapp_nil_r.
  - change (String.rev (String a (s +:+ t)) = String.rev t +:+ String.rev (String a s)).
    by rewrite !rev_cons, IH, sapp_assoc.
Qed.

Lemma rev_involutive s : String.rev (String.rev s) = s.
Proof. induction s as [|a s IH]; [done|]. by rewrite rev_cons, rev_app_distr, IH. Qed.

Lemma TrimSpace_fixed s :
  space_rest false s = None -> space_rest true (String.rev s) = None ->
  TrimSpace s = s.
Proof.
  intros Hf Hb. unfold TrimSpace. rewrite (trim_front_fix false s Hf), (trim_front_fix true _ Hb).
  apply rev_involutive.
Qed.

Lemma TrimSpace_idem s : TrimSpace (TrimSpace s) = TrimSpace s.
Proof.
  apply TrimSpace_fixed; unfold TrimSpace.
  - destruct (trim_front_suffix true (String.rev (trim_front false s))) as [p Hp].
    apply (f_equal String.rev) in Hp. rewrite rev_involutive, rev_app_distr in Hp.
    eapply space_rest_prefix. rewrite <- Hp. apply trim_front_stops.
  - rewrite rev_involutive. apply trim_front_stops.
Qed.
#[export] Hint Rewrite TrimSpace_idem : orchids.

(** ** Lemmas: texts of lower-case graphic ASCII bytes *)
Definition plain_byte (c : Ascii.ascii) : bool :=
  let n := byte_of c in
  (33 <=? n) && (n <=? 126) && negb ((65 <=? n) && (n <=? 90)).

Lemma str_all_app P a b : str_all P (a +:+ b) = str_all P a && str_all P b.
Proof. induction a as [|c a IH]; simpl; [done|]. by rewrite IH, andb_assoc. Qed.

Lemma str_all_rev P s : str_all P (String.rev s) = str_all P s.
Proof.
  induction s as [|c s IH]; [done|]. rewrite rev_cons, str_all_app, IH. simpl.
  by rewrite andb_true_r, andb_comm.
Qed.

Lemma plain_range c :
  plain_byte c = true -> (33 <= byte_of c < 127)%nat /\ ~ (65 <= byte_of c <= 90)%nat.
Proof.
  unfold plain_byte. rewrite !andb_true_iff, negb_true_iff, andb_false_iff, !Nat.leb_le, !Nat.leb_gt.
  lia.
Qed.

Lemma plain_ascii7 c : plain_byte c = true -> ascii7 c = true.
Proof. intros Hc%plain_range. unfold ascii7. apply Nat.ltb_lt. lia. Qed.

Lemma ToLower_plain s : str_all plain_byte s = true -> ToLower s = s.
Proof.
  induction s as [|c s IH]; simpl str_all; intros Hs; [done|].
  apply andb_true_iff in Hs as [Hc Hs]. rewrite ToLower_cons by by apply plain_ascii7.
  rewrite IH by done. f_equal. apply plain_range in Hc. unfold lower_byte.
  destruct (_ && _) eqn:E; [|done]. apply andb_true_iff in E as [?%Nat.leb_le ?%Nat.leb_le]. lia.
Qed.

Lemma space_rest_plain flip s : str_all plain_byte s = true -> space_rest flip s = None.
Proof.
  destruct s as [|a s]; [done|]. simpl. intros [Ha Hs]%andb_true_iff.
  pose proof (plain_range a Ha) as Hr.
  assert (Hno : forall n c, plain_byte c = true -> (128 <= n)%nat -> is_byte n c = false).
  { intros n c Hc. by apply ascii7_not_multibyte, plain_ascii7. }
  assert (H1 : space1 a = false).
  { unfold space1. apply orb_false_iff. rewrite andb_false_iff, !Nat.leb_gt, Nat.eqb_neq. lia. }
  rewrite H1. destruct s as [|b s]; [done|]. simpl in Hs. apply andb_true_iff in Hs as [Hb Hs].
  assert (H2 : (if flip then space2 b a else space2 a b) = false).
  { unfold space2. destruct flip; by rewrite (Hno 194) by (done || lia). }
  rewrite H2. destruct s as [|c s]; [done|]. simpl in Hs. apply andb_true_iff in Hs as [Hc Hs].
  assert (H3 : (if flip then space3 c b a else space3 a b c) = false).
  { unfold space3. destruct flip;
      by rewrite (Hno 225), (Hno 226), (Hno 227) by (done || lia). }
  by rewrite H3.
Qed.

Lemma TrimSpace_plain s : str_all plain_byte s = true -> TrimSpace s = s.
Proof.
  intros Hs. apply TrimSpace_fixed; apply space_rest_plain; [done|]. by rewrite str_all_rev.
Qed.

(** ** Lemmas: wrap-around *)
Lemma wrap64_id z : in_int64 z -> wrap64 z = z.
Proof. unfold in_int64, wrap64, min_int64, max_int64. intros H. rewrite Z.mod_small; lia. Qed.

Lemma wrap64_add_l a b : wrap64 (wrap64 a + b) = wrap64 (a + b).
Proof.
  unfold wrap64. f_equal.
  replace ((a + 2 ^ 63) mod 2 ^ 64 - 2 ^ 63 + b + 2 ^ 63)%Z with ((a + 2 ^ 63) mod 2 ^ 64 + b)%Z by lia.
  rewrite Zplus_mod_idemp_l. f_equal. lia.
Qed.

Lemma wrap64_add_r a b : wrap64 (a + wrap64 b) = wrap64 (a + b).
Proof. by rewrite Z.add_comm, wrap64_add_l, Z.add_comm. Qed.
