(* ===== verification/Channel.v ===== *)
(** * Provider channels (internal/channel/channel.go)

    The four providers, the parsing of a channel name, and the routing of a
    request path to a channel. *)

From stdpp Require Import base list strings.
From S2P Require Import Prelude GoLib.

(** A channel identifier is a Go string type; the empty one means "none". *)
Abbreviation ID := string (only parsing).

Definition WorkBuddy : ID := "workbuddy".
Definition Qoder : ID := "qoder".
Definition Cline : ID := "cline".
Definition Grok : ID := "grok".

Record ChannelDefinition := mkDefinition {
  def_ID : ID;
  def_Label : string;
  def_APIPrefix : string;
  def_Generic : bool;
  def_Default : bool;
  def_Theme : string;
  def_AccountCreate : string;
}.

Definition definitions : list ChannelDefinition := [
  mkDefinition WorkBuddy "WorkBuddy" "/workbuddy/v1" true true "orange" "browser";
  mkDefinition Qoder "Qoder" "/qoder/v1" true false "green" "browser";
  mkDefinition Cline "Cline" "/cline/v1" true false "blue" "browser";
  mkDefinition Grok "Grok" "/grok/v1" false false "red" "browser"].

Definition All : list ChannelDefinition := definitions.

(** The first definition a test accepts, as the [range] loops return it. *)
Definition first_def (f : ChannelDefinition -> bool) : option ChannelDefinition :=
  List.find f definitions.

Definition Parse (value : string) : option ID :=
  let value := ToLower (TrimSpace value) in
  def_ID <$> first_def (fun d =>
    String.eqb value (def_ID d) || EqualFold value (def_Label d)).

Definition IsSupported (value : string) : bool :=
  match Parse value with Some _ => true | None => false end.

Definition DefinitionFor (id : ID) : option ChannelDefinition :=
  first_def (fun d => String.eqb (def_ID d) id).

Definition Default : option ChannelDefinition :=
  match first_def def_Default with
  | Some d => Some d
  | None => head definitions
  end.

Definition GenericPrefixes : list string :=
  def_APIPrefix <$> List.filter def_Generic definitions.

Definition AllPrefixes : list string := def_APIPrefix <$> definitions.

Definition FromPath (path : string) : option ID :=
  def_ID <$> first_def (fun d =>
    HasPrefix path (def_APIPrefix d +:+ "/") || String.eqb path (def_APIPrefix d)).

Definition models_prefix (d : ChannelDefinition) : string :=
  def_APIPrefix d +:+ "/models/".

Definition TrimModelPath (path : string) : option (ID * string) :=
  match first_def (fun d => HasPrefix path (models_prefix d)) with
  | Some d => Some (def_ID d, TrimPrefix path (models_prefix d))
  | None =>
      if HasPrefix path "/v1/models/" then Some ("", TrimPrefix path "/v1/models/")
      else None
  end.

(** ** Properties *)
Lemma first_def_in f d : first_def f = Some d -> d ∈ definitions /\ f d = true.
Proof.
  unfold first_def. intros H. apply List.find_some in H as [Hin Hf].
  split; [by apply list_elem_of_In|done].
Qed.

Lemma HasPrefix_app p s : HasPrefix (p +:+ s) p = true.
Proof. apply HasPrefix_spec. eauto. Qed.

Lemma TrimPrefix_split s p : HasPrefix s p = true -> s = p +:+ TrimPrefix s p.
Proof. intros Hp. apply HasPrefix_spec in Hp as [q ->]. by rewrite TrimPrefix_app. Qed.

(** A supported name resolves to the identifier of one of the four declared
    channels, and an identifier parses to itself in any ASCII case (spaces
    around it ignored): the identifier is a canonical form of its names. *)
Theorem Parse_canonical (value : string) (id : ID) :
  Parse value = Some id ->
  id ∈ (def_ID <$> definitions) /\ Parse id = Some id /\ DefinitionFor id <> None.
Proof.
  unfold Parse at 1. intros H. apply fmap_Some in H as (d & Hd & ->).
  apply first_def_in in Hd as [Hin _].
  split; [by apply list_elem_of_fmap_2|].
  repeat (apply elem_of_cons in Hin as [->|Hin]; [by vm_compute|]).
  by apply elem_of_nil in Hin.
Qed.

Lemma Parse_canonical_witness :
  Parse " QODER " = Some Qoder /\ Parse Qoder = Some Qoder.
Proof.
  assert (H : Parse " QODER " = Some Qoder) by reflexivity.
  split; [exact H|]. apply (Parse_canonical " QODER " Qoder H).
Defined.

(** No API prefix can start a path that starts with another one, so the order
    of the table does not decide a route. *)
Lemma prefixes_apart path d d' :
  d ∈ definitions -> d' ∈ definitions ->
  HasPrefix path (def_APIPrefix d) = true -> HasPrefix path (def_APIPrefix d') = true ->
  d = d'.
Proof.
  rewrite !HasPrefix_spec. intros Hd Hd' [q Hq] [q' Hq']. subst path.
  unfold definitions in Hd, Hd'.
  rewrite !elem_of_cons, !elem_of_nil in Hd, Hd'.
  destruct_or!; subst; try done; simplify_eq/=.
Qed.

Lemma HasPrefix_weaken s p q : HasPrefix s (p +:+ q) = true -> HasPrefix s p = true.
Proof. rewrite !HasPrefix_spec. intros [r ->]. exists (q +:+ r). by rewrite sapp_assoc. Qed.

Lemma first_def_unique f d :
  d ∈ definitions -> f d = true ->
  (forall d', d' ∈ definitions -> f d' = true -> d' = d) ->
  first_def f = Some d.
Proof.
  intros Hd Hf Huniq. destruct (first_def f) as [d'|] eqn:E.
  - apply first_def_in in E as [Hin Hf']. by rewrite (Huniq d').
  - unfold first_def in E. apply list_elem_of_In in Hd.
    rewrite (List.find_none _ _ E d Hd) in Hf. done.
Qed.

(** A model path routes like any other path of its channel, and the model
    name it carries is exactly what follows the channel's models prefix. *)
Theorem TrimModelPath_routes (d : ChannelDefinition) (model : string) :
  d ∈ definitions ->
  TrimModelPath (models_prefix d +:+ model) = Some (def_ID d, model) /\
  FromPath (models_prefix d +:+ model) = Some (def_ID d).
Proof.
  intros Hd. unfold TrimModelPath, FromPath, models_prefix.
  assert (Hp : HasPrefix ((def_APIPrefix d +:+ "/models/") +:+ model) (def_APIPrefix d) = true).
  { by rewrite sapp_assoc, HasPrefix_app. }
  rewrite (first_def_unique _ d Hd).
  - split; [by rewrite TrimPrefix_app|].
    rewrite (first_def_unique _ d Hd); [done| |].
    + apply orb_true_iff. left. apply HasPrefix_spec.
      exists ("models/" +:+ model). by rewrite !sapp_assoc.
    + intros d' Hd' [Ht|Ht]%orb_true_iff.
      * apply HasPrefix_weaken in Ht. by apply (prefixes_apart _ d' d Hd' Hd Ht).
      * refine (prefixes_apart _ d' d Hd' Hd _ Hp). apply String.eqb_eq in Ht. rewrite Ht. apply HasPrefix_spec. exists "".
        by rewrite sapp_nil_r.
  - apply HasPrefix_app.
  - intros d' Hd' Ht. apply HasPrefix_weaken in Ht.
    by apply (prefixes_apart _ d' d Hd' Hd Ht).
Qed.

Lemma TrimModelPath_routes_witness :
  TrimModelPath "/cline/v1/models/gpt" = Some (Cline, "gpt").
Proof.
  exact (proj1 (TrimModelPath_routes
    (mkDefinition Cline "Cline" "/cline/v1" true false "blue" "browser") "gpt"
    ltac:(unfold definitions; rewrite !elem_of_cons; tauto))).
Defined.
