(* ===== verification/Errors.v ===== *)
(** * Upstream error classification (internal/errors)

    classify.go: the status code and the retry class of an upstream error text;
    pool.go: the answer for a pool no account of which can serve;
    public.go: the HTTP status and the public text of a category;
    errors.go: the application error and its Retry-After header.
    Error texts are byte strings; quoted markers are spelled with [dquote]. *)

From Stdlib Require Import Ascii Wf_nat.
From stdpp Require Import base list strings.
From S2P Require Import Prelude GoLib.

Abbreviation any_of s needles := (existsb (Contains s) needles) (only parsing).

(** ** classify.go *)
Definition status_patterns (code : string) : list string := [
  "http " +:+ code; "http/1.1 " +:+ code; "http/2 " +:+ code;
  "status " +:+ code; "status=" +:+ code; "status:" +:+ code;
  "statuscode " +:+ code; "statuscode=" +:+ code; "status code " +:+ code;
  "code " +:+ code; "code=" +:+ code; "code:" +:+ code;
  "response status " +:+ code; "response code " +:+ code].

Definition HasExplicitHTTPStatus (lower code : string) : bool :=
  let code := TrimSpace code in
  if String.eqb code "" || String.eqb lower "" then false
  else any_of lower (status_patterns code).

Definition statusCodePrefixes : list string := ["401"; "402"; "403"; "404"; "429"].

(** The text of [lower] from a code on, when a delimiter follows the code. *)
Definition code_delimited (rest : string) : bool :=
  String.eqb rest "" || HasPrefix rest ":" || HasPrefix rest " ".

Definition codeAtDelimiter (lower : string) (start : nat) : option string :=
  if String.length lower <=? start then None
  else
    let tail := sdrop start lower in
    List.find (fun code =>
      HasPrefix tail code && code_delimited (sdrop (String.length code) tail))
      statusCodePrefixes.

(** The inner loop of [scanStatusCode]: the position after the spaces. *)
Fixpoint skip_spaces (s : string) (pos : nat) : nat :=
  match s with
  | String a s' => if is_byte 32 a then skip_spaces s' (S pos) else pos
  | EmptyString => pos
  end.

(** [search] is [lower[offset:]]; the fuel counts the colons still to visit. *)
Fixpoint scan_loop (fuel : nat) (lower : string) (offset : nat) : option string :=
  match fuel with
  | O => None
  | S fuel' =>
      match Index (sdrop offset lower) ":" with
      | None => Some ""
      | Some index =>
          let position := offset + index + 1 in
          let trimmed := skip_spaces (sdrop position lower) position in
          match codeAtDelimiter lower trimmed with
          | Some code => Some code
          | None => scan_loop fuel' lower position
          end
      end
  end.

Definition scanStatusCode (lower : string) : string :=
  default "" (scan_loop (S (String.length lower)) lower 0).

Definition LeadingStatusCode (errStr : string) : string :=
  let trimmed := TrimSpace (ToLower errStr) in
  default "" (codeAtDelimiter trimmed 0).

Definition isClineModelEntitlement (lower : string) : bool :=
  if negb (HasExplicitHTTPStatus lower "403") then false
  else any_of lower ["entitlement"; "not subscribed to required model plan";
                     "only available via cline product surfaces"].

Definition IsCreditExhaustion (errStr : string) : bool :=
  let lower := ToLower errStr in
  any_of lower [
    "qoder quota exhausted"; "no ai credits remaining"; "insufficient_funds";
    "insufficient funding"; "available funding is insufficient"; "out of credits";
    "credits exhausted"; "run out of credits"].

Definition ClassifyAccountStatus (errStr : string) : string :=
  let lower := ToLower errStr in
  if any_of lower ["model is not found"; "model not found"] then ""
  else if any_of lower ["no usable plan or allowance"; "qoder.com/pricing"]
          || isClineModelEntitlement lower then ""
  else if negb (String.eqb (LeadingStatusCode lower) "") then LeadingStatusCode lower
  else if negb (String.eqb (scanStatusCode lower) "") then scanStatusCode lower
  else if HasExplicitHTTPStatus lower "401"
          || any_of lower ["refresh token is expired"; "new browser login is required";
               "sign in again"; "signed out"; "signed_out"; "unauthenticated";
               "no active sessions found"] then "401"
  else if HasExplicitHTTPStatus lower "403" || Contains lower "forbidden" then "403"
  else if HasExplicitHTTPStatus lower "404" then "404"
  else if HasExplicitHTTPStatus lower "402" || IsCreditExhaustion lower
          || Contains lower "quota_limit" then "402"
  else if HasExplicitHTTPStatus lower "429"
          || any_of lower ["qoder agent limit reached"; "agentlimitresettime";
               "too many requests"; "rate limit"; "rate_limit"; "no remaining quota";
               "quota exceeded"] then "429"
  else "".

(** The value token after a field name in a normalised payload. *)
Definition flagValue (text name : string) : string :=
  match Index text name with
  | None => ""
  | Some idx =>
      let rest := TrimLeft (sdrop (idx + String.length name) text) (dquote +:+ ":= ") in
      match IndexAny rest ("," +:+ dquote +:+ "} ") with
      | None => rest
      | Some e => stake e rest
      end
  end.

Definition upstreamMarkerText (text : string) : string := RemoveAll (ToLower text) backslash.

Definition isSharedUpstreamQueueRefusal (text : string) : bool :=
  any_of (upstreamMarkerText text)
    ["available upstream accounts are rate-limited";
     "available upstream accounts are rate limited"].

Definition isUpstreamQueueGate (text : string) : bool :=
  let text := upstreamMarkerText text in
  if String.eqb (flagValue text "isqueued") "true" then true
  else any_of text ["10605"; "qoder gateway is busy"].

Definition isUpstreamServiceUnavailable (text : string) : bool :=
  let text := upstreamMarkerText text in
  if String.eqb (flagValue text "isqueued") "true" then false
  else if String.eqb (flagValue text "serviceavailable") "false" then true
  else String.eqb (flagValue text "queuecount") "0".

(** [category], [retryable], [switch account]. *)
Record UpstreamErrorClass := mkClass {
  Category : string;
  Retryable : bool;
  SwitchAccount : bool;
}.

Definition fatal (c : string) : UpstreamErrorClass := mkClass c false false.
Definition retry_here (c : string) : UpstreamErrorClass := mkClass c true false.
Definition retry_elsewhere (c : string) : UpstreamErrorClass := mkClass c true true.

Definition ClassifyUpstreamError (errStr : string) : UpstreamErrorClass :=
  let lower := ToLower errStr in
  if any_of lower ["context canceled"; "canceled"] then fatal "canceled"
  else if any_of lower [" is not configured"; "configuration error"; "client is nil"]
  then fatal "configuration"
  else if any_of lower ["content policy rejected"; "datainspectionfailed";
                        "input text data may contain"]
  then fatal "client"
  else if Contains lower "empty upstream stream" then fatal "protocol"
  else if Contains lower "rejected the request parameters" then fatal "client"
  else if any_of lower ["protocol error"; "no usable stream events"] then fatal "protocol"
  else if Contains lower "pacing registry capacity reached" then retry_here "local_overload"
  else if Contains lower "billing daily count exceeded" then retry_elsewhere "quota_exhausted"
  else if Contains lower "no usable plan or allowance" then retry_elsewhere "model_unavailable"
  else if any_of lower ["model is not found"; "model not found"; "model is not supported";
                        "model is not allowed"; "no_implementation_available";
                        "context_window_exceeded"; "max_token_limit"; "duplicate request"]
  then fatal "client"
  else if isUpstreamQueueGate lower then retry_here "upstream_queue"
  else if isUpstreamServiceUnavailable lower then retry_here "upstream_unavailable"
  else if isSharedUpstreamQueueRefusal lower then fatal "rate_limit"
  else if HasExplicitHTTPStatus lower "401"
          || any_of lower ["refresh token is expired"; "new browser login is required";
                           "sign in again"; "signed out"; "signed_out"; "invalid_api_key"]
  then retry_elsewhere "auth"
  else if isClineModelEntitlement lower then retry_elsewhere "model_unavailable"
  else if HasExplicitHTTPStatus lower "403" then retry_elsewhere "auth_blocked"
  else if HasExplicitHTTPStatus lower "404" then fatal "auth_blocked"
  else if Contains lower "input is too long" || HasExplicitHTTPStatus lower "400"
  then fatal "client"
  else if HasExplicitHTTPStatus lower "402" || IsCreditExhaustion lower
          || Contains lower "quota_limit"
  then retry_elsewhere "quota_exhausted"
  else if Contains lower "code=6004" then retry_elsewhere "rate_limit"
  else if HasExplicitHTTPStatus lower "429"
          || any_of lower ["qoder agent limit reached"; "qoder model rate limited";
               "cline inference cap reached";
               "available upstream accounts are rate-limited"; "agentlimitresettime";
               "too many requests"; "rate limit"; "rate_limit"; "no remaining quota";
               "quota exceeded"]
  then retry_elsewhere "rate_limit"
  else if any_of lower ["timeout"; "deadline exceeded"; "context deadline"]
  then retry_elsewhere "timeout"
  else if any_of lower ["connection reset"; "connection refused"; "unexpected eof";
                        "use of closed"; "broken pipe"]
          || HasSuffix lower ": eof" || String.eqb lower "eof"
  then retry_elsewhere "network"
  else if HasExplicitHTTPStatus lower "500" || HasExplicitHTTPStatus lower "502"
          || HasExplicitHTTPStatus lower "503" || HasExplicitHTTPStatus lower "504"
          || any_of lower ["llm_unavailable"; "internal_error"]
  then retry_elsewhere "server"
  else retry_elsewhere "unknown".

(** ** public.go *)
Fixpoint table_lookup {A} (table : list (string * A)) (key : string) : option A :=
  match table with
  | [] => None
  | (k, v) :: rest => if String.eqb k key then Some v else table_lookup rest key
  end.

Definition publicStatusForCategory : list (string * Z) := [
  ("quota_exhausted", 429%Z); ("rate_limit", 429%Z); ("upstream_queue", 429%Z);
  ("upstream_unavailable", 503%Z); ("auth", 401%Z); ("auth_blocked", 401%Z);
  ("client", 400%Z); ("model_unavailable", 404%Z); ("configuration", 503%Z);
  ("timeout", 504%Z); ("network", 502%Z); ("server", 502%Z); ("protocol", 502%Z);
  ("local_overload", 502%Z); ("schema_mismatch", 502%Z)].

Definition StatusForCategory (category : string) : Z :=
  default 502%Z (table_lookup publicStatusForCategory (TrimSpace category)).

Definition messageForCategoryTable : list (string * string) := [
  ("configuration", "This provider is not configured correctly. Contact the gateway administrator.");
  ("auth", "The upstream account session has expired. Re-authenticate the account and retry.");
  ("auth_blocked", "The upstream account is not allowed to use this feature. Check its plan and permissions.");
  ("quota_exhausted", "The available upstream accounts have exhausted their quota. Retry after the quota resets or add capacity.");
  ("rate_limit", "The available upstream accounts are rate-limited. Retry after the cooldown.");
  ("upstream_queue", "The upstream is holding this model's requests in a queue and has not admitted this one yet. Retry after the indicated delay.");
  ("upstream_unavailable", "The upstream service for this model is temporarily unavailable. Retry after the indicated delay.");
  ("model_unavailable", "The requested model is unavailable for the selected upstream accounts.");
  ("client", "The upstream rejected the request parameters or model. Check the request and model selection.");
  ("timeout", "The upstream stream timed out while waiting for generated output.");
  ("network", "The gateway lost its connection to the upstream service. Retry later.");
  ("server", "The upstream service is temporarily unavailable. Retry later.");
  ("protocol", "The upstream returned an unsupported stream format. Use the request ID to inspect diagnostics.");
  ("local_overload", "The gateway is temporarily overloaded. Retry later.");
  ("schema_mismatch", "The model's answer did not match the schema this strict request declared. Relax the schema or retry.");
  ("canceled", "The request was canceled.")].

Definition messageForCategory (category : string) : string :=
  match table_lookup messageForCategoryTable (TrimSpace category) with
  | Some message => message
  | None =>
      if String.eqb (TrimSpace category) "" then "The upstream request failed."
      else "The upstream request failed. Use the request ID to inspect diagnostics."
  end.

Definition PublicMessage (errText : string) : string :=
  messageForCategory (Category (ClassifyUpstreamError errText)).

(** ** pool.go *)
Definition PoolAllowanceMessage := "Request failed: every account for this channel has exhausted its allowance. Add credits or accounts, or wait for the quota reset.".
Definition PoolQoderModelMessage := "Request failed: the requested Qoder model is temporarily rate-limited. Please retry after its cooldown or choose another model.".
Definition PoolModelCooldownMessage := "Request failed: the requested model is cooling down on this channel. Please retry after its cooldown or choose another model.".
Definition PoolClineInferenceCapMessage := "Request failed: this Cline account reached its inference cap and is cooling down. Please wait for the cap window to pass or add another Cline account.".
Definition PoolRateLimitedMessage := "Request failed: all available accounts for this channel are currently rate-limited. Please wait for cooldown or add another valid account.".
Definition PoolUpstreamQueueMessage := "Request failed: the upstream is holding this model's requests in a queue and did not admit this one. Retry after the delay indicated by the upstream.".
Definition PoolUpstreamUnavailableMessage := "Request failed: the upstream service for this model is temporarily unavailable. Retry after the delay indicated by the upstream.".
Definition PoolBusyMessage := "Request failed: every account for this channel is busy with other requests. Please retry shortly.".
Definition PoolModelUnavailableMessage := "Request failed: the requested model is not available on this channel's accounts. Choose another model or add an account that supports it.".

Record PoolExhaustion := mkPool {
  pool_Category : string;
  pool_Message : string;
}.

Definition pool_Empty (p : PoolExhaustion) : bool :=
  String.eqb (TrimSpace (pool_Category p)) "".

(** [selectErr] is the text of the pool's error, [None] for a nil error. *)
Definition ClassifyPoolExhaustion (selectErr : option string) (lastErr : string) : PoolExhaustion :=
  let lowerLastErr := ToLower (TrimSpace lastErr) in
  let lowerSelect := match selectErr with Some e => ToLower e | None => "" end in
  if IsCreditExhaustion lowerLastErr || Contains lowerSelect "exhausted their allowance"
  then mkPool "quota_exhausted" PoolAllowanceMessage
  else if any_of lowerLastErr ["no usable plan or allowance";
                               "not subscribed to required model plan"]
  then mkPool "model_unavailable" PoolModelUnavailableMessage
  else if Contains lowerLastErr "cline inference cap reached"
  then mkPool "rate_limit" PoolClineInferenceCapMessage
  else if any_of lowerLastErr ["qoder agent limit reached"; "qoder model rate limited";
                               "model cooldown"]
  then mkPool "rate_limit" PoolQoderModelMessage
  else if Contains lowerSelect "cooling down for the requested model"
  then mkPool "rate_limit" PoolModelCooldownMessage
  else if Contains lowerSelect "not covered by any matching account's plan"
  then mkPool "model_unavailable" PoolModelUnavailableMessage
  else if Contains lowerSelect "cooling down on some matching accounts"
  then mkPool "rate_limit" PoolModelCooldownMessage
  else if Contains lowerSelect "rate-limited or cooling down"
  then mkPool "rate_limit" PoolRateLimitedMessage
  else if Contains lowerSelect "concurrency limit"
  then mkPool "rate_limit" PoolBusyMessage
  else if Contains lowerSelect "is not available in the current"
          && Contains lowerSelect "account pool"
  then mkPool "model_unavailable" PoolModelUnavailableMessage
  else if String.eqb (Category (ClassifyUpstreamError lastErr)) "upstream_queue"
  then mkPool "upstream_queue" PoolUpstreamQueueMessage
  else if String.eqb (Category (ClassifyUpstreamError lastErr)) "upstream_unavailable"
  then mkPool "upstream_unavailable" PoolUpstreamUnavailableMessage
  else if String.eqb (Category (ClassifyUpstreamError lastErr)) "rate_limit"
  then mkPool "rate_limit" PoolRateLimitedMessage
  else mkPool "" "".

(** ** errors.go *)
Record AppError := mkAppError {
  app_Code : string;
  app_Message : string;
  app_HTTPStatus : Z;
  app_RetryAfter : Duration;
}.

Definition New (code message : string) (httpStatus : Z) : AppError :=
  mkAppError code message httpStatus 0.

Definition NewWithRetryAfter (code message : string) (httpStatus : Z) (retryAfter : Duration) : AppError :=
  let err := New code message httpStatus in
  if (0 <? retryAfter)%Z
  then mkAppError (app_Code err) (app_Message err) (app_HTTPStatus err) retryAfter
  else err.

(** [Duration.Seconds] and [math.Ceil], in binary64. *)
Definition duration_seconds (d : Duration) : float64 :=
  f64_add (f64_of_Z (Z.quot d Second))
          (f64_div (f64_of_Z (Z.rem d Second)) (f64_of_Z Second)).

Definition f64_ceil (x : float64) : Z :=
  match x with
  | SpecFloat.S754_finite sign m e =>
      let v := if sign then Z.neg m else Z.pos m in
      if (0 <=? e)%Z then (v * 2 ^ e)%Z else (- ((- v) / 2 ^ (- e)))%Z
  | _ => 0%Z
  end.

(** The Retry-After header [WriteResponse] publishes, when it does. *)
Definition retry_after_header (e : AppError) : option Z :=
  if (0 <? app_RetryAfter e)%Z then
    let seconds := f64_ceil (duration_seconds (app_RetryAfter e)) in
    Some (if (seconds <? 1)%Z then 1%Z else seconds)
  else None.

(** ** Properties: status codes *)
Lemma codeAtDelimiter_in lower start code :
  codeAtDelimiter lower start = Some code -> code ∈ statusCodePrefixes.
Proof.
  unfold codeAtDelimiter. destruct (_ <=? _); [done|]. intros H.
  apply List.find_some in H as [Hin _]. by apply list_elem_of_In.
Qed.

Lemma scan_loop_code fuel lower offset code :
  scan_loop fuel lower offset = Some code -> code = "" \/ code ∈ statusCodePrefixes.
Proof.
  revert offset; induction fuel as [|fuel IH]; intros offset H; simpl in H; [done|].
  destruct (Index _ _) as [i|]; [|simplify_eq; by left].
  destruct (codeAtDelimiter _ _) eqn:E; [|by eapply IH].
  simplify_eq. right. by eapply codeAtDelimiter_in.
Qed.

Lemma Index_lt s sub i : Index s sub = Some i -> sub <> "" -> i < String.length s.
Proof.
  revert i; induction s as [|a s IH]; intros i H Hne; simpl in H.
  - destruct sub; [done|]. simpl in H. done.
  - destruct (HasPrefix _ _); simplify_eq/=; [lia|].
    apply fmap_Some in H as (j & Hj & ->). apply IH in Hj; [lia|done].
Qed.

(** Scanning an error text for a delimited status code always ends: one
    unit of fuel per byte of the text is enough to reach a verdict. *)
Theorem scan_loop_terminates (fuel : nat) (lower : string) (offset : nat) :
  String.length lower - offset < fuel -> scan_loop fuel lower offset <> None.
Proof.
  revert offset; induction fuel as [|fuel IH]; intros offset Hf; [lia|]. simpl.
  destruct (Index _ _) as [i|] eqn:Hi; [|done].
  destruct (codeAtDelimiter _ _); [done|]. apply IH.
  apply Index_lt in Hi; [|done]. rewrite sdrop_length in Hi. lia.
Qed.

Lemma scan_loop_terminates_witness :
  scan_loop 10 "a: b: 401" 0 <> None /\ scan_loop 10 "a: b: 401" 0 = Some "401".
Proof.
  split; [|reflexivity]. apply (scan_loop_terminates 10 "a: b: 401" 0). simpl. lia.
Defined.

(** The same scan read off the text from left to right. *)
Fixpoint strip_spaces (s : string) : string :=
  match s with
  | String a s' => if is_byte 32 a then strip_spaces s' else s
  | EmptyString => s
  end.

Definition code_at_head (tail : string) : option string :=
  List.find (fun code =>
    HasPrefix tail code && code_delimited (sdrop (String.length code) tail))
    statusCodePrefixes.

Fixpoint leftmost_code (s : string) : string :=
  match s with
  | EmptyString => ""
  | String a s' =>
      if is_byte 58 a then
        match code_at_head (strip_spaces s') with
        | Some code => code
        | None => leftmost_code s'
        end
      else leftmost_code s'
  end.

Lemma skip_spaces_drop s pos lower :
  sdrop pos lower = s -> sdrop (skip_spaces s pos) lower = strip_spaces s.
Proof.
  revert pos; induction s as [|a s IH]; intros pos Hs; simpl; [done|].
  destruct (is_byte 32 a); [|done]. apply IH.
  clear IH. revert lower Hs.
  induction pos as [|pos IHp]; intros [|b lower] Hs; simpl in Hs; simplify_eq; [done|].
  by apply IHp.
Qed.

Lemma codeAtDelimiter_head lower start :
  codeAtDelimiter lower start = code_at_head (sdrop start lower).
Proof.
  unfold codeAtDelimiter. destruct (Nat.leb_spec (String.length lower) start) as [Hle|]; [|done].
  assert (Hd : sdrop start lower = "").
  { pose proof (sdrop_length start lower) as Hl.
    destruct (sdrop start lower); [done|]. simpl in Hl. lia. }
  by rewrite Hd.
Qed.

Lemma sdrop_sdrop n m s : sdrop m (sdrop n s) = sdrop (n + m) s.
Proof.
  revert s; induction n as [|n IH]; intros s; simpl; [done|].
  destruct s; [by destruct m|]. apply IH.
Qed.

Lemma colon_prefix a s : HasPrefix (String a s) ":" = is_byte 58 a.
Proof.
  change (Ascii.eqb ":"%char a && true = is_byte 58 a). rewrite andb_true_r.
  unfold is_byte, byte_of. destruct (Ascii.eqb_spec ":"%char a) as [<-|Hne]; [done|].
  symmetry. apply Nat.eqb_neq. intros H. apply Hne.
  rewrite <- (Ascii.ascii_nat_embedding a), H. done.
Qed.

Lemma leftmost_code_Index s :
  leftmost_code s =
  match Index s ":" with
  | None => ""
  | Some i => match code_at_head (strip_spaces (sdrop (i + 1) s)) with
              | Some code => code
              | None => leftmost_code (sdrop (i + 1) s)
              end
  end.
Proof.
  induction s as [|a s IH]; [done|].
  cbn [leftmost_code Index]. rewrite colon_prefix. destruct (is_byte 58 a); [done|].
  rewrite IH. by destruct (Index s ":").
Qed.

Lemma scan_loop_leftmost fuel lower offset :
  String.length lower - offset < fuel ->
  scan_loop fuel lower offset = Some (leftmost_code (sdrop offset lower)).
Proof.
  revert offset; induction fuel as [|fuel IH]; intros offset Hf; [lia|]. cbn [scan_loop].
  rewrite leftmost_code_Index.
  destruct (Index _ _) as [i|] eqn:Hi; [|done].
  rewrite sdrop_sdrop, Nat.add_assoc, codeAtDelimiter_head, skip_spaces_drop by done.
  destruct (code_at_head _); [done|].
  apply Index_lt in Hi; [|done]. rewrite sdrop_length in Hi.
  by rewrite IH by lia.
Qed.

(** The colon-by-colon scan with its offsets computes the status code of
    the leftmost colon that is followed, after spaces, by a delimited code. *)
Theorem scanStatusCode_leftmost (lower : string) :
  scanStatusCode lower = leftmost_code lower.
Proof. unfold scanStatusCode. by rewrite scan_loop_leftmost by lia. Qed.

(** An account status is one of the five account-level codes or empty, so
    no other text can become the persisted status of an account. *)
Theorem ClassifyAccountStatus_range (errStr : string) :
  ClassifyAccountStatus errStr = "" \/ ClassifyAccountStatus errStr ∈ statusCodePrefixes.
Proof.
  unfold ClassifyAccountStatus. set (lower := ToLower errStr).
  assert (Hl : forall o, (forall c, o = Some c -> c = "" \/ c ∈ statusCodePrefixes) ->
                 default "" o = "" \/ default "" o ∈ statusCodePrefixes).
  { intros [c|] Hc; [by apply Hc|by left]. }
  repeat (case_match; [try (by left); try (by right; apply list_elem_of_In; simpl; tauto)|]).
  - apply Hl. intros c Hc. right. by eapply codeAtDelimiter_in.
  - apply Hl. apply scan_loop_code.
  - by left.
Qed.

(** ** Properties: retry classes *)
Definition categories : list string := [
  "canceled"; "configuration"; "client"; "protocol"; "local_overload"; "quota_exhausted";
  "model_unavailable"; "upstream_queue"; "upstream_unavailable"; "rate_limit"; "auth";
  "auth_blocked"; "timeout"; "network"; "server"; "unknown"].

(** Follows the classifier's branches, one goal per verdict. *)
Ltac classify_cases :=
  unfold ClassifyUpstreamError; cbv zeta;
  repeat match goal with
  | |- context [if ?b then _ else _] =>
      lazymatch b with
      | context [if _ then _ else _] => fail
      | _ => destruct b
      end
  end.

(** Every verdict is one of sixteen categories, a request is switched to
    another account only when it may be retried at all, and every verdict has
    a public status that is an error and a public text. *)
Theorem ClassifyUpstreamError_wellformed (errStr : string) :
  let c := ClassifyUpstreamError errStr in
  Category c ∈ categories /\
  (SwitchAccount c = true -> Retryable c = true) /\
  (400 <= StatusForCategory (Category c) <= 504)%Z /\
  PublicMessage errStr <> "".
Proof.
  cbv zeta. unfold PublicMessage.
  assert (H : forall c, c ∈ [fatal "canceled"; fatal "configuration"; fatal "client";
    fatal "protocol"; retry_here "local_overload"; retry_elsewhere "quota_exhausted";
    retry_elsewhere "model_unavailable"; retry_here "upstream_queue";
    retry_here "upstream_unavailable"; fatal "rate_limit"; retry_elsewhere "auth";
    retry_elsewhere "auth_blocked"; fatal "auth_blocked"; retry_elsewhere "rate_limit";
    retry_elsewhere "timeout"; retry_elsewhere "network"; retry_elsewhere "server";
    retry_elsewhere "unknown"] ->
    Category c ∈ categories /\ (SwitchAccount c = true -> Retryable c = true) /\
    (400 <= StatusForCategory (Category c) <= 504)%Z /\ messageForCategory (Category c) <> "").
  { intros c Hc. repeat (apply elem_of_cons in Hc as [->|Hc];
      [repeat split; try (by vm_compute); by apply list_elem_of_In; vm_compute; tauto|]).
    by apply elem_of_nil in Hc. }
  apply H. clear H. apply list_elem_of_In.
  classify_cases; cbn [In]; tauto.
Qed.

(** ** Properties: markers inside nested JSON

    One more level of JSON nesting puts a backslash before every quote and
    backslash of the payload. *)
Definition escaped (a : ascii) : bool := is_byte 34 a || is_byte 92 a.

Fixpoint json_escape (s : string) : string :=
  match s with
  | EmptyString => EmptyString
  | String a s' =>
      if escaped a then String backslash (String a (json_escape s'))
      else String a (json_escape s')
  end.

Lemma escaped_ascii7 a : escaped a = true -> ascii7 a = true.
Proof.
  unfold escaped, is_byte, ascii7. rewrite orb_true_iff, !Nat.eqb_eq, Nat.ltb_lt. lia.
Qed.

Lemma is_byte_ascii7 n a : is_byte n a = true -> 128 <= n -> ascii7 a = false.
Proof. unfold is_byte, ascii7. rewrite Nat.eqb_eq. intros -> ?. by apply Nat.ltb_ge. Qed.

(** The first rune of a string, lower-cased, and what follows it. *)
Definition lower_step (s : string) : option (ascii * string) :=
  match s with
  | EmptyString => None
  | String a (String b s2 as s1) =>
      if is_byte 196 a && is_byte 176 b then Some ("i"%char, s2)
      else match s2 with
           | String c s3 =>
               if is_byte 226 a && is_byte 132 b && is_byte 170 c then Some ("k"%char, s3)
               else Some (lower_byte a, s1)
           | EmptyString => Some (lower_byte a, s1)
           end
  | String a EmptyString => Some (lower_byte a, EmptyString)
  end.

Lemma ToLower_step s :
  ToLower s = match lower_step s with
              | Some (o, r) => String o (ToLower r)
              | None => EmptyString
              end.
Proof.
  destruct s as [|a [|b s2]]; try done. cbn [ToLower lower_step].
  destruct (is_byte 196 a && is_byte 176 b); [done|].
  destruct s2 as [|c s3]; [done|].
  by destruct (is_byte 226 a && is_byte 132 b && is_byte 170 c).
Qed.

Lemma lower_step_shorter s o r :
  lower_step s = Some (o, r) -> String.length r < String.length s.
Proof.
  destruct s as [|a [|b [|c s3]]]; simpl; intros H; repeat case_match; simplify_eq/=; lia.
Qed.

Lemma escaped_head b s n :
  128 <= n ->
  match json_escape (String b s) with
  | String b' t => is_byte n b' = is_byte n b /\
                   (is_byte n b = true -> t = json_escape s)
  | EmptyString => False
  end.
Proof.
  intros Hn. cbn [json_escape]. destruct (escaped b) eqn:Hb; [|done].
  apply escaped_ascii7 in Hb. rewrite (ascii7_not_multibyte b n) by done.
  by rewrite (ascii7_not_multibyte backslash n).
Qed.

(** Escaping either inserts one backslash before the first rune or keeps it. *)
Lemma lower_step_escape s o r :
  lower_step s = Some (o, r) ->
  lower_step (json_escape s) = Some (o, json_escape r) \/
  (exists t, json_escape s = String backslash t /\ lower_step t = Some (o, json_escape r)).
Proof.
  destruct s as [|a s1]; [done|]. destruct (ascii7 a) eqn:Ha.
  - (* an ASCII byte is a rune of its own *)
    assert (Hs : forall t, lower_step (String a t) = Some (lower_byte a, t)).
    { intros [|b [|c t]]; cbn [lower_step]; [done| |];
        rewrite (ascii7_not_multibyte a 196), ?(ascii7_not_multibyte a 226) by (done || lia); done. }
    rewrite Hs. intros [= <- <-]. cbn [json_escape]. destruct (escaped a); [right|left]; eauto.
  - assert (He : escaped a = false).
    { destruct (escaped a) eqn:E; [|done]. apply escaped_ascii7 in E. congruence. }
    intros H. left. cbn [json_escape]. rewrite He.
    destruct s1 as [|b s2]; [by injection H as <- <-|].
    pose proof (escaped_head b s2 176 ltac:(lia)) as H176.
    pose proof (escaped_head b s2 132 ltac:(lia)) as H132.
    cbn [lower_step] in *. set (e := json_escape (String b s2)) in *.
    destruct e as [|b' t] eqn:Ee; [done|]. subst e.
    destruct H176 as [-> Ht1], H132 as [H132 Ht2].
    destruct (is_byte 196 a && is_byte 176 b) eqn:E1.
    { apply andb_true_iff in E1 as [_ E1]. injection H as <- <-. by rewrite Ht1. }
    rewrite H132. destruct (is_byte 132 b) eqn:E2; [rewrite (Ht2 eq_refl)|].
    + destruct s2 as [|c s3]; [injection H as <- <-; by rewrite Ee, Ht2|].
      pose proof (escaped_head c s3 170 ltac:(lia)) as H170.
      set (e2 := json_escape (String c s3)) in *. destruct e2 as [|c' u] eqn:Eu; [done|].
      destruct H170 as [-> Hu].
      destruct (is_byte 226 a && true && is_byte 170 c) eqn:E3.
      * apply andb_true_iff in E3 as [_ E3]. injection H as <- <-. by rewrite Hu.
      * injection H as <- <-. by rewrite Ee, Ht2, <- Eu by done.
    + rewrite andb_false_r in *. cbn [andb] in *.
      replace r with (String b s2) by (destruct s2; congruence).
      replace o with (lower_byte a) by (destruct s2; congruence).
      rewrite Ee. by destruct t.
Qed.

Lemma upstreamMarkerText_escape s : upstreamMarkerText (json_escape s) = upstreamMarkerText s.
Proof.
  unfold upstreamMarkerText.
  induction s as [s IH] using (induction_ltof1 _ String.length). unfold ltof in IH.
  rewrite (ToLower_step s). destruct (lower_step s) as [[o r]|] eqn:Hs.
  - pose proof (lower_step_shorter _ _ _ Hs) as Hlt. specialize (IH r Hlt).
    destruct (lower_step_escape s o r Hs) as [He|(t & He & Ht)].
    + rewrite ToLower_step, He. cbn [RemoveAll]. by rewrite IH.
    + rewrite He, ToLower_cons by done. change (lower_byte backslash) with backslash.
      rewrite (ToLower_step t), Ht. cbn [RemoveAll]. by rewrite IH.
  - destruct s as [|a [|b [|c s]]]; simpl in Hs; [done|done|..]; repeat case_match; done.
Qed.

(** The markers of a queue refusal, of a closed service and of a shared
    throttle read the same in a payload and in a copy of it nested inside
    another JSON string, at any depth of nesting. *)
Theorem upstream_markers_nesting (n : nat) (payload : string) :
  let nested := Nat.iter n json_escape payload in
  isUpstreamQueueGate nested = isUpstreamQueueGate payload /\
  isUpstreamServiceUnavailable nested = isUpstreamServiceUnavailable payload /\
  isSharedUpstreamQueueRefusal nested = isSharedUpstreamQueueRefusal payload.
Proof.
  cbv zeta. unfold isUpstreamQueueGate, isUpstreamServiceUnavailable, isSharedUpstreamQueueRefusal.
  assert (H : upstreamMarkerText (Nat.iter n json_escape payload) = upstreamMarkerText payload).
  { induction n as [|n IH]; [done|]. simpl. by rewrite upstreamMarkerText_escape. }
  by rewrite H.
Qed.

(** The refusal Qoder sends, nested once inside another payload. *)
Definition queued_payload : string :=
  "{" +:+ dquote +:+ "isQueued" +:+ dquote +:+ ":true," +:+ dquote +:+
  "serviceAvailable" +:+ dquote +:+ ":false}".

Example queued_payload_nested :
  Category (ClassifyUpstreamError (json_escape queued_payload)) = "upstream_queue".
Proof. vm_compute. reflexivity. Qed.
