(* ===== verification/Account.v ===== *)
(** * Accounts (internal/store/store.go, quota_snapshots.go, account_cooldown.go)

    The Account row, its provider snapshots, and the per-model cooldowns. The
    Go struct is flat; its fields are grouped here by the subject whose merge
    rule moves them (account_merge.go), one record per subject, and the
    coercions let every field be read off an account as in the Go code. *)

From stdpp Require Import base numbers list strings gmap.
From S2P Require Import Prelude GoLib.

(** ** quota_snapshots.go *)
Record QoderQuotaSnapshot := mkQoderQuota {
  qq_Limit : float64;
  qq_Remaining : float64;
  qq_Used : float64;
  qq_Exhausted : bool;
  qq_PlanTier : string;
  qq_UserType : string;
  qq_PaidPlan : bool;
  qq_Unit : string;
  qq_UpgradeURL : string;
  qq_ResetAt : Time;
  qq_PeriodEnd : Time;
  qq_LastKnownLimit : float64;
  qq_SyncedAt : Time;
}.

Definition qoder_ResyncAt (s : QoderQuotaSnapshot) : Time :=
  if IsZero (qq_SyncedAt s) then zero_time
  else if negb (IsZero (qq_ResetAt s)) then qq_ResetAt s
  else qq_SyncedAt s.

Record WorkBuddyQuotaSnapshot := mkWorkBuddyQuota {
  wq_Limit : float64;
  wq_Remaining : float64;
  wq_Used : float64;
  wq_PackageRemaining : float64;
  wq_LastConsumedUnits : Z;
  wq_ResetAt : Time;
  wq_PeriodEnd : Time;
  wq_PackageName : string;
  wq_Unit : string;
  wq_SyncedAt : Time;
}.

Definition workbuddy_ResyncAt (s : WorkBuddyQuotaSnapshot) : Time :=
  if IsZero (wq_SyncedAt s) then zero_time
  else if IsZero (wq_ResetAt s) then wq_SyncedAt s
  else wq_ResetAt s.

Record GrokQuotaWindow := mkGrokWindow {
  gw_Limit : float64;
  gw_Remaining : float64;
  gw_UsagePercent : float64;
  gw_HasLimit : bool;
  gw_HasRemaining : bool;
  gw_HasUsage : bool;
  gw_ResetAt : Time;
}.

Record GrokBillingSnapshot := mkGrokBilling {
  gb_Weekly : GrokQuotaWindow;
  gb_Monthly : GrokQuotaWindow;
  gb_SyncedAt : Time;
  gb_Source : string;
  gb_NextProbeAt : Time;
  gb_LastProbeAt : Time;
}.

Definition GrokPaidQuotaProbeInterval : Duration := (15 * Minute)%Z.

Definition IsExhausted (b : GrokBillingSnapshot) : bool :=
  let m := gb_Monthly b in
  let w := gb_Weekly b in
  if gw_HasLimit m && f64_lt f64_zero (gw_Limit m) && gw_HasRemaining m
     && f64_le (gw_Remaining m) f64_zero
  then true
  else gw_HasUsage w && f64_le (f64_of_Z 100) (gw_UsagePercent w)
       && negb (IsZero (gw_ResetAt w)).

Definition PeriodEnd (b : GrokBillingSnapshot) : Time :=
  if After (gw_ResetAt (gb_Monthly b)) (gw_ResetAt (gb_Weekly b))
  then gw_ResetAt (gb_Monthly b)
  else gw_ResetAt (gb_Weekly b).

Record GrokRateLimitSnapshot := mkGrokRateLimits {
  gr_Requests : GrokQuotaWindow;
  gr_Tokens : GrokQuotaWindow;
  gr_Model : string;
  gr_ObservedAt : Time;
}.

Record GrokFreeQuotaSnapshot := mkGrokFreeQuota {
  gf_Used : float64;
  gf_Limit : float64;
  gf_HasLimit : bool;
  gf_ResetAt : Time;
  gf_ConfirmedAt : Time;
}.

(** ** modelcatalog.Profile *)
Record Profile := mkProfile {
  ModelID : string;
  ReasoningEfforts : list string;
  DefaultReasoningEffort : string;
  SupportsReasoningEffort : bool;
  ContextWindow : Z;
  MaxCompletionTokens : Z;
  SupportsBackendSearch : bool;
}.

(** ** store.go: the account row

    A slice the code tests against nil is an option; [Weight] and the counters
    are Go ints. *)
Record Identity := mkIdentity {
  ID : Z;
  Name : string;
  AccountType : string;
  ClientCookie : string;
  RefreshToken : string;
  UserID : string;
  AgentMode : string;
  Email : string;
  Weight : Z;
  MaxConcurrent : Z;
  Enabled : bool;
  Token : string;
  Subscription : string;
}.

Record Usage := mkUsage {
  UsageCurrent : float64;
  UsageTotal : float64;
  UsageLimit : float64;
  TokensToday : float64;
  TokensDate : string;
  RequestCount : Z;
  LastUsedAt : Time;
}.

Record Status := mkStatus {
  StatusCode : string;
  AuthStatus : string;
  RateLimitFailures : Z;
  StatusMessage : string;
  LastAttempt : Time;
  VerifiedAt : Time;
  ClearVerifiedAt : bool;
  QuotaResetAt : Time;
}.

Record Quality := mkQuality {
  QualityFailures : Z;
  QualityCooldownUntil : Time;
}.

Record Stamps := mkStamps {
  CreatedAt : Time;
  UpdatedAt : Time;
}.

Record GrokState := mkGrokState {
  CredentialType : string;
  OAuthAccessToken : string;
  OAuthRefreshToken : string;
  OAuthExpiresAt : Time;
  TeamID : string;
  GrokProvider : string;
  GrokModels : option (list string);
  GrokModelCatalog : option (list Profile);
  GrokModelsSyncedAt : Time;
  GrokBilling : GrokBillingSnapshot;
  GrokRateLimits : GrokRateLimitSnapshot;
  GrokFreeQuota : GrokFreeQuotaSnapshot;
}.

(** [ModelCooldownReason] is a Go string type. *)
Abbreviation ModelCooldownReason := string (only parsing).
Definition ModelCooldownThrottled : ModelCooldownReason := "throttled".
Definition ModelCooldownUnavailable : ModelCooldownReason := "unavailable".
Definition ModelCooldownEntitlementFloor : Duration := Hour.

Record Cooldowns := mkCooldowns {
  ModelCooldowns : gmap string Time;
  ModelCooldownReasons : gmap string ModelCooldownReason;
}.

Record WorkBuddyState := mkWorkBuddyState {
  WorkBuddyAccessToken : string;
  WorkBuddyRefreshToken : string;
  WorkBuddyExpiresAt : Time;
  WorkBuddyUID : string;
  ReplaceWorkBuddyCredentials : bool;
  WorkBuddyModelIDs : list string;
  WorkBuddyModelsSyncedAt : Time;
  WorkBuddyQuota : WorkBuddyQuotaSnapshot;
}.

Record QoderState := mkQoderState {
  QoderAccessToken : string;
  QoderRefreshToken : string;
  QoderExpiresAt : Time;
  ReplaceQoderCredentials : bool;
  QoderMachineID : string;
  QoderUserID : string;
  QoderUserName : string;
  QoderOrganizationID : string;
  QoderOrganizationTags : list string;
  QoderDataPolicy : bool;
  QoderRuntimeInfo : string;
  QoderRuntimeKey : string;
  QoderModelIDs : list string;
  QoderModelsSyncedAt : Time;
  QoderQuota : QoderQuotaSnapshot;
}.

Record ClineState := mkClineState {
  ClineAccessToken : string;
  ClineRefreshToken : string;
  ClineExpiresAt : Time;
  ClineEmail : string;
  ClinePlan : string;
  ReplaceClineCredentials : bool;
  ClineModelIDs : list string;
  ClineModelsSyncedAt : Time;
}.

Record Account := mkAccount {
  identity :> Identity;
  usage :> Usage;
  status :> Status;
  quality :> Quality;
  stamps :> Stamps;
  grok :> GrokState;
  cooldowns :> Cooldowns;
  workbuddy :> WorkBuddyState;
  qoder :> QoderState;
  cline :> ClineState;
}.

(** The row with one subject replaced. *)
Definition set_status (acc : Account) (st : Status) : Account :=
  mkAccount (identity acc) (usage acc) st (quality acc) (stamps acc) (grok acc)
    (cooldowns acc) (workbuddy acc) (qoder acc) (cline acc).
Definition set_cooldowns (acc : Account) (c : Cooldowns) : Account :=
  mkAccount (identity acc) (usage acc) (status acc) (quality acc) (stamps acc) (grok acc)
    c (workbuddy acc) (qoder acc) (cline acc).
Definition set_stamps (acc : Account) (s : Stamps) : Account :=
  mkAccount (identity acc) (usage acc) (status acc) (quality acc) s (grok acc)
    (cooldowns acc) (workbuddy acc) (qoder acc) (cline acc).
Definition set_grok (acc : Account) (g : GrokState) : Account :=
  mkAccount (identity acc) (usage acc) (status acc) (quality acc) (stamps acc) g
    (cooldowns acc) (workbuddy acc) (qoder acc) (cline acc).
Definition set_quality (acc : Account) (q : Quality) : Account :=
  mkAccount (identity acc) (usage acc) (status acc) q (stamps acc) (grok acc)
    (cooldowns acc) (workbuddy acc) (qoder acc) (cline acc).
Definition set_identity (acc : Account) (i : Identity) : Account :=
  mkAccount i (usage acc) (status acc) (quality acc) (stamps acc) (grok acc)
    (cooldowns acc) (workbuddy acc) (qoder acc) (cline acc).
Definition set_usage (acc : Account) (u : Usage) : Account :=
  mkAccount (identity acc) u (status acc) (quality acc) (stamps acc) (grok acc)
    (cooldowns acc) (workbuddy acc) (qoder acc) (cline acc).
Definition set_workbuddy (acc : Account) (w : WorkBuddyState) : Account :=
  mkAccount (identity acc) (usage acc) (status acc) (quality acc) (stamps acc) (grok acc)
    (cooldowns acc) w (qoder acc) (cline acc).
Definition set_qoder (acc : Account) (q : QoderState) : Account :=
  mkAccount (identity acc) (usage acc) (status acc) (quality acc) (stamps acc) (grok acc)
    (cooldowns acc) (workbuddy acc) q (cline acc).
Definition set_cline (acc : Account) (c : ClineState) : Account :=
  mkAccount (identity acc) (usage acc) (status acc) (quality acc) (stamps acc) (grok acc)
    (cooldowns acc) (workbuddy acc) (qoder acc) c.

Definition AccountStatusQoderQuotaExhausted : string := "qoder_quota_exhausted".
Definition AccountStatusWorkBuddyQuotaExhausted : string := "workbuddy_quota_exhausted".
Definition AccountAuthStatusActive : string := "active".
Definition AccountAuthStatusReauthRequired : string := "reauthRequired".

(** A [*Account] that may be nil is an option. *)
Definition AccountAuthActive (acc : option Account) : bool :=
  match acc with
  | None => false
  | Some acc =>
      let st := TrimSpace (AuthStatus acc) in
      String.eqb st "" || EqualFold st AccountAuthStatusActive
  end.

Definition Secrets (a : option Account) : list string :=
  match a with
  | None => []
  | Some a => [
      Token a; ClientCookie a; RefreshToken a; OAuthAccessToken a; OAuthRefreshToken a;
      WorkBuddyAccessToken a; WorkBuddyRefreshToken a; QoderAccessToken a;
      QoderRefreshToken a; QoderRuntimeInfo a; QoderRuntimeKey a; ClineAccessToken a;
      ClineRefreshToken a]
  end.

(** Zero values, the starting point of concrete rows. *)
Definition zero_window : GrokQuotaWindow :=
  mkGrokWindow f64_zero f64_zero f64_zero false false false 0.
Definition zero_account : Account :=
  mkAccount
    (mkIdentity 0 "" "" "" "" "" "" "" 0 0 false "" "")
    (mkUsage f64_zero f64_zero f64_zero f64_zero "" 0 0)
    (mkStatus "" "" 0 "" 0 0 false 0)
    (mkQuality 0 0) (mkStamps 0 0)
    (mkGrokState "" "" "" 0 "" "" None None 0
       (mkGrokBilling zero_window zero_window 0 "" 0 0)
       (mkGrokRateLimits zero_window zero_window "" 0)
       (mkGrokFreeQuota f64_zero f64_zero false 0 0))
    (mkCooldowns ∅ ∅)
    (mkWorkBuddyState "" "" 0 "" false [] 0
       (mkWorkBuddyQuota f64_zero f64_zero f64_zero f64_zero 0 0 0 "" "" 0))
    (mkQoderState "" "" 0 false "" "" "" "" [] false "" "" [] 0
       (mkQoderQuota f64_zero f64_zero f64_zero false "" "" false "" "" 0 0 f64_zero 0))
    (mkClineState "" "" 0 "" "" false [] 0).

(** A row with an identifier, a channel and a status, for concrete inputs. *)
Definition sample_account (id : Z) (channel : string) (st : Status) : Account :=
  set_status (set_identity zero_account
    (mkIdentity id "" channel "" "" "" "" "" 1 0 true "" "")) st.
Definition no_status : Status := mkStatus "" "" 0 "" 0 0 false 0.

(** ** Decidable equality ([reflect.DeepEqual] on a decoded row) *)
#[export] Instance float64_eq_dec : EqDecision float64.
Proof. solve_decision. Defined.
#[export] Instance QoderQuota_eq_dec : EqDecision QoderQuotaSnapshot.
Proof. solve_decision. Defined.
#[export] Instance WorkBuddyQuota_eq_dec : EqDecision WorkBuddyQuotaSnapshot.
Proof. solve_decision. Defined.
#[export] Instance GrokQuotaWindow_eq_dec : EqDecision GrokQuotaWindow.
Proof. solve_decision. Defined.
#[export] Instance GrokBilling_eq_dec : EqDecision GrokBillingSnapshot.
Proof. solve_decision. Defined.
#[export] Instance GrokRateLimits_eq_dec : EqDecision GrokRateLimitSnapshot.
Proof. solve_decision. Defined.
#[export] Instance GrokFreeQuota_eq_dec : EqDecision GrokFreeQuotaSnapshot.
Proof. solve_decision. Defined.
#[export] Instance Profile_eq_dec : EqDecision Profile.
Proof. solve_decision. Defined.
#[export] Instance Identity_eq_dec : EqDecision Identity.
Proof. solve_decision. Defined.
#[export] Instance Usage_eq_dec : EqDecision Usage.
Proof. solve_decision. Defined.
#[export] Instance Status_eq_dec : EqDecision Status.
Proof. solve_decision. Defined.
#[export] Instance Quality_eq_dec : EqDecision Quality.
Proof. solve_decision. Defined.
#[export] Instance Stamps_eq_dec : EqDecision Stamps.
Proof. solve_decision. Defined.
#[export] Instance GrokState_eq_dec : EqDecision GrokState.
Proof. solve_decision. Defined.
#[export] Instance Cooldowns_eq_dec : EqDecision Cooldowns.
Proof. solve_decision. Defined.
#[export] Instance WorkBuddyState_eq_dec : EqDecision WorkBuddyState.
Proof. solve_decision. Defined.
#[export] Instance QoderState_eq_dec : EqDecision QoderState.
Proof. solve_decision. Defined.
#[export] Instance ClineState_eq_dec : EqDecision ClineState.
Proof. solve_decision. Defined.
#[export] Instance Account_eq_dec : EqDecision Account.
Proof. solve_decision. Defined.
