(* ===== verification/Cooldown.v ===== *)
(** * Per-model cooldowns (internal/store/account_cooldown.go)

    Recording, merging and reading the deadline a model of an account is
    withheld until, and the label that says why. A Go map is a [gmap]; the order
    in which [range] visits it is the order of the list the loops fold over, and
    the theorems hold for every order. *)

From stdpp Require Import base numbers list strings gmap.
From S2P Require Import Prelude GoLib Account.

Local Open Scope Z_scope.

Definition knownModelCooldownReason (reason : ModelCooldownReason) : ModelCooldownReason :=
  if String.eqb reason ModelCooldownThrottled || String.eqb reason ModelCooldownUnavailable
  then reason else "".

(** ** Merging two deadline maps *)
Definition expired (now until : Time) : bool := IsZero until || negb (After until now).

Definition merge_cooldown (now : Time) (merged : gmap string Time)
    (entry : string * Time) : gmap string Time :=
  let '(model, until) := entry in
  let name := TrimSpace model in
  if String.eqb name "" || expired now until then merged
  else match merged !! name with
       | Some current => if After until current then <[name := until]> merged else merged
       | None => <[name := until]> merged
       end.

Definition mergeModelCooldowns (now : Time) (existing incoming : gmap string Time)
    : gmap string Time :=
  foldl (merge_cooldown now) ∅ (map_to_list existing ++ map_to_list incoming).

(** ** Merging the labels *)
Definition until_of (m : gmap string Time) (name : string) : Time := default 0 (m !! name).

Definition merge_existing_reason (now : Time) (existingUntil : gmap string Time)
    (merged : gmap string ModelCooldownReason) (entry : string * ModelCooldownReason)
    : gmap string ModelCooldownReason :=
  let '(model, reason) := entry in
  let name := TrimSpace model in
  let until := until_of existingUntil name in
  if String.eqb name "" || expired now until then merged
  else if negb (String.eqb (knownModelCooldownReason reason) "")
       then <[name := knownModelCooldownReason reason]> merged else merged.

(** [stored, had := existingUntil[name]; had && stored.After(until)] *)
Definition outlasted_by (m : gmap string Time) (name : string) (until : Time) : bool :=
  match m !! name with
  | Some stored => After stored until
  | None => false
  end.

Definition merge_incoming_reason (now : Time) (existingUntil incomingUntil : gmap string Time)
    (merged : gmap string ModelCooldownReason) (entry : string * ModelCooldownReason)
    : gmap string ModelCooldownReason :=
  let '(model, reason) := entry in
  let name := TrimSpace model in
  match incomingUntil !! name with
  | None => merged
  | Some until =>
      if String.eqb name "" || expired now until then merged
      else
        if outlasted_by existingUntil name until then merged
        else if negb (String.eqb (knownModelCooldownReason reason) "")
             then <[name := knownModelCooldownReason reason]> merged else merged
  end.

Definition mergeModelCooldownReasons (now : Time)
    (existing incoming : gmap string ModelCooldownReason)
    (existingUntil incomingUntil : gmap string Time) : gmap string ModelCooldownReason :=
  foldl (merge_incoming_reason now existingUntil incomingUntil)
    (foldl (merge_existing_reason now existingUntil) ∅ (map_to_list existing))
    (map_to_list incoming).

(** ** Recording and reading one cooldown; [now] is the instant the call reads *)
Definition RecordModelCooldownWithReason (now : Time) (acc : Account) (model : string)
    (until : Time) (reason : ModelCooldownReason) : Account :=
  if expired now until then acc
  else
    let name := TrimSpace model in
    if String.eqb name "" then acc
    else
      if match ModelCooldowns acc !! name with
         | Some current => negb (After until current)
         | None => false
         end then acc
      else
        let known := knownModelCooldownReason reason in
        set_cooldowns acc (mkCooldowns
          (<[name := until]> (ModelCooldowns acc))
          (<[name := if negb (String.eqb known "") then known else ModelCooldownThrottled]>
             (ModelCooldownReasons acc))).

Definition RecordModelCooldown (now : Time) (acc : Account) (model : string) (until : Time) : Account :=
  RecordModelCooldownWithReason now acc model until ModelCooldownThrottled.

Definition ModelCooldownRemaining (acc : Account) (model : string) (now : Time) : Duration :=
  match ModelCooldowns acc !! TrimSpace model with
  | None => 0
  | Some until => if expired now until then 0 else Sub until now
  end.

Definition ModelCooldownKind (acc : Account) (model : string) (now : Time) : ModelCooldownReason :=
  let name := TrimSpace model in
  let remaining := ModelCooldownRemaining acc name now in
  if remaining <=? 0 then ""
  else
    let known := knownModelCooldownReason (default "" (ModelCooldownReasons acc !! name)) in
    if negb (String.eqb known "") then known
    else if ModelCooldownEntitlementFloor <? remaining then ModelCooldownUnavailable
    else ModelCooldownThrottled.

(** ** The latest deadline of a model, read off the entries in any order *)
Definition omax (a b : option Time) : option Time :=
  match a, b with
  | Some x, Some y => Some (Z.max x y)
  | Some x, None => Some x
  | None, _ => b
  end.

Definition entry_until (now : Time) (n : string) (e : string * Time) : option Time :=
  if String.eqb (TrimSpace e.1) n && negb (String.eqb n "") && negb (expired now e.2)
  then Some e.2 else None.

Definition latest (now : Time) (n : string) (es : list (string * Time)) : option Time :=
  foldr (fun e acc => omax (entry_until now n e) acc) None es.

Lemma omax_assoc a b c : omax a (omax b c) = omax (omax a b) c.
Proof. destruct a, b, c; simpl; f_equal; lia. Qed.
Lemma omax_comm a b : omax a b = omax b a.
Proof. destruct a, b; simpl; f_equal; lia. Qed.
Lemma omax_None_r a : omax a None = a.
Proof. by destruct a. Qed.

Lemma latest_perm now n es es' : es ≡ₚ es' -> latest now n es = latest now n es'.
Proof.
  induction 1 as [|e es es' _ IH|e e' es|]; simpl; [done|by rewrite IH| |congruence].
  by rewrite !omax_assoc, (omax_comm (entry_until now n e)).
Qed.

Lemma latest_app now n es es' : latest now n (es ++ es') = omax (latest now n es) (latest now n es').
Proof. induction es as [|e es IH]; simpl; [done|]. by rewrite IH, omax_assoc. Qed.

Lemma merge_cooldown_lookup now m e n :
  merge_cooldown now m e !! n = omax (m !! n) (entry_until now n e).
Proof.
  destruct e as [model until]. unfold merge_cooldown, entry_until. cbn [fst snd].
  destruct (String.eqb_spec (TrimSpace model) n) as [<-|Hne]; cbn [andb].
  - destruct (String.eqb (TrimSpace model) ""); cbn [orb andb negb]; [by rewrite omax_None_r|].
    destruct (expired now until); cbn [negb]; [by rewrite omax_None_r|].
    destruct (m !! TrimSpace model) as [c|] eqn:Hc; cbn [omax].
    + unfold After. destruct (Z.ltb_spec c until); [rewrite lookup_insert_eq|rewrite Hc]; f_equal; lia.
    + by rewrite lookup_insert_eq.
  - rewrite omax_None_r. repeat case_match; rewrite ?lookup_insert_ne by done; done.
Qed.

Lemma foldl_merge_lookup now es m n :
  foldl (merge_cooldown now) m es !! n = omax (m !! n) (latest now n es).
Proof.
  revert m; induction es as [|e es IH]; intros m; simpl; [by rewrite omax_None_r|].
  by rewrite IH, merge_cooldown_lookup, <- omax_assoc.
Qed.

Lemma mergeModelCooldowns_lookup now existing incoming n :
  mergeModelCooldowns now existing incoming !! n =
  omax (latest now n (map_to_list existing)) (latest now n (map_to_list incoming)).
Proof. unfold mergeModelCooldowns. by rewrite foldl_merge_lookup, lookup_empty, latest_app. Qed.

(** ** Well-formed maps: the keys every writer of this file uses *)
Definition trimmed_key (k : string) : Prop := TrimSpace k = k /\ k <> "".
Definition trimmed {A} (m : gmap string A) : Prop :=
  forall k v, m !! k = Some v -> trimmed_key k.

Definition live_until (now : Time) (m : gmap string Time) (n : string) : option Time :=
  match m !! n with
  | Some u => if expired now u then None else Some u
  | None => None
  end.

Lemma eqb_empty_false (s : string) : s <> "" -> String.eqb s "" = false.
Proof. by apply String.eqb_neq. Qed.

Lemma merge_fold_live now (m0 m : gmap string Time) n :
  trimmed m ->
  foldl (merge_cooldown now) m0 (map_to_list m) !! n = omax (m0 !! n) (live_until now m n).
Proof.
  intros Hm. unfold live_until.
  rewrite (foldl_map_lookup _ (fun u o => omax o (if expired now u then None else Some u))).
  - destruct (m !! n); [done|by rewrite omax_None_r].
  - intros m' k v Hk. destruct (Hm k v Hk) as [Ht Hne].
    rewrite merge_cooldown_lookup. unfold entry_until. cbn [fst snd]. rewrite Ht.
    case_decide as Hkn.
    + subst k. rewrite String.eqb_refl, (eqb_empty_false n Hne). cbn [andb negb].
      by destruct (expired now v).
    + rewrite (proj2 (String.eqb_neq k n) Hkn). by rewrite omax_None_r.
Qed.

Lemma merge_live now (existing incoming : gmap string Time) n :
  trimmed existing -> trimmed incoming ->
  mergeModelCooldowns now existing incoming !! n =
  omax (live_until now existing n) (live_until now incoming n).
Proof.
  intros He Hi. unfold mergeModelCooldowns. rewrite foldl_app.
  by rewrite !merge_fold_live, lookup_empty.
Qed.

(** Merging two accounts' cooldowns keeps, for each model, the later of the
    two deadlines that are still running, and nothing else, in whatever order
    the two maps are iterated: an update cannot drop or shorten a cooldown
    another path recorded, nor revive an expired one. *)
Theorem mergeModelCooldowns_latest (now : Time) (existing incoming : gmap string Time)
    (es es' : list (string * Time)) (n : string) :
  trimmed existing -> trimmed incoming ->
  es ≡ₚ map_to_list existing -> es' ≡ₚ map_to_list incoming ->
  foldl (merge_cooldown now) ∅ (es ++ es') = mergeModelCooldowns now existing incoming /\
  mergeModelCooldowns now existing incoming !! n =
  omax (live_until now existing n) (live_until now incoming n).
Proof.
  intros He Hi Hes Hes'. split; [|by apply merge_live].
  apply map_eq. intros k.
  by rewrite mergeModelCooldowns_lookup, foldl_merge_lookup, lookup_empty, latest_app,
    (latest_perm _ _ _ _ Hes), (latest_perm _ _ _ _ Hes').
Qed.

Lemma trimmed_singleton {A} k (v : A) : trimmed_key k -> trimmed {[ k := v ]}.
Proof. intros Hk k' v' [-> _]%lookup_singleton_Some. done. Qed.

Lemma mergeModelCooldowns_latest_witness :
  mergeModelCooldowns 5 {[ "m" := 9 ]} {[ "m" := 7 ]} !! "m" = Some 9.
Proof.
  destruct (mergeModelCooldowns_latest 5 {[ "m" := 9 ]} {[ "m" := 7 ]} [("m", 9)] [("m", 7)] "m")
    as [_ ->];
    [by apply trimmed_singleton|by apply trimmed_singleton|by rewrite map_to_list_singleton
    |by rewrite map_to_list_singleton|by vm_compute].
Defined.

(** A label is worth keeping when its deadline runs and it is a known one. *)
Definition kept_label (now : Time) (until : Time) (reason : string) : option string :=
  if expired now until || String.eqb (knownModelCooldownReason reason) "" then None
  else Some (knownModelCooldownReason reason).

Definition override {A} (a b : option A) : option A := match a with Some x => Some x | None => b end.

Definition incoming_label (now : Time) (eu iu : gmap string Time) (n : string) (reason : string) : option string :=
  match iu !! n with
  | None => None
  | Some until =>
      if outlasted_by eu n until then None else kept_label now until reason
  end.

Lemma mergeModelCooldownReasons_lookup now existing incoming eu iu n :
  trimmed existing -> trimmed incoming ->
  mergeModelCooldownReasons now existing incoming eu iu !! n =
  override (incoming !! n ≫= incoming_label now eu iu n)
           (existing !! n ≫= kept_label now (until_of eu n)).
Proof.
  intros He Hi. unfold mergeModelCooldownReasons.
  rewrite (foldl_map_lookup _ (fun r o => override (incoming_label now eu iu n r) o)).
  - rewrite (foldl_map_lookup _ (fun r o => override (kept_label now (until_of eu n) r) o)).
    + rewrite lookup_empty. destruct (incoming !! n), (existing !! n); simpl;
        unfold override; repeat case_match; congruence.
    + intros m k r Hk. destruct (He k r Hk) as [Ht Hne]. unfold merge_existing_reason, kept_label.
      rewrite Ht, (eqb_empty_false k Hne). cbn [orb].
      case_decide as Hkn; [subst k|];
        [destruct (expired now (until_of eu n))|destruct (expired now (until_of eu k))];
        destruct (String.eqb (knownModelCooldownReason r) ""); simpl;
        by rewrite ?lookup_insert_eq, ?lookup_insert_ne.
  - intros m k r Hk. destruct (Hi k r Hk) as [Ht Hne]. unfold merge_incoming_reason, incoming_label, kept_label.
    rewrite Ht, (eqb_empty_false k Hne). cbn [orb].
    case_decide as Hkn; [subst k; destruct (iu !! n) as [u|]|destruct (iu !! k) as [u|]];
      try done; destruct (expired now u); try done; destruct (outlasted_by eu _ u),
        (String.eqb (knownModelCooldownReason r) ""); simpl;
      by rewrite ?lookup_insert_eq, ?lookup_insert_ne.
Qed.

(** A label never outlives the cooldown it explains. Every label the merge
    keeps is one of the two known reasons and its model still has a running
    deadline in the merged map, even though the labels are merged after the
    deadlines (at a later instant [now']). *)
Theorem merged_reason_has_deadline (now now' : Time)
    (existing incoming : gmap string ModelCooldownReason) (eu iu : gmap string Time)
    (n : string) (r : ModelCooldownReason) :
  now <= now' ->
  trimmed existing -> trimmed incoming -> trimmed eu -> trimmed iu ->
  mergeModelCooldownReasons now' existing incoming eu iu !! n = Some r ->
  (r = ModelCooldownThrottled \/ r = ModelCooldownUnavailable) /\
  exists until, mergeModelCooldowns now eu iu !! n = Some until /\ now < until.
Proof.
  intros Hnow He Hi Heu Hiu. rewrite mergeModelCooldownReasons_lookup by done.
  rewrite merge_live by done.
  assert (Hkept : forall u r', kept_label now' u r' = Some r ->
            (r = ModelCooldownThrottled \/ r = ModelCooldownUnavailable) /\ u <> 0 /\ now < u).
  { intros u r'. unfold kept_label, knownModelCooldownReason, expired, IsZero, After.
    destruct (u =? 0) eqn:Hz, (now' <? u) eqn:Hl; simpl; try done. bool_to_prop.
    destruct (String.eqb_spec r' ModelCooldownThrottled) as [->|];
      [intros [= <-]; auto with lia|].
    destruct (String.eqb_spec r' ModelCooldownUnavailable) as [->|]; [|done].
    intros [= <-]; auto with lia. }
  assert (Hlive : forall m u, m !! n = Some u -> u <> 0 -> now < u -> live_until now m n = Some u).
  { intros m u Hm Hu Hn. unfold live_until, expired, IsZero, After. rewrite Hm. by_cases. }
  unfold override. destruct (incoming !! n ≫= _) as [r1|] eqn:Hin; intros Hr; simplify_eq.
  - apply bind_Some in Hin as (r' & _ & Hl). unfold incoming_label in Hl.
    destruct (iu !! n) as [u|] eqn:Hu; [|done]. destruct (outlasted_by _ _ _); [done|].
    apply Hkept in Hl as (Hr & Hz & Hlt). split; [done|].
    rewrite (Hlive iu u Hu Hz Hlt). destruct (live_until now eu n); simpl; eexists; split; [done|lia|done|lia].
  - apply bind_Some in Hr as (r' & _ & Hl). apply Hkept in Hl as (Hr & Hz & Hlt). split; [done|].
    unfold until_of in *. destruct (eu !! n) as [u|] eqn:Hu; [|done]. simpl in *.
    rewrite (Hlive eu u Hu Hz Hlt). destruct (live_until now iu n); simpl; eexists; split; [done|lia|done|lia].
Qed.

Lemma merged_reason_has_deadline_witness :
  exists until, mergeModelCooldowns 5 {[ "m" := 9 ]} {[ "m" := 7 ]} !! "m" = Some until /\ 5 < until.
Proof.
  apply (merged_reason_has_deadline 5 6 {[ "m" := "unavailable" ]} {[ "m" := "throttled" ]}
           {[ "m" := 9 ]} {[ "m" := 7 ]} "m" "unavailable");
    [lia|by apply trimmed_singleton|by apply trimmed_singleton|by apply trimmed_singleton
    |by apply trimmed_singleton|by vm_compute].
Defined.

Lemma Sub_mono_l t u now : t <= u -> Sub t now <= Sub u now.
Proof. unfold Sub. lia. Qed.

Lemma Sub_pos t now : now < t -> 0 < Sub t now.
Proof. unfold Sub, min_int64, max_int64. lia. Qed.

Lemma expired_false now t : expired now t = false <-> t <> 0 /\ now < t.
Proof. unfold expired, IsZero, After. rewrite orb_false_iff, negb_false_iff, Z.eqb_neq, Z.ltb_lt. done. Qed.

Lemma Remaining_nonneg acc model now : 0 <= ModelCooldownRemaining acc model now.
Proof.
  unfold ModelCooldownRemaining. destruct (_ !! _) as [u|]; [|lia].
  destruct (expired now u) eqn:E; [lia|]. apply expired_false in E as [_ E].
  pose proof (Sub_pos u now E). lia.
Qed.

(** How long a deadline still runs. *)
Definition remaining_of (t : Time) (o : option Time) : Duration :=
  match o with
  | Some u => if expired t u then 0 else Sub u t
  | None => 0
  end.

Lemma remaining_of_nonneg t o : 0 <= remaining_of t o.
Proof.
  unfold remaining_of. destruct o as [u|]; [|lia].
  destruct (expired t u) eqn:E; [lia|]. apply expired_false in E as [_ E].
  pose proof (Sub_pos u t E). lia.
Qed.

Lemma Remaining_of acc model t :
  ModelCooldownRemaining acc model t = remaining_of t (ModelCooldowns acc !! TrimSpace model).
Proof. done. Qed.

Lemma remaining_of_live now t (m : gmap string Time) n :
  0 < t -> now <= t -> remaining_of t (live_until now m n) = remaining_of t (m !! n).
Proof.
  intros Ht Hn. unfold live_until. destruct (m !! n) as [u|]; [|done].
  destruct (expired now u) eqn:E; [|done]. simpl.
  destruct (expired t u) eqn:E'; [done|]. apply expired_false in E' as [Hz E'].
  by rewrite (proj2 (expired_false now u)) in E by (split; [done|lia]).
Qed.

Lemma remaining_of_omax t a b :
  0 < t -> remaining_of t (omax a b) = Z.max (remaining_of t a) (remaining_of t b).
Proof.
  intros Ht. pose proof (remaining_of_nonneg t a). pose proof (remaining_of_nonneg t b).
  destruct a as [u|], b as [v|]; cbn [omax]; [|cbn [remaining_of] in *; lia..].
  cbn [remaining_of] in *.
  destruct (expired t u) eqn:Eu, (expired t v) eqn:Ev;
    rewrite ?expired_false in *; unfold expired, IsZero, After, Sub in *;
    by_cases; bool_to_prop; lia.
Qed.

(** The merge serves each model until both accounts would. *)
Lemma Remaining_merge now t (acc acc1 acc2 : Account) model :
  trimmed (ModelCooldowns acc1) -> trimmed (ModelCooldowns acc2) -> 0 < t -> now <= t ->
  ModelCooldowns acc = mergeModelCooldowns now (ModelCooldowns acc1) (ModelCooldowns acc2) ->
  ModelCooldownRemaining acc model t =
  Z.max (ModelCooldownRemaining acc1 model t) (ModelCooldownRemaining acc2 model t).
Proof.
  intros H1 H2 Ht Hn E. rewrite !Remaining_of, E, merge_live, remaining_of_omax by done.
  by rewrite !remaining_of_live.
Qed.

(** Recording a cooldown never shortens any model's remaining cooldown, at
    any instant; a deadline still in the future is in force right after the call;
    and no other model of the account is affected. *)
Theorem RecordModelCooldown_effect (now : Time) (acc : Account) (model : string)
    (until : Time) (reason : ModelCooldownReason) :
  0 < now -> now < until -> TrimSpace model <> "" ->
  let acc' := RecordModelCooldownWithReason now acc model until reason in
  (forall m t, 0 < t -> ModelCooldownRemaining acc m t <= ModelCooldownRemaining acc' m t) /\
  Sub until now <= ModelCooldownRemaining acc' model now /\
  (forall m t, TrimSpace m <> TrimSpace model ->
     ModelCooldownRemaining acc' m t = ModelCooldownRemaining acc m t /\
     ModelCooldownKind acc' m t = ModelCooldownKind acc m t).
Proof.
  intros Hnow Hu Hne. cbv zeta. unfold RecordModelCooldownWithReason.
  rewrite (proj2 (expired_false now until)), (eqb_empty_false _ Hne) by lia.
  destruct (match ModelCooldowns acc !! TrimSpace model with Some _ => _ | None => _ end) eqn:Hout.
  - (* the stored deadline outlasts the new one *)
    split_and!; try done. unfold ModelCooldownRemaining.
    destruct (ModelCooldowns acc !! TrimSpace model) as [c|]; [|done].
    unfold After in Hout. bool_to_prop.
    rewrite (proj2 (expired_false now c)) by lia. by apply Sub_mono_l.
  - split_and!.
    + intros m t Ht. unfold ModelCooldownRemaining. cbn [ModelCooldowns cooldowns set_cooldowns].
      destruct (decide (TrimSpace m = TrimSpace model)) as [Heq|]; [rewrite Heq|by rewrite lookup_insert_ne].
      rewrite lookup_insert_eq. destruct (ModelCooldowns acc !! TrimSpace model) as [c|].
      * unfold After in Hout. bool_to_prop.
        destruct (expired t c) eqn:Ec.
        -- destruct (expired t until) eqn:Eu; [lia|]. apply expired_false in Eu as [_ Eu].
           pose proof (Sub_pos until t Eu). lia.
        -- apply expired_false in Ec as [_ Ec]. rewrite (proj2 (expired_false t until)) by lia.
           apply Sub_mono_l. lia.
      * destruct (expired t until) eqn:Eu; [lia|]. apply expired_false in Eu as [_ Eu].
        pose proof (Sub_pos until t Eu). lia.
    + unfold ModelCooldownRemaining. cbn [ModelCooldowns cooldowns set_cooldowns].
      rewrite lookup_insert_eq, (proj2 (expired_false now until)) by lia. done.
    + intros m t Hm. unfold ModelCooldownKind, ModelCooldownRemaining.
      cbn [ModelCooldowns ModelCooldownReasons cooldowns set_cooldowns].
      rewrite TrimSpace_idem. by rewrite !lookup_insert_ne.
Qed.

Lemma RecordModelCooldown_effect_witness :
  Sub 90 10 <= ModelCooldownRemaining
    (RecordModelCooldownWithReason 10 zero_account " gpt " 90 "throttled") " gpt " 10.
Proof.
  apply (RecordModelCooldown_effect 10 zero_account " gpt " 90 "throttled"); [lia|lia|].
  vm_compute. discriminate.
Defined.

(** Reading a cooldown: its kind is empty exactly when the model may be
    used now, and otherwise one of the two known reasons; a plan verdict already
    recorded is not relabelled by a shorter throttle. *)
Theorem ModelCooldownKind_spec (acc : Account) (model : string) (now : Time) :
  (ModelCooldownKind acc model now = "" <-> ModelCooldownRemaining acc model now = 0) /\
  (ModelCooldownKind acc model now <> "" ->
     ModelCooldownKind acc model now = ModelCooldownThrottled \/
     ModelCooldownKind acc model now = ModelCooldownUnavailable) /\
  (forall at_ until current,
     ModelCooldowns acc !! TrimSpace model = Some current -> until <= current ->
     ModelCooldownKind (RecordModelCooldown at_ acc model until) model now =
     ModelCooldownKind acc model now).
Proof.
  assert (Hr : ModelCooldownRemaining acc (TrimSpace model) now = ModelCooldownRemaining acc model now).
  { unfold ModelCooldownRemaining. by rewrite TrimSpace_idem. }
  split_and!.
  - unfold ModelCooldownKind. rewrite Hr. pose proof (Remaining_nonneg acc model now).
    destruct (ModelCooldownRemaining acc model now <=? 0) eqn:E; bool_to_prop; [split; [lia|done]|].
    split; [|lia]. destruct (negb _) eqn:Hk; bool_to_prop.
    + intros Hk'. by rewrite Hk' in Hk.
    + by destruct (_ <? _).
  - unfold ModelCooldownKind. rewrite Hr. destruct (_ <=? 0); [done|].
    unfold knownModelCooldownReason. set (l := default _ _).
    destruct (String.eqb_spec l ModelCooldownThrottled) as [->|]; [by left|].
    destruct (String.eqb_spec l ModelCooldownUnavailable) as [->|]; [by right|].
    cbn [orb]. change (String.eqb "" "") with true. cbn [negb].
    destruct (_ <? _); [by right|by left].
  - intros at_ until current Hc Hle. f_equal. unfold RecordModelCooldown, RecordModelCooldownWithReason.
    destruct (expired at_ until); [done|]. destruct (String.eqb _ ""); [done|].
    rewrite Hc. unfold After. by rewrite (proj2 (Z.ltb_ge current until) Hle).
Qed.
