(* ===== verification/Policy.v ===== *)
(** * Account policy (internal/accountpolicy/policy.go)

    How one upstream result becomes an account state change: [Classify] turns an
    error into a [Verdict], [Apply] writes the verdict to the account row, and
    [AccountHeld] answers whether the row may be used. [time.Now()] is the
    argument [now]. *)

From stdpp Require Import base numbers list strings gmap.
From S2P Require Import Prelude GoLib Errors Account.

Local Open Scope Z_scope.

(** ** Types and constants *)
Inductive Scope := ScopeNone | ScopeModel | ScopeAccount | ScopeCredential.

#[export] Instance Scope_eq_dec : EqDecision Scope.
Proof. solve_decision. Defined.

Definition CooldownRateLimitBase : Duration := 30 * Second.
Definition CooldownRateLimitMax : Duration := 30 * Minute.
Definition CooldownRateLimit : Duration := CooldownRateLimitBase.
Definition CooldownPayment : Duration := 24 * Hour.
Definition CooldownBlocked : Duration := 24 * Hour.
Definition CooldownBlockedGro : Duration := 10 * Minute.
Definition CooldownTransient : Duration := 5 * Minute.
Definition CredentialReverify : Duration := 30 * Minute.

Record Verdict := mkVerdict {
  v_Status : string;
  v_Message : string;
  v_Scope : Scope;
  v_Retryable : bool;
  v_SwitchAccount : bool;
  v_NeedsLogin : bool;
  v_Cooldown : Duration;
  v_Model : string;
  v_ModelCooldownKind : ModelCooldownReason;
  v_At : Time;
}.

(** An [error]: its text, and the hint of the first error of its chain that has
    a [RetryAfter] method ([errors.As]). *)
Record GoError := mkError {
  err_Error : string;
  err_RetryAfter : option Duration;
}.

Definition Success (at_ : Time) : Verdict :=
  mkVerdict "" "" ScopeNone false false false 0 "" "" at_.

(** ** Writing a verdict to the row *)
Definition Apply (now : Time) (v : Verdict) (acc : Account) : Account :=
  let at_ := if IsZero (v_At v) then now else v_At v in
  let code := TrimSpace (v_Status v) in
  let auth := if v_NeedsLogin v then AccountAuthStatusReauthRequired
              else if String.eqb code "" then AccountAuthStatusActive
              else AuthStatus acc in
  if String.eqb code "" then
    set_status acc
      (mkStatus code auth 0 "" zero_time at_ (ClearVerifiedAt acc) (QuotaResetAt acc))
  else
    let failures := if String.eqb code "429" then wrap64 (RateLimitFailures acc + 1)
                    else RateLimitFailures acc in
    let reset := Add at_ (v_Cooldown v) in
    let quota := if String.eqb code "429" && (0 <? v_Cooldown v)
                    && After reset (QuotaResetAt acc)
                 then reset else QuotaResetAt acc in
    set_status acc
      (mkStatus code auth failures (TrimSpace (v_Message v)) at_ at_
         (ClearVerifiedAt acc) quota).

Definition ScopeForStatus (status : string) : Scope :=
  let s := TrimSpace status in
  if String.eqb s "401" then ScopeCredential
  else if existsb (String.eqb s) ["402"; "403"; "404"; "429";
            AccountStatusQoderQuotaExhausted; AccountStatusWorkBuddyQuotaExhausted]
  then ScopeAccount
  else if String.eqb s "" then ScopeNone
  else ScopeAccount.

Definition Retryable (err : option GoError) : bool :=
  match err with
  | None => false
  | Some e => Errors.Retryable (ClassifyUpstreamError (err_Error e))
  end.

(** ** Readers of the error text *)
Definition accountType (acc : option Account) : string :=
  match acc with None => "" | Some a => AccountType a end.

Definition isGrok (acc : option Account) : bool :=
  match acc with None => false | Some a => EqualFold (TrimSpace (AccountType a)) "grok" end.

Definition isClientRefusal (lower : string) : bool :=
  any_of lower ["content policy rejected"; "datainspectionfailed";
                "input text data may contain"; "rejected the request parameters"].

Definition isGlobalUpstreamRefusal (text : string) : bool :=
  any_of (RemoveAll (ToLower text) backslash)
    ["qoder gateway is busy"; "available upstream accounts are rate-limited";
     "available upstream accounts are rate limited"; "10605";
     dquote +:+ "serviceavailable" +:+ dquote +:+ ":false";
     dquote +:+ "isqueued" +:+ dquote +:+ ":true"].

Definition isEntitlementRefusal (lower : string) : bool :=
  any_of lower ["no usable plan or allowance"; "not subscribed to required model plan";
                "only available via cline product surfaces"]
  || (Contains lower "http 403" && Contains lower "entitlement").

Definition modelCooldownKindFor (lower : string) : ModelCooldownReason :=
  if isEntitlementRefusal lower then ModelCooldownUnavailable else ModelCooldownThrottled.

Definition isModelScopedFailure (lower : string) : bool :=
  any_of lower ["code=6004"; "qoder gateway is busy"; "qoder agent limit reached";
    "qoder model rate limited"; "available upstream accounts are rate-limited";
    "agentlimitresettime"; "model is not found"; "model not found";
    "no_implementation_available"; "context_window_exceeded"; "max_token_limit";
    "model unavailable"; "not subscribed to required model plan";
    "only available via cline product surfaces"]
  || (Contains lower "http 403" && Contains lower "entitlement")
  || Contains lower "requested base model".

Definition credentialMessage (acc : option Account) : string :=
  if isGrok acc
  then "上游拒绝该 Grok Build OAuth 授权，请在账号管理中重新完成官方登录"
  else match acc with
       | Some a =>
           if EqualFold (TrimSpace (AccountType a)) "workbuddy"
           then "上游拒绝该 WorkBuddy 授权，请在账号管理中重新完成 OAuth 登录"
           else if EqualFold (TrimSpace (AccountType a)) "cline"
           then "上游拒绝该 Cline 授权，请在账号管理中重新完成 OAuth 登录"
           else "上游拒绝该凭据，需要重新登录后重试"
       | None => "上游拒绝该凭据，需要重新登录后重试"
       end.

Definition creditExhaustionVerdict (acc : option Account) (message : string)
    (err : GoError) (at_ : Time) : option Verdict :=
  if EqualFold (TrimSpace (accountType acc)) "workbuddy" then
    Some (mkVerdict AccountStatusWorkBuddyQuotaExhausted message ScopeAccount
            (Retryable (Some err)) true false 0 "" "" at_)
  else if EqualFold (TrimSpace (accountType acc)) "qoder" then
    Some (mkVerdict AccountStatusQoderQuotaExhausted message ScopeAccount
            (Retryable (Some err)) true false 0 "" "" at_)
  else None.

(** ** Classify *)
Definition classify_error (now : Time) (acc : option Account) (err : GoError)
    (model : string) : Verdict :=
  let message := TrimSpace (err_Error err) in
  let lower := ToLower message in
  let retry := Retryable (Some err) in
  let code := ClassifyAccountStatus message in
  if EqualFold (accountType acc) "qoder" && Contains lower "billing daily count exceeded" then
    let cooldown := match acc with
      | Some a =>
          if negb (IsZero (qq_ResetAt (QoderQuota a))) && After (qq_ResetAt (QoderQuota a)) now
          then Sub (qq_ResetAt (QoderQuota a)) now else CooldownPayment
      | None => CooldownPayment
      end in
    mkVerdict "429" message ScopeAccount true true false cooldown "" "" now
  else if EqualFold (accountType acc) "qoder" && Contains lower "no usable plan or allowance" then
    mkVerdict "" message ScopeModel true true false CooldownPayment model
      ModelCooldownUnavailable now
  else if isGlobalUpstreamRefusal lower then
    mkVerdict "" message ScopeModel true false false 0 model "" now
  else if isClientRefusal lower then
    mkVerdict "" message ScopeNone false false false 0 "" "" now
  else if Contains lower "empty upstream stream" then
    mkVerdict "" message ScopeNone false false false 0 "" "" now
  else
    match (if IsCreditExhaustion lower then creditExhaustionVerdict acc message err now else None) with
    | Some verdict => verdict
    | None =>
        match err_RetryAfter err with
        | Some hint =>
            let cooldown := if hint <=? 0 then CooldownRateLimit else hint in
            mkVerdict "429" message ScopeAccount true true false cooldown "" "" now
        | None =>
            if isModelScopedFailure lower then
              mkVerdict "" message ScopeModel retry true false CooldownRateLimit model
                (modelCooldownKindFor lower) now
            else if String.eqb code "401" then
              mkVerdict "401" (credentialMessage acc) ScopeCredential retry true true
                CredentialReverify "" "" now
            else if String.eqb code "403" || String.eqb code "404" then
              mkVerdict code message ScopeAccount retry true false
                (if isGrok acc then CooldownBlockedGro else CooldownBlocked) "" "" now
            else if String.eqb code "402" then
              mkVerdict "402" message ScopeAccount retry true false CooldownPayment "" "" now
            else if String.eqb code "429" then
              mkVerdict "429" message ScopeAccount retry true false CooldownRateLimit "" "" now
            else mkVerdict "" "" ScopeNone retry true false 0 "" "" now
        end
    end.

Definition Classify (now : Time) (acc : option Account) (err : option GoError)
    (model : string) : Verdict :=
  match err with
  | None => Success now
  | Some e => classify_error now acc e model
  end.

(** ** Cooldown lengths *)

(** [for i := 1; i < failures && cooldown < CooldownRateLimitMax; i++ { cooldown *= 2 }];
    [None] when the fuel does not suffice. *)
Fixpoint backoff_loop (fuel : nat) (i failures : Z) (cooldown : Duration) : option Duration :=
  if (i <? failures) && (cooldown <? CooldownRateLimitMax) then
    match fuel with
    | O => None
    | S fuel' => backoff_loop fuel' (i + 1) failures (cooldown * 2)
    end
  else Some cooldown.

Definition RateLimitCooldown (failures : Z) : Duration :=
  let failures := if failures <? 1 then 1 else failures in
  match backoff_loop 6 1 failures CooldownRateLimitBase with
  | Some cooldown => if CooldownRateLimitMax <? cooldown then CooldownRateLimitMax else cooldown
  | None => 0
  end.

Definition BoundRateLimitCooldown (retryAfter : Duration) : Duration :=
  if retryAfter <=? 0 then retryAfter
  else if CooldownRateLimitMax <? retryAfter then CooldownRateLimitMax else retryAfter.

Definition CooldownFor (acc : option Account) : Duration :=
  match acc with
  | None => CooldownTransient
  | Some a =>
      let s := TrimSpace (StatusCode a) in
      if String.eqb s "401" then CredentialReverify
      else if String.eqb s "429" then RateLimitCooldown (RateLimitFailures a)
      else if String.eqb s "402" then CooldownPayment
      else if String.eqb s "403" || String.eqb s "404" then
        if isGrok acc then CooldownBlockedGro else CooldownBlocked
      else CooldownTransient
  end.

(** ** AccountHeld *)

(** The two 429 texts whose recorded reset is honoured unclamped. *)
Definition long_window_429 (a : Account) : bool :=
  Contains (ToLower (StatusMessage a)) "cline inference cap reached"
  || (EqualFold (AccountType a) "qoder"
      && Contains (ToLower (StatusMessage a)) "billing daily count exceeded").

(** The value of [until] when [AccountHeld] compares it with [now]. *)
Definition held_until (a : Account) : Time :=
  let s := TrimSpace (StatusCode a) in
  let until := Add (LastAttempt a) (CooldownFor (Some a)) in
  if After (QuotaResetAt a) until then
    if String.eqb s "429" then
      if long_window_429 a then QuotaResetAt a
      else let ceiling := Add (LastAttempt a) CooldownRateLimitMax in
           if Before ceiling (QuotaResetAt a) then ceiling else QuotaResetAt a
    else if String.eqb s "402" || negb (HasPrefix s "4") then QuotaResetAt a
    else until
  else until.

Definition AccountHeld (acc : option Account) (now : Time) : bool :=
  match acc with
  | None => false
  | Some a =>
      let s := TrimSpace (StatusCode a) in
      if negb (AccountAuthActive acc) then true
      else if existsb (String.eqb s) ["" ; AccountStatusQoderQuotaExhausted;
                                      AccountStatusWorkBuddyQuotaExhausted] then false
      else if IsZero (LastAttempt a) then true
      else Before now (held_until a)
  end.

Definition NeedsReverify (acc : option Account) (now : Time) : bool :=
  match acc with
  | None => false
  | Some a =>
      if negb (String.eqb (TrimSpace (StatusCode a)) "401") then false
      else if IsZero (VerifiedAt a) then true
      else CredentialReverify <=? Sub now (VerifiedAt a)
  end.

(** ** Lemmas: lengths of cooldowns *)

(** Enough fuel for every failure count: six doublings of 30s exceed 30m. *)
Lemma backoff_loop_closed (fuel : nat) (i failures : Z) (c : Duration) :
  1 <= i <= failures -> 0 < c -> CooldownRateLimitMax <= c * 2 ^ Z.of_nat fuel ->
  exists c', backoff_loop fuel i failures c = Some c' /\ c <= c' /\
    Z.min c' CooldownRateLimitMax = Z.min (c * 2 ^ (failures - i)) CooldownRateLimitMax.
Proof.
  revert i c; induction fuel as [|fuel IH]; intros i c Hi Hc Hf; simpl backoff_loop.
  - replace (c * 2 ^ Z.of_nat 0) with c in Hf by lia.
    rewrite (proj2 (Z.ltb_ge c _) Hf), andb_false_r. eexists. split; [done|]. split; [lia|].
    assert (1 <= 2 ^ (failures - i)) by (apply Z.lt_pred_le, Z.pow_pos_nonneg; lia).
    nia.
  - destruct (Z.ltb_spec i failures); cbn [andb].
    + destruct (Z.ltb_spec c CooldownRateLimitMax).
      * rewrite Nat2Z.inj_succ, Z.pow_succ_r in Hf by lia.
        destruct (IH (i + 1) (c * 2)) as (c' & -> & Hle & Heq); [lia|lia|lia|].
        exists c'. split; [done|]. split; [lia|]. rewrite Heq. f_equal.
        replace (failures - i) with (Z.succ (failures - (i + 1))) by lia.
        rewrite Z.pow_succ_r by lia. lia.
      * exists c. split; [done|]. split; [lia|].
        assert (1 <= 2 ^ (failures - i)) by (apply Z.lt_pred_le, Z.pow_pos_nonneg; lia).
        nia.
    + exists c. split; [done|]. split; [lia|]. replace (failures - i) with 0 by lia. lia.
Qed.

Lemma RateLimitCooldown_eq (failures : Z) :
  RateLimitCooldown failures =
  Z.min (CooldownRateLimitBase * 2 ^ (Z.max failures 1 - 1)) CooldownRateLimitMax.
Proof.
  unfold RateLimitCooldown. set (n := if failures <? 1 then 1 else failures).
  assert (Hn : n = Z.max failures 1) by (unfold n; by_cases). rewrite <- Hn.
  destruct (backoff_loop_closed 6 1 n CooldownRateLimitBase) as (c & -> & _ & Heq);
    [lia|done|done|].
  rewrite <- Heq. destruct (Z.ltb_spec CooldownRateLimitMax c); lia.
Qed.

Lemma RateLimitCooldown_range (failures : Z) :
  CooldownRateLimitBase <= RateLimitCooldown failures <= CooldownRateLimitMax.
Proof.
  rewrite RateLimitCooldown_eq.
  assert (1 <= 2 ^ (Z.max failures 1 - 1)) by (apply Z.lt_pred_le, Z.pow_pos_nonneg; lia).
  assert (CooldownRateLimitBase <= CooldownRateLimitMax) by done.
  unfold CooldownRateLimitBase, Second in *. lia.
Qed.

Lemma CooldownFor_lower (acc : option Account) : CooldownRateLimitBase <= CooldownFor acc.
Proof.
  unfold CooldownFor. destruct acc as [a|]; [|done].
  repeat case_match; try done. apply RateLimitCooldown_range.
Qed.

Lemma held_until_lower (a : Account) : Add (LastAttempt a) CooldownRateLimitBase <= held_until a.
Proof.
  unfold held_until, Add, After, Before. pose proof (CooldownFor_lower (Some a)).
  assert (CooldownRateLimitBase <= CooldownRateLimitMax) by done.
  repeat case_match; bool_to_prop; lia.
Qed.

(** ** Lemmas: the shape of a verdict *)
Definition unparked : list string :=
  [""; AccountStatusQoderQuotaExhausted; AccountStatusWorkBuddyQuotaExhausted].
Definition parking : list string := ["401"; "402"; "403"; "404"; "429"].

(** What every verdict of an error satisfies. *)
Definition verdict_shape (now : Time) (v : Verdict) : Prop :=
  (v_Status v ∈ unparked \/ v_Status v ∈ parking) /\
  v_NeedsLogin v = String.eqb (v_Status v) "401" /\
  (v_Scope v = ScopeCredential <-> v_Status v = "401") /\
  (v_Status v = "" <-> v_Scope v = ScopeNone \/ v_Scope v = ScopeModel) /\
  (v_SwitchAccount v = false ->
     v_Status v = "" /\ v_Cooldown v = 0 /\ v_ModelCooldownKind v = "") /\
  (v_Scope v = ScopeNone -> v_Cooldown v = 0) /\
  (v_ModelCooldownKind v = "" \/
     v_Scope v = ScopeModel /\
     (v_ModelCooldownKind v = ModelCooldownThrottled \/
      v_ModelCooldownKind v = ModelCooldownUnavailable)) /\
  0 <= v_Cooldown v /\ v_At v = now.

Ltac shape_solver :=
  unfold verdict_shape; cbn [v_Status v_NeedsLogin v_Scope v_SwitchAccount v_Cooldown
    v_ModelCooldownKind v_At];
  split_and!; try done; try (by auto);
  [solve [left; by apply list_elem_of_In; vm_compute; tauto
         |right; by apply list_elem_of_In; vm_compute; tauto]|..];
  try (split; intros; try done; naive_solver); try lia.

Lemma kind_known lower :
  modelCooldownKindFor lower = ModelCooldownThrottled \/
  modelCooldownKindFor lower = ModelCooldownUnavailable.
Proof. unfold modelCooldownKindFor. destruct (isEntitlementRefusal _); auto. Qed.

Lemma credit_verdict_shape now acc message err v :
  creditExhaustionVerdict acc message err now = Some v -> verdict_shape now v.
Proof.
  unfold creditExhaustionVerdict. intros H. repeat case_match; simplify_eq; shape_solver.
Qed.

Lemma classify_error_shape now acc err model : verdict_shape now (classify_error now acc err model).
Proof.
  unfold classify_error. cbv zeta.
  destruct (EqualFold _ _ && Contains _ "billing daily count exceeded").
  { assert (0 <= match acc with
      | Some a => if negb (IsZero (qq_ResetAt (QoderQuota a))) && After (qq_ResetAt (QoderQuota a)) now
                  then Sub (qq_ResetAt (QoderQuota a)) now else CooldownPayment
      | None => CooldownPayment end).
    { destruct acc as [a|]; [|done]. destruct (negb _ && _) eqn:E; [|done].
      unfold After, Sub in *. bool_to_prop. unfold min_int64, max_int64. lia. }
    shape_solver. }
  destruct (EqualFold _ _ && Contains _ "no usable plan or allowance"); [shape_solver|].
  destruct (isGlobalUpstreamRefusal _); [shape_solver|].
  destruct (isClientRefusal _); [shape_solver|].
  destruct (Contains _ "empty upstream stream"); [shape_solver|].
  destruct (if IsCreditExhaustion _ then _ else None) as [v|] eqn:Hc.
  { destruct (IsCreditExhaustion _); [|done]. by eapply credit_verdict_shape. }
  destruct (err_RetryAfter err) as [hint|].
  { destruct (Z.leb_spec hint 0); shape_solver. }
  destruct (isModelScopedFailure _).
  { pose proof (kind_known (ToLower (TrimSpace (err_Error err)))). shape_solver. }
  set (code := ClassifyAccountStatus _).
  destruct (String.eqb code "401"); [shape_solver|].
  destruct (String.eqb_spec code "403") as [->|]; [destruct (isGrok acc); shape_solver|].
  destruct (String.eqb_spec code "404") as [->|]; [destruct (isGrok acc); shape_solver|].
  cbn [orb].
  destruct (String.eqb code "402"); [shape_solver|].
  destruct (String.eqb code "429"); shape_solver.
Qed.

(** C26: a verdict is internally consistent for every upstream error: its status is
    one of eight values, a login is demanded exactly for a refused credential
    (401), a status is recorded exactly when the failure is scoped to the
    account or its credential, a verdict that keeps the request on the account
    records nothing on it, and every model label belongs to a model-scoped
    verdict. *)
Theorem Classify_wellformed (now : Time) (acc : option Account) (err : GoError) (model : string) :
  let v := Classify now acc (Some err) model in
  (v_Status v ∈ unparked \/ v_Status v ∈ parking) /\
  v_NeedsLogin v = String.eqb (v_Status v) "401" /\
  (v_Scope v = ScopeCredential <-> v_Status v = "401") /\
  (v_Status v = "" <-> v_Scope v = ScopeNone \/ v_Scope v = ScopeModel) /\
  (v_SwitchAccount v = false ->
     v_Status v = "" /\ v_Cooldown v = 0 /\ v_ModelCooldownKind v = "") /\
  (v_Scope v = ScopeNone -> v_Cooldown v = 0) /\
  (v_ModelCooldownKind v = "" \/
     v_Scope v = ScopeModel /\
     (v_ModelCooldownKind v = ModelCooldownThrottled \/
      v_ModelCooldownKind v = ModelCooldownUnavailable)) /\
  0 <= v_Cooldown v /\ v_At v = now.
Proof. apply classify_error_shape. Qed.

(** ** The two classifiers agree *)
Lemma any_of_true (s : string) (needles : list string) :
  any_of s needles = true <-> exists n, n ∈ needles /\ Contains s n = true.
Proof.
  rewrite existsb_exists. split; intros (n & Hn & Hc); exists n; by rewrite list_elem_of_In in *.
Qed.

(** The account policy and the retry classifier read the same text the same
    way. A refusal of the request itself is never retried and never switched by
    either; a refusal that names the queue of the upstream is never switched by
    either unless the text also carries one of the two account-specific markers. *)
Theorem refusals_in_step (text : string) :
  let lower := ToLower text in
  let c := ClassifyUpstreamError text in
  (isClientRefusal lower = true -> Errors.Retryable c = false /\ Errors.SwitchAccount c = false) /\
  (any_of (upstreamMarkerText lower)
     ["qoder gateway is busy"; "10605"; "available upstream accounts are rate-limited";
      "available upstream accounts are rate limited"] = true ->
   any_of lower ["billing daily count exceeded"; "no usable plan or allowance"] = false ->
   isGlobalUpstreamRefusal lower = true /\ Errors.SwitchAccount c = false).
Proof.
  cbv zeta. split.
  - unfold isClientRefusal, ClassifyUpstreamError. cbn [existsb]. set (lower := ToLower text).
    rewrite !orb_false_r.
    destruct (Contains lower "content policy rejected"), (Contains lower "datainspectionfailed"),
      (Contains lower "input text data may contain"), (Contains lower "rejected the request parameters");
      cbn [orb]; intros [=]; repeat case_match; done.
  - intros Hm Hs. split.
    + unfold isGlobalUpstreamRefusal. change (RemoveAll (ToLower (ToLower text)) backslash)
        with (upstreamMarkerText (ToLower text)).
      apply any_of_true in Hm as (n & Hn & Hc). apply any_of_true. exists n. split; [|done].
      rewrite list_elem_of_In in *. simpl in *. tauto.
    + unfold ClassifyUpstreamError. set (lower := ToLower text) in *. cbn [existsb] in Hs.
      apply orb_false_iff in Hs as [H1 [H2 _]%orb_false_iff].
      rewrite H1, H2.
      assert (Hg : isUpstreamQueueGate lower = true \/ isSharedUpstreamQueueRefusal lower = true).
      { unfold isUpstreamQueueGate, isSharedUpstreamQueueRefusal. cbn [existsb] in *.
        destruct (String.eqb (flagValue _ _) _); [by left|].
        rewrite !orb_true_iff, ?orb_false_r in *. tauto. }
      destruct Hg as [Hg|Hg]; rewrite Hg; repeat case_match; done.
Qed.

(** ** Applying a verdict *)

(** The status, its reason, its attempt stamp and the throttle counter move
    together: an account without a status has no reason, no attempt and no
    throttle count; one with a status carries the verdict's instant; every
    verdict stamps the check; a recorded quota reset is never moved back; and
    no other subject of the row is written. *)
Theorem Apply_moves_together (now : Time) (v : Verdict) (acc : Account) :
  0 < now ->
  let acc' := Apply now v acc in
  (StatusCode acc' = "" ->
     StatusMessage acc' = "" /\ LastAttempt acc' = 0 /\ RateLimitFailures acc' = 0 /\
     (v_NeedsLogin v = false -> AccountAuthActive (Some acc') = true)) /\
  (StatusCode acc' <> "" ->
     LastAttempt acc' = VerifiedAt acc' /\ StatusMessage acc' = TrimSpace (v_Message v)) /\
  VerifiedAt acc' <> 0 /\
  (v_NeedsLogin v = true -> AccountAuthActive (Some acc') = false) /\
  QuotaResetAt acc <= QuotaResetAt acc' /\
  set_status acc' (status acc) = acc.
Proof.
  intros Hnow. cbv zeta. unfold Apply. cbv zeta.
  assert (Hat : (if IsZero (v_At v) then now else v_At v) <> 0).
  { destruct (IsZero (v_At v)) eqn:E; unfold IsZero in E; bool_to_prop; lia. }
  set (at_ := if IsZero (v_At v) then now else v_At v) in *.
  destruct (String.eqb_spec (TrimSpace (v_Status v)) "") as [->|Hc].
  - cbn [StatusCode StatusMessage LastAttempt RateLimitFailures VerifiedAt QuotaResetAt
      status set_status AuthStatus AccountAuthActive].
    split_and!; try done; [intros _; split_and!; try done; by intros ->|by intros ->|by destruct acc].
  - cbn [StatusCode StatusMessage LastAttempt RateLimitFailures VerifiedAt QuotaResetAt
      status set_status AuthStatus AccountAuthActive].
    split_and!; try done; [by intros ->| |by destruct acc].
    destruct (_ && _) eqn:E; [|lia]. unfold After in E. bool_to_prop. lia.
Qed.

Lemma Apply_moves_together_witness :
  QuotaResetAt (sample_account 1 "grok" no_status) <=
  QuotaResetAt (Apply 100 (mkVerdict "429" "slow" ScopeAccount true true false 30 "" "" 0)
                  (sample_account 1 "grok" no_status)).
Proof.
  apply (Apply_moves_together 100
    (mkVerdict "429" "slow" ScopeAccount true true false 30 "" "" 0)
    (sample_account 1 "grok" no_status)). lia.
Defined.

Lemma Apply_StatusCode now v acc : StatusCode (Apply now v acc) = TrimSpace (v_Status v).
Proof. unfold Apply. cbv zeta. by destruct (String.eqb (TrimSpace (v_Status v)) ""). Qed.

Lemma Apply_AuthStatus now v acc :
  AuthStatus (Apply now v acc) =
  if v_NeedsLogin v then AccountAuthStatusReauthRequired
  else if String.eqb (TrimSpace (v_Status v)) "" then AccountAuthStatusActive else AuthStatus acc.
Proof. unfold Apply. cbv zeta. by destruct (String.eqb (TrimSpace (v_Status v)) ""). Qed.

Lemma Apply_LastAttempt now v acc :
  TrimSpace (v_Status v) <> "" ->
  LastAttempt (Apply now v acc) = if IsZero (v_At v) then now else v_At v.
Proof. intros H. unfold Apply. cbv zeta. by rewrite (proj2 (String.eqb_neq _ _) H). Qed.

(** Membership in a list of literals, one literal at a time. *)
Ltac literal_cases H :=
  repeat (apply elem_of_cons in H as [H|H]; [|]); [..|by apply elem_of_nil in H].

Lemma status_trimmed s : s ∈ unparked \/ s ∈ parking -> TrimSpace s = s.
Proof. intros [H|H]; literal_cases H; by subst s. Qed.

Lemma parking_not_free s :
  s ∈ parking -> existsb (String.eqb s) unparked = false /\ s <> "".
Proof. intros H; literal_cases H; by subst s. Qed.

Lemma unparked_free s :
  s ∈ unparked -> existsb (String.eqb s) unparked = true /\ String.eqb s "401" = false.
Proof. intros H; literal_cases H; by subst s. Qed.

(** C25: the error path end to end: once an error has been classified and its
    verdict applied to an authorised account, the account is withheld from that
    instant, for at least 30 seconds, exactly when the verdict parks it
    (401, 402, 403, 404, 429); a spent allowance or a verdict without a
    status keeps it in the pool. *)
Theorem parked_is_held (now : Time) (acc : Account) (err : GoError) (model : string) (t : Time) :
  0 < now -> now <= t < now + CooldownRateLimitBase ->
  AccountAuthActive (Some acc) = true ->
  let v := Classify now (Some acc) (Some err) model in
  AccountHeld (Some (Apply now v acc)) t = true <-> v_Status v ∈ parking.
Proof.
  intros Hnow Ht Hauth. cbv zeta. unfold Classify.
  pose proof (classify_error_shape now (Some acc) err model) as Hshape.
  set (v := classify_error now (Some acc) err model) in *. clearbody v.
  destruct Hshape as (Hst & Hlogin & _ & _ & _ & _ & _ & _ & Hat).
  pose proof (status_trimmed _ Hst) as Htrim.
  unfold AccountHeld. fold unparked. rewrite Apply_StatusCode, !Htrim.
  destruct Hst as [Hst|Hst].
  - destruct (unparked_free _ Hst) as [Hfree Hlog]. rewrite Hfree.
    replace (AccountAuthActive _) with true.
    + split; [done|]. intros H. by destruct (parking_not_free _ H) as [H' _]; rewrite H' in Hfree.
    + symmetry. unfold AccountAuthActive in *. rewrite Apply_AuthStatus, Hlogin, Hlog.
      by destruct (String.eqb (TrimSpace (v_Status v)) "").
  - split; [done|]. intros _. destruct (parking_not_free _ Hst) as [Hfree Hne].
    destruct (negb _); [done|]. rewrite Hfree.
    pose proof (held_until_lower (Apply now v acc)) as Hlow.
    rewrite Apply_LastAttempt in * by (by rewrite Htrim). rewrite Hat in *.
    assert (Hz : (if IsZero now then now else now) = now) by (by destruct (IsZero now)).
    rewrite Hz in *. unfold IsZero, Before, Add in *.
    destruct (Z.eqb_spec now 0); [lia|]. apply Z.ltb_lt. lia.
Qed.

Lemma parked_is_held_witness :
  AccountHeld (Some (Apply 100 (Classify 100 (Some (sample_account 1 "grok" no_status))
     (Some (mkError "HTTP 401 unauthorized" None)) "m") (sample_account 1 "grok" no_status))) 101 = true.
Proof.
  apply (parked_is_held 100 (sample_account 1 "grok" no_status)
    (mkError "HTTP 401 unauthorized" None) "m" 101); [lia|by vm_compute|by vm_compute|].
  apply list_elem_of_In. vm_compute. tauto.
Defined.

(** The hold of a rate limit: the exponential backoff is 30s doubled per
    failure and capped at 30 minutes, it never shrinks with more failures, and
    an authorised account parked by a 429 is back in the pool 30 minutes after
    the attempt at the latest, whatever reset the provider wrote, unless the
    provider announced one of the two long windows. *)
Theorem rate_limit_hold_bounded (a : Account) (now : Time) :
  (forall failures, RateLimitCooldown failures =
     Z.min (CooldownRateLimitBase * 2 ^ (Z.max failures 1 - 1)) CooldownRateLimitMax) /\
  (forall f g, f <= g -> RateLimitCooldown f <= RateLimitCooldown g) /\
  (TrimSpace (StatusCode a) = "429" -> AccountAuthActive (Some a) = true ->
   LastAttempt a <> 0 -> long_window_429 a = false ->
   LastAttempt a + CooldownRateLimitMax <= now -> AccountHeld (Some a) now = false).
Proof.
  split_and!.
  - apply RateLimitCooldown_eq.
  - intros f g Hfg. rewrite !RateLimitCooldown_eq.
    assert (2 ^ (Z.max f 1 - 1) <= 2 ^ (Z.max g 1 - 1)) by (apply Z.pow_le_mono_r; lia).
    unfold CooldownRateLimitBase, Second. lia.
  - intros Hs Hauth Hl Hw Hnow. unfold AccountHeld. rewrite Hauth, Hs. cbn [negb].
    change (existsb _ _) with false. cbn [negb].
    replace (IsZero (LastAttempt a)) with false by (unfold IsZero; symmetry; by apply Z.eqb_neq).
    unfold Before. apply Z.ltb_ge. unfold held_until. rewrite Hs, Hw. unfold CooldownFor. rewrite Hs.
    change (String.eqb "429" "429") with true. change (String.eqb "429" "401") with false. cbn iota.
    pose proof (RateLimitCooldown_range (RateLimitFailures a)).
    unfold Add, After, Before in *. repeat case_match; bool_to_prop; lia.
Qed.

Lemma rate_limit_hold_bounded_witness :
  let a := sample_account 1 "workbuddy" (mkStatus "429" "" 2 "slow" 100 100 false (10 ^ 18)) in
  AccountHeld (Some a) (100 + CooldownRateLimitMax) = false.
Proof.
  apply (rate_limit_hold_bounded
    (sample_account 1 "workbuddy" (mkStatus "429" "" 2 "slow" 100 100 false (10 ^ 18))));
    [done|by vm_compute|done|by vm_compute|done].
Defined.
