(* ===== verification/Merge.v ===== *)
(** * Merging account updates (internal/store/account_merge.go, credential_patch.go)

    [UpdateAccount] receives a snapshot that may carry only the fields its
    caller means to write. One definition per step of [accountPatch] says which
    stored fields the snapshot may move; [merge_account] is their composition in
    the order of redis_store.go. The credential patches of the token refresh
    paths follow. *)

From stdpp Require Import base numbers list strings gmap.
From S2P Require Import Prelude GoLib Account Cooldown.

Local Open Scope Z_scope.
Local Open Scope orchids_scope.

(** Blank values mean no update; accepted values are trimmed. *)
Definition patchString (target incoming : string) : string :=
  if negb (String.eqb (TrimSpace incoming) "") then TrimSpace incoming else target.

(** [workBuddyMeterReadingIsNewer]; the two arguments may be nil. *)
Definition workBuddyMeterReadingIsNewer (acc existing : option Account) : bool :=
  match acc with
  | None => false
  | Some acc =>
      if IsZero (wq_SyncedAt (WorkBuddyQuota acc)) then false
      else match existing with
           | None => true
           | Some existing =>
               negb (Before (wq_SyncedAt (WorkBuddyQuota acc)) (wq_SyncedAt (WorkBuddyQuota existing)))
           end
  end.

(** [append([]string(nil), xs...)]: appending nothing to nil is nil. *)
Definition copy_strings (xs : list string) : option (list string) :=
  match xs with [] => None | _ => Some xs end.

(** [p.updated] is threaded through the steps; [p_now], [p_now'] are the two
    readings of the clock by the cooldown merge. *)
Record accountPatch := mkPatch {
  p_acc : Account;
  p_existing : Account;
  staleSnapshot : bool;
  p_now : Time;
  p_now' : Time;
}.

Definition mergeIdentity (p : accountPatch) (u : Account) : Account :=
  let acc := p_acc p in
  set_identity u (mkIdentity (ID u) (Name acc)
    (if String.eqb (AccountType acc) "" then AccountType (p_existing p) else AccountType acc)
    (ClientCookie acc) (RefreshToken acc) (UserID acc) (AgentMode acc) (Email acc)
    (Weight acc) (MaxConcurrent acc) (Enabled acc) (Token acc) (Subscription acc)).

Definition mergeUsageMeter (p : accountPatch) (u : Account) : Account :=
  let acc := p_acc p in
  if negb (EqualFold (AccountType acc) "workbuddy")
     || workBuddyMeterReadingIsNewer (Some acc) (Some (p_existing p))
  then set_usage u (mkUsage (UsageCurrent acc) (UsageTotal u) (UsageLimit acc)
         (TokensToday u) (TokensDate u) (RequestCount u) (LastUsedAt u))
  else u.

Definition mergeStatusAndVerdict (p : accountPatch) (u : Account) : Account :=
  let acc := p_acc p in
  set_status u (mkStatus
    (StatusCode acc)
    (if ClearVerifiedAt acc then AccountAuthStatusActive else AuthStatus acc)
    (RateLimitFailures acc)
    (if String.eqb (TrimSpace (StatusCode acc)) "" then "" else StatusMessage acc)
    (LastAttempt acc)
    (if ClearVerifiedAt acc then zero_time
     else if negb (IsZero (VerifiedAt acc)) then VerifiedAt acc
     else VerifiedAt u)
    false
    (if After (QuotaResetAt acc) (QuotaResetAt u) then QuotaResetAt acc
     else if negb (staleSnapshot p) then QuotaResetAt acc
     else QuotaResetAt u)).

Definition keep_blank (value stored : string) : string :=
  if String.eqb (TrimSpace value) "" then stored else value.

Definition mergeGrokCredentials (p : accountPatch) (u : Account) : Account :=
  let acc := p_acc p in
  let existing := p_existing p in
  let modelsNewer := After (GrokModelsSyncedAt acc) (GrokModelsSyncedAt existing) in
  let take := negb (staleSnapshot p) || modelsNewer in
  set_grok u (mkGrokState
    (keep_blank (CredentialType acc) (CredentialType existing))
    (OAuthAccessToken acc) (OAuthRefreshToken acc) (OAuthExpiresAt acc)
    (keep_blank (TeamID acc) (TeamID existing))
    (keep_blank (GrokProvider acc) (GrokProvider existing))
    (match GrokModels acc with
     | Some models => if take then copy_strings models else GrokModels u
     | None => GrokModels u
     end)
    (match GrokModelCatalog acc with
     | Some catalog => if take then Some catalog else GrokModelCatalog u
     | None => GrokModelCatalog u
     end)
    (if negb (IsZero (GrokModelsSyncedAt acc)) && take
     then GrokModelsSyncedAt acc else GrokModelsSyncedAt u)
    (if negb (IsZero (gb_SyncedAt (GrokBilling acc))) then GrokBilling acc else GrokBilling u)
    (if negb (IsZero (gr_ObservedAt (GrokRateLimits acc)))
     then GrokRateLimits acc else GrokRateLimits u)
    (if negb (IsZero (gf_ConfirmedAt (GrokFreeQuota acc)))
     then GrokFreeQuota acc else GrokFreeQuota u)).

Definition mergeModelCooldownState (p : accountPatch) (u : Account) : Account :=
  let acc := p_acc p in
  let existing := p_existing p in
  set_cooldowns u (mkCooldowns
    (mergeModelCooldowns (p_now p) (ModelCooldowns existing) (ModelCooldowns acc))
    (mergeModelCooldownReasons (p_now' p) (ModelCooldownReasons existing)
       (ModelCooldownReasons acc) (ModelCooldowns existing) (ModelCooldowns acc))).

Definition mergeWorkBuddyCredentials (p : accountPatch) (u : Account) : Account :=
  let acc := p_acc p in
  let replace := ReplaceWorkBuddyCredentials acc in
  set_workbuddy u (mkWorkBuddyState
    (if replace then TrimSpace (WorkBuddyAccessToken acc) else WorkBuddyAccessToken u)
    (if replace then TrimSpace (WorkBuddyRefreshToken acc) else WorkBuddyRefreshToken u)
    (if replace then WorkBuddyExpiresAt acc else WorkBuddyExpiresAt u)
    (patchString (WorkBuddyUID u) (WorkBuddyUID acc))
    (ReplaceWorkBuddyCredentials u)
    (match WorkBuddyModelIDs acc with [] => WorkBuddyModelIDs u | ids => ids end)
    (if negb (IsZero (WorkBuddyModelsSyncedAt acc))
     then WorkBuddyModelsSyncedAt acc else WorkBuddyModelsSyncedAt u)
    (if workBuddyMeterReadingIsNewer (Some acc) (Some (p_existing p))
     then WorkBuddyQuota acc else WorkBuddyQuota u)).

(** [!incoming.IsZero() && (stored.IsZero() || !incoming.Before(stored))] *)
Definition at_least_as_new (incoming stored : Time) : bool :=
  negb (IsZero incoming) && (IsZero stored || negb (Before incoming stored)).

Definition mergeQoderCredentials (p : accountPatch) (u : Account) : Account :=
  let acc := p_acc p in
  let existing := p_existing p in
  let replace := ReplaceQoderCredentials acc in
  set_qoder u (mkQoderState
    (if replace then TrimSpace (QoderAccessToken acc) else QoderAccessToken u)
    (if replace then TrimSpace (QoderRefreshToken acc) else QoderRefreshToken u)
    (if replace then QoderExpiresAt acc else QoderExpiresAt u)
    (ReplaceQoderCredentials u)
    (if replace then TrimSpace (QoderMachineID acc) else QoderMachineID u)
    (patchString (QoderUserID u) (QoderUserID acc))
    (patchString (QoderUserName u) (QoderUserName acc))
    (patchString (QoderOrganizationID u) (QoderOrganizationID acc))
    (match QoderOrganizationTags acc with [] => QoderOrganizationTags u | tags => tags end)
    (if QoderDataPolicy acc then true else QoderDataPolicy u)
    (if replace then TrimSpace (QoderRuntimeInfo acc) else QoderRuntimeInfo u)
    (if replace then TrimSpace (QoderRuntimeKey acc) else QoderRuntimeKey u)
    (match QoderModelIDs acc with [] => QoderModelIDs u | ids => ids end)
    (if at_least_as_new (QoderModelsSyncedAt acc) (QoderModelsSyncedAt existing)
     then QoderModelsSyncedAt acc else QoderModelsSyncedAt u)
    (if at_least_as_new (qq_SyncedAt (QoderQuota acc)) (qq_SyncedAt (QoderQuota existing))
     then QoderQuota acc else QoderQuota u)).

Definition mergeClineCredentials (p : accountPatch) (u : Account) : Account :=
  let acc := p_acc p in
  let existing := p_existing p in
  let replace := ReplaceClineCredentials acc in
  set_cline u (mkClineState
    (if replace then TrimSpace (ClineAccessToken acc) else ClineAccessToken u)
    (if replace then TrimSpace (ClineRefreshToken acc) else ClineRefreshToken u)
    (if replace then ClineExpiresAt acc else ClineExpiresAt u)
    (patchString (ClineEmail u) (ClineEmail acc))
    (patchString (ClinePlan u) (ClinePlan acc))
    (ReplaceClineCredentials u)
    (match ClineModelIDs acc with [] => ClineModelIDs u | ids => ids end)
    (if at_least_as_new (ClineModelsSyncedAt acc) (ClineModelsSyncedAt existing)
     then ClineModelsSyncedAt acc else ClineModelsSyncedAt u)).

(** The mutation [UpdateAccount] hands to [updateAccountAtomic]. *)
Definition stale_snapshot (acc existing : Account) : bool :=
  negb (IsZero (UpdatedAt acc)) && Before (UpdatedAt acc) (UpdatedAt existing).

Definition merge_account (now now' : Time) (acc existing : Account) : Account :=
  let p := mkPatch acc existing (stale_snapshot acc existing) now now' in
  let u := existing in
  let u := mergeIdentity p u in
  let u := mergeUsageMeter p u in
  let u := mergeStatusAndVerdict p u in
  let u := mergeGrokCredentials p u in
  let u := mergeModelCooldownState p u in
  let u := mergeWorkBuddyCredentials p u in
  let u := mergeQoderCredentials p u in
  mergeClineCredentials p u.

(** ** credential_patch.go and the provider patches of redis_store.go *)

(** [fmt.Errorf("%s credential changed concurrently", channel)] *)
Definition changed_concurrently (channel : string) : string :=
  channel +:+ " credential changed concurrently".

(** The three targets are the stored access token, refresh token and expiry. *)
Definition applyCredentialPatch (channel expected access refresh : string) (expires : Time)
    (accessTarget refreshTarget : string) (expiresTarget : Time)
    : result (string * string * Time) string :=
  let expected := TrimSpace expected in
  let refresh := TrimSpace refresh in
  if negb (String.eqb expected "") && negb (String.eqb refreshTarget expected)
     && negb (String.eqb refreshTarget refresh)
  then Err (changed_concurrently channel)
  else Ok (patchString accessTarget access, patchString refreshTarget refresh,
           if negb (IsZero expires) then expires else expiresTarget).

Record WorkBuddyCredentialPatch := mkWorkBuddyPatch {
  wp_ExpectedRefreshToken : string;
  wp_AccessToken : string;
  wp_RefreshToken : string;
  wp_ExpiresAt : Time;
  wp_UID : string;
  wp_Email : string;
}.

Definition patch_workbuddy (patch : WorkBuddyCredentialPatch) (acc : Account)
    : result Account string :=
  let? creds := applyCredentialPatch "workbuddy" (wp_ExpectedRefreshToken patch)
                  (wp_AccessToken patch) (wp_RefreshToken patch) (wp_ExpiresAt patch)
                  (WorkBuddyAccessToken acc) (WorkBuddyRefreshToken acc)
                  (WorkBuddyExpiresAt acc) in
  let '(access, refresh, expires) := creds in
  let email := TrimSpace (wp_Email patch) in
  Ok (set_workbuddy
        (set_identity acc (mkIdentity (ID acc) (Name acc) (AccountType acc)
           (patchString (ClientCookie acc) (wp_RefreshToken patch))
           (RefreshToken acc) (UserID acc) (AgentMode acc)
           (if negb (String.eqb email "") && String.eqb (TrimSpace (Email acc)) ""
            then email else Email acc)
           (Weight acc) (MaxConcurrent acc) (Enabled acc) (Token acc) (Subscription acc)))
        (mkWorkBuddyState access refresh expires
           (patchString (WorkBuddyUID acc) (wp_UID patch))
           (ReplaceWorkBuddyCredentials acc) (WorkBuddyModelIDs acc)
           (WorkBuddyModelsSyncedAt acc) (WorkBuddyQuota acc))).

Record QoderAccountPatch := mkQoderPatch {
  qp_ExpectedRefreshToken : string;
  qp_AccessToken : string;
  qp_RefreshToken : string;
  qp_ExpiresAt : Time;
  qp_UserID : string;
  qp_RuntimeInfo : string;
  qp_RuntimeKey : string;
  qp_ModelIDs : option (list string);
  qp_Quota : option QoderQuotaSnapshot;
}.

Definition patch_qoder (patch : QoderAccountPatch) (acc : Account) : result Account string :=
  let? creds := applyCredentialPatch "qoder" (qp_ExpectedRefreshToken patch)
                  (qp_AccessToken patch) (qp_RefreshToken patch) (qp_ExpiresAt patch)
                  (QoderAccessToken acc) (QoderRefreshToken acc) (QoderExpiresAt acc) in
  let '(access, refresh, expires) := creds in
  Ok (set_qoder acc (mkQoderState access refresh expires
        (ReplaceQoderCredentials acc) (QoderMachineID acc)
        (patchString (QoderUserID acc) (qp_UserID patch))
        (QoderUserName acc) (QoderOrganizationID acc) (QoderOrganizationTags acc)
        (QoderDataPolicy acc)
        (patchString (QoderRuntimeInfo acc) (qp_RuntimeInfo patch))
        (patchString (QoderRuntimeKey acc) (qp_RuntimeKey patch))
        (default (QoderModelIDs acc) (qp_ModelIDs patch))
        (QoderModelsSyncedAt acc)
        (match qp_Quota patch with
         | Some incoming =>
             if IsZero (qq_SyncedAt (QoderQuota acc))
                || negb (Before (qq_SyncedAt incoming) (qq_SyncedAt (QoderQuota acc)))
             then incoming else QoderQuota acc
         | None => QoderQuota acc
         end))).

Record ClineCredentialPatch := mkClinePatch {
  cp_ExpectedRefreshToken : string;
  cp_AccessToken : string;
  cp_RefreshToken : string;
  cp_ExpiresAt : Time;
  cp_Email : string;
  cp_ModelIDs : option (list string);
}.

Definition patch_cline (patch : ClineCredentialPatch) (acc : Account) : result Account string :=
  let? creds := applyCredentialPatch "cline" (cp_ExpectedRefreshToken patch)
                  (cp_AccessToken patch) (cp_RefreshToken patch) (cp_ExpiresAt patch)
                  (ClineAccessToken acc) (ClineRefreshToken acc) (ClineExpiresAt acc) in
  let '(access, refresh, expires) := creds in
  Ok (set_cline acc (mkClineState access refresh expires
        (patchString (ClineEmail acc) (cp_Email patch)) (ClinePlan acc)
        (ReplaceClineCredentials acc)
        (default (ClineModelIDs acc) (cp_ModelIDs patch))
        (ClineModelsSyncedAt acc))).

(** ** Properties *)

(** The merge of a field of one subject is the step of that subject. *)
Section MergeProjections.
Context (now now' : Time) (acc existing : Account).
Let p := mkPatch acc existing (stale_snapshot acc existing) now now'.
Let m := merge_account now now' acc existing.

Lemma merge_usage : usage m = usage (mergeUsageMeter p existing).
Proof. unfold m, merge_account, mergeUsageMeter. cbv zeta. cbn [p_acc p_existing p]. by destruct (_ || _). Qed.

Lemma merge_status : status m = status (mergeStatusAndVerdict p existing).
Proof. unfold m, merge_account, mergeUsageMeter. cbv zeta. cbn [p_acc p_existing p]. by destruct (_ || _). Qed.

Lemma merge_cooldowns : cooldowns m = cooldowns (mergeModelCooldownState p existing).
Proof. unfold m, merge_account, mergeUsageMeter. cbv zeta. cbn [p_acc p_existing p]. by destruct (_ || _). Qed.

Lemma merge_grok : grok m = grok (mergeGrokCredentials p existing).
Proof. unfold m, merge_account, mergeUsageMeter. cbv zeta. cbn [p_acc p_existing p]. by destruct (_ || _). Qed.

Lemma merge_workbuddy : workbuddy m = workbuddy (mergeWorkBuddyCredentials p existing).
Proof. unfold m, merge_account, mergeUsageMeter. cbv zeta. cbn [p_acc p_existing p]. by destruct (_ || _). Qed.

Lemma merge_qoder : qoder m = qoder (mergeQoderCredentials p existing).
Proof. unfold m, merge_account, mergeUsageMeter. cbv zeta. cbn [p_acc p_existing p]. by destruct (_ || _). Qed.

Lemma merge_cline : cline m = cline (mergeClineCredentials p existing).
Proof. unfold m, merge_account, mergeUsageMeter. cbv zeta. cbn [p_acc p_existing p]. by destruct (_ || _). Qed.

Lemma merge_rest :
  quality m = quality existing /\ stamps m = stamps existing /\ identity m = identity (mergeIdentity p existing).
Proof. unfold m, merge_account, mergeUsageMeter. cbv zeta. cbn [p_acc p_existing p]. by destruct (_ || _). Qed.
End MergeProjections.



(** What a snapshot may do to a verdict. A snapshot older than the stored row
    can extend the quota reset but never shorten or erase it; a current one
    decides it; neither shortens a model's cooldown that is still running; the
    reason never outlives its status; and replacing a credential clears the
    verdict stamp, which no other update can. *)
Theorem merge_deadlines (now now' : Time) (acc existing : Account) (model : string) :
  trimmed (ModelCooldowns acc) -> trimmed (ModelCooldowns existing) ->
  let m := merge_account now now' acc existing in
  (QuotaResetAt m =
     if stale_snapshot acc existing
     then Z.max (QuotaResetAt acc) (QuotaResetAt existing) else QuotaResetAt acc) /\
  (forall t, 0 < t -> now <= t ->
     ModelCooldownRemaining existing model t <= ModelCooldownRemaining m model t /\
     ModelCooldownRemaining acc model t <= ModelCooldownRemaining m model t) /\
  (TrimSpace (StatusCode m) = "" -> StatusMessage m = "") /\
  (VerifiedAt m = 0 -> VerifiedAt existing <> 0 -> ClearVerifiedAt acc = true).
Proof.
  intros Hacc Hex. cbv zeta. split_and!.
  - rewrite merge_status. cbn. unfold After. by_cases.
  - intros t Ht Hn.
    assert (Hm : ModelCooldowns (merge_account now now' acc existing) =
                 mergeModelCooldowns now (ModelCooldowns existing) (ModelCooldowns acc))
      by (by rewrite merge_cooldowns).
    rewrite (Remaining_merge now t _ existing acc model Hex Hacc Ht Hn Hm). lia.
  - rewrite merge_status. cbn -[TrimSpace]. intros Hs. by rewrite Hs.
  - rewrite merge_status. cbn. unfold IsZero. destruct (ClearVerifiedAt acc); by_cases.
Qed.

Lemma merge_deadlines_witness :
  QuotaResetAt (merge_account 5 6 (sample_account 1 "grok" (mkStatus "" "" 0 "" 0 0 false 7))
    (sample_account 1 "grok" (mkStatus "" "" 0 "" 0 0 false 9))) = 7.
Proof.
  apply (merge_deadlines 5 6 (sample_account 1 "grok" (mkStatus "" "" 0 "" 0 0 false 7))
    (sample_account 1 "grok" (mkStatus "" "" 0 "" 0 0 false 9)) "m");
    intros k v H; vm_compute in H; by destruct k.
Defined.

(** Provider readings never go back. A merge keeps the newer of the stored and
    the incoming quota and catalog stamps of Qoder, Cline and the WorkBuddy
    meter, an in-band Qoder quota notice likewise, and the generic usage slots
    of a WorkBuddy row always mirror the meter snapshot that was kept. *)
Theorem merge_readings_monotone (now now' : Time) (acc existing : Account) (patch : QoderAccountPatch) :
  0 <= qq_SyncedAt (QoderQuota acc) -> 0 <= QoderModelsSyncedAt acc ->
  0 <= ClineModelsSyncedAt acc ->
  let m := merge_account now now' acc existing in
  qq_SyncedAt (QoderQuota existing) <= qq_SyncedAt (QoderQuota m) /\
  QoderModelsSyncedAt existing <= QoderModelsSyncedAt m /\
  ClineModelsSyncedAt existing <= ClineModelsSyncedAt m /\
  wq_SyncedAt (WorkBuddyQuota existing) <= wq_SyncedAt (WorkBuddyQuota m) /\
  (EqualFold (AccountType acc) "workbuddy" = true ->
   (UsageCurrent m, UsageLimit m, WorkBuddyQuota m) =
     (UsageCurrent acc, UsageLimit acc, WorkBuddyQuota acc) \/
   (UsageCurrent m, UsageLimit m, WorkBuddyQuota m) =
     (UsageCurrent existing, UsageLimit existing, WorkBuddyQuota existing)) /\
  (forall existing', patch_qoder patch existing = Ok existing' ->
   (forall q, qp_Quota patch = Some q -> 0 <= qq_SyncedAt q) ->
   qq_SyncedAt (QoderQuota existing) <= qq_SyncedAt (QoderQuota existing')).
Proof.
  intros Hq Hqm Hc. cbv zeta.
  assert (Hnewer : forall i s, 0 <= i -> s <= (if at_least_as_new i s then i else s)).
  { intros i s Hi. unfold at_least_as_new, IsZero, Before. by_cases. }
  rewrite merge_usage, merge_workbuddy, merge_qoder, merge_cline.
  unfold mergeUsageMeter, mergeWorkBuddyCredentials, mergeQoderCredentials, mergeClineCredentials.
  cbv zeta. cbn [p_acc p_existing].
  cbn [qoder cline workbuddy usage set_qoder set_cline set_workbuddy QoderQuota QoderModelsSyncedAt
       ClineModelsSyncedAt WorkBuddyQuota].
  split_and!.
  - specialize (Hnewer _ (qq_SyncedAt (QoderQuota existing)) Hq). by destruct (at_least_as_new _ _).
  - by apply Hnewer.
  - by apply Hnewer.
  - unfold workBuddyMeterReadingIsNewer, Before.
    destruct (IsZero _); [done|]. destruct (negb (_ <? _)) eqn:E; [|done]. bool_to_prop. done.
  - intros ->. cbn [negb orb]. destruct (workBuddyMeterReadingIsNewer _ _); [by left|by right].
  - intros existing' Hp Hqs. unfold patch_qoder in Hp.
    destruct (applyCredentialPatch _ _ _ _ _ _ _ _) as [[[a r] e]|]; [|done].
    cbn in Hp. injection Hp as <-. cbn [qoder set_qoder QoderQuota].
    destruct (qp_Quota patch) as [q|]; [|done]. specialize (Hqs q eq_refl).
    destruct (_ || _) eqn:E; [|done]. unfold IsZero, Before in E.
    apply orb_true_iff in E as [E|E]; bool_to_prop; lia.
Qed.

Lemma merge_readings_monotone_witness :
  qq_SyncedAt (QoderQuota zero_account) <=
  qq_SyncedAt (QoderQuota (merge_account 1 2 zero_account zero_account)).
Proof.
  apply (merge_readings_monotone 1 2 zero_account zero_account
           (mkQoderPatch "" "" "" 0 "" "" "" None None)); vm_compute; congruence.
Defined.

(** Rotations of a credential are compare-and-set. A patch is refused exactly
    when it names an expected refresh token and the row holds neither that one
    nor the one being installed; an accepted patch never blanks a credential,
    repeating it changes nothing, and of two refreshers that started from the
    same token and obtained different ones the second is refused. *)
Theorem credential_rotation (channel expected access refresh : string) (expires : Time)
    (a r : string) (e : Time) :
  let out := applyCredentialPatch channel expected access refresh expires a r e in
  (out = Err (changed_concurrently channel) <->
     TrimSpace expected <> "" /\ r <> TrimSpace expected /\ r <> TrimSpace refresh) /\
  (forall a' r' e', out = Ok (a', r', e') ->
     (a <> "" -> a' <> "") /\ (r <> "" -> r' <> "") /\
     applyCredentialPatch channel expected access refresh expires a' r' e' = Ok (a', r', e') /\
     (forall access2 refresh2 expires2,
        TrimSpace expected <> "" -> TrimSpace refresh <> "" ->
        TrimSpace refresh <> TrimSpace expected -> TrimSpace refresh2 <> TrimSpace refresh ->
        applyCredentialPatch channel expected access2 refresh2 expires2 a' r' e' =
        Err (changed_concurrently channel))).
Proof.
  cbv zeta. unfold applyCredentialPatch.
  assert (Hp : forall t i, patchString t i = if decide (TrimSpace i = "") then t else TrimSpace i).
  { intros t i. unfold patchString. by destruct (String.eqb_spec (TrimSpace i) ""), (decide _). }
  rewrite !Hp, TrimSpace_idem.
  set (x := TrimSpace expected). set (f := TrimSpace refresh).
  split.
  - destruct (String.eqb_spec x ""), (String.eqb_spec r x), (String.eqb_spec r f);
      cbn [negb andb]; split; try done; naive_solver.
  - intros a' r' e' Hout.
    assert (Hr : x = "" \/ r = x \/ r = f).
    { destruct (String.eqb_spec x ""), (String.eqb_spec r x), (String.eqb_spec r f); auto; done. }
    assert (Hok : (a', r', e') = (if decide (TrimSpace access = "") then a else TrimSpace access,
              if decide (f = "") then r else f, if negb (IsZero expires) then expires else e)).
    { destruct (negb _ && negb _ && negb _); [done|congruence]. }
    clear Hout. injection Hok as Ha Hr' He'. split_and!.
    + subst a'. by destruct (decide (TrimSpace access = "")).
    + subst r'. by destruct (decide (f = "")).
    + replace (negb _ && negb _ && negb _) with false.
      * subst a' r' e'. rewrite !Hp. unfold f in *. rewrite TrimSpace_idem.
        repeat case_decide; try done; by destruct (IsZero expires).
      * subst r'. destruct (decide (f = "")) as [Hf|Hf].
        -- destruct Hr as [->|[->| ->]]; rewrite ?String.eqb_refl; cbn;
             by rewrite ?andb_false_r.
        -- rewrite String.eqb_refl. cbn. by rewrite andb_false_r.
    + intros access2 refresh2 expires2 Hx Hf Hfx Hf2.
      destruct (decide (f = "")); [done|]. subst r'.
      rewrite (proj2 (String.eqb_neq x "") Hx), (proj2 (String.eqb_neq f x) Hfx),
        (proj2 (String.eqb_neq f (TrimSpace refresh2))) by done. done.
Qed.

Lemma credential_rotation_witness :
  applyCredentialPatch "cline" "r0" "b" "r2" 0 "a" "r1" 9 = Err (changed_concurrently "cline").
Proof.
  apply (credential_rotation "cline" "r0" "a" "r1" 9 "old" "r0" 1);
    [reflexivity|vm_compute; congruence..].
Defined.

(** A snapshot older than the row replaces the Qoder catalogue of a newer sync
    although the stamp of that sync is kept. *)
Example stale_catalogue :
  let row ids at_ stamp := set_stamps (set_qoder zero_account
    (mkQoderState "" "" 0 false "" "" "" "" [] false "" "" ids at_
       (QoderQuota zero_account))) (mkStamps 1 stamp) in
  let m := merge_account 5 5 (row ["old"] 10 100) (row ["new"] 20 200) in
  QoderModelIDs m = ["old"] /\ QoderModelsSyncedAt m = 20.
Proof. by vm_compute. Qed.
