(* ===== verification/Credentials.v ===== *)
(** * Credential encryption at rest (internal/store/credential_cipher.go)

    A stored row is the account with its thirteen credential fields encrypted.
    AES-GCM is a parameter: a nonce size, [Seal] and [Open] under one key, with
    the law that opening what was sealed gives it back ([AEAD]). Base64 is
    defined here. The JSON text of a row is represented by what encoding/json
    preserves of it ([json_image]). *)

From Stdlib Require Import Ascii.
From stdpp Require Import base numbers list strings gmap.
From S2P Require Import Prelude GoLib Account.

Local Open Scope orchids_scope.

(** ** encoding/base64, RawStdEncoding *)
Definition b64_alphabet : string :=
  "ABCDEFGHIJKLMNOPQRSTUVWXYZabcdefghijklmnopqrstuvwxyz0123456789+/".

Definition b64_value (b5 b4 b3 b2 b1 b0 : bool) : nat :=
  32 * Nat.b2n b5 + 16 * Nat.b2n b4 + 8 * Nat.b2n b3 + 4 * Nat.b2n b2 + 2 * Nat.b2n b1 + Nat.b2n b0.

Definition b64_char (b5 b4 b3 b2 b1 b0 : bool) : ascii :=
  default zero (String.get (b64_value b5 b4 b3 b2 b1 b0) b64_alphabet).

(** A byte is [Ascii b0 .. b7], least significant bit first. *)
Fixpoint b64_encode (s : string) : string :=
  match s with
  | EmptyString => ""
  | String (Ascii a0 a1 a2 a3 a4 a5 a6 a7) EmptyString =>
      String (b64_char a7 a6 a5 a4 a3 a2) (String (b64_char a1 a0 false false false false) "")
  | String (Ascii a0 a1 a2 a3 a4 a5 a6 a7)
      (String (Ascii b0 b1 b2 b3 b4 b5 b6 b7) EmptyString) =>
      String (b64_char a7 a6 a5 a4 a3 a2) (String (b64_char a1 a0 b7 b6 b5 b4)
        (String (b64_char b3 b2 b1 b0 false false) ""))
  | String (Ascii a0 a1 a2 a3 a4 a5 a6 a7)
      (String (Ascii b0 b1 b2 b3 b4 b5 b6 b7)
        (String (Ascii c0 c1 c2 c3 c4 c5 c6 c7) rest)) =>
      String (b64_char a7 a6 a5 a4 a3 a2) (String (b64_char a1 a0 b7 b6 b5 b4)
        (String (b64_char b3 b2 b1 b0 c7 c6) (String (b64_char c5 c4 c3 c2 c1 c0)
          (b64_encode rest))))
  end.

Fixpoint index_of (a : ascii) (s : string) : option nat :=
  match s with
  | EmptyString => None
  | String b s' => if Ascii.eqb a b then Some 0 else S <$> index_of a s'
  end.

(** The bit [k] of the value of a character; [None] outside the alphabet. *)
Definition b64_bits (a : ascii) : option (nat -> bool) :=
  (fun n k => Nat.testbit n k) <$> index_of a b64_alphabet.

Fixpoint b64_decode_clean (s : string) : option string :=
  match s with
  | EmptyString => Some ""
  | String _ EmptyString => None
  | String w (String x EmptyString) =>
      w ← b64_bits w; x ← b64_bits x;
      Some (String (Ascii (x 4) (x 5) (w 0) (w 1) (w 2) (w 3) (w 4) (w 5)) "")
  | String w (String x (String y EmptyString)) =>
      w ← b64_bits w; x ← b64_bits x; y ← b64_bits y;
      Some (String (Ascii (x 4) (x 5) (w 0) (w 1) (w 2) (w 3) (w 4) (w 5))
           (String (Ascii (y 2) (y 3) (y 4) (y 5) (x 0) (x 1) (x 2) (x 3)) ""))
  | String w (String x (String y (String z rest))) =>
      w ← b64_bits w; x ← b64_bits x; y ← b64_bits y; z ← b64_bits z;
      tail ← b64_decode_clean rest;
      Some (String (Ascii (x 4) (x 5) (w 0) (w 1) (w 2) (w 3) (w 4) (w 5))
           (String (Ascii (y 2) (y 3) (y 4) (y 5) (x 0) (x 1) (x 2) (x 3))
           (String (Ascii (z 0) (z 1) (z 2) (z 3) (z 4) (z 5) (y 0) (y 1)) tail)))
  end.

(** The decoder skips line breaks. *)
Definition b64_decode (s : string) : option string :=
  b64_decode_clean (RemoveAll (RemoveAll s (ascii_of_nat 10)) (ascii_of_nat 13)).

(** ** crypto/cipher AEAD under the configured key *)
Class AEAD := {
  NonceSize : nat;
  Seal : string -> string -> string;
  Open : string -> string -> option string;
}.

Class AEADLaws (A : AEAD) := open_seal : forall nonce plain, Open nonce (Seal nonce plain) = Some plain.

Definition encryptedCredentialPrefix : string := "enc:v1:".

(** [credentialCipher], nil when no key is configured. [nonce] is what the
    random source yields, [None] when reading it fails. *)
Definition encrypt (c : option AEAD) (nonce : option string) (value : string)
    : result string string :=
  match c with
  | None => Ok value
  | Some aead =>
      if String.eqb value "" then Ok value
      else match nonce with
           | None => Err "rand"
           | Some nonce =>
               Ok (encryptedCredentialPrefix +:+ b64_encode (nonce +:+ @Seal aead nonce value))
           end
  end.

Definition decrypt (c : option AEAD) (value : string) : result string string :=
  if String.eqb value "" || negb (HasPrefix value encryptedCredentialPrefix) then Ok value
  else match c with
       | None => Err "encrypted credential found but no encryption key is configured"
       | Some aead =>
           match b64_decode (TrimPrefix value encryptedCredentialPrefix) with
           | None => Err "decode encrypted credential"
           | Some raw =>
               if (String.length raw <? @NonceSize aead)%nat
               then Err "encrypted credential is truncated"
               else match @Open aead (stake (@NonceSize aead) raw) (sdrop (@NonceSize aead) raw) with
                    | None => Err "decrypt credential"
                    | Some plain => Ok plain
                    end
           end
       end.

(** ** The credential fields of an account *)
Definition accountCredentialFields (acc : Account) : list string := [
  ClientCookie acc; RefreshToken acc; Token acc; OAuthAccessToken acc; OAuthRefreshToken acc;
  WorkBuddyAccessToken acc; WorkBuddyRefreshToken acc; QoderAccessToken acc;
  QoderRefreshToken acc; QoderRuntimeInfo acc; QoderRuntimeKey acc; ClineAccessToken acc;
  ClineRefreshToken acc].

(** Writing through the thirteen pointers. *)
Definition set_credential_fields (acc : Account) (v : list string) : Account :=
  let f n := nth n v "" in
  mkAccount
    (mkIdentity (ID acc) (Name acc) (AccountType acc) (f 0) (f 1) (UserID acc) (AgentMode acc)
       (Email acc) (Weight acc) (MaxConcurrent acc) (Enabled acc) (f 2) (Subscription acc))
    (usage acc) (status acc) (quality acc) (stamps acc)
    (mkGrokState (CredentialType acc) (f 3) (f 4) (OAuthExpiresAt acc) (TeamID acc)
       (GrokProvider acc) (GrokModels acc) (GrokModelCatalog acc) (GrokModelsSyncedAt acc)
       (GrokBilling acc) (GrokRateLimits acc) (GrokFreeQuota acc))
    (cooldowns acc)
    (mkWorkBuddyState (f 5) (f 6) (WorkBuddyExpiresAt acc) (WorkBuddyUID acc)
       (ReplaceWorkBuddyCredentials acc) (WorkBuddyModelIDs acc) (WorkBuddyModelsSyncedAt acc)
       (WorkBuddyQuota acc))
    (mkQoderState (f 7) (f 8) (QoderExpiresAt acc) (ReplaceQoderCredentials acc)
       (QoderMachineID acc) (QoderUserID acc) (QoderUserName acc) (QoderOrganizationID acc)
       (QoderOrganizationTags acc) (QoderDataPolicy acc) (f 9) (f 10) (QoderModelIDs acc)
       (QoderModelsSyncedAt acc) (QoderQuota acc))
    (mkClineState (f 11) (f 12) (ClineExpiresAt acc) (ClineEmail acc) (ClinePlan acc)
       (ReplaceClineCredentials acc) (ClineModelIDs acc) (ClineModelsSyncedAt acc)).

(** ** Rows *)

(** What encoding and decoding a row keeps: fields tagged [json:"-"] are dropped
    and an empty slice under [omitempty] decodes to nil. *)
Definition nonempty_slice {A} (xs : option (list A)) : option (list A) :=
  match xs with Some [] => None | _ => xs end.

Definition json_image (acc : Account) : Account :=
  mkAccount (identity acc) (usage acc)
    (mkStatus (StatusCode acc) (AuthStatus acc) (RateLimitFailures acc) (StatusMessage acc)
       (LastAttempt acc) (VerifiedAt acc) false (QuotaResetAt acc))
    (quality acc) (stamps acc)
    (mkGrokState (CredentialType acc) (OAuthAccessToken acc) (OAuthRefreshToken acc)
       (OAuthExpiresAt acc) (TeamID acc) (GrokProvider acc) (nonempty_slice (GrokModels acc))
       (nonempty_slice (GrokModelCatalog acc)) (GrokModelsSyncedAt acc) (GrokBilling acc)
       (GrokRateLimits acc) (GrokFreeQuota acc))
    (cooldowns acc)
    (mkWorkBuddyState (WorkBuddyAccessToken acc) (WorkBuddyRefreshToken acc)
       (WorkBuddyExpiresAt acc) (WorkBuddyUID acc) false (WorkBuddyModelIDs acc)
       (WorkBuddyModelsSyncedAt acc) (WorkBuddyQuota acc))
    (mkQoderState (QoderAccessToken acc) (QoderRefreshToken acc) (QoderExpiresAt acc) false
       (QoderMachineID acc) (QoderUserID acc) (QoderUserName acc) (QoderOrganizationID acc)
       (QoderOrganizationTags acc) (QoderDataPolicy acc) (QoderRuntimeInfo acc)
       (QoderRuntimeKey acc) (QoderModelIDs acc) (QoderModelsSyncedAt acc) (QoderQuota acc))
    (mkClineState (ClineAccessToken acc) (ClineRefreshToken acc) (ClineExpiresAt acc)
       (ClineEmail acc) (ClinePlan acc) false (ClineModelIDs acc) (ClineModelsSyncedAt acc)).

(** The loop over the field pointers that rewrites each target, stopping at the
    first error; [i] counts the fields. *)
Fixpoint map_fields (f : nat -> string -> result string string) (i : nat) (fields : list string)
    : result (list string) string :=
  match fields with
  | [] => Ok []
  | v :: rest =>
      let? v' := f i v in
      let? rest' := map_fields f (S i) rest in
      Ok (v' :: rest')
  end.

(** [rand i] is the nonce read for the [i]-th field. *)
Definition marshalAccount (c : option AEAD) (rand : nat -> option string) (acc : Account)
    : result Account string :=
  let? fields := map_fields (fun i => encrypt c (rand i)) 0 (accountCredentialFields acc) in
  Ok (json_image (set_credential_fields acc fields)).

Definition unmarshalAccount (c : option AEAD) (data : Account) (fallbackID : Z)
    : result Account string :=
  let? fields := map_fields (fun _ => decrypt c) 0 (accountCredentialFields data) in
  let acc := set_credential_fields data fields in
  Ok (if (ID acc =? 0)%Z
      then set_identity acc (mkIdentity fallbackID (Name acc) (AccountType acc)
             (ClientCookie acc) (RefreshToken acc) (UserID acc) (AgentMode acc) (Email acc)
             (Weight acc) (MaxConcurrent acc) (Enabled acc) (Token acc) (Subscription acc))
      else acc).

Definition hasLegacyCredential (data : Account) : bool :=
  existsb (fun value => negb (String.eqb value "") && negb (HasPrefix value encryptedCredentialPrefix))
    [ClientCookie data; RefreshToken data; Token data; OAuthAccessToken data;
     OAuthRefreshToken data; WorkBuddyAccessToken data; WorkBuddyRefreshToken data;
     QoderAccessToken data; QoderRefreshToken data; QoderRuntimeInfo data;
     QoderRuntimeKey data].

(** ** Base64 round trip *)
Lemma b64_bits_char (b5 b4 b3 b2 b1 b0 : bool) :
  exists f, b64_bits (b64_char b5 b4 b3 b2 b1 b0) = Some f /\
    f 0 = b0 /\ f 1 = b1 /\ f 2 = b2 /\ f 3 = b3 /\ f 4 = b4 /\ f 5 = b5.
Proof.
  destruct b5, b4, b3, b2, b1, b0; eexists; (split; [vm_compute; reflexivity|by vm_compute]).
Qed.

Lemma b64_char_visible (b5 b4 b3 b2 b1 b0 : bool) :
  Ascii.eqb (b64_char b5 b4 b3 b2 b1 b0) (ascii_of_nat 10) = false /\
  Ascii.eqb (b64_char b5 b4 b3 b2 b1 b0) (ascii_of_nat 13) = false.
Proof. destruct b5, b4, b3, b2, b1, b0; by vm_compute. Qed.

Ltac b64_step :=
  repeat match goal with
  | |- context [b64_bits (b64_char ?p ?q ?r ?s ?t ?u)] =>
      let f := fresh "f" in
      destruct (b64_bits_char p q r s t u) as (f & -> & ? & ? & ? & ? & ? & ?)
  end.

(** Bytes come in threes. *)
Lemma string_triples (P : string -> Prop) :
  P "" -> (forall a, P (String a "")) -> (forall a b, P (String a (String b ""))) ->
  (forall a b c s, P s -> P (String a (String b (String c s)))) -> forall s, P s.
Proof.
  intros H0 H1 H2 H3. fix IH 1. intros [|a [|b [|c s]]]; [done|apply H1|apply H2|].
  apply H3, IH.
Qed.

Lemma b64_clean (s : string) : b64_decode_clean (b64_encode s) = Some s.
Proof.
  induction s as [|a|a b|a b c s IH] using string_triples; [done|..];
    repeat match goal with a : ascii |- _ => destruct a end;
    cbn [b64_encode b64_decode_clean]; b64_step; rewrite ?IH; simpl; by subst.
Qed.

Lemma RemoveAll_absent (a : ascii) (s : string) :
  str_all (fun c => negb (Ascii.eqb c a)) s = true -> RemoveAll s a = s.
Proof.
  induction s as [|c s IH]; [done|]. cbn [str_all RemoveAll]. intros [Hc Hs]%andb_true_iff.
  apply negb_true_iff in Hc. by rewrite Hc, IH.
Qed.

Lemma b64_encode_all (P : ascii -> bool) (s : string) :
  (forall b5 b4 b3 b2 b1 b0, P (b64_char b5 b4 b3 b2 b1 b0) = true) ->
  str_all P (b64_encode s) = true.
Proof.
  intros HP. induction s as [|a|a b|a b c s IH] using string_triples; [done|..];
    repeat match goal with a : ascii |- _ => destruct a end;
    cbn [b64_encode str_all]; by rewrite !HP, ?IH.
Qed.

Lemma b64_roundtrip (s : string) : b64_decode (b64_encode s) = Some s.
Proof.
  unfold b64_decode.
  rewrite (RemoveAll_absent (ascii_of_nat 10)), (RemoveAll_absent (ascii_of_nat 13));
    [apply b64_clean|apply b64_encode_all..]; intros.
  - by rewrite (proj2 (b64_char_visible _ _ _ _ _ _)).
  - by rewrite (proj1 (b64_char_visible _ _ _ _ _ _)).
Qed.

(** ** One field *)
Section RoundTrip.
Context {aead : AEAD} {laws : AEADLaws aead}.

Lemma decrypt_encrypt (nonce value cipher : string) :
  String.length nonce = NonceSize ->
  encrypt (Some aead) (Some nonce) value = Ok cipher ->
  decrypt (Some aead) cipher = Ok value /\
  (cipher = "" \/ HasPrefix cipher encryptedCredentialPrefix = true).
Proof.
  intros Hn. unfold encrypt. destruct (String.eqb_spec value "") as [->|Hv].
  - intros [= <-]. split; [done|by left].
  - set (raw := nonce +:+ Seal nonce value). intros H.
    assert (cipher = encryptedCredentialPrefix +:+ b64_encode raw) as -> by congruence. clear H.
    assert (Hp : HasPrefix (encryptedCredentialPrefix +:+ b64_encode raw)
                   encryptedCredentialPrefix = true) by (by apply HasPrefix_spec; eexists).
    split; [|by right]. unfold decrypt, TrimPrefix. rewrite Hp, sdrop_app, b64_roundtrip.
    replace (String.eqb _ "") with false by done. cbn [orb negb].
    unfold raw. rewrite sapp_length, <- Hn.
    rewrite (proj2 (Nat.ltb_ge _ _)) by lia.
    rewrite stake_app, sdrop_app. by rewrite open_seal.
Qed.
End RoundTrip.

Lemma decrypt_plain (value : string) :
  HasPrefix value encryptedCredentialPrefix = false -> forall c, decrypt c value = Ok value.
Proof. intros Hp c. unfold decrypt. by rewrite Hp, orb_true_r. Qed.

(** ** All fields *)
Definition protected (value : string) : Prop :=
  value = "" \/ HasPrefix value encryptedCredentialPrefix = true.

(** A field-wise round trip is a round trip of the list. *)
Lemma map_fields_roundtrip (f g : nat -> string -> result string string) (P Q : string -> Prop) fields :
  (forall i v, v ∈ fields -> P v -> exists w, f i v = Ok w /\ (forall j, g j w = Ok v) /\ Q w) ->
  Forall P fields -> forall i,
  exists out, map_fields f i fields = Ok out /\ (forall j, map_fields g j out = Ok fields) /\
    length out = length fields /\ Forall Q out.
Proof.
  induction fields as [|v fields IH]; intros Hf HP i; [by exists []|].
  apply Forall_cons in HP as [Hv HP].
  destruct (Hf i v) as (w & Hw & Hg & HQ); [by left|done|].
  destruct (IH (fun i v H => Hf i v (list_elem_of_further _ _ _ H)) HP (S i)) as (out & Ho & Hgo & Hl & HQo).
  exists (w :: out). cbn [map_fields]. rewrite Hw. cbn. rewrite Ho. split_and!; try done.
  - intros j. cbn. rewrite Hg. cbn. by rewrite Hgo.
  - cbn. by rewrite Hl.
  - by apply Forall_cons.
Qed.

Lemma fields_set_get acc l :
  length l = 13%nat -> accountCredentialFields (json_image (set_credential_fields acc l)) = l.
Proof. intros H. do 14 (destruct l as [|? l]; try done). Qed.

Lemma set_fields_image acc l :
  set_credential_fields (json_image (set_credential_fields acc l)) (accountCredentialFields acc) =
  json_image acc.
Proof. by destruct acc as [[] [] [] ? ? [] ? [] [] []]. Qed.

Definition with_id (acc : Account) (id : Z) : Account :=
  set_identity acc (mkIdentity id (Name acc) (AccountType acc)
    (ClientCookie acc) (RefreshToken acc) (UserID acc) (AgentMode acc) (Email acc)
    (Weight acc) (MaxConcurrent acc) (Enabled acc) (Token acc) (Subscription acc)).

(** What reading back a written row yields, whenever writing and reading agree
    on every credential field. *)
Lemma row_roundtrip c rand acc id (P : string -> Prop) (Q : string -> Prop) :
  (forall i v, v ∈ accountCredentialFields acc -> P v ->
     exists w, encrypt c (rand i) v = Ok w /\ decrypt c w = Ok v /\ Q w) ->
  Forall P (accountCredentialFields acc) ->
  exists row, marshalAccount c rand acc = Ok row /\
    unmarshalAccount c row id =
      Ok (if (ID acc =? 0)%Z then with_id (json_image acc) id else json_image acc) /\
    Forall Q (accountCredentialFields row).
Proof.
  intros Hf HP.
  destruct (map_fields_roundtrip (fun i => encrypt c (rand i)) (fun _ => decrypt c) P Q
              (accountCredentialFields acc)) with (i := 0%nat) as (out & Ho & Hg & Hl & HQ).
  { intros i v Hv HPv. destruct (Hf i v Hv HPv) as (w & ? & ? & ?). eauto. }
  { done. }
  exists (json_image (set_credential_fields acc out)).
  unfold marshalAccount, unmarshalAccount. rewrite Ho. cbn [result_bind].
  rewrite fields_set_get by (by rewrite Hl). split_and!; [done| |done].
  rewrite Hg. cbn [result_bind]. rewrite set_fields_image.
  by destruct acc as [[] [] [] ? ? [] ? [] [] []].
Qed.


(** An AEAD that satisfies the law, for concrete inputs: the nonce is appended. *)
Definition toy_aead : AEAD := {|
  NonceSize := 2;
  Seal := fun nonce plain => plain +:+ nonce;
  Open := fun nonce sealed => Some (stake (String.length sealed - String.length nonce) sealed);
|}.

#[local] Instance toy_laws : AEADLaws toy_aead.
Proof.
  intros nonce plain. cbn. rewrite sapp_length.
  replace (String.length plain + String.length nonce - String.length nonce)%nat
    with (String.length plain) by lia. by rewrite stake_app.
Qed.


(** The migration test does not look at the two Cline credentials. *)
Example legacy_cline_unseen :
  let row := set_credential_fields zero_account
    [""; ""; ""; ""; ""; ""; ""; ""; ""; ""; ""; "plain"; "plain"] in
  hasLegacyCredential row = false /\ ~ Forall protected (accountCredentialFields row).
Proof.
  split; [by vm_compute|]. intros H. rewrite Forall_forall in H.
  destruct (H "plain") as [Hp|Hp]; [|done|by vm_compute in Hp].
  apply list_elem_of_In. vm_compute. tauto.
Qed.
