(* ===== verification/AccountStore.v ===== *)
(** * The account store (internal/store/redis_store.go, redis_batch.go,
    redis_scripts.go: incrementAccountStatsScript)

    The account rows and their two index sets in Redis, and every operation that
    reads or writes them. [Db] holds the keys of the account namespace;
    [touched] counts the writes to each row key, which is what WATCH observes.
    An operation that reads a row and commits later is given the effect of the
    other clients in between ([Env]); a Redis command itself is atomic. *)

From Stdlib Require Import Ascii.
From stdpp Require Import base numbers list strings gmap sorting.
From S2P Require Import Prelude GoLib Account Cooldown Merge Credentials.

Local Open Scope Z_scope.
Local Open Scope orchids_scope.

Record Db := mkDb {
  rows : gmap Z Account;
  touched : gmap Z nat;
  ids : gset Z;
  enabled : gset Z;
  next_id : Z;
  stats_ops : gmap Z (gset string);
}.

Definition empty_db : Db := mkDb ∅ ∅ ∅ ∅ 0 ∅.
Definition touches (db : Db) (id : Z) : nat := default 0%nat (touched db !! id).

(** [pipe.Set] of the row followed by [pipeAccountMembership]. *)
Definition pipeAccountMembership (id : Z) (on : bool) (db : Db) : Db :=
  mkDb (rows db) (touched db) ({[ id ]} ∪ ids db)
    (if on then {[ id ]} ∪ enabled db else enabled db ∖ {[ id ]}) (next_id db) (stats_ops db).

Definition set_row (id : Z) (data : Account) (db : Db) : Db :=
  mkDb (<[id := data]> (rows db)) (<[id := S (touches db id)]> (touched db))
    (ids db) (enabled db) (next_id db) (stats_ops db).

Definition write_row (id : Z) (data : Account) (on : bool) (db : Db) : Db :=
  pipeAccountMembership id on (set_row id data db).

(** What one run of the closure of [updateAccountAtomic] decides. The
    mutation also yields what its caller captures from it (a claimed or
    consumed flag). *)
Inductive body_outcome (B : Type) :=
  | BodyNoRows
  | BodyErr (e : string) (b : option B)
  | BodyUnchanged (b : B)
  | BodyCommit (previous data : Account) (on : bool) (b : B).
Arguments BodyNoRows {B}.
Arguments BodyErr {B} e b.
Arguments BodyUnchanged {B} b.
Arguments BodyCommit {B} previous data on b.

(** What the other clients do while attempt [k] of a call is between its read
    and its EXEC. *)
Abbreviation Env := (nat -> Db -> Db) (only parsing).

Section Store.
(** The cipher of the process and its random source: attempt, then field. *)
Context (credentials : option AEAD) (rand : nat -> nat -> option string).

(** ** Reading *)
Definition getAccount (db : Db) (id : Z) : result Account string :=
  if id =? 0 then Err "no rows"
  else match rows db !! id with
       | None => Err "no rows"
       | Some value => unmarshalAccount credentials value id
       end.

(** The ids a set command returns, parsed and sorted. *)
Definition parseSortedInt64s (set : gset Z) : list Z := merge_sort Z.le (elements set).

(** One position of the decode loop: [Ok None] leaves the slot empty. *)
Definition decode_row (db : Db) (onlyEnabled : bool) (id : Z) : result (option Account) string :=
  match rows db !! id with
  | None => Ok None
  | Some value =>
      let? acc := unmarshalAccount credentials value id in
      Ok (if onlyEnabled && negb (Enabled acc) then None else Some acc)
  end.

Definition compactNonNil {A} (items : list (option A)) : list A := omap id items.

Fixpoint first_error {A} (items : list (result A string)) : option string :=
  match items with
  | [] => None
  | Err e :: _ => Some e
  | Ok _ :: rest => first_error rest
  end.

Definition ok_of {A} (r : result (option A) string) : option A :=
  match r with Ok o => o | Err _ => None end.

Definition getAccountsByIDs (db : Db) (set : gset Z) (onlyEnabled : bool)
    : result (list Account) string :=
  let idNums := parseSortedInt64s set in
  let decoded := decode_row db onlyEnabled <$> idNums in
  match first_error decoded with
  | Some e => Err e
  | None => Ok (compactNonNil (ok_of <$> decoded))
  end.

Definition ListAccounts (db : Db) : result (list Account) string :=
  getAccountsByIDs db (ids db) false.

Definition GetEnabledAccounts (db : Db) : result (list Account) string :=
  getAccountsByIDs db (enabled db) true.

(** ** Creating and deleting *)
Definition with_stamps_default (now : Time) (acc : Account) : Account :=
  set_stamps acc (mkStamps
    (if IsZero (CreatedAt acc) then now else CreatedAt acc)
    (if IsZero (UpdatedAt acc) then now else UpdatedAt acc)).

Definition CreateAccount (now : Time) (acc : Account) (db : Db) : result Account string * Db :=
  let id := wrap64 (next_id db + 1) in
  let db := mkDb (rows db) (touched db) (ids db) (enabled db) id (stats_ops db) in
  let acc := with_stamps_default now (with_id acc id) in
  match marshalAccount credentials (rand 0) acc with
  | Err e => (Err e, db)
  | Ok data => (Ok acc, write_row id data (Enabled acc) db)
  end.

(** [Ok (Some previous)] announces the removal of a row that existed. *)
Definition DeleteAccount (id : Z) (db : Db) : result (option Account) string * Db :=
  if id =? 0 then (Ok None, db)
  else
    let remove (db : Db) :=
      mkDb (delete id (rows db))
        (match rows db !! id with          (* removing an absent key is not a write *)
         | Some _ => <[id := S (touches db id)]> (touched db)
         | None => touched db
         end)
        (ids db ∖ {[ id ]}) (enabled db ∖ {[ id ]}) (next_id db) (delete id (stats_ops db)) in
    match rows db !! id with
    | None => (Ok None, remove db)
    | Some value =>
        match unmarshalAccount credentials value id with
        | Err e => (Err e, db)
        | Ok previous => (Ok (Some previous), remove db)
        end
    end.

(** ** updateAccountAtomic *)
Definition set_UpdatedAt (acc : Account) (t : Time) : Account :=
  set_stamps acc (mkStamps (CreatedAt acc) t).

Definition watch_body {B} (rand : nat -> option string) (now : Time)
    (mutate : Account -> result (Account * B) string) (id : Z) (stored : option Account)
    : body_outcome B :=
  match stored with
  | None => BodyNoRows
  | Some value =>
      let legacy := hasLegacyCredential value in
      match unmarshalAccount credentials value id with
      | Err e => BodyErr e None
      | Ok previous =>
          match mutate previous with
          | Err e => BodyErr e None
          | Ok (current, b) =>
              let current := set_UpdatedAt current (UpdatedAt previous) in
              let configured := match credentials with Some _ => true | None => false end in
              if bool_decide (current = previous) && negb (legacy && configured)
              then BodyUnchanged b
              else
                let stamp := if After now (UpdatedAt previous) then now
                             else Add (UpdatedAt previous) Nanosecond in
                let current := set_UpdatedAt current stamp in
                match marshalAccount credentials rand current with
                | Err e => BodyErr e (Some b)
                | Ok data => BodyCommit previous data (Enabled current) b
                end
          end
      end
  end.

Definition changed_too_frequently (id : Z) : string :=
  "account " +:+ fmt_d id +:+ " changed too frequently; update could not be committed".

(** The retry loop: [attempts] are left, [k] are spent; [flag] is the captured
    variable, which keeps the value of the last run of the closure. The result
    is [Some previous] when a change was published. *)
Fixpoint update_attempts {B} (attempts k : nat) (env : Env) (clock : nat -> Time)
    (mutate : nat -> Account -> result (Account * B) string) (id : Z) (flag : B) (db : Db)
    : result (option Account) string * B * Db :=
  match attempts with
  | O => (Err (changed_too_frequently id), flag, db)
  | S attempts' =>
      let db' := env k db in
      match watch_body (rand k) (clock k) (mutate k) id (rows db !! id) with
      | BodyNoRows => (Ok None, flag, db')
      | BodyErr e b => (Err e, default flag b, db')
      | BodyUnchanged b => (Ok None, b, db')
      | BodyCommit previous data on b =>
          if decide (touches db' id = touches db id)
          then (Ok (Some previous), b, write_row id data on db')
          else update_attempts attempts' (S k) env clock mutate id b db'
      end
  end.

Definition updateAccountAtomic {B} (env : Env) (clock : nat -> Time)
    (mutate : nat -> Account -> result (Account * B) string) (id : Z) (flag : B) (db : Db)
    : result (option Account) string * B * Db :=
  if id =? 0 then (Ok None, flag, db)
  else update_attempts 8 0 env clock mutate id flag db.

(** ** The writers *)

(** [clock k 0], [clock k 1], ... are the readings of the clock in attempt [k];
    the last one stamps the row. *)
Definition plain {A} (r : result A string) : result (A * unit) string :=
  let? a := r in Ok (a, tt).

Definition UpdateAccount (env : Env) (clock : nat -> nat -> Time) (acc : Account) (db : Db) :=
  if ID acc =? 0 then (Ok None, tt, db)
  else updateAccountAtomic env (fun k => clock k 2%nat)
         (fun k existing => Ok (merge_account (clock k 0%nat) (clock k 1%nat) acc existing, tt))
         (ID acc) tt db.

Definition UpdateAccountQuality (env : Env) (clock : nat -> Time) (id failures : Z)
    (cooldownUntil : Time) (db : Db) :=
  let failures := if failures <? 0 then 0 else failures in
  updateAccountAtomic env clock
    (fun _ existing => Ok (set_quality existing (mkQuality failures cooldownUntil), tt)) id tt db.

Definition UpdateWorkBuddyCredentials (env : Env) (clock : nat -> Time) (id : Z)
    (patch : WorkBuddyCredentialPatch) (db : Db) :=
  updateAccountAtomic env clock (fun _ acc => plain (patch_workbuddy patch acc)) id tt db.

Definition UpdateQoderAccount (env : Env) (clock : nat -> Time) (id : Z)
    (patch : QoderAccountPatch) (db : Db) :=
  updateAccountAtomic env clock (fun _ acc => plain (patch_qoder patch acc)) id tt db.

Definition UpdateClineCredentials (env : Env) (clock : nat -> Time) (id : Z)
    (patch : ClineCredentialPatch) (db : Db) :=
  updateAccountAtomic env clock (fun _ acc => plain (patch_cline patch acc)) id tt db.

(** [max(0, x)] on float64: NaN stays NaN. *)
Definition f64_max0 (x : float64) : float64 :=
  match x with SpecFloat.S754_nan => x | _ => if f64_lt f64_zero x then x else f64_zero end.

Definition decrementQuotaWindow (window : GrokQuotaWindow) (amount : float64)
    : GrokQuotaWindow * bool :=
  if negb (gw_HasRemaining window) || f64_le (gw_Remaining window) f64_zero
     || f64_le amount f64_zero
  then (window, false)
  else (mkGrokWindow (gw_Limit window) (f64_max0 (f64_sub (gw_Remaining window) amount))
          (gw_UsagePercent window) (gw_HasLimit window) (gw_HasRemaining window)
          (gw_HasUsage window) (gw_ResetAt window), true).

Definition set_GrokRateLimits (acc : Account) (r : GrokRateLimitSnapshot) : Account :=
  set_grok acc (mkGrokState (CredentialType acc) (OAuthAccessToken acc) (OAuthRefreshToken acc)
    (OAuthExpiresAt acc) (TeamID acc) (GrokProvider acc) (GrokModels acc) (GrokModelCatalog acc)
    (GrokModelsSyncedAt acc) (GrokBilling acc) r (GrokFreeQuota acc)).

Definition set_GrokBilling (acc : Account) (b : GrokBillingSnapshot) : Account :=
  set_grok acc (mkGrokState (CredentialType acc) (OAuthAccessToken acc) (OAuthRefreshToken acc)
    (OAuthExpiresAt acc) (TeamID acc) (GrokProvider acc) (GrokModels acc) (GrokModelCatalog acc)
    (GrokModelsSyncedAt acc) b (GrokRateLimits acc) (GrokFreeQuota acc)).

(** The closure of [ConsumeGrokQuota]. *)
Definition consume_mutation (now : Time) (provider : string) (amount : float64) (acc : Account)
    : result (Account * bool) string :=
  if negb (EqualFold (TrimSpace provider) "build") then Ok (acc, false)
  else
    let limits := GrokRateLimits acc in
    let '(requests, consumed) := decrementQuotaWindow (gr_Requests limits) amount in
    Ok (set_GrokRateLimits acc (mkGrokRateLimits requests (gr_Tokens limits) (gr_Model limits)
          (if consumed then now else gr_ObservedAt limits)), consumed).

Definition ConsumeGrokQuota (env : Env) (clock : nat -> nat -> Time) (id : Z)
    (provider : string) (amount : float64) (db : Db) : result (option Account) string * bool * Db :=
  if f64_le amount f64_zero || (id =? 0) then (Ok None, false, db)
  else updateAccountAtomic env (fun k => clock k 1%nat)
         (fun k => consume_mutation (clock k 0%nat) provider amount) id false db.

(** The closure of [ClaimGrokPaidQuotaProbe]. *)
Definition claim_mutation (now : Time) (acc : Account) : result (Account * bool) string :=
  let billing := GrokBilling acc in
  if negb (IsExhausted billing) then Ok (acc, false)
  else
    let due := if IsZero (gb_NextProbeAt billing) then PeriodEnd billing
               else gb_NextProbeAt billing in
    if IsZero due || Before now due then Ok (acc, false)
    else Ok (set_GrokBilling acc (mkGrokBilling (gb_Weekly billing) (gb_Monthly billing)
               (gb_SyncedAt billing) (gb_Source billing)
               (Add now GrokPaidQuotaProbeInterval) now), true).

Definition ClaimGrokPaidQuotaProbe (env : Env) (clock : nat -> Time) (wall : Time) (id : Z)
    (now : Time) (db : Db) : result (option Account) string * bool * Db :=
  if id =? 0 then (Ok None, false, db)
  else
    let now := if IsZero now then wall else now in
    updateAccountAtomic env clock (fun _ => claim_mutation now) id false db.

(** ** incrementAccountStatsScript

    [cjson] is what decoding and re-encoding a row by the Lua interpreter's JSON
    library does to it. Dates are [YYYY-MM-DD] strings, compared as strings. *)
Context (cjson : Account -> Account).

Definition string_lt (a b : string) : bool :=
  match String.compare a b with Lt => true | _ => false end.

Definition stats_row (usage_ : float64) (count : Z) (now : Time) (today : string) (acc : Account)
    : Account :=
  let acc_type := ToLower (AccountType acc) in
  let metered := String.eqb acc_type "grok" || String.eqb acc_type "qoder"
                 || String.eqb acc_type "workbuddy" in
  let new_day := String.eqb (TokensDate acc) "" || string_lt (TokensDate acc) today in
  set_UpdatedAt (set_usage acc (mkUsage
    (if metered then UsageCurrent acc else f64_add (UsageCurrent acc) usage_)
    (f64_add (UsageTotal acc) usage_)
    (UsageLimit acc)
    (if new_day then usage_
     else if String.eqb (TokensDate acc) today then f64_add (TokensToday acc) usage_
     else TokensToday acc)
    (if new_day then today else TokensDate acc)
    (RequestCount acc + count)
    now)) now.

Definition IncrementAccountStatsOperation (id : Z) (usage_ : float64) (count : Z)
    (operationID : string) (now : Time) (today : string) (db : Db) : result string string * Db :=
  if (id =? 0) || (f64_le usage_ f64_zero && (count <=? 0)) then (Ok "", db)
  else
    let op := TrimSpace operationID in
    let seen := default ∅ (stats_ops db !! id) in
    if negb (String.eqb op "") && bool_decide (op ∈ seen) then (Ok "DUPLICATE", db)
    else match rows db !! id with
         | None => (Err "account not found", db)
         | Some acc =>
             let db' := set_row id (cjson (stats_row usage_ count now today acc)) db in
             (Ok "OK",
              mkDb (rows db') (touched db') (ids db') (enabled db') (next_id db')
                (if String.eqb op "" then stats_ops db'
                 else <[id := {[ op ]} ∪ seen]> (stats_ops db')))
         end.

(** The EXPIRE of the operation ids, eight days after the last one. *)
Definition expire_stats_ops (id : Z) (db : Db) : Db :=
  mkDb (rows db) (touched db) (ids db) (enabled db) (next_id db) (delete id (stats_ops db)).

(** [migrateLegacyAccountCredentials]: one row of the start-up loop. *)
Definition migrate_row (id : Z) (db : Db) : result unit string * Db :=
  if id =? 0 then (Ok tt, db)
  else match rows db !! id with
       | None => (Ok tt, db)
       | Some raw =>
           match unmarshalAccount credentials raw id with
           | Err e => (Err e, db)
           | Ok acc =>
               let configured := match credentials with Some _ => true | None => false end in
               if negb (hasLegacyCredential raw) || negb configured then (Ok tt, db)
               else match marshalAccount credentials (rand 0) acc with
                    | Err e => (Err e, db)
                    | Ok encoded => (Ok tt, set_row id encoded db)
                    end
           end
       end.

Fixpoint migrateLegacyAccountCredentials (ids : list Z) (db : Db) : result unit string * Db :=
  match ids with
  | [] => (Ok tt, db)
  | id :: rest =>
      match migrate_row id db with
      | (Err e, db) => (Err e, db)
      | (Ok _, db) => migrateLegacyAccountCredentials rest db
      end
  end.
End Store.

(** ** Interference

    What other clients may do to the database: a row that changes has been
    written, and WATCH sees the write. Every operation above is of that kind. *)
Definition evolves (db db' : Db) : Prop :=
  forall id, (touches db id <= touches db' id)%nat /\
    (touches db' id = touches db id -> rows db' !! id = rows db !! id).

#[export] Instance evolves_preorder : PreOrder evolves.
Proof.
  split; [by intros db id|].
  intros d1 d2 d3 H12 H23 id. destruct (H12 id) as [? E12], (H23 id) as [? E23].
  split; [lia|]. intros E. rewrite E23, E12 by lia. done.
Qed.

Lemma touches_set_row id id' data db :
  touches (set_row id data db) id' =
  if decide (id = id') then S (touches db id) else touches db id'.
Proof.
  unfold set_row, touches. cbn [touched]. case_decide.
  - subst. by rewrite lookup_insert_eq.
  - by rewrite lookup_insert_ne.
Qed.

Lemma evolves_set_row id data db : evolves db (set_row id data db).
Proof.
  intros id'. rewrite touches_set_row. case_decide; [subst; split; lia|].
  split; [done|]. intros _. unfold set_row. cbn [rows]. by rewrite lookup_insert_ne.
Qed.

Lemma evolves_write_row id data on db : evolves db (write_row id data on db).
Proof. apply evolves_set_row. Qed.

Lemma evolves_delete credentials id db : evolves db (DeleteAccount credentials id db).2.
Proof.
  unfold DeleteAccount. destruct (id =? 0); [done|]. destruct (rows db !! id) as [row|] eqn:Hrow.
  - destruct (unmarshalAccount _ _ _); [|done]. cbn [snd]. intros id'.
    pose proof (touches_set_row id id' row db) as Ht. unfold set_row, touches in *.
    cbn [touched rows] in *. rewrite Ht. case_decide; [subst; split; lia|].
    split; [done|]. intros _. by rewrite lookup_delete_ne.
  - cbn [snd]. intros id'. unfold touches. cbn [touched rows]. split; [lia|].
    intros _. destruct (decide (id = id')) as [<-|]; [by rewrite lookup_delete_eq|by rewrite lookup_delete_ne].
Qed.

(** The database the other clients have produced after [k] of their turns. *)
Fixpoint env_run (env : Env) (k : nat) (db : Db) : Db :=
  match k with
  | O => db
  | S k => env k (env_run env k db)
  end.

Section Atomicity.
Context (credentials : option AEAD) (rand : nat -> nat -> option string).
Context {B : Type} (env : Env) (clock : nat -> Time)
  (mutate : nat -> Account -> result (Account * B) string) (id : Z).
Context (others : forall k db, evolves db (env k db)).

Abbreviation body k db :=
  (watch_body credentials (rand k) (clock k) (mutate k) id (rows db !! id)) (only parsing).

(** Where the retry loop ends: a commit against the row of that very instant,
    or no write at all. *)
Definition atomic_outcome (db0 : Db) (first last : nat)
    (out : result (option Account) string * B * Db) : Prop :=
  match out with
  | (Ok (Some previous), b, db') =>
      exists k data on, (first <= k < last)%nat /\
        body k (env_run env (S k) db0) = BodyCommit previous data on b /\
        db' = write_row id data on (env_run env (S k) db0)
  | (Ok None, _, db') =>
      exists k, (first <= k < last)%nat /\ db' = env_run env (S k) db0 /\
        (body k (env_run env k db0) = BodyNoRows \/
         exists b, body k (env_run env k db0) = BodyUnchanged b)
  | (Err e, _, db') =>
      (exists k b, (first <= k < last)%nat /\ db' = env_run env (S k) db0 /\
         body k (env_run env k db0) = BodyErr e b) \/
      (e = changed_too_frequently id /\ db' = env_run env last db0 /\
       forall k, (first <= k < last)%nat ->
         touches (env_run env (S k) db0) id <> touches (env_run env k db0) id)
  end.

Lemma atomic_outcome_first db0 first first' last out :
  (first' <= first)%nat ->
  (forall k, (first' <= k < first)%nat ->
     touches (env_run env (S k) db0) id <> touches (env_run env k db0) id) ->
  atomic_outcome db0 first last out -> atomic_outcome db0 first' last out.
Proof.
  intros Hle Hmiss. destruct out as [[[[previous|]|e] b] db']; cbn.
  - intros (k & data & on & ? & ?). exists k, data, on. split; [lia|done].
  - intros (k & ? & ?). exists k. split; [lia|done].
  - intros [(k & b' & ? & ?)|(? & ? & Hall)]; [left; exists k, b'; split; [lia|done]|right].
    split_and!; [done..|]. intros k Hk.
    destruct (decide (k < first)%nat); [apply Hmiss; lia|apply Hall; lia].
Qed.

Lemma update_attempts_spec (n k : nat) (flag : B) (db0 : Db) :
  atomic_outcome db0 k (k + n)
    (update_attempts credentials rand n k env clock mutate id flag (env_run env k db0)).
Proof.
  revert k flag; induction n as [|n IH]; intros k flag; cbn [update_attempts].
  - right. replace (k + 0)%nat with k by lia. split_and!; [done..|]. lia.
  - set (d := env_run env k db0). set (d' := env k d).
    destruct (body k d) as [|e b|b|previous data on b] eqn:Hb.
    + exists k. split_and!; [lia..|done|by left].
    + left. exists k, b. split_and!; [lia..|done|done].
    + exists k. split_and!; [lia..|done|right; by eexists].
    + destruct (decide (touches d' id = touches d id)) as [Ht|Ht].
      * exists k, data, on. split_and!; [lia..| |done].
        change (env_run env (S k) db0) with d'.
        destruct (others k d id) as [_ Hrow]. fold d' in Hrow. by rewrite (Hrow Ht).
      * apply (atomic_outcome_first _ (S k)); [lia| |].
        -- intros j Hj. replace j with k by lia. exact Ht.
        -- replace (k + S n)%nat with (S k + n)%nat by lia. apply (IH (S k) b).
Qed.
End Atomicity.

(** C1: no update is lost. However other clients interleave with the read, the
    mutation and the commit of [updateAccountAtomic], a call that publishes a
    change has applied its mutation to the row as it was at the instant of the
    commit, never to an older reading; a call that does not has written
    nothing; and the call gives up only when all eight attempts were overtaken
    by another write of the same row. *)
Theorem updateAccountAtomic_linearizable (credentials : option AEAD)
    (rand : nat -> nat -> option string) {B : Type} (env : Env) (clock : nat -> Time)
    (mutate : nat -> Account -> result (Account * B) string) (id : Z) (flag : B) (db : Db) :
  (forall k db, evolves db (env k db)) -> id <> 0 ->
  atomic_outcome credentials rand env clock mutate id db 0 8
    (updateAccountAtomic credentials rand env clock mutate id flag db).
Proof.
  intros Hothers Hid. unfold updateAccountAtomic. rewrite (proj2 (Z.eqb_neq _ _) Hid).
  apply (update_attempts_spec credentials rand env clock mutate id Hothers 8 0 flag db).
Qed.

(** A row that another client overtakes once: the second attempt commits. *)
Definition sample_db : Db :=
  write_row 7 (sample_account 7 "grok" no_status) true empty_db.
Definition overtaken_once (k : nat) (db : Db) : Db :=
  match k with
  | O => write_row 7 (set_quality (sample_account 7 "grok" no_status) (mkQuality 1 50)) true db
  | _ => db
  end.

Lemma updateAccountAtomic_linearizable_witness :
  atomic_outcome None (fun _ _ => None) overtaken_once (fun _ => 100)
    (fun _ acc => Ok (set_status acc (mkStatus "429" "" 1 "slow" 90 90 false 0), tt)) 7 sample_db 0 8
    (updateAccountAtomic None (fun _ _ => None) overtaken_once (fun _ => 100)
       (fun _ acc => Ok (set_status acc (mkStatus "429" "" 1 "slow" 90 90 false 0), tt)) 7 tt sample_db).
Proof.
  apply updateAccountAtomic_linearizable; [|by vm_compute].
  intros [|k] db; [apply evolves_write_row|reflexivity].
Defined.

Example overtaken_once_keeps_both :
  let '(_, _, db) := updateAccountAtomic None (fun _ _ => None) overtaken_once (fun _ => 100)
       (fun _ acc => Ok (set_status acc (mkStatus "429" "" 1 "slow" 90 90 false 0), tt)) 7 tt sample_db in
  (fun row : Account => (StatusCode row, QualityFailures row, UpdatedAt row)) <$> rows db !! 7 =
  Some ("429", 1, 100).
Proof. by vm_compute. Qed.

(** ** What a commit writes *)
Lemma marshal_keeps c r (acc row : Account) :
  marshalAccount c r acc = Ok row ->
  stamps row = stamps acc /\ Enabled row = Enabled acc /\ ID row = ID acc /\
  GrokBilling row = GrokBilling acc /\ quality row = quality acc /\ usage row = usage acc.
Proof.
  unfold marshalAccount. destruct (map_fields _ _ _) as [fields|]; [|done].
  cbn [result_bind]. intros [= <-]. done.
Qed.

Lemma unmarshal_keeps c (row : Account) id (acc : Account) :
  unmarshalAccount c row id = Ok acc ->
  stamps acc = stamps row /\ Enabled acc = Enabled row /\
  GrokBilling acc = GrokBilling row /\ quality acc = quality row /\ usage acc = usage row /\
  ID acc = if ID row =? 0 then id else ID row.
Proof.
  unfold unmarshalAccount. destruct (map_fields _ _ _) as [fields|]; [|done].
  cbn [result_bind]. intros [= <-]. cbn. destruct (ID row =? 0) eqn:E; split_and!; try done.
Qed.

(** Every committed update advances the row's version stamp strictly, even
    when the clock has not moved, so any snapshot taken before the commit is
    recognised as stale afterwards; a mutation that changes nothing (and has no
    credential left to migrate) writes nothing; and the enabled index follows
    the row. *)
Theorem watch_body_commits {B : Type} (credentials : option AEAD) (r : nat -> option string)
    (now : Time) (mutate : Account -> result (Account * B) string) (id : Z)
    (stored : Account) (acc : Account) (b : B) :
  unmarshalAccount credentials stored id = Ok acc ->
  (forall previous data on b',
     watch_body credentials r now mutate id (Some stored) = BodyCommit previous data on b' ->
     previous = acc /\ UpdatedAt acc < UpdatedAt data /\ now <= UpdatedAt data /\
     on = Enabled data /\ CreatedAt data = match mutate acc with Ok (m, _) => CreatedAt m | Err _ => 0 end /\
     (UpdatedAt acc <> 0 -> stale_snapshot acc data = true)) /\
  (mutate acc = Ok (acc, b) ->
     hasLegacyCredential stored = false \/ credentials = None ->
     watch_body credentials r now mutate id (Some stored) = BodyUnchanged b).
Proof.
  intros Hu. unfold watch_body. rewrite Hu. split.
  - intros previous data on b'. destruct (mutate acc) as [[m b0]|]; [|done].
    destruct (bool_decide _ && _); [done|].
    destruct (marshalAccount _ _ _) as [row|] eqn:Hm; [|done]. intros [= <- <- <- <-].
    apply marshal_keeps in Hm as (Hs & He & _). unfold stale_snapshot. rewrite Hs, He.
    cbn [stamps set_stamps set_UpdatedAt UpdatedAt CreatedAt].
    assert (Hlt : UpdatedAt acc < (if After now (UpdatedAt acc) then now
                                   else Add (UpdatedAt acc) Nanosecond) /\
                  now <= (if After now (UpdatedAt acc) then now
                          else Add (UpdatedAt acc) Nanosecond)).
    { unfold After, Add, Nanosecond. destruct (Z.ltb_spec (UpdatedAt acc) now); lia. }
    destruct Hlt as [Hlt Hle]. split_and!; try done.
    intros Hz. unfold IsZero, Before. rewrite (proj2 (Z.eqb_neq _ _) Hz). by apply Z.ltb_lt.
  - intros -> Hl.
    assert (set_UpdatedAt acc (UpdatedAt acc) = acc) as -> by (by destruct acc as [? ? ? ? [] ? ? ? ? ?]).
    rewrite bool_decide_true by done.
    destruct Hl as [-> | ->]; [done|]. by rewrite andb_false_r.
Qed.

Lemma watch_body_commits_witness :
  watch_body None (fun _ => None) 5 (fun acc => Ok (acc, tt)) 7
    (Some (sample_account 7 "grok" no_status)) = BodyUnchanged tt.
Proof.
  apply (watch_body_commits None (fun _ => None) 5 (fun acc => Ok (acc, tt)) 7
    (sample_account 7 "grok" no_status) (sample_account 7 "grok" no_status) tt);
    [by vm_compute|done|by right].
Defined.

(** ** At most one probe per interval *)
Lemma claim_true now (acc acc' : Account) :
  claim_mutation now acc = Ok (acc', true) ->
  gb_NextProbeAt (GrokBilling acc') = Add now GrokPaidQuotaProbeInterval /\
  (gb_NextProbeAt (GrokBilling acc) <> 0 -> gb_NextProbeAt (GrokBilling acc) <= now).
Proof.
  unfold claim_mutation. destruct (negb _); [done|]. unfold IsZero, Before.
  destruct (Z.eqb_spec (gb_NextProbeAt (GrokBilling acc)) 0) as [Hz|Hz];
    destruct (_ || _) eqn:E; try done; intros [= <-]; (split; [done|]); [done|].
  bool_to_prop. lia.
Qed.

Lemma claim_published credentials rand env clock wall id now db previous db' :
  (forall k db, evolves db (env k db)) -> now <> 0 ->
  ClaimGrokPaidQuotaProbe credentials rand env clock wall id now db = (Ok (Some previous), true, db') ->
  exists (stored : Account) k (row : Account),
    rows (env_run env (S k) db) !! id = Some stored /\
    (gb_NextProbeAt (GrokBilling stored) <> 0 -> gb_NextProbeAt (GrokBilling stored) <= now) /\
    rows db' !! id = Some row /\ gb_NextProbeAt (GrokBilling row) = Add now GrokPaidQuotaProbeInterval.
Proof.
  intros Hothers Hnow. unfold ClaimGrokPaidQuotaProbe. destruct (Z.eqb_spec id 0) as [|Hid]; [done|].
  replace (IsZero now) with false by (symmetry; by apply Z.eqb_neq).
  intros Hout. unfold updateAccountAtomic in Hout. rewrite (proj2 (Z.eqb_neq _ _) Hid) in Hout.
  pose proof (update_attempts_spec credentials rand env clock (fun _ => claim_mutation now) id Hothers
                8 0 false db) as Hspec.
  cbn [env_run] in Hspec. rewrite Hout in Hspec. destruct Hspec as (k & data & on & _ & Hb & ->).
  set (d := env_run env (S k) db) in *. unfold watch_body in Hb.
  destruct (rows d !! id) as [stored|] eqn:Hs; [|done].
  destruct (unmarshalAccount _ _ _) as [acc|] eqn:Hu; [|done].
  destruct (claim_mutation now acc) as [[m b]|] eqn:Hc; [|done].
  destruct (bool_decide _ && _); [done|].
  destruct (marshalAccount _ _ _) as [row|] eqn:Hm; [|done].
  assert (b = true /\ row = data) as [-> ->] by (split; congruence). clear Hb.
  apply claim_true in Hc as [Hnext Hdue].
  apply unmarshal_keeps in Hu as (_ & _ & Hg & _). apply marshal_keeps in Hm as (_ & _ & _ & Hg' & _).
  exists stored, k, data. rewrite Hg in Hdue. split_and!; [done|done| |by rewrite Hg'].
  unfold write_row, pipeAccountMembership, set_row. cbn [rows]. by rewrite lookup_insert_eq.
Qed.

(** At most one paid probe is admitted per fifteen minutes. If a claim has
    succeeded at [now1] and the billing record it wrote is still the stored one
    when another claim, in any process and under any interference with other
    rows, commits, then that claim's instant is at least fifteen minutes later. *)
Theorem probe_claims_spaced (credentials : option AEAD) (rand1 rand2 : nat -> nat -> option string)
    (env1 env2 : Env) (clock1 clock2 : nat -> Time) (wall1 wall2 : Time) (id : Z)
    (now1 now2 : Time) (db1 db1' db2 db2' : Db) (p1 p2 : Account) :
  (forall k db, evolves db (env1 k db)) -> (forall k db, evolves db (env2 k db)) ->
  now1 <> 0 -> now2 <> 0 -> 0 < now1 ->
  ClaimGrokPaidQuotaProbe credentials rand1 env1 clock1 wall1 id now1 db1 = (Ok (Some p1), true, db1') ->
  ClaimGrokPaidQuotaProbe credentials rand2 env2 clock2 wall2 id now2 db2 = (Ok (Some p2), true, db2') ->
  (forall k (row : Account), rows (env_run env2 k db2) !! id = Some row ->
     exists row1 : Account, rows db1' !! id = Some row1 /\ GrokBilling row = GrokBilling row1) ->
  now1 + GrokPaidQuotaProbeInterval <= now2.
Proof.
  intros He1 He2 Hn1 Hn2 Hpos Hc1 Hc2 Hstill.
  apply claim_published in Hc1 as (_ & _ & row1 & _ & _ & Hr1 & Hnext); [|done..].
  apply claim_published in Hc2 as (stored & k & _ & Hs & Hdue & _ & _); [|done..].
  destruct (Hstill (S k) stored Hs) as (row1' & Hr1' & Hg).
  assert (row1' = row1) as -> by congruence. rewrite Hg, Hnext in Hdue. unfold Add in Hdue.
  apply Hdue. unfold GrokPaidQuotaProbeInterval, Minute in *. lia.
Qed.

(** A spent account whose billing period ended at 50. *)
Definition spent_billing : GrokBillingSnapshot :=
  mkGrokBilling
    (mkGrokWindow f64_zero f64_zero f64_zero false false false 50)
    (mkGrokWindow (f64_of_Z 10) f64_zero f64_zero true true false 40) 30 "xai" 0 0.
Definition probe_db : Db :=
  write_row 7 (set_GrokBilling (sample_account 7 "grok" no_status) spent_billing) true empty_db.
Definition quiet (k : nat) (db : Db) : Db := db.
Definition probe_at (now : Time) (db : Db) :=
  ClaimGrokPaidQuotaProbe None (fun _ _ => None) quiet (fun _ => now) 0 7 now db.

Lemma env_run_quiet k db : env_run quiet k db = db.
Proof. by induction k. Qed.

Lemma probe_claims_spaced_witness :
  exists p1 p2, (probe_at 100 probe_db).1 = (Ok (Some p1), true) /\
    (probe_at (100 + GrokPaidQuotaProbeInterval) (probe_at 100 probe_db).2).1 =
      (Ok (Some p2), true) /\
    100 + GrokPaidQuotaProbeInterval <= 100 + GrokPaidQuotaProbeInterval.
Proof.
  eexists _, _. split; [vm_compute; reflexivity|]. split; [vm_compute; reflexivity|].
  eapply (probe_claims_spaced None (fun _ _ => None) (fun _ _ => None) quiet quiet
    (fun _ => 100) (fun _ => 100 + GrokPaidQuotaProbeInterval) 0 0 7 100
    (100 + GrokPaidQuotaProbeInterval) probe_db (probe_at 100 probe_db).2
    (probe_at 100 probe_db).2).
  - reflexivity.
  - reflexivity.
  - done.
  - done.
  - done.
  - vm_compute. reflexivity.
  - vm_compute. reflexivity.
  - intros k row. rewrite env_run_quiet. intros Hrow. by exists row.
Defined.

Example probe_too_early :
  (probe_at (99 + GrokPaidQuotaProbeInterval) (probe_at 100 probe_db).2).1 = (Ok None, false).
Proof. by vm_compute. Qed.

(** ** The index sets *)
Definition index_ok (db : Db) : Prop :=
  forall id,
    (id ∈ ids db <-> is_Some (rows db !! id)) /\
    (id ∈ enabled db <-> exists row : Account, rows db !! id = Some row /\ Enabled row = true).

Lemma index_ok_write id (row : Account) on db :
  index_ok db -> on = Enabled row -> index_ok (write_row id row on db).
Proof.
  intros Hdb -> id'. unfold write_row, pipeAccountMembership, set_row. cbn [ids enabled rows].
  destruct (Hdb id') as [Hi He]. destruct (decide (id = id')) as [<-|Hne].
  - rewrite lookup_insert_eq. split; [set_solver|].
    destruct (Enabled row) eqn:E.
    + split; [by eexists|set_solver].
    + split; [set_solver|]. intros (r & [= <-] & Hr). congruence.
  - rewrite lookup_insert_ne by done. rewrite <- He, <- Hi. destruct (Enabled row); set_solver.
Qed.

Lemma index_ok_set id (row row' : Account) db :
  index_ok db -> rows db !! id = Some row -> Enabled row' = Enabled row ->
  index_ok (set_row id row' db).
Proof.
  intros Hdb Hrow He id'. unfold set_row. cbn [ids enabled rows].
  destruct (decide (id = id')) as [<-|Hne]; [|by rewrite lookup_insert_ne].
  rewrite lookup_insert_eq. destruct (Hdb id) as [Hi Hen]. rewrite Hi, Hen, Hrow. split.
  - split; eauto.
  - split; intros (r & [= <-] & Hr); eexists; (split; [done|congruence]).
Qed.

Section Index.
Context (credentials : option AEAD) (rand : nat -> nat -> option string) (cjson : Account -> Account).
Context (cjson_enabled : forall acc, Enabled (cjson acc) = Enabled acc).

Lemma index_ok_update {B} env clock (mutate : nat -> Account -> result (Account * B) string) id flag db n k :
  (forall k db, index_ok db -> index_ok (env k db)) -> index_ok db ->
  index_ok (update_attempts credentials rand n k env clock mutate id flag db).2.
Proof.
  intros Henv. revert k flag db; induction n as [|n IH]; intros k flag db Hdb; [done|].
  cbn [update_attempts]. destruct (watch_body _ _ _ _ _ _) as [|e b|b|previous data on b] eqn:Hb;
    cbn [snd]; [by apply Henv..|].
  destruct (decide _); [|by apply IH, Henv].
  apply index_ok_write; [by apply Henv|]. unfold watch_body in Hb.
  destruct (rows db !! id); [|done]. destruct (unmarshalAccount _ _ _); [|done].
  destruct (mutate k a0) as [[m b']|]; [|done]. destruct (bool_decide _ && _); [done|].
  destruct (marshalAccount _ _ _) eqn:Hm; [|done]. injection Hb as <- <- <- <-.
  by apply marshal_keeps in Hm as (_ & -> & _).
Qed.

(** One operation of the store, run without interference. *)
Inductive store_step (db : Db) : Db -> Prop :=
  | step_create now acc : store_step db (CreateAccount credentials rand now acc db).2
  | step_delete id : store_step db (DeleteAccount credentials id db).2
  | step_update {B} env clock (mutate : nat -> Account -> result (Account * B) string) id flag :
      (forall k db, index_ok db -> index_ok (env k db)) ->
      store_step db (updateAccountAtomic credentials rand env clock mutate id flag db).2
  | step_stats id u n op now today :
      store_step db (IncrementAccountStatsOperation cjson id u n op now today db).2
  | step_expire id : store_step db (expire_stats_ops id db)
  | step_migrate id : store_step db (migrate_row credentials rand id db).2.

Lemma store_step_index db db' : index_ok db -> store_step db db' -> index_ok db'.
Proof.
  intros Hdb Hstep. destruct Hstep.
  - unfold CreateAccount. set (d := mkDb _ _ _ _ _ _). assert (index_ok d) by apply Hdb.
    destruct (marshalAccount _ _ _) as [row|] eqn:Hm; cbn [snd]; [|done].
    apply index_ok_write; [done|]. by apply marshal_keeps in Hm as (_ & -> & _).
  - unfold DeleteAccount. destruct (id =? 0); [done|].
    assert (Hrm : forall t o, index_ok (mkDb (delete id (rows db)) t (ids db ∖ {[ id ]})
                    (enabled db ∖ {[ id ]}) (next_id db) o)).
    { intros t o id'. cbn [ids enabled rows]. destruct (Hdb id') as [Hi He].
      destruct (decide (id = id')) as [<-|Hne].
      - rewrite lookup_delete_eq. split; [|split; [set_solver|intros (? & ? & _); done]].
        split; [set_solver|intros [? ?]; done].
      - rewrite lookup_delete_ne by done. rewrite <- Hi, <- He. set_solver. }
    destruct (rows db !! id); [|apply Hrm]. destruct (unmarshalAccount _ _ _); [apply Hrm|done].
  - unfold updateAccountAtomic. destruct (id =? 0); [done|]. by apply index_ok_update.
  - unfold IncrementAccountStatsOperation. destruct (_ || _); [done|]. destruct (_ && _); [done|].
    destruct (rows db !! id) as [row|] eqn:Hrow; [|done]. cbn [snd].
    pose proof (index_ok_set id row (cjson (stats_row u n now today row)) db Hdb Hrow) as H.
    apply H. by rewrite cjson_enabled.
  - apply Hdb.
  - unfold migrate_row. destruct (id =? 0); [done|]. destruct (rows db !! id) as [row|] eqn:Hrow; [|done].
    destruct (unmarshalAccount _ _ _) as [acc|] eqn:Hu; [|done]. destruct (_ || _); [done|].
    destruct (marshalAccount _ _ _) as [row'|] eqn:Hm; [|done]. cbn [snd].
    apply (index_ok_set id row); [done|done|].
    apply marshal_keeps in Hm as (_ & -> & _). by apply unmarshal_keeps in Hu as (_ & -> & _).
Qed.
End Index.

Lemma first_error_None {A} (items : list (result A string)) :
  first_error items = None -> forall r, r ∈ items -> exists a, r = Ok a.
Proof.
  induction items as [|[a|e] items IH]; intros H r Hr; [by apply elem_of_nil in Hr| |done].
  apply elem_of_cons in Hr as [->|Hr]; [by eexists|by apply IH].
Qed.

Lemma parseSortedInt64s_elem set id : id ∈ parseSortedInt64s set <-> id ∈ set.
Proof. unfold parseSortedInt64s. by rewrite merge_sort_Permutation, elem_of_elements. Qed.

Lemma getAccountsByIDs_elem credentials db set only l (acc : Account) :
  getAccountsByIDs credentials db set only = Ok l ->
  acc ∈ l <-> exists id row, id ∈ set /\ rows db !! id = Some row /\
    unmarshalAccount credentials row id = Ok acc /\ (only = true -> Enabled acc = true).
Proof.
  unfold getAccountsByIDs. destruct (first_error _) as [e|] eqn:He; [done|]. intros [= <-].
  unfold compactNonNil. rewrite list_elem_of_omap. split.
  - intros (o & Ho & Hid). cbn in Hid. subst o. apply list_elem_of_fmap in Ho as (r & Hr & Hin).
    apply list_elem_of_fmap in Hin as (id & -> & Hin). apply parseSortedInt64s_elem in Hin.
    unfold decode_row in Hr. destruct (rows db !! id) as [row|] eqn:Hrow; [|done].
    destruct (unmarshalAccount credentials row id) as [a|] eqn:Hu; [|done].
    cbn [result_bind ok_of] in Hr. destruct (only && negb (Enabled a)) eqn:E; simplify_eq.
    exists id, row. split_and!; try done. intros ->. by destruct (Enabled a).
  - intros (id & row & Hin & Hrow & Hu & Hen). exists (Some acc). split; [|done].
    apply list_elem_of_fmap. exists (Ok (Some acc)). split; [done|].
    apply list_elem_of_fmap. exists id. split; [|by apply parseSortedInt64s_elem].
    unfold decode_row. rewrite Hrow, Hu. cbn. destruct only; [|done]. by rewrite Hen.
Qed.

(** C29: the two index sets never disagree with the rows. After any sequence of
    creations, deletions, updates (under any interference that keeps the
    sets in step), stat increments and migrations, listing yields exactly the
    decoded rows and the enabled listing exactly those that are enabled: no
    account is lost to the scheduler and no disabled one reaches it. *)
Theorem listings_complete (credentials : option AEAD) (rand : nat -> nat -> option string)
    (cjson : Account -> Account) (db : Db) (l le : list Account) (acc : Account) :
  (forall acc, Enabled (cjson acc) = Enabled acc) ->
  rtc (store_step credentials rand cjson) empty_db db ->
  ListAccounts credentials db = Ok l -> GetEnabledAccounts credentials db = Ok le ->
  (acc ∈ l <-> exists id row, rows db !! id = Some row /\ unmarshalAccount credentials row id = Ok acc) /\
  (acc ∈ le <-> acc ∈ l /\ Enabled acc = true).
Proof.
  intros Hc Hrun Hl Hle.
  assert (Hdb : index_ok db).
  { assert (H0 : index_ok empty_db)
      by (intros id; unfold empty_db; cbn; rewrite lookup_empty; split; split;
          [set_solver|intros [? ?]; done|set_solver|intros (? & ? & _); done]).
    revert H0. induction Hrun; [done|]. intros H0. apply IHHrun; [done..|].
    by eapply store_step_index. }
  unfold ListAccounts, GetEnabledAccounts in *.
  rewrite (getAccountsByIDs_elem _ _ _ _ _ acc Hl), (getAccountsByIDs_elem _ _ _ _ _ acc Hle).
  split; split.
  - intros (id & row & _ & ? & ? & _). by exists id, row.
  - intros (id & row & Hrow & Hu). exists id, row. split_and!; try done. apply Hdb. by eexists.
  - intros (id & row & _ & Hrow & Hu & He). split; [|by apply He].
    exists id, row. split_and!; try done. apply Hdb. by eexists.
  - intros [(id & row & _ & Hrow & Hu & _) He]. exists id, row. split_and!; try done.
    apply Hdb. exists row. split; [done|]. apply unmarshal_keeps in Hu as (_ & <- & _). done.
Qed.

Lemma listings_complete_witness :
  let db := (CreateAccount None (fun _ _ => None) 5 (sample_account 0 "grok" no_status) empty_db).2 in
  exists acc, acc ∈ [acc] /\ ListAccounts None db = Ok [acc] /\ Enabled acc = true.
Proof.
  eexists. split; [by apply list_elem_of_singleton|]. split; [vm_compute; reflexivity|].
  eapply (listings_complete None (fun _ _ => None) (fun acc => acc)
    (CreateAccount None (fun _ _ => None) 5 (sample_account 0 "grok" no_status) empty_db).2);
    [done| |vm_compute; reflexivity|vm_compute; reflexivity|by apply list_elem_of_singleton].
  apply rtc_once. apply step_create.
Defined.

(** ** The stats script *)
Lemma string_compare_refl (s : string) : String.compare s s = Eq.
Proof. pose proof (String.compare_antisym s s) as H. by destruct (String.compare s s). Qed.

(** A completed request is counted once. An increment that carried an
    operation id is a no-op when it is repeated, by any process and with any
    arguments; a fresh one adds its usage to the lifetime total and its count to
    the requests, rolls the daily figure when its day is later than the recorded
    one, adds to it on the same day and leaves it alone for an earlier day; a
    blank operation id is never remembered. *)
Theorem stats_counted_once (cjson : Account -> Account) (id : Z) (usage_ : float64) (count : Z)
    (op : string) (now : Time) (today : string) (db db' : Db) :
  IncrementAccountStatsOperation cjson id usage_ count op now today db = (Ok "OK", db') ->
  (TrimSpace op <> "" ->
   forall usage2 count2 now2 today2 op2, TrimSpace op2 = TrimSpace op ->
     f64_le usage2 f64_zero && (count2 <=? 0) = false ->
     IncrementAccountStatsOperation cjson id usage2 count2 op2 now2 today2 db' = (Ok "DUPLICATE", db')) /\
  (TrimSpace op = "" -> stats_ops db' = stats_ops db) /\
  (exists acc, rows db !! id = Some acc /\
     let row := stats_row usage_ count now today acc in
     rows db' = <[id := cjson row]> (rows db) /\
     RequestCount row = RequestCount acc + count /\
     UsageTotal row = f64_add (UsageTotal acc) usage_ /\
     (TokensDate acc = today -> today <> "" ->
        TokensDate row = today /\ TokensToday row = f64_add (TokensToday acc) usage_) /\
     (string_lt (TokensDate acc) today = true -> TokensDate row = today /\ TokensToday row = usage_) /\
     (string_lt today (TokensDate acc) = true ->
        TokensDate row = TokensDate acc /\ TokensToday row = TokensToday acc)).
Proof.
  assert (Hasym : forall a b, string_lt a b = true -> string_lt b a = false /\ a <> b /\ b <> "").
  { intros a b. unfold string_lt. destruct (String.compare a b) eqn:E; try done. intros _.
    rewrite String.compare_antisym, E. split_and!; [done| |].
    - intros ->. by rewrite string_compare_refl in E.
    - intros ->. by destruct a. }
  unfold IncrementAccountStatsOperation. destruct (Z.eqb_spec id 0) as [|Hid]; [done|]. cbn [orb].
  destruct (f64_le usage_ f64_zero && _) eqn:Hpos; [done|]. destruct (negb _ && _) eqn:Hop; [done|].
  destruct (rows db !! id) as [acc|] eqn:Hrow; [|done]. intros [= <-]. split_and!.
  - intros Hne usage2 count2 now2 today2 op2 -> Hpos2. rewrite Hpos2.
    cbn [stats_ops]. rewrite (proj2 (String.eqb_neq _ _) Hne). rewrite lookup_insert_eq. cbn [default].
    rewrite bool_decide_true by set_solver. done.
  - intros ->. done.
  - exists acc. split; [done|]. cbv zeta. unfold stats_row.
    cbn [usage set_usage set_UpdatedAt set_stamps RequestCount UsageTotal TokensDate TokensToday rows].
    split_and!; try done.
    + intros -> Hne. rewrite (proj2 (String.eqb_neq _ _) Hne). unfold string_lt.
      rewrite string_compare_refl. cbn [orb]. by rewrite String.eqb_refl.
    + intros Hlt. rewrite Hlt, orb_true_r. done.
    + intros Hlt. destruct (Hasym _ _ Hlt) as (-> & Hne & Hne').
      rewrite (proj2 (String.eqb_neq (TokensDate acc) "") Hne'). cbn [orb].
      by rewrite (proj2 (String.eqb_neq (TokensDate acc) today)) by congruence.
Qed.

Lemma stats_counted_once_witness :
  let db := (IncrementAccountStatsOperation (fun a => a) 7 (f64_of_Z 3) 1 "op-1" 9 "2026-01-02" sample_db).2 in
  IncrementAccountStatsOperation (fun a => a) 7 (f64_of_Z 3) 1 " op-1 " 10 "2026-01-03" db = (Ok "DUPLICATE", db).
Proof.
  eapply (stats_counted_once (fun a => a) 7 (f64_of_Z 3) 1 "op-1" 9 "2026-01-02" sample_db);
    [vm_compute; reflexivity|vm_compute; congruence|vm_compute; reflexivity|vm_compute; reflexivity].
Defined.
