(* ===== verification/ConnTracker.v ===== *)
(** * Connection tracking (internal/loadbalancer/conn_tracker.go)

    Two trackers bound the requests in flight on an account. The memory tracker
    is a counter per account, moved by compare-and-swap loops: its threads are a
    step relation ([Memory]) that refines an atomic specification. The Redis
    tracker keeps one expiring member of a sorted set per request: its scripts
    are functions on the key ([Redis]), its process-local leases a record
    ([Process]). *)

From stdpp Require Import base numbers list strings gmap relations.
From S2P Require Import Prelude GoLib.

Local Open Scope Z_scope.

(** ** MemoryConnTracker *)
Module Memory.

(** [conns]: an account without an entry has no counter yet. *)
Abbreviation Conns := (gmap Z Z) (only parsing).

Definition GetCount (conns : Conns) (accountID : Z) : Z := default 0 (conns !! accountID).

Definition GetCounts (conns : Conns) (accountIDs : list Z) : gmap Z Z :=
  foldl (fun counts id => <[id := GetCount conns id]> counts) ∅ accountIDs.

(** A call in progress: what it has loaded, or what it returned. *)
Inductive call :=
  | CAcquire (id : Z)
  | CTry (id limit : Z)
  | CTryLoaded (id limit current : Z)
  | CRelease (id : Z)
  | CReleaseLoaded (id current : Z)
  | CDone (result : bool).

(** One atomic access of one call. *)
Inductive call_step : Conns -> call -> Conns -> call -> Prop :=
  | acquire_add conns id :
      call_step conns (CAcquire id) (<[id := wrap64 (GetCount conns id + 1)]> conns) (CDone true)
  | try_load conns id limit :                      (* LoadOrStore, then Load *)
      call_step conns (CTry id limit) (<[id := GetCount conns id]> conns)
        (CTryLoaded id limit (GetCount conns id))
  | try_full conns id limit current :
      0 < limit -> limit <= current ->
      call_step conns (CTryLoaded id limit current) conns (CDone false)
  | try_swap conns id limit current :
      ~ (0 < limit /\ limit <= current) -> GetCount conns id = current ->
      call_step conns (CTryLoaded id limit current)
        (<[id := wrap64 (current + 1)]> conns) (CDone true)
  | try_retry conns id limit current :
      ~ (0 < limit /\ limit <= current) -> GetCount conns id <> current ->
      call_step conns (CTryLoaded id limit current) conns (CTry id limit)
  | release_none conns id :
      conns !! id = None -> call_step conns (CRelease id) conns (CDone false)
  | release_load conns id current :
      conns !! id = Some current ->
      call_step conns (CRelease id) conns (CReleaseLoaded id current)
  | release_zero conns id current :
      current <= 0 -> call_step conns (CReleaseLoaded id current) conns (CDone false)
  | release_swap conns id current :
      0 < current -> GetCount conns id = current ->
      call_step conns (CReleaseLoaded id current) (<[id := current - 1]> conns) (CDone true)
  | release_retry conns id current :
      0 < current -> GetCount conns id <> current ->
      call_step conns (CReleaseLoaded id current) conns (CRelease id).

(** Any number of goroutines share the counters. *)
Record config := mkConfig { counters : gmap Z Z; calls : gmap nat call }.

Inductive step : config -> config -> Prop :=
  | step_spawn c t k :
      calls c !! t = None -> (forall b, k <> CDone b) ->
      (forall id l n, k <> CTryLoaded id l n) -> (forall id n, k <> CReleaseLoaded id n) ->
      step c (mkConfig (counters c) (<[t := k]> (calls c)))
  | step_call c t k conns' k' :
      calls c !! t = Some k -> call_step (counters c) k conns' k' ->
      step c (mkConfig conns' (<[t := k']> (calls c))).

(** *** The atomic specification: one indivisible transition per call *)
Inductive spec_call : Conns -> call -> Conns -> bool -> Prop :=
  | spec_acquire conns id :
      spec_call conns (CAcquire id) (<[id := wrap64 (GetCount conns id + 1)]> conns) true
  | spec_try_full conns id limit :
      0 < limit -> limit <= GetCount conns id -> spec_call conns (CTry id limit) conns false
  | spec_try conns id limit :
      ~ (0 < limit /\ limit <= GetCount conns id) ->
      spec_call conns (CTry id limit) (<[id := wrap64 (GetCount conns id + 1)]> conns) true
  | spec_release_zero conns id :
      GetCount conns id <= 0 -> spec_call conns (CRelease id) conns false
  | spec_release conns id :
      0 < GetCount conns id ->
      spec_call conns (CRelease id) (<[id := GetCount conns id - 1]> conns) true.

(** The call a program point belongs to. *)
Definition request_of (k : call) : call :=
  match k with
  | CTryLoaded id limit _ => CTry id limit
  | CReleaseLoaded id _ => CRelease id
  | _ => k
  end.

(** Counters are compared through [GetCount]: an absent counter reads as 0. *)
Definition same_counts (a b : Conns) : Prop := forall id, GetCount a id = GetCount b id.

Lemma GetCount_insert conns id n id' :
  GetCount (<[id := n]> conns) id' = if decide (id = id') then n else GetCount conns id'.
Proof.
  unfold GetCount. case_decide; [subst; by rewrite lookup_insert_eq|by rewrite lookup_insert_ne].
Qed.

#[export] Instance same_counts_equiv : Equivalence same_counts.
Proof.
  split; [by intros a id|by intros a b H id|].
  intros a b c H1 H2 id. by rewrite (H1 id).
Qed.

(** A refused try and an empty release decide on what they loaded, so they take
    effect at the load; every other call takes effect at its last access. *)
Definition decided (k : call) : option bool :=
  match k with
  | CTryLoaded _ limit current => if bool_decide (0 < limit /\ limit <= current) then Some false else None
  | CReleaseLoaded _ current => if bool_decide (current <= 0) then Some false else None
  | CDone b => Some b
  | _ => None
  end.

(** What an access amounts to in the atomic specification: nothing for a call
    whose result is decided, its transition when this access decides it, and
    nothing while it stays pending. *)
Definition atomic_access (conns : Conns) (k : call) (conns' : Conns) (k' : call) : Prop :=
  match decided k, decided k' with
  | Some b, _ => conns' = conns /\ k' = CDone b
  | None, Some b => exists conns2, spec_call conns (request_of k) conns2 b /\ same_counts conns' conns2
  | None, None => request_of k' = request_of k /\ same_counts conns' conns
  end.

Lemma call_step_refines conns k conns' k' :
  call_step conns k conns' k' -> atomic_access conns k conns' k'.
Proof.
  intros Hstep. unfold atomic_access. destruct Hstep; cbn [decided request_of].
  - eexists. by split; [constructor|].
  - assert (Hsame : same_counts (<[id := GetCount conns id]> conns) conns).
    { intros id'. rewrite GetCount_insert. by case_decide; subst. }
    case_bool_decide as Hd; [|done]. eexists. split; [|exact Hsame]. apply spec_try_full; lia.
  - by rewrite bool_decide_true.
  - rewrite bool_decide_false by done. subst current. eexists. by split; [by apply spec_try|].
  - rewrite bool_decide_false by done. by split.
  - exists conns. split; [|done]. apply spec_release_zero. unfold GetCount. by rewrite H.
  - case_bool_decide as Hd; [|done]. exists conns. split; [|done]. apply spec_release_zero.
    unfold GetCount. by rewrite H.
  - by rewrite bool_decide_true.
  - rewrite bool_decide_false by lia. subst current. eexists. by split; [by apply spec_release|].
  - rewrite bool_decide_false by lia. done.
Qed.

(** The lock-free counters are linearizable. Every access of every goroutine
    either changes no count and keeps its call pending, or is exactly one
    transition of the atomic specification for that call, with the result the
    call will return: a slot is granted only when the count is below the limit
    at that instant, a refusal saw it at the limit, and a release never takes a
    count below zero. *)
Theorem memory_linearizable (c c' : config) (t : nat) :
  step c c' -> calls c' !! t <> calls c !! t ->
  match calls c !! t, calls c' !! t with
  | None, _ => counters c' = counters c
  | Some k, Some k' => atomic_access (counters c) k (counters c') k'
  | Some _, None => False
  end.
Proof.
  intros Hstep Hne. destruct Hstep as [c t' k Hnone|c t' k conns' k' Hk Hcall].
  - cbn [calls counters] in *. destruct (decide (t' = t)) as [->|]; [by rewrite Hnone|].
    by rewrite lookup_insert_ne in Hne.
  - cbn [calls counters] in *. destruct (decide (t' = t)) as [->|]; [|by rewrite lookup_insert_ne in Hne].
    rewrite Hk, lookup_insert_eq. by apply call_step_refines.
Qed.

Lemma memory_linearizable_witness :
  atomic_access {[ 7 := 2 ]} (CTryLoaded 7 3 2) (<[7 := wrap64 3]> {[ 7 := 2 ]}) (CDone true).
Proof.
  refine (memory_linearizable
    (mkConfig {[ 7 := 2 ]} {[ 1%nat := CTryLoaded 7 3 2 ]})
    (mkConfig (<[7 := wrap64 3]> {[ 7 := 2 ]}) (<[1%nat := CDone true]> {[ 1%nat := CTryLoaded 7 3 2 ]})) 1 _ _).
  - eapply step_call; [reflexivity|]. constructor; [lia|reflexivity].
  - vm_compute. discriminate.
Defined.

(** *** The bound *)
Section Bound.
Context (id limit : Z) (Hlimit : 0 < limit <= max_int64).

(** Every goroutine that takes a slot of the account goes through [TryAcquire]
    with that limit. *)
Definition disciplined (k : call) : Prop :=
  match k with
  | CAcquire id' => id' <> id
  | CTry id' l | CTryLoaded id' l _ => id' = id -> l = limit
  | _ => True
  end.

Definition all_disciplined (c : config) : Prop :=
  forall t k, calls c !! t = Some k -> disciplined k.

Definition bounded (conns : Conns) : Prop := 0 <= GetCount conns id <= limit.

Lemma call_step_bounded conns k conns' k' :
  call_step conns k conns' k' -> disciplined k -> bounded conns -> bounded conns' /\ disciplined k'.
Proof.
  intros Hstep Hd Hb. unfold bounded in *. destruct Hstep; cbn [disciplined] in *;
    rewrite ?GetCount_insert; try (split; [|done]); try done;
    try (case_decide; subst; try done; try lia).
  all: try (split; [done|by auto]).
  unfold wrap64. specialize (Hd eq_refl). subst limit0. unfold max_int64 in *.
  rewrite Z.mod_small; lia.
Qed.
End Bound.

(** The in-flight bound of an account holds under every interleaving. As long
    as every goroutine reserves the account through [TryAcquire] with its
    limit, the counter stays between zero and the limit in every reachable
    state, whatever the other goroutines (releases included) do. *)
Theorem memory_limit_never_exceeded (id limit : Z) (c0 c : config) :
  0 < limit <= max_int64 ->
  counters c0 = ∅ -> calls c0 = ∅ ->
  rtc (fun c c' => step c c' /\ all_disciplined id limit c') c0 c ->
  0 <= GetCount (counters c) id <= limit.
Proof.
  intros Hlimit Hc0 Hk0 Hrun.
  assert (Hinv : bounded id limit (counters c) /\ all_disciplined id limit c); [|apply Hinv].
  assert (H0 : bounded id limit (counters c0) /\ all_disciplined id limit c0).
  { split; [unfold bounded, GetCount; rewrite Hc0, lookup_empty; cbn; lia|].
    intros t k. by rewrite Hk0, lookup_empty. }
  clear Hc0 Hk0. induction Hrun as [|c0 c1 c2 [Hstep Hd] _ IH]; [done|].
  apply IH. clear IH. destruct H0 as [Hb Hd0]. split; [|done].
  destruct Hstep as [c t k|c t k conns' k' Hk Hcall]; [done|].
  cbn [counters]. eapply call_step_bounded; [done|done|by eapply Hd0|done].
Qed.

Lemma memory_limit_never_exceeded_witness :
  0 <= GetCount (counters (mkConfig ∅ {[ 1%nat := CTry 7 3 ]})) 7 <= 3.
Proof.
  apply (memory_limit_never_exceeded 7 3 (mkConfig ∅ ∅)); [unfold max_int64; lia|done|done|].
  apply rtc_once. split.
  - apply (step_spawn (mkConfig ∅ ∅) 1 (CTry 7 3)); [done|done..].
  - intros t k. cbn [calls]. intros [<- <-]%lookup_singleton_Some. by cbn.
Defined.
End Memory.

(** ** RedisConnTracker: the scripts

    A key holds nothing, a sorted set (members with their score, an expiry in
    milliseconds) or a legacy value of another type. [server] is the clock that
    expires keys; [now] is the client's, passed as an argument. *)
Module Redis.

Inductive rkey :=
  | KNone
  | KZSet (members : gmap string Z) (expires : Z)
  | KOther.

(** A sorted set that loses its last member is deleted. *)
Definition zset (members : gmap string Z) (expires : Z) : rkey :=
  if decide (members = ∅) then KNone else KZSet members expires.

Definition live_key (server : Z) (k : rkey) : rkey :=
  match k with
  | KZSet _ expires => if expires <=? server then KNone else k
  | _ => k
  end.

Definition members_of (k : rkey) : gmap string Z :=
  match k with KZSet m _ => m | _ => ∅ end.
Definition expires_of (k : rkey) : Z :=
  match k with KZSet _ e => e | _ => 0 end.

(** ZREMRANGEBYSCORE key -inf now *)
Definition unexpired (now : Z) (m : gmap string Z) : gmap string Z :=
  filter (fun kv => now < kv.2) m.

Definition zcard (m : gmap string Z) : Z := Z.of_nat (size m).

Definition acquireScript (server limit now expiry : Z) (lease : string) (ttl : Z) (k : rkey)
    : rkey * Z :=
  let k := live_key server k in
  let members := unexpired now (members_of k) in
  if (0 <? limit) && (limit <=? zcard members)
  then (zset members (expires_of k), 0)
  else (KZSet (<[lease := expiry]> members) (server + ttl), 1).

Definition wrong_type : string := "WRONGTYPE".

Definition releaseScript (server : Z) (lease : string) (k : rkey) : rkey * result Z string :=
  match live_key server k with
  | KNone => (KNone, Ok 0)
  | KOther => (KOther, Err wrong_type)
  | KZSet m e => (zset (delete lease m) e, Ok (if decide (is_Some (m !! lease)) then 1 else 0))
  end.

Definition refreshScript (server : Z) (lease : string) (expiry ttl : Z) (k : rkey)
    : rkey * result Z string :=
  match live_key server k with
  | KNone => (KNone, Ok 0)
  | KOther => (KOther, Err wrong_type)
  | KZSet m e =>
      if decide (is_Some (m !! lease)) then (KZSet (<[lease := expiry]> m) (server + ttl), Ok 1)
      else (KZSet m e, Ok 0)
  end.

Definition countScript (server now : Z) (k : rkey) : rkey * Z :=
  match live_key server k with
  | KZSet m e => let m := unexpired now m in (zset m e, zcard m)
  | _ => (KNone, 0)
  end.

(** The members renewed by one batch, and how many. *)
Fixpoint renew_members (expiry : Z) (leases : list string) (m : gmap string Z)
    : gmap string Z * Z :=
  match leases with
  | [] => (m, 0)
  | lease :: rest =>
      let hit := match m !! lease with Some _ => true | None => false end in
      let '(m', n) := renew_members expiry rest (if hit then <[lease := expiry]> m else m) in
      (m', if hit then n + 1 else n)
  end.

Definition renewConnBatchScript (server expiry ttl : Z) (leases : list string) (k : rkey)
    : rkey * result Z string :=
  match live_key server k with
  | KNone => (KNone, Ok 0)
  | KOther => match leases with [] => (KOther, Ok 0) | _ => (KOther, Err wrong_type) end
  | KZSet m e =>
      let '(m', n) := renew_members expiry leases m in
      (KZSet m' (if 0 <? n then server + ttl else e), Ok n)
  end.

(** ZREMRANGEBYSCORE and ZCARD of the selection pipeline. *)
Definition pruneAndCount (server now : Z) (k : rkey) : rkey * result Z string :=
  match live_key server k with
  | KNone => (KNone, Ok 0)
  | KOther => (KOther, Err wrong_type)
  | KZSet m e => let m := unexpired now m in (zset m e, Ok (zcard m))
  end.

(** *** Properties *)
Definition occupancy (k : rkey) : Z := zcard (members_of k).

(** Any script any process may run against the key of an account whose
    requests all reserve with the limit [limit]. *)
Inductive script_step (limit : Z) (k : rkey) : rkey -> Prop :=
  | run_acquire server now expiry lease ttl :
      script_step limit k (acquireScript server limit now expiry lease ttl k).1
  | run_release server lease : script_step limit k (releaseScript server lease k).1
  | run_refresh server lease expiry ttl : script_step limit k (refreshScript server lease expiry ttl k).1
  | run_count server now : script_step limit k (countScript server now k).1
  | run_renew server expiry ttl leases :
      script_step limit k (renewConnBatchScript server expiry ttl leases k).1
  | run_prune server now : script_step limit k (pruneAndCount server now k).1.

Lemma zcard_filter now m : zcard (unexpired now m) <= zcard m.
Proof. unfold zcard, unexpired. apply inj_le, map_size_filter. Qed.

Lemma members_zset m e : members_of (zset m e) = m.
Proof. unfold zset. case_decide; [by subst|done]. Qed.

Lemma members_live server k : members_of (live_key server k) ⊆ members_of k.
Proof. destruct k as [|m e|]; cbn; [done| |done]. destruct (_ <=? _); [apply map_empty_subseteq|done]. Qed.

Lemma renew_members_dom expiry leases m :
  dom (renew_members expiry leases m).1 = dom m.
Proof.
  revert m; induction leases as [|l leases IH]; intros m; [done|]. cbn [renew_members].
  specialize (IH (if match m !! l with Some _ => true | None => false end then <[l := expiry]> m else m)).
  destruct (renew_members _ _ _) as [m' n]. cbn [fst] in *. rewrite IH.
  destruct (m !! l) eqn:E; [|done]. rewrite dom_insert_L.
  assert (l ∈ dom m) by (apply elem_of_dom; by eexists). set_solver.
Qed.

Lemma occupancy_dom k k' : dom (members_of k') ⊆ dom (members_of k) -> occupancy k' <= occupancy k.
Proof.
  intros H. unfold occupancy, zcard. apply inj_le. rewrite <- !size_dom. by apply subseteq_size.
Qed.

Lemma unexpired_dom now m : dom (unexpired now m) ⊆ dom m.
Proof. unfold unexpired. apply dom_filter_subseteq. Qed.

Lemma live_dom server k : dom (members_of (live_key server k)) ⊆ dom (members_of k).
Proof. apply subseteq_dom, members_live. Qed.

(** No script but the acquisition ever adds a member: a lease that was
    released or reclaimed is not resurrected by a renewal. *)
Lemma script_dom server k :
  (forall lease, dom (members_of (releaseScript server lease k).1) ⊆ dom (members_of k)) /\
  (forall lease e t, dom (members_of (refreshScript server lease e t k).1) ⊆ dom (members_of k)) /\
  (forall now, dom (members_of (countScript server now k).1) ⊆ dom (members_of k)) /\
  (forall e t leases, dom (members_of (renewConnBatchScript server e t leases k).1) ⊆ dom (members_of k)) /\
  (forall now, dom (members_of (pruneAndCount server now k).1) ⊆ dom (members_of k)).
Proof.
  pose proof (live_dom server k) as Hlive.
  unfold releaseScript, refreshScript, countScript, renewConnBatchScript, pruneAndCount.
  destruct (live_key server k) as [|m e|]; cbn [fst members_of] in *.
  - split_and!; intros; set_solver.
  - split_and!.
    + intros lease. rewrite members_zset, dom_delete_L. set_solver.
    + intros lease e' t. case_decide; cbn [fst members_of]; [|done].
      rewrite dom_insert_L. apply elem_of_dom in H. set_solver.
    + intros now. rewrite members_zset. pose proof (unexpired_dom now m). set_solver.
    + intros e' t leases. pose proof (renew_members_dom e' leases m) as Hr.
      destruct (renew_members e' leases m) as [m' n]. cbn [fst members_of] in *. by rewrite Hr.
    + intros now. rewrite members_zset. pose proof (unexpired_dom now m). set_solver.
  - split_and!; intros; try (cbn; set_solver). destruct leases; cbn; set_solver.
Qed.

Lemma acquire_occupancy server limit now expiry lease ttl k :
  0 < limit ->
  let '(k', granted) := acquireScript server limit now expiry lease ttl k in
  (granted = 0 /\ dom (members_of k') ⊆ dom (members_of k) \/
   granted = 1 /\ occupancy k' <= limit).
Proof.
  intros Hl. unfold acquireScript. rewrite (proj2 (Z.ltb_lt 0 limit) Hl). cbn [andb].
  pose proof (live_dom server k) as Hlive.
  set (m := unexpired now (members_of (live_key server k))).
  destruct (Z.leb_spec limit (zcard m)).
  - left. split; [done|]. rewrite members_zset. unfold m.
    pose proof (unexpired_dom now (members_of (live_key server k))). set_solver.
  - right. split; [done|]. unfold occupancy, zcard in *. cbn [members_of]. rewrite map_size_insert.
    unfold id; destruct (m !! lease); lia.
Qed.

(** C3: the distributed in-flight bound. Starting from an empty or legacy key, the
    sorted set of an account never holds more leases than the account's limit,
    whatever acquisitions, releases, renewals, counts and key expiries the
    processes run in whatever order, even with clocks that disagree; and an
    acquisition is granted exactly when fewer leases than the limit are
    unexpired at the caller's instant, in which case the lease is in the set. *)
Theorem redis_limit_never_exceeded (limit : Z) (k0 k : rkey)
    (server now expiry : Z) (lease : string) (ttl : Z) :
  0 < limit -> members_of k0 = ∅ -> rtc (script_step limit) k0 k ->
  occupancy k <= limit /\
  let '(k', granted) := acquireScript server limit now expiry lease ttl k in
  (granted = 1 <-> zcard (unexpired now (members_of (live_key server k))) < limit) /\
  (granted = 1 -> members_of k' !! lease = Some expiry) /\
  (granted = 0 \/ granted = 1).
Proof.
  intros Hl H0 Hrun. split.
  - assert (Hk0 : occupancy k0 <= limit) by (unfold occupancy; rewrite H0; unfold zcard; rewrite map_size_empty; lia).
    clear H0. induction Hrun as [|k0 k1 k2 Hstep _ IH]; [done|]. apply IH. clear IH.
    destruct Hstep as [server' now' expiry' lease' ttl'|server'|server'|server'|server'|server'];
      [|etrans; [apply occupancy_dom; apply (script_dom server' k0)|done]..].
    pose proof (acquire_occupancy server' limit now' expiry' lease' ttl' k0 Hl) as Ha.
    destruct (acquireScript _ _ _ _ _ _ _) as [k' g]. cbn [fst].
    destruct Ha as [[_ Hd]|[_ Hb]]; [|done]. etrans; [by apply occupancy_dom|done].
  - unfold acquireScript. rewrite (proj2 (Z.ltb_lt 0 limit) Hl). cbn [andb].
    destruct (Z.leb_spec limit (zcard (unexpired now (members_of (live_key server k))))).
    + split_and!; [split; lia|lia|by left].
    + split_and!; [split; lia| |by right]. intros _. cbn [members_of]. by rewrite lookup_insert_eq.
Qed.

Lemma redis_limit_never_exceeded_witness :
  occupancy (acquireScript 5 1 5 100 "a" 240 KOther).1 <= 1 /\
  (acquireScript 6 1 6 100 "b" 240 (acquireScript 5 1 5 100 "a" 240 KOther).1).2 = 0.
Proof.
  destruct (redis_limit_never_exceeded 1 KOther (acquireScript 5 1 5 100 "a" 240 KOther).1
    6 6 100 "b" 240) as [H _]; [lia|done| |by split; [|vm_compute]].
  apply rtc_once, run_acquire.
Defined.
End Redis.

(** ** RedisConnTracker: one process *)
Module Process.
Import Redis.

Definition redisConnLeaseTTL : Duration := 2 * Minute.
Definition ttl_ms (d : Duration) : Z := d / Millisecond.

Record cachedConnCount := mkCached { cc_count : Z; cc_expires : Time }.

(** The sorted sets live in Redis; [held] is a slice of leases per account. *)
Record tracker := mkTracker {
  keys : gmap Z rkey;
  held : gmap Z (list string);
  closed : bool;
  countCache : gmap Z cachedConnCount;
}.

Definition key_of (t : tracker) (id : Z) : rkey := default KNone (keys t !! id).
Definition set_key (t : tracker) (id : Z) (k : rkey) : tracker :=
  mkTracker (<[id := k]> (keys t)) (held t) (closed t) (countCache t).
Definition leases_of (t : tracker) (id : Z) : list string := default [] (held t !! id).

(** What happens to one call of a script: it runs and is answered, its answer
    is lost after it ran, or it never runs. *)
Inductive fate := Answered | AnswerLost | NeverRan.

Definition adjustCachedCount (id delta : Z) (t : tracker) : tracker :=
  match countCache t !! id with
  | Some c => mkTracker (keys t) (held t) (closed t)
                (<[id := mkCached (Z.max 0 (cc_count c + delta)) (cc_expires c)]> (countCache t))
  | None => t
  end.

(** One run of the acquire script: the pair ([Int64()], error). go-redis yields
    0 beside an error. *)
Definition run_acquire (now : Time) (limit id : Z) (lease : string) (f : fate) (t : tracker)
    : tracker * (Z * option string) :=
  let '(k, granted) := acquireScript (UnixMilli now) limit (UnixMilli now)
      (UnixMilli (Add now redisConnLeaseTTL)) lease (ttl_ms (redisConnLeaseTTL * 2)) (key_of t id) in
  match f with
  | Answered => (set_key t id k, (granted, None))
  | AnswerLost => (set_key t id k, (0, Some "i/o timeout"))
  | NeverRan => (t, (0, Some "i/o timeout"))
  end.

(** The retry loop: [attempts] are left, [k] are spent. [clock], [lease] and
    [fates] are those of attempt [k]. *)
Fixpoint acquire_attempts (attempts k : nat) (clock : nat -> Time) (lease : nat -> string)
    (fates : nat -> fate) (limit id : Z) (t : tracker)
    : tracker * (string * Z * option string) :=
  match attempts with
  | O => (t, ("", 0, None))
  | S attempts' =>
      let '(t', (result, err)) := run_acquire (clock k) limit id (lease k) (fates k) t in
      let stop := match err with None => true | Some _ => result =? 0 end in
      if stop then (t', (lease k, result, err))
      else match attempts' with
           | O => (t', (lease k, result, err))
           | _ => acquire_attempts attempts' (S k) clock lease fates limit id t'
           end
  end.

(** [fates 2] is the fate of the clean-up release of a closed tracker. *)
Definition acquire (clock : nat -> Time) (lease : nat -> string) (fates : nat -> fate)
    (limit id : Z) (t : tracker) : tracker * option string :=
  if id =? 0 then (t, None)
  else
    let '(t, (l, result, err)) := acquire_attempts 2 0 clock lease fates limit id t in
    match err with
    | Some _ => (t, None)
    | None =>
        if negb (result =? 1) then (t, None)
        else if closed t then
          match fates 2%nat with
          | NeverRan => (t, None)
          | _ => (set_key t id (releaseScript (UnixMilli (clock 2%nat)) l (key_of t id)).1, None)
          end
        else
          (adjustCachedCount id 1
             (mkTracker (keys t) (<[id := leases_of t id ++ [l]]> (held t)) (closed t) (countCache t)),
           Some l)
    end.

Definition TryAcquire (clock : nat -> Time) (lease : nat -> string) (fates : nat -> fate)
    (limit id : Z) (t : tracker) : tracker * bool :=
  let '(t, l) := acquire clock lease fates limit id t in
  (t, match l with Some _ => true | None => false end).

Definition Acquire (clock : nat -> Time) (lease : nat -> string) (fates : nat -> fate)
    (id : Z) (t : tracker) : tracker := (acquire clock lease fates 0 id t).1.

(** The most recent lease of the account is released. *)
Definition Release (now : Time) (f : fate) (id : Z) (t : tracker) : tracker :=
  if id =? 0 then t
  else match last (leases_of t id) with
       | None => t
       | Some lease =>
           let rest := take (length (leases_of t id) - 1) (leases_of t id) in
           let t := mkTracker (keys t)
             (match rest with [] => delete id (held t) | _ => <[id := rest]> (held t) end)
             (closed t) (countCache t) in
           let '(k, reply) := releaseScript (UnixMilli now) lease (key_of t id) in
           match f with
           | NeverRan => t
           | AnswerLost => set_key t id k
           | Answered =>
               match reply with
               | Ok _ => adjustCachedCount id (-1) (set_key t id k)
               | Err _ => set_key t id k
               end
           end
       end.

(** The pipelined ZREMs of [Close]. *)
Definition zrem_leases (now : Time) (t : tracker) (entry : Z * list string) : tracker :=
  let '(id, leases) := entry in
  foldl (fun t lease => set_key t id (releaseScript (UnixMilli now) lease (key_of t id)).1) t leases.

Definition Close (now : Time) (f : fate) (t : tracker) : tracker :=
  if closed t then t
  else
    let t' := mkTracker (keys t) ∅ true (countCache t) in
    match f with
    | NeverRan => t'
    | _ => foldl (zrem_leases now) t' (map_to_list (held t))
    end.

(** One renewal tick: batches of at most 256 leases, each one script call. *)
Fixpoint chunks (fuel n : nat) (leases : list string) : list (list string) :=
  match fuel, leases with
  | _, [] => []
  | O, _ => []
  | S fuel', _ => take n leases :: chunks fuel' n (drop n leases)
  end.

Definition batches_of (t : tracker) : list (Z * list string) :=
  map_to_list (held t) ≫= fun '(id, leases) =>
    (fun chunk => (id, chunk)) <$> chunks (length leases) 256 leases.

Definition renewBatch (now : Time) (fates : nat -> fate) (t : tracker) : tracker :=
  foldl (fun t '(i, (id, leases)) =>
           match fates i with
           | NeverRan => t
           | _ => set_key t id (renewConnBatchScript (UnixMilli now)
                    (UnixMilli (Add now redisConnLeaseTTL)) (ttl_ms (redisConnLeaseTTL * 2))
                    leases (key_of t id)).1
           end) t (imap pair (batches_of t)).

(** ** Reading the counts *)
Definition GetCount (now : Time) (f : fate) (id : Z) (t : tracker) : tracker * Z :=
  let '(k, n) := countScript (UnixMilli now) (UnixMilli now) (key_of t id) in
  match f with
  | Answered => (set_key t id k, n)
  | AnswerLost => (set_key t id k, 0)
  | NeverRan => (t, 0)
  end.

(** The pipeline of [fetchCounts]: every command runs; one error zeroes all. *)
Fixpoint prune_all (now : Time) (accountIDs : list Z) (t : tracker)
    : tracker * list (Z * result Z string) :=
  match accountIDs with
  | [] => (t, [])
  | id :: rest =>
      let '(k, reply) := pruneAndCount (UnixMilli now) (UnixMilli now) (key_of t id) in
      let '(t, replies) := prune_all now rest (set_key t id k) in
      (t, (id, reply) :: replies)
  end.

Definition reply_ok (r : Z * result Z string) : bool :=
  match r.2 with Ok _ => true | Err _ => false end.

Definition fetchCounts (now : Time) (f : fate) (accountIDs : list Z) (t : tracker)
    : tracker * gmap Z Z :=
  let zeros := foldl (fun m id => <[id := 0]> m) ∅ accountIDs in
  match f with
  | NeverRan => (t, zeros)
  | AnswerLost => ((prune_all now accountIDs t).1, zeros)
  | Answered =>
      let '(t, replies) := prune_all now accountIDs t in
      (t, if forallb reply_ok replies
          then foldl (fun m '(id, r) => <[id := match r with Ok n => n | Err _ => 0 end]> m) ∅ replies
          else zeros)
  end.

Definition GetCounts (now now' : Time) (f : fate) (accountIDs : list Z) (t : tracker)
    : tracker * gmap Z Z :=
  let cached id := match countCache t !! id with
                   | Some c => if Before now (cc_expires c) then Some (cc_count c) else None
                   | None => None
                   end in
  let fresh := foldl (fun m id => match cached id with Some n => <[id := n]> m | None => m end) ∅ accountIDs in
  let missing := filter (fun id => cached id = None) accountIDs in
  match missing with
  | [] => (t, fresh)
  | _ =>
      let '(t, counts) := fetchCounts now f missing t in
      let cache := if 65536 <? Z.of_nat (size (countCache t)) then ∅ else countCache t in
      let cache := foldl (fun m '(id, n) => <[id := mkCached n (Add now' (50 * Millisecond))]> m)
                     cache (map_to_list counts) in
      (mkTracker (keys t) (held t) (closed t) cache,
       foldl (fun m '(id, n) => <[id := n]> m) fresh (map_to_list counts))
  end.

(** *** Properties *)
Definition holds (t : tracker) (id : Z) (lease : string) : Prop :=
  lease ∈ dom (members_of (key_of t id)).

Lemma key_of_set t id k id' :
  key_of (set_key t id k) id' = if decide (id = id') then k else key_of t id'.
Proof.
  unfold key_of, set_key. cbn [keys]. case_decide;
    [subst; by rewrite lookup_insert_eq|by rewrite lookup_insert_ne].
Qed.

Lemma release_removes server lease k :
  lease ∉ dom (members_of (releaseScript server lease k).1).
Proof.
  unfold releaseScript. destruct (live_key server k); cbn [fst members_of]; [set_solver| |set_solver].
  rewrite members_zset, dom_delete_L. set_solver.
Qed.

(** One removal never adds a lease anywhere. *)
Lemma zrem_one now t id lease id' lease' :
  holds (set_key t id (releaseScript (UnixMilli now) lease (key_of t id)).1) id' lease' ->
  holds t id' lease' /\ ~ (id = id' /\ lease = lease').
Proof.
  unfold holds. rewrite key_of_set. case_decide as Hid; [subst id'|by intuition].
  intros H. split.
  - by apply (proj1 (script_dom (UnixMilli now) (key_of t id)) lease).
  - intros [_ <-]. by apply release_removes in H.
Qed.

Lemma zrem_leases_spec now t id leases id' lease' :
  holds (zrem_leases now t (id, leases)) id' lease' ->
  holds t id' lease' /\ ~ (id = id' /\ lease' ∈ leases).
Proof.
  unfold zrem_leases. revert t; induction leases as [|l leases IH]; intros t H; cbn [foldl] in *.
  - split; [done|]. intros [_ Hin]. by apply elem_of_nil in Hin.
  - apply IH in H as [H Hn]. apply zrem_one in H as [H Hn']. split; [done|].
    intros [-> Hin]. apply elem_of_cons in Hin as [->|Hin]; [by apply Hn'|by apply Hn].
Qed.

Lemma zrem_all_spec now entries t id' lease' :
  holds (foldl (zrem_leases now) t entries) id' lease' ->
  holds t id' lease' /\ forall leases, (id', leases) ∈ entries -> lease' ∉ leases.
Proof.
  revert t; induction entries as [|[id ls] entries IH]; intros t H; cbn [foldl] in *.
  - split; [done|]. intros leases Hin. by apply elem_of_nil in Hin.
  - apply IH in H as [H Hn]. apply zrem_leases_spec in H as [H Hn']. split; [done|].
    intros leases Hin Hl. apply elem_of_cons in Hin as [[= <- <-]|Hin]; [by apply Hn'|by apply (Hn leases)].
Qed.

Lemma zrem_fold_state now entries t :
  held (foldl (zrem_leases now) t entries) = held t /\
  closed (foldl (zrem_leases now) t entries) = closed t.
Proof.
  revert t; induction entries as [|[id ls] entries IH]; intros t; [done|]. cbn [foldl].
  destruct (IH (zrem_leases now t (id, ls))) as [-> ->]. clear IH. unfold zrem_leases.
  revert t; induction ls as [|l ls IH]; intros t; [done|]. cbn [foldl]. by destruct (IH (set_key t id (releaseScript (UnixMilli now) l (key_of t id)).1)) as [-> ->].
Qed.

(** Shutting down gives every slot back. After [Close] no lease the process
    held is in Redis any more and nothing is held; a request that was still
    acquiring then gets no slot, and the lease it had just taken is removed, so
    a restart cannot leave an account looking saturated. *)
Theorem close_releases_every_lease (now : Time) (t : tracker) :
  closed t = false ->
  let t' := Close now Answered t in
  held t' = ∅ /\ closed t' = true /\
  (forall id lease, lease ∈ leases_of t id -> ~ holds t' id lease) /\
  (forall clock lease limit id t2 l,
     acquire clock lease (fun _ => Answered) limit id t' = (t2, l) ->
     l = None /\ held t2 = ∅ /\
     forall id', ~ holds t' id' (lease 0%nat) -> ~ holds t2 id' (lease 0%nat)).
Proof.
  intros Hc. cbv zeta. unfold Close. rewrite Hc.
  set (t0 := mkTracker (keys t) ∅ true (countCache t)).
  destruct (zrem_fold_state now (map_to_list (held t)) t0) as [Hh Hcl].
  set (t' := foldl (zrem_leases now) t0 (map_to_list (held t))) in *.
  split_and!; [done|done| |].
  - intros id lease Hin Hh'. apply zrem_all_spec in Hh' as [_ Hall].
    unfold leases_of in Hin. destruct (held t !! id) as [ls|] eqn:Hls; [|by apply elem_of_nil in Hin].
    apply (Hall ls); [by apply elem_of_map_to_list|done].
  - intros clock lease limit id t2 l. unfold acquire. destruct (id =? 0).
    { by intros [= <- <-]. }
    cbn [acquire_attempts]. unfold run_acquire.
    destruct (acquireScript _ _ _ _ _ _ _) as [k granted] eqn:Ha. cbn.
    destruct (granted =? 1) eqn:Hg; cbn [negb].
    + rewrite Hcl. cbn. intros [= <- <-]. split_and!; [done|done|].
      intros id' Hn Hin. apply zrem_one in Hin as [Hin Hne].
      unfold holds in Hin, Hn. rewrite key_of_set in Hin.
      case_decide as Hid; [|by apply Hn]. subst id'. by apply Hne.
    + intros [= <- <-]. split_and!; [done|done|].
      intros id' Hn. unfold holds in *. rewrite key_of_set. case_decide as Hid; [subst id'|done].
      intros Hin. apply Hn. revert Hin. unfold acquireScript in Ha.
      destruct (_ && _); injection Ha as <- <-; [|done].
      rewrite members_zset. intros Hin. apply unexpired_dom in Hin. by apply live_dom in Hin.
Qed.

Lemma close_releases_every_lease_witness :
  let t := mkTracker {[ 7 := KZSet {[ "a" := 100; "b" := 100 ]} 240 ]} {[ 7 := ["a"] ]} false ∅ in
  ~ holds (Close unix_epoch Answered t) 7 "a".
Proof.
  apply (close_releases_every_lease unix_epoch
    (mkTracker {[ 7 := KZSet {[ "a" := 100; "b" := 100 ]} 240 ]} {[ 7 := ["a"] ]} false ∅)).
  - reflexivity.
  - by apply list_elem_of_singleton.
Defined.

(** The one retry that [acquire] announces is never made. When the script call
    of the first attempt fails, the call ends there with no slot, whatever
    would have happened to the second one; if the script had run before its
    answer was lost, its lease is held by nobody and blocks a slot until it
    expires. *)
Theorem acquire_error_not_retried (clock : nat -> Time) (lease : nat -> string)
    (fates fates' : nat -> fate) (limit id : Z) (t : tracker) :
  fates 0%nat <> Answered -> fates' 0%nat = fates 0%nat ->
  acquire clock lease fates' limit id t = acquire clock lease fates limit id t /\
  (acquire clock lease fates limit id t).2 = None /\
  held (acquire clock lease fates limit id t).1 = held t /\
  (id <> 0 -> fates 0%nat = AnswerLost -> limit <= 0 ->
   holds (acquire clock lease fates limit id t).1 id (lease 0%nat)).
Proof.
  intros Hf Hf'. unfold acquire. cbn [acquire_attempts]. unfold run_acquire. rewrite Hf'.
  destruct (Z.eqb_spec id 0) as [Hid|Hid]; [by subst|].
  destruct (acquireScript _ _ _ _ _ _ _) as [k granted] eqn:Ha.
  destruct (fates 0%nat) eqn:E; [done| |]; cbn; split_and!; try done.
  intros _ _ Hl. unfold holds. rewrite key_of_set. rewrite decide_True by done.
  unfold acquireScript in Ha. rewrite (proj2 (Z.ltb_ge 0 limit) Hl) in Ha. cbn [andb] in Ha.
  injection Ha as <- _. cbn [members_of]. rewrite dom_insert_L. set_solver.
Qed.

Lemma acquire_error_not_retried_witness :
  (acquire (fun _ => unix_epoch) (fun _ => "a")
     (fun k => match k with O => NeverRan | _ => Answered end) 3 7
     (mkTracker ∅ ∅ false ∅)).2 = None.
Proof.
  apply (acquire_error_not_retried (fun _ => unix_epoch) (fun _ => "a")
     (fun k => match k with O => NeverRan | _ => Answered end)
     (fun k => match k with O => NeverRan | _ => Answered end) 3 7 (mkTracker ∅ ∅ false ∅));
    [discriminate|reflexivity].
Defined.
End Process.
