(* ===== verification/LoadBalancer.v ===== *)
(** * Account selection (internal/loadbalancer/loadbalancer.go)

    The cached pool, the availability rules, the scan that filters candidates
    and explains an empty pool, and the least-connections choice. Accounts are
    shared pointers, so the balancer owns a heap: a location is a pointer, and
    clearing a status through one caller is seen by every other holder. The
    store is used through an interface ([AccountStoreOps]), which AccountStore.v
    implements. The readings of the clock within one call are one argument
    [now], and the random tie-break is the argument [pick]. *)

From stdpp Require Import base numbers list strings gmap.
From S2P Require Import Prelude GoLib Channel Errors Account Credentials AccountStore Policy.

Local Open Scope Z_scope.

(** ** What the balancer asks of the store *)
Class AccountStoreOps (S : Type) := {
  so_GetEnabledAccounts : S -> result (list Account) string;
  so_UpdateAccount : Time -> Account -> S -> S;            (* a failure is only logged *)
  so_ClaimGrokPaidQuotaProbe : Z -> Time -> S -> bool * S;  (* claimed and no error *)
}.

(** The Redis store, without interference during the call. *)
#[export] Instance RedisStoreOps : AccountStoreOps Db := {|
  so_GetEnabledAccounts := GetEnabledAccounts None;
  so_UpdateAccount now acc db :=
    (UpdateAccount None (fun _ _ => None) (fun _ db => db) (fun _ _ => now) acc db).2;
  so_ClaimGrokPaidQuotaProbe id now db :=
    match ClaimGrokPaidQuotaProbe None (fun _ _ => None) (fun _ db => db) (fun _ => now) now id now db with
    | (Ok _, claimed, db') => (claimed, db')
    | (Err _, _, db') => (false, db')
    end;
|}.

Definition defaultCacheTTL : Duration := 5 * Second.
Definition DefaultAccountConcurrency : Z := 10.
Definition accountScanWindow : nat := 64.

Definition EffectiveAccountConcurrencyLimit (acc : option Account) : Z :=
  match acc with
  | None => 0
  | Some acc =>
      if 0 <? MaxConcurrent acc then MaxConcurrent acc
      else if IsSupported (AccountType acc) then DefaultAccountConcurrency
      else 0
  end.

(** ** State *)
Abbreviation loc := nat (only parsing).

(** A slice: which backing array, and the pointers in it. *)
Record slice := mkSlice { slice_array : nat; slice_elems : list loc }.

Record LB := mkLB {
  heap : gmap loc Account;
  next_loc : loc;
  next_array : nat;
  cachedAccounts : slice;
  cachedByChannel : option (gmap string (list loc));
  cacheExpires : Time;
  cacheTTL : Duration;
  scanCursor : Z;
  lastSelected : gmap Z Time;
}.

Definition deref (lb : LB) (p : loc) : Account := default zero_account (heap lb !! p).

Definition NewWithCacheTTL (ttl : Duration) : LB :=
  mkLB ∅ 0 1 (mkSlice 0 []) None zero_time (if ttl <=? 0 then defaultCacheTTL else ttl) 0 ∅.

Definition set_heap (lb : LB) (h : gmap loc Account) : LB :=
  mkLB h (next_loc lb) (next_array lb) (cachedAccounts lb) (cachedByChannel lb)
    (cacheExpires lb) (cacheTTL lb) (scanCursor lb) (lastSelected lb).
Definition set_cursor (lb : LB) (c : Z) : LB :=
  mkLB (heap lb) (next_loc lb) (next_array lb) (cachedAccounts lb) (cachedByChannel lb)
    (cacheExpires lb) (cacheTTL lb) c (lastSelected lb).
Definition set_selected (lb : LB) (m : gmap Z Time) : LB :=
  mkLB (heap lb) (next_loc lb) (next_array lb) (cachedAccounts lb) (cachedByChannel lb)
    (cacheExpires lb) (cacheTTL lb) (scanCursor lb) m.

Definition rotateScanCursor (lb : LB) (size : nat) : LB * nat :=
  if (size =? 0)%nat then (lb, 0%nat)
  else
    let n := Z.of_nat size in
    let start := Z.rem (scanCursor lb) n in
    (set_cursor lb (Z.rem (start + Z.of_nat accountScanWindow) n), Z.to_nat start).

(** ** The cached snapshot *)
Definition cachedAccountsBefore (lb : LB) (now : Time) : option slice :=
  if negb (length (slice_elems (cachedAccounts lb)) =? 0)%nat && Before now (cacheExpires lb)
  then Some (cachedAccounts lb) else None.

Definition append_channel (m : gmap string (list loc)) (key : string) (p : loc) : gmap string (list loc) :=
  <[key := default [] (m !! key) ++ [p]]> m.

Definition index_account (m : gmap string (list loc)) (entry : loc * Account) : gmap string (list loc) :=
  let '(p, acc) := entry in
  let typ := ToLower (AccountType acc) in
  let mode := ToLower (AgentMode acc) in
  let m := if negb (String.eqb typ "") then append_channel m typ p else m in
  if negb (String.eqb mode "") && negb (String.eqb mode typ) then append_channel m mode p else m.

Section Balancer.
Context {S : Type} `{AccountStoreOps S}.

(** The balancer and the store it shares with everyone else. *)
Record World := mkWorld { lb : LB; st : S }.
Definition set_lb (w : World) (l : LB) : World := mkWorld l (st w).

Definition load_snapshot (now : Time) (accounts : list Account) (l : LB) : LB * slice :=
  let locs := seq (next_loc l) (length accounts) in
  let s := mkSlice (next_array l) locs in
  (mkLB (list_to_map (zip locs accounts) ∪ heap l) (next_loc l + length accounts)
     (Datatypes.S (next_array l)) s
     (Some (foldl index_account ∅ (zip locs accounts)))
     (Add now (cacheTTL l)) (cacheTTL l) (scanCursor l) (lastSelected l), s).

Definition getEnabledAccounts (now : Time) (w : World) : result slice string * World :=
  match cachedAccountsBefore (lb w) now with
  | Some s => (Ok s, w)
  | None =>
      match so_GetEnabledAccounts (st w) with
      | Err e => (Err e, w)
      | Ok accounts =>
          let '(l, s) := load_snapshot now accounts (lb w) in
          (Ok s, set_lb w l)
      end
  end.

Definition InvalidateAccounts (ids : list Z) (l : LB) : LB :=
  let changed := filter (fun id => id <> 0) ids in
  match changed with
  | [] => l
  | _ =>
      let kept := filter (fun p => ID (deref l p) ∉ changed) (slice_elems (cachedAccounts l)) in
      match slice_elems (cachedAccounts l) with
      | [] => mkLB (heap l) (next_loc l) (next_array l) (cachedAccounts l) None zero_time
                (cacheTTL l) (scanCursor l) (lastSelected l)
      | _ => mkLB (heap l) (next_loc l) (Datatypes.S (next_array l)) (mkSlice (next_array l) kept)
                None zero_time (cacheTTL l) (scanCursor l) (lastSelected l)
      end
  end.

(** ** Account status writes *)
Definition resetAccountRuntimeState (acc : Account) : Account :=
  set_status acc (mkStatus "" (AuthStatus acc) 0 "" zero_time (VerifiedAt acc)
    (ClearVerifiedAt acc) zero_time).

Definition update_loc (p : loc) (f : Account -> Account) (l : LB) : LB :=
  set_heap l (<[p := f (deref l p)]> (heap l)).

(** The first cached pointer whose account has this id. *)
Definition cachedAccountLocked (id : Z) (l : LB) : option loc :=
  List.find (fun p => ID (deref l p) =? id) (slice_elems (cachedAccounts l)).

Definition persistAccountStatus (now : Time) (acc : Account) (w : World) : World :=
  mkWorld (lb w) (so_UpdateAccount now acc (st w)).

Definition clearAccountStatus (now : Time) (p : loc) (w : World) : World :=
  let l := update_loc p resetAccountRuntimeState (lb w) in
  let l := match cachedAccountLocked (ID (deref l p)) l with
           | Some c => update_loc c resetAccountRuntimeState l
           | None => l
           end in
  persistAccountStatus now (deref l p) (set_lb w l).

Definition PersistAppliedAccountStatus (now : Time) (p : loc) (w : World) : World :=
  let acc := deref (lb w) p in
  let copy (c : Account) := set_status c (mkStatus (StatusCode acc) (AuthStatus acc)
        (RateLimitFailures acc) (StatusMessage acc) (LastAttempt acc) (VerifiedAt acc)
        (ClearVerifiedAt c) (QuotaResetAt acc)) in
  let l := match cachedAccountLocked (ID acc) (lb w) with
           | Some c => update_loc c copy (lb w)
           | None => lb w
           end in
  persistAccountStatus now (deref l p) (set_lb w l).

Definition mark_status (now : Time) (status : string) (acc : Account) : Account :=
  let failures := if negb (String.eqb status "429") then 0 else wrap64 (RateLimitFailures acc + 1) in
  let auth := if String.eqb status "401" then AccountAuthStatusReauthRequired else AuthStatus acc in
  let reset := Add now (RateLimitCooldown failures) in
  let quota := if String.eqb status "429"
                  && (IsZero (QuotaResetAt acc) || Before (QuotaResetAt acc) reset)
               then reset else QuotaResetAt acc in
  set_status acc (mkStatus status auth failures (StatusMessage acc) now (VerifiedAt acc)
    (ClearVerifiedAt acc) quota).

Definition MarkAccountStatus (now : Time) (p : loc) (status : string) (w : World) : World :=
  if String.eqb status "" then w
  else
    let l := update_loc p (mark_status now status) (lb w) in
    let acc := deref l p in
    let copy (c : Account) := set_status c (mkStatus status (AuthStatus acc)
          (RateLimitFailures acc) (StatusMessage c) now (VerifiedAt c) (ClearVerifiedAt c)
          (QuotaResetAt acc)) in
    let l := match cachedAccountLocked (ID acc) l with
             | Some c => update_loc c copy l
             | None => l
             end in
    persistAccountStatus now (deref l p) (set_lb w l).

(** ** isAccountAvailable *)
Definition cooldownElapsed (lastAttempt : Time) (cooldown : Duration) (now : Time) : bool :=
  if IsZero lastAttempt then false else cooldown <=? Sub now lastAttempt.

Definition isPaidGrokBuildAccount (acc : Account) : bool :=
  if negb (EqualFold (TrimSpace (AccountType acc)) "grok") then false
  else
    let provider := ToLower (TrimSpace (GrokProvider acc)) in
    let credential := ToLower (TrimSpace (CredentialType acc)) in
    if negb (String.eqb provider "build")
       && negb (String.eqb provider "" && String.eqb credential "oauth") then false
    else
      let plan := ToLower (TrimSpace (Subscription acc)) in
      any_of plan ["super"; "pro"; "heavy"; "lite"; "x_basic"; "xbasic"; "x_premium"; "xpremium";
                   "paid"; "team"; "enterprise"].

(** What the status says once the billing gate is passed: withheld, admitted,
    or admitted with the status cleared. *)
Inductive admission := Withheld | Usable | UsableCleared.

Definition when (b : bool) : admission := if b then UsableCleared else Withheld.

Definition status_admission (now : Time) (acc : Account) : admission :=
  let status := TrimSpace (StatusCode acc) in
  let kind := TrimSpace (AccountType acc) in
  if String.eqb status "" then Usable
  else if String.eqb status AccountStatusQoderQuotaExhausted then
    if negb (EqualFold kind "qoder") then Withheld
    else
      let quota := QoderQuota acc in
      if negb (qq_Exhausted quota) && f64_lt f64_zero (qq_Remaining quota) then UsableCleared
      else if negb (IsZero (qq_ResetAt quota)) && negb (Before now (qq_ResetAt quota))
              && Before (qq_SyncedAt quota) (qq_ResetAt quota) then UsableCleared
      else Usable
  else if String.eqb status AccountStatusWorkBuddyQuotaExhausted then
    if negb (EqualFold kind "workbuddy") then Withheld
    else if f64_lt f64_zero (UsageCurrent acc) then UsableCleared else Usable
  else if String.eqb status "401" then Withheld
  else if String.eqb status "429" then
    if IsZero (LastAttempt acc) then Withheld
    else when (negb (AccountHeld (Some acc) now))
  else if String.eqb status "402" then
    if EqualFold kind "qoder" then Usable
    else if isPaidGrokBuildAccount acc && negb (IsZero (PeriodEnd (GrokBilling acc)))
    then when (negb (Before now (PeriodEnd (GrokBilling acc))))
    else if negb (IsZero (QuotaResetAt acc)) then when (negb (Before now (QuotaResetAt acc)))
    else when (cooldownElapsed (LastAttempt acc) CooldownPayment now)
  else if String.eqb status "403" || String.eqb status "404" then
    when (cooldownElapsed (LastAttempt acc)
            (if EqualFold (AccountType acc) "grok" then CooldownBlockedGro else CooldownBlocked) now)
  else when (cooldownElapsed (LastAttempt acc) (5 * Minute) now).

(** The billing gate of a spent paid Build account: closed, open, or open to the
    winner of the probe claim. *)
Inductive gate := GateOpen | GateClosed | GateClaim.

Definition billing_gate (now : Time) (acc : Account) : gate :=
  if isPaidGrokBuildAccount acc && IsExhausted (GrokBilling acc) then
    let periodEnd := PeriodEnd (GrokBilling acc) in
    if IsZero periodEnd || Before now periodEnd then GateClosed else GateClaim
  else GateOpen.

Definition isAccountAvailable (now : Time) (p : loc) (w : World) : bool * World :=
  let acc := deref (lb w) p in
  if negb (AccountAuthActive (Some acc)) then (false, w)
  else
    let '(passed, w) :=
      match billing_gate now acc with
      | GateOpen => (true, w)
      | GateClosed => (false, w)
      | GateClaim =>
          let '(claimed, s) := so_ClaimGrokPaidQuotaProbe (ID acc) now (st w) in
          (claimed, mkWorld (lb w) s)
      end in
    if negb passed then (false, w)
    else match status_admission now acc with
         | Withheld => (false, w)
         | Usable => (true, w)
         | UsableCleared => (true, clearAccountStatus now p w)
         end.

(** ** The scan *)
Inductive rejection := RejectModelThrottled | RejectModelUnavailable | ErrAccountNotEligible.
Abbreviation AccountFilter := (Account -> option rejection) (only parsing).

Record tally := mkTally {
  channelCandidates : Z;
  channelMatched : Z;
  rateLimitedUnavailable : Z;
  allowanceParked : Z;
  filterWithheld : Z;
  filterThrottled : Z;
  filterUnavailable : Z;
}.
Definition no_tally : tally := mkTally 0 0 0 0 0 0 0.

Definition in_channel (channel : string) (acc : Account) : bool :=
  if String.eqb channel "" then true
  else if String.eqb (TrimSpace (AccountType acc)) "" then false
  else EqualFold (AccountType acc) channel || EqualFold (AgentMode acc) channel.

Definition b2z (b : bool) : Z := if b then 1 else 0.

Definition count_reject (r : rejection) (t : tally) : tally :=
  mkTally (channelCandidates t + 1) (channelMatched t) (rateLimitedUnavailable t) (allowanceParked t)
    (filterWithheld t + 1)
    (filterThrottled t + b2z (match r with RejectModelThrottled => true | _ => false end))
    (filterUnavailable t + b2z (match r with RejectModelUnavailable => true | _ => false end)).

Definition count_matched (status : string) (available : bool) (t : tally) : tally :=
  mkTally (channelCandidates t + 1) (channelMatched t + 1)
    (rateLimitedUnavailable t + b2z (negb available && String.eqb status "429"))
    (allowanceParked t + b2z (negb available && String.eqb status "402"))
    (filterWithheld t) (filterThrottled t) (filterUnavailable t).

Definition scan_one (now : Time) (excludeIDs : list Z) (channel : string)
    (flt : option AccountFilter) (state : tally * list loc * World) (p : loc)
    : tally * list loc * World :=
  let '(t, found, w) := state in
  let acc := deref (lb w) p in
  if existsb (Z.eqb (ID acc)) excludeIDs then (t, found, w)
  else if negb (in_channel channel acc) then (t, found, w)
  else match match flt with Some f => f acc | None => None end with
       | Some r => (count_reject r t, found, w)
       | None =>
           let '(available, w) := isAccountAvailable now p w in
           (count_matched (TrimSpace (StatusCode (deref (lb w) p))) available t,
            if available then found ++ [p] else found, w)
       end.

Definition scan (now : Time) (excludeIDs : list Z) (channel : string) (flt : option AccountFilter)
    (candidates : list loc) (w : World) : tally * list loc * World :=
  foldl (scan_one now excludeIDs channel flt) (no_tally, [], w) candidates.

(** ** Why a pool is empty *)
Definition no_accounts (channel : string) : string :=
  "no enabled accounts available for channel: " +:+ channel.

Definition empty_pool_error (channel : string) (t : tally) : string :=
  if negb (String.eqb channel "") && (0 <? channelCandidates t) && (channelMatched t =? 0) then
    if (0 <? filterUnavailable t) && (filterThrottled t =? 0)
       && (filterUnavailable t =? filterWithheld t)
    then no_accounts channel +:+ " (the requested model is not covered by any matching account's plan)"
    else if (0 <? filterThrottled t) && (0 <? filterUnavailable t)
    then no_accounts channel +:+ " (the requested model is cooling down on some matching accounts and not covered by the plans of the rest)"
    else no_accounts channel +:+ " (all matching accounts are cooling down for the requested model)"
  else if negb (String.eqb channel "") && (0 <? channelMatched t)
          && (rateLimitedUnavailable t =? channelMatched t)
  then no_accounts channel +:+ " (all matching accounts are rate-limited or cooling down)"
  else if negb (String.eqb channel "") && (0 <? channelMatched t)
          && (allowanceParked t =? channelMatched t)
  then no_accounts channel +:+ " (all matching accounts have exhausted their allowance)"
  else if negb (String.eqb channel "") && (0 <? allowanceParked t) && (0 <? rateLimitedUnavailable t)
  then no_accounts channel +:+ " (all matching accounts are rate-limited or cooling down: "
       +:+ fmt_d (rateLimitedUnavailable t) +:+ " rate-limited, "
       +:+ fmt_d (allowanceParked t) +:+ " parked for a spent allowance)"
  else no_accounts channel.

Definition at_limit_error (channel : string) : string :=
  no_accounts channel +:+ " (all matching accounts are at their concurrency limit)".

(** ** The choice *)
Definition score (conns weight : Z) : float64 :=
  f64_div (f64_of_Z conns) (f64_of_Z (if weight <=? 0 then 1 else weight)).

Definition under_limit (acc : Account) (conns : Z) : bool :=
  let limit := EffectiveAccountConcurrencyLimit (Some acc) in
  negb ((0 <? limit) && (limit <=? conns)).

(** The candidates of least score so far, and that score ([-1] at first). *)
Definition least_step (l : LB) (counts : gmap Z Z) (state : list loc * float64) (p : loc)
    : list loc * float64 :=
  let '(best, minScore) := state in
  let acc := deref l p in
  let conns := default 0 (counts !! ID acc) in
  if negb (under_limit acc conns) then (best, minScore)
  else
    let s := score conns (Weight acc) in
    match best with
    | [] => ([p], s)
    | _ => if f64_lt s minScore then ([p], s)
           else if f64_eq s minScore then (best ++ [p], minScore)
           else (best, minScore)
    end.

Definition least_loaded (l : LB) (counts : gmap Z Z) (accounts : list loc) : list loc :=
  (foldl (least_step l counts) ([], f64_of_Z (-1)) accounts).1.

(** The least recently selected of [best]: never selected first, else coldest. *)
Definition coldest_step (l : LB) (state : list loc * Time) (p : loc) : list loc * Time :=
  let '(coldest, oldest) := state in
  match lastSelected l !! ID (deref l p) with
  | None => (coldest, oldest)
  | Some at_ =>
      match coldest with
      | [] => ([p], at_)
      | _ => if Before at_ oldest then ([p], at_)
             else if at_ =? oldest then (coldest ++ [p], oldest)
             else (coldest, oldest)
      end
  end.

Definition idle_pool (l : LB) (best : list loc) : list loc :=
  let unseen := filter (fun p => lastSelected l !! ID (deref l p) = None) best in
  let coldest := (foldl (coldest_step l) ([], zero_time) best).1 in
  match unseen with
  | _ :: _ => unseen
  | [] => match coldest with _ :: _ => coldest | [] => best end
  end.

(** One window of at most [accountScanWindow] candidates; [pick] is the random
    number drawn below the size of the pool. *)
Definition select_window (now : Time) (pick : nat -> nat) (tracker : list Z -> gmap Z Z)
    (accounts : list loc) (l : LB) : option loc * LB :=
  let counts := tracker ((fun p => ID (deref l p)) <$> accounts) in
  match least_loaded l counts accounts with
  | [] => (None, l)
  | best =>
      let pool := idle_pool l best in
      match pool !! (pick (length pool) mod length pool)%nat with
      | None => (None, l)
      | Some p => (Some p, set_selected l (<[ID (deref l p) := now]> (lastSelected l)))
      end
  end.

Definition rotated (start n : nat) (accounts : list loc) : list loc :=
  (fun k => nth ((start + k) mod length accounts) accounts 0%nat) <$> seq 0 n.

(** The windows of a large pool, in turn, until one yields a candidate. *)
Fixpoint select_windows (fuel : nat) (now : Time) (pick : nat -> nat) (tracker : list Z -> gmap Z Z)
    (start offset : nat) (accounts : list loc) (l : LB) : option loc * LB :=
  match fuel with
  | O => (None, l)
  | Datatypes.S fuel' =>
      if (length accounts <=? offset)%nat then (None, l)
      else
        let n := Nat.min accountScanWindow (length accounts - offset) in
        match select_window now pick tracker (rotated (start + offset) n accounts) l with
        | (Some p, l) => (Some p, l)
        | (None, l) => select_windows fuel' now pick tracker start (offset + accountScanWindow) accounts l
        end
  end.

Definition selectAccountWithTracker (now : Time) (pick : nat -> nat) (tracker : list Z -> gmap Z Z)
    (accounts : list loc) (l : LB) : option loc * LB :=
  match accounts with
  | [] => (None, l)
  | _ =>
      if (accountScanWindow <? length accounts)%nat then
        let '(l, start) := rotateScanCursor l (length accounts) in
        select_windows (length accounts) now pick tracker start 0 accounts l
      else select_window now pick tracker accounts l
  end.

(** ** GetNextAccountExcludingByChannelWithTrackerFilter *)

(** The pool of a channel, from the index when it belongs to this snapshot. *)
Definition channel_pool (channel : string) (s : slice) (l : LB) : list loc :=
  if String.eqb channel "" then slice_elems s
  else match cachedByChannel l with
       | Some index =>
           if (length (slice_elems s) =? length (slice_elems (cachedAccounts l)))%nat
              && ((length (slice_elems s) =? 0)%nat
                  || (slice_array s =? slice_array (cachedAccounts l))%nat)
           then default [] (index !! ToLower channel)
           else slice_elems s
       | None => slice_elems s
       end.

(** The window first, then the whole pool when the window yields nothing. *)
Definition scan_pool (now : Time) (excludeIDs : list Z) (channel : string)
    (flt : option AccountFilter) (accounts : list loc) (w : World)
    : tally * list loc * World :=
  if (accountScanWindow <? length accounts)%nat then
    let '(l, start) := rotateScanCursor (lb w) (length accounts) in
    let scanned := rotated start accountScanWindow accounts in
    let '(t, found, w) := scan now excludeIDs channel flt scanned (set_lb w l) in
    match found with
    | [] => scan now excludeIDs channel flt accounts w
    | _ => (t, found, w)
    end
  else scan now excludeIDs channel flt accounts w.

Definition GetNextAccount (now : Time) (pick : nat -> nat) (excludeIDs : list Z) (channel : string)
    (tracker : list Z -> gmap Z Z) (flt : option AccountFilter) (w : World)
    : result loc string * World :=
  match getEnabledAccounts now w with
  | (Err e, w) => (Err e, w)
  | (Ok s, w) =>
      let accounts := channel_pool channel s (lb w) in
      let '(t, found, w) := scan_pool now excludeIDs channel flt accounts w in
      match found with
      | [] => (Err (empty_pool_error channel t), w)
      | _ =>
          let '(picked, l) := selectAccountWithTracker now pick tracker found (lb w) in
          match picked with
          | None => (Err (at_limit_error channel), set_lb w l)
          | Some p => (Ok p, set_lb w l)
          end
      end
  end.
End Balancer.
Arguments World : clear implicits.

(** ** What a scan may do to the shared accounts

    The only write is the reset of an expired verdict. *)
Definition cleared_from (a0 a : Account) : Prop := a = a0 \/ a = resetAccountRuntimeState a0.

Lemma reset_idem a : resetAccountRuntimeState (resetAccountRuntimeState a) = resetAccountRuntimeState a.
Proof. done. Qed.

#[export] Instance cleared_from_preorder : PreOrder cleared_from.
Proof.
  split; [by left|]. intros a b c [-> | ->] [-> | ->]; unfold cleared_from; rewrite ?reset_idem; auto.
Qed.

(** The rest of the balancer is as it was. *)
Definition only_cleared (l l' : LB) : Prop :=
  (forall p, cleared_from (deref l p) (deref l' p)) /\
  l' = set_heap l (heap l').

#[export] Instance only_cleared_preorder : PreOrder only_cleared.
Proof.
  split; [intros l; split; [intros p; reflexivity|destruct l; reflexivity]|].
  intros l1 l2 l3 [H12 E12] [H23 E23]. split; [intros p; by transitivity (deref l2 p)|].
  destruct l1, l2, l3. unfold set_heap in *. cbn in *. congruence.
Qed.

Lemma deref_update p f l q :
  deref (update_loc p f l) q = if decide (p = q) then f (deref l p) else deref l q.
Proof.
  unfold update_loc, deref, set_heap. cbn [heap]. case_decide.
  - subst. by rewrite lookup_insert_eq.
  - by rewrite lookup_insert_ne.
Qed.

Lemma only_cleared_reset p l : only_cleared l (update_loc p resetAccountRuntimeState l).
Proof.
  split; [|done]. intros q. rewrite deref_update. case_decide; [subst; by right|reflexivity].
Qed.

Lemma cleared_keeps a0 a :
  cleared_from a0 a -> ID a = ID a0 /\ AuthStatus a = AuthStatus a0 /\ identity a = identity a0 /\
    AccountAuthActive (Some a) = AccountAuthActive (Some a0) /\
    (forall channel, in_channel channel a = in_channel channel a0) /\
    EffectiveAccountConcurrencyLimit (Some a) = EffectiveAccountConcurrencyLimit (Some a0).
Proof. intros [-> | ->]; split_and!; done. Qed.

Section Scan.
Context {S : Type} `{AccountStoreOps S}.

Lemma clear_only_cleared now p (w : World S) :
  only_cleared (lb w) (lb (clearAccountStatus now p w)).
Proof.
  unfold clearAccountStatus, persistAccountStatus. cbn [lb set_lb].
  etrans; [apply (only_cleared_reset p)|].
  destruct (cachedAccountLocked _ _); [apply only_cleared_reset|reflexivity].
Qed.

(** An account that may serve without a probe claim. *)
Definition routable (now : Time) (acc : Account) : bool :=
  AccountAuthActive (Some acc)
  && match billing_gate now acc with GateOpen => true | _ => false end
  && match status_admission now acc with Withheld => false | _ => true end.

Definition eligible (now : Time) (excludeIDs : list Z) (channel : string)
    (flt : option (Account -> option rejection)) (acc : Account) : bool :=
  negb (existsb (Z.eqb (ID acc)) excludeIDs) && in_channel channel acc
  && match flt with Some f => match f acc with None => true | Some _ => false end | None => true end
  && routable now acc.

Lemma available_spec now p (w : World S) :
  let '(ok, w') := isAccountAvailable now p w in
  only_cleared (lb w) (lb w') /\
  (ok = false -> lb w' = lb w /\ routable now (deref (lb w) p) = false) /\
  (ok = true -> AccountAuthActive (Some (deref (lb w) p)) = true /\
     billing_gate now (deref (lb w) p) <> GateClosed /\
     status_admission now (deref (lb w) p) <> Withheld).
Proof.
  unfold isAccountAvailable, routable. destruct (AccountAuthActive _); cbn [negb andb]; [|by split_and!].
  destruct (billing_gate now _) eqn:Hg.
  - destruct (status_admission now _) eqn:Ha; cbn [negb]; split_and!; try done.
    apply clear_only_cleared.
  - by split_and!.
  - destruct (so_ClaimGrokPaidQuotaProbe _ _ _) as [claimed s]. destruct claimed; cbn [negb]; [|by split_and!].
    destruct (status_admission now _) eqn:Ha; split_and!; try done.
    apply (clear_only_cleared now p (mkWorld (lb w) s)).
Qed.

(** What a candidate the scan kept has passed, at the moment it was examined. *)
Definition passed (now : Time) (excludeIDs : list Z) (channel : string)
    (flt : option (Account -> option rejection)) (a : Account) : Prop :=
  existsb (Z.eqb (ID a)) excludeIDs = false /\ in_channel channel a = true /\
  (forall f, flt = Some f -> f a = None) /\
  AccountAuthActive (Some a) = true /\ billing_gate now a <> GateClosed /\
  status_admission now a <> Withheld.

Context (now : Time) (excludeIDs : list Z) (channel : string)
  (flt : option (Account -> option rejection)).

Lemma passed_usable a :
  passed now excludeIDs channel flt a ->
  TrimSpace (StatusCode a) <> "401" /\
  (TrimSpace (StatusCode a) = "429" -> AccountHeld (Some a) now = false).
Proof.
  intros (_ & _ & _ & _ & _ & Hs). split; intros E.
  - apply Hs. unfold status_admission. by rewrite E.
  - destruct (AccountHeld (Some a) now) eqn:Eh; [|done]. destruct Hs.
    unfold status_admission, when. cbv zeta. rewrite E, Eh. cbn. by destruct (IsZero _).
Qed.

Lemma scan_one_spec t found (w : World S) p :
  let '(t', found', w') := scan_one now excludeIDs channel flt (t, found, w) p in
  only_cleared (lb w) (lb w') /\
  (found' = found -> lb w' = lb w /\ eligible now excludeIDs channel flt (deref (lb w) p) = false) /\
  (found' = found \/ found' = found ++ [p] /\ passed now excludeIDs channel flt (deref (lb w) p)).
Proof.
  unfold scan_one, eligible, passed. set (a := deref (lb w) p).
  destruct (existsb _ _) eqn:Hex; cbn [negb andb]; [by split_and!; auto|].
  destruct (in_channel channel a) eqn:Hch; cbn [negb andb]; [|by split_and!; auto].
  destruct (match flt with Some f => f a | None => None end) as [r|] eqn:Hf.
  - destruct flt as [f|]; [|done]. split_and!; [done|intros _; by rewrite Hf|by left].
  - pose proof (available_spec now p w) as Hav.
    destruct (isAccountAvailable now p w) as [ok w'] eqn:E. destruct Hav as (Hc & Hno & Hyes).
    fold a in Hno, Hyes. destruct ok.
    + split_and!; [done| |].
      * intros Heq. exfalso. revert Heq. intros Heq; apply (f_equal length) in Heq; rewrite length_app in Heq; cbn in Heq; lia.
      * right. destruct (Hyes eq_refl) as (? & ? & ?). split_and!; try done. by intros f ->.
    + destruct (Hno eq_refl) as [-> Hr]. split_and!; [done| |by left].
      intros _. rewrite Hr. by rewrite andb_false_r.
Qed.

Lemma scan_fold_spec candidates t found (w : World S) :
  let '(t', found', w') := foldl (scan_one now excludeIDs channel flt) (t, found, w) candidates in
  only_cleared (lb w) (lb w') /\ found `prefix_of` found' /\
  (found' = found -> lb w' = lb w /\
     forall p, p ∈ candidates -> eligible now excludeIDs channel flt (deref (lb w) p) = false) /\
  (forall p, p ∈ found' -> p ∈ found \/ p ∈ candidates /\
     exists a, cleared_from (deref (lb w) p) a /\ passed now excludeIDs channel flt a).
Proof.
  revert t found w; induction candidates as [|p ps IH]; intros t found w.
  { cbn. split_and!; [reflexivity|done| |by auto]. intros _. split; [done|]. intros p Hp. by apply elem_of_nil in Hp. }
  cbn [foldl]. pose proof (scan_one_spec t found w p) as Hone.
  destruct (scan_one now excludeIDs channel flt (t, found, w) p) as [[t1 found1] w1].
  specialize (IH t1 found1 w1). destruct (foldl _ _ ps) as [[t2 found2] w2].
  destruct Hone as (Hc1 & Hsame1 & Hnew), IH as (Hc2 & Hpre2 & Hsame2 & Hin2).
  assert (Hpre1 : found `prefix_of` found1) by (destruct Hnew as [-> |[-> _]]; [done|by eexists]).
  split_and!.
  - by transitivity (lb w1).
  - by transitivity found1.
  - intros ->. assert (found1 = found) as -> by (by apply (anti_symm prefix)).
    destruct (Hsame1 eq_refl) as [Hw1 Hp], (Hsame2 eq_refl) as [Hw2 Hps]. rewrite Hw1 in *.
    split; [done|]. intros q [-> |Hq]%elem_of_cons; [done|by apply Hps].
  - intros q Hq. destruct (Hin2 q Hq) as [Hq1|(Hq1 & a & Ha & Hpass)].
    + destruct Hnew as [-> |[-> Hpass]]; [by left|].
      apply elem_of_app in Hq1 as [Hq1|Hq1]; [by left|]. apply list_elem_of_singleton in Hq1 as ->.
      right. split; [by left|]. by exists (deref (lb w) p).
    + right. split; [by right|]. exists a. split; [|done]. transitivity (deref (lb w1) q); [apply Hc1|done].
Qed.

Lemma deref_cursor l c p : deref (set_cursor l c) p = deref l p.
Proof. done. Qed.

Lemma rotate_cursor l n :
  exists c start, rotateScanCursor l n = (set_cursor l c, start) /\ (0 <= scanCursor l -> 0 <= c).
Proof.
  unfold rotateScanCursor. destruct (Nat.eqb_spec n 0) as [|Hn].
  - exists (scanCursor l), 0%nat. split; [by destruct l|done].
  - eexists _, _. split; [done|]. intros Hl. apply Z.rem_nonneg; [lia|].
    pose proof (Z.rem_nonneg (scanCursor l) (Z.of_nat n)). unfold accountScanWindow. lia.
Qed.

Lemma only_cleared_cursor l l' : only_cleared l l' -> scanCursor l' = scanCursor l.
Proof. intros [_ ->]. done. Qed.

Lemma rotated_elem start n accounts p : accounts <> [] -> p ∈ rotated start n accounts -> p ∈ accounts.
Proof.
  intros Hne Hp. unfold rotated in Hp. apply list_elem_of_fmap in Hp as (k & -> & _).
  apply list_elem_of_In, nth_In, Nat.mod_upper_bound. by destruct accounts.
Qed.

(** The scan of a pool, windows included. *)
Lemma scan_pool_spec accounts (w : World S) :
  let '(t, found, w') := scan_pool now excludeIDs channel flt accounts w in
  (forall p, cleared_from (deref (lb w) p) (deref (lb w') p)) /\
  (0 <= scanCursor (lb w) -> 0 <= scanCursor (lb w')) /\
  (found = [] -> heap (lb w') = heap (lb w) /\
     forall p, p ∈ accounts -> eligible now excludeIDs channel flt (deref (lb w) p) = false) /\
  (forall p, p ∈ found -> p ∈ accounts /\
     exists a, cleared_from (deref (lb w) p) a /\ passed now excludeIDs channel flt a).
Proof.
  unfold scan_pool. destruct (Nat.ltb_spec accountScanWindow (length accounts)) as [Hlen|_].
  - destruct (rotate_cursor (lb w) (length accounts)) as (c & start & -> & Hcur).
    unfold scan. set (w0 := set_lb w (set_cursor (lb w) c)).
    pose proof (scan_fold_spec (rotated start accountScanWindow accounts) no_tally [] w0) as H1.
    destruct (foldl _ _ (rotated _ _ _)) as [[t1 found1] w1]. destruct H1 as (Hc1 & _ & Hs1 & Hi1).
    destruct found1 as [|q found1].
    + destruct (Hs1 eq_refl) as [Hw1 _].
      pose proof (scan_fold_spec accounts no_tally [] w1) as H2.
      destruct (foldl _ _ accounts) as [[t2 found2] w2]. destruct H2 as (Hc2 & _ & Hs2 & Hi2).
      rewrite Hw1 in *. split_and!.
      * apply Hc2.
      * intros Hl. apply only_cleared_cursor in Hc2 as ->. by apply Hcur.
      * intros ->. destruct (Hs2 eq_refl) as [-> ?]. done.
      * intros p Hp. destruct (Hi2 p Hp) as [Hp'|?]; [by apply elem_of_nil in Hp'|done].
    + split_and!; [apply Hc1|intros Hl; apply only_cleared_cursor in Hc1 as ->; by apply Hcur|done|].
      intros p Hp. destruct (Hi1 p Hp) as [Hp'|(Hp' & ?)]; [by apply elem_of_nil in Hp'|].
      split; [|done]. apply rotated_elem in Hp'; [done|].
      intros Hnil. rewrite Hnil in Hlen. cbn in Hlen. lia.
  - unfold scan. pose proof (scan_fold_spec accounts no_tally [] w) as H2.
    destruct (foldl _ _ accounts) as [[t2 found2] w2]. destruct H2 as (Hc2 & _ & Hs2 & Hi2).
    split_and!.
    + apply Hc2.
    + by apply only_cleared_cursor in Hc2 as ->.
    + intros ->. destruct (Hs2 eq_refl) as [-> ?]. done.
    + intros p Hp. destruct (Hi2 p Hp) as [Hp'|?]; [by apply elem_of_nil in Hp'|done].
Qed.
End Scan.

(** ** The least loaded candidates *)
Section Least.
Context (l : LB) (counts : gmap Z Z).

Abbreviation load p := (score (default 0 (counts !! ID (deref l p))) (Weight (deref l p))) (only parsing).
Abbreviation fits p := (under_limit (deref l p) (default 0 (counts !! ID (deref l p)))) (only parsing).

(** [best] are the least loaded of the accounts seen, at score [m]. *)
Definition least_inv (seen : list loc) (state : list loc * float64) : Prop :=
  let '(best, m) := state in
  (best = [] -> forall q, q ∈ seen -> fits q = false) /\
  (best <> [] -> forall q, q ∈ seen -> fits q = true -> f64_lt (load q) m = false) /\
  (forall p, p ∈ best -> p ∈ seen /\ fits p = true /\ (load p = m \/ f64_eq (load p) m = true)).

Lemma least_step_inv seen state p :
  least_inv seen state -> least_inv (seen ++ [p]) (least_step l counts state p).
Proof.
  destruct state as [best m]. unfold least_step. intros (Hnil & Hmin & Hin).
  set (s := load p).
  destruct (fits p) eqn:Hf; cbn [negb].
  - assert (Hone : least_inv (seen ++ [p]) ([p], s) <->
      (forall q, q ∈ seen -> fits q = true -> f64_lt (load q) s = false) /\ f64_lt s s = false).
    { unfold least_inv. split.
      - intros (_ & H & _). split; [|apply H; [done|set_solver|done]].
        intros q Hq Hfq. apply H; [done|set_solver|done].
      - intros [H1 H2]. split_and!; [done| |].
        + intros _ q [Hq|Hq]%elem_of_app Hfq; [by apply H1|].
          apply list_elem_of_singleton in Hq as ->. done.
        + intros q ->%list_elem_of_singleton. split_and!; [set_solver|done|by left]. }
    assert (Hirr : f64_lt s s = false).
    { apply f64_lt_irrefl. }
    destruct best as [|b best].
    + apply Hone. split; [|done]. intros q Hq Hfq. by rewrite (Hnil eq_refl q Hq) in Hfq.
    + destruct (f64_lt s m) eqn:Hlt.
      * apply Hone. split; [|done]. intros q Hq Hfq.
        destruct (f64_lt (load q) s) eqn:E; [|done].
        specialize (Hmin ltac:(done) q Hq Hfq). by rewrite (f64_lt_trans _ _ _ E Hlt) in Hmin.
      * destruct (f64_eq s m) eqn:Heq.
        -- split_and!; [by destruct best| |].
           ++ intros _ q [Hq|Hq]%elem_of_app Hfq; [by apply Hmin|].
              apply list_elem_of_singleton in Hq as ->. done.
           ++ intros q [Hq|Hq]%elem_of_app.
              ** destruct (Hin q Hq) as (? & ? & ?). split_and!; [set_solver|done|done].
              ** apply list_elem_of_singleton in Hq as ->. split_and!; [set_solver|done|by right].
        -- split_and!; [done| |].
           ++ intros _ q [Hq|Hq]%elem_of_app Hfq; [by apply Hmin|].
              apply list_elem_of_singleton in Hq as ->. done.
           ++ intros q Hq. destruct (Hin q Hq) as (? & ? & ?). split_and!; [set_solver|done|done].
  - split_and!.
    + intros -> q [Hq|Hq]%elem_of_app; [by apply Hnil|]. by apply list_elem_of_singleton in Hq as ->.
    + intros Hb q [Hq|Hq]%elem_of_app Hfq; [by apply Hmin|].
      apply list_elem_of_singleton in Hq as ->. congruence.
    + intros q Hq. destruct (Hin q Hq) as (? & ? & ?). split_and!; [set_solver|done|done].
Qed.

Lemma least_fold_inv seen state accounts :
  least_inv seen state -> least_inv (seen ++ accounts) (foldl (least_step l counts) state accounts).
Proof.
  revert seen state; induction accounts as [|p ps IH]; intros seen state Hinv; [by rewrite app_nil_r|].
  cbn [foldl]. replace (seen ++ p :: ps) with ((seen ++ [p]) ++ ps) by (by rewrite <- app_assoc).
  apply IH. by apply least_step_inv.
Qed.

Lemma least_loaded_spec accounts :
  (least_loaded l counts accounts = [] -> forall q, q ∈ accounts -> fits q = false) /\
  (forall p, p ∈ least_loaded l counts accounts -> p ∈ accounts /\ fits p = true /\
     forall q, q ∈ accounts -> fits q = true -> f64_lt (load q) (load p) = false).
Proof.
  unfold least_loaded.
  pose proof (least_fold_inv [] ([], f64_of_Z (-1)) accounts) as Hinv.
  destruct (foldl _ _ accounts) as [best m]. cbn [fst app] in *.
  destruct Hinv as (Hnil & Hmin & Hin).
  { split_and!; [by intros _ q Hq%elem_of_nil|done|by intros p Hp%elem_of_nil]. }
  split; [done|]. intros p Hp. destruct (Hin p Hp) as (Hpa & Hfp & Hm). split_and!; [done..|].
  intros q Hq Hfq. assert (Hne : best <> []) by (by intros ->; apply elem_of_nil in Hp).
  specialize (Hmin Hne q Hq Hfq). destruct (f64_lt (load q) (load p)) eqn:E; [|done].
  destruct Hm as [Hm|Hm]; [by rewrite Hm in E; rewrite E in Hmin|].
  by rewrite (f64_lt_eq_trans _ _ _ E Hm) in Hmin.
Qed.
End Least.

(** ** Every eligible account of a scanned list is a candidate *)
Section Complete.
Context {S : Type} `{AccountStoreOps S}.
Context (now : Time) (excludeIDs : list Z) (channel : string)
  (flt : option (Account -> option rejection)).
Context (filter_ignores_status : forall f a, flt = Some f -> f (resetAccountRuntimeState a) = f a).

Lemma eligible_cleared a0 a :
  cleared_from a0 a -> eligible now excludeIDs channel flt a0 = true ->
  eligible now excludeIDs channel flt a = true.
Proof.
  intros [-> | ->] He; [done|]. unfold eligible, routable in *.
  apply andb_true_iff in He as [He1 He3]. apply andb_true_iff in He1 as [He1 He2].
  apply andb_true_iff in He3 as [He3 He4].
  apply andb_true_iff. split; [apply andb_true_iff; split; [exact He1|]|].
  - destruct flt as [f|] eqn:Hf; [|done]. by rewrite filter_ignores_status.
  - apply andb_true_iff. split; [exact He3|done].
Qed.

Lemma eligible_available p (w : World S) :
  eligible now excludeIDs channel flt (deref (lb w) p) = true ->
  (isAccountAvailable now p w).1 = true.
Proof.
  intros He. pose proof (available_spec now p w) as Hav.
  destruct (isAccountAvailable now p w) as [[] w']; [done|]. destruct Hav as (_ & Hno & _).
  destruct (Hno eq_refl) as [_ Hr]. unfold eligible in He. by rewrite Hr, andb_false_r in He.
Qed.

Lemma scan_one_complete t found (w : World S) p :
  eligible now excludeIDs channel flt (deref (lb w) p) = true ->
  p ∈ (scan_one now excludeIDs channel flt (t, found, w) p).1.2.
Proof.
  intros He. pose proof (eligible_available p w He) as Hav. unfold scan_one.
  unfold eligible in He. destruct (existsb _ _); [done|]. destruct (in_channel _ _); [|done].
  cbn [negb andb] in *.
  destruct flt as [f|]; [destruct (f _); [done|]|];
    (destruct (isAccountAvailable now p w) as [ok w']; cbn [fst snd] in *; subst ok; set_solver).
Qed.

Lemma scan_fold_complete candidates t found (w : World S) p :
  p ∈ candidates -> eligible now excludeIDs channel flt (deref (lb w) p) = true ->
  p ∈ (foldl (scan_one now excludeIDs channel flt) (t, found, w) candidates).1.2.
Proof.
  revert t found w; induction candidates as [|q qs IH]; intros t found w Hp He; [by apply elem_of_nil in Hp|].
  cbn [foldl]. pose proof (scan_one_spec now excludeIDs channel flt t found w q) as Hone.
  apply elem_of_cons in Hp as [->|Hp].
  - pose proof (scan_one_complete t found w q He) as Hin.
    destruct (scan_one _ _ _ _ _ q) as [[t1 found1] w1]. cbn [fst snd] in Hin.
    pose proof (scan_fold_spec now excludeIDs channel flt qs t1 found1 w1) as Hf.
    destruct (foldl _ _ qs) as [[t2 found2] w2]. destruct Hf as (_ & [k ->] & _). cbn. set_solver.
  - destruct (scan_one _ _ _ _ _ q) as [[t1 found1] w1]. destruct Hone as ([Hc _] & _).
    apply IH; [done|]. eapply eligible_cleared; [apply Hc|done].
Qed.
End Complete.

(** ** The selection *)
Section Selection.
Context (now : Time) (pick : nat -> nat) (tracker : list Z -> gmap Z Z) (conns : Z -> Z).
Context (tracker_reads : forall ids id, id ∈ ids -> default 0 (tracker ids !! id) = conns id).

Definition loaded (a : Account) : float64 := score (conns (ID a)) (Weight a).
Definition fits (a : Account) : bool := under_limit a (conns (ID a)).

Lemma fits_limit a :
  fits a = true -> let limit := EffectiveAccountConcurrencyLimit (Some a) in
  0 < limit -> conns (ID a) < limit.
Proof. unfold fits, under_limit. cbv zeta. intros Hf Hpos. bool_to_prop. lia. Qed.

Lemma not_fits_limit a :
  fits a = false -> 0 < EffectiveAccountConcurrencyLimit (Some a) <= conns (ID a).
Proof. unfold fits, under_limit. intros Hf. bool_to_prop. lia. Qed.

Lemma idle_pool_sub l best p : p ∈ idle_pool l best -> p ∈ best.
Proof using.
  clear tracker_reads pick tracker conns.
  unfold idle_pool. destruct (filter _ best) as [|u us] eqn:E.
  - assert (Hc : forall ps state, (forall q, q ∈ state.1 -> q ∈ best) -> (forall q, q ∈ ps -> q ∈ best) ->
              forall q, q ∈ (foldl (coldest_step l) state ps).1 -> q ∈ best).
    { induction ps as [|q ps IH]; intros [c o] Hs Hps; [done|]. cbn [foldl]. apply IH.
      - unfold coldest_step. cbn [fst] in *. pose proof (Hps q ltac:(by left)).
        destruct (lastSelected l !! _) as [at_|]; [|done]. destruct c as [|c0 c]; [set_solver|].
        destruct (Before at_ o); [set_solver|]. destruct (at_ =? o); [|done]. cbn. set_solver.
      - intros q' Hq'. apply Hps. by right. }
    specialize (Hc best ([], zero_time) ltac:(by intros q Hq%elem_of_nil) ltac:(done)).
    destruct (foldl (coldest_step l) _ best).1 as [|c cs]; [done|]. apply Hc.
  - rewrite <- E. intros Hp. by apply list_elem_of_filter in Hp as [_ Hp].
Qed.

Lemma idle_pool_nonempty l best : best <> [] -> idle_pool l best <> [].
Proof. unfold idle_pool. intros Hne. by repeat case_match. Qed.

(** The counts a window of pointers reads are those of its accounts. *)
Lemma window_reads l accounts p :
  p ∈ accounts ->
  default 0 (tracker ((fun p => ID (deref l p)) <$> accounts) !! ID (deref l p)) = conns (ID (deref l p)).
Proof. intros Hp. apply tracker_reads, list_elem_of_fmap. by exists p. Qed.

Lemma select_window_spec accounts l :
  let '(o, l') := select_window now pick tracker accounts l in
  heap l' = heap l /\ l' = set_selected l (lastSelected l') /\
  match o with
  | Some p => p ∈ accounts /\ fits (deref l p) = true /\
      (forall q, q ∈ accounts -> fits (deref l q) = true ->
         f64_lt (loaded (deref l q)) (loaded (deref l p)) = false)
  | None => (forall q, q ∈ accounts -> fits (deref l q) = false) /\ l' = l
  end.
Proof.
  unfold select_window. set (counts := tracker _).
  destruct (least_loaded_spec l counts accounts) as [Hnil Hin].
  assert (Hreads : forall q, q ∈ accounts -> default 0 (counts !! ID (deref l q)) = conns (ID (deref l q)))
    by (intros; by apply window_reads).
  destruct (least_loaded l counts accounts) as [|b best] eqn:Eb.
  - split_and!; [done|by destruct l|intros q Hq; unfold fits; rewrite <- Hreads by done; by apply Hnil|done].
  - rewrite <- Eb in Hnil, Hin |- *.
    destruct (idle_pool l (least_loaded l counts accounts) !! _) as [p|] eqn:Hp.
    + split_and!; [done|done|..]; apply list_elem_of_lookup_2 in Hp; apply idle_pool_sub in Hp;
        destruct (Hin p Hp) as (Hpa & Hfp & Hmin); [done|unfold fits; by rewrite <- Hreads|].
      intros q Hq Hfq. unfold loaded, fits in *. rewrite <- Hreads in Hfq by done.
      rewrite <- !Hreads by done. by apply Hmin.
    + exfalso. apply lookup_ge_None in Hp.
      pose proof (Nat.mod_upper_bound (pick (length (idle_pool l (least_loaded l counts accounts))))
        (length (idle_pool l (least_loaded l counts accounts)))) as Hb.
      assert (idle_pool l (least_loaded l counts accounts) <> []) as Hne
        by (apply idle_pool_nonempty; rewrite Eb; done).
      destruct (idle_pool l (least_loaded l counts accounts)); [done|]. cbn [length] in *. lia.
Qed.

Lemma deref_heap l l' p : heap l' = heap l -> deref l' p = deref l p.
Proof. intros Hh. unfold deref. by rewrite Hh. Qed.

(** The positions a run of windows covers, from the rotated start. *)
Definition position (start k : nat) (accounts : list loc) : loc :=
  nth ((start + k) mod length accounts) accounts 0%nat.

Lemma rotated_position start offset n accounts q :
  q ∈ rotated (start + offset) n accounts <->
  exists k, (offset <= k < offset + n)%nat /\ q = position start k accounts.
Proof.
  unfold rotated, position. rewrite list_elem_of_fmap. split.
  - intros (k & -> & Hk). apply list_elem_of_In, in_seq in Hk. exists (offset + k)%nat.
    split; [lia|]. by rewrite Nat.add_assoc.
  - intros (k & Hk & ->). exists (k - offset)%nat. split.
    + do 2 f_equal. lia.
    + apply list_elem_of_In, in_seq. lia.
Qed.

Lemma select_windows_spec fuel start offset accounts l :
  (length accounts <= offset + fuel)%nat -> accounts <> [] ->
  let '(o, l') := select_windows fuel now pick tracker start offset accounts l in
  heap l' = heap l /\
  match o with
  | Some p => exists window : list loc, (forall q, q ∈ window -> q ∈ accounts) /\ p ∈ window /\
      fits (deref l p) = true /\
      (forall q, q ∈ window -> fits (deref l q) = true ->
         f64_lt (loaded (deref l q)) (loaded (deref l p)) = false)
  | None => forall k, (offset <= k < length accounts)%nat ->
      fits (deref l (position start k accounts)) = false
  end.
Proof.
  revert offset l; induction fuel as [|fuel IH]; intros offset l Hf Hne; cbn [select_windows].
  { split; [done|]. intros k Hk. lia. }
  destruct (Nat.leb_spec (length accounts) offset) as [|Hlt]; [split; [done|]; intros k Hk; lia|].
  set (n := Nat.min accountScanWindow (length accounts - offset)).
  pose proof (select_window_spec (rotated (start + offset) n accounts) l) as Hw.
  destruct (select_window _ _ _ _ l) as [[p|] l1]; destruct Hw as (Hh & _ & Hw).
  - destruct Hw as (Hp & Hfp & Hmin). split; [done|].
    exists (rotated (start + offset) n accounts). split_and!; [|done..].
    intros q Hq. by eapply rotated_elem.
  - destruct Hw as [Hnone ->]. specialize (IH (offset + accountScanWindow)%nat l).
    unfold accountScanWindow in *.
    destruct (select_windows fuel _ _ _ _ _ _ l) as [o l2].
    destruct IH as [Hh2 IH]; [lia|done|]. split; [done|]. destruct o as [p|]; [done|].
    intros k Hk. destruct (decide (k < offset + 64)%nat).
    + apply Hnone, rotated_position. exists k. split; [|done]. subst n. lia.
    + apply IH. lia.
Qed.

Lemma position_covers start accounts q :
  q ∈ accounts -> (start < length accounts)%nat ->
  exists k, (k < length accounts)%nat /\ q = position start k accounts.
Proof.
  intros Hq Hs. apply list_elem_of_lookup in Hq as [i Hi].
  pose proof (lookup_lt_Some _ _ _ Hi) as Hlen.
  set (k := if decide (start <= i)%nat then (i - start)%nat else (i + length accounts - start)%nat).
  assert (Hk : (k < length accounts)%nat /\ ((start + k) mod length accounts)%nat = i).
  { subst k. case_decide; (split; [lia|]).
    - replace (start + (i - start))%nat with i by lia. by apply Nat.mod_small.
    - replace (start + (i + length accounts - start))%nat with (i + 1 * length accounts)%nat by lia.
      rewrite Nat.Div0.mod_add. by apply Nat.mod_small. }
  exists k. split; [apply Hk|]. unfold position. destruct Hk as [_ ->].
  symmetry. by apply nth_lookup_Some.
Qed.

(** The choice among candidates. *)
Lemma selectAccount_spec accounts l :
  accounts <> [] -> 0 <= scanCursor l ->
  let '(o, l') := selectAccountWithTracker now pick tracker accounts l in
  heap l' = heap l /\
  match o with
  | Some p => exists window : list loc, (forall q, q ∈ window -> q ∈ accounts) /\ p ∈ window /\
      ((length accounts <= accountScanWindow)%nat -> window = accounts) /\
      fits (deref l p) = true /\
      (forall q, q ∈ window -> fits (deref l q) = true ->
         f64_lt (loaded (deref l q)) (loaded (deref l p)) = false)
  | None => forall q, q ∈ accounts -> fits (deref l q) = false
  end.
Proof.
  intros Hne Hcur. unfold selectAccountWithTracker. destruct accounts as [|a0 rest] eqn:Ea; [done|].
  rewrite <- Ea in *. clear Ea a0 rest.
  destruct (Nat.ltb_spec accountScanWindow (length accounts)) as [Hlen|Hlen].
  - unfold rotateScanCursor. rewrite (proj2 (Nat.eqb_neq _ _)) by (by destruct accounts).
    set (start := Z.rem (scanCursor l) (Z.of_nat (length accounts))).
    assert (Hstart : (Z.to_nat start < length accounts)%nat).
    { subst start. pose proof (Z.rem_bound_pos (scanCursor l) (Z.of_nat (length accounts))). lia. }
    set (l0 := set_cursor l _).
    pose proof (select_windows_spec (length accounts) (Z.to_nat start) 0 accounts l0) as Hs.
    destruct (select_windows _ _ _ _ _ _ _ l0) as [o l1]. destruct Hs as [Hh Hs]; [lia|done|].
    split; [done|]. destruct o as [p|].
    + destruct Hs as (window & ? & ? & ? & ?). exists window. split_and!; [done|done|lia|done|done].
    + intros q Hq. destruct (position_covers (Z.to_nat start) accounts q Hq Hstart) as (k & Hk & ->).
      apply (Hs k). lia.
  - pose proof (select_window_spec accounts l) as Hs.
    destruct (select_window _ _ _ _ l) as [[p|] l1]; destruct Hs as (Hh & _ & Hs).
    + destruct Hs as (? & ? & ?). split; [done|]. exists accounts. by split_and!.
    + destruct Hs as [? ->]. by split.
Qed.
End Selection.

Lemma fits_cleared conns a0 a : cleared_from a0 a -> fits conns a = fits conns a0.
Proof.
  intros Hc. destruct (cleared_keeps a0 a Hc) as (Hid & _ & _ & _ & _ & Hlim).
  unfold fits, under_limit. by rewrite Hid, Hlim.
Qed.

Lemma getEnabled_cursor {S} `{AccountStoreOps S} now (w : World S) :
  scanCursor (lb (getEnabledAccounts now w).2) = scanCursor (lb w).
Proof.
  unfold getEnabledAccounts. destruct (cachedAccountsBefore _ _); [done|].
  by destruct (so_GetEnabledAccounts _).
Qed.

(** C2: whatever account a request is given, it was entitled to. The chosen
    account belongs to the channel's pool, was not excluded, was accepted by the
    caller's filter, is authorised, has passed its billing gate and is not held
    by its status when it was examined (never a refused credential, never a
    rate limit the account policy still holds); it has fewer requests in flight
    than its limit allows; and no other candidate of its window that is under its limit carries a
    smaller load for its weight. *)
Theorem selection_sound {S : Type} `{AccountStoreOps S} (now : Time) (pick : nat -> nat)
    (excludeIDs : list Z) (channel : string) (tracker : list Z -> gmap Z Z) (conns : Z -> Z)
    (flt : option (Account -> option rejection)) (w w' : World S) (p : loc) :
  (forall ids id, id ∈ ids -> default 0 (tracker ids !! id) = conns id) ->
  0 <= scanCursor (lb w) ->
  GetNextAccount now pick excludeIDs channel tracker flt w = (Ok p, w') ->
  exists s w1, getEnabledAccounts now w = (Ok s, w1) /\
    p ∈ channel_pool channel s (lb w1) /\
    (exists a, cleared_from (deref (lb w1) p) a /\ passed now excludeIDs channel flt a /\
       TrimSpace (StatusCode a) <> "401" /\
       (TrimSpace (StatusCode a) = "429" -> AccountHeld (Some a) now = false)) /\
    (let limit := EffectiveAccountConcurrencyLimit (Some (deref (lb w') p)) in
     0 < limit -> conns (ID (deref (lb w') p)) < limit) /\
    (exists window : list loc, p ∈ window /\
       forall q, q ∈ window -> q ∈ channel_pool channel s (lb w1) /\
         (fits conns (deref (lb w') q) = true ->
          f64_lt (loaded conns (deref (lb w') q)) (loaded conns (deref (lb w') p)) = false)).
Proof.
  intros Hreads Hcur Hnext. unfold GetNextAccount in Hnext.
  pose proof (getEnabled_cursor now w) as Hc1.
  destruct (getEnabledAccounts now w) as [[s|e] w1] eqn:Hg; [|done]. cbn [snd] in Hc1.
  exists s, w1. split; [done|].
  pose proof (scan_pool_spec now excludeIDs channel flt (channel_pool channel s (lb w1)) w1) as Hscan.
  destruct (scan_pool _ _ _ _ _ _) as [[t found] w2]. destruct Hscan as (_ & Hcur2 & _ & Hin).
  destruct found as [|f0 found]; [done|]. set (cands := f0 :: found) in *.
  pose proof (selectAccount_spec now pick tracker conns Hreads cands (lb w2)) as Hsel.
  destruct (selectAccountWithTracker _ _ _ _ _) as [[p'|] l']; [|done].
  injection Hnext as <- <-. destruct Hsel as (Hh & window & Hsub & Hpw & _ & Hfp & Hmin).
  { done. } { apply Hcur2. by rewrite Hc1. }
  destruct (Hin p' (Hsub p' Hpw)) as [Hpool Hpass]. cbn [lb set_lb].
  assert (Hd : forall q, deref l' q = deref (lb w2) q) by (intros q; by apply deref_heap).
  split_and!; [done| | |].
  { destruct Hpass as (a & Hcl & Hp). exists a.
    split; [done|]. split; [done|]. by apply (passed_usable now excludeIDs channel flt). }
  { rewrite Hd. by apply fits_limit. }
  exists window. split; [done|]. intros q Hq. rewrite !Hd.
  split; [by apply (Hin q), Hsub|by apply Hmin].
Qed.


(** A pool of one grok account, and of [n] accounts with one slot each. *)
Definition pool_db (n : nat) (limit : Z) : Db :=
  foldl (fun db i =>
    let id := Z.of_nat (i + 1) in
    write_row id (set_identity (sample_account id "grok" no_status)
      (mkIdentity id "" "grok" "" "" "" "" "" 1 limit true "" "")) true db) empty_db (seq 0 n).
Definition fresh (db : Db) : World Db := mkWorld (NewWithCacheTTL 0) db.
Definition idle (ids : list Z) : gmap Z Z := ∅.

Lemma idle_reads ids id : id ∈ ids -> default 0 (idle ids !! id) = 0.
Proof. done. Qed.

Lemma selection_sound_witness :
  (GetNextAccount 100 (fun _ => 0%nat) [] "grok" idle None (fresh (pool_db 2 1))).1 = Ok 0%nat /\
  exists a, passed 100 [] "grok" None a.
Proof.
  split; [by vm_compute|].
  destruct (selection_sound 100 (fun _ => 0%nat) [] "grok" idle (fun _ => 0) None
    (fresh (pool_db 2 1)) (GetNextAccount 100 (fun _ => 0%nat) [] "grok" idle None (fresh (pool_db 2 1))).2 0%nat)
    as (s & w1 & _ & _ & (a & _ & Hpass & _) & _); [exact idle_reads|done|by vm_compute|].
  by exists a.
Defined.


(** In a pool larger than the window the last case is weaker on purpose: the
    first sixty-four of sixty-five accounts are busy, the last is idle, and the
    selection still answers that all of them are at their limit. *)
Example window_hides_idle_account :
  let busy ids := foldl (fun m id => <[id := if id =? 65 then 0 else 1]> m) (∅ : gmap Z Z) ids in
  (GetNextAccount 100 (fun _ => 0%nat) [] "grok" busy None (fresh (pool_db 65 1))).1 =
  Err (at_limit_error "grok").
Proof. by vm_compute. Qed.

(** ** Freshness of the pool *)

Lemma append_channel_elem m key q p k :
  p ∈ default [] (append_channel m key q !! k) <-> p ∈ default [] (m !! k) \/ (p = q /\ k = key).
Proof.
  unfold append_channel. destruct (decide (key = k)) as [->|Hne].
  - rewrite lookup_insert_eq. cbn. rewrite elem_of_app, list_elem_of_singleton. naive_solver.
  - rewrite lookup_insert_ne by done. naive_solver.
Qed.

Lemma index_account_elem m q acc p k :
  p ∈ default [] (index_account m (q, acc) !! k) <->
  p ∈ default [] (m !! k) \/
  (p = q /\ k <> "" /\ (ToLower (AccountType acc) = k \/ ToLower (AgentMode acc) = k)).
Proof.
  unfold index_account.
  set (typ := ToLower (AccountType acc)). set (mode := ToLower (AgentMode acc)).
  destruct (String.eqb_spec typ "") as [Ht|Ht], (String.eqb_spec mode "") as [Hm|Hm],
    (String.eqb_spec mode typ) as [Hmt|Hmt]; cbn [negb andb];
    clearbody typ mode; rewrite ?append_channel_elem; split; intuition (subst; try done; auto).
Qed.

Lemma index_fold_elem es m p k :
  p ∈ default [] (foldl index_account m es !! k) <->
  p ∈ default [] (m !! k) \/
  exists acc : Account, (p, acc) ∈ es /\ k <> "" /\
    (ToLower (AccountType acc) = k \/ ToLower (AgentMode acc) = k).
Proof.
  revert m; induction es as [|[q acc] es IH]; intros m; cbn [foldl].
  - split; [by left|]. intros [?|(acc & Hin & _)]; [done|by apply elem_of_nil in Hin].
  - rewrite IH, index_account_elem. split.
    + intros [[?|(-> & ? & ?)]|(a & ? & ?)]; [by left|right; exists acc; split; [by left|done]|].
      right. exists a. split; [by right|done].
    + intros [?|(a & [[= -> ->]|Hin]%elem_of_cons & ?)]; [by left; left| |].
      * left. by right.
      * right. by exists a.
Qed.

(** The fresh pointers read the listed accounts, in order. *)
Lemma snapshot_lookup n (accounts : list Account) (h : gmap loc Account) p acc :
  (p, acc) ∈ zip (seq n (length accounts)) accounts ->
  (list_to_map (zip (seq n (length accounts)) accounts) ∪ h) !! p = Some acc.
Proof.
  intros Hin. apply lookup_union_Some_l, elem_of_list_to_map; [|done].
  rewrite fst_zip by (rewrite length_seq; lia). apply NoDup_seq.
Qed.

Lemma snapshot_deref n (accounts : list Account) (h : gmap loc Account) l :
  heap l = list_to_map (zip (seq n (length accounts)) accounts) ∪ h ->
  deref l <$> seq n (length accounts) = accounts.
Proof.
  intros Hh. apply list_eq. intros i. rewrite list_lookup_fmap.
  destruct (accounts !! i) as [acc|] eqn:Ha.
  - pose proof (lookup_lt_Some _ _ _ Ha) as Hlt. rewrite lookup_seq_lt by done. cbn. f_equal.
    unfold deref. rewrite Hh, (snapshot_lookup n accounts h (n + i) acc); [done|].
    apply list_elem_of_lookup. exists i. apply lookup_zip_Some. split; [by apply lookup_seq_lt|done].
  - apply lookup_ge_None in Ha. by rewrite lookup_seq_ge.
Qed.

(** A persisted change is seen by the very next selection. After
    [InvalidateAccounts] with a real id the cached snapshot is not used again,
    whatever its deadline was: the pool a selection works on is exactly what
    the store lists, in its order, and a channel's pool holds an account
    exactly when it is listed under that type or mode. *)
Theorem invalidated_pool_is_fresh {S : Type} `{AccountStoreOps S} (now : Time) (ids : list Z)
    (l : LB) (s0 : S) (accounts : list Account) (id : Z) :
  0 <= now -> id ∈ ids -> id <> 0 ->
  so_GetEnabledAccounts s0 = Ok accounts ->
  exists s w1, getEnabledAccounts now (mkWorld (InvalidateAccounts ids l) s0) = (Ok s, w1) /\
    st w1 = s0 /\ deref (lb w1) <$> slice_elems s = accounts /\
    cacheExpires (lb w1) = now + cacheTTL l /\
    (forall channel p, channel <> "" ->
       p ∈ channel_pool channel s (lb w1) <->
       p ∈ slice_elems s /\
       (ToLower (AccountType (deref (lb w1) p)) = ToLower channel \/
        ToLower (AgentMode (deref (lb w1) p)) = ToLower channel) /\ ToLower channel <> "").
Proof.
  intros Hnow Hid Hne Hstore.
  assert (Hl : exists l1, InvalidateAccounts ids l = l1 /\ cacheExpires l1 = zero_time /\
             cacheTTL l1 = cacheTTL l).
  { unfold InvalidateAccounts. assert (Hf : id ∈ filter (fun i => i <> 0) ids) by (by apply list_elem_of_filter).
    destruct (filter _ ids) as [|c cs]; [by apply elem_of_nil in Hf|].
    destruct (slice_elems _); eexists; (split; [reflexivity|done]). }
  destruct Hl as (l1 & -> & Hexp & Httl).
  unfold getEnabledAccounts. cbn [lb st].
  assert (Hc : cachedAccountsBefore l1 now = None).
  { unfold cachedAccountsBefore. rewrite Hexp. unfold Before, zero_time.
    rewrite (proj2 (Z.ltb_ge _ _) Hnow). by rewrite andb_false_r. }
  rewrite Hc, Hstore. cbn [load_snapshot].
  set (locs := seq (next_loc l1) (length accounts)).
  eexists _, _. split; [reflexivity|]. cbn [st set_lb lb slice_elems cacheExpires].
  set (l2 := mkLB _ _ _ _ _ _ _ _ _).
  assert (Hd : deref l2 <$> locs = accounts) by (by apply (snapshot_deref _ _ (heap l1))).
  split_and!; [done|done|by rewrite Httl|].
  intros channel p Hch. unfold channel_pool. rewrite (proj2 (String.eqb_neq _ _) Hch).
  cbn [cachedByChannel l2 cachedAccounts slice_elems slice_array]. rewrite !Nat.eqb_refl, orb_true_r.
  cbn [andb]. rewrite index_fold_elem, lookup_empty. cbn [default].
  assert (Hzip : forall acc, (p, acc) ∈ zip locs accounts <-> p ∈ locs /\ deref l2 p = acc).
  { intros acc. split.
    - intros Hin. split.
      + apply list_elem_of_lookup in Hin as [i Hi]. apply lookup_zip_Some in Hi as [Hi _].
        by apply list_elem_of_lookup_2 in Hi.
      + unfold deref. unfold l2 at 1. cbn [heap]. by rewrite (snapshot_lookup _ _ _ _ _ Hin).
    - intros [Hin <-]. apply list_elem_of_lookup in Hin as [i Hi].
      apply list_elem_of_lookup. exists i. apply lookup_zip_Some. split; [done|].
      rewrite <- Hd. rewrite list_lookup_fmap, Hi. done. }
  split.
  - intros [Hn|(acc & Hin & Hk & Hm)]; [by apply elem_of_nil in Hn|].
    apply Hzip in Hin as [Hin <-]. done.
  - intros (Hin & Hm & Hk). right. exists (deref l2 p). split_and!; [by apply Hzip|done|done].
Qed.

Lemma invalidated_pool_is_fresh_witness :
  exists s w1, getEnabledAccounts 5 (mkWorld (InvalidateAccounts [1]
     (lb (getEnabledAccounts 5 (fresh (pool_db 2 1))).2)) (pool_db 1 3)) = (Ok s, w1) /\
    length (slice_elems s) = 1%nat.
Proof.
  destruct (invalidated_pool_is_fresh 5 [1] (lb (getEnabledAccounts 5 (fresh (pool_db 2 1))).2)
    (pool_db 1 3) (match GetEnabledAccounts None (pool_db 1 3) with Ok l => l | Err _ => [] end) 1)
    as (s & w1 & Hg & _ & Hd & _); [done|by left|done|by vm_compute|].
  exists s, w1. split; [done|]. apply (f_equal length) in Hd. rewrite length_fmap in Hd.
  rewrite Hd. by vm_compute.
Defined.

(** ** Why a pool is empty *)
Section Tally.
Context {S : Type} `{AccountStoreOps S}.
Context (now : Time) (excludeIDs : list Z) (channel : string)
  (flt : option (Account -> option rejection)).

(** What one account that yields no candidate adds to the tally. *)
Definition account_tally (t : tally) (a : Account) : tally :=
  if existsb (Z.eqb (ID a)) excludeIDs then t
  else if negb (in_channel channel a) then t
  else match match flt with Some f => f a | None => None end with
       | Some r => count_reject r t
       | None => count_matched (TrimSpace (StatusCode a)) false t
       end.

Definition pool_tally (accs : list Account) : tally := foldl account_tally no_tally accs.

Lemma scan_one_tally t found (w : World S) p :
  let '(t', found', w') := scan_one now excludeIDs channel flt (t, found, w) p in
  found' = found -> t' = account_tally t (deref (lb w) p) /\ lb w' = lb w.
Proof.
  unfold scan_one, account_tally. destruct (existsb _ _); [done|]. destruct (negb _); [done|].
  destruct (match flt with Some f => f _ | None => None end); [done|].
  pose proof (available_spec now p w) as Hav. destruct (isAccountAvailable now p w) as [[] w'].
  - intros Heq. apply (f_equal length) in Heq. rewrite length_app in Heq. cbn in Heq. lia.
  - destruct Hav as (_ & Hno & _). destruct (Hno eq_refl) as [-> _]. done.
Qed.

Lemma scan_fold_tally ps t (w : World S) :
  let '(t', found', w') := foldl (scan_one now excludeIDs channel flt) (t, [], w) ps in
  found' = [] -> t' = foldl account_tally t (deref (lb w) <$> ps).
Proof.
  revert t w; induction ps as [|p ps IH]; intros t w; [done|]. cbn [foldl fmap list_fmap].
  pose proof (scan_one_tally t [] w p) as Hone.
  destruct (scan_one now excludeIDs channel flt (t, [], w) p) as [[t1 found1] w1].
  pose proof (scan_fold_spec now excludeIDs channel flt ps t1 found1 w1) as Hpre.
  destruct found1 as [|f found1].
  - destruct (Hone eq_refl) as [-> Hw]. specialize (IH (account_tally t (deref (lb w) p)) w1).
    by rewrite Hw in IH.
  - destruct (foldl _ _ ps) as [[t2 found2] w2]. destruct Hpre as (_ & [k ->] & _). done.
Qed.

Lemma scan_pool_tally accounts (w : World S) :
  let '(t, found, w') := scan_pool now excludeIDs channel flt accounts w in
  found = [] -> t = pool_tally (deref (lb w) <$> accounts).
Proof.
  unfold scan_pool, scan, pool_tally. destruct (_ <? _)%nat; [|apply scan_fold_tally].
  destruct (rotate_cursor (lb w) (length accounts)) as (c & start & -> & _).
  set (w0 := set_lb w (set_cursor (lb w) c)).
  pose proof (scan_fold_spec now excludeIDs channel flt (rotated start accountScanWindow accounts) no_tally [] w0) as H1.
  destruct (foldl _ _ (rotated _ _ _)) as [[t1 found1] w1]. destruct H1 as (_ & _ & Hs1 & _).
  destruct found1 as [|q found1]; [|done]. destruct (Hs1 eq_refl) as [Hw1 _].
  pose proof (scan_fold_tally accounts no_tally w1) as H2. by rewrite Hw1 in H2.
Qed.

(** The counters are consistent with each other. *)
Definition tally_ok (t : tally) : Prop :=
  0 <= rateLimitedUnavailable t /\ 0 <= allowanceParked t /\
  rateLimitedUnavailable t + allowanceParked t <= channelMatched t /\
  0 <= filterThrottled t /\ 0 <= filterUnavailable t /\
  filterThrottled t + filterUnavailable t <= filterWithheld t /\
  channelCandidates t = channelMatched t + filterWithheld t.

Lemma pool_tally_ok accs : tally_ok (pool_tally accs).
Proof.
  unfold pool_tally. assert (H0 : tally_ok no_tally) by (unfold tally_ok; cbn; lia). revert H0.
  generalize no_tally. induction accs as [|a accs IH]; intros t Ht; [done|]. apply IH.
  unfold account_tally. destruct (existsb _ _); [done|]. destruct (negb _); [done|].
  destruct (match flt with Some f => f a | None => None end) as [r|].
  - unfold tally_ok, count_reject in *. cbn. destruct r; cbn; lia.
  - unfold tally_ok, count_matched in *. cbn.
    destruct (String.eqb_spec (TrimSpace (StatusCode a)) "429") as [->|].
    + change (String.eqb "429" "402") with false. cbn. lia.
    + destruct (String.eqb _ "402"); cbn; lia.
Qed.
End Tally.

(** A text with two numerals in it: needles without digits are found in one of
    the three pieces. *)
Lemma Contains_numerals a n b m c needle :
  str_all (fun c => negb (digit_or_sign c)) needle = true -> needle <> "" ->
  Contains (a +:+ fmt_d n +:+ b +:+ fmt_d m +:+ c) needle =
  Contains a needle || Contains b needle || Contains c needle.
Proof.
  intros Hn Hne. rewrite (Contains_run_sep digit_or_sign) by
    (done || apply fmt_d_nonempty || apply fmt_d_digits).
  rewrite (Contains_run_sep digit_or_sign) by (done || apply fmt_d_nonempty || apply fmt_d_digits).
  by rewrite orb_assoc.
Qed.

Definition mixed_head (channel : string) : string :=
  no_accounts channel +:+ " (all matching accounts are rate-limited or cooling down: ".

(** The mixed sentence is read as a rate limit, whatever its two numbers. *)
Lemma mixed_pool_class channel n m :
  channel ∈ def_ID <$> definitions ->
  pool_Category (ClassifyPoolExhaustion
    (Some (mixed_head channel +:+ fmt_d n +:+ " rate-limited, " +:+ fmt_d m +:+
           " parked for a spent allowance)")) "") = "rate_limit".
Proof.
  intros Hc.
  assert (Hlow : ToLower (mixed_head channel +:+ fmt_d n +:+ " rate-limited, " +:+ fmt_d m +:+
                   " parked for a spent allowance)") =
                 mixed_head channel +:+ fmt_d n +:+ " rate-limited, " +:+ fmt_d m +:+
                   " parked for a spent allowance)").
  { assert (Hd : forall z, str_all ascii7 (fmt_d z) = true).
    { intros z. eapply str_all_impl; [apply digit_or_sign_ascii7|apply fmt_d_digits]. }
    rewrite ToLower_app by (apply list_elem_of_In in Hc; cbn in Hc;
      destruct Hc as [<-|[<-|[<-|[<-|[]]]]]; by vm_compute).
    rewrite ToLower_app by done. rewrite ToLower_app by done. rewrite ToLower_app by done.
    rewrite !(ToLower_digits (fmt_d _)) by apply fmt_d_digits. f_equal.
    apply list_elem_of_In in Hc; cbn in Hc; destruct Hc as [<-|[<-|[<-|[<-|[]]]]]; by vm_compute. }
  unfold ClassifyPoolExhaustion. rewrite Hlow. cbv zeta.
  change (ToLower (TrimSpace "")) with "". change (IsCreditExhaustion "") with false.
  cbn [existsb]. change (Contains "" _) with false.
  rewrite !Contains_numerals by done.
  apply list_elem_of_In in Hc; cbn in Hc.
  assert (Hrl : Contains (mixed_head channel +:+ fmt_d n +:+ " rate-limited, " +:+ fmt_d m +:+
                   " parked for a spent allowance)") "rate-limited or cooling down" = true).
  { apply Contains_app_l. destruct Hc as [<-|[<-|[<-|[<-|[]]]]]; by vm_compute. }
  rewrite Hrl. destruct Hc as [<-|[<-|[<-|[<-|[]]]]]; by vm_compute.
Qed.

Definition pool_category (channel : string) (t : tally) : string :=
  pool_Category (ClassifyPoolExhaustion (Some (empty_pool_error channel t)) "").

(** C27: an empty pool is explained by its cause. When a scan of a channel keeps no
    candidate, its counters are those of the whole pool in its present state,
    and the sentence built from them is classified as: the model is not
    available when a plan refusal withheld every matching account; a retryable
    rate limit when the request's filter withheld them otherwise, when all are
    throttled, or when some are throttled and the rest are parked; a spent quota
    only when every matching account is parked for its allowance; and no cause
    otherwise. *)
Theorem empty_pool_explained {S : Type} `{AccountStoreOps S} (now : Time) (excludeIDs : list Z)
    (channel : string) (flt : option (Account -> option rejection)) (accounts : list loc)
    (w w' : World S) (t : tally) :
  channel ∈ def_ID <$> definitions ->
  scan_pool now excludeIDs channel flt accounts w = (t, [], w') ->
  t = pool_tally excludeIDs channel flt (deref (lb w) <$> accounts) /\
  pool_category channel t =
    if (channelMatched t =? 0) && (0 <? channelCandidates t) then
      if filterUnavailable t =? channelCandidates t then "model_unavailable" else "rate_limit"
    else if (0 <? channelMatched t) && (allowanceParked t =? channelMatched t) then "quota_exhausted"
    else if (0 <? rateLimitedUnavailable t)
            && ((rateLimitedUnavailable t =? channelMatched t) || (0 <? allowanceParked t))
    then "rate_limit" else "".
Proof.
  intros Hc Hscan. pose proof (scan_pool_tally now excludeIDs channel flt accounts w) as Ht.
  rewrite Hscan in Ht. specialize (Ht eq_refl). split; [done|].
  pose proof (pool_tally_ok excludeIDs channel flt (deref (lb w) <$> accounts)) as Hok.
  rewrite <- Ht in Hok. clear Ht Hscan. destruct t as [cand matched rl parked withheld thr una].
  unfold tally_ok in Hok. cbn in Hok. destruct Hok as (Hrl & Hpk & Hle & Hthr & Huna & Hwh & Hcand).
  unfold pool_category, empty_pool_error. cbn [channelMatched channelCandidates filterUnavailable
    allowanceParked rateLimitedUnavailable filterThrottled filterWithheld].
  assert (Hne : negb (String.eqb channel "") = true).
  { apply list_elem_of_In in Hc. cbn in Hc. destruct Hc as [<-|[<-|[<-|[<-|[]]]]]; by vm_compute. }
  rewrite Hne. cbn [andb].
  assert (Hfix : forall suffix category,
    forallb (fun ch => String.eqb (pool_Category (ClassifyPoolExhaustion
      (Some (no_accounts ch +:+ suffix)) "")) category) (def_ID <$> definitions) = true ->
    pool_Category (ClassifyPoolExhaustion (Some (no_accounts channel +:+ suffix)) "") = category).
  { intros suffix category Hall. rewrite forallb_forall in Hall.
    apply String.eqb_eq, Hall. by apply list_elem_of_In. }
  assert (Hbare : pool_Category (ClassifyPoolExhaustion (Some (no_accounts channel)) "") = "").
  { rewrite <- (sapp_nil_r (no_accounts channel)). apply Hfix. by vm_compute. }
  destruct (Z.ltb_spec 0 cand) as [Hc0|Hc0], (Z.eqb_spec matched 0) as [Hm|Hm]; cbn [andb].
  - destruct (Z.eqb_spec una cand) as [Hu|Hu].
    + rewrite (proj2 (Z.ltb_lt 0 una)), (proj2 (Z.eqb_eq thr 0)), (proj2 (Z.eqb_eq una withheld)) by lia.
      apply Hfix. by vm_compute.
    + destruct ((0 <? una) && (thr =? 0) && (una =? withheld)) eqn:E; [bool_to_prop; lia|].
      destruct ((0 <? thr) && (0 <? una)); apply Hfix; by vm_compute.
  - rewrite (proj2 (Z.ltb_lt 0 matched)) by lia. cbn [andb].
    destruct (Z.eqb_spec rl matched) as [Hr|Hr].
    + rewrite (proj2 (Z.eqb_neq parked matched)), (proj2 (Z.ltb_lt 0 rl)) by lia. cbn [andb orb].
      apply Hfix. by vm_compute.
    + destruct (Z.eqb_spec parked matched) as [Hp|Hp]; [apply Hfix; by vm_compute|].
      cbn [orb]. rewrite (andb_comm (0 <? parked)).
      destruct ((0 <? rl) && (0 <? parked)); [|exact Hbare].
      pose proof (mixed_pool_class channel rl parked Hc) as Hmix. unfold mixed_head in Hmix.
      by rewrite sapp_assoc in Hmix.
  - rewrite (proj2 (Z.ltb_ge 0 matched)), (proj2 (Z.ltb_ge 0 rl)) by lia. cbn [andb].
    rewrite (proj2 (Z.ltb_ge 0 parked)) by lia. exact Hbare.
  - lia.
Qed.

(** Three throttled accounts and four parked for their allowance. *)
Definition outage_db : Db :=
  foldl (fun db i =>
    let id := Z.of_nat (i + 1) in
    let st := if (i <? 3)%nat then mkStatus "429" "" 1 "slow" 90 90 false (10 ^ 12)
              else mkStatus "402" "" 0 "spent" 90 90 false (10 ^ 12) in
    write_row id (sample_account id "workbuddy" st) true db) empty_db (seq 0 7).

Lemma empty_pool_explained_witness :
  let w := (getEnabledAccounts 100 (fresh outage_db)).2 in
  let t := mkTally 7 7 3 4 0 0 0 in
  (scan_pool 100 [] "workbuddy" None (seq 0 7) w).1 = (t, []) /\
  pool_category "workbuddy" t = "rate_limit".
Proof.
  split; [by vm_compute|].
  destruct (empty_pool_explained 100 [] "workbuddy" None (seq 0 7)
    (getEnabledAccounts 100 (fresh outage_db)).2
    (scan_pool 100 [] "workbuddy" None (seq 0 7) (getEnabledAccounts 100 (fresh outage_db)).2).2
    (mkTally 7 7 3 4 0 0 0)) as [_ ->];
    [by apply list_elem_of_In; vm_compute; tauto|by vm_compute|by vm_compute].
Defined.
