(* ===== verification/Pricing.v ===== *)
(** * Pricing (internal/pricing/pricing.go)

    The official price table, the resolution of a model name to its row, the cost
    of a finished request, the reservation of a starting one, and the breakdown
    an operator reads. Money is in integer USD ticks, 64 bits wide.

    A body reaches the reservation as the tokens [encoding/json]'s decoder yields
    for it: the sequence ends where the decoder would report an error or the end
    of the input. Go's anchored regular expressions are values of [re], matched
    by derivatives. *)

From Stdlib Require Import Ascii.
From stdpp Require Import base numbers list strings gmap.
From S2P Require Import Prelude GoLib.

Local Open Scope Z_scope.

(** ** Regular expressions *)
Inductive re :=
  | RVoid
  | REps
  | RClass (p : ascii -> bool)
  | RSeq (r1 r2 : re)
  | RAlt (r1 r2 : re)
  | RStar (r : re).

Fixpoint nullable (r : re) : bool :=
  match r with
  | RVoid | RClass _ => false
  | REps | RStar _ => true
  | RSeq r1 r2 => nullable r1 && nullable r2
  | RAlt r1 r2 => nullable r1 || nullable r2
  end.

Fixpoint deriv (a : ascii) (r : re) : re :=
  match r with
  | RVoid | REps => RVoid
  | RClass p => if p a then REps else RVoid
  | RSeq r1 r2 => if nullable r1 then RAlt (RSeq (deriv a r1) r2) (deriv a r2)
                  else RSeq (deriv a r1) r2
  | RAlt r1 r2 => RAlt (deriv a r1) (deriv a r2)
  | RStar r' => RSeq (deriv a r') (RStar r')
  end.

(** [^r$] on a name without line breaks. *)
Fixpoint MatchString (r : re) (s : string) : bool :=
  match s with
  | EmptyString => nullable r
  | String a s' => MatchString (deriv a r) s'
  end.

Fixpoint lit (s : string) : re :=
  match s with
  | EmptyString => REps
  | String a s' => RSeq (RClass (Ascii.eqb a)) (lit s')
  end.

(** [[a-z0-9.]] and [(?:-[a-z0-9.]+)*] *)
Definition name_byte (a : ascii) : bool :=
  let n := byte_of a in
  ((97 <=? n) && (n <=? 122) || (48 <=? n) && (n <=? 57) || (n =? 46))%nat.
Definition segments : re :=
  RStar (RSeq (lit "-") (RSeq (RClass name_byte) (RStar (RClass name_byte)))).

(** ** The price table *)
Record tokenPrice := mkTokenPrice {
  CanonicalModel : string;
  InputTicks : Z;
  CachedInputTicks : Z;
  OutputTicks : Z;
  LongContextTokens : Z;
  LongInputTicks : Z;
  LongCachedTicks : Z;
  LongOutputTicks : Z;
}.

Definition register (canonical : string) (price : tokenPrice) (names : list string)
    (prices : gmap string tokenPrice) : gmap string tokenPrice :=
  let price := mkTokenPrice canonical (InputTicks price) (CachedInputTicks price)
    (OutputTicks price) (LongContextTokens price) (LongInputTicks price)
    (LongCachedTicks price) (LongOutputTicks price) in
  foldl (fun prices name => <[name := price]> prices) (<[canonical := price]> prices) names.

Definition standard : tokenPrice := mkTokenPrice "" 12500 2000 25000 200000 25000 4000 50000.

Definition buildOfficialTokenPrices : gmap string tokenPrice :=
  register "grok-4.20-0309-non-reasoning" standard
    ["grok-4.20-non-reasoning"; "grok-4.20-non-reasoning-latest"; "grok-4.20-beta-non-reasoning";
     "grok-4.20-beta-latest-non-reasoning"]
  (register "grok-4.20-0309-reasoning" standard
    ["grok-4.20-reasoning-latest"; "grok-4.20"; "grok-4.20-reasoning"; "grok-4.20-0309";
     "grok-4.20-beta"; "grok-4.20-beta-0309"; "grok-4.20-beta-latest"; "grok-4.20-beta-reasoning";
     "grok-4.20-beta-latest-reasoning"]
  (register "grok-4.20-multi-agent-0309" standard
    ["grok-4.20-multi-agent"; "grok-4.20-multi-agent-latest"; "grok-4.20-multi-agent-beta-latest";
     "grok-4.20-multi-agent-beta-0309"]
  (register "grok-4.3" standard ["grok-4.3-latest"; "grok-latest"]
  (register "grok-4.5" (mkTokenPrice "" 20000 3000 60000 200000 40000 6000 120000)
    ["grok-4.5-latest"; "grok-build-latest"]
  (register "grok-4.6" (mkTokenPrice "" 20000 5000 60000 200000 40000 10000 120000)
    ["grok-4.6-latest"]
  (register "grok-build-0.1" (mkTokenPrice "" 10000 2000 20000 200000 20000 4000 40000)
    ["grok-code-fast-1"; "grok-code-fast"; "grok-code-fast-1-0825"; "grok-composer-2.5-fast"]
   ∅)))))).

Definition officialTokenPrices : gmap string tokenPrice := Eval vm_compute in buildOfficialTokenPrices.

Record tokenPriceRule := mkRule { Pattern : re; RuleModel : string }.

Definition officialTokenPriceRules : list tokenPriceRule :=
  [mkRule (RSeq (lit "grok-")
             (RSeq (RAlt (lit "build-0.1")
                   (RAlt (RSeq (lit "code-fast") (RAlt REps (lit "-1")))
                         (lit "composer-2.5-fast"))) segments)) "grok-build-0.1";
   mkRule (RSeq (lit "grok-4.6") segments) "grok-4.6";
   mkRule (RSeq (lit "grok-4.5") segments) "grok-4.5";
   mkRule (RSeq (lit "grok-4.3") segments) "grok-4.3";
   mkRule (RSeq (lit "grok-4.20-multi-agent") segments) "grok-4.20-multi-agent-0309";
   mkRule (RSeq (lit "grok-4.20") (RSeq segments (RSeq (lit "-non-reasoning") segments)))
     "grok-4.20-0309-non-reasoning";
   mkRule (RSeq (lit "grok-4.20") segments) "grok-4.20-0309-reasoning"].

Definition normalizePricingModel (model : string) : string :=
  let normalized := ToLower (TrimSpace model) in
  if HasPrefix normalized "build/" then TrimSpace (sdrop 6 normalized)
  else if HasPrefix normalized "grok_build/" then TrimSpace (sdrop 11 normalized)
  else normalized.

Fixpoint first_rule (rules : list tokenPriceRule) (normalized : string) : option tokenPrice :=
  match rules with
  | [] => None
  | rule :: rest => if MatchString (Pattern rule) normalized
                    then officialTokenPrices !! RuleModel rule
                    else first_rule rest normalized
  end.

Definition resolveOfficialTokenPrice (model : string) : option tokenPrice :=
  let normalized := normalizePricingModel model in
  match officialTokenPrices !! normalized with
  | Some price => Some price
  | None => first_rule officialTokenPriceRules normalized
  end.

(** ** EstimateCost *)
Record Result := mkResult { Model : string; CostInUSDTicks : Z }.

(** The rates of one request: the long-context column above the threshold. *)
Definition rates (price : tokenPrice) (inputTokens contextInputTokens : Z) : Z * Z * Z :=
  let contextTokens := if contextInputTokens <=? 0 then inputTokens else contextInputTokens in
  if (0 <? LongContextTokens price) && (LongContextTokens price <? contextTokens)
  then (LongInputTicks price, LongCachedTicks price, LongOutputTicks price)
  else (InputTicks price, CachedInputTicks price, OutputTicks price).

Definition EstimateCost (model : string)
    (inputTokens cachedInputTokens outputTokens contextInputTokens : Z) : option Result :=
  match resolveOfficialTokenPrice model with
  | None => None
  | Some price =>
      let '(inputPrice, cachedPrice, outputPrice) := rates price inputTokens contextInputTokens in
      let inputTokens := Z.max 0 inputTokens in
      let cachedTokens := Z.max 0 (Z.min cachedInputTokens inputTokens) in
      let uncachedTokens := Z.max 0 (inputTokens - cachedTokens) in
      let outputTokens := Z.max 0 outputTokens in
      Some (mkResult (CanonicalModel price)
        (wrap64 (uncachedTokens * inputPrice + cachedTokens * cachedPrice
                 + outputTokens * outputPrice)))
  end.

(** ** ReconstructBreakdown *)
Inductive ComponentKind := ComponentUncachedInput | ComponentCachedInput | ComponentOutput
  | ComponentInputImage | ComponentOutputImage | ComponentOutputSecond.
Inductive Unit_ := UnitToken | UnitImage | UnitSecond.

Record Component := mkComponent {
  c_Kind : ComponentKind;
  c_Unit : Unit_;
  c_Quantity : Z;
  c_UnitPriceInUSDTicks : Z;
  c_CostInUSDTicks : Z;
}.
Record Breakdown := mkBreakdown {
  b_Model : string;
  b_CostInUSDTicks : Z;
  b_Components : list Component;
}.

Definition add (kind : ComponentKind) (unit_ : Unit_) (quantity unitPrice : Z) (b : Breakdown)
    : Breakdown :=
  if (quantity <=? 0) || (unitPrice <=? 0) then b
  else
    let cost := wrap64 (quantity * unitPrice) in
    mkBreakdown (b_Model b) (wrap64 (b_CostInUSDTicks b + cost))
      (b_Components b ++ [mkComponent kind unit_ quantity unitPrice cost]).

Record Quantities := mkQuantities {
  q_InputTokens : Z;
  q_CachedTokens : Z;
  q_OutputTokens : Z;
  q_ContextTokens : Z;
  q_InputImages : Z;
  q_OutputImages : Z;
  q_OutputSeconds : Z;
  q_Characters : Z;
  q_StreamingSeconds : float64;
}.

Definition ReconstructBreakdown (model : string) (q : Quantities) : Breakdown * bool :=
  let normalized := normalizePricingModel model in
  match resolveOfficialTokenPrice normalized with
  | None => (mkBreakdown "" 0 [], false)
  | Some price =>
      let '(inputPrice, cachedPrice, outputPrice) :=
        rates price (q_InputTokens q) (q_ContextTokens q) in
      let cached := Z.max 0 (Z.min (q_CachedTokens q) (q_InputTokens q)) in
      let uncached := Z.max 0 (q_InputTokens q - cached) in
      let b := add ComponentOutput UnitToken (Z.max 0 (q_OutputTokens q)) outputPrice
              (add ComponentCachedInput UnitToken cached cachedPrice
              (add ComponentUncachedInput UnitToken uncached inputPrice
                 (mkBreakdown normalized 0 []))) in
      (b, 0 <? b_CostInUSDTicks b)
  end.

(** ** scanReservationJSON

    A decoded token: a delimiter, a string (also an object's key), a number with
    its text, a boolean or null. *)
Inductive token :=
  | TOpenObject | TCloseObject | TOpenArray | TCloseArray
  | TString (s : string) | TNumber (text : string) | TBool | TNull.

(** [decoder.More]. *)
Definition More (toks : list token) : bool :=
  match toks with
  | [] | TCloseObject :: _ | TCloseArray :: _ => false
  | _ => true
  end.

(** [json.Number.Int64]: [strconv.ParseInt] of the number's text, base 10. *)
Definition digit (a : ascii) : option Z :=
  let n := Z.of_nat (byte_of a) in if (48 <=? n) && (n <=? 57) then Some (n - 48) else None.
Fixpoint digits (acc : Z) (s : string) : option Z :=
  match s with
  | EmptyString => Some acc
  | String a s' => match digit a with Some d => digits (10 * acc + d) s' | None => None end
  end.
Definition ParseInt (s : string) : option Z :=
  let parse (neg : bool) (body : string) :=
    if String.eqb body "" then None
    else match digits 0 body with
         | None => None
         | Some n => let z := if neg then - n else n in
                     if (min_int64 <=? z) && (z <=? max_int64) then Some z else None
         end in
  match s with
  | String a rest =>
      if Ascii.eqb a "-" then parse true rest
      else if Ascii.eqb a "+" then parse false rest else parse false s
  | EmptyString => None
  end.

Definition defaultOutputTokens : Z := 16384.
Definition maximumOutputTokens : Z := 131072.

(** [isValidNumber]: the numbers [json.Number] accepts from a quoted text. *)
Definition is_digit (a : ascii) : bool := match digit a with Some _ => true | None => false end.
Definition isValidNumber (s : string) : bool :=
  let digits1 := RSeq (RClass is_digit) (RStar (RClass is_digit)) in
  let opt r := RAlt REps r in
  MatchString
    (RSeq (opt (lit "-"))
      (RSeq (RAlt (lit "0") (RSeq (RClass (fun a => is_digit a && negb (Ascii.eqb a "0")))
                                  (RStar (RClass is_digit))))
        (RSeq (opt (RSeq (lit ".") digits1))
              (opt (RSeq (RClass (contains_byte "eE"))
                         (RSeq (opt (RClass (contains_byte "+-"))) digits1)))))) s.

(** What the walk has seen of the top object. *)
Record scan_state := mkScan { sc_model : string; sc_output : list Z }.
Definition scan_start : scan_state := mkScan "" [0; 0; 0].

Definition len3 (s : string) : Z := (Z.of_nat (String.length s) + 2) / 3.
Definition string_cost (s : string) : Z :=
  let trimmed := TrimSpace s in
  if HasPrefix trimmed "data:image/" || HasPrefix trimmed "data:video/" then 256
  else Z.max 1 (len3 s).

Definition output_priority (key : string) : option nat :=
  if String.eqb key "max_output_tokens" then Some 0%nat
  else if String.eqb key "max_completion_tokens" then Some 1%nat
  else if String.eqb key "max_tokens" then Some 2%nat
  else None.

Definition record_output (priority : nat) (text : string) (st : scan_state) : scan_state :=
  match ParseInt text with
  | Some value => if 0 <? value
                  then mkScan (sc_model st) (<[priority := Z.min value maximumOutputTokens]> (sc_output st))
                  else st
  | None => st
  end.

(** Where the walk stands: before a value, or inside the members of an object or
    the elements of an array with the tokens counted so far. *)
Inductive position :=
  | AtValue (top : bool)
  | InObject (top : bool) (total : Z)
  | InArray (total : Z).

(** The count and the tokens left; [None] is a decoding error (or spent fuel). *)
Fixpoint walk (fuel : nat) (at_ : position) (toks : list token) (st : scan_state)
    : option (Z * list token) * scan_state :=
  match fuel with
  | O => (None, st)
  | S fuel' =>
      match at_ with
      | AtValue top =>
          match toks with
          | TOpenObject :: rest => walk fuel' (InObject top 0) rest st
          | TOpenArray :: rest => walk fuel' (InArray 0) rest st
          | TString s :: rest => (Some (string_cost s, rest), st)
          | TNumber _ :: rest | TBool :: rest => (Some (1, rest), st)
          | TNull :: rest => (Some (0, rest), st)
          | [] | TCloseObject :: _ | TCloseArray :: _ => (None, st)
          end
      | InObject top total =>
          match toks with
          | TCloseObject :: rest => (Some (total, rest), st)
          | TString key :: rest =>
              let total := total + (len3 key + 1) in
              if top && String.eqb key "model" then
                match rest with
                | TString value :: rest' =>
                    walk fuel' (InObject top (total + Z.max 1 (len3 value))) rest'
                      (mkScan (TrimSpace value) (sc_output st))
                | TNull :: rest' =>
                    walk fuel' (InObject top (total + 1)) rest' (mkScan "" (sc_output st))
                | _ => (None, st)
                end
              else
                match (if top then output_priority key else None) with
                | Some priority =>
                    match rest with
                    | TNumber text :: rest' =>
                        walk fuel' (InObject top (total + 1)) rest' (record_output priority text st)
                    | TString text :: rest' =>
                        if isValidNumber text
                        then walk fuel' (InObject top (total + 1)) rest'
                               (record_output priority text st)
                        else (None, st)
                    | TNull :: rest' => walk fuel' (InObject top (total + 1)) rest' st
                    | _ => (None, st)
                    end
                | None =>
                    match walk fuel' (AtValue false) rest st with
                    | (None, st) => (None, st)
                    | (Some (child, rest'), st) =>
                        walk fuel' (InObject top (total + child)) rest' st
                    end
                end
          | _ => (None, st)
          end
      | InArray total =>
          if More toks then
            match walk fuel' (AtValue false) toks st with
            | (None, st) => (None, st)
            | (Some (child, rest'), st) => walk fuel' (InArray (total + (1 + child))) rest' st
            end
          else match toks with
               | TCloseArray :: rest => (Some (total, rest), st)
               | _ => (None, st)
               end
      end
  end.

Definition first_positive (values : list Z) : Z :=
  default defaultOutputTokens (head (filter (fun v => 0 < v) values)).

(** [body]: the length of the text and its tokens. *)
Record Body := mkBody { body_len : Z; body_tokens : list token }.

Definition scanReservationJSON (body : Body) : string * Z * Z * bool :=
  match walk (2 * length (body_tokens body) + 2) (AtValue true) (body_tokens body) scan_start with
  | (None, st) => (sc_model st, Z.max 256 ((body_len body + 2) / 3), defaultOutputTokens, false)
  | (Some (tokens, _), st) =>
      (sc_model st, Z.max 256 (tokens + 128), first_positive (sc_output st), true)
  end.

Definition EstimateTextReservationFromBody (body : Body) : option Result :=
  let '(model, inputTokens, outputTokens, _) := scanReservationJSON body in
  if String.eqb (TrimSpace model) "" then None
  else match resolveOfficialTokenPrice model with
       | None => None
       | Some _ => EstimateCost model inputTokens 0 outputTokens inputTokens
       end.

(** ** Lemmas: matching *)
Inductive lang : re -> string -> Prop :=
  | lang_eps : lang REps ""
  | lang_class p a : p a = true -> lang (RClass p) (String a "")
  | lang_seq r1 r2 s1 s2 : lang r1 s1 -> lang r2 s2 -> lang (RSeq r1 r2) (s1 +:+ s2)
  | lang_alt_l r1 r2 s : lang r1 s -> lang (RAlt r1 r2) s
  | lang_alt_r r1 r2 s : lang r2 s -> lang (RAlt r1 r2) s
  | lang_star_nil r : lang (RStar r) ""
  | lang_star_app r s1 s2 : lang r s1 -> lang (RStar r) s2 -> lang (RStar r) (s1 +:+ s2).
#[local] Hint Constructors lang : core.

Lemma nullable_lang r : nullable r = true -> lang r "".
Proof.
  induction r; cbn; intros Hn; try done; eauto.
  - apply andb_true_iff in Hn as [H1 H2]. change "" with ("" +:+ ""). eauto.
  - apply orb_true_iff in Hn as [H1|H2]; eauto.
Qed.

Lemma deriv_lang a r : forall s, lang (deriv a r) s -> lang r (String a s).
Proof.
  induction r as [| |p|r1 IH1 r2 IH2|r1 IH1 r2 IH2|r IH]; cbn; intros s Hs.
  - inversion Hs.
  - inversion Hs.
  - destruct (p a) eqn:E; inversion Hs. eauto.
  - assert (Hseq : forall s, lang (RSeq (deriv a r1) r2) s -> lang (RSeq r1 r2) (String a s)).
    { intros s' H'. inversion H'; subst. apply (lang_seq r1 r2 (String a s1)); eauto. }
    destruct (nullable r1) eqn:E; [|by apply Hseq].
    inversion Hs; subst; [by apply Hseq|].
    apply (lang_seq r1 r2 ""); [by apply nullable_lang|by apply IH2].
  - inversion Hs; subst; eauto.
  - inversion Hs; subst. apply (lang_star_app r (String a s1)); eauto.
Qed.

Lemma MatchString_lang s : forall r, MatchString r s = true -> lang r s.
Proof.
  induction s as [|a s IH]; cbn; intros r Hm; [by apply nullable_lang|].
  by apply deriv_lang, IH.
Qed.

(** The bytes an expression can match all satisfy [P]. *)
Fixpoint over (P : ascii -> Prop) (r : re) : Prop :=
  match r with
  | RVoid | REps => True
  | RClass p => forall a, p a = true -> P a
  | RSeq r1 r2 | RAlt r1 r2 => over P r1 /\ over P r2
  | RStar r => over P r
  end.

Lemma lang_over (P : ascii -> bool) r s :
  lang r s -> over (fun a => P a = true) r -> str_all P s = true.
Proof.
  induction 1; cbn; intros Ho; try done.
  - by rewrite Ho.
  - destruct Ho. rewrite str_all_app, IHlang1, IHlang2; done.
  - by apply IHlang, Ho.
  - by apply IHlang, Ho.
  - rewrite str_all_app, IHlang1, IHlang2; done.
Qed.

Lemma lang_lit p r s : lang (RSeq (lit p) r) s -> exists q, s = p +:+ q /\ lang r q.
Proof.
  intros H. inversion H as [| |? ? s1 s2 H1 H2| | | |]; subst. clear H. exists s2. split; [|done].
  f_equal. revert s1 H1. induction p as [|c p IH]; cbn; intros s1 H1; inversion H1 as [| |? ? t1 t2 Ht1 Ht2| | | |]; subst.
  - done.
  - inversion Ht1 as [|? a Ha| | | | |]; subst. apply Ascii.eqb_eq in Ha as ->. cbn. f_equal. by apply IH.
Qed.

(** ** Lemmas: the table *)
Definition row_ok (price : tokenPrice) : bool :=
  (0 <? CachedInputTicks price) && (CachedInputTicks price <=? InputTicks price)
  && (InputTicks price <=? LongInputTicks price) && (CachedInputTicks price <=? LongCachedTicks price)
  && (LongCachedTicks price <=? LongInputTicks price) && (LongInputTicks price <=? 40000)
  && (0 <? OutputTicks price) && (OutputTicks price <=? LongOutputTicks price)
  && (LongOutputTicks price <=? 120000) && (LongContextTokens price =? 200000).

Definition name_ok (name : string) : bool :=
  HasPrefix name "grok-" && str_all plain_byte name.

Lemma table_ok name price :
  officialTokenPrices !! name = Some price -> name_ok name = true /\ row_ok price = true.
Proof.
  intros Hl%elem_of_map_to_list.
  assert (Hall : forallb (fun '(n, p) => name_ok n && row_ok p) (map_to_list officialTokenPrices) = true)
    by by vm_compute.
  rewrite forallb_forall in Hall. apply list_elem_of_In in Hl. apply Hall in Hl.
  by apply andb_true_iff in Hl.
Qed.

Lemma lit_over (P : ascii -> bool) s : str_all P s = true -> over (fun a => P a = true) (lit s).
Proof.
  induction s as [|a s IH]; cbn; [done|]. intros [Ha Hs]%andb_true_iff.
  split; [|by apply IH]. intros b Hb. apply Ascii.eqb_eq in Hb. by subst.
Qed.

Lemma name_byte_plain a : name_byte a = true -> plain_byte a = true.
Proof.
  unfold name_byte, plain_byte.
  rewrite !orb_true_iff, !andb_true_iff, negb_true_iff, andb_false_iff, !Nat.leb_le, !Nat.leb_gt, Nat.eqb_eq.
  lia.
Qed.

Lemma segments_over : over (fun a => plain_byte a = true) segments.
Proof.
  cbn [segments over]. split; [by apply lit_over|]. split; apply name_byte_plain.
Qed.

Lemma rules_ok :
  Forall (fun rule => (exists p r, Pattern rule = RSeq (lit p) r /\ HasPrefix p "grok-" = true) /\
            over (fun a => plain_byte a = true) (Pattern rule)) officialTokenPriceRules.
Proof.
  repeat (apply Forall_cons; split; [split; [by eexists _, _|]|]); [..|done];
    cbn [Pattern over]; split_and!; try apply segments_over; try done; by apply lit_over.
Qed.

Lemma HasPrefix_trans a b c : HasPrefix a b = true -> HasPrefix b c = true -> HasPrefix a c = true.
Proof.
  intros [q ->]%HasPrefix_spec [q' ->]%HasPrefix_spec. apply HasPrefix_spec. exists (q' +:+ q).
  by rewrite sapp_assoc.
Qed.

Lemma first_rule_ok rules name price :
  Forall (fun rule => (exists p r, Pattern rule = RSeq (lit p) r /\ HasPrefix p "grok-" = true) /\
            over (fun a => plain_byte a = true) (Pattern rule)) rules ->
  first_rule rules name = Some price -> name_ok name = true /\ row_ok price = true.
Proof.
  induction rules as [|rule rules IH]; cbn; [done|]. intros [((p & r & Hp & Hg) & Ho) Hr]%Forall_cons.
  destruct (MatchString _ _) eqn:E; [|by apply IH]. intros Hl.
  apply MatchString_lang in E. split; [|by apply (table_ok (RuleModel rule))].
  unfold name_ok. apply andb_true_iff. split; [|by apply (lang_over _ _ _ E)].
  rewrite Hp in E. apply lang_lit in E as (q & -> & _).
  eapply HasPrefix_trans; [|exact Hg]. apply HasPrefix_spec. by exists q.
Qed.

Lemma resolved_ok model price :
  resolveOfficialTokenPrice model = Some price ->
  name_ok (normalizePricingModel model) = true /\ row_ok price = true.
Proof.
  unfold resolveOfficialTokenPrice. destruct (officialTokenPrices !! _) as [p|] eqn:E.
  - intros [= ->]. by apply table_ok in E.
  - apply first_rule_ok, rules_ok.
Qed.

Lemma name_normal name : name_ok name = true -> normalizePricingModel name = name.
Proof.
  intros [Hp Hs]%andb_true_iff. unfold normalizePricingModel.
  rewrite TrimSpace_plain, ToLower_plain by done.
  apply HasPrefix_spec in Hp as [q ->]. done.
Qed.

Lemma resolve_normalized model price :
  resolveOfficialTokenPrice model = Some price ->
  resolveOfficialTokenPrice (normalizePricingModel model) = Some price.
Proof.
  intros Hr. pose proof (resolved_ok _ _ Hr) as [Hn _]. unfold resolveOfficialTokenPrice in *.
  by rewrite (name_normal _ Hn).
Qed.

(** ** Lemmas: the breakdown *)
Definition explained (b : Breakdown) : Prop :=
  b_CostInUSDTicks b = wrap64 (sumZ c_CostInUSDTicks (b_Components b)) /\
  Forall (fun c => 0 < c_Quantity c /\ 0 < c_UnitPriceInUSDTicks c /\
            c_CostInUSDTicks c = wrap64 (c_Quantity c * c_UnitPriceInUSDTicks c)) (b_Components b).

Lemma add_explained kind unit_ quantity price b :
  explained b -> explained (add kind unit_ quantity price b).
Proof.
  intros [Hc Hf]. unfold add. destruct (_ || _) eqn:E; [done|]. bool_to_prop.
  split; cbn [b_CostInUSDTicks b_Components].
  - rewrite sumZ_app, Hc, wrap64_add_l. cbn. by rewrite Z.add_0_r.
  - apply Forall_app; split; [done|]. apply Forall_singleton. cbn. lia.
Qed.

Lemma add_cost kind unit_ quantity price b x :
  0 <= quantity -> 0 < price -> b_CostInUSDTicks b = wrap64 x ->
  b_CostInUSDTicks (add kind unit_ quantity price b) = wrap64 (x + quantity * price).
Proof.
  intros Hq Hp Hb. unfold add. destruct (_ || _) eqn:E; cbn.
  - apply orb_true_iff in E as [?%Z.leb_le|?%Z.leb_le]; [|lia]. replace quantity with 0 by lia.
    by rewrite Z.mul_0_l, Z.add_0_r.
  - by rewrite Hb, wrap64_add_l, wrap64_add_r.
Qed.

Lemma rates_ok price i c :
  row_ok price = true ->
  let '(inputPrice, cachedPrice, outputPrice) := rates price i c in
  0 < cachedPrice <= inputPrice /\ inputPrice <= 40000 /\ 0 < outputPrice <= 120000.
Proof.
  unfold row_ok, rates. rewrite !andb_true_iff, !Z.leb_le, !Z.ltb_lt, Z.eqb_eq. intros H.
  destruct (_ && _); cbn; lia.
Qed.

(** The components an operator reads explain the charge: whenever a request is
    priced, its reconstructed breakdown totals exactly the ticks it was charged
    (64-bit wrap-around included), every component is a positive quantity times
    a positive rate, and the components add up to the total; the breakdown is
    refused only for a charge that is not positive. *)
Theorem breakdown_explains_cost (model : string) (q : Quantities) (r : Result) :
  EstimateCost model (q_InputTokens q) (q_CachedTokens q) (q_OutputTokens q)
    (q_ContextTokens q) = Some r ->
  let '(b, ok) := ReconstructBreakdown model q in
  b_CostInUSDTicks b = CostInUSDTicks r /\ explained b /\
  ok = (0 <? CostInUSDTicks r) /\ b_Model b = normalizePricingModel model.
Proof.
  unfold EstimateCost, ReconstructBreakdown.
  destruct (resolveOfficialTokenPrice model) as [price|] eqn:Hr; [|done].
  rewrite (resolve_normalized _ _ Hr). pose proof (resolved_ok _ _ Hr) as [_ Hrow].
  pose proof (rates_ok price (q_InputTokens q) (q_ContextTokens q) Hrow) as Hrates.
  destruct (rates _ _ _) as [[ip cp] op]. intros [= <-]. cbn [CostInUSDTicks].
  set (i := q_InputTokens q) in *. set (c := q_CachedTokens q).
  replace (Z.max 0 (Z.min c (Z.max 0 i))) with (Z.max 0 (Z.min c i)) by lia.
  replace (Z.max 0 (Z.max 0 i - Z.max 0 (Z.min c i))) with (Z.max 0 (i - Z.max 0 (Z.min c i))) by lia.
  set (b := add ComponentOutput _ _ _ _).
  assert (Hcost : b_CostInUSDTicks b = wrap64 (Z.max 0 (i - Z.max 0 (Z.min c i)) * ip
            + Z.max 0 (Z.min c i) * cp + Z.max 0 (q_OutputTokens q) * op)).
  { subst b. repeat (apply add_cost; [lia|lia|]). by rewrite (add_cost _ _ _ _ _ 0) by (lia || done). }
  split_and!; [done| |by rewrite Hcost|].
  - subst b. do 3 apply add_explained. split; [done|constructor].
  - subst b. unfold add. by repeat case_match.
Qed.

(** ** Lemmas: the scan of a body *)
Definition size (t : token) : Z :=
  match t with TString s => 1 + Z.of_nat (String.length s) | _ => 1 end.
Definition sizes (toks : list token) : Z := sumZ size toks.

Definition base (at_ : position) : Z :=
  match at_ with AtValue _ => 0 | InObject _ total | InArray total => total end.
Definition outputs_ok (st : scan_state) : Prop :=
  Forall (fun v => 0 <= v <= maximumOutputTokens) (sc_output st).

Lemma len3_bound s : 0 <= len3 s <= Z.of_nat (String.length s) + 1.
Proof. unfold len3. Z.div_mod_to_equations. lia. Qed.

Lemma string_cost_bound s : 1 <= string_cost s <= 256 + Z.of_nat (String.length s).
Proof. unfold string_cost. pose proof (len3_bound s). destruct (_ || _); lia. Qed.

Lemma record_output_ok priority text st : outputs_ok st -> outputs_ok (record_output priority text st).
Proof.
  unfold record_output, outputs_ok. intros Hst. destruct (ParseInt text); [|done].
  destruct (0 <? z) eqn:E; [|done]. bool_to_prop. cbn. apply Forall_insert; [done|].
  unfold maximumOutputTokens. lia.
Qed.

(** What a completed walk has consumed and counted. *)
Definition walked (at_ : position) (toks : list token) (st : scan_state)
    (r : option (Z * list token) * scan_state) : Prop :=
  (outputs_ok st -> outputs_ok r.2) /\
  match r.1 with
  | None => True
  | Some (n, rest) =>
      base at_ <= n /\ (length rest < length toks)%nat /\
      n + 257 * sizes rest + match at_ with AtValue _ => 1 | _ => 0 end <= base at_ + 257 * sizes toks
  end.

Lemma walked_next at_ at' toks toks' st st' r :
  walked at' toks' st' r -> (outputs_ok st -> outputs_ok st') ->
  (length toks' <= length toks)%nat -> base at_ <= base at' ->
  base at' + 257 * sizes toks' + 1 <= base at_ + 257 * sizes toks ->
  walked at_ toks st r.
Proof.
  intros [Ho Hr] Hst Hlen Hb Hs. split; [auto|]. destruct r as [[[n rest]|] st'']; [|done].
  cbn in *. destruct at_, at'; lia.
Qed.

Lemma sizes_cons t toks : sizes (t :: toks) = size t + sizes toks.
Proof. done. Qed.

(** The arithmetic of one step: the tokens consumed pay for the count. *)
Ltac measure := intros; cbn [base length fst snd]; rewrite ?sizes_cons; cbn [size]; lia.

Lemma walk_walked fuel : forall at_ toks st, walked at_ toks st (walk fuel at_ toks st).
Proof.
  induction fuel as [|fuel IH]; intros at_ toks st; [by split|].
  assert (Hchild : forall at' total toks' st', base at' = total ->
            (outputs_ok st -> outputs_ok st') -> (length toks' <= length toks)%nat ->
            (forall top, at_ <> AtValue top) -> base at_ <= total ->
            total + 257 * sizes toks' <= base at_ + 257 * sizes toks ->
            forall cont : Z -> position, (forall n, total + n <= base (cont n) <= total + n + 1) ->
            (forall n top, cont n <> AtValue top) ->
            walked at_ toks st
              (match walk fuel (AtValue false) toks' st' with
               | (None, st) => (None, st)
               | (Some (child, rest'), st) => walk fuel (cont child) rest' st
               end)).
  { intros at' total toks' st' _ Hst Hlen Hno Hb Hs cont Hcont Hcno.
    pose proof (IH (AtValue false) toks' st') as [Ho Hr].
    destruct (walk fuel (AtValue false) toks' st') as [[[child rest]|] st1]; cbn in Ho, Hr;
      [|by split; [auto|]].
    destruct Hr as (Hn & Hl & Hsz). pose proof (IH (cont child) rest st1) as [Ho' Hr'].
    split; [auto|]. specialize (Hcont child). destruct (walk fuel (cont child) rest st1) as [[[n rest']|] st2]; [|done].
    cbn in *. destruct (cont child) eqn:Ec; [by edestruct Hcno| |];
      destruct at_; [by edestruct Hno| | |by edestruct Hno| |]; lia. }
  destruct at_ as [top|top total|total]; cbn [walk].
  - destruct toks as [|[] toks]; try by split.
    + eapply walked_next; [apply IH|done|measure..].
    + eapply walked_next; [apply IH|done|measure..].
    + split; [done|]. pose proof (string_cost_bound s). measure.
    + split; [done|]. measure.
    + split; [done|]. measure.
    + split; [done|]. measure.
  - destruct toks as [|[] toks]; try by split.
    { split; [done|]. measure. }
    pose proof (len3_bound s) as Hkey. cbv zeta. destruct (top && String.eqb s "model").
    { destruct toks as [|[] toks]; try by split.
      - pose proof (len3_bound s0). eapply walked_next; [apply IH|done|measure..].
      - eapply walked_next; [apply IH|done|measure..]. }
    destruct (if top then output_priority s else None) as [priority|].
    { destruct toks as [|[] toks]; try by split.
      - destruct (isValidNumber s0); [|by split].
        eapply walked_next; [apply IH|apply record_output_ok|measure..].
      - eapply walked_next; [apply IH|apply record_output_ok|measure..].
      - eapply walked_next; [apply IH|done|measure..]. }
    apply (Hchild (InObject top (total + (len3 s + 1))) (total + (len3 s + 1)) toks st
             ltac:(done) ltac:(done) ltac:(measure) ltac:(done) ltac:(measure) ltac:(measure)
             (fun n => InObject top (total + (len3 s + 1) + n))); [measure|done].
  - destruct (More toks) eqn:Hm.
    + apply (Hchild (InArray total) total toks st ltac:(done) ltac:(done) ltac:(done) ltac:(done)
               ltac:(measure) ltac:(measure) (fun n => InArray (total + (1 + n)))); [measure|done].
    + destruct toks as [|[] toks]; try by split. split; [done|]. measure.
Qed.

(** The fuel a position needs: twice the tokens left, and one more. *)
Definition need (at_ : position) (toks : list token) : nat :=
  match at_ with InArray _ => 2 * length toks + 2 | _ => 2 * length toks + 1 end.

Lemma walk_fuel f : forall at_ toks st f',
  (need at_ toks <= f)%nat -> (need at_ toks <= f')%nat -> walk f at_ toks st = walk f' at_ toks st.
Proof.
  induction f as [|f IH]; intros at_ toks st f' Hf Hf'; [destruct at_; cbn in Hf; lia|].
  destruct f' as [|f']; [destruct at_; cbn in Hf'; lia|].
  assert (Hchild : forall toks' st' (cont : Z -> position),
    (2 * length toks' + 1 <= f)%nat -> (2 * length toks' + 1 <= f')%nat ->
    (forall n rest, (length rest < length toks')%nat -> (need (cont n) rest <= f)%nat /\ (need (cont n) rest <= f')%nat) ->
    match walk f (AtValue false) toks' st' with
    | (None, st) => (None, st) | (Some (n, rest), st) => walk f (cont n) rest st end =
    match walk f' (AtValue false) toks' st' with
    | (None, st) => (None, st) | (Some (n, rest), st) => walk f' (cont n) rest st end).
  { intros toks' st' cont Hl Hl' Hc. rewrite (IH (AtValue false) toks' st' f') by done.
    pose proof (walk_walked f' (AtValue false) toks' st') as [_ Hr].
    destruct (walk f' (AtValue false) toks' st') as [[[n rest]|] st1]; [|done].
    destruct Hr as (_ & Hlen & _). destruct (Hc n rest Hlen). by apply IH. }
  destruct at_ as [top|top total|total]; cbn [need] in *; cbn [walk].
  - destruct toks as [|[] toks]; try done; apply IH; cbn in *; lia.
  - destruct toks as [|[] toks]; try done. cbv zeta. cbn [length] in *.
    destruct (top && String.eqb s "model").
    { destruct toks as [|[] toks]; try done; apply IH; cbn in *; lia. }
    destruct (if top then output_priority s else None).
    { destruct toks as [|[] toks]; try done; try (destruct (isValidNumber s0); [|done]); apply IH; cbn in *; lia. }
    apply (Hchild toks st (fun n => InObject top (total + (len3 s + 1) + n))); cbn; lia.
  - destruct (More toks); [|done].
    apply (Hchild toks st (fun n => InArray (total + (1 + n)))); cbn; lia.
Qed.

(** ** The reservation of a request *)

(** [maxBillingBodyBytes]: the prefix of a body the middleware reads. *)
Definition maxBillingBodyBytes : Z := 8388608.

(** What the decoder may yield for a text: every token takes a byte of it, and a
    decoded string at most three bytes per byte of its literal. *)
Definition decoded (body : Body) : Prop :=
  body_len body <= maxBillingBodyBytes /\ sizes (body_tokens body) <= 3 * body_len body.

Lemma sizes_nonneg toks : 0 <= sizes toks.
Proof. induction toks as [|[] toks IH]; rewrite ?sizes_cons; cbn [size]; [done|lia..]. Qed.

Lemma first_positive_range values :
  Forall (fun v => 0 <= v <= maximumOutputTokens) values ->
  1 <= first_positive values <= maximumOutputTokens.
Proof.
  unfold first_positive. intros Hf. destruct (head _) as [v|] eqn:E; cbn; [|done].
  apply head_Some_elem_of, list_elem_of_filter in E as [Hv Hin].
  rewrite Forall_forall in Hf. specialize (Hf v Hin). lia.
Qed.

Lemma scan_bounds body :
  decoded body ->
  let '(_, inputTokens, outputTokens, _) := scanReservationJSON body in
  256 <= inputTokens <= 6500000000 /\ 1 <= outputTokens <= 131072.
Proof.
  intros [Hlen Hsz]. unfold scanReservationJSON, maxBillingBodyBytes in *.
  pose proof (walk_walked (2 * length (body_tokens body) + 2) (AtValue true) (body_tokens body) scan_start) as [Ho Hr].
  destruct (walk _ _ _ _) as [[[n rest]|] st]; cbn [fst snd base] in *.
  - pose proof (sizes_nonneg rest). split; [lia|]. apply first_positive_range, Ho.
    unfold outputs_ok; cbn. repeat constructor; done.
  - split; [|done]. assert (0 <= body_len body) by (pose proof (sizes_nonneg (body_tokens body)); lia).
    Z.div_mod_to_equations. lia.
Qed.

Lemma rates_mono price i j :
  row_ok price = true -> i <= j ->
  let '(ip, cp, op) := rates price i i in let '(ip', cp', op') := rates price j j in
  ip <= ip' /\ cp <= cp' /\ op <= op'.
Proof.
  unfold row_ok, rates. rewrite !andb_true_iff, !Z.leb_le, !Z.ltb_lt, Z.eqb_eq. intros H Hij.
  replace (if i <=? 0 then i else i) with i by by destruct (i <=? 0).
  replace (if j <=? 0 then j else j) with j by by destruct (j <=? 0).
  destruct (_ && (_ <? i)) eqn:Ei; destruct (_ && (_ <? j)) eqn:Ej; cbn; lia.
Qed.

Lemma cost_small ip cp op u c o :
  0 <= u -> 0 <= c -> 0 < cp <= ip -> ip <= 40000 -> 0 < op <= 120000 ->
  u + c <= 6500000000 -> 0 <= o <= 131072 ->
  0 <= u * ip + c * cp + o * op <= (u + c) * ip + o * op /\ (u + c) * ip + o * op < 2 ^ 53.
Proof. intros. nia. Qed.

Lemma cost_pos ip cp op i o : 0 < cp <= ip -> 0 < op -> 256 <= i -> 1 <= o -> 0 < i * ip + 0 * cp + o * op.
Proof. intros. nia. Qed.

Lemma cost_mono ip cp op ip' op' n i o' o :
  0 <= n <= i -> 0 <= o' <= o -> 0 <= ip' <= ip -> 0 <= op' <= op ->
  n * ip' + o' * op' <= i * ip + 0 * cp + o * op.
Proof.
  intros. pose proof (Z.mul_le_mono_nonneg n i ip' ip). pose proof (Z.mul_le_mono_nonneg o' o op' op). lia.
Qed.

(** C20: a reservation covers its request: for any body the middleware reads, the
    held amount is positive and computed without overflow (below 2^53, so that
    it also survives the double-precision numbers of a Redis script), and no
    settlement whose usage stays within the estimated input and the output cap
    costs more than the hold, however much of the input was cached. *)
Theorem reservation_covers (body : Body) (r : Result) :
  decoded body -> EstimateTextReservationFromBody body = Some r ->
  let '(model, inputTokens, outputTokens, _) := scanReservationJSON body in
  0 < CostInUSDTicks r < 2 ^ 53 /\
  forall input cached output, input <= inputTokens -> output <= outputTokens ->
  exists r', EstimateCost model input cached output input = Some r' /\
    Model r' = Model r /\ 0 <= CostInUSDTicks r' <= CostInUSDTicks r.
Proof.
  intros Hd. pose proof (scan_bounds body Hd) as Hb. unfold EstimateTextReservationFromBody.
  destruct (scanReservationJSON body) as [[[model i] o] ok]. destruct Hb as [Hi Ho].
  destruct (String.eqb _ _); [done|].
  destruct (resolveOfficialTokenPrice model) as [price|] eqn:Hr; [|done].
  pose proof (resolved_ok _ _ Hr) as [_ Hrow]. unfold EstimateCost. rewrite Hr.
  pose proof (rates_ok price i i Hrow) as Hri.
  destruct (rates price i i) as [[ip cp] op] eqn:Eri. intros [= <-]. cbn [CostInUSDTicks Model].
  replace (Z.max 0 (Z.min 0 (Z.max 0 i))) with 0 by lia.
  replace (Z.max 0 (Z.max 0 i - 0)) with i by lia. replace (Z.max 0 o) with o by lia.
  destruct (cost_small ip cp op i 0 o) as [? ?]; [lia..|].
  assert (Hid : forall z, 0 <= z < 2 ^ 53 -> wrap64 z = z).
  { intros z Hz. apply wrap64_id. unfold in_int64, min_int64, max_int64. lia. }
  rewrite (Hid (i * ip + 0 * cp + o * op)) by lia.
  split; [split; [by apply cost_pos; lia|lia]|].
  intros input cached output Hin Hout.
  pose proof (rates_ok price input input Hrow) as Hr'.
  pose proof (rates_mono price input i Hrow Hin) as Hm. rewrite Eri in Hm.
  destruct (rates price input input) as [[ip' cp'] op']. eexists. split; [done|]. cbn [CostInUSDTicks Model].
  set (c := Z.max 0 (Z.min cached (Z.max 0 input))). set (u := Z.max 0 (Z.max 0 input - c)).
  destruct (cost_small ip' cp' op' u c (Z.max 0 output)) as [? ?]; [lia..|].
  rewrite Hid by lia. split_and!; [done|lia|].
  etrans; [exact (proj2 H1)|]. apply cost_mono; lia.
Qed.

Definition sample_quantities : Quantities := mkQuantities 250000 50000 10 250000 0 0 0 0 f64_zero.

Lemma sample_cost :
  EstimateCost "build/grok-4.6" 250000 50000 10 250000 = Some (mkResult "grok-4.6" 8501200000).
Proof. by vm_compute. Qed.

Lemma breakdown_explains_cost_witness :
  let '(b, ok) := ReconstructBreakdown "build/grok-4.6" sample_quantities in
  b_CostInUSDTicks b = 8501200000 /\ ok = true.
Proof.
  pose proof (breakdown_explains_cost "build/grok-4.6" sample_quantities _ sample_cost) as H.
  destruct (ReconstructBreakdown _ _) as [b ok]. destruct H as (Hc & _ & Hok & _).
  split; [exact Hc|exact Hok].
Defined.

Definition sample_body : Body :=
  mkBody 60 [TOpenObject; TString "model"; TString "grok-4.5"; TString "max_tokens"; TNumber "1000";
             TString "messages"; TOpenArray; TString "hello"; TCloseArray; TCloseObject].

Lemma sample_scan : scanReservationJSON sample_body = ("grok-4.5", 256, 1000, true).
Proof. by vm_compute. Qed.

Lemma sample_reserved :
  EstimateTextReservationFromBody sample_body = Some (mkResult "grok-4.5" 65120000).
Proof. by vm_compute. Qed.

Lemma reservation_covers_witness :
  decoded sample_body /\
  exists r', EstimateCost "grok-4.5" 200 50 900 200 = Some r' /\ Model r' = "grok-4.5" /\
    0 <= CostInUSDTicks r' <= 65120000.
Proof.
  assert (Hd : decoded sample_body) by (split; by vm_compute). split; [exact Hd|].
  pose proof (reservation_covers sample_body _ Hd sample_reserved) as H. rewrite sample_scan in H.
  destruct H as [_ H]. destruct (H 200 50 900 ltac:(done) ltac:(done)) as (r' & He & Hm & Hc).
  exists r'. split; [exact He|]. split; [exact Hm|exact Hc].
Defined.

(** The breakdown strips the source prefix once more than the estimators do: a
    doubly prefixed name has no price but a breakdown. *)
Example breakdown_double_prefix :
  EstimateCost "build/build/grok-4.6" 1000 0 10 0 = None /\
  (ReconstructBreakdown "build/build/grok-4.6" (mkQuantities 1000 0 10 0 0 0 0 0 f64_zero)).2 = true.
Proof. by vm_compute. Qed.
