(* ===== verification/Ledger.v ===== *)
(** * The billing ledger of a client key

    (internal/store/redis_scripts.go, internal/store/redis_api_keys.go)

    What one API key may spend: the live holds, the counter of settled usage, the
    settled events and the mirrored limit. The four scripts are functions on this
    state; Redis runs each as one indivisible step, so any interleaving of
    replicas is a sequence of operations ([run]).

    A script's numbers are doubles: amounts here stay below 2^53 (a priced
    reservation does, [Pricing.reservation_covers]), where they are exact, and a
    hold's text keeps 14 digits, so a hold stays below 10^14 ticks (10,000 USD). *)

From stdpp Require Import base numbers list strings gmap.
From S2P Require Import Prelude GoLib.

Local Open Scope Z_scope.

(** ** State

    A hold is the parsed "amount:expiry" of a field, [None] when it does not
    parse. [holds_expire] is the PEXPIREAT of the hash, in milliseconds. *)
Abbreviation hold := (option (Z * Z)) (only parsing).
Abbreviation Holds := (gmap string (option (Z * Z))) (only parsing).

Record ledger := mkLedger {
  holds : gmap string (option (Z * Z));
  holds_expire : option Z;
  used : option Z;
  settled : gmap string Z;
  limit : Z;
}.
Definition empty_ledger : ledger := mkLedger ∅ None None ∅ 0.

Inductive ledger_error :=
  | ErrNoRows
  | ErrAmountNotPositive
  | ErrExpiryRequired
  | ErrAmountNegative
  | ErrHeldDifferently
  | ErrSettledDifferently (event : string)
  | ErrCounterOverflow
  | ErrKeyNotFound
  | ErrKeyUnreadable.

(** The hash once the server's clock is applied; it vanishes with its last field. *)
Definition live_holds (server : Z) (l : ledger) : Holds :=
  match holds_expire l with
  | Some t => if t <=? server then ∅ else holds l
  | None => holds l
  end.
Definition set_holds (h : Holds) (expire : option Z) (l : ledger) : ledger :=
  mkLedger h (if decide (h = ∅) then None else expire) (used l) (settled l) (limit l).

Definition used_of (l : ledger) : Z := default 0 (used l).

(** ** reserveApiKeyBillingScript *)
Inductive swept :=
  | Found (same : bool) (h : Holds)
  | Swept (h : Holds) (live_sum max_expiry : Z).

(** The loop over the fields HGETALL returned. *)
Fixpoint sweep (event_id : string) (amount now : Z) (fields : list (string * hold))
    (h : Holds) (live_sum max_expiry : Z) : swept :=
  match fields with
  | [] => Swept h live_sum max_expiry
  | (field, raw) :: rest =>
      match raw with
      | None => sweep event_id amount now rest (delete field h) live_sum max_expiry
      | Some (held, expiry) =>
          if expiry <=? now then sweep event_id amount now rest (delete field h) live_sum max_expiry
          else if String.eqb field event_id then Found (held =? amount) h
          else sweep event_id amount now rest h (live_sum + held)
                 (if max_expiry <? expiry then expiry else max_expiry)
      end
  end.

Section Ledger.
Context (HGETALL : gmap string (option (Z * Z)) -> list (string * option (Z * Z))).

Definition reserveApiKeyBillingScript (server : Z) (event_id : string) (amount now expires_at : Z)
    (l : ledger) : result Z ledger_error * ledger :=
  let h := live_holds server l in
  match sweep event_id amount now (HGETALL h) h 0 expires_at with
  | Found true h => (Ok 1, set_holds h (holds_expire l) l)
  | Found false h => (Err ErrHeldDifferently, set_holds h (holds_expire l) l)
  | Swept h live_sum max_expiry =>
      if (0 <? limit l) && (limit l <? used_of l + live_sum + amount)
      then (Ok 0, set_holds h (holds_expire l) l)
      else (Ok 1, set_holds (<[event_id := Some (amount, expires_at)]> h)
                    (Some (max_expiry * 1000 + 60000)) l)
  end.

(** ** The other scripts *)

(** A failing INCRBY does not undo the two writes before it. *)
Definition settleApiKeyBillingScript (server : Z) (event_id : string) (amount : Z) (l : ledger)
    : result Z ledger_error * ledger :=
  match settled l !! event_id with
  | Some prior => if prior =? amount then (Ok 0, l) else (Ok (-1), l)
  | None =>
      let h := delete event_id (live_holds server l) in
      let l := mkLedger h (if decide (h = ∅) then None else holds_expire l) (used l)
                 (<[event_id := amount]> (settled l)) (limit l) in
      let total := used_of l + amount in
      if (min_int64 <=? total) && (total <=? max_int64)
      then (Ok 1, mkLedger (holds l) (holds_expire l) (Some total) (settled l) (limit l))
      else (Err ErrCounterOverflow, l)
  end.

Definition releaseApiKeyBillingScript (server : Z) (event_id : string) (l : ledger) : Z * ledger :=
  let h := live_holds server l in
  (if decide (is_Some (h !! event_id)) then 1 else 0, set_holds (delete event_id h) (holds_expire l) l).

Definition resetApiKeyBillingScript (l : ledger) : ledger :=
  mkLedger ∅ None (Some 0) ∅ (limit l).

(** What a rollover does to the ledger: live holds stay. *)
Definition rollover_ledger (l : ledger) : ledger :=
  mkLedger (holds l) (holds_expire l) (Some 0) ∅ (limit l).

(** ** The store's operations on a ledger *)
Definition ReserveApiKeyBilling (server now : Time) (id : Z) (eventID : string) (amount : Z)
    (expiresAt : Time) (l : ledger) : result bool ledger_error * ledger :=
  if (id =? 0) || String.eqb (TrimSpace eventID) "" then (Err ErrNoRows, l)
  else if amount <=? 0 then (Err ErrAmountNotPositive, l)
  else if IsZero expiresAt then (Err ErrExpiryRequired, l)
  else match reserveApiKeyBillingScript (UnixMilli server) eventID amount (Unix now)
               (Unix expiresAt) l with
       | (Err e, l) => (Err e, l)
       | (Ok reserved, l) => (Ok (reserved =? 1), l)
       end.

Definition SettleApiKeyBilling (server : Time) (id : Z) (eventID : string) (amount : Z) (l : ledger)
    : result unit ledger_error * ledger :=
  if (id =? 0) || String.eqb (TrimSpace eventID) "" then (Err ErrNoRows, l)
  else if amount <? 0 then (Err ErrAmountNegative, l)
  else match settleApiKeyBillingScript (UnixMilli server) eventID amount l with
       | (Err e, l) => (Err e, l)
       | (Ok result, l) => (if result <? 0 then Err (ErrSettledDifferently eventID) else Ok tt, l)
       end.

Definition ReleaseApiKeyBilling (server : Time) (id : Z) (eventID : string) (l : ledger)
    : result bool ledger_error * ledger :=
  if (id =? 0) || String.eqb (TrimSpace eventID) "" then (Err ErrNoRows, l)
  else let '(released, l) := releaseApiKeyBillingScript (UnixMilli server) eventID l in
       (Ok (released =? 1), l).

Definition ResetApiKeyBilling (id : Z) (l : ledger) : result unit ledger_error * ledger :=
  if id =? 0 then (Err ErrNoRows, l) else (Ok tt, resetApiKeyBillingScript l).

(** ** Runs: the operations of every replica, in the order Redis executes them *)
Inductive op :=
  | OpReserve (server now : Time) (event : string) (amount : Z) (expiresAt : Time)
  | OpSettle (server : Time) (event : string) (amount : Z)
  | OpRelease (server : Time) (event : string)
  | OpReset
  | OpRollover
  | OpSetLimit (limit : Z).

Inductive outcome :=
  | Reserved (r : result bool ledger_error)
  | Settled (r : result unit ledger_error)
  | Released (r : result bool ledger_error)
  | Done.

Definition apply (id : Z) (o : op) (l : ledger) : outcome * ledger :=
  match o with
  | OpReserve server now event amount expiresAt =>
      let '(r, l) := ReserveApiKeyBilling server now id event amount expiresAt l in (Reserved r, l)
  | OpSettle server event amount =>
      let '(r, l) := SettleApiKeyBilling server id event amount l in (Settled r, l)
  | OpRelease server event => let '(r, l) := ReleaseApiKeyBilling server id event l in (Released r, l)
  | OpReset => (Done, (ResetApiKeyBilling id l).2)
  | OpRollover => (Done, rollover_ledger l)
  | OpSetLimit limit => (Done, mkLedger (holds l) (holds_expire l) (used l) (settled l) limit)
  end.

Fixpoint run (id : Z) (ops : list op) (l : ledger) : list outcome * ledger :=
  match ops with
  | [] => ([], l)
  | o :: rest => let '(out, l) := apply id o l in let '(outs, l) := run id rest l in (out :: outs, l)
  end.
End Ledger.

(** ** Lemmas: the sweep *)
Definition amount_of (raw : hold) : Z := match raw with Some (held, _) => held | None => 0 end.
Definition dead (now : Z) (raw : hold) : bool :=
  match raw with Some (_, expiry) => expiry <=? now | None => true end.
Definition live_weight (now : Z) (raw : hold) : Z := if dead now raw then 0 else amount_of raw.

Definition held_sum (h : Holds) : Z := map_sum amount_of h.
Definition exposure (l : ledger) : Z := used_of l + held_sum (holds l).

(** A live hold of the same event. *)
Definition held_already (now : Z) (event : string) (h : Holds) : option Z :=
  match h !! event with
  | Some (Some (held, expiry)) => if expiry <=? now then None else Some held
  | _ => None
  end.

(** [h'] is [h] with some dead fields deleted. *)
Definition shrunk (now : Z) (h h' : Holds) : Prop :=
  forall k, h' !! k = h !! k \/ (h' !! k = None /\ exists raw, h !! k = Some raw /\ dead now raw = true).

Lemma shrunk_delete now h h' k raw :
  h !! k = Some raw -> dead now raw = true -> shrunk now (delete k h) h' -> shrunk now h h'.
Proof.
  intros Hk Hd Hs j. specialize (Hs j). destruct (decide (j = k)) as [->|Hne].
  - rewrite lookup_delete_eq in Hs. right. naive_solver.
  - by rewrite lookup_delete_ne in Hs.
Qed.

Lemma shrunk_subseteq now h h' : shrunk now h h' -> h' ⊆ h.
Proof.
  intros Hs. apply map_subseteq_spec. intros k x Hx. destruct (Hs k) as [E|[E _]]; congruence.
Qed.

Lemma sweep_spec event amount now fields : forall h live_sum max_expiry,
  NoDup fields.*1 -> (forall k raw, (k, raw) ∈ fields -> h !! k = Some raw) ->
  match sweep event amount now fields h live_sum max_expiry with
  | Found same h' => shrunk now h h' /\ exists held expiry,
      (event, Some (held, expiry)) ∈ fields /\ now < expiry /\ same = (held =? amount)
  | Swept h' sum _ =>
      (forall raw, (event, raw) ∈ fields -> dead now raw = true) /\ shrunk now h h' /\
      (forall k raw, (k, raw) ∈ fields -> dead now raw = true -> h' !! k = None) /\
      sum = live_sum + sumZ (fun kv => live_weight now kv.2) fields
  end.
Proof.
  induction fields as [|[field raw] rest IH]; intros h ls me Hnd Hin; cbn [sweep].
  { split_and!; [by intros ? ?%elem_of_nil|by intros k; left|by intros ? ? ?%elem_of_nil|cbn; lia]. }
  rewrite fmap_cons, NoDup_cons in Hnd. destruct Hnd as [Hfr Hnd]. cbn [fst] in Hfr.
  assert (Hdead : dead now raw = true ->
    match sweep event amount now rest (delete field h) ls me with
    | Found same h' => shrunk now h h' /\ exists held expiry,
        (event, Some (held, expiry)) ∈ (field, raw) :: rest /\ now < expiry /\ same = (held =? amount)
    | Swept h' sum _ =>
        (forall raw', (event, raw') ∈ (field, raw) :: rest -> dead now raw' = true) /\ shrunk now h h' /\
        (forall k raw', (k, raw') ∈ (field, raw) :: rest -> dead now raw' = true -> h' !! k = None) /\
        sum = ls + sumZ (fun kv => live_weight now kv.2) ((field, raw) :: rest)
    end).
  { intros Hd. assert (Hrest : forall k r, (k, r) ∈ rest -> delete field h !! k = Some r).
    { intros k r Hk. rewrite lookup_delete_ne; [by apply Hin; right|]. intros ->.
      apply Hfr. apply list_elem_of_fmap. by exists (k, r). }
    specialize (IH (delete field h) ls me Hnd Hrest).
    assert (Hfield : h !! field = Some raw) by (apply Hin; by left).
    destruct (sweep _ _ _ _ _ _ _) as [same h'|h' sum me'].
    - destruct IH as [Hs (held & expiry & He & ?)]. split; [by eapply shrunk_delete|].
      exists held, expiry. split; [by right|done].
    - destruct IH as (He & Hs & Hgone & ->). split_and!.
      + intros raw' [[= -> ->]|Hr]%elem_of_cons; [done|by apply He].
      + by eapply shrunk_delete.
      + intros k raw' [[= -> ->]|Hr]%elem_of_cons Hd'; [|by eapply Hgone].
        destruct (Hs field) as [E|[E _]]; rewrite E; [apply lookup_delete_eq|done].
      + rewrite sumZ_cons. cbn [snd]. unfold live_weight at 2. rewrite Hd. lia. }
  destruct raw as [[held expiry]|]; [|by apply Hdead].
  destruct (expiry <=? now) eqn:E; [by apply Hdead|]. clear Hdead.
  destruct (String.eqb field event) eqn:Ef.
  { apply String.eqb_eq in Ef. subst field. split; [by intros k; left|].
    exists held, expiry. bool_to_prop. split_and!; [by left|lia|done]. }
  specialize (IH h (ls + held) (if me <? expiry then expiry else me) Hnd (fun k r Hk => Hin k r (list_elem_of_further _ _ _ Hk))).
  destruct (sweep _ _ _ _ _ _ _) as [same h'|h' sum me'].
  - destruct IH as [Hs (held' & expiry' & He & ?)]. split; [done|].
    exists held', expiry'. split; [by right|done].
  - destruct IH as (He & Hs & Hgone & ->). split_and!; [|done| |].
    + intros raw' [[= -> _]|Hr]%elem_of_cons; [|by apply He]. by rewrite String.eqb_refl in Ef.
    + intros k raw' [[= -> ->]|Hr]%elem_of_cons Hd'; [|by eapply Hgone].
      cbn in Hd'. congruence.
    + rewrite sumZ_cons. cbn [snd]. unfold live_weight at 2. cbn. rewrite E. lia.
Qed.

Section Laws.
Context (HGETALL : gmap string (option (Z * Z)) -> list (string * option (Z * Z))).
Hypothesis HGETALL_fields : forall h, HGETALL h ≡ₚ map_to_list h.

Lemma fields_nodup h : NoDup (HGETALL h).*1.
Proof. rewrite HGETALL_fields. apply NoDup_fst_map_to_list. Qed.

Lemma fields_elem h k raw : (k, raw) ∈ HGETALL h <-> h !! k = Some raw.
Proof. rewrite HGETALL_fields. apply elem_of_map_to_list. Qed.

(** The live part of the hash, once every dead field is gone. *)
Lemma swept_sum now h h' :
  shrunk now h h' -> (forall k raw, h !! k = Some raw -> dead now raw = true -> h' !! k = None) ->
  held_sum h' = map_sum (live_weight now) h.
Proof.
  intros Hs Hgone.
  assert (Hh' : held_sum h' = map_sum (live_weight now) h').
  { apply map_sum_ext. intros k raw Hk. unfold live_weight. destruct (dead now raw) eqn:E; [|done].
    destruct (Hs k) as [E'|[E' _]]; [|congruence]. rewrite Hk in E'. symmetry in E'.
    by rewrite (Hgone _ _ E' E) in Hk. }
  rewrite Hh'. clear Hh'. revert h Hs Hgone. induction h' as [|k raw h' Hk IH] using map_ind; intros h Hs Hgone.
  - rewrite map_sum_empty. symmetry. rewrite (map_sum_ext _ (fun _ => 0)).
    + clear. induction h as [|k v h Hk IH] using map_ind; [by rewrite map_sum_empty|].
      by rewrite map_sum_insert, IH.
    + intros k raw Hk. destruct (Hs k) as [E|[_ (raw' & E & Hd)]]; [by rewrite lookup_empty, Hk in E|].
      unfold live_weight. rewrite Hk in E. injection E as <-. by rewrite Hd.
  - assert (Hin : h !! k = Some raw).
    { destruct (Hs k) as [E|[E _]]; rewrite lookup_insert_eq in E; congruence. }
    rewrite map_sum_insert, (map_sum_delete _ h k raw Hin) by done. f_equal. apply IH.
    + intros j. destruct (decide (j = k)) as [->|Hne]; [left; by rewrite lookup_delete_eq|].
      specialize (Hs j). rewrite lookup_insert_ne in Hs by done. by rewrite lookup_delete_ne.
    + intros j raw' [Hne Hj]%lookup_delete_Some Hd. specialize (Hgone j raw' Hj Hd).
      by rewrite lookup_insert_ne in Hgone.
Qed.

(** The reservation script, whatever the order of the fields. *)
Lemma reserve_spec server event amount now expires l :
  let h := live_holds server l in
  let '(reply, l') := reserveApiKeyBillingScript HGETALL server event amount now expires l in
  exists h' e, shrunk now h h' /\
  match held_already now event h with
  | Some held => reply = (if held =? amount then Ok 1 else Err ErrHeldDifferently) /\
                 l' = set_holds h' e l
  | None =>
      if (0 <? limit l) && (limit l <? used_of l + map_sum (live_weight now) h + amount)
      then reply = Ok 0 /\ l' = set_holds h' e l
      else reply = Ok 1 /\ l' = set_holds (<[event := Some (amount, expires)]> h') e l /\
           h' !! event = None /\ held_sum h' = map_sum (live_weight now) h
  end.
Proof.
  cbv zeta. unfold reserveApiKeyBillingScript. set (h := live_holds server l).
  pose proof (sweep_spec event amount now (HGETALL h) h 0 expires (fields_nodup h)
    (fun k raw => proj1 (fields_elem h k raw))) as Hsw.
  destruct (sweep _ _ _ _ _ _ _) as [same h'|h' sum me].
  - destruct Hsw as [Hs (held & expiry & He%fields_elem & Hlive & ->)].
    assert (Hheld : held_already now event h = Some held).
    { unfold held_already. rewrite He. by rewrite (proj2 (Z.leb_gt _ _) Hlive). }
    destruct (held =? amount) eqn:E; exists h', (holds_expire l); rewrite Hheld, E; done.
  - destruct Hsw as (Hev & Hs & Hgone & Hsum).
    assert (Hnone : held_already now event h = None).
    { unfold held_already. destruct (h !! event) as [[[held expiry]|]|] eqn:E; [|done..].
      apply fields_elem, Hev in E. cbn in E. by rewrite E. }
    assert (Hsum' : sum = map_sum (live_weight now) h).
    { rewrite Hsum. cbn. apply sumZ_perm, HGETALL_fields. }
    rewrite Hsum'. destruct (_ && _) eqn:E.
    + exists h', (holds_expire l). rewrite Hnone. done.
    + exists h', (Some (me * 1000 + 60000)). rewrite Hnone. split_and!; [done..| |].
      * destruct (Hs event) as [E'|[E' _]]; [|done]. destruct (h !! event) as [raw|] eqn:Er; [|done].
        apply fields_elem in Er. by rewrite (Hgone event raw Er (Hev raw Er)) in E'.
      * apply swept_sum; [done|]. intros k raw Hk. apply Hgone, fields_elem, Hk.
Qed.

(** ** Admission *)
Lemma set_holds_lookup h e l k : holds (set_holds h e l) !! k = h !! k.
Proof. done. Qed.

Lemma held_already_Some now event h held :
  held_already now event h = Some held ->
  exists expiry, h !! event = Some (Some (held, expiry)) /\ now < expiry.
Proof.
  unfold held_already. destruct (h !! event) as [[[a e]|]|]; [|done..].
  destruct (e <=? now) eqn:E; [done|]. intros [= ->]. exists e. bool_to_prop. auto.
Qed.

Lemma refused_by (lim total : Z) :
  negb ((0 <? lim) && (lim <? total)) = (lim <=? 0) || (total <=? lim).
Proof. rewrite negb_andb, <- !Z.leb_antisym. done. Qed.


(** ** The budget *)

(** Holds and settled usage are never negative: the store refuses such amounts. *)
Definition wf (l : ledger) : Prop :=
  0 <= used_of l /\ forall k raw, holds l !! k = Some raw -> 0 <= amount_of raw.

(** What a settlement charges beyond the hold it converts: a hold that was
    released, that expired, or that was smaller. *)
Definition uncovered (id : Z) (o : op) (l : ledger) : Z :=
  match o with
  | OpSettle server event amount =>
      match (SettleApiKeyBilling server id event amount l).1, settled l !! event with
      | Ok _, None =>
          Z.max 0 (amount - match live_holds (UnixMilli server) l !! event with
                            | Some raw => amount_of raw | None => 0 end)
      | _, _ => 0
      end
  | _ => 0
  end.
Fixpoint overrun (id : Z) (ops : list op) (l : ledger) : Z :=
  match ops with
  | [] => 0
  | o :: rest => uncovered id o l + overrun id rest (apply HGETALL id o l).2
  end.

Definition keeps_limit (o : op) : bool := match o with OpSetLimit _ => false | _ => true end.

Lemma live_sub server l : live_holds server l ⊆ holds l.
Proof.
  unfold live_holds. destruct (holds_expire l) as [t|]; [|done]. destruct (t <=? server); [|done].
  apply map_empty_subseteq.
Qed.

Lemma wf_sub l h :
  wf l -> h ⊆ holds l -> held_sum h <= held_sum (holds l) /\ forall k raw, h !! k = Some raw -> 0 <= amount_of raw.
Proof.
  intros [_ Hh] Hsub. split; [by apply map_sum_subseteq|].
  intros k raw Hk. eapply Hh, lookup_weaken; [exact Hk|done].
Qed.

Lemma exposure_sub l h e :
  wf l -> h ⊆ holds l -> wf (set_holds h e l) /\ exposure (set_holds h e l) <= exposure l.
Proof.
  intros Hw Hsub. destruct (wf_sub l h Hw Hsub) as [Hs Hh]. split; [split; [apply Hw|done]|].
  change (used_of l + held_sum h <= used_of l + held_sum (holds l)). lia.
Qed.

(** An operation that left the ledger alone. *)
Ltac unmoved := cbn [fst snd]; split; [done|split; [done|first [lia | cbn; lia]]].

Lemma reserve_budget server now id event amount expiresAt l :
  wf l -> 0 < limit l ->
  let l' := (ReserveApiKeyBilling HGETALL server now id event amount expiresAt l).2 in
  wf l' /\ limit l' = limit l /\ exposure l' <= Z.max (exposure l) (limit l).
Proof.
  intros Hw Hlim. cbv zeta. unfold ReserveApiKeyBilling.
  destruct (_ || _); [unmoved|]. destruct (amount <=? 0) eqn:Ea; [unmoved|].
  destruct (IsZero expiresAt); [unmoved|].
  pose proof (reserve_spec (UnixMilli server) event amount (Unix now) (Unix expiresAt) l) as Hr. cbv zeta in Hr.
  destruct (reserveApiKeyBillingScript _ _ _ _ _ _ _) as [reply l'].
  destruct Hr as (h' & e & Hs%shrunk_subseteq & Hr).
  assert (Hsub : h' ⊆ holds l) by (etrans; [exact Hs|apply live_sub]).
  assert (Hsame : forall e, wf (set_holds h' e l) /\ limit (set_holds h' e l) = limit l /\
            exposure (set_holds h' e l) <= Z.max (exposure l) (limit l)).
  { intros e'. destruct (exposure_sub l h' e' Hw Hsub). split_and!; [done..|lia]. }
  destruct (held_already _ _ _).
  { destruct Hr as [-> ->]. destruct (_ =? amount); apply Hsame. }
  destruct ((0 <? limit l) && _) eqn:E; [destruct Hr as [-> ->]; apply Hsame|].
  destruct Hr as (-> & -> & Hnone & Hsum). destruct (wf_sub l h' Hw Hsub) as [_ Hh]. cbn [snd].
  bool_to_prop. split_and!; [split; [apply Hw|]|done|].
  - intros k raw. rewrite set_holds_lookup. intros [[<- <-]|[_ Hk]]%lookup_insert_Some; [cbn; lia|by eapply Hh].
  - change (used_of l + held_sum (<[event := Some (amount, Unix expiresAt)]> h') <= Z.max (exposure l) (limit l)).
    unfold held_sum at 1. rewrite map_sum_insert by done. fold (held_sum h'). cbn [amount_of].
    apply andb_false_iff in E as [E|E]; bool_to_prop; lia.
Qed.

Lemma delete_held_sum (h : Holds) event :
  held_sum (delete event h) = held_sum h - match h !! event with Some raw => amount_of raw | None => 0 end.
Proof.
  destruct (h !! event) as [raw|] eqn:E; [|by rewrite delete_id, Z.sub_0_r].
  unfold held_sum. rewrite (map_sum_delete _ h event raw E). lia.
Qed.

Lemma settle_budget server id event amount l :
  wf l ->
  let l' := (SettleApiKeyBilling server id event amount l).2 in
  wf l' /\ limit l' = limit l /\ exposure l' <= exposure l + uncovered id (OpSettle server event amount) l.
Proof.
  intros Hw. cbv zeta. unfold uncovered, SettleApiKeyBilling.
  destruct (_ || _); [unmoved|]. destruct (amount <? 0) eqn:Ea; [unmoved|].
  unfold settleApiKeyBillingScript. destruct (settled l !! event) as [prior|].
  { destruct (prior =? amount); unmoved. }
  set (h := live_holds _ l).
  assert (Hsub : delete event h ⊆ holds l) by (etrans; [apply delete_subseteq|apply live_sub]).
  destruct (wf_sub l _ Hw Hsub) as [Hle Hh]. pose proof (delete_held_sum h event) as Hdel.
  assert (Hlive : held_sum h <= held_sum (holds l)) by apply (wf_sub l h Hw), live_sub.
  destruct Hw as [Hu _]. bool_to_prop.
  destruct ((min_int64 <=? _) && _); cbn [snd fst]; (split; [split; [|exact Hh]|split; [done|]]).
  - change (0 <= used_of l + amount). lia.
  - change (used_of l + amount + held_sum (delete event h) <=
            used_of l + held_sum (holds l) + Z.max 0 (amount - match h !! event with Some raw => amount_of raw | None => 0 end)).
    lia.
  - done.
  - change (used_of l + held_sum (delete event h) <= used_of l + held_sum (holds l) + 0). lia.
Qed.

Lemma apply_budget id o l :
  wf l -> 0 < limit l -> keeps_limit o = true ->
  let l' := (apply HGETALL id o l).2 in
  wf l' /\ limit l' = limit l /\ exposure l' <= Z.max (exposure l) (limit l) + uncovered id o l.
Proof.
  intros Hw Hlim Hk. pose proof Hw as [Hu Hh].
  assert (Hpos : 0 <= held_sum (holds l)) by by apply map_sum_nonneg.
  destruct o as [server now event amount expiresAt|server event amount|server event| | |]; cbn [apply]; try done.
  - pose proof (reserve_budget server now id event amount expiresAt l Hw Hlim) as (? & ? & ?).
    destruct (ReserveApiKeyBilling _ _ _ _ _ _ _ _) as [r l']. cbn in *. split_and!; [done..|lia].
  - pose proof (settle_budget server id event amount l Hw) as (? & ? & ?).
    destruct (SettleApiKeyBilling _ _ _ _ _) as [r l']. cbn [snd] in *. split_and!; [done..|lia].
  - unfold ReleaseApiKeyBilling. destruct (_ || _); [unmoved|]. cbn.
    destruct (exposure_sub l (delete event (live_holds (UnixMilli server) l)) (holds_expire l) Hw) as [? ?].
    { etrans; [apply delete_subseteq|apply live_sub]. }
    split_and!; [done..|lia].
  - unfold ResetApiKeyBilling. destruct (id =? 0); cbn; split_and!; try done; [lia|].
    unfold exposure. cbn. unfold held_sum. rewrite map_sum_empty. lia.
  - cbn. split_and!; [by split|done|]. unfold exposure in *. cbn. lia.
Qed.

Lemma uncovered_nonneg id o l : 0 <= uncovered id o l.
Proof. unfold uncovered. repeat case_match; lia. Qed.


(** ** Settlement *)
Definition settled_sum (l : ledger) : Z := map_sum (fun amount => amount) (settled l).
Definition resets (o : op) : bool := match o with OpReset | OpRollover => true | _ => false end.

(** What an operation does to the settled side of the ledger. *)
Lemma apply_settled id o l :
  id <> 0 -> (apply HGETALL id o l).1 <> Settled (Err ErrCounterOverflow) ->
  let l' := (apply HGETALL id o l).2 in
  used_of l' - settled_sum l' = (if resets o then 0 else used_of l - settled_sum l) /\
  (resets o = false -> settled l ⊆ settled l').
Proof.
  intros Hid. cbv zeta.
  destruct o as [server now event amount expiresAt|server event amount|server event| | |]; cbn [apply resets]; try done.
  - unfold ReserveApiKeyBilling. destruct (_ || _); [done|]. destruct (amount <=? 0); [done|].
    destruct (IsZero expiresAt); [done|].
    pose proof (reserve_spec (UnixMilli server) event amount (Unix now) (Unix expiresAt) l) as Hr. cbv zeta in Hr.
    destruct (reserveApiKeyBillingScript _ _ _ _ _ _ _) as [[reply|reply] l'];
      destruct Hr as (h' & e & _ & Hr); intros _;
      assert (Hl : used l' = used l /\ settled l' = settled l)
        by (destruct (held_already _ _ _); [|destruct ((0 <? limit l) && _)]; by destruct_and? Hr; subst l');
      destruct Hl as [Hu Hs]; cbn [snd]; unfold settled_sum, used_of; by rewrite Hu, Hs.
  - unfold SettleApiKeyBilling. destruct (_ || _); [done|]. destruct (amount <? 0); [done|].
    unfold settleApiKeyBillingScript. destruct (settled l !! event) as [prior|] eqn:E.
    { by destruct (prior =? amount). }
    destruct ((min_int64 <=? _) && _); [|done]. intros _. cbn [snd]. split.
    + unfold settled_sum. cbn [settled]. rewrite map_sum_insert by done.
      change (used_of l + amount - (amount + settled_sum l) = used_of l - settled_sum l). lia.
    + intros _. by apply insert_subseteq.
  - unfold ReleaseApiKeyBilling. by destruct (_ || _).
  - unfold ResetApiKeyBilling. rewrite (proj2 (Z.eqb_neq _ _) Hid). intros _. split; [|done].
    unfold settled_sum. cbn. by rewrite map_sum_empty.
Qed.

End Laws.

(** A key with a limit of 100: one request is held and settled for less, a repeat
    of its settlement is ignored, a second request is held, a third refused. *)
Definition budget_100 : ledger := mkLedger ∅ None None ∅ 100.
Definition busy_key : list op :=
  [OpReserve 0 0 "a" 60 Hour; OpReserve 0 0 "b" 60 Hour; OpSettle 0 "a" 45; OpSettle 0 "a" 45;
   OpReserve 0 0 "b" 55 Hour; OpReserve 0 0 "c" 1 Hour].



