(* ===== verification/Keys.v ===== *)
(** * Client API keys

    (internal/store/redis_api_keys.go, internal/store/store_api_keys.go)

    The rows of the API keys with their indexes, their per-minute counters and
    their ledgers, the operations of the store on them, and the authorisation of
    a raw key by one process with its two caches.

    [digest] is the hexadecimal SHA-256 of a key. A script that rewrites a row
    decodes and encodes it with Redis's JSON library: [cjson] is what Go reads
    back, [None] when it no longer can. *)

From stdpp Require Import base numbers list strings gmap.
From S2P Require Import Prelude GoLib Account Cooldown Merge Credentials AccountStore Ledger.

Local Open Scope Z_scope.

(** ** Rows *)
Record apiKeyRecord := mkApiKeyRecord {
  r_ID : Z;
  r_Name : string;
  r_KeyHash : string;
  r_KeyPrefix : string;
  r_KeySuffix : string;
  r_Enabled : bool;
  r_AllowedModels : list string;
  r_RPMLimit : Z;
  r_MaxConcurrent : Z;
  r_BillingLimitUSDTicks : Z;
  r_BillingUsedUSDTicks : Z;
  r_BillingPeriodDays : Z;
  r_BillingPeriodStartedAt : Time;
  r_ExpiresAt : option Time;
  r_LastUsedAt : option Time;
  r_CreatedAt : Time;
}.

(** [ApiKey] has one field more, which is never stored. *)
Record ApiKey := mkApiKey { k_record : apiKeyRecord; k_KeyFull : string }.

Definition apiKeyRecordFromKey (key : ApiKey) : apiKeyRecord := k_record key.
Definition toApiKey (r : apiKeyRecord) : ApiKey := mkApiKey r "".

Definition with_key_ID (r : apiKeyRecord) (id : Z) : apiKeyRecord :=
  mkApiKeyRecord id (r_Name r) (r_KeyHash r) (r_KeyPrefix r) (r_KeySuffix r) (r_Enabled r)
    (r_AllowedModels r) (r_RPMLimit r) (r_MaxConcurrent r) (r_BillingLimitUSDTicks r)
    (r_BillingUsedUSDTicks r) (r_BillingPeriodDays r) (r_BillingPeriodStartedAt r) (r_ExpiresAt r)
    (r_LastUsedAt r) (r_CreatedAt r).
Definition with_CreatedAt (r : apiKeyRecord) (at_ : Time) : apiKeyRecord :=
  mkApiKeyRecord (r_ID r) (r_Name r) (r_KeyHash r) (r_KeyPrefix r) (r_KeySuffix r) (r_Enabled r)
    (r_AllowedModels r) (r_RPMLimit r) (r_MaxConcurrent r) (r_BillingLimitUSDTicks r)
    (r_BillingUsedUSDTicks r) (r_BillingPeriodDays r) (r_BillingPeriodStartedAt r) (r_ExpiresAt r)
    (r_LastUsedAt r) at_.
Definition with_LastUsedAt (r : apiKeyRecord) (at_ : Time) : apiKeyRecord :=
  mkApiKeyRecord (r_ID r) (r_Name r) (r_KeyHash r) (r_KeyPrefix r) (r_KeySuffix r) (r_Enabled r)
    (r_AllowedModels r) (r_RPMLimit r) (r_MaxConcurrent r) (r_BillingLimitUSDTicks r)
    (r_BillingUsedUSDTicks r) (r_BillingPeriodDays r) (r_BillingPeriodStartedAt r) (r_ExpiresAt r)
    (Some at_) (r_CreatedAt r).
Definition with_period (r : apiKeyRecord) (used : Z) (started : Time) : apiKeyRecord :=
  mkApiKeyRecord (r_ID r) (r_Name r) (r_KeyHash r) (r_KeyPrefix r) (r_KeySuffix r) (r_Enabled r)
    (r_AllowedModels r) (r_RPMLimit r) (r_MaxConcurrent r) (r_BillingLimitUSDTicks r)
    used (r_BillingPeriodDays r) started (r_ExpiresAt r) (r_LastUsedAt r) (r_CreatedAt r).
Definition with_used (r : apiKeyRecord) (used : Z) : apiKeyRecord :=
  with_period r used (r_BillingPeriodStartedAt r).

(** ** The store

    A row is [None] when Go cannot unmarshal its text. A counter of
    [(key, minute)] has its value and the instant it expires, in milliseconds. *)
Record KeyDb := mkKeyDb {
  key_rows : gmap Z (option apiKeyRecord);
  key_ids : gset Z;
  key_hashes : gmap string Z;
  key_next_id : Z;
  key_rpm : gmap (Z * Z) (Z * Z);
  key_ledgers : gmap Z ledger;
}.
Definition empty_keys : KeyDb := mkKeyDb ∅ ∅ ∅ 0 ∅ ∅.

Definition ledger_of (db : KeyDb) (id : Z) : ledger := default empty_ledger (key_ledgers db !! id).
Definition set_key_row (id : Z) (row : option apiKeyRecord) (db : KeyDb) : KeyDb :=
  mkKeyDb (<[id := row]> (key_rows db)) (key_ids db) (key_hashes db) (key_next_id db) (key_rpm db)
    (key_ledgers db).
Definition set_ledger (id : Z) (l : ledger) (db : KeyDb) : KeyDb :=
  mkKeyDb (key_rows db) (key_ids db) (key_hashes db) (key_next_id db) (key_rpm db)
    (<[id := l]> (key_ledgers db)).
Definition set_hashes (h : gmap string Z) (db : KeyDb) : KeyDb :=
  mkKeyDb (key_rows db) (key_ids db) h (key_next_id db) (key_rpm db) (key_ledgers db).

(** The settled counter, not the row, says what a key has used. *)
Definition getApiKeyByID (db : KeyDb) (id : Z) : result ApiKey ledger_error :=
  if id =? 0 then Err ErrNoRows
  else match key_rows db !! id with
       | None => Err ErrNoRows
       | Some None => Err ErrKeyUnreadable
       | Some (Some record) =>
           let record := if r_ID record =? 0 then with_key_ID record id else record in
           Ok (toApiKey (match used (ledger_of db id) with
                         | Some n => with_used record n
                         | None => record
                         end))
       end.

(** A row that does not decode is left out of a listing. *)
Definition ListApiKeys (db : KeyDb) : list ApiKey :=
  compactNonNil ((fun id =>
    match key_rows db !! id with
    | Some (Some record) =>
        let record := if r_ID record =? 0 then with_key_ID record id else record in
        Some (toApiKey (match used (ledger_of db id) with
                        | Some n => with_used record n | None => record end))
    | _ => None
    end) <$> parseSortedInt64s (key_ids db)).

Definition CreateApiKey (now : Time) (key : ApiKey) (db : KeyDb) : ApiKey * KeyDb :=
  let id := key_next_id db + 1 in
  let record := with_key_ID (k_record key) id in
  let record := if IsZero (r_CreatedAt record) then with_CreatedAt record now else record in
  let key := mkApiKey record (k_KeyFull key) in
  let record := apiKeyRecordFromKey key in
  let l := ledger_of db id in
  let l := mkLedger (holds l) (holds_expire l)
             (if 0 <? r_BillingUsedUSDTicks record then Some (r_BillingUsedUSDTicks record) else used l)
             (settled l) (r_BillingLimitUSDTicks record) in
  (key, mkKeyDb (<[id := Some record]> (key_rows db)) ({[ id ]} ∪ key_ids db)
          (if String.eqb (r_KeyHash record) "" then key_hashes db
           else <[r_KeyHash record := id]> (key_hashes db))
          id (key_rpm db) (<[id := l]> (key_ledgers db))).

Definition UpdateApiKey (key : ApiKey) (db : KeyDb) : result unit ledger_error * KeyDb :=
  let record := apiKeyRecordFromKey key in
  let id := r_ID record in
  if id =? 0 then (Err ErrNoRows, db)
  else match getApiKeyByID db id with
       | Err e => (Err e, db)
       | Ok existing =>
           let old := r_KeyHash (k_record existing) in
           let hashes :=
             if String.eqb old (r_KeyHash record) then key_hashes db
             else
               let h := if String.eqb old "" then key_hashes db else delete old (key_hashes db) in
               if String.eqb (r_KeyHash record) "" then h else <[r_KeyHash record := id]> h in
           let l := ledger_of db id in
           (Ok tt, set_hashes hashes (set_key_row id (Some record)
              (set_ledger id (mkLedger (holds l) (holds_expire l) (used l) (settled l)
                                (r_BillingLimitUSDTicks record)) db)))
       end.

Definition DeleteApiKey (id : Z) (db : KeyDb) : result unit ledger_error * KeyDb :=
  if id =? 0 then (Err ErrNoRows, db)
  else match getApiKeyByID db id with
       | Err e => (Err e, db)
       | Ok key =>
           let hash := r_KeyHash (k_record key) in
           (Ok tt, mkKeyDb (delete id (key_rows db)) (key_ids db ∖ {[ id ]})
                     (if String.eqb hash "" then key_hashes db else delete hash (key_hashes db))
                     (key_next_id db) (key_rpm db) (delete id (key_ledgers db)))
       end.

(** ** Scripts that rewrite a row *)
Section Scripts.
Context (cjson : apiKeyRecord -> option apiKeyRecord).

Definition touch_row (now : Time) (row : option apiKeyRecord) : option apiKeyRecord :=
  match row with Some r => cjson (with_LastUsedAt r now) | None => None end.

(** [consumeApiKeyRPMScript]: INCR on a counter that is gone restarts it. *)
Definition live_count (server : Z) (counter : option (Z * Z)) : Z :=
  match counter with
  | Some (count, expires) => if expires <=? server then 0 else count
  | None => 0
  end.

Definition consumeApiKeyRPMScript (server id minute ttl limit : Z) (now : Time) (db : KeyDb)
    : result Z ledger_error * KeyDb :=
  match key_rows db !! id with
  | None => (Err ErrKeyNotFound, db)
  | Some row =>
      let db := set_key_row id (touch_row now row) db in
      if limit <=? 0 then (Ok 0, db)
      else
        let count := live_count server (key_rpm db !! (id, minute)) + 1 in
        let expires := if count =? 1 then server + ttl * 1000
                       else match key_rpm db !! (id, minute) with Some (_, e) => e | None => 0 end in
        (Ok count, mkKeyDb (key_rows db) (key_ids db) (key_hashes db) (key_next_id db)
                     (<[(id, minute) := (count, expires)]> (key_rpm db)) (key_ledgers db))
  end.

Definition ConsumeApiKeyRPM (server : Time) (id limit : Z) (now : Time) (db : KeyDb)
    : result bool ledger_error * KeyDb :=
  if id =? 0 then (Err ErrNoRows, db)
  else
    let minute := Z.quot (Unix now) 60 in
    match consumeApiKeyRPMScript (UnixMilli server) id minute 120 limit now db with
    | (Err e, db) => (Err e, db)
    | (Ok count, db) => (Ok (count <=? limit), db)
    end.

Definition TouchApiKeyLastUsed (id : Z) (now : Time) (db : KeyDb) : result unit ledger_error * KeyDb :=
  if id =? 0 then (Err ErrNoRows, db)
  else match key_rows db !! id with
       | None => (Err ErrKeyNotFound, db)
       | Some row => (Ok tt, set_key_row id (touch_row now row) db)
       end.

(** [time.AddDate(0, 0, days)] of a UTC instant. *)
Definition AddDays (t : Time) (days : Z) : Time := t + days * 24 * Hour.

(** The stamp's text begins with "0001-": an instant of year 1. *)
Definition year_one (t : Time) : bool := (0 <=? t) && (t <? AddDays zero_time 365).

(** [rolloverApiKeyBillingScript]. An unset period start is passed as the empty
    text ([IsZero expected]); instants are compared as their UTC texts. *)
Definition rolloverApiKeyBillingScript (id : Z) (expected now : Time) (days : Z) (db : KeyDb)
    : result Z ledger_error * KeyDb :=
  match key_rows db !! id with
  | None => (Err ErrKeyNotFound, db)
  | Some None => (Err ErrKeyUnreadable, db)
  | Some (Some row) =>
      if negb (r_BillingPeriodDays row =? days) then (Ok 0, db)
      else if (if IsZero expected then negb (year_one (r_BillingPeriodStartedAt row))
               else negb (r_BillingPeriodStartedAt row =? expected)) then (Ok 0, db)
      else
        let row := cjson (with_period row (r_BillingUsedUSDTicks row) now) in
        (Ok 1, set_ledger id (rollover_ledger (ledger_of db id)) (set_key_row id row db))
  end.

Definition RolloverApiKeyBilling (key : ApiKey) (now : Time) (db : KeyDb)
    : result bool ledger_error * KeyDb :=
  let r := k_record key in
  if r_ID r =? 0 then (Err ErrNoRows, db)
  else if r_BillingPeriodDays r <=? 0 then (Ok false, db)
  else
    let started := r_BillingPeriodStartedAt r in
    if negb (IsZero started) && Before now (AddDays started (r_BillingPeriodDays r))
    then (Ok false, db)
    else match rolloverApiKeyBillingScript (r_ID r) started now (r_BillingPeriodDays r) db with
         | (Err e, db) => (Err e, db)
         | (Ok result, db) => (Ok (result =? 1), db)
         end.

(** ** A process: the hash cache of its store and its usage touches *)
Record process := mkProcess { keyIndex : gmap string Z; keyTouches : gmap Z Time }.

(** The part of [GetApiKeyByHash] after the cache. *)
Definition lookup_in_store (hash : string) (p : process) (db : KeyDb)
    : result ApiKey ledger_error * process :=
  match key_hashes db !! hash with
  | None => (Err ErrNoRows, p)
  | Some id =>
      match getApiKeyByID db id with
      | Err e => (Err e, p)
      | Ok key =>
          if negb (String.eqb (r_KeyHash (k_record key)) hash) then (Err ErrNoRows, p)
          else
            let index := if (4096 <=? size (keyIndex p))%nat then ∅ else keyIndex p in
            (Ok key, mkProcess (<[hash := id]> index) (keyTouches p))
      end
  end.

Definition GetApiKeyByHash (hash : string) (p : process) (db : KeyDb)
    : result ApiKey ledger_error * process :=
  let hash := TrimSpace hash in
  if String.eqb hash "" then (Err ErrNoRows, p)
  else
    let forget := mkProcess (delete hash (keyIndex p)) (keyTouches p) in
    let cachedID := default 0 (keyIndex p !! hash) in
    if cachedID =? 0 then lookup_in_store hash p db
    else match getApiKeyByID db cachedID with
         | Ok key => if String.eqb (r_KeyHash (k_record key)) hash then (Ok key, p)
                     else lookup_in_store hash forget db
         | Err ErrNoRows => lookup_in_store hash forget db
         | Err e => (Err e, p)
         end.

Definition touchApiKeyCoalesced (id : Z) (now : Time) (p : process) (db : KeyDb)
    : result unit ledger_error * process * KeyDb :=
  let previous := default zero_time (keyTouches p !! id) in
  if negb (IsZero previous) && (Sub now previous <? Minute) then (Ok tt, p, db)
  else
    let touches := if (65536 <=? size (keyTouches p))%nat then ∅ else keyTouches p in
    match TouchApiKeyLastUsed id now db with
    | (Ok _, db) => (Ok tt, mkProcess (keyIndex p) (<[id := now]> touches), db)
    | (Err e, db) => (Err e, mkProcess (keyIndex p) (delete id touches), db)
    end.

(** [Store.rolloverApiKeyBilling]: a failure is logged and ignored. *)
Definition rolloverApiKeyBilling (key : ApiKey) (now : Time) (db : KeyDb) : ApiKey * KeyDb :=
  if r_BillingPeriodDays (k_record key) <=? 0 then (key, db)
  else match RolloverApiKeyBilling key now db with
       | (Ok true, db) => (mkApiKey (with_period (k_record key) 0 now) (k_KeyFull key), db)
       | (_, db) => (key, db)
       end.

Inductive auth_error := AuthNoRows | AuthExpired | AuthRateLimited | AuthStore (e : ledger_error).

Definition auth_store (e : ledger_error) : auth_error :=
  match e with ErrNoRows => AuthNoRows | _ => AuthStore e end.

(** [server] is Redis's clock, [now] the process's. *)
Definition AuthorizeApiKey (digest : string -> string) (server now : Time) (raw : string)
    (p : process) (db : KeyDb) : result ApiKey auth_error * process * KeyDb :=
  let raw := TrimSpace raw in
  if String.eqb raw "" then (Err AuthNoRows, p, db)
  else
    match GetApiKeyByHash (digest raw) p db with
    | (Err e, p) => (Err (auth_store e), p, db)
    | (Ok key, p) =>
        let r := k_record key in
        if negb (r_Enabled r) then (Err AuthNoRows, p, db)
        else if match r_ExpiresAt r with Some at_ => negb (Before now at_) | None => false end
        then (Err AuthExpired, p, db)
        else
          let '(admitted, p, db) :=
            if 0 <? r_RPMLimit r then
              match ConsumeApiKeyRPM server (r_ID r) (r_RPMLimit r) now db with
              | (Err e, db) => (Err (auth_store e), p, db)
              | (Ok false, db) => (Err AuthRateLimited, p, db)
              | (Ok true, db) => (Ok tt, p, db)
              end
            else match touchApiKeyCoalesced (r_ID r) now p db with
                 | (Err e, p, db) => (Err (auth_store e), p, db)
                 | (Ok _, p, db) => (Ok tt, p, db)
                 end in
          match admitted with
          | Err e => (Err e, p, db)
          | Ok _ =>
              let key := mkApiKey (with_LastUsedAt r now) (k_KeyFull key) in
              let '(key, db) := rolloverApiKeyBilling key now db in
              (Ok key, p, db)
          end
    end.
End Scripts.

(** ** The hash index stays in step with the rows *)

(** The figures Redis's JSON library writes out in full (14 digits). *)
Definition ticks_small (r : apiKeyRecord) : Prop :=
  Z.abs (r_BillingLimitUSDTicks r) < 10 ^ 14 /\ Z.abs (r_BillingUsedUSDTicks r) < 10 ^ 14.

Definition stored (db : KeyDb) (id : Z) (r : apiKeyRecord) : Prop := key_rows db !! id = Some (Some r).

Record keys_ok (db : KeyDb) : Prop := mkKeysOk {
  index_exact : forall h id, key_hashes db !! h = Some id <->
                  h <> "" /\ exists r, stored db id r /\ r_KeyHash r = h;
  rows_readable : forall id, key_rows db !! id <> Some None;
  rows_numbered : forall id r, stored db id r -> r_ID r = id /\ 0 < id <= key_next_id db /\ ticks_small r;
}.

(** The digest of no other key: what 256 bits of randomness give. *)
Definition unused_hash (db : KeyDb) (id : Z) (h : string) : Prop :=
  forall id' r, stored db id' r -> r_KeyHash r = h -> id' = id.

Section Laws.
Context (cjson : apiKeyRecord -> option apiKeyRecord).
Hypothesis cjson_small : forall r, ticks_small r -> cjson r = Some r.

Inductive key_step (db : KeyDb) : KeyDb -> Prop :=
  | step_create now key :
      0 <= key_next_id db -> ticks_small (k_record key) ->
      unused_hash db (key_next_id db + 1) (r_KeyHash (k_record key)) ->
      key_step db (CreateApiKey now key db).2
  | step_update key :
      ticks_small (k_record key) -> unused_hash db (r_ID (k_record key)) (r_KeyHash (k_record key)) ->
      key_step db (UpdateApiKey key db).2
  | step_delete id : key_step db (DeleteApiKey id db).2
  | step_consume server id limit now : key_step db (ConsumeApiKeyRPM cjson server id limit now db).2
  | step_touch id now : key_step db (TouchApiKeyLastUsed cjson id now db).2
  | step_rollover key now : key_step db (RolloverApiKeyBilling cjson key now db).2
  | step_ledger id l : key_step db (set_ledger id l db).

Lemma getApiKeyByID_stored db id key :
  getApiKeyByID db id = Ok key -> exists r, stored db id r /\
    r_KeyHash (k_record key) = r_KeyHash r /\ r_Enabled (k_record key) = r_Enabled r /\
    r_ExpiresAt (k_record key) = r_ExpiresAt r /\ r_RPMLimit (k_record key) = r_RPMLimit r.
Proof.
  unfold getApiKeyByID. destruct (id =? 0); [done|].
  destruct (key_rows db !! id) as [[r|]|] eqn:E; [|done..]. intros [= <-]. exists r.
  by destruct (r_ID r =? 0), (used (ledger_of db id)).
Qed.

Lemma stored_readable db id r :
  keys_ok db -> stored db id r ->
  exists key, getApiKeyByID db id = Ok key /\ r_KeyHash (k_record key) = r_KeyHash r.
Proof.
  intros Hok Hr. destruct (rows_numbered db Hok id r Hr) as (_ & Hid & _).
  unfold getApiKeyByID. rewrite (proj2 (Z.eqb_neq id 0)) by lia. rewrite Hr. eexists. split; [done|].
  by destruct (r_ID r =? 0), (used (ledger_of db id)).
Qed.

(** A row rewritten in place keeps the index exact. *)
Lemma rewrite_ok db id r r' :
  keys_ok db -> stored db id r -> r_KeyHash r' = r_KeyHash r -> r_ID r' = r_ID r -> ticks_small r' ->
  keys_ok (set_key_row id (Some r') db).
Proof.
  intros [Hx Hr Hn] Hs Hh Hi Ht. split.
  - intros h j. cbn. rewrite Hx. unfold stored in *. cbn. split.
    + intros (He & r0 & Hj & H0). split; [done|]. destruct (decide (j = id)) as [->|Hne].
      * exists r'. rewrite lookup_insert_eq. naive_solver.
      * exists r0. by rewrite lookup_insert_ne.
    + intros (He & r0 & Hj & H0). split; [done|]. destruct (decide (j = id)) as [->|Hne].
      * rewrite lookup_insert_eq in Hj. injection Hj as <-. exists r. by rewrite <- Hh.
      * rewrite lookup_insert_ne in Hj by done. by exists r0.
  - intros j. cbn. destruct (decide (j = id)) as [->|Hne]; [by rewrite lookup_insert_eq|].
    rewrite lookup_insert_ne by done. apply Hr.
  - intros j r0. unfold stored. cbn. destruct (decide (j = id)) as [->|Hne].
    + rewrite lookup_insert_eq. intros [= <-]. destruct (Hn id r Hs) as (? & ? & ?). by rewrite Hi.
    + rewrite lookup_insert_ne by done. apply Hn.
Qed.

Lemma touch_ok db id now row :
  keys_ok db -> key_rows db !! id = Some row -> keys_ok (set_key_row id (touch_row cjson now row) db).
Proof.
  intros Hok Hrow. destruct row as [r|]; [|by destruct (rows_readable db Hok id)].
  destruct (rows_numbered db Hok id r Hrow) as (_ & _ & Ht).
  cbn. rewrite cjson_small by done. by eapply rewrite_ok.
Qed.

Lemma create_ok now key db :
  keys_ok db -> 0 <= key_next_id db -> ticks_small (k_record key) ->
  unused_hash db (key_next_id db + 1) (r_KeyHash (k_record key)) -> keys_ok (CreateApiKey now key db).2.
Proof.
  intros [Hx Hr Hn] Hnext Ht Hu. unfold CreateApiKey. set (id := key_next_id db + 1) in *.
  cbv zeta. cbn [k_record apiKeyRecordFromKey snd].
  set (rec := if IsZero _ then _ else _).
  assert (Hrec : r_KeyHash rec = r_KeyHash (k_record key) /\ r_ID rec = id /\ ticks_small rec)
    by (subst rec; by destruct (IsZero _)).
  clearbody rec. destruct Hrec as (Hh & Hi & Ht').
  assert (Hfresh : key_rows db !! id = None).
  { destruct (key_rows db !! id) as [[r|]|] eqn:E; [|by destruct (Hr id)|done].
    destruct (Hn id r E) as (_ & ? & _). lia. }
  assert (Hst : forall j r, stored db j r -> j <> id) by (intros j r Hj ->; unfold stored in Hj; congruence).
  split.
  - intros h j. unfold stored. cbn. rewrite Hh. destruct (decide (j = id)) as [->|Hne].
    + rewrite lookup_insert_eq. destruct (String.eqb _ "") eqn:E.
      * apply String.eqb_eq in E. rewrite Hx. split; [intros (_ & r & Hj & _); by apply Hst in Hj|].
        intros (Hne & r & [= <-] & <-). congruence.
      * apply String.eqb_neq in E. destruct (decide (h = r_KeyHash (k_record key))) as [->|Hneh].
        -- rewrite lookup_insert_eq. split; [|done]. intros _. split; [done|]. by exists rec.
        -- rewrite lookup_insert_ne by done. rewrite Hx. split; [intros (_ & r & Hj & _); by apply Hst in Hj|].
           intros (_ & r & [= <-] & <-). congruence.
    + rewrite lookup_insert_ne by done. destruct (String.eqb _ "") eqn:E; [apply Hx|].
      apply String.eqb_neq in E. destruct (decide (h = r_KeyHash (k_record key))) as [->|Hneh].
      * rewrite lookup_insert_eq. split; [congruence|]. intros (_ & r & Hj & Hhj). by destruct Hne, (Hu j r).
      * rewrite lookup_insert_ne by done. apply Hx.
  - intros j. cbn. destruct (decide (j = id)) as [->|Hne]; [by rewrite lookup_insert_eq|].
    rewrite lookup_insert_ne by done. apply Hr.
  - intros j r. unfold stored. cbn. destruct (decide (j = id)) as [->|Hne].
    + rewrite lookup_insert_eq. intros [= <-]. split_and!; [done|lia|lia|done..].
    + rewrite lookup_insert_ne by done. intros Hj. destruct (Hn j r Hj) as (? & ? & ?). split_and!; [done|lia..|done].
Qed.

Lemma set_ledger_ok id l db : keys_ok db -> keys_ok (set_ledger id l db).
Proof. by intros [Hx Hr Hn]. Qed.

Lemma no_empty_hash db : keys_ok db -> key_hashes db !! "" = None.
Proof.
  intros Hok. destruct (key_hashes db !! "") eqn:E; [|done]. apply (index_exact db Hok) in E. naive_solver.
Qed.

Lemma hash_unique db id id' r r' :
  keys_ok db -> stored db id r -> stored db id' r' -> r_KeyHash r = r_KeyHash r' ->
  r_KeyHash r <> "" -> id = id'.
Proof.
  intros Hok Hr Hr' He Hne.
  assert (key_hashes db !! r_KeyHash r = Some id) by (apply (index_exact db Hok); eauto).
  assert (key_hashes db !! r_KeyHash r = Some id') by (apply (index_exact db Hok); eauto). congruence.
Qed.

(** Moving the index entry of key [id] from one hash to another. *)
Definition moved (old new : string) (id : Z) (h : gmap string Z) : gmap string Z :=
  if String.eqb old new then h
  else
    let h := if String.eqb old "" then h else delete old h in
    if String.eqb new "" then h else <[new := id]> h.

Lemma moved_lookup old new id h g :
  h !! "" = None -> (old <> "" -> h !! old = Some id) ->
  moved old new id h !! g =
    if decide (g = "") then None else if decide (g = new) then Some id
    else if decide (g = old) then None else h !! g.
Proof.
  intros He Ho. unfold moved.
  destruct (String.eqb old new) eqn:E1; [apply String.eqb_eq in E1; subst new|apply String.eqb_neq in E1].
  { repeat case_decide; subst; auto. }
  destruct (String.eqb old "") eqn:E2; [apply String.eqb_eq in E2; subst old|apply String.eqb_neq in E2];
    (destruct (String.eqb new "") eqn:E3; [apply String.eqb_eq in E3; subst new|apply String.eqb_neq in E3]);
    repeat case_decide; subst; try done;
    rewrite ?lookup_insert_eq, ?lookup_insert_ne, ?lookup_delete_eq, ?lookup_delete_ne by done; done.
Qed.

Lemma update_ok key db :
  keys_ok db -> ticks_small (k_record key) -> unused_hash db (r_ID (k_record key)) (r_KeyHash (k_record key)) ->
  keys_ok (UpdateApiKey key db).2.
Proof.
  intros Hok Ht Hu. unfold UpdateApiKey, apiKeyRecordFromKey. set (rec := k_record key) in *. set (id := r_ID rec) in *.
  cbv zeta. destruct (id =? 0); [done|].
  destruct (getApiKeyByID db id) as [old|e] eqn:Eg; [|done].
  destruct (getApiKeyByID_stored _ _ _ Eg) as (r & Hs & Hold & _). rewrite Hold. clear Eg Hold.
  fold (moved (r_KeyHash r) (r_KeyHash rec) id (key_hashes db)).
  pose proof (no_empty_hash db Hok) as He. pose proof (hash_unique db id) as Huniq.
  pose proof Hok as [Hx Hr Hn]. destruct (Hn id r Hs) as (_ & Hid & _). cbn [snd]. split.
  - intros h j. unfold stored. cbn [key_hashes key_rows set_hashes set_key_row].
    rewrite moved_lookup by (done || intros ?; apply Hx; eauto).
    assert (Hrow : forall r0, <[id := Some rec]> (key_rows db) !! j = Some (Some r0) <->
              (j = id /\ r0 = rec) \/ (j <> id /\ stored db j r0)).
    { intros r0. rewrite lookup_insert_Some. unfold stored. naive_solver. }
    setoid_rewrite Hrow. clear Hrow.
    destruct (decide (h = "")) as [->|Hne]; [split; [done|by intros [? _]]|].
    destruct (decide (h = r_KeyHash rec)) as [->|Hnew].
    { split; [intros [= <-]; split; [done|]; exists rec; auto|].
      intros (_ & r0 & [[-> _]|[Hj Hs0]] & Hh); [done|]. by destruct Hj, (Hu j r0). }
    destruct (decide (h = r_KeyHash r)) as [->|Hold].
    { split; [done|]. intros (_ & r0 & [[_ ->]|[Hj Hs0]] & Hh); [done|]. destruct Hj. symmetry.
      by apply (Huniq j r r0). }
    rewrite Hx. split; intros (_ & r0 & Hj & Hh); (split; [done|]; exists r0; split; [|done]).
    + right. split; [|done]. intros ->. unfold stored in *. congruence.
    + destruct Hj as [[_ ->]|[_ Hj]]; [done|exact Hj].
  - intros j. cbn. destruct (decide (j = id)) as [->|Hne]; [by rewrite lookup_insert_eq|].
    rewrite lookup_insert_ne by done. apply Hr.
  - intros j r0. unfold stored. cbn. destruct (decide (j = id)) as [->|Hne].
    + rewrite lookup_insert_eq. by intros [= <-].
    + rewrite lookup_insert_ne by done. apply Hn.
Qed.

Lemma delete_ok id db : keys_ok db -> keys_ok (DeleteApiKey id db).2.
Proof.
  intros Hok. unfold DeleteApiKey. destruct (id =? 0); [done|].
  destruct (getApiKeyByID db id) as [old|e] eqn:Eg; [|done].
  destruct (getApiKeyByID_stored _ _ _ Eg) as (r & Hs & Hold & _). rewrite Hold. clear Eg Hold.
  pose proof (no_empty_hash db Hok) as He. pose proof (hash_unique db id) as Huniq.
  pose proof Hok as [Hx Hr Hn]. cbn [snd]. split.
  - intros h j. unfold stored. cbn [key_hashes key_rows].
    trans (h <> r_KeyHash r /\ key_hashes db !! h = Some j).
    { destruct (String.eqb (r_KeyHash r) "") eqn:E.
      - apply String.eqb_eq in E. rewrite E. split; [|by intros [_ ?]]. intros Hj. split; [|done].
        intros ->. congruence.
      - rewrite lookup_delete_Some. split; intros [? ?]; auto. }
    rewrite Hx. setoid_rewrite lookup_delete_Some. split.
    + intros (Hh & Hne & r0 & Hj & <-). split; [done|]. exists r0. split; [split; [|done]|done].
      intros <-. destruct Hh. unfold stored in *. congruence.
    + intros (Hne & r0 & [Hid Hj] & <-). split; [|split; [done|by exists r0; split]].
      intros E. destruct Hid. apply (Huniq j r r0 Hok Hs Hj); [by rewrite E|by rewrite <- E].
  - intros j. cbn. destruct (decide (j = id)) as [->|Hne]; [by rewrite lookup_delete_eq|].
    rewrite lookup_delete_ne by done. apply Hr.
  - intros j r0. unfold stored. cbn. intros [_ Hj]%lookup_delete_Some. by apply Hn.
Qed.

Lemma rollover_ok key now db : keys_ok db -> keys_ok (RolloverApiKeyBilling cjson key now db).2.
Proof.
  intros Hok. unfold RolloverApiKeyBilling, rolloverApiKeyBillingScript.
  destruct (_ =? 0); [done|]. destruct (_ <=? 0); [done|]. destruct (_ && _); [done|].
  destruct (key_rows db !! _) as [[r|]|] eqn:E; [|done..]. destruct (negb _); [done|].
  destruct (if IsZero _ then _ else _); [done|]. cbn [snd]. apply set_ledger_ok.
  destruct (rows_numbered db Hok _ r E) as (_ & _ & Ht). rewrite cjson_small by done.
  by eapply rewrite_ok.
Qed.

Lemma key_step_ok db db' : key_step db db' -> keys_ok db -> keys_ok db'.
Proof.
  intros Hstep Hok. destruct Hstep as [now key Hn Ht Hu|key Ht Hu|id|server id limit now|id now|key now|id l].
  - by apply create_ok.
  - by apply update_ok.
  - by apply delete_ok.
  - unfold ConsumeApiKeyRPM, consumeApiKeyRPMScript. destruct (id =? 0); [done|].
    destruct (key_rows db !! id) as [row|] eqn:E; [|done].
    pose proof (touch_ok db id now row Hok E) as [Hx Hr Hn]. by destruct (limit <=? 0).
  - unfold TouchApiKeyLastUsed. destruct (id =? 0); [done|].
    destruct (key_rows db !! id) as [row|] eqn:E; [|done]. by apply touch_ok.
  - by apply rollover_ok.
  - by apply set_ledger_ok.
Qed.

Lemma empty_keys_ok : keys_ok empty_keys.
Proof.
  split; [|done|done]. intros h id. split; [done|]. intros (_ & r & Hr & _). done.
Qed.

Lemma lookup_from_index hash p db :
  keys_ok db -> TrimSpace hash = hash -> hash <> "" ->
  (GetApiKeyByHash hash p db).1 =
    match key_hashes db !! hash with Some id => getApiKeyByID db id | None => Err ErrNoRows end.
Proof.
  intros Hok Ht Hne. unfold GetApiKeyByHash. rewrite Ht, (proj2 (String.eqb_neq _ _) Hne).
  assert (Hstore : forall p, (lookup_in_store hash p db).1 =
    match key_hashes db !! hash with Some id => getApiKeyByID db id | None => Err ErrNoRows end).
  { intros q. unfold lookup_in_store. destruct (key_hashes db !! hash) as [id|] eqn:E; [|done].
    apply (index_exact db Hok) in E as (_ & r & Hr & Hh).
    destruct (stored_readable db id r Hok Hr) as (key & -> & Hk). by rewrite Hk, Hh, String.eqb_refl. }
  destruct (_ =? 0); [apply Hstore|]. set (cached := default 0 _).
  destruct (getApiKeyByID db cached) as [key|e] eqn:Eg.
  - destruct (String.eqb _ hash) eqn:Eh; [|apply Hstore]. apply String.eqb_eq in Eh.
    destruct (getApiKeyByID_stored _ _ _ Eg) as (r & Hr & Hk & _).
    assert (key_hashes db !! hash = Some cached) as ->; [|by rewrite Eg].
    apply (index_exact db Hok). split; [done|]. exists r. split; [done|congruence].
  - unfold getApiKeyByID in Eg. destruct (cached =? 0); [injection Eg as <-; apply Hstore|].
    destruct (key_rows db !! cached) as [[r|]|] eqn:Er; [done| |injection Eg as <-; apply Hstore].
    by destruct (rows_readable db Hok cached).
Qed.


(** ** Authorisation *)
Lemma lookup_sound hash p p' db key :
  GetApiKeyByHash hash p db = (Ok key, p') ->
  exists id, getApiKeyByID db id = Ok key /\ r_KeyHash (k_record key) = TrimSpace hash.
Proof.
  unfold GetApiKeyByHash. destruct (String.eqb _ ""); [done|].
  assert (Hstore : forall q q', lookup_in_store (TrimSpace hash) q db = (Ok key, q') ->
            exists id, getApiKeyByID db id = Ok key /\ r_KeyHash (k_record key) = TrimSpace hash).
  { intros q q'. unfold lookup_in_store. destruct (key_hashes db !! _) as [id|]; [|done].
    destruct (getApiKeyByID db id) as [k|] eqn:E; [|done]. destruct (String.eqb _ _) eqn:Eh; [|done].
    intros [= <- _]. exists id. split; [done|]. by apply String.eqb_eq in Eh. }
  destruct (_ =? 0); [apply Hstore|].
  destruct (getApiKeyByID db _) as [k|e] eqn:E.
  - destruct (String.eqb _ _) eqn:Eh; [|apply Hstore]. intros [= <- _]. apply String.eqb_eq in Eh. eauto.
  - destruct e; try done. apply Hstore.
Qed.

(** What an admission by the per-minute limit leaves behind. *)
Lemma consume_counted server id limit now db db' :
  0 < limit -> ConsumeApiKeyRPM cjson server id limit now db = (Ok true, db') ->
  exists count expires, key_rpm db' !! (id, Z.quot (Unix now) 60) = Some (count, expires) /\ count <= limit.
Proof.
  intros Hlim. unfold ConsumeApiKeyRPM, consumeApiKeyRPMScript. destruct (id =? 0); [done|].
  destruct (key_rows db !! id); [|done]. rewrite (proj2 (Z.leb_gt _ _) Hlim).
  intros [= Hc <-]. bool_to_prop. cbn. eexists _, _. rewrite lookup_insert_eq. done.
Qed.

(** Whoever is authorised is entitled to be. A raw key is accepted only when a
    stored row carries its digest, is enabled and has not expired; and under a
    per-minute limit only when, this request included, the minute's counter is
    within the limit. *)
Theorem authorize_sound (digest : string -> string) (server now : Time) (raw : string)
    (p p' : process) (db db' : KeyDb) (key : ApiKey) :
  AuthorizeApiKey cjson digest server now raw p db = (Ok key, p', db') ->
  TrimSpace raw <> "" /\
  exists id r, stored db id r /\ r_KeyHash r = TrimSpace (digest (TrimSpace raw)) /\
    r_Enabled r = true /\ (forall at_, r_ExpiresAt r = Some at_ -> now < at_) /\
    r_KeyHash (k_record key) = r_KeyHash r /\ r_LastUsedAt (k_record key) = Some now /\
    (0 < r_RPMLimit r -> exists count expires,
       key_rpm db' !! (r_ID (k_record key), Z.quot (Unix now) 60) = Some (count, expires) /\
       count <= r_RPMLimit r).
Proof.
  unfold AuthorizeApiKey. destruct (String.eqb _ "") eqn:Eraw; [done|]. apply String.eqb_neq in Eraw.
  destruct (GetApiKeyByHash _ p db) as [[k|e] p1] eqn:Eg; [|done].
  destruct (lookup_sound _ _ _ _ _ Eg) as (id & Hid & Hhash).
  destruct (getApiKeyByID_stored _ _ _ Hid) as (r & Hr & Hh & Hen & Hex & Hrpm).
  destruct (r_Enabled (k_record k)) eqn:Een; [|done]. cbn [negb].
  destruct (match r_ExpiresAt _ with Some _ => _ | None => _ end) eqn:Eexp; [done|].
  assert (Hlive : forall at_, r_ExpiresAt r = Some at_ -> now < at_).
  { intros at_ Hat. rewrite Hex, Hat in Eexp. unfold Before in Eexp. bool_to_prop. lia. }
  assert (Hroll : forall k db0, let '(k', db1) := rolloverApiKeyBilling cjson k now db0 in
            r_KeyHash (k_record k') = r_KeyHash (k_record k) /\ r_ID (k_record k') = r_ID (k_record k) /\
            r_LastUsedAt (k_record k') = r_LastUsedAt (k_record k) /\ key_rpm db1 = key_rpm db0).
  { intros k0 db0. unfold rolloverApiKeyBilling, RolloverApiKeyBilling, rolloverApiKeyBillingScript.
    repeat case_match; simplify_eq; done. }
  assert (Hfinish : forall p2 db2 k',
    (0 < r_RPMLimit r -> exists count expires,
       key_rpm db2 !! (r_ID (k_record k), Z.quot (Unix now) 60) = Some (count, expires) /\ count <= r_RPMLimit r) ->
    (let '(k', db3) := rolloverApiKeyBilling cjson (mkApiKey (with_LastUsedAt (k_record k) now) k') now db2 in
     (@Ok ApiKey auth_error k', p2, db3)) = (Ok key, p', db') ->
    TrimSpace raw <> "" /\
    exists id r, stored db id r /\ r_KeyHash r = TrimSpace (digest (TrimSpace raw)) /\
      r_Enabled r = true /\ (forall at_, r_ExpiresAt r = Some at_ -> now < at_) /\
      r_KeyHash (k_record key) = r_KeyHash r /\ r_LastUsedAt (k_record key) = Some now /\
      (0 < r_RPMLimit r -> exists count expires,
         key_rpm db' !! (r_ID (k_record key), Z.quot (Unix now) 60) = Some (count, expires) /\
         count <= r_RPMLimit r)).
  { intros p2 db2 full Hc Hk. pose proof (Hroll (mkApiKey (with_LastUsedAt (k_record k) now) full) db2) as Hro.
    destruct (rolloverApiKeyBilling _ _ _ _) as [k3 db3]. injection Hk as -> _ ->.
    destruct Hro as (H1 & H2 & H3 & H4). cbn in H1, H2, H3. split; [done|]. exists id, r.
    rewrite H1, H2, H3, H4, Hh. split_and!; try done; congruence. }
  destruct (0 <? r_RPMLimit (k_record k)) eqn:El.
  - bool_to_prop. destruct (ConsumeApiKeyRPM _ _ _ _ _ _) as [[[]|e] db2] eqn:Ec; try done.
    intros Hk. eapply Hfinish; [|exact Hk]. intros _.
    destruct (consume_counted _ _ _ _ _ _ El Ec) as (c & x & ? & ?). exists c, x. by rewrite <- Hrpm.
  - bool_to_prop. destruct (touchApiKeyCoalesced _ _ _ _ _) as [[[u|e] p2] db2]; [|done].
    intros Hk. eapply Hfinish; [|exact Hk]. lia.
Qed.

(** ** The per-minute limit *)
Fixpoint consume_all (id limit : Z) (calls : list (Time * Time)) (db : KeyDb)
    : list (result bool ledger_error) * KeyDb :=
  match calls with
  | [] => ([], db)
  | (server, now) :: rest =>
      let '(r, db) := ConsumeApiKeyRPM cjson server id limit now db in
      let '(rs, db) := consume_all id limit rest db in (r :: rs, db)
  end.

Definition granted (rs : list (result bool ledger_error)) : Z :=
  sumZ (fun r => match r with Ok true => 1 | _ => 0 end) rs.

Lemma granted_after id limit minute t0 calls : forall db count expires,
  0 < limit -> 1 <= count -> t0 + 120000 <= expires ->
  key_rpm db !! (id, minute) = Some (count, expires) ->
  Forall (fun c => Z.quot (Unix c.2) 60 = minute /\ t0 <= UnixMilli c.1 < t0 + 120000) calls ->
  granted (consume_all id limit calls db).1 <= Z.max 0 (limit - count).
Proof.
  induction calls as [|[server now] rest IH]; intros db count expires Hl Hc He Hk Hf; cbn [consume_all]; [cbn; lia|].
  apply Forall_cons in Hf as [[Hm Hs] Hf]. cbn [fst snd] in Hm, Hs.
  unfold ConsumeApiKeyRPM, consumeApiKeyRPMScript. rewrite Hm.
  assert (Herr : forall db', key_rpm db' = key_rpm db -> forall e : ledger_error,
    granted (let '(rs, db2) := consume_all id limit rest db' in (Err e :: rs, db2)).1 <= Z.max 0 (limit - count)).
  { intros db' E e. rewrite <- E in Hk. specialize (IH db' count expires Hl Hc He Hk Hf).
    destruct (consume_all id limit rest db'). exact IH. }
  destruct (id =? 0); [by apply Herr|]. destruct (key_rows db !! id) as [row|]; [|by apply Herr].
  rewrite (proj2 (Z.leb_gt _ _) Hl). cbn [key_rpm set_key_row]. rewrite Hk. cbn [live_count].
  rewrite (proj2 (Z.leb_gt expires (UnixMilli server))) by lia.
  rewrite (proj2 (Z.eqb_neq (count + 1) 1)) by lia.
  set (db' := mkKeyDb _ _ _ _ _ _).
  specialize (IH db' (count + 1) expires Hl ltac:(lia) He ltac:(apply lookup_insert_eq) Hf).
  destruct (consume_all id limit rest db') as [rs db2]. cbn [fst] in *.
  unfold granted in *. rewrite sumZ_cons. destruct (count + 1 <=? limit) eqn:E; bool_to_prop; lia.
Qed.

(** The per-minute limit: of any number of requests with one key in one minute,
    by any replicas, at most [limit] are admitted, as long as Redis's clock has
    not left the 120 seconds the minute's counter lives. *)
Theorem rpm_limit_per_minute (id limit minute t0 : Z) (calls : list (Time * Time)) (db : KeyDb) :
  0 < limit -> key_rpm db !! (id, minute) = None ->
  Forall (fun c => Z.quot (Unix c.2) 60 = minute /\ t0 <= UnixMilli c.1 < t0 + 120000) calls ->
  granted (consume_all id limit calls db).1 <= limit.
Proof.
  intros Hl. revert db. induction calls as [|[server now] rest IH]; intros db Hk Hf; cbn [consume_all]; [cbn; lia|].
  pose proof Hf as Hf0. apply Forall_cons in Hf as [[Hm Hs] Hf]. cbn [fst snd] in Hm, Hs.
  unfold ConsumeApiKeyRPM, consumeApiKeyRPMScript. rewrite Hm.
  assert (Herr : forall db', key_rpm db' = key_rpm db -> forall e : ledger_error,
    granted (let '(rs, db2) := consume_all id limit rest db' in (Err e :: rs, db2)).1 <= limit).
  { intros db' E e. rewrite <- E in Hk. specialize (IH db' Hk Hf).
    destruct (consume_all id limit rest db'). exact IH. }
  destruct (id =? 0); [by apply Herr|]. destruct (key_rows db !! id) as [row|]; [|by apply Herr].
  rewrite (proj2 (Z.leb_gt _ _) Hl). cbn [key_rpm set_key_row]. rewrite Hk. cbn [live_count].
  set (db' := mkKeyDb _ _ _ _ _ _).
  pose proof (granted_after id limit minute t0 rest db' 1 (UnixMilli server + 120 * 1000) Hl ltac:(done) ltac:(lia)
    ltac:(apply lookup_insert_eq) Hf) as Hrest.
  destruct (consume_all id limit rest db') as [rs db2]. cbn [fst] in *.
  unfold granted in *. rewrite sumZ_cons. destruct (0 + 1 <=? limit) eqn:E; bool_to_prop; lia.
Qed.

(** A billing period is rolled over once. A rollover happens only when the period
    the caller read has elapsed; it zeroes the settled usage and forgets the
    settled events while every live hold stays; and every other replica that
    read the same period finds it already rolled and changes nothing. *)
Theorem rollover_once (key : ApiKey) (now : Time) (db db1 : KeyDb) :
  keys_ok db -> year_one now = false ->
  RolloverApiKeyBilling cjson key now db = (Ok true, db1) ->
  let r := k_record key in
  (r_BillingPeriodStartedAt r = 0 \/
   AddDays (r_BillingPeriodStartedAt r) (r_BillingPeriodDays r) <= now) /\
  used (ledger_of db1 (r_ID r)) = Some 0 /\ settled (ledger_of db1 (r_ID r)) = ∅ /\
  holds (ledger_of db1 (r_ID r)) = holds (ledger_of db (r_ID r)) /\
  limit (ledger_of db1 (r_ID r)) = limit (ledger_of db (r_ID r)) /\
  forall now2, RolloverApiKeyBilling cjson key now2 db1 = (Ok false, db1).
Proof.
  intros Hok Hy. cbv zeta. unfold RolloverApiKeyBilling. set (r := k_record key).
  destruct (r_ID r =? 0); [done|]. destruct (r_BillingPeriodDays r <=? 0) eqn:Ed; [done|].
  destruct (negb _ && _) eqn:Ew; [done|]. unfold rolloverApiKeyBillingScript at 1.
  destruct (key_rows db !! r_ID r) as [[row|]|] eqn:Er; [|done..].
  destruct (negb (r_BillingPeriodDays row =? _)) eqn:Edays; [done|].
  destruct (if IsZero (r_BillingPeriodStartedAt r) then _ else _) eqn:Est; [done|].
  destruct (rows_numbered db Hok _ row Er) as (_ & _ & Ht). rewrite cjson_small by done.
  intros [= <-].
  assert (Hel : r_BillingPeriodStartedAt r = 0 \/
            AddDays (r_BillingPeriodStartedAt r) (r_BillingPeriodDays r) <= now).
  { unfold IsZero, Before in Ew. apply andb_false_iff in Ew as [E|E]; bool_to_prop; lia. }
  assert (Hl : ledger_of (set_ledger (r_ID r) (rollover_ledger (ledger_of db (r_ID r)))
            (set_key_row (r_ID r) (Some (with_period row (r_BillingUsedUSDTicks row) now)) db)) (r_ID r) =
            rollover_ledger (ledger_of db (r_ID r))).
  { unfold ledger_of at 1. cbn. by rewrite lookup_insert_eq. }
  rewrite Hl. split_and!; try done. intros now2.
  unfold rolloverApiKeyBillingScript. cbn [key_rows set_ledger set_key_row]. rewrite lookup_insert_eq.
  cbn [r_BillingPeriodDays with_period r_BillingPeriodStartedAt]. rewrite Edays.
  assert ((if IsZero (r_BillingPeriodStartedAt r) then negb (year_one now)
           else negb (now =? r_BillingPeriodStartedAt r)) = true) as ->; [|by destruct (Before now2 _), (IsZero (r_BillingPeriodStartedAt r))].
  rewrite Hy. destruct (IsZero _) eqn:Ez; [done|]. unfold IsZero in Ez. bool_to_prop.
  apply negb_true_iff, Z.eqb_neq. unfold AddDays, Hour in Hel. lia.
Qed.
End Laws.

(** ** One key, its store and a replica *)
Definition sample_digest (s : string) : string := "sha-" +:+ s.
Definition sample_record : apiKeyRecord :=
  mkApiKeyRecord 0 "ci" (sample_digest "sk-1") "sk" "1" true [] 2 0 500 0 30 0 None None 0.
Definition sample_keys : KeyDb := (CreateApiKey 100 (mkApiKey sample_record "") empty_keys).2.
Definition replica : process := mkProcess ∅ ∅.
Definition year_2026 : Time := unix_epoch + 1770000000 * Second.

Lemma sample_ticks : ticks_small sample_record.
Proof. by vm_compute. Qed.

Lemma sample_created : key_step Some empty_keys sample_keys.
Proof.
  apply step_create; [done|apply sample_ticks|].
  intros id r Hr. exfalso. exact (lookup_empty_Some _ _ Hr).
Qed.


Lemma authorize_sound_witness :
  exists key p' db',
    AuthorizeApiKey Some sample_digest year_2026 year_2026 " sk-1 " replica sample_keys = (Ok key, p', db') /\
    r_LastUsedAt (k_record key) = Some year_2026.
Proof.
  destruct (AuthorizeApiKey Some sample_digest year_2026 year_2026 " sk-1 " replica sample_keys)
    as [[[key|e] p'] db'] eqn:E.
  - exists key, p', db'. split; [reflexivity|].
    destruct (authorize_sound Some _ _ _ _ _ _ _ _ _ E) as (_ & id & r & _ & _ & _ & _ & _ & Hl & _). exact Hl.
  - exfalso.
    assert (H : match (AuthorizeApiKey Some sample_digest year_2026 year_2026 " sk-1 " replica sample_keys).1.1
                with Ok _ => true | Err _ => false end = true) by by vm_compute.
    by rewrite E in H.
Defined.

Definition three_calls : list (Time * Time) :=
  [(year_2026, year_2026); (year_2026 + Second, year_2026 + Second);
   (year_2026 + 2 * Second, year_2026 + 2 * Second)].

Lemma rpm_limit_per_minute_witness :
  granted (consume_all Some 1 2 three_calls sample_keys).1 <= 2.
Proof.
  apply (rpm_limit_per_minute Some 1 2 29500000 (UnixMilli year_2026)); [done|by vm_compute|].
  repeat (constructor; [by vm_compute|]). constructor.
Defined.

Lemma rollover_once_witness :
  let key := mkApiKey (with_key_ID sample_record 1) "" in
  let '(r, db1) := RolloverApiKeyBilling Some key year_2026 sample_keys in
  r = Ok true /\ RolloverApiKeyBilling Some key (year_2026 + Second) db1 = (Ok false, db1).
Proof.
  cbv zeta. set (key := mkApiKey _ _).
  assert (E : (RolloverApiKeyBilling Some key year_2026 sample_keys).1 = Ok true) by by vm_compute.
  destruct (RolloverApiKeyBilling Some key year_2026 sample_keys) as [r db1] eqn:Er. cbn in E. subst r.
  split; [reflexivity|].
  eapply (rollover_once Some (fun _ _ => eq_refl) key year_2026 sample_keys db1);
    [|by vm_compute|exact Er].
  apply (key_step_ok Some (fun _ _ => eq_refl) empty_keys); [apply sample_created|apply empty_keys_ok].
Defined.

(** With the fourteen digits Redis's library writes by default, one request with a
    key whose limit is 10,000 USD leaves a row Go no longer reads. *)
Definition cjson14 (r : apiKeyRecord) : option apiKeyRecord :=
  if (Z.abs (r_BillingLimitUSDTicks r) <? 10 ^ 14) && (Z.abs (r_BillingUsedUSDTicks r) <? 10 ^ 14)
  then Some r else None.
Definition rich_record : apiKeyRecord :=
  mkApiKeyRecord 0 "big" (sample_digest "sk-2") "sk" "2" true [] 0 0 (10 ^ 14) 0 0 0 None None 0.

Example ten_thousand_dollar_key_unreadable :
  let db := (CreateApiKey 100 (mkApiKey rich_record "") empty_keys).2 in
  let '(first, p, db) := AuthorizeApiKey cjson14 sample_digest year_2026 year_2026 "sk-2" replica db in
  let '(second, _, _) := AuthorizeApiKey cjson14 sample_digest year_2026 year_2026 "sk-2" p db in
  match first with Ok _ => True | Err _ => False end /\ second = Err (AuthStore ErrKeyUnreadable).
Proof. by vm_compute. Qed.
