(* ===== verification/Json.v ===== *)
(** * encoding/json and unicode/utf8, as the gateway uses them

    - [DecodeRune] and [EncodeRune] are utf8's coders: an invalid sequence
      decodes to U+FFFD with width 1.
    - [json_string] is the string encoder of [json.Marshal] (HTML escaping on),
      [unquote] the decoder of a string literal.
    - [rune_ind] is the induction the scanners share: one rune at a time.

    The theorems relate the two: what [json_string] writes, [unquote] reads back,
    with every byte that is not part of a UTF-8 sequence replaced by U+FFFD. *)

From Stdlib Require Import Ascii.
From stdpp Require Import base numbers list strings sets pretty.
From S2P Require Import Prelude GoLib.

Local Open Scope nat_scope.

(** Rocq cannot spell a double quote in a literal, so the JSON texts of the
    source are written with an apostrophe in its place. *)
Fixpoint js (s : string) : string :=
  match s with
  | EmptyString => EmptyString
  | String a s' => String (if is_byte 39 a then Ascii.ascii_of_nat 34 else a) (js s')
  end.

(** ** utf8 *)
Definition RuneError : Z := 65533%Z.

Definition between (lo hi : nat) (a : Ascii.ascii) : bool := (lo <=? byte_of a) && (byte_of a <=? hi).
Definition cont (a : Ascii.ascii) : bool := between 128 191 a.
Definition bits (base : nat) (a : Ascii.ascii) : Z := Z.of_nat (byte_of a) - Z.of_nat base.

(** The lower and upper bounds of the second byte of a three-byte and of a
    four-byte sequence, by its first byte (utf8's [acceptRanges]). *)
Definition accept3 (a b : Ascii.ascii) : bool :=
  between 224 239 a &&
  (if is_byte 224 a then between 160 191 b else if is_byte 237 a then between 128 159 b else cont b).
Definition accept4 (a b : Ascii.ascii) : bool :=
  between 240 244 a &&
  (if is_byte 240 a then between 144 191 b else if is_byte 244 a then between 128 143 b else cont b).

Definition rune2 (a b : Ascii.ascii) : Z := (bits 192 a * 64 + bits 128 b)%Z.
Definition rune3 (a b c : Ascii.ascii) : Z := (bits 224 a * 4096 + bits 128 b * 64 + bits 128 c)%Z.
Definition rune4 (a b c d : Ascii.ascii) : Z :=
  (bits 240 a * 262144 + bits 128 b * 4096 + bits 128 c * 64 + bits 128 d)%Z.

Definition DecodeRune (s : string) : Z * nat :=
  match s with
  | EmptyString => (RuneError, 0)
  | String a s1 =>
      if byte_of a <? 128 then (Z.of_nat (byte_of a), 1) else
      match s1 with
      | EmptyString => (RuneError, 1)
      | String b s2 =>
          if between 194 223 a && cont b then (rune2 a b, 2) else
          match s2 with
          | EmptyString => (RuneError, 1)
          | String c s3 =>
              if accept3 a b && cont c then (rune3 a b c, 3) else
              match s3 with
              | EmptyString => (RuneError, 1)
              | String d _ =>
                  if accept4 a b && cont c && cont d then (rune4 a b c d, 4) else (RuneError, 1)
              end
          end
      end
  end.

Definition chr (z : Z) : Ascii.ascii := Ascii.ascii_of_nat (Z.to_nat z).

(** A rune that is no Unicode scalar value is written as U+FFFD. *)
Definition EncodeRune (r : Z) : string :=
  let r := if ((r <? 0) || (1114111 <? r) || ((55296 <=? r) && (r <=? 57343)))%Z then RuneError else r in
  if (r <? 128)%Z then String (chr r) EmptyString
  else if (r <? 2048)%Z then
    String (chr (192 + r / 64)) (String (chr (128 + r mod 64)) EmptyString)
  else if (r <? 65536)%Z then
    String (chr (224 + r / 4096)) (String (chr (128 + (r / 64) mod 64))
      (String (chr (128 + r mod 64)) EmptyString))
  else
    String (chr (240 + r / 262144)) (String (chr (128 + (r / 4096) mod 64))
      (String (chr (128 + (r / 64) mod 64)) (String (chr (128 + r mod 64)) EmptyString))).

(** The decoding failed at this byte. *)
Definition invalid_rune (s : string) : bool :=
  let '(r, size) := DecodeRune s in (r =? RuneError)%Z && (size =? 1).

(** A left-to-right pass: [step] reads a prefix of the text, says what it writes
    for it and how many bytes it read. *)
Fixpoint scan (step : string -> string * nat) (fuel : nat) (s : string) : string :=
  match fuel, s with
  | S fuel', String _ _ => (step s).1 +:+ scan step fuel' (sdrop (step s).2 s)
  | _, _ => EmptyString
  end.

(** Every byte that belongs to no UTF-8 sequence becomes U+FFFD. *)
Definition coerce_step (s : string) : string * nat :=
  let '(r, size) := DecodeRune s in (EncodeRune r, size).
Definition ToValidUTF8 (s : string) : string := scan coerce_step (String.length s) s.

Fixpoint valid_fuel (fuel : nat) (s : string) : bool :=
  match fuel, s with
  | S fuel', String _ _ =>
      negb (invalid_rune s) && valid_fuel fuel' (sdrop (DecodeRune s).2 s)
  | _, _ => true
  end.
Definition ValidString (s : string) : bool := valid_fuel (String.length s) s.

(** ** The string encoder of json.Marshal *)
Definition hexDigits : string := "0123456789abcdef".
Definition hex (n : nat) : Ascii.ascii := default Ascii.zero (String.get n hexDigits).

Definition html_safe (a : Ascii.ascii) : bool :=
  (32 <=? byte_of a) && negb (is_byte 92 a) && negb (is_byte 34 a) &&
  negb (is_byte 60 a) && negb (is_byte 62 a) && negb (is_byte 38 a).

Definition bs (s : string) : string := String backslash s.

(** The escape of an ASCII byte that is not [html_safe]. *)
Definition escape_byte (a : Ascii.ascii) : string :=
  match byte_of a with
  | 92 | 34 => bs (String a EmptyString)
  | 8 => bs "b"
  | 12 => bs "f"
  | 10 => bs "n"
  | 13 => bs "r"
  | 9 => bs "t"
  | n => bs ("u00" +:+ String (hex (n / 16)) (String (hex (n mod 16)) EmptyString))
  end.

Definition encode_step (s : string) : string * nat :=
  match s with
  | EmptyString => (EmptyString, 0)
  | String a _ =>
      if byte_of a <? 128 then
        (if html_safe a then String a EmptyString else escape_byte a, 1)
      else
        let '(r, size) := DecodeRune s in
        (if (r =? RuneError)%Z && (size =? 1) then bs "ufffd"
         else if (r =? 8232)%Z then bs "u2028"
         else if (r =? 8233)%Z then bs "u2029"
         else stake size s, size)
  end.
Definition encode (s : string) : string := scan encode_step (String.length s) s.

(** [json.Marshal] of a string. *)
Definition json_string (v : string) : string := dquote +:+ encode v +:+ dquote.

(** ** The decoder of a string literal *)
Definition unhex (a : Ascii.ascii) : option Z :=
  let n := byte_of a in
  if (48 <=? n) && (n <=? 57) then Some (Z.of_nat n - 48)%Z
  else if (97 <=? n) && (n <=? 102) then Some (Z.of_nat n - 87)%Z
  else if (65 <=? n) && (n <=? 70) then Some (Z.of_nat n - 55)%Z
  else None.

Definition getu4 (s : string) : option Z :=
  match s with
  | String a (String b (String c (String d _))) =>
      a ← unhex a; b ← unhex b; c ← unhex c; d ← unhex d;
      Some (a * 4096 + b * 256 + c * 16 + d)%Z
  | _ => None
  end.

Definition is_surrogate (r : Z) : bool := ((55296 <=? r) && (r <? 57344))%Z.
Definition utf16_DecodeRune (r1 r2 : Z) : Z :=
  if ((55296 <=? r1) && (r1 <? 56320) && (56320 <=? r2) && (r2 <? 57344))%Z
  then ((r1 - 55296) * 1024 + (r2 - 56320) + 65536)%Z else RuneError.

(** The byte an escape letter stands for. *)
Definition unescape (a : Ascii.ascii) : option Ascii.ascii :=
  match byte_of a with
  | 34 | 92 | 47 => Some a
  | 98 => Some (Ascii.ascii_of_nat 8)
  | 102 => Some (Ascii.ascii_of_nat 12)
  | 110 => Some (Ascii.ascii_of_nat 10)
  | 114 => Some (Ascii.ascii_of_nat 13)
  | 116 => Some (Ascii.ascii_of_nat 9)
  | _ => None
  end.

(** What follows the opening quote, read up to the closing one: the value and
    the text after the literal. *)
Fixpoint unquote_fuel (fuel : nat) (s : string) : option (string * string) :=
  match fuel with
  | O => None
  | S fuel' =>
      match s with
      | EmptyString => None
      | String a s' =>
          if is_byte 34 a then Some (EmptyString, s')
          else if is_byte 92 a then
            match s' with
            | EmptyString => None
            | String e s'' =>
                if is_byte 117 e then
                  rr ← getu4 s'';
                  let rest := sdrop 4 s'' in
                  if is_surrogate rr then
                    match rest with
                    | String p (String u rest') =>
                        match (if is_byte 92 p && is_byte 117 u then getu4 rest' else None) with
                        | Some rr1 =>
                            if (utf16_DecodeRune rr rr1 =? RuneError)%Z
                            then '(v, out) ← unquote_fuel fuel' rest;
                                 Some (EncodeRune RuneError +:+ v, out)
                            else '(v, out) ← unquote_fuel fuel' (sdrop 4 rest');
                                 Some (EncodeRune (utf16_DecodeRune rr rr1) +:+ v, out)
                        | None =>
                            '(v, out) ← unquote_fuel fuel' rest;
                            Some (EncodeRune RuneError +:+ v, out)
                        end
                    | _ =>
                        '(v, out) ← unquote_fuel fuel' rest;
                        Some (EncodeRune RuneError +:+ v, out)
                    end
                  else
                    '(v, out) ← unquote_fuel fuel' rest;
                    Some (EncodeRune rr +:+ v, out)
                else
                  c ← unescape e;
                  '(v, out) ← unquote_fuel fuel' s'';
                  Some (String c v, out)
            end
          else if byte_of a <? 32 then None
          else
            let '(r, size) := DecodeRune s in
            '(v, out) ← unquote_fuel fuel' (sdrop size s);
            Some (EncodeRune r +:+ v, out)
      end
  end.

Definition unquote (s : string) : option (string * string) := unquote_fuel (S (String.length s)) s.

(** ** JSON values

    A decoded value, as [json.Unmarshal] builds it for an [interface{}]: objects
    are maps, here lists with one entry per key, a repeated key keeping its last
    value. A number keeps its literal. *)
Inductive json : Type :=
| JNull
| JBool (b : bool)
| JNum (lit : string)
| JStr (s : string)
| JArr (l : list json)
| JObj (fields : list (string * json)).

Fixpoint field (k : string) (fields : list (string * json)) : option json :=
  match fields with
  | [] => None
  | (k', v) :: rest => if String.eqb k k' then Some v else field k rest
  end.

Definition del_field (k : string) (fields : list (string * json)) : list (string * json) :=
  List.filter (fun kv => negb (String.eqb k kv.1)) fields.

(** The fields stand in the order in which they were last set. *)
Definition set_field (k : string) (v : json) (fields : list (string * json)) : list (string * json) :=
  del_field k fields ++ [(k, v)].

Definition json_space (a : Ascii.ascii) : bool :=
  is_byte 32 a || is_byte 9 a || is_byte 10 a || is_byte 13 a.

Fixpoint skip_space (s : string) : string :=
  match s with
  | String a s' => if json_space a then skip_space s' else s
  | EmptyString => EmptyString
  end.

Definition digit (a : Ascii.ascii) : bool := between 48 57 a.

Fixpoint digits (s : string) : string * string :=
  match s with
  | String a s' => if digit a then let '(d, r) := digits s' in (String a d, r) else (EmptyString, s)
  | EmptyString => (EmptyString, EmptyString)
  end.

(** At least one digit. *)
Definition digits1 (s : string) : option (string * string) :=
  match digits s with (EmptyString, _) => None | dr => Some dr end.

Definition number_frac (s : string) : option (string * string) :=
  match s with
  | String a s' => if is_byte 46 a then '(d, r) ← digits1 s'; Some (String a d, r) else Some (EmptyString, s)
  | EmptyString => Some (EmptyString, EmptyString)
  end.

Definition number_exp (s : string) : option (string * string) :=
  match s with
  | String a s' =>
      if is_byte 101 a || is_byte 69 a then
        match s' with
        | String g s'' =>
            if is_byte 43 g || is_byte 45 g
            then '(d, r) ← digits1 s''; Some (String a (String g d), r)
            else '(d, r) ← digits1 s'; Some (String a d, r)
        | EmptyString => None
        end
      else Some (EmptyString, s)
  | EmptyString => Some (EmptyString, EmptyString)
  end.

Definition number_int (s : string) : option (string * string) :=
  match s with
  | String a s' => if is_byte 48 a then Some (String a EmptyString, s') else digits1 s
  | EmptyString => None
  end.

Definition number (s : string) : option (string * string) :=
  let '(sign, s) := match s with
    | String a s' => if is_byte 45 a then (String a EmptyString, s') else (EmptyString, s)
    | EmptyString => (EmptyString, s)
    end in
  '(i, s) ← number_int s;
  '(f, s) ← number_frac s;
  '(e, s) ← number_exp s;
  Some (sign +:+ i +:+ f +:+ e, s).

Definition after (p s : string) : option string :=
  if HasPrefix s p then Some (sdrop (String.length p) s) else None.

(** One value, then the text after it. The fuel bounds the number of values and
    separators; the length of the text is enough. *)
Fixpoint value_fuel (fuel : nat) (s : string) : option (json * string) :=
  match fuel with
  | O => None
  | S fuel' =>
      match skip_space s with
      | EmptyString => None
      | String a t =>
          if is_byte 34 a then '(v, r) ← unquote t; Some (JStr v, r)
          else if is_byte 123 a then
            match after "}" (skip_space t) with
            | Some r => Some (JObj [], r)
            | None => '(fs, r) ← members_fuel fuel' [] t; Some (JObj fs, r)
            end
          else if is_byte 91 a then
            match after "]" (skip_space t) with
            | Some r => Some (JArr [], r)
            | None => '(vs, r) ← elements_fuel fuel' t; Some (JArr vs, r)
            end
          else if is_byte 45 a || digit a then '(n, r) ← number (String a t); Some (JNum n, r)
          else if HasPrefix (String a t) "true" then Some (JBool true, sdrop 4 (String a t))
          else if HasPrefix (String a t) "false" then Some (JBool false, sdrop 5 (String a t))
          else if HasPrefix (String a t) "null" then Some (JNull, sdrop 4 (String a t))
          else None
      end
  end
with members_fuel (fuel : nat) (acc : list (string * json)) (s : string) :
    option (list (string * json) * string) :=
  match fuel with
  | O => None
  | S fuel' =>
      t ← after dquote (skip_space s);
      '(k, t) ← unquote t;
      t ← after ":" (skip_space t);
      '(v, t) ← value_fuel fuel' t;
      let acc := set_field k v acc in
      match after "," (skip_space t) with
      | Some t => members_fuel fuel' acc t
      | None => r ← after "}" (skip_space t); Some (acc, r)
      end
  end
with elements_fuel (fuel : nat) (s : string) : option (list json * string) :=
  match fuel with
  | O => None
  | S fuel' =>
      '(v, t) ← value_fuel fuel' s;
      match after "," (skip_space t) with
      | Some t => '(vs, r) ← elements_fuel fuel' t; Some (v :: vs, r)
      | None => r ← after "]" (skip_space t); Some ([v], r)
      end
  end.

(** [json.Unmarshal] into an [interface{}]. The decoder's limit of 10000 nested
    values, and its refusal of a number beyond binary64, are not modelled. *)
Definition Unmarshal (s : string) : option json :=
  '(v, r) ← value_fuel (S (String.length s)) s;
  match skip_space r with EmptyString => Some v | _ => None end.

(** The compact text of a value, its fields in the order of the list. *)
Fixpoint render (j : json) : string :=
  match j with
  | JNull => "null"
  | JBool true => "true"
  | JBool false => "false"
  | JNum lit => lit
  | JStr s => json_string s
  | JArr l =>
      "[" +:+ (fix elements (l : list json) : string :=
        match l with
        | [] => EmptyString
        | [v] => render v
        | v :: l => render v +:+ "," +:+ elements l
        end) l +:+ "]"
  | JObj fields =>
      "{" +:+ (fix members (fs : list (string * json)) : string :=
        match fs with
        | [] => EmptyString
        | [(k, v)] => json_string k +:+ ":" +:+ render v
        | (k, v) :: fs => json_string k +:+ ":" +:+ render v +:+ "," +:+ members fs
        end) fields +:+ "}"
  end.

(** A value after a trip through the encoder: its strings are valid UTF-8. *)
Fixpoint coerce_json (j : json) : json :=
  match j with
  | JStr s => JStr (ToValidUTF8 s)
  | JArr l => JArr (map coerce_json l)
  | JObj fields => JObj (map (fun kv => (ToValidUTF8 kv.1, coerce_json kv.2)) fields)
  | _ => j
  end.

(** A struct field takes the value of the last key that spells its name up to case. *)
Definition struct_field (k : string) (fields : list (string * json)) : option json :=
  foldl (fun acc kv => if EqualFold k kv.1 then Some kv.2 else acc) None fields.

(** Decoding into a Go type: [None] is the decoder's error, an absent key and a
    null leave the zero value. *)
Definition as_string (v : option json) : option string :=
  match v with
  | None | Some JNull => Some EmptyString
  | Some (JStr s) => Some s
  | _ => None
  end.
Definition as_string_ptr (v : option json) : option (option string) :=
  match v with
  | None | Some JNull => Some None
  | Some (JStr s) => Some (Some s)
  | _ => None
  end.
Definition as_struct_ptr (v : option json) : option (option (list (string * json))) :=
  match v with
  | None | Some JNull => Some None
  | Some (JObj fs) => Some (Some fs)
  | _ => None
  end.

(** The value of an integer literal; a fraction, an exponent or a number beyond
    64 bits is the decoder's error. *)
Fixpoint digits_value (acc : Z) (s : string) : option Z :=
  match s with
  | EmptyString => Some acc
  | String a s' => if digit a then digits_value (acc * 10 + bits 48 a)%Z s' else None
  end.
Definition int_literal (lit : string) : option Z :=
  let v := match lit with
           | String a s => if is_byte 45 a then Z.opp <$> digits_value 0 s else digits_value 0 lit
           | EmptyString => None
           end in
  z ← v; if ((min_int64 <=? z) && (z <=? max_int64))%Z then Some z else None.
Definition as_int (v : option json) : option Z :=
  match v with
  | None | Some JNull => Some 0%Z
  | Some (JNum lit) => int_literal lit
  | _ => None
  end.

Definition as_bool (v : option json) : option bool :=
  match v with
  | None | Some JNull => Some false
  | Some (JBool b) => Some b
  | _ => None
  end.
Definition as_bool_ptr (v : option json) : option (option bool) :=
  match v with
  | None | Some JNull => Some None
  | Some (JBool b) => Some (Some b)
  | _ => None
  end.
Definition as_list {A} (element : option json -> option A) (v : option json) : option (list A) :=
  match v with
  | None | Some JNull => Some []
  | Some (JArr l) => mapM (fun j => element (Some j)) l
  | _ => None
  end.

(** ** Lemmas: bytes and runes *)
Lemma byte_of_lt a : byte_of a < 256.
Proof. apply Ascii.nat_ascii_bounded. Qed.

Lemma byte_of_inj a b : byte_of a = byte_of b -> a = b.
Proof. intros H. rewrite <- (Ascii.ascii_nat_embedding a), <- (Ascii.ascii_nat_embedding b). by unfold byte_of in H; rewrite H. Qed.

Lemma chr_byte_of a z : z = Z.of_nat (byte_of a) -> chr z = a.
Proof. intros ->. unfold chr. rewrite Nat2Z.id. apply Ascii.ascii_nat_embedding. Qed.

Lemma is_byte_eq n a : is_byte n a = true <-> byte_of a = n.
Proof. unfold is_byte. apply Nat.eqb_eq. Qed.

Lemma between_spec lo hi a : between lo hi a = true <-> lo <= byte_of a <= hi.
Proof. unfold between. rewrite andb_true_iff, !Nat.leb_le. done. Qed.

Ltac byte_facts :=
  repeat match goal with
  | H : (_ && _)%bool = true |- _ => apply andb_true_iff in H as [? ?]
  | H : (_ || _)%bool = false |- _ => apply orb_false_iff in H as [? ?]
  | H : negb _ = true |- _ => apply negb_true_iff in H
  | H : between _ _ _ = true |- _ => apply between_spec in H
  | H : cont _ = true |- _ => apply between_spec in H
  | H : is_byte _ _ = true |- _ => apply is_byte_eq in H
  | H : is_byte _ _ = false |- _ => unfold is_byte in H; apply Nat.eqb_neq in H
  | H : (_ <? _) = true |- _ => apply Nat.ltb_lt in H
  | H : (_ <? _) = false |- _ => apply Nat.ltb_ge in H
  | H : (_ <=? _) = true |- _ => apply Nat.leb_le in H
  | H : (_ <=? _) = false |- _ => apply Nat.leb_gt in H
  | H : (_ =? _) = true |- _ => apply Nat.eqb_eq in H
  | H : (_ =? _) = false |- _ => apply Nat.eqb_neq in H
  end.

Lemma accept3_facts a b : accept3 a b = true ->
  224 <= byte_of a <= 239 /\ 128 <= byte_of b <= 191 /\
  (byte_of a = 224 -> 160 <= byte_of b) /\ (byte_of a = 237 -> byte_of b <= 159).
Proof.
  unfold accept3. intros H. destruct (is_byte 224 a) eqn:E1; [|destruct (is_byte 237 a) eqn:E2];
    byte_facts; lia.
Qed.

Lemma accept4_facts a b : accept4 a b = true ->
  240 <= byte_of a <= 244 /\ 128 <= byte_of b <= 191 /\
  (byte_of a = 240 -> 144 <= byte_of b) /\ (byte_of a = 244 -> byte_of b <= 143).
Proof.
  unfold accept4. intros H. destruct (is_byte 240 a) eqn:E1; [|destruct (is_byte 244 a) eqn:E2];
    byte_facts; lia.
Qed.

(** The four shapes of a decoded rune. *)
Inductive rune_view : string -> Z -> nat -> Prop :=
| rune_ascii a t : byte_of a < 128 -> rune_view (String a t) (Z.of_nat (byte_of a)) 1
| rune_bad a t : 128 <= byte_of a -> rune_view (String a t) RuneError 1
| rune_two a b t : between 194 223 a = true -> cont b = true ->
    rune_view (String a (String b t)) (rune2 a b) 2
| rune_three a b c t : accept3 a b = true -> cont c = true ->
    rune_view (String a (String b (String c t))) (rune3 a b c) 3
| rune_four a b c d t : accept4 a b = true -> cont c = true -> cont d = true ->
    rune_view (String a (String b (String c (String d t)))) (rune4 a b c d) 4.

Lemma DecodeRune_view a t r size : DecodeRune (String a t) = (r, size) -> rune_view (String a t) r size.
Proof.
  unfold DecodeRune. destruct (byte_of a <? 128) eqn:Ha; byte_facts.
  { intros [= <- <-]. by constructor. }
  destruct t as [|b t]; [intros [= <- <-]; by constructor|].
  destruct (between 194 223 a && cont b) eqn:E2.
  { apply andb_true_iff in E2 as [? ?]. intros [= <- <-]. by constructor. }
  destruct t as [|c t]; [intros [= <- <-]; by constructor|].
  destruct (accept3 a b && cont c) eqn:E3.
  { apply andb_true_iff in E3 as [? ?]. intros [= <- <-]. by constructor. }
  destruct t as [|d t]; [intros [= <- <-]; by constructor|].
  destruct (accept4 a b && cont c && cont d) eqn:E4.
  { apply andb_true_iff in E4 as [[? ?]%andb_true_iff ?]. intros [= <- <-]. by constructor. }
  intros [= <- <-]; by constructor.
Qed.

Lemma rune2_range a b : between 194 223 a = true -> cont b = true -> (128 <= rune2 a b < 2048)%Z.
Proof. intros. byte_facts. unfold rune2, bits. lia. Qed.
Lemma rune3_range a b c : accept3 a b = true -> cont c = true ->
  (2048 <= rune3 a b c < 65536)%Z /\ ~ (55296 <= rune3 a b c <= 57343)%Z.
Proof. intros (? & ? & ? & ?)%accept3_facts ?. byte_facts. unfold rune3, bits. lia. Qed.
Lemma rune4_range a b c d : accept4 a b = true -> cont c = true -> cont d = true ->
  (65536 <= rune4 a b c d <= 1114111)%Z.
Proof. intros (? & ? & ? & ?)%accept4_facts ? ?. byte_facts. unfold rune4, bits. lia. Qed.

(** A quotient and a remainder read off a sum of base-64 digits. *)
Lemma div_digit k x y : (0 < k)%Z -> (0 <= y < k)%Z -> ((x * k + y) / k = x)%Z.
Proof. intros. rewrite Z.div_add_l by lia. rewrite Z.div_small by lia. lia. Qed.
Lemma mod_digit k x y : (0 < k)%Z -> (0 <= y < k)%Z -> ((x * k + y) mod k = y)%Z.
Proof. intros. rewrite Z.add_comm, Z.mod_add by lia. apply Z.mod_small; lia. Qed.

Ltac in_range :=
  repeat match goal with
  | |- context [(?x <? ?y)%Z] =>
      first [rewrite (proj2 (Z.ltb_lt x y)) by lia | rewrite (proj2 (Z.ltb_ge x y)) by lia]
  end.
Ltac same_bytes :=
  simpl; repeat (f_equal; [apply chr_byte_of; lia|]); try (f_equal; apply chr_byte_of; lia); try done.

Lemma scalar_value r :
  (0 <= r <= 1114111)%Z -> ~ (55296 <= r <= 57343)%Z ->
  ((r <? 0) || (1114111 <? r) || ((55296 <=? r) && (r <=? 57343)))%Z = false.
Proof. intros. rewrite !orb_false_iff, andb_false_iff, !Z.ltb_ge, !Z.leb_gt. lia. Qed.

Lemma EncodeRune_ascii a : byte_of a < 128 -> EncodeRune (Z.of_nat (byte_of a)) = String a EmptyString.
Proof. intros. unfold EncodeRune. rewrite scalar_value by lia. in_range. same_bytes. Qed.

Lemma EncodeRune_two a b :
  between 194 223 a = true -> cont b = true -> EncodeRune (rune2 a b) = String a (String b EmptyString).
Proof.
  intros Ha Hb. pose proof (rune2_range a b Ha Hb). byte_facts. unfold EncodeRune.
  rewrite scalar_value by lia. in_range. unfold rune2, bits in *. rewrite div_digit, mod_digit by lia.
  same_bytes.
Qed.

Lemma EncodeRune_three a b c :
  accept3 a b = true -> cont c = true ->
  EncodeRune (rune3 a b c) = String a (String b (String c EmptyString)).
Proof.
  intros Ha Hc. pose proof (rune3_range a b c Ha Hc) as [Hr Hs].
  apply accept3_facts in Ha as (? & ? & ? & ?). byte_facts. unfold EncodeRune.
  rewrite scalar_value by lia. in_range. unfold rune3, bits in *.
  set (x := (Z.of_nat (byte_of a) - Z.of_nat 224)%Z) in *.
  set (y := (Z.of_nat (byte_of b) - Z.of_nat 128)%Z) in *.
  set (z := (Z.of_nat (byte_of c) - Z.of_nat 128)%Z) in *.
  replace (x * 4096 + y * 64 + z)%Z with ((x * 64 + y) * 64 + z)%Z by lia.
  replace 4096%Z with (64 * 64)%Z by lia. rewrite <- Z.div_div by lia.
  rewrite !div_digit, !mod_digit by lia. same_bytes.
Qed.

Lemma EncodeRune_four a b c d :
  accept4 a b = true -> cont c = true -> cont d = true ->
  EncodeRune (rune4 a b c d) = String a (String b (String c (String d EmptyString))).
Proof.
  intros Ha Hc Hd. pose proof (rune4_range a b c d Ha Hc Hd) as Hr.
  apply accept4_facts in Ha as (? & ? & ? & ?). byte_facts. unfold EncodeRune.
  rewrite scalar_value by lia. in_range. unfold rune4, bits in *.
  set (x := (Z.of_nat (byte_of a) - Z.of_nat 240)%Z) in *.
  set (y := (Z.of_nat (byte_of b) - Z.of_nat 128)%Z) in *.
  set (z := (Z.of_nat (byte_of c) - Z.of_nat 128)%Z) in *.
  set (w := (Z.of_nat (byte_of d) - Z.of_nat 128)%Z) in *.
  replace (x * 262144 + y * 4096 + z * 64 + w)%Z with (((x * 64 + y) * 64 + z) * 64 + w)%Z by lia.
  replace 262144%Z with (64 * (64 * 64))%Z by lia. replace 4096%Z with (64 * 64)%Z by lia.
  rewrite <- !Z.div_div by lia. rewrite !div_digit, !mod_digit by lia. same_bytes.
Qed.

(** Encoding what was decoded gives the bytes that were read. *)
Lemma EncodeRune_decoded a t :
  invalid_rune (String a t) = false ->
  EncodeRune (DecodeRune (String a t)).1 = stake (DecodeRune (String a t)).2 (String a t).
Proof.
  intros Hbad. destruct (DecodeRune (String a t)) as [r size] eqn:Hd. unfold invalid_rune in Hbad.
  rewrite Hd in Hbad. simpl fst. simpl snd. clear -Hd Hbad.
  apply DecodeRune_view in Hd. destruct Hd.
  - by apply EncodeRune_ascii.
  - done.
  - by apply EncodeRune_two.
  - by apply EncodeRune_three.
  - by apply EncodeRune_four.
Qed.

(** ** Lemmas: passes over a text *)
Definition progress (step : string -> string * nat) : Prop :=
  forall a t, 1 <= (step (String a t)).2.

Lemma scan_fuel step n m s :
  progress step -> String.length s <= n -> String.length s <= m -> scan step n s = scan step m s.
Proof.
  intros Hp. revert m s; induction n as [|n IH]; intros [|m] [|a s]; simpl String.length; try lia; try done.
  intros Hn Hm. cbn [scan]. f_equal. pose proof (Hp a s).
  apply IH; rewrite sdrop_length; simpl; lia.
Qed.

Lemma scan_step step a t :
  progress step ->
  scan step (String.length (String a t)) (String a t) =
  (step (String a t)).1 +:+
  scan step (String.length (sdrop (step (String a t)).2 (String a t))) (sdrop (step (String a t)).2 (String a t)).
Proof.
  intros Hp. pose proof (Hp a t). simpl String.length at 1. cbn [scan]. f_equal.
  apply scan_fuel; [done|rewrite sdrop_length; simpl; lia|done].
Qed.

Lemma DecodeRune_progress a t : 1 <= (DecodeRune (String a t)).2.
Proof. destruct (DecodeRune (String a t)) as [r n] eqn:E. apply DecodeRune_view in E. simpl. inversion E; lia. Qed.

Lemma coerce_progress : progress coerce_step.
Proof.
  intros a t. pose proof (DecodeRune_progress a t) as H. unfold coerce_step. by destruct (DecodeRune _).
Qed.
Lemma encode_progress : progress encode_step.
Proof.
  intros a t. pose proof (DecodeRune_progress a t) as H. unfold encode_step.
  destruct (byte_of a <? 128); [done|]. by destruct (DecodeRune _).
Qed.

(** Induction over a text read by a pass. *)
Lemma scan_ind (step : string -> string * nat) (P : string -> Prop) :
  progress step -> P EmptyString ->
  (forall a t, P (sdrop (step (String a t)).2 (String a t)) -> P (String a t)) -> forall s, P s.
Proof.
  intros Hp H0 Hs s. remember (String.length s) as n eqn:Hn. revert s Hn.
  induction n as [n IH] using lt_wf_ind; intros [|a t] Hn; [done|]. apply Hs. eapply IH; [|done]. subst n.
  pose proof (Hp a t). rewrite sdrop_length. simpl. lia.
Qed.

Lemma DecodeRune_ascii a t : byte_of a < 128 -> DecodeRune (String a t) = (Z.of_nat (byte_of a), 1).
Proof. intros H. simpl. by rewrite (proj2 (Nat.ltb_lt _ _)). Qed.

(** A sequence that decodes keeps its rune whatever follows it. *)
Lemma DecodeRune_prefix a t u :
  invalid_rune (String a t) = false ->
  DecodeRune (stake (DecodeRune (String a t)).2 (String a t) +:+ u) = DecodeRune (String a t).
Proof.
  intros Hbad. destruct (DecodeRune (String a t)) as [r n] eqn:E. unfold invalid_rune in Hbad.
  rewrite E in Hbad. apply DecodeRune_view in E. destruct E as [x|x|x y z Hx Hy|x y z w Hx Hz|x y z w v Hx Hz Hw].
  - simpl. by apply DecodeRune_ascii.
  - done.
  - simpl. rewrite Hx, Hy. simpl. byte_facts. by rewrite (proj2 (Nat.ltb_ge _ _)) by lia.
  - simpl. rewrite Hx, Hz. apply accept3_facts in Hx as (? & ? & _).
    rewrite (proj2 (Nat.ltb_ge _ _)) by lia. unfold between at 1.
    by rewrite (proj2 (Nat.leb_gt (byte_of x) 223)), andb_false_r by lia.
  - simpl. unfold accept3. rewrite Hx, Hz, Hw. apply accept4_facts in Hx as (? & ? & _).
    rewrite (proj2 (Nat.ltb_ge _ _)) by lia. unfold between at 1.
    rewrite (proj2 (Nat.leb_gt (byte_of x) 223)), andb_false_r by lia. unfold between at 1.
    by rewrite (proj2 (Nat.leb_gt (byte_of x) 239)), andb_false_r by lia.
Qed.

(** ** What json.Marshal writes, the decoder reads *)

(** One iteration of the decoder takes [chunk] for [out], whatever follows. *)
Definition reads (chunk out : string) : Prop :=
  forall n t, unquote_fuel (S n) (chunk +:+ t) =
    ('(v, rest) ← unquote_fuel n t; Some (out +:+ v, rest)).

Lemma reads_raw a t :
  32 <= byte_of a -> is_byte 34 a = false -> is_byte 92 a = false ->
  invalid_rune (String a t) = false ->
  reads (stake (DecodeRune (String a t)).2 (String a t)) (EncodeRune (DecodeRune (String a t)).1).
Proof.
  intros Hlow Hq Hb Hok n u. pose proof (DecodeRune_prefix a t u Hok) as Hpre.
  pose proof (DecodeRune_progress a t) as Hsz.
  assert (Hlen : String.length (stake (DecodeRune (String a t)).2 (String a t)) = (DecodeRune (String a t)).2).
  { rewrite <- (EncodeRune_decoded a t Hok). destruct (DecodeRune (String a t)) as [r k] eqn:E.
    unfold invalid_rune in Hok. rewrite E in Hok. apply DecodeRune_view in E. simpl.
    destruct E; [rewrite EncodeRune_ascii by done|done|rewrite EncodeRune_two by done
      |rewrite EncodeRune_three by done|rewrite EncodeRune_four by done]; done. }
  assert (Hdrop : sdrop (DecodeRune (String a t)).2
    (stake (DecodeRune (String a t)).2 (String a t) +:+ u) = u).
  { rewrite <- Hlen at 1. apply sdrop_app. }
  destruct (DecodeRune (String a t)) as [r size] eqn:Hd. simpl fst in *. simpl snd in *.
  destruct size as [|k]; [lia|]. simpl stake in *. simpl String.append in *. cbn [unquote_fuel].
  rewrite Hq, Hb, (proj2 (Nat.ltb_ge _ _)) by done. by rewrite Hpre, Hdrop.
Qed.

Lemma reads_escape a : byte_of a < 128 -> html_safe a = false -> reads (escape_byte a) (String a EmptyString).
Proof.
  intros Ha Hs n t. destruct a as [b0 b1 b2 b3 b4 b5 b6 b7].
  apply Nat.ltb_lt in Ha.
  destruct b7; [destruct b0, b1, b2, b3, b4, b5, b6; vm_compute in Ha; discriminate Ha|].
  destruct b0, b1, b2, b3, b4, b5, b6; (vm_compute in Hs; discriminate Hs) || (clear; reflexivity).
Qed.

Lemma encode_reads a t : reads (encode_step (String a t)).1 (coerce_step (String a t)).1.
Proof.
  unfold encode_step, coerce_step. destruct (byte_of a <? 128) eqn:Ha; byte_facts.
  - rewrite DecodeRune_ascii, EncodeRune_ascii by done. simpl fst.
    destruct (html_safe a) eqn:Hs; [|by apply reads_escape].
    assert (Hraw : reads (stake (DecodeRune (String a t)).2 (String a t)) (EncodeRune (DecodeRune (String a t)).1)).
    { unfold html_safe in Hs. apply reads_raw; byte_facts; unfold is_byte; rewrite ?Nat.eqb_neq; try lia.
      unfold invalid_rune. rewrite DecodeRune_ascii by done.
      apply andb_false_iff. left. apply Z.eqb_neq. unfold RuneError. lia. }
    rewrite DecodeRune_ascii in Hraw by done. simpl fst in Hraw. by rewrite EncodeRune_ascii in Hraw.
  - destruct (DecodeRune (String a t)) as [r size] eqn:Hd. simpl fst.
    destruct ((r =? RuneError)%Z && (size =? 1)) eqn:Hbad.
    { apply andb_true_iff in Hbad as [->%Z.eqb_eq _]. intros n u. reflexivity. }
    destruct (r =? 8232)%Z eqn:H1; [apply Z.eqb_eq in H1 as ->; intros n u; reflexivity|].
    destruct (r =? 8233)%Z eqn:H2; [apply Z.eqb_eq in H2 as ->; intros n u; reflexivity|].
    assert (Hok : invalid_rune (String a t) = false) by (unfold invalid_rune; by rewrite Hd).
    assert (Hraw : reads (stake (DecodeRune (String a t)).2 (String a t)) (EncodeRune (DecodeRune (String a t)).1)).
    { apply reads_raw; unfold is_byte; rewrite ?Nat.eqb_neq; try lia; done. }
    by rewrite Hd in Hraw.
Qed.

Lemma encode_coerce_size a t : (encode_step (String a t)).2 = (coerce_step (String a t)).2.
Proof.
  unfold encode_step, coerce_step. destruct (byte_of a <? 128) eqn:Ha; byte_facts.
  - by rewrite DecodeRune_ascii.
  - by destruct (DecodeRune _).
Qed.

Lemma reads_nonempty chunk out : reads chunk out -> 1 <= String.length chunk.
Proof.
  intros H. destruct chunk; simpl; [|lia].
  specialize (H 0 dquote). vm_compute in H. done.
Qed.

Lemma unquote_encode v n rest :
  String.length (encode v) < n ->
  unquote_fuel n (encode v +:+ dquote +:+ rest) = Some (ToValidUTF8 v, rest).
Proof.
  revert n. apply (scan_ind encode_step (fun v => forall n, String.length (encode v) < n ->
    unquote_fuel n (encode v +:+ dquote +:+ rest) = Some (ToValidUTF8 v, rest)) encode_progress);
    [by intros [|n] ?; [lia|]|].
  clear v. intros a t IH [|n] Hn; [lia|].
  unfold encode, ToValidUTF8 in *. rewrite (scan_step _ a t encode_progress) in Hn |- *.
  rewrite (scan_step _ a t coerce_progress), <- encode_coerce_size.
  pose proof (encode_reads a t) as Hr. pose proof (reads_nonempty _ _ Hr). rewrite sapp_length in Hn.
  rewrite sapp_assoc, Hr, IH by lia. done.
Qed.

(** A string survives the encoder and the decoder: what is read back is the
    string itself, with U+FFFD in place of every byte that is no UTF-8. *)
Theorem string_roundtrip (v rest : string) :
  unquote (encode v +:+ dquote +:+ rest) = Some (ToValidUTF8 v, rest).
Proof. unfold unquote. apply unquote_encode. rewrite sapp_length. lia. Qed.

Lemma valid_coerce_fuel n s :
  String.length s <= n -> valid_fuel n s = true -> scan coerce_step n s = s.
Proof.
  revert s; induction n as [|n IH]; intros [|a t]; simpl String.length; try done; [lia|].
  intros Hn Hv. cbn [scan valid_fuel] in *. apply andb_true_iff in Hv as [Hok%negb_true_iff Hv].
  pose proof (DecodeRune_progress a t) as Hp.
  assert (Hc : coerce_step (String a t) = (EncodeRune (DecodeRune (String a t)).1, (DecodeRune (String a t)).2))
    by (unfold coerce_step; by destruct (DecodeRune _)).
  rewrite Hc. cbn [fst snd]. rewrite EncodeRune_decoded by done.
  rewrite IH; [apply stake_sdrop| |done]. rewrite sdrop_length. cbn [String.length]. lia.
Qed.

Lemma ToValidUTF8_valid s : ValidString s = true -> ToValidUTF8 s = s.
Proof. intros. by apply valid_coerce_fuel. Qed.

(** ** What [render] writes, [Unmarshal] reads *)
Section JsonInd.
  Variable P : json -> Prop.
  Hypothesis Hnull : P JNull.
  Hypothesis Hbool : forall b, P (JBool b).
  Hypothesis Hnum : forall lit, P (JNum lit).
  Hypothesis Hstr : forall s, P (JStr s).
  Hypothesis Harr : forall l, Forall P l -> P (JArr l).
  Hypothesis Hobj : forall fs, Forall (fun kv => P kv.2) fs -> P (JObj fs).

Fixpoint json_ind' (j : json) : P j :=
  match j with
  | JNull => Hnull
  | JBool b => Hbool b
  | JNum lit => Hnum lit
  | JStr s => Hstr s
  | JArr l => Harr l ((fix go l : Forall P l :=
      match l with [] => Forall_nil_2 P | v :: l => Forall_cons_2 P v l (json_ind' v) (go l) end) l)
  | JObj fs => Hobj fs ((fix go fs : Forall (fun kv => P kv.2) fs :=
      match fs with
      | [] => Forall_nil_2 _
      | kv :: fs => Forall_cons_2 (fun kv => P kv.2) kv fs (json_ind' kv.2) (go fs)
      end) fs)
  end.
End JsonInd.

Definition number_ok (lit : string) : Prop :=
  forall r, (forall a t, r = String a t -> digit a = false /\ is_byte 46 a = false /\ is_byte 101 a = false /\ is_byte 69 a = false) ->
  number (lit +:+ r) = Some (lit, r).

(** Well-formed: the number literals are numbers, no key of an object comes twice. *)
Inductive json_ok : json -> Prop :=
| ok_null : json_ok JNull
| ok_bool b : json_ok (JBool b)
| ok_num lit a t : lit = String a t -> is_byte 45 a || digit a = true -> number_ok lit -> json_ok (JNum lit)
| ok_str s : json_ok (JStr s)
| ok_arr l : Forall json_ok l -> json_ok (JArr l)
| ok_obj fs : Forall (fun kv => json_ok kv.2) fs -> NoDup (map (fun kv => ToValidUTF8 kv.1) fs) ->
    json_ok (JObj fs).

Fixpoint render_elements (l : list json) : string :=
  match l with
  | [] => EmptyString
  | [v] => render v
  | v :: l => render v +:+ "," +:+ render_elements l
  end.
Fixpoint render_members (fs : list (string * json)) : string :=
  match fs with
  | [] => EmptyString
  | [(k, v)] => json_string k +:+ ":" +:+ render v
  | (k, v) :: fs => json_string k +:+ ":" +:+ render v +:+ "," +:+ render_members fs
  end.

Lemma render_arr l : render (JArr l) = "[" +:+ render_elements l +:+ "]".
Proof. done. Qed.
Lemma render_obj fs : render (JObj fs) = "{" +:+ render_members fs +:+ "}".
Proof. done. Qed.

(** A text that starts a value: no space, no closing bracket. *)
Definition starts_value (s : string) : Prop :=
  exists a t, s = String a t /\ json_space a = false /\ is_byte 93 a = false /\ is_byte 125 a = false.

Lemma render_starts j : json_ok j -> starts_value (render j).
Proof.
  destruct 1 as [|[]|lit a t -> Ha _|s|l _|fs _ _]; unfold starts_value; try (repeat eexists; reflexivity).
  exists a, t. split; [done|]. unfold json_space, is_byte, digit, between in *.
  rewrite !orb_false_iff, !Nat.eqb_neq. apply orb_true_iff in Ha.
  rewrite Nat.eqb_eq, andb_true_iff, !Nat.leb_le in Ha. lia.
Qed.

Lemma starts_skip s r : starts_value s -> skip_space (s +:+ r) = s +:+ r.
Proof. intros (a & t & -> & Ha & _). simpl. by rewrite Ha. Qed.
Lemma starts_not_after s r p :
  starts_value s -> p = "]" \/ p = "}" -> after p (skip_space (s +:+ r)) = None.
Proof.
  intros Hs Hp. rewrite starts_skip by done. destruct Hs as (a & t & -> & _ & H1 & H2).
  unfold after. destruct Hp as [-> | ->]; cbn [HasPrefix String.append];
    match goal with |- context [Ascii.eqb ?x a] => destruct (Ascii.eqb_spec x a) as [<-|] end;
    by try discriminate.
Qed.

Lemma value_string n v r : value_fuel (S n) (json_string v +:+ r) = Some (JStr (ToValidUTF8 v), r).
Proof.
  unfold json_string. rewrite sapp_assoc. change (dquote +:+ (encode v +:+ dquote) +:+ r)
    with (String (Ascii.ascii_of_nat 34) ((encode v +:+ dquote) +:+ r)).
  cbn [value_fuel skip_space]. rewrite sapp_assoc.
  change (json_space (Ascii.ascii_of_nat 34)) with false. cbn iota.
  change (is_byte 34 (Ascii.ascii_of_nat 34)) with true. cbn iota.
  by rewrite string_roundtrip.
Qed.

Definition number_stop (r : string) : Prop :=
  forall a t, r = String a t ->
    digit a = false /\ is_byte 46 a = false /\ is_byte 101 a = false /\ is_byte 69 a = false.

Lemma stop_const a t : number_stop (String a EmptyString) -> number_stop (String a t).
Proof. intros H b u [= <- <-]. by apply (H a EmptyString). Qed.
Lemma stop_comma t : number_stop ("," +:+ t).
Proof. apply stop_const. by intros ? ? [= <- <-]. Qed.
Lemma stop_bracket t : number_stop ("]" +:+ t).
Proof. apply stop_const. by intros ? ? [= <- <-]. Qed.
Lemma stop_brace t : number_stop ("}" +:+ t).
Proof. apply stop_const. by intros ? ? [= <- <-]. Qed.

Lemma set_field_fresh k v acc : k ∉ acc.*1 -> set_field k v acc = acc ++ [(k, v)].
Proof.
  intros Hk. unfold set_field. f_equal. induction acc as [|[k' v'] acc IH]; [done|].
  unfold del_field in *. cbn [List.filter fst]. destruct (String.eqb_spec k k') as [->|]; [set_solver|].
  cbn [negb]. by rewrite IH by set_solver.
Qed.

(** The decoder reads back the value [j] wherever its text stands. *)
Definition readable (j : json) : Prop :=
  forall n r, String.length (render j) <= n -> number_stop r ->
  value_fuel n (render j +:+ r) = Some (coerce_json j, r).

Lemma elements_render l n r :
  l <> [] -> Forall (fun v => json_ok v /\ readable v) l ->
  String.length (render_elements l) < n ->
  elements_fuel n (render_elements l +:+ "]" +:+ r) = Some (map coerce_json l, r).
Proof.
  intros Hne Hl. revert n. induction l as [|v l IH]; [done|]; intros n Hn.
  apply Forall_cons in Hl as [[Hok Hv] Hl]. destruct n as [|n]; [lia|]. cbn [elements_fuel].
  destruct (render_starts v Hok) as (a & t & Hr & _).
  assert (Hlen : 1 <= String.length (render v)) by (rewrite Hr; simpl; lia).
  destruct l as [|v2 l].
  - cbn [render_elements] in *. rewrite Hv by (lia || apply stop_bracket). done.
  - change (render_elements (v :: v2 :: l)) with (render v +:+ "," +:+ render_elements (v2 :: l)) in *.
    rewrite !sapp_length in Hn. rewrite !sapp_assoc. cbn [String.length] in Hn.
    rewrite Hv by (lia || apply stop_comma). cbn [mbind option_bind].
    change (after "," (skip_space ("," +:+ render_elements (v2 :: l) +:+ "]" +:+ r)))
      with (Some (render_elements (v2 :: l) +:+ "]" +:+ r)).
    cbn iota. rewrite IH by (done || lia). done.
Qed.

Definition coerce_field (kv : string * json) : string * json := (ToValidUTF8 kv.1, coerce_json kv.2).

(** One member, its key read and its separator recognised. *)
Lemma member_key k t :
  (t' ← after dquote (skip_space (json_string k +:+ ":" +:+ t)); '(k', t') ← unquote t';
   t' ← after ":" (skip_space t'); Some (k', t')) = Some (ToValidUTF8 k, t).
Proof.
  unfold json_string. rewrite !sapp_assoc.
  change (after dquote (skip_space (dquote +:+ encode k +:+ dquote +:+ ":" +:+ t)))
    with (Some (encode k +:+ dquote +:+ ":" +:+ t)).
  cbn [mbind option_bind]. by rewrite string_roundtrip.
Qed.

Lemma members_step n acc k t :
  members_fuel (S n) acc (json_string k +:+ ":" +:+ t) =
  ('(v, t) ← value_fuel n t;
   match after "," (skip_space t) with
   | Some t => members_fuel n (set_field (ToValidUTF8 k) v acc) t
   | None => r ← after "}" (skip_space t); Some (set_field (ToValidUTF8 k) v acc, r)
   end).
Proof.
  cbn [members_fuel]. pose proof (member_key k t) as H.
  destruct (after dquote _) as [t1|]; [|done]. cbn [mbind option_bind] in *.
  destruct (unquote t1) as [[k' t2]|]; [|done]. cbn [mbind option_bind] in *.
  destruct (after ":" _) as [t3|]; [|done]. cbn [mbind option_bind] in *. by injection H as -> ->.
Qed.

Lemma members_render fs n acc r :
  fs <> [] -> Forall (fun kv => json_ok kv.2 /\ readable kv.2) fs ->
  NoDup (acc.*1 ++ (map coerce_field fs).*1) ->
  String.length (render_members fs) < n ->
  members_fuel n acc (render_members fs +:+ "}" +:+ r) = Some (acc ++ map coerce_field fs, r).
Proof.
  intros Hne Hl. revert acc n. induction fs as [|[k v] fs IH]; [done|]; intros acc n Hnd Hn.
  apply Forall_cons in Hl as [[Hok Hv] Hl]. cbn [snd] in Hok, Hv. destruct n as [|n]; [lia|].
  assert (Hk : set_field (ToValidUTF8 k) (coerce_json v) acc = acc ++ [coerce_field (k, v)]).
  { apply set_field_fresh. apply NoDup_app in Hnd as (_ & Hd & _). cbn in Hd. set_solver. }
  destruct fs as [|kv2 fs].
  - cbn [render_members] in *. rewrite !sapp_length in Hn. rewrite !sapp_assoc, members_step.
    rewrite Hv by (lia || apply stop_brace). cbn [mbind option_bind].
    change (after "," (skip_space ("}" +:+ r))) with (@None string).
    change (after "}" (skip_space ("}" +:+ r))) with (Some r). cbn [mbind option_bind].
    rewrite Hk. done.
  - change (render_members ((k, v) :: kv2 :: fs)) with
      (json_string k +:+ ":" +:+ render v +:+ "," +:+ render_members (kv2 :: fs)) in *.
    rewrite !sapp_length in Hn. cbn [String.length] in Hn. rewrite !sapp_assoc, members_step.
    rewrite Hv by (lia || apply stop_comma). cbn [mbind option_bind].
    change (after "," (skip_space ("," +:+ render_members (kv2 :: fs) +:+ "}" +:+ r)))
      with (Some (render_members (kv2 :: fs) +:+ "}" +:+ r)).
    cbn iota. rewrite Hk, IH; [by rewrite <- app_assoc|done|done| |lia].
    rewrite fmap_app, <- app_assoc. exact Hnd.
Qed.

Lemma value_render j : json_ok j -> readable j.
Proof.
  induction j as [|b|lit|s|l IH|fs IH] using json_ind'; intros Hok n r Hn Hr.
  - destruct n; [simpl in Hn; lia|]. done.
  - destruct b; (destruct n; [simpl in Hn; lia|]); done.
  - inversion Hok as [| |? a t -> Ha Hnum| | |]; subst. destruct n; [simpl in Hn; lia|].
    destruct (render_starts _ Hok) as (a' & t' & [= <- <-] & Hsp & _).
    cbn [render String.append value_fuel skip_space]. rewrite Hsp.
    assert (Hc : is_byte 34 a = false /\ is_byte 123 a = false /\ is_byte 91 a = false).
    { unfold is_byte, digit, between in *. rewrite !Nat.eqb_neq. apply orb_true_iff in Ha.
      rewrite Nat.eqb_eq, andb_true_iff, !Nat.leb_le in Ha. lia. }
    destruct Hc as (-> & -> & ->). rewrite Ha. change (String a (t +:+ r)) with (String a t +:+ r).
    by rewrite Hnum.
  - destruct n; [simpl in Hn; lia|]. apply value_string.
  - inversion Hok as [| | | |? Hl|]; subst. rewrite render_arr in *. rewrite !sapp_length in Hn.
    cbn [String.length] in Hn. destruct n as [|n]; [lia|]. destruct l as [|v l]; [done|].
    assert (Hs : starts_value (render_elements (v :: l))).
    { apply Forall_cons in Hl as [Hv _]. destruct (render_starts v Hv) as (a & t & Hrv & Hp).
      destruct l; cbn [render_elements]; rewrite Hrv; eexists _, _; (split; [reflexivity|done]). }
    rewrite !sapp_assoc. change ("[" +:+ ?x) with (String "["%char x). cbn [value_fuel skip_space].
    change (json_space "["%char) with false. cbn iota.
    change (is_byte 34 "["%char) with false. change (is_byte 123 "["%char) with false.
    change (is_byte 91 "["%char) with true. cbn iota.
    rewrite (starts_not_after _ _ "]") by auto.
    rewrite elements_render; [done|done| |lia]. rewrite Forall_forall in IH, Hl |- *. naive_solver.
  - inversion Hok as [| | | | |? Hl Hnd]; subst. rewrite render_obj in *. rewrite !sapp_length in Hn.
    cbn [String.length] in Hn. destruct n as [|n]; [lia|]. destruct fs as [|[k v] fs]; [done|].
    assert (Hs : starts_value (render_members ((k, v) :: fs))).
    { destruct fs; cbn [render_members]; unfold json_string; eexists _, _; (split; [reflexivity|done]). }
    rewrite !sapp_assoc. change ("{" +:+ ?x) with (String "{"%char x). cbn [value_fuel skip_space].
    change (json_space "{"%char) with false. cbn iota.
    change (is_byte 34 "{"%char) with false. change (is_byte 123 "{"%char) with true. cbn iota.
    rewrite (starts_not_after _ _ "}") by auto.
    rewrite members_render; [done|done| | |lia].
    + rewrite Forall_forall in IH, Hl |- *. naive_solver.
    + cbn [fmap list_fmap app]. rewrite <- list_fmap_compose. exact Hnd.
Qed.

(** A well-formed value survives the encoder and the decoder, its strings
    coerced to valid UTF-8. *)
Theorem Unmarshal_render (j : json) : json_ok j -> Unmarshal (render j) = Some (coerce_json j).
Proof.
  intros Hok. unfold Unmarshal. pose proof (value_render j Hok (S (String.length (render j))) EmptyString) as H.
  rewrite sapp_nil_r in H. by rewrite H by (lia || done).
Qed.

(** ** Integers are numbers *)
Lemma char_digit x : digit (pretty_N_char x) = true.
Proof. by destruct x as [|[[[[]|[]|]|[[]|[]|]|]|[[[]|[]|]|[[]|[]|]|]|]]. Qed.
Lemma char_nonzero x : (0 < x)%N -> is_byte 48 (pretty_N_char x) = false.
Proof. by destruct x as [|[[[[]|[]|]|[[]|[]|]|]|[[[]|[]|]|[[]|[]|]|]|]]. Qed.

(** The decimal digits of a positive number: the first is not a zero. *)
Lemma pretty_N_go_shape x s :
  (0 < x)%N -> exists c t, pretty_N_go x s = String c (t +:+ s) /\ digit c = true /\
    is_byte 48 c = false /\ str_all digit t = true.
Proof.
  revert s. induction (N.lt_wf_0 x) as [x _ IH]; intros s Hx. rewrite pretty_N_go_step by done.
  destruct (decide (x < 10)%N) as [Hsmall|Hbig].
  - rewrite N.div_small, pretty_N_go_0, N.mod_small by done. eexists _, EmptyString.
    split; [done|]. by rewrite char_digit, char_nonzero.
  - destruct (IH (x `div` 10)%N (N.div_lt x 10 ltac:(lia) ltac:(lia))
      (String (pretty_N_char (x `mod` 10)) s)) as (c & t & -> & Hc & Hz & Ht).
    { apply N.div_str_pos. lia. }
    exists c, (t +:+ String (pretty_N_char (x `mod` 10)) EmptyString).
    rewrite sapp_assoc, str_all_app, Ht. cbn. by rewrite char_digit.
Qed.

Lemma digits_app t r : str_all digit t = true ->
  (forall a u, r = String a u -> digit a = false) -> digits (t +:+ r) = (t, r).
Proof.
  intros Ht Hr. induction t as [|a t IH]; simpl in *.
  - destruct r as [|a r]; [done|]. simpl. by rewrite (Hr a r eq_refl).
  - apply andb_true_iff in Ht as [-> Ht]. by rewrite IH.
Qed.

Lemma number_tail r : number_stop r -> number_frac r = Some (EmptyString, r) /\ number_exp r = Some (EmptyString, r).
Proof.
  intros Hr. destruct r as [|a r]; [done|]. destruct (Hr a r eq_refl) as (_ & Hp & He & HE).
  cbn. by rewrite Hp, He, HE.
Qed.

Lemma number_int_pos c t r : digit c = true -> is_byte 48 c = false -> str_all digit t = true ->
  number_stop r -> number_int (String c t +:+ r) = Some (String c t, r).
Proof.
  intros Hc Hz Ht Hr. cbn [number_int String.append]. rewrite Hz. unfold digits1.
  change (String c (t +:+ r)) with (String c t +:+ r).
  rewrite digits_app; [done|cbn; by rewrite Hc|]. intros a u He. by apply (Hr a u).
Qed.

Lemma fmt_d_number z : exists a t, fmt_d z = String a t /\ is_byte 45 a || digit a = true /\ number_ok (fmt_d z).
Proof.
  assert (Hpos : forall p, exists c t, pretty (N.pos p) = String c t /\ digit c = true /\
    is_byte 48 c = false /\ str_all digit t = true).
  { intros p. unfold pretty, pretty_N. case_decide; [done|].
    destruct (pretty_N_go_shape (N.pos p) EmptyString) as (c & t & -> & Hsh); [lia|].
    exists c, t. by rewrite sapp_nil_r. }
  assert (Hnot45 : forall c, digit c = true -> is_byte 45 c = false).
  { intros c Hc%between_spec. unfold is_byte. apply Nat.eqb_neq. lia. }
  unfold fmt_d. destruct z as [|p|p].
  - eexists _, _. split; [reflexivity|]. split; [done|]. intros r Hr.
    destruct (number_tail r Hr) as [Hf He].
    change (pretty 0%Z +:+ r) with (String "0"%char r).
    unfold number. change (is_byte 45 "0"%char) with false. cbn iota.
    cbn [number_int]. change (is_byte 48 "0"%char) with true. cbn iota.
    cbn [mbind option_bind]. rewrite Hf. cbn [mbind option_bind]. by rewrite He.
  - destruct (Hpos p) as (c & t & Hp & Hc & Hz & Ht).
    change (pretty (Z.pos p)) with (pretty (N.pos p)). rewrite Hp. exists c, t.
    split; [done|]. rewrite Hc, orb_true_r. split; [done|]. intros r Hr.
    destruct (number_tail r Hr) as [Hf He]. unfold number.
    change (String c t +:+ r) with (String c (t +:+ r)). cbn iota. rewrite Hnot45 by done.
    change (String c (t +:+ r)) with (String c t +:+ r). rewrite number_int_pos by done.
    cbn [mbind option_bind]. rewrite Hf. cbn [mbind option_bind]. rewrite He.
    cbn [mbind option_bind]. by rewrite !sapp_nil_r.
  - destruct (Hpos p) as (c & t & Hp & Hc & Hz & Ht).
    change (pretty (Z.neg p)) with ("-" +:+ pretty (N.pos p)). rewrite Hp. exists "-"%char, (String c t).
    split; [done|]. split; [done|]. intros r Hr.
    destruct (number_tail r Hr) as [Hf He]. unfold number.
    change (("-" +:+ String c t) +:+ r) with (String "-"%char (String c t +:+ r)). cbn iota.
    change (is_byte 45 "-"%char) with true. cbn iota. rewrite number_int_pos by done.
    cbn [mbind option_bind]. rewrite Hf. cbn [mbind option_bind]. rewrite He.
    cbn [mbind option_bind]. by rewrite !sapp_nil_r.
Qed.

Definition JInt (z : Z) : json := JNum (fmt_d z).

Lemma json_ok_int z : json_ok (JInt z).
Proof. destruct (fmt_d_number z) as (a & t & Ha & Hd & Hn). by eapply ok_num. Qed.
