(* ===== verification/Marshal.v ===== *)
(** * json.Marshal of a decoded value

    A number decoded into an [interface{}] is a binary64, and is written back as
    the shortest decimal that reads as the same number:

    - [round_ratio] is the correctly rounded binary64 of a fraction (strconv's
      [ParseFloat] on the value of a literal), [ParseFloat] reads the literal;
    - [shortest] finds the digits (strconv's [FormatFloat] with precision -1),
      [float_text] lays them out as encoding/json does;
    - [Marshal] writes a value with the keys of its objects sorted. *)

From Stdlib Require Import Ascii.
From Corelib Require Import SpecFloat.
From stdpp Require Import base numbers list strings sets sorting.
From S2P Require Import Prelude GoLib Json.

Local Open Scope Z_scope.

(** ** Reading a number *)

(** The binary64 nearest to [n / d], ties to even: the quotient is taken with 64
    bits or more and a sticky bit for the remainder, then rounded once. *)
Definition round_ratio (negative : bool) (n d : Z) : float64 :=
  if n =? 0 then S754_zero negative else
  let s := Z.max 0 (64 + Z.log2 d - Z.log2 n) in
  let q := (n * 2 ^ s) / d in
  let sticky := if (n * 2 ^ s) mod d =? 0 then 0 else 1 in
  let m := 2 * q + sticky in
  binary_normalize 53 1024 (if negative then - m else m) (- s - 1) negative.

(** The parts of a literal: sign, the digits of the mantissa as one integer, and
    the power of ten that scales them. *)
Definition split_at (stop : Ascii.ascii -> bool) : string -> string * string :=
  fix go s :=
    match s with
    | EmptyString => (EmptyString, EmptyString)
    | String a s' => if stop a then (EmptyString, s) else let '(l, r) := go s' in (String a l, r)
    end.

Definition decimal_of (s : string) : Z := default 0 (digits_value 0 s).

Definition literal_parts (lit : string) : bool * Z * Z :=
  let '(negative, s) := match lit with
    | String a s => if is_byte 45 a then (true, s) else (false, lit)
    | EmptyString => (false, lit)
    end in
  let '(mant, exp) := split_at (fun a => is_byte 101 a || is_byte 69 a)%bool s in
  let '(ip, fp) := split_at (is_byte 46) mant in
  let fp := sdrop 1 fp in
  let e := match sdrop 1 exp with
           | String g r => if is_byte 45 g then - decimal_of r
                           else if is_byte 43 g then decimal_of r else decimal_of (String g r)
           | EmptyString => 0
           end in
  (negative, decimal_of (ip +:+ fp), e - Z.of_nat (String.length fp)).

(** [None]: the number is beyond binary64. An exponent far outside the range of
    the digits is cut before it is raised to. *)
Definition ParseFloat (lit : string) : option float64 :=
  let '(negative, n, e) := literal_parts lit in
  let len := Z.of_nat (String.length lit) in
  let v :=
    if n =? 0 then S754_zero negative
    else if e <? - (400 + len) then S754_zero negative
    else if 400 <? e then S754_infinity negative
    else if e <? 0 then round_ratio negative n (10 ^ (- e)) else round_ratio negative (n * 10 ^ e) 1 in
  match v with
  | S754_infinity _ | S754_nan => None
  | _ => Some v
  end.

(** ** Writing a number *)

(** The largest [k] with [10 ^ k <= n / d]. *)
Definition le_pow10 (k n d : Z) : bool :=
  if 0 <=? k then 10 ^ k * d <=? n else d <=? n * 10 ^ (- k).
Fixpoint bump (fuel : nat) (k n d : Z) : Z :=
  match fuel with
  | O => k
  | S fuel' => if le_pow10 (k + 1) n d then bump fuel' (k + 1) n d else k
  end.
Definition floor_log10 (n d : Z) : Z := bump 8 ((Z.log2 n - Z.log2 d - 1) * 30103 / 100000 - 2) n d.

(** [c * 10 ^ e] as a binary64. *)
Definition decimal_float (c e : Z) : float64 :=
  if e <? 0 then round_ratio false c (10 ^ (- e)) else round_ratio false (c * 10 ^ e) 1.

(** The nearest decimal of [digits] digits that reads back as the number [n / d]. *)
Definition candidate (n d k digits : Z) (v : float64) : option (Z * Z) :=
  let e := k - digits + 1 in
  let '(n', d') := if e <? 0 then (n * 10 ^ (- e), d) else (n, d * 10 ^ e) in
  let lo := n' / d' in
  let hi := lo + 1 in
  let ok c := f64_eq (decimal_float c e) v in
  if ok lo && (negb (ok hi) || (2 * (n' - lo * d') <=? d')) then Some (lo, e)
  else if ok hi then Some (hi, e) else None.

Fixpoint shortest_from (fuel : nat) (n d k digits : Z) (v : float64) : Z * Z :=
  match fuel with
  | O => (0, 0)
  | S fuel' =>
      match candidate n d k digits v with
      | Some ce => ce
      | None => shortest_from fuel' n d k (digits + 1) v
      end
  end.

Fixpoint strip_zeros (fuel : nat) (c e : Z) : Z * Z :=
  match fuel with
  | O => (c, e)
  | S fuel' => if (c mod 10 =? 0) && negb (c =? 0) then strip_zeros fuel' (c / 10) (e + 1) else (c, e)
  end.

(** Digits and exponent of a positive binary64 [m * 2 ^ e2]; 17 digits always do. *)
Definition shortest (m : positive) (e2 : Z) : Z * Z :=
  let '(n, d) := if e2 <? 0 then (Z.pos m, 2 ^ (- e2)) else (Z.pos m * 2 ^ e2, 1) in
  let '(c, e) := shortest_from 17 n d (floor_log10 n d) 1 (S754_finite false m e2) in
  strip_zeros 20 c e.

Fixpoint zeros (n : nat) : string :=
  match n with O => EmptyString | S n' => String "0"%char (zeros n') end.

Definition pad2 (z : Z) : string := if z <? 10 then "0" +:+ fmt_d z else fmt_d z.

(** The layout of encoding/json: positional from 1e-6 to 1e21, exponent outside,
    a one-digit negative exponent without its zero. *)
Definition positional (c e : Z) : string :=
  let ds := fmt_d c in
  let len := Z.of_nat (String.length ds) in
  if 0 <=? e then ds +:+ zeros (Z.to_nat e)
  else if 0 <? len + e then
    stake (Z.to_nat (len + e)) ds +:+ "." +:+ sdrop (Z.to_nat (len + e)) ds
  else "0." +:+ zeros (Z.to_nat (- (len + e))) +:+ ds.

Definition scientific (c e : Z) : string :=
  let ds := fmt_d c in
  let x := e + Z.of_nat (String.length ds) - 1 in
  let mant := match sdrop 1 ds with
              | EmptyString => ds
              | rest => stake 1 ds +:+ "." +:+ rest
              end in
  if x <? 0 then mant +:+ "e-" +:+ fmt_d (- x) else mant +:+ "e+" +:+ pad2 x.

Definition float_text (v : float64) : string :=
  match v with
  | S754_zero false => "0"
  | S754_zero true => "-0"
  | S754_finite s m e =>
      let '(c, x) := shortest m e in
      let a := S754_finite false m e in
      let tiny := f64_lt a (decimal_float 1 (-6)) in
      let huge := f64_le (decimal_float 1 21) a in
      (if s then "-" else EmptyString) +:+
      (if tiny || huge then scientific c x else positional c x)
  | _ => EmptyString
  end.

(** ** Values *)
Fixpoint numbers_in_range (j : json) : bool :=
  match j with
  | JNum lit => match ParseFloat lit with Some _ => true | None => false end
  | JArr l => forallb numbers_in_range l
  | JObj fs => forallb (fun kv => numbers_in_range kv.2) fs
  | _ => true
  end.

(** [json.Unmarshal] into an [interface{}] or a [map[string]interface{}]: a number
    out of range is an error. *)
Definition UnmarshalAny (s : string) : option json :=
  v ← Unmarshal s; if numbers_in_range v then Some v else None.
Definition UnmarshalMap (s : string) : option (list (string * json)) :=
  v ← UnmarshalAny s;
  match v with JObj fs => Some fs | JNull => Some [] | _ => None end.

(** Keys in byte order. *)
Fixpoint bytes_le (s t : string) : bool :=
  match s, t with
  | EmptyString, _ => true
  | String _ _, EmptyString => false
  | String a s', String b t' =>
      (byte_of a <? byte_of b)%nat || ((byte_of a =? byte_of b)%nat && bytes_le s' t')
  end.
Definition key_le (a b : string * json) : Prop := bytes_le a.1 b.1 = true.
#[global] Instance key_le_dec : RelDecision key_le.
Proof. intros a b. unfold key_le. apply _. Defined.

Fixpoint canonical (j : json) : json :=
  match j with
  | JNum lit => JNum (match ParseFloat lit with Some v => float_text v | None => lit end)
  | JArr l => JArr (map canonical l)
  | JObj fs => JObj (merge_sort key_le (map (fun kv => (kv.1, canonical kv.2)) fs))
  | _ => j
  end.
Definition Marshal (j : json) : string := render (canonical j).

Example floats :
  map (fun l => float_text <$> ParseFloat l)
    ["1.0"; "0.1"; "1e3"; "123456789012345678901"; "1e21"; "0.000001"; "0.0000001"; "5e-324";
     "1.7976931348623157e308"; "1e309"; "-2.50"; "-0"; "9007199254740993"; "0.30000000000000004";
     "2.2250738585072014e-308"; "4.35"; "1e23"] =
  [Some "1"; Some "0.1"; Some "1000"; Some "123456789012345680000"; Some "1e+21"; Some "0.000001";
   Some "1e-7"; Some "5e-324"; Some "1.7976931348623157e+308"; None; Some "-2.5"; Some "-0";
   Some "9007199254740992"; Some "0.30000000000000004"; Some "2.2250738585072014e-308"; Some "4.35";
   Some "1e+23"].
Proof. vm_compute. reflexivity. Qed.
