(* ===== verification/Tools.v ===== *)
(** * Tool names and tool inputs (src/internal/toolname/toolname.go and the tool
    functions of src/internal/handler/stream_handler.go)

    - [NormalizeToolNameFallback], [MapToolNameToClient]: the vocabulary of the
      upstream mapped onto the tools the client declared.
    - [normalizeUpstreamToolCall], [sanitizeToolInput]: aliases of input fields.
    - [sanitizeToolInputAgainstClientSchema], [pruneToolInputBySchema]: fields the
      client's schema does not take. The first asserts the type of the payload
      without a check, so it may panic: [Err].
    - [hasNonProjectSandboxToolPath], [validToolCallInput] and the others: the
      tests a tool call passes before it is emitted.

    Which runes [strconv.Quote] prints is a table of the Go library: the class
    [UnicodeTable]. *)

From Stdlib Require Import Ascii.
From stdpp Require Import base numbers list strings sets gmap.
From S2P Require Import Prelude GoLib Json Marshal.

Local Open Scope nat_scope.

(** ** Package toolname *)
Definition normalizedToolNameFallbacks : list (string * string) :=
  [("str_replace_editor", "Edit"); ("edit", "Edit"); ("apply_file_diffs", "Edit");
   ("view", "Read"); ("readfile", "Read"); ("read_file", "Read"); ("read_files", "Read"); ("read", "Read");
   ("listdir", "Glob"); ("list_dir", "Glob"); ("list_directory", "Glob"); ("ls", "Glob");
   ("globtool", "Glob"); ("glob", "Glob"); ("find_files", "Glob"); ("file_glob", "Glob");
   ("file_glob_v2", "Glob");
   ("ripgreptool", "Grep"); ("ripgrep", "Grep"); ("search_code", "Grep"); ("search_codebase", "Grep");
   ("grep", "Grep");
   ("exec", "Bash"); ("execute", "Bash"); ("execute_command", "Bash"); ("execute-command", "Bash");
   ("run_command", "Bash"); ("runcommand", "Bash"); ("launch-process", "Bash");
   ("run_shell_command", "Bash"); ("shell", "Bash"); ("bash", "Bash");
   ("writefile", "Write"); ("write_file", "Write"); ("create_file", "Write"); ("createfile", "Write");
   ("save-file", "Write"); ("write", "Write");
   ("update_todo_list", "TodoWrite"); ("todo", "TodoWrite"); ("todo_write", "TodoWrite");
   ("todowrite", "TodoWrite");
   ("web_fetch", "web_fetch"); ("webfetch", "web_fetch"); ("fetch", "web_fetch");
   ("builtin_web_fetch", "web_fetch"); ("mcp__fetch__fetch", "web_fetch");
   ("mcp__tavily__web_extract", "web_fetch");
   ("web_search", "web_search"); ("websearch", "web_search"); ("builtin_web_search", "web_search");
   ("mcp__tavily__web_search", "web_search"); ("mcp__brave__web_search", "web_search");
   ("ask_followup_question", "AskUserQuestion"); ("ask", "AskUserQuestion");
   ("enter_plan_mode", "EnterPlanMode"); ("exit_plan_mode", "ExitPlanMode");
   ("new_task", "Task"); ("agent", "Task"); ("subagent", "Task"); ("subagents", "Task");
   ("spawn_agent", "Task"); ("spawn_subagent", "Task"); ("session_spawn", "Task");
   ("sessions_spawn", "Task");
   ("task_output", "TaskOutput"); ("task_stop", "TaskStop");
   ("use_skill", "Skill"); ("skill", "Skill")].

Fixpoint assoc {A} (k : string) (l : list (string * A)) : option A :=
  match l with
  | [] => None
  | (k', v) :: l' => if String.eqb k k' then Some v else assoc k l'
  end.

Definition NormalizeToolNameFallback (name : string) : string :=
  match assoc (ToLower (TrimSpace name)) normalizedToolNameFallbacks with
  | Some mapped => mapped
  | None => name
  end.

(** The loop of [toSnakeCase] over the runes of the trimmed name. *)
Fixpoint snake_fuel (fuel : nat) (first : bool) (s : string) : string :=
  match fuel, s with
  | S fuel', String a _ =>
      let '(r, size) := DecodeRune s in
      (if ((65 <=? r) && (r <=? 90))%Z
       then (if first then EmptyString else "_") +:+ String (chr (r + 32)) EmptyString
       else if (r =? 45)%Z || (r =? 32)%Z then "_"
       else EncodeRune r) +:+ snake_fuel fuel' false (sdrop size s)
  | _, _ => EmptyString
  end.
Definition toSnakeCase (value : string) : string :=
  let value := TrimSpace value in snake_fuel (String.length value) true value.

Record NormalizedTool := mkNormalized { Original : string; Lowercase : string; SnakeCase : string }.
Definition NormalizeToolName (name : string) : NormalizedTool :=
  if String.eqb name EmptyString then mkNormalized EmptyString EmptyString EmptyString
  else let lower := ToLower name in mkNormalized name lower (toSnakeCase lower).

(** A field that holds an object, a string, an array ([x.(T)] with its ok). *)
Definition obj_field (k : string) (fs : list (string * json)) : option (list (string * json)) :=
  match field k fs with Some (JObj o) => Some o | _ => None end.
Definition str_at (k : string) (fs : list (string * json)) : option string :=
  match field k fs with Some (JStr s) => Some s | _ => None end.

Fixpoint extractSchemaMap (tm : list (string * json)) (keys : list string) : option (list (string * json)) :=
  match keys with
  | [] => None
  | key :: keys' =>
      match obj_field key tm with Some schema => Some schema | None => extractSchemaMap tm keys' end
  end.

Definition ExtractToolSpecFields (tool : json) : string * string * option (list (string * json)) :=
  match tool with
  | JObj tm =>
      let '(name, description, schema) :=
        match obj_field "function" tm with
        | Some fn =>
            (match str_at "name" fn with Some v => TrimSpace v | None => EmptyString end,
             default EmptyString (str_at "description" fn),
             extractSchemaMap fn ["parameters"; "input_schema"; "inputSchema"])
        | None => (EmptyString, EmptyString, None)
        end in
      let name := if String.eqb name EmptyString
                  then match str_at "name" tm with Some v => TrimSpace v | None => name end else name in
      let description := if String.eqb description EmptyString
                         then default description (str_at "description" tm) else description in
      let schema := match schema with
                    | None => extractSchemaMap tm ["input_schema"; "inputSchema"; "parameters"]
                    | Some _ => schema
                    end in
      (name, description, schema)
  | _ => (EmptyString, EmptyString, None)
  end.

Definition toolSpecName (tool : json) : string := TrimSpace (ExtractToolSpecFields tool).1.1.

Definition toolMapsFromInterfaces (clientTools : list json) : list json :=
  List.filter (fun t => match t with JObj _ => true | _ => false end) clientTools.

Definition extractAliasStrings (raw : option json) : list string :=
  match raw with
  | Some (JArr l) =>
      omap (fun a => match a with
                     | JStr v => if String.eqb (TrimSpace v) EmptyString then None else Some v
                     | _ => None
                     end) l
  | _ => []
  end.

Definition getToolAliases (tool : json) : list string :=
  match tool with
  | JObj tm =>
      match extractAliasStrings (field "aliases" tm) with
      | [] => match obj_field "function" tm with
              | Some fn => extractAliasStrings (field "aliases" fn)
              | None => []
              end
      | aliases => aliases
      end
  | _ => []
  end.

Definition toolAliases : list (string * list string) :=
  [("id", ["text"]); ("name", ["text"]); ("content", ["code"]); ("source", ["input"])].

Definition MapToolToAnthropic (upstreamName : string) : string :=
  if bool_decide (TrimSpace upstreamName ∈ ["str_replace_editor"; "bash"; "computer"; "text_editor"])
  then TrimSpace upstreamName else upstreamName.

(** The first declared tool, in order, whose name passes the test. *)
Definition first_tool (test : json -> string -> bool) (tools : list json) : option string :=
  head (omap (fun tool => let name := toolSpecName tool in
    if String.eqb name EmptyString then None else if test tool name then Some name else None) tools).

(** The handler always calls it without a [toolMapper], so the declared tools are
    the client's. *)
Definition MapToolNameToClient (upstreamName : string) (clientTools : list json) : string :=
  let n := NormalizeToolName upstreamName in
  if String.eqb (Original n) EmptyString then upstreamName else
  let tools := toolMapsFromInterfaces clientTools in
  let direct := first_tool (fun _ name =>
    String.eqb (ToLower name) (Lowercase n) || String.eqb (toSnakeCase (ToLower name)) (SnakeCase n) ||
    (let fallbackName := ToLower (TrimSpace (NormalizeToolNameFallback name)) in
     String.eqb fallbackName (Lowercase n) || String.eqb (toSnakeCase fallbackName) (SnakeCase n))) tools in
  match direct with
  | Some name => name
  | None =>
    match first_tool (fun tool _ =>
      existsb (fun alias => String.eqb alias (SnakeCase n) || String.eqb alias (Lowercase n) ||
                            EqualFold alias upstreamName) (getToolAliases tool)) tools with
    | Some name => name
    | None =>
      match match assoc (SnakeCase n) toolAliases with
            | Some aliases => first_tool (fun _ name =>
                existsb (fun alias => String.eqb (toSnakeCase (ToLower name)) alias ||
                  String.eqb (ToLower name) alias || EqualFold name alias) aliases) tools
            | None => None
            end with
      | Some name => name
      | None =>
        match first_tool (fun _ name =>
          match assoc (toSnakeCase (ToLower name)) toolAliases with
          | Some aliases => existsb (fun alias => String.eqb alias (SnakeCase n) ||
                                                  String.eqb alias (Lowercase n)) aliases
          | None => false
          end) tools with
        | Some name => name
        | None => MapToolToAnthropic upstreamName
        end
      end
    end
  end.

(** ** The schema of the client *)
Definition FirstNonEmptyUntrimmed (values : list string) : string :=
  default EmptyString (head (List.filter (fun v => negb (String.eqb (TrimSpace v) EmptyString)) values)).

(** A map's iteration order does not show: every key is treated on its own. *)
Fixpoint pruneToolInputBySchema (value : json) (schema : list (string * json)) {struct value} : json * bool :=
  match value with
  | JArr arr =>
      match obj_field "items" schema with
      | Some items =>
          let out := map (fun item => pruneToolInputBySchema item items) arr in
          (JArr (map fst out), existsb snd out)
      | None => (value, false)
      end
  | JObj obj =>
      let props := default [] (obj_field "properties" schema) in
      let strict := match field "additionalProperties" schema with Some (JBool b) => b | _ => false end in
      let out := map (fun kv : string * json =>
        match obj_field kv.1 props with
        | Some propertySchema =>
            let next := pruneToolInputBySchema kv.2 propertySchema in
            (Some (kv.1, next.1), next.2)
        | None => if strict then (None, true) else (Some kv, false)
        end) obj in
      (JObj (omap fst out), existsb snd out)
  | _ => (value, false)
  end.

Definition EqualFold_any (s : string) (names : list string) : bool := existsb (EqualFold s) names.

(** Whether an item of [todos] carries an [id], and the item without it. *)
Definition has_id (item : json) : bool :=
  match item with JObj o => bool_decide (is_Some (field "id" o)) | _ => false end.
Definition drop_id (item : json) : json :=
  match item with JObj o => JObj (del_field "id" o) | _ => item end.

Fixpoint find_schema (name wanted : string) (clientTools : list json) : list (string * json) :=
  match clientTools with
  | [] => []
  | tool :: rest =>
      let '(toolName, _, candidate) := ExtractToolSpecFields tool in
      if EqualFold toolName name || EqualFold (TrimSpace (NormalizeToolNameFallback toolName)) wanted
      then default [] candidate else find_schema name wanted rest
  end.

(** [Err] is the panic of an unchecked type assertion: the TodoWrite branch takes
    the payload for an object. *)
Definition sanitizeToolInputAgainstClientSchema (name input : string) (clientTools : list json) :
    result string string :=
  let trimmed := TrimSpace input in
  if String.eqb trimmed EmptyString then Ok input else
  match UnmarshalAny trimmed with
  | None => Ok input
  | Some payload =>
      let by_schema (payload : json) :=
        let wanted := TrimSpace (NormalizeToolNameFallback name) in
        let schema := find_schema name wanted clientTools in
        let schema := match schema, clientTools with
                      | [], [tool] => default [] (ExtractToolSpecFields tool).2
                      | _, _ => schema
                      end in
        match schema with
        | [] => input
        | _ =>
            let '(sanitized, changed) := pruneToolInputBySchema payload schema in
            if changed then Marshal sanitized else input
        end in
      if EqualFold_any (TrimSpace name) ["todowrite"; "todo_write"; "update_todo_list"] then
        match payload with
        | JObj fs =>
            match field "todos" fs with
            | Some (JArr todos) =>
                if existsb has_id todos
                then Ok (Marshal (JObj (set_field "todos" (JArr (map drop_id todos)) fs)))
                else Ok (by_schema payload)
            | _ => Ok (by_schema payload)
            end
        | _ => Err "interface conversion: interface {} is not map[string]interface {}"
        end
      else Ok (by_schema payload)
  end.

Definition rewriteToolCallToClient (clientTools : list json) (name input : string) :
    result (string * string) string :=
  let canonical := TrimSpace (NormalizeToolNameFallback name) in
  match clientTools with
  | [] => Ok (name, input)
  | _ =>
      let mapped := TrimSpace (MapToolNameToClient canonical clientTools) in
      if String.eqb mapped EmptyString then Ok (name, input)
      else result_bind (sanitizeToolInputAgainstClientSchema mapped input clientTools)
             (fun input => Ok (mapped, input))
  end.

(** ** The input of an upstream call *)
Definition quoted (s : string) : string := dquote +:+ s +:+ dquote.

Definition sanitizeToolInput (name input : string) : string :=
  let trimmed := TrimSpace input in
  if String.eqb trimmed EmptyString then input else
  let nameKey := ToLower (TrimSpace name) in
  let applies :=
    if String.eqb nameKey "write" then Contains trimmed (quoted "path") || Contains trimmed (quoted "overwrite")
    else if String.eqb nameKey "edit" || String.eqb nameKey "read" then Contains trimmed (quoted "path")
    else if String.eqb nameKey "bash" then Contains trimmed (quoted "cmd")
    else if String.eqb nameKey "glob" then
      Contains trimmed (quoted "path") && negb (Contains trimmed (quoted "pattern"))
    else false in
  let '(from, to) := if String.eqb nameKey "bash" then ("cmd", "command") else ("path", "file_path") in
  if negb applies then input else
  match UnmarshalMap trimmed with
  | None => input
  | Some payload =>
      let '(payload, changed) :=
        if String.eqb nameKey "glob" then
          match field "pattern" payload, field "path" payload with
          | None, Some (JStr path) =>
              if String.eqb (TrimSpace path) EmptyString then (payload, false)
              else (set_field "pattern" (JStr "*") payload, true)
          | _, _ => (payload, false)
          end
        else
          let '(payload, changed) :=
            if String.eqb nameKey "write" && bool_decide (is_Some (field "overwrite" payload))
            then (del_field "overwrite" payload, true) else (payload, false) in
          match field from payload with
          | Some value =>
              let payload := match field to payload with
                             | Some _ => payload
                             | None => set_field to value payload
                             end in
              (del_field from payload, true)
          | None => (payload, changed)
          end in
      if changed then Marshal (JObj payload) else input
  end.

Definition normalizeUpstreamToolName (name : string) : string :=
  let mapped := NormalizeToolNameFallback name in
  if String.eqb (TrimSpace mapped) EmptyString then name else mapped.

(** *** strconv.Quote *)
Class UnicodeTable : Type := { IsPrint : Z -> bool }.

Definition hex2 (n : Z) : string :=
  String (hex (Z.to_nat (n / 16) mod 16)) (String (hex (Z.to_nat n mod 16)) EmptyString).
Definition hex4 (r : Z) : string := hex2 (r / 256) +:+ hex2 (r mod 256).

Section Quote.
  Context `{UnicodeTable}.

Definition appendEscapedRune (r : Z) : string :=
  if (r =? 34)%Z || (r =? 92)%Z then String backslash (String (chr r) EmptyString)
  else if IsPrint r then EncodeRune r
  else if (r =? 7)%Z then bs "a" else if (r =? 8)%Z then bs "b" else if (r =? 12)%Z then bs "f"
  else if (r =? 10)%Z then bs "n" else if (r =? 13)%Z then bs "r" else if (r =? 9)%Z then bs "t"
  else if (r =? 11)%Z then bs "v"
  else if (r <? 32)%Z || (r =? 127)%Z then bs ("x" +:+ hex2 r)
  else if (r <? 65536)%Z then bs ("u" +:+ hex4 r)
  else bs ("U" +:+ hex4 (r / 65536) +:+ hex4 (r mod 65536)).

Definition quote_step (s : string) : string * nat :=
  match s with
  | EmptyString => (EmptyString, 0)
  | String a _ =>
      let '(r, size) := DecodeRune s in
      if (r =? RuneError)%Z && (size =? 1) then (bs ("x" +:+ hex2 (Z.of_nat (byte_of a))), size)
      else (appendEscapedRune r, size)
  end.
Definition Quote (s : string) : string := quoted (scan quote_step (String.length s) s).

(** *** Directory listings *)
Definition isDirectoryListToolName (name : string) : bool :=
  bool_decide (ToLower (TrimSpace name) ∈ ["ls"; "listdir"; "list_dir"; "list_directory"]).

Fixpoint first_string (keys : list string) (fs : list (string * json)) : string :=
  match keys with
  | [] => EmptyString
  | key :: keys' =>
      match field key fs with Some (JStr path) => TrimSpace path | _ => first_string keys' fs end
  end.
Definition extractDirectoryListPath (input : string) : string :=
  let trimmed := TrimSpace input in
  if String.eqb trimmed EmptyString then EmptyString else
  match UnmarshalMap trimmed with
  | None => EmptyString
  | Some payload => first_string ["path"; "file_path"; "directory"; "dir"] payload
  end.

Fixpoint trim_slashes (fuel : nat) (s : string) : string :=
  match fuel with
  | O => s
  | S fuel' => if (1 <? String.length s) && HasSuffix s "/"
               then trim_slashes fuel' (stake (String.length s - 1) s) else s
  end.
Definition isPlaceholderDirectoryListPath (path : string) : bool :=
  let trimmed := TrimSpace path in
  if String.eqb trimmed EmptyString then false
  else String.eqb (trim_slashes (String.length trimmed) trimmed) "/home/user/app".

Definition rewriteDirectoryListToolInput (name input : string) : option string :=
  if negb (isDirectoryListToolName name) then None else
  let path := extractDirectoryListPath input in
  let path := if isPlaceholderDirectoryListPath path then EmptyString else path in
  let path := if String.eqb (TrimSpace path) EmptyString then "." else path in
  Some (Marshal (JObj [("command", JStr ("ls -1A -- " +:+ Quote path));
                       ("description", JStr "List top-level directory entries")])).

Definition normalizeUpstreamToolCall (name input : string) : string * string :=
  let rawName := TrimSpace name in
  if String.eqb rawName EmptyString then (rawName, input) else
  match rewriteDirectoryListToolInput rawName input with
  | Some bashInput => ("Bash", bashInput)
  | None =>
      let normalizedName := normalizeUpstreamToolName rawName in
      (normalizedName, sanitizeToolInput normalizedName input)
  end.
End Quote.

(** ** The tests of a call *)
Definition normalizeToolNameKey (name : string) : string := ToLower (TrimSpace name).

Record toolInputFields := mkToolInputFields {
  Command : string; Cmd : string; FilePath : string; Path : string;
  HasContent : bool; HasOld : bool; HasNew : bool  (* the raw field is non-empty *)
}.

Definition present (k : string) (fs : list (string * json)) : bool :=
  match struct_field k fs with Some _ => true | None => false end.

Definition decodeToolInputFields (input : string) : option toolInputFields :=
  let raw := FirstNonEmptyUntrimmed [TrimSpace input; "{}"] in
  v ← Unmarshal raw;
  fs ← match v with JObj fs => Some fs | JNull => Some [] | _ => None end;
  command ← as_string (struct_field "command" fs);
  cmd ← as_string (struct_field "cmd" fs);
  filePath ← as_string (struct_field "file_path" fs);
  path ← as_string (struct_field "path" fs);
  Some (mkToolInputFields command cmd filePath path
          (present "content" fs) (present "old_string" fs) (present "new_string" fs)).

Definition resolveToolPath (filePath path : string) : string :=
  if negb (String.eqb (TrimSpace filePath) EmptyString) then TrimSpace filePath
  else if negb (String.eqb (TrimSpace path) EmptyString) then TrimSpace path else EmptyString.

Definition isStructuredToolName (nameKey : string) : bool :=
  bool_decide (nameKey ∈ ["edit"; "write"; "bash"; "read"; "glob"; "grep"]).

Definition hasRequiredToolInputFields (nameKey : string) (f : toolInputFields) : bool :=
  let path := negb (String.eqb (resolveToolPath (FilePath f) (Path f)) EmptyString) in
  if String.eqb nameKey "edit" then path && HasOld f && HasNew f
  else if String.eqb nameKey "write" then path && HasContent f
  else if String.eqb nameKey "bash" then
    negb (String.eqb (TrimSpace (Command f)) EmptyString) || negb (String.eqb (TrimSpace (Cmd f)) EmptyString)
  else if String.eqb nameKey "read" then path
  else true.

Definition validToolCallInput (name input : string) : bool :=
  let nameKey := normalizeToolNameKey name in
  if String.eqb nameKey EmptyString then false
  else if negb (isStructuredToolName nameKey) then true
  else match decodeToolInputFields input with
       | Some fields => hasRequiredToolInputFields nameKey fields
       | None => false
       end.

(** [strings.Split] on one byte, and [strings.Trim] of one byte. *)
Fixpoint split_byte (sep : Ascii.ascii) (s : string) : list string :=
  match s with
  | EmptyString => [EmptyString]
  | String a s' =>
      match split_byte sep s' with
      | cur :: rest => if Ascii.eqb a sep then EmptyString :: cur :: rest else String a cur :: rest
      | [] => []
      end
  end.
Definition trim_byte (c : string) (s : string) : string :=
  String.rev (TrimLeft (String.rev (TrimLeft s c)) c).
Fixpoint replace_byte (a b : Ascii.ascii) (s : string) : string :=
  match s with
  | EmptyString => EmptyString
  | String x s' => String (if Ascii.eqb x a then b else x) (replace_byte a b s')
  end.

Definition isNonProjectSandboxPath (pathValue : string) : bool :=
  let pathValue := TrimSpace (replace_byte backslash "/"%char pathValue) in
  if String.eqb pathValue EmptyString || negb (HasPrefix (ToLower pathValue) "/tmp/cc-agent/") then false else
  match split_byte "/"%char (trim_byte "/" pathValue) with
  | p0 :: p1 :: _ :: rest =>
      if negb (EqualFold p0 "tmp") || negb (EqualFold p1 "cc-agent") then false
      else match rest with
           | [] => true
           | p3 :: _ => negb (EqualFold (TrimSpace p3) "project")
           end
  | _ => false
  end.

Definition hasNonProjectSandboxToolPath (name input : string) : bool :=
  if negb (bool_decide (normalizeToolNameKey name ∈ ["read"; "edit"; "write"; "glob"; "grep"])) then false else
  match decodeToolInputFields input with
  | Some fields => isNonProjectSandboxPath (resolveToolPath (FilePath fields) (Path fields))
  | None => false
  end.

Definition suppressedWriteContentFallback (name input : string) : string :=
  if negb (String.eqb (normalizeToolNameKey name) "write") then EmptyString else
  match Unmarshal input with
  | Some (JObj fs) =>
      match as_string (struct_field "content" fs) with Some c => TrimSpace c | None => EmptyString end
  | _ => EmptyString
  end.

(** [[]string]: null is the nil slice, a null element the empty string. *)
Definition as_strings (v : option json) : option (list string) :=
  match v with
  | None | Some JNull => Some []
  | Some (JArr l) => mapM (fun x => as_string (Some x)) l
  | _ => None
  end.

Definition taskDelegationAllowed (allowedToolNames : gset string) (input : string) : bool :=
  match (v ← Unmarshal (TrimSpace input);
         fs ← match v with JObj fs => Some fs | JNull => Some [] | _ => None end;
         as_strings (struct_field "allowed_tools" fs)) with
  | None | Some [] => false
  | Some names => forallb (fun name =>
      let key := ToLower (TrimSpace name) in
      negb (String.eqb key EmptyString) && bool_decide (key ∈ allowedToolNames)) names
  end.

(** ** Theorems *)

(** The values of the table are their own image. *)
Lemma fallback_fixed :
  forallb (fun kv => String.eqb (NormalizeToolNameFallback kv.2) kv.2) normalizedToolNameFallbacks = true.
Proof. vm_compute. reflexivity. Qed.

Lemma assoc_elem {A} k (l : list (string * A)) v : assoc k l = Some v -> (k, v) ∈ l.
Proof.
  induction l as [|[k' v'] l IH]; simpl; [done|].
  destruct (String.eqb_spec k k') as [->|]; [intros [= ->]; set_solver|]. set_solver.
Qed.

(** Normalising a tool name twice is normalising it once. *)
Theorem NormalizeToolNameFallback_idem (name : string) :
  NormalizeToolNameFallback (NormalizeToolNameFallback name) = NormalizeToolNameFallback name.
Proof.
  unfold NormalizeToolNameFallback at 2 3.
  destruct (assoc (ToLower (TrimSpace name)) normalizedToolNameFallbacks) as [v|] eqn:E.
  - apply assoc_elem in E. pose proof fallback_fixed as H. rewrite forallb_forall in H.
    apply String.eqb_eq. rewrite list_elem_of_In in E. by apply (H _ E).
  - unfold NormalizeToolNameFallback. by rewrite E.
Qed.

(** *** Pruning *)
Lemma existsb_map {A B} (f : A -> B) (p : B -> bool) l : existsb p (map f l) = existsb (fun x => p (f x)) l.
Proof. induction l; simpl; congruence. Qed.
Lemma existsb_false {A} (p : A -> bool) l : (forall x, x ∈ l -> p x = false) -> existsb p l = false.
Proof. induction l as [|x l IH]; simpl; intros H; [done|]. by rewrite H, IH by set_solver. Qed.

Definition prune_member (props : list (string * json)) (strict : bool) (kv : string * json) :
    option (string * json) * bool :=
  match obj_field kv.1 props with
  | Some propertySchema =>
      let next := pruneToolInputBySchema kv.2 propertySchema in (Some (kv.1, next.1), next.2)
  | None => if strict then (None, true) else (Some kv, false)
  end.
Definition schema_props (schema : list (string * json)) := default [] (obj_field "properties" schema).
Definition schema_strict (schema : list (string * json)) : bool :=
  match field "additionalProperties" schema with Some (JBool b) => b | _ => false end.

Lemma prune_obj o schema :
  pruneToolInputBySchema (JObj o) schema =
  (JObj (omap fst (map (prune_member (schema_props schema) (schema_strict schema)) o)),
   existsb snd (map (prune_member (schema_props schema) (schema_strict schema)) o)).
Proof. done. Qed.

(** A second pass over a pruned value changes nothing and reports no change. *)
Theorem prune_idempotent (value : json) (schema : list (string * json)) :
  pruneToolInputBySchema (pruneToolInputBySchema value schema).1 schema =
  ((pruneToolInputBySchema value schema).1, false).
Proof.
  revert schema. induction value as [| | | |l IH|o IH] using json_ind'; intros schema; try done.
  - cbn. destruct (obj_field "items" schema) as [items|] eqn:Hi; cbn; rewrite Hi; [|done].
    rewrite Forall_forall in IH. rewrite !map_map, existsb_map. f_equal.
    + f_equal. apply map_ext_in. intros x Hx. rewrite <- list_elem_of_In in Hx. by rewrite IH.
    + apply existsb_false. intros x Hx. by rewrite IH.
  - rewrite prune_obj. cbn [fst]. rewrite prune_obj.
    set (props := schema_props schema). set (strict := schema_strict schema).
    assert (Hm : map (prune_member props strict) (omap fst (map (prune_member props strict) o)) =
      map (fun kv => (Some kv, false)) (omap fst (map (prune_member props strict) o))).
    { clear -IH. induction o as [|[k v] o IHo]; [done|]. apply Forall_cons in IH as [Hv IH].
      cbn [map omap list_omap]. unfold prune_member at 2 5. cbn [fst snd] in *.
      destruct (obj_field k props) as [ps|] eqn:Hk; [|destruct strict eqn:Hst].
      - cbn [fst map]. rewrite IHo by done. f_equal. unfold prune_member. cbn [fst snd].
        rewrite Hk, Hv. done.
      - cbn [fst]. by apply IHo.
      - cbn [fst map]. rewrite IHo by done. f_equal. unfold prune_member. cbn [fst]. by rewrite Hk. }
    rewrite Hm. f_equal.
    + f_equal. clear. induction (omap fst (map (prune_member props strict) o)); cbn; congruence.
    + rewrite existsb_map. by apply existsb_false.
Qed.

(** No object of the schema sets [additionalProperties] to true. *)
Fixpoint never_open (j : json) : bool :=
  match j with
  | JArr l => forallb never_open l
  | JObj fs =>
      negb (match field "additionalProperties" fs with Some (JBool b) => b | _ => false end) &&
      forallb (fun kv => never_open kv.2) fs
  | _ => true
  end.

Lemma never_open_field k fs o : never_open (JObj fs) = true -> obj_field k fs = Some o -> never_open (JObj o) = true.
Proof.
  cbn [never_open]. rewrite andb_true_iff, forallb_forall. intros [_ H] Ho. unfold obj_field in Ho.
  destruct (field k fs) as [[]|] eqn:Hf; try done. injection Ho as ->.
  assert (Hin : (k, JObj o) ∈ fs).
  { clear -Hf. induction fs as [|[k' v'] fs IH]; simpl in Hf; [done|].
    destruct (String.eqb_spec k k') as [->|]; [injection Hf as ->; set_solver|set_solver]. }
  rewrite list_elem_of_In in Hin. by apply (H _ Hin).
Qed.

(** What the code does with a closed schema: nothing. Only a schema that says
    [additionalProperties: true] has its undeclared fields pruned, the opposite
    of what the comment of the function says. *)
Theorem prune_closed_schema_unchanged (value : json) (schema : list (string * json)) :
  never_open (JObj schema) = true -> (pruneToolInputBySchema value schema).2 = false.
Proof.
  revert schema. induction value as [| | | |l IH|o IH] using json_ind'; intros schema Hs; try done.
  - cbn. destruct (obj_field "items" schema) as [items|] eqn:Hi; [|done]. cbn. rewrite existsb_map.
    apply existsb_false. intros x Hx. rewrite Forall_forall in IH. apply IH; [done|].
    by eapply never_open_field.
  - rewrite prune_obj. cbn [snd]. rewrite existsb_map. apply existsb_false. intros [k v] Hx.
    unfold prune_member. cbn [fst snd]. rewrite Forall_forall in IH.
    destruct (obj_field k (schema_props schema)) as [ps|] eqn:Hk.
    + cbn [snd]. apply (IH _ Hx). unfold schema_props in Hk.
      destruct (obj_field "properties" schema) as [pr|] eqn:Hp; [|done].
      eapply never_open_field; [|exact Hk]. by eapply never_open_field.
    + assert (schema_strict schema = false) as ->; [|done].
      cbn in Hs. apply andb_true_iff in Hs as [Hs _]. by apply negb_true_iff in Hs.
Qed.

Example prune_is_inverted :
  let value := JObj [("a", JNum "1"); ("b", JNum "2")] in
  let schema b := [("additionalProperties", JBool b); ("properties", JObj [("a", JObj [])])] in
  pruneToolInputBySchema value (schema false) = (value, false) /\
  pruneToolInputBySchema value (schema true) = (JObj [("a", JNum "1")], true).
Proof. vm_compute. done. Qed.

(** A TodoWrite call whose input is an array takes the handler down. *)
Example todowrite_array_panics :
  exists e, sanitizeToolInputAgainstClientSchema "TodoWrite" "[]" [JObj [("name", JStr "TodoWrite")]] = Err e.
Proof. eexists. vm_compute. reflexivity. Qed.

Lemma prune_closed_schema_unchanged_witness :
  (pruneToolInputBySchema (JObj [("a", JNum "1"); ("b", JNum "2")])
     [("additionalProperties", JBool false); ("properties", JObj [("a", JObj [])])]).2 = false.
Proof. apply prune_closed_schema_unchanged. vm_compute. reflexivity. Defined.

(** The panic needs that tool name: any other call comes back with an input. *)
Theorem sanitize_total (name input : string) (clientTools : list json) :
  EqualFold_any (TrimSpace name) ["todowrite"; "todo_write"; "update_todo_list"] = false \/
  (exists fs, UnmarshalAny (TrimSpace input) = Some (JObj fs)) ->
  exists out, sanitizeToolInputAgainstClientSchema name input clientTools = Ok out.
Proof.
  intros H. unfold sanitizeToolInputAgainstClientSchema.
  destruct (String.eqb (TrimSpace input) EmptyString); [eauto|].
  destruct (UnmarshalAny (TrimSpace input)) as [payload|]; [|eauto].
  destruct (EqualFold_any _ _) eqn:E; [|eauto].
  destruct H as [|(fs & [= ->])]; [done|].
  destruct (field "todos" fs) as [[]|]; eauto. destruct (existsb has_id _); eauto.
Qed.

Lemma sanitize_total_witness :
  exists out, sanitizeToolInputAgainstClientSchema "Read" "[]" [] = Ok out.
Proof. apply sanitize_total. left. vm_compute. reflexivity. Defined.
