(* ===== verification/Tokens.v ===== *)
(** * The token estimator (src/internal/tiktoken/tokenizer.go)

    [Estimator] counts one token per word, one per ASCII punctuation byte and 1.5
    per other rune. The count is kept in halves of a token: the program adds 1 and
    1.5 to a float64, which is exact below 2^52, so the halves are exact too.

    [Add] is the loop with its inner run over a word; [addByte] is the machine it
    optimises, one byte or rune at a time. The theorems: [Add] is that machine,
    and a text may be fed in fragments cut anywhere between two runes. *)

From Stdlib Require Import Ascii.
From stdpp Require Import base numbers list strings sets.
From S2P Require Import Prelude GoLib Json.

Local Open Scope nat_scope.

Inductive Class_ := classWord | classSpace | classPunct | classNonASCII.
#[global] Instance Class_eq_dec : EqDecision Class_. Proof. solve_decision. Defined.

Definition asciiClass (a : Ascii.ascii) : Class_ :=
  if 128 <=? byte_of a then classNonASCII
  else if between 97 122 a || between 65 90 a || between 48 57 a then classWord
  else if is_byte 32 a || is_byte 9 a || is_byte 10 a || is_byte 13 a then classSpace
  else classPunct.

Record Estimator := mkEstimator { halves : Z; inWord : bool }.
Definition zeroEstimator : Estimator := mkEstimator 0 false.

(** Close the run of a word, if one is open. *)
Definition flush (e : Estimator) : Estimator :=
  if inWord e then mkEstimator (halves e + 2) false else e.
Definition add_halves (n : Z) (e : Estimator) : Estimator := mkEstimator (halves e + n) (inWord e).

(** The inner loop: the text after a run of word bytes. *)
Fixpoint skip_word (s : string) : string :=
  match s with
  | String a s' => if bool_decide (asciiClass a = classWord) then skip_word s' else s
  | EmptyString => EmptyString
  end.

Fixpoint add_fuel (fuel : nat) (e : Estimator) (text : string) : Estimator :=
  match fuel, text with
  | S fuel', String a text' =>
      match asciiClass a with
      | classWord => add_fuel fuel' (mkEstimator (halves e) true) (skip_word text')
      | classSpace => add_fuel fuel' (flush e) text'
      | classPunct => add_fuel fuel' (add_halves 2 (flush e)) text'
      | classNonASCII =>
          add_fuel fuel' (add_halves 3 (flush e)) (sdrop (DecodeRune text).2 text)
      end
  | _, _ => e
  end.
Definition Estimator_Add (e : Estimator) (text : string) : Estimator := add_fuel (String.length text) e text.

(** [math.Round] of the halves: a half rounds away from zero. *)
Definition Count (e : Estimator) : Z :=
  let tokens := (halves e + if inWord e then 2 else 0)%Z in ((tokens + 1) / 2)%Z.
Definition Estimator_Reset (e : Estimator) : Estimator := zeroEstimator.

Definition EstimateTextTokens (text : string) : Z :=
  if String.eqb text EmptyString then 0%Z else Count (Estimator_Add zeroEstimator text).

(** ** The machine, one step at a time *)
Definition addByte (e : Estimator) (text : string) : Estimator :=
  match text with
  | EmptyString => e
  | String a _ =>
      match asciiClass a with
      | classWord => mkEstimator (halves e) true
      | classSpace => flush e
      | classPunct => add_halves 2 (flush e)
      | classNonASCII => add_halves 3 (flush e)
      end
  end.
Fixpoint machine_fuel (fuel : nat) (e : Estimator) (text : string) : Estimator :=
  match fuel, text with
  | S fuel', String _ _ => machine_fuel fuel' (addByte e text) (sdrop (DecodeRune text).2 text)
  | _, _ => e
  end.
Definition machine (e : Estimator) (text : string) : Estimator := machine_fuel (String.length text) e text.

Lemma machine_fuel_irrelevant n m e s :
  String.length s <= n -> String.length s <= m -> machine_fuel n e s = machine_fuel m e s.
Proof.
  revert m e s; induction n as [|n IH]; intros [|m] e [|a s]; simpl String.length; try lia; try done.
  intros Hn Hm. cbn [machine_fuel]. pose proof (DecodeRune_progress a s).
  apply IH; rewrite sdrop_length; cbn [String.length]; lia.
Qed.

Lemma machine_step e a t :
  machine e (String a t) = machine (addByte e (String a t)) (sdrop (DecodeRune (String a t)).2 (String a t)).
Proof.
  unfold machine. cbn [String.length machine_fuel]. pose proof (DecodeRune_progress a t).
  apply machine_fuel_irrelevant; rewrite ?sdrop_length; cbn [String.length]; lia.
Qed.

Lemma word_ascii a : asciiClass a <> classNonASCII -> byte_of a < 128.
Proof. unfold asciiClass. destruct (128 <=? byte_of a) eqn:E; byte_facts; [done|lia]. Qed.

Lemma machine_ascii e a t : asciiClass a <> classNonASCII ->
  machine e (String a t) = machine (addByte e (String a t)) t.
Proof. intros Ha%word_ascii. rewrite machine_step, DecodeRune_ascii by done. done. Qed.

(** A run of word bytes only opens the word. *)
Lemma machine_skip_word h s : machine (mkEstimator h true) (skip_word s) = machine (mkEstimator h true) s.
Proof.
  induction s as [|a s IH]; [done|]. cbn [skip_word]. case_bool_decide as Ha; [|done].
  rewrite IH, machine_ascii by congruence. cbn [addByte]. by rewrite Ha.
Qed.

Lemma skip_word_length s : String.length (skip_word s) <= String.length s.
Proof. induction s as [|a s IH]; [done|]. cbn [skip_word]. case_bool_decide; simpl; lia. Qed.

Lemma add_fuel_machine n e s : String.length s <= n -> add_fuel n e s = machine e s.
Proof.
  revert e s; induction n as [|n IH]; intros e [|a s]; simpl String.length; intros Hn; try lia; try done.
  cbn [add_fuel]. destruct (asciiClass a) eqn:Ha.
  - pose proof (skip_word_length s). rewrite IH, machine_skip_word, machine_ascii by (lia || congruence).
    cbn [addByte]. by rewrite Ha.
  - rewrite IH, machine_ascii by (lia || congruence). cbn [addByte]. by rewrite Ha.
  - rewrite IH, machine_ascii by (lia || congruence). cbn [addByte]. by rewrite Ha.
  - pose proof (DecodeRune_progress a s). rewrite machine_step, IH
      by (rewrite sdrop_length; cbn [String.length]; lia). cbn [addByte]. by rewrite Ha.
Qed.

(** The loop with its word run is the byte-by-byte machine. *)
Theorem Add_machine (e : Estimator) (text : string) : Estimator_Add e text = machine e text.
Proof. by apply add_fuel_machine. Qed.

(** ** Feeding a text in fragments *)
Lemma DecodeRune_app a t u : invalid_rune (String a t) = false ->
  DecodeRune (String a t +:+ u) = DecodeRune (String a t).
Proof.
  intros Hok. pose proof (DecodeRune_prefix a t (sdrop (DecodeRune (String a t)).2 (String a t) +:+ u) Hok) as H.
  rewrite <- sapp_assoc, stake_sdrop in H. exact H.
Qed.

Lemma sdrop_app_le n (s u : string) : n <= String.length s -> sdrop n (s +:+ u) = sdrop n s +:+ u.
Proof. revert s; induction n as [|n IH]; intros [|a s]; simpl; try done; [lia|]. intros. apply IH. lia. Qed.

Lemma decode_size_le a t : (DecodeRune (String a t)).2 <= String.length (String a t).
Proof.
  destruct (DecodeRune (String a t)) as [r n] eqn:E. apply DecodeRune_view in E.
  destruct E; simpl; lia.
Qed.

Lemma machine_app n e a b :
  String.length a <= n -> valid_fuel n a = true -> machine e (a +:+ b) = machine (machine e a) b.
Proof.
  revert e a; induction n as [|n IH]; intros e [|x a]; simpl String.length; try done; [lia|].
  intros Hn Hv. cbn [valid_fuel] in Hv. apply andb_true_iff in Hv as [Hok%negb_true_iff Hv].
  pose proof (DecodeRune_progress x a) as Hp. pose proof (decode_size_le x a) as Hle.
  change (String x a +:+ b) with (String x (a +:+ b)). rewrite machine_step.
  change (String x (a +:+ b)) with (String x a +:+ b). rewrite DecodeRune_app, sdrop_app_le by done.
  change (addByte e (String x a +:+ b)) with (addByte e (String x a)).
  rewrite IH; [by rewrite (machine_step e x a)| |done].
  rewrite sdrop_length. cbn [String.length]. lia.
Qed.

(** Adding the fragments of a text one by one gives the estimate of the whole
    text, wherever it is cut between two runes: inside a word too. *)
Theorem Add_fragments (e : Estimator) (a b : string) :
  ValidString a = true -> Estimator_Add e (a +:+ b) = Estimator_Add (Estimator_Add e a) b.
Proof. intros Ha. rewrite !Add_machine. by apply (machine_app (String.length a)). Qed.

Lemma Add_fragments_witness :
  Estimator_Add zeroEstimator ("hel" +:+ "lo, you") = Estimator_Add (Estimator_Add zeroEstimator "hel") "lo, you".
Proof. apply Add_fragments. vm_compute. reflexivity. Defined.

(** Cut inside a rune, the halves count twice: the fragments of one three-byte
    rune are estimated at five tokens, the rune at two. *)
Example cut_inside_rune :
  let rune := String (Ascii.ascii_of_nat 230) (String (Ascii.ascii_of_nat 181)
                (String (Ascii.ascii_of_nat 139) EmptyString)) in
  EstimateTextTokens rune = 2%Z /\
  Count (Estimator_Add (Estimator_Add zeroEstimator (stake 1 rune)) (sdrop 1 rune)) = 5%Z.
Proof. vm_compute. done. Qed.

(** ** Bounds *)
Lemma machine_bounds n e s : String.length s <= n -> (0 <= halves e)%Z ->
  (0 <= halves (machine e s) + (if inWord (machine e s) then 2 else 0) <=
   halves e + (if inWord e then 2 else 0) + 3 * Z.of_nat (String.length s))%Z.
Proof.
  revert e s; induction n as [|n IH]; intros e [|a t]; simpl String.length; intros Hn He; try lia.
  1, 2: unfold machine; cbn; destruct (inWord e); lia.
  rewrite machine_step. pose proof (DecodeRune_progress a t) as Hp.
  assert (Hstep : (0 <= halves (addByte e (String a t)))%Z /\
    (halves (addByte e (String a t)) + (if inWord (addByte e (String a t)) then 2 else 0) <=
     halves e + (if inWord e then 2 else 0) + 3)%Z).
  { destruct e as [h []]; cbn [addByte]; destruct (asciiClass a); cbn in *; lia. }
  specialize (IH (addByte e (String a t)) (sdrop (DecodeRune (String a t)).2 (String a t))).
  rewrite sdrop_length in IH. cbn [String.length] in *. specialize (IH ltac:(lia) ltac:(lia)). lia.
Qed.

(** The estimate of a text is at most one token and a half per byte. *)
Theorem EstimateTextTokens_bounds (text : string) :
  (0 <= EstimateTextTokens text /\ 2 * EstimateTextTokens text <= 3 * Z.of_nat (String.length text) + 1)%Z.
Proof.
  unfold EstimateTextTokens. destruct (String.eqb_spec text EmptyString) as [->|_]; [done|].
  rewrite Add_machine. unfold Count.
  pose proof (machine_bounds _ zeroEstimator text (le_n _) ltac:(done)) as H. simpl in H.
  set (t := (halves (machine zeroEstimator text) +
    (if inWord (machine zeroEstimator text) then 2 else 0))%Z) in *.
  pose proof (Z.div_mod (t + 1) 2). pose proof (Z.mod_pos_bound (t + 1) 2). lia.
Qed.
