(* ===== verification/SseFrame.v ===== *)
(** * The frame writer (src/internal/handler/sse_frame.go)

    - Module [Swar]: the eight-bytes-at-a-time test on 64-bit words, with the
      wrap-around of the subtraction written out.
    - [canAppendJSONRawString] and [appendJSONBytes]: the string encoder with its
      two fast paths. A Go slice index into the text is the suffix that starts
      there.
    - [Frame], [event_of], [payload]: the frames of the Anthropic event stream
      and the JSON each one carries; [writeSSEFrameBytes] puts it on the wire.

    The serialisers return the bytes alone: the only error they could pass on is
    [json.Marshal] failing on a string, which it never does. *)

From Stdlib Require Import Ascii.
From stdpp Require Import base numbers list strings.
From S2P Require Import Prelude GoLib Json.

Local Open Scope nat_scope.

(** ** Eight bytes in a word *)
Module Swar.
Local Open Scope Z_scope.

Definition u64 (z : Z) : Z := z mod 2 ^ 64.
Definition swarLo : Z := 0x0101010101010101.
Definition swarHi : Z := 0x8080808080808080.
Definition swarQuoteAmpMask : Z := 0xFBFBFBFBFBFBFBFB.
Definition swarQuoteAmpValue : Z := 0x2222222222222222.
Definition swarAngleMask : Z := 0xFDFDFDFDFDFDFDFD.
Definition swarAngleValue : Z := 0x3C3C3C3C3C3C3C3C.

(** [x &^ y] is Go's bit clear, [Z.ldiff]; [x & ^y] is the same word. *)
Definition swarHasZero (v : Z) : Z := Z.land (Z.ldiff (u64 (v - swarLo)) v) swarHi.
Definition swarHasByte (w c : Z) : Z := swarHasZero (Z.lxor w (u64 (c * swarLo))).
Definition swarHasMaskedByte (w mask value : Z) : Z := swarHasZero (Z.lxor (Z.land w mask) value).

(** The little-endian word of a list of bytes. *)
Fixpoint le_word (bytes : list Z) : Z :=
  match bytes with
  | [] => 0
  | b :: rest => b + 256 * le_word rest
  end.

Fixpoint first_bytes (n : nat) (s : string) : list Z :=
  match n, s with
  | S n', String a s' => Z.of_nat (byte_of a) :: first_bytes n' s'
  | _, _ => []
  end.

Definition load8LE (s : string) : Z := le_word (first_bytes 8 s).

Definition jsonRawChunkClean (w : Z) : bool :=
  if negb (Z.land w swarHi =? 0) then false
  else if negb (Z.land (Z.ldiff (u64 (w - swarLo * 0x20)) w) swarHi =? 0) then false
  else
    Z.lor (Z.lor (swarHasMaskedByte w swarQuoteAmpMask swarQuoteAmpValue)
                 (swarHasMaskedByte w swarAngleMask swarAngleValue))
          (swarHasByte w 92) =? 0.
End Swar.

(** ** The string encoder *)
Fixpoint can_append_fuel (fuel : nat) (value : string) : bool :=
  match fuel, value with
  | S fuel', String a rest =>
      if (byte_of a <? 128) && (8 <=? String.length value) && Swar.jsonRawChunkClean (Swar.load8LE value)
      then can_append_fuel fuel' (sdrop 8 value)
      else if byte_of a <? 128 then
        if (byte_of a <? 32) || is_byte 92 a || is_byte 34 a || is_byte 60 a || is_byte 62 a || is_byte 38 a
        then false
        else can_append_fuel fuel' rest
      else
        let '(r, size) := DecodeRune value in
        if (r =? RuneError)%Z && (size =? 1) then false
        else if (r =? 8232)%Z || (r =? 8233)%Z then false
        else can_append_fuel fuel' (sdrop size value)
  | _, _ => true
  end.
Definition canAppendJSONRawString (value : string) : bool := can_append_fuel (String.length value) value.

(** The scan of [appendJSONBytes]: [seg] is [value[start:i]], the clean bytes
    read and not yet copied, [rest] is [value[i:]]. [None] is the bail-out on an
    invalid sequence. *)
Fixpoint append_fuel (fuel : nat) (dst seg rest : string) : option string :=
  match fuel, rest with
  | S fuel', String a rest' =>
      if byte_of a <? 128 then
        if (32 <=? byte_of a) && negb (is_byte 92 a) && negb (is_byte 34 a) &&
           negb (is_byte 60 a) && negb (is_byte 62 a) && negb (is_byte 38 a)
        then append_fuel fuel' dst (seg +:+ String a EmptyString) rest'
        else
          let dst := dst +:+ seg in
          let dst := dst +:+
            match byte_of a with
            | 92 | 34 => bs (String a EmptyString)
            | 8 => bs "b"
            | 12 => bs "f"
            | 10 => bs "n"
            | 13 => bs "r"
            | 9 => bs "t"
            | n => bs ("u00" +:+ String (hex (n / 16)) (String (hex (n mod 16)) EmptyString))
            end in
          append_fuel fuel' dst EmptyString rest'
      else
        let '(r, size) := DecodeRune rest in
        if (r =? RuneError)%Z && (size =? 1) then None
        else if (r =? 8232)%Z || (r =? 8233)%Z then
          let dst := dst +:+ seg in
          let dst := dst +:+ (if (r =? 8232)%Z then bs "u2028" else bs "u2029") in
          append_fuel fuel' dst EmptyString (sdrop size rest)
        else append_fuel fuel' dst (seg +:+ stake size rest) (sdrop size rest)
  | _, _ => Some (dst +:+ seg)
  end.

Definition appendJSONBytes (dst value : string) : string :=
  if canAppendJSONRawString value then dst +:+ dquote +:+ value +:+ dquote
  else
    match append_fuel (String.length value) (dst +:+ dquote) EmptyString value with
    | Some dst' => dst' +:+ dquote
    | None => dst +:+ json_string value
    end.

(** ** The frames *)
Inductive Frame : Type :=
| MessageStart (msgID model : string) (inputTokens outputTokens : Z)
| BlockStartToolUse (index : Z) (id name : string)
| BlockStartText (index : Z)
| BlockStartThinking (index : Z) (signature : string)
| DeltaInputJSON (index : Z) (partialJSON : string)
| DeltaText (index : Z) (text : string)
| DeltaThinking (index : Z) (thinking : string)
| BlockStop (index : Z)
| MessageDelta (stopReason : string) (outputTokens : Z)
| MessageStop.

Definition event_of (f : Frame) : string :=
  match f with
  | MessageStart _ _ _ _ => "message_start"
  | BlockStartToolUse _ _ _ | BlockStartText _ | BlockStartThinking _ _ => "content_block_start"
  | DeltaInputJSON _ _ | DeltaText _ _ | DeltaThinking _ _ => "content_block_delta"
  | BlockStop _ => "content_block_stop"
  | MessageDelta _ _ => "message_delta"
  | MessageStop => "message_stop"
  end.

Definition appendSSEContentBlockStartToolUse (dst : string) (index : Z) (id name : string) : string :=
  let dst := dst +:+ js "{'type':'content_block_start','index':" in
  let dst := dst +:+ fmt_d index in
  let dst := dst +:+ js ",'content_block':{'type':'tool_use','id':" in
  let dst := appendJSONBytes dst id in
  let dst := dst +:+ js ",'name':" in
  let dst := appendJSONBytes dst name in
  dst +:+ js ",'input':{}}}".

Definition appendSSEMessageStart (dst msgID model : string) (inputTokens outputTokens : Z) : string :=
  let dst := dst +:+ js "{'type':'message_start','message':{'id':" in
  let dst := appendJSONBytes dst msgID in
  let dst := dst +:+ js ",'type':'message','role':'assistant','content':[],'model':" in
  let dst := appendJSONBytes dst model in
  let dst := dst +:+ js ",'usage':{'input_tokens':" in
  let dst := dst +:+ fmt_d inputTokens in
  let dst := dst +:+ js ",'output_tokens':" in
  let dst := dst +:+ fmt_d outputTokens in
  dst +:+ "}}}".

Definition appendSSEContentBlockStartText (dst : string) (index : Z) : string :=
  let dst := dst +:+ js "{'type':'content_block_start','index':" in
  let dst := dst +:+ fmt_d index in
  dst +:+ js ",'content_block':{'type':'text','text':''}}".

Definition appendSSEContentBlockStartThinking (dst : string) (index : Z) (signature : string) : string :=
  let dst := dst +:+ js "{'type':'content_block_start','index':" in
  let dst := dst +:+ fmt_d index in
  let dst := dst +:+ js ",'content_block':{'type':'thinking','thinking':'','signature':" in
  let dst := appendJSONBytes dst signature in
  dst +:+ "}}".

Definition appendSSEContentBlockDeltaInputJSON (dst : string) (index : Z) (partialJSON : string) : string :=
  let dst := dst +:+ js "{'type':'content_block_delta','index':" in
  let dst := dst +:+ fmt_d index in
  let dst := dst +:+ js ",'delta':{'type':'input_json_delta','partial_json':" in
  let dst := appendJSONBytes dst partialJSON in
  dst +:+ "}}".

Definition appendSSEContentBlockDeltaText (dst : string) (index : Z) (text : string) : string :=
  let dst := dst +:+ js "{'type':'content_block_delta','index':" in
  let dst := dst +:+ fmt_d index in
  let dst := dst +:+ js ",'delta':{'type':'text_delta','text':" in
  let dst := appendJSONBytes dst text in
  dst +:+ "}}".

Definition appendSSEContentBlockDeltaThinking (dst : string) (index : Z) (thinking : string) : string :=
  let dst := dst +:+ js "{'type':'content_block_delta','index':" in
  let dst := dst +:+ fmt_d index in
  let dst := dst +:+ js ",'delta':{'type':'thinking_delta','thinking':" in
  let dst := appendJSONBytes dst thinking in
  dst +:+ "}}".

Definition appendSSEContentBlockStop (dst : string) (index : Z) : string :=
  let dst := dst +:+ js "{'type':'content_block_stop','index':" in
  let dst := dst +:+ fmt_d index in
  dst +:+ "}".

Definition appendSSEMessageDelta (dst stopReason : string) (outputTokens : Z) : string :=
  let dst := dst +:+ js "{'type':'message_delta','delta':{'stop_reason':" in
  let dst := appendJSONBytes dst stopReason in
  let dst := dst +:+ js "},'usage':{'output_tokens':" in
  let dst := dst +:+ fmt_d outputTokens in
  dst +:+ "}}".

Definition sseMessageStopBytes : string := js "{'type':'message_stop'}".

Definition payload (f : Frame) : string :=
  match f with
  | MessageStart msgID model i o => appendSSEMessageStart EmptyString msgID model i o
  | BlockStartToolUse index id name => appendSSEContentBlockStartToolUse EmptyString index id name
  | BlockStartText index => appendSSEContentBlockStartText EmptyString index
  | BlockStartThinking index sig => appendSSEContentBlockStartThinking EmptyString index sig
  | DeltaInputJSON index p => appendSSEContentBlockDeltaInputJSON EmptyString index p
  | DeltaText index t => appendSSEContentBlockDeltaText EmptyString index t
  | DeltaThinking index t => appendSSEContentBlockDeltaThinking EmptyString index t
  | BlockStop index => appendSSEContentBlockStop EmptyString index
  | MessageDelta reason o => appendSSEMessageDelta EmptyString reason o
  | MessageStop => sseMessageStopBytes
  end.

(** The in-band failure reports. *)
Definition appendAnthropicError (dst code message : string) : string :=
  let dst := dst +:+ js "{'type':'error','error':{'type':" in
  let dst := appendJSONBytes dst code in
  let dst := dst +:+ js ",'message':" in
  let dst := appendJSONBytes dst message in
  dst +:+ "}}".

Definition appendOpenAIError (dst code message : string) : string :=
  let dst := dst +:+ js "{'error':{'message':" in
  let dst := appendJSONBytes dst message in
  let dst := dst +:+ js ",'type':" in
  let dst := appendJSONBytes dst code in
  let dst := dst +:+ js ",'code':" in
  let dst := appendJSONBytes dst code in
  dst +:+ "}}".

(** ** The wire *)
Definition newline : string := String (Ascii.ascii_of_nat 10) EmptyString.
Definition sseEventPrefix : string := "event: ".
Definition sseDataPrefix : string := "data: ".
Definition sseLineBreak : string := newline +:+ newline.
Definition sseDataJoin : string := newline +:+ "data: ".
Definition sseDoneLine : string := "data: [DONE]" +:+ sseLineBreak.
Definition sseKeepAlive : string := ": keep-alive" +:+ sseLineBreak.

(** Whole header lines for the events the relay frames itself. *)
Definition sseFramePrefix (event : string) : option string :=
  if bool_decide (event ∈ ["message_start"; "message_delta"; "message_stop";
                           "content_block_start"; "content_block_delta"; "content_block_stop"])
  then Some (sseEventPrefix +:+ event +:+ sseDataJoin) else None.

(** The calls of [w.Write] a frame makes, in order; the first that fails ends it. *)
Definition writeSSEFrameBytes (event data : string) : list string :=
  match sseFramePrefix event with
  | Some prefix => [prefix; data; sseLineBreak]
  | None => [sseEventPrefix; event; sseDataJoin; data; sseLineBreak]
  end.
Definition writeOpenAIFrame (data : string) : list string := [sseDataPrefix; data; sseLineBreak].

Definition on_wire (writes : list string) : string := foldr String.append EmptyString writes.
Definition wire_of (f : Frame) : string := on_wire (writeSSEFrameBytes (event_of f) (payload f)).

(** ** An event-stream client

    The text is cut at blank lines; a block [event: E] / [data: D] is the message
    (E, D), any other block (a comment) is none. *)
Fixpoint cut_block (s : string) : option (string * string) :=
  match s with
  | EmptyString => None
  | String a s' =>
      if is_byte 10 a && HasPrefix s' newline then Some (EmptyString, sdrop 1 s')
      else '(b, rest) ← cut_block s'; Some (String a b, rest)
  end.

Fixpoint cut_line (s : string) : string * string :=
  match s with
  | EmptyString => (EmptyString, EmptyString)
  | String a s' =>
      if is_byte 10 a then (EmptyString, s') else let '(l, rest) := cut_line s' in (String a l, rest)
  end.

Definition parse_block (b : string) : option (string * string) :=
  let '(l1, l2) := cut_line b in
  if HasPrefix l1 sseEventPrefix && HasPrefix l2 sseDataPrefix
  then Some (TrimPrefix l1 sseEventPrefix, TrimPrefix l2 sseDataPrefix) else None.

Fixpoint client_fuel (fuel : nat) (s : string) : list (string * string) :=
  match fuel with
  | O => []
  | S fuel' =>
      match cut_block s with
      | Some (b, rest) => option_list (parse_block b) ++ client_fuel fuel' rest
      | None => []
      end
  end.
Definition client (s : string) : list (string * string) := client_fuel (String.length s) s.

(** ** Lemmas: words *)
Module SwarFacts.
Import Swar.
Local Open Scope Z_scope.

Lemma Forall_iff_strong {A} (P Q : A -> Prop) l :
  Forall (fun x => P x <-> Q x) l -> Forall P l <-> Forall Q l.
Proof. induction 1 as [|x l Hx _ IH]; [done|]. by rewrite !Forall_cons, Hx, IH. Qed.

(** A test over every byte, by evaluation. *)
Lemma byte_check (P : Z -> bool) :
  forallb P (seqZ 0 256) = true -> forall b, 0 <= b < 256 -> P b = true.
Proof.
  intros H b Hb. rewrite forallb_forall in H. apply H. rewrite <- list_elem_of_In, elem_of_seqZ. lia.
Qed.

Definition byte_list (bytes : list Z) : Prop := Forall (fun b => 0 <= b < 256) bytes.
Definition ones (n : nat) : Z := le_word (replicate n 1).

Lemma le_word_repeat n c : le_word (replicate n c) = c * ones n.
Proof. unfold ones. induction n as [|n IH]; simpl; [lia|]. rewrite IH. lia. Qed.

Lemma le_word_range bytes : byte_list bytes -> 0 <= le_word bytes < 256 ^ Z.of_nat (length bytes).
Proof.
  induction 1 as [|b bytes Hb _ IH]; cbn [le_word length]; [lia|].
  rewrite Nat2Z.inj_succ, Z.pow_succ_r by lia. lia.
Qed.

(** A bitwise operation on words splits off the lowest byte. *)
Lemma split_testbit x y n :
  0 <= x < 256 -> 0 <= n -> Z.testbit (x + 256 * y) n = if n <? 8 then Z.testbit x n else Z.testbit y (n - 8).
Proof.
  intros Hx Hn. replace 256 with (2 ^ 8) in * by done. destruct (Z.ltb_spec n 8).
  - rewrite <- (Z.mod_pow2_bits_low _ 8) by lia.
    by rewrite Z.mul_comm, Z.mod_add, Z.mod_small by lia.
  - replace n with ((n - 8) + 8) at 1 by lia. rewrite <- Z.div_pow2_bits by lia.
    by rewrite Z.mul_comm, Z.div_add, Z.div_small by lia.
Qed.

Lemma byte_bits_range z :
  0 <= z -> (forall n, 8 <= n -> Z.testbit z n = false) -> z < 256.
Proof.
  intros Hz Hb. destruct (Z.eq_dec z 0) as [->|Hne]; [lia|].
  assert (Hlog : Z.log2 z < 8).
  { destruct (Z.lt_ge_cases (Z.log2 z) 8); [done|]. specialize (Hb _ H).
    rewrite Z.bit_log2 in Hb by lia. done. }
  apply Z.log2_lt_pow2 in Hlog; lia.
Qed.

Lemma byte_high x n : 0 <= x < 256 -> 8 <= n -> Z.testbit x n = false.
Proof.
  intros Hx Hn. destruct (Z.eq_dec x 0) as [->|Hne]; [apply Z.bits_0|].
  apply Z.bits_above_log2; [lia|]. enough (Z.log2 x < 8) by lia. apply Z.log2_lt_pow2; lia.
Qed.

Lemma bitwise_split (op : Z -> Z -> Z) (f : bool -> bool -> bool) :
  (forall a b n, Z.testbit (op a b) n = f (Z.testbit a n) (Z.testbit b n)) ->
  f false false = false -> (forall a b, 0 <= a -> 0 <= b -> 0 <= op a b) ->
  forall x1 y1 x2 y2, 0 <= x1 < 256 -> 0 <= x2 < 256 ->
  0 <= op x1 x2 < 256 /\ op (x1 + 256 * y1) (x2 + 256 * y2) = op x1 x2 + 256 * op y1 y2.
Proof.
  intros Hop Hf Hpos x1 y1 x2 y2 H1 H2.
  assert (Hr : 0 <= op x1 x2 < 256).
  { split; [apply Hpos; lia|]. apply byte_bits_range; [apply Hpos; lia|].
    intros n Hn. rewrite Hop, !byte_high by lia. done. }
  split; [done|]. apply Z.bits_inj'. intros n Hn.
  rewrite Hop, !split_testbit by (lia || done). by destruct (n <? 8); rewrite Hop.
Qed.

Lemma land_split x1 y1 x2 y2 : 0 <= x1 < 256 -> 0 <= x2 < 256 ->
  0 <= Z.land x1 x2 < 256 /\ Z.land (x1 + 256 * y1) (x2 + 256 * y2) = Z.land x1 x2 + 256 * Z.land y1 y2.
Proof.
  apply (bitwise_split _ andb); [apply Z.land_spec|done|]. intros a b Ha Hb. apply Z.land_nonneg. lia.
Qed.
Lemma ldiff_split x1 y1 x2 y2 : 0 <= x1 < 256 -> 0 <= x2 < 256 ->
  0 <= Z.ldiff x1 x2 < 256 /\ Z.ldiff (x1 + 256 * y1) (x2 + 256 * y2) = Z.ldiff x1 x2 + 256 * Z.ldiff y1 y2.
Proof.
  apply (bitwise_split _ (fun a b => a && negb b)%bool); [apply Z.ldiff_spec|done|].
  intros a b Ha Hb. apply Z.ldiff_nonneg. lia.
Qed.
Lemma lxor_split x1 y1 x2 y2 : 0 <= x1 < 256 -> 0 <= x2 < 256 ->
  0 <= Z.lxor x1 x2 < 256 /\ Z.lxor (x1 + 256 * y1) (x2 + 256 * y2) = Z.lxor x1 x2 + 256 * Z.lxor y1 y2.
Proof.
  apply (bitwise_split _ xorb); [apply Z.lxor_spec|done|]. intros a b Ha Hb. apply Z.lxor_nonneg. lia.
Qed.

(** Subtracting a threshold from every byte: the borrow that bit 7 shows appears
    exactly at the lowest byte below the threshold. *)
Definition below_sound (t : Z) : Prop := forall b, 0 <= b < 256 ->
  (t <= b -> Z.land (Z.ldiff (b - t) b) 128 = 0) /\
  (b < t -> Z.land (Z.ldiff (b - t + 256) b) 128 <> 0).

Lemma below_check t :
  forallb (fun b => if t <=? b then Z.land (Z.ldiff (b - t) b) 128 =? 0
                    else negb (Z.land (Z.ldiff (b - t + 256) b) 128 =? 0)) (seqZ 0 256) = true ->
  below_sound t.
Proof.
  intros H b Hb. pose proof (byte_check _ H b Hb) as Hc. clear H. rename Hc into H. simpl in H.
  destruct (Z.leb_spec t b); [apply Z.eqb_eq in H|apply negb_true_iff, Z.eqb_neq in H]; split; intros; (done || lia).
Qed.

Lemma below_one : below_sound 1.
Proof. apply below_check. vm_compute. reflexivity. Qed.
Lemma below_space : below_sound 32.
Proof. apply below_check. vm_compute. reflexivity. Qed.

Definition any_below (t : Z) (n : nat) (w : Z) : Z :=
  Z.land (Z.ldiff ((w - t * ones n) mod 256 ^ Z.of_nat n) w) (128 * ones n).

Lemma sub_split n b t y z :
  0 <= b - t + z < 256 ->
  (b + 256 * y - t * ones (S n)) mod 256 ^ Z.of_nat (S n) =
  (b - t + z) + 256 * ((y - t * ones n - z / 256) mod 256 ^ Z.of_nat n) \/ z mod 256 <> 0.
Proof.
  intros Hr. destruct (Z.eq_dec (z mod 256) 0) as [Hz|]; [left|by right].
  unfold ones. simpl replicate. cbn [le_word]. fold (ones n).
  rewrite Nat2Z.inj_succ, Z.pow_succ_r by lia.
  pose proof (Z.div_mod z 256 ltac:(lia)). set (q := z / 256) in *.
  replace (b + 256 * y - t * (1 + 256 * ones n)) with ((b - t + z) + (y - t * ones n - q) * 256) by lia.
  pose proof (Z.pow_pos_nonneg 256 (Z.of_nat n) ltac:(lia) ltac:(lia)).
  set (m := y - t * ones n - q). rewrite (Z.add_comm (b - t + z)).
  by rewrite Z.rem_mul_r, mod_digit, div_digit by lia.
Qed.

Lemma any_below_spec t bytes :
  below_sound t -> 0 <= t <= 256 -> byte_list bytes ->
  any_below t (length bytes) (le_word bytes) = 0 <-> Forall (fun b => t <= b) bytes.
Proof.
  intros Ht Hrange Hb. induction Hb as [|b bytes Hb Hbs IH].
  { split; [constructor|]. intros _. apply Z.land_0_r. }
  destruct (Ht b Hb) as [Hge Hlt]. unfold any_below in *. cbn [length le_word].
  assert (Hones : 128 * ones (S (length bytes)) = 128 + 256 * (128 * ones (length bytes))).
  { unfold ones. simpl replicate. cbn [le_word]. lia. }
  rewrite Hones, Forall_cons. destruct (Z.le_gt_cases t b) as [Hle|Hgt].
  - destruct (sub_split (length bytes) b t (le_word bytes) 0) as [->|]; [lia| |done].
    rewrite Z.add_0_r, Z.div_0_l, Z.sub_0_r by lia.
    destruct (ldiff_split (b - t) ((le_word bytes - t * ones (length bytes)) mod 256 ^ Z.of_nat (length bytes))
      b (le_word bytes)) as [Hr ->]; [lia|lia|].
    destruct (land_split _ (Z.ldiff ((le_word bytes - t * ones (length bytes)) mod
       256 ^ Z.of_nat (length bytes)) (le_word bytes)) 128 (128 * ones (length bytes)) Hr ltac:(lia)) as [_ ->].
    rewrite (Hge Hle). rewrite <- IH. lia.
  - destruct (sub_split (length bytes) b t (le_word bytes) 256) as [->|]; [lia| |done].
    set (m := (le_word bytes - t * ones (length bytes) - 256 / 256) mod 256 ^ Z.of_nat (length bytes)).
    destruct (ldiff_split (b - t + 256) m b (le_word bytes)) as [Hr ->]; [lia|lia|].
    destruct (land_split _ (Z.ldiff m (le_word bytes)) 128 (128 * ones (length bytes)) Hr ltac:(lia)) as [Hr2 ->].
    specialize (Hlt Hgt). split; [|lia]. intros H0. exfalso.
    assert (0 <= Z.land (Z.ldiff m (le_word bytes)) (128 * ones (length bytes))); [|lia].
    apply Z.land_nonneg. left. apply Z.ldiff_nonneg. left. apply Z.mod_pos_bound.
    apply Z.pow_pos_nonneg; lia.
Qed.

(** The words of the predicates, byte by byte. *)
Lemma le_word_map2 (op : Z -> Z -> Z) bytes c :
  op 0 0 = 0 ->
  (forall x1 y1 x2 y2, 0 <= x1 < 256 -> 0 <= x2 < 256 ->
     0 <= op x1 x2 < 256 /\ op (x1 + 256 * y1) (x2 + 256 * y2) = op x1 x2 + 256 * op y1 y2) ->
  0 <= c < 256 -> byte_list bytes ->
  op (le_word bytes) (c * ones (length bytes)) = le_word (map (fun b => op b c) bytes) /\
  byte_list (map (fun b => op b c) bytes).
Proof.
  intros H0 Hsplit Hc. induction 1 as [|b bytes Hb Hbs IH]; [split; [cbn; by rewrite Z.mul_0_r|constructor]|].
  destruct IH as [IH1 IH2]. cbn [length map le_word]. rewrite <- IH1.
  replace (c * ones (S (length bytes))) with (c + 256 * (c * ones (length bytes)))
    by (unfold ones; simpl replicate; cbn [le_word]; lia).
  destruct (Hsplit b (le_word bytes) c (c * ones (length bytes)) Hb Hc) as [Hr ->].
  split; [done|]. by constructor.
Qed.

Section Eight.
  Context (bytes : list Z).
  Hypothesis Hlen : length bytes = 8%nat.
  Hypothesis Hbytes : byte_list bytes.

Lemma swarHasZero_spec : swarHasZero (le_word bytes) = 0 <-> Forall (fun b => b <> 0) bytes.
Proof using Hlen Hbytes.
  pose proof (any_below_spec 1 bytes below_one ltac:(lia) Hbytes) as H. rewrite Hlen in H.
  unfold any_below, swarHasZero, u64 in *. rewrite Z.mul_1_l in H.
  change (2 ^ 64) with (256 ^ Z.of_nat 8). change swarLo with (ones 8). change swarHi with (128 * ones 8).
  rewrite H. apply Forall_iff_strong. eapply Forall_impl; [exact Hbytes|]. simpl. lia.
Qed.

Lemma less_spec :
  Z.land (Z.ldiff (u64 (le_word bytes - swarLo * 0x20)) (le_word bytes)) swarHi = 0 <->
  Forall (fun b => 32 <= b) bytes.
Proof using Hlen Hbytes.
  pose proof (any_below_spec 32 bytes below_space ltac:(lia) Hbytes) as H. rewrite Hlen in H.
  unfold any_below, u64 in *. change (swarLo * 0x20) with (32 * ones 8).
  change (2 ^ 64) with (256 ^ Z.of_nat 8). change swarHi with (128 * ones 8). exact H.
Qed.
End Eight.

Section EightMore.
  Context (bytes : list Z).
  Hypothesis Hlen : length bytes = 8%nat.
  Hypothesis Hbytes : byte_list bytes.

Lemma high_spec : Z.land (le_word bytes) swarHi = 0 <-> Forall (fun b => b < 128) bytes.
Proof using Hlen Hbytes.
  change swarHi with (128 * ones 8). rewrite <- Hlen.
  destruct (le_word_map2 Z.land bytes 128 eq_refl land_split ltac:(lia) Hbytes) as [-> Hr].
  transitivity (Forall (fun b => b = 0) (map (fun b => Z.land b 128) bytes)).
  - clear -Hr. induction Hr as [|b l Hb Hl IH]; [done|]. cbn [le_word]. rewrite Forall_cons, <- IH.
    pose proof (le_word_range l Hl). lia.
  - rewrite Forall_map. apply Forall_iff_strong. eapply Forall_impl; [exact Hbytes|]. intros b Hb.
    simpl in *. pose proof (byte_check (fun b => Bool.eqb (Z.land b 128 =? 0) (b <? 128))
      ltac:(vm_compute; reflexivity) b Hb) as H.
    apply eqb_prop in H. rewrite <- Z.eqb_eq, H. apply Z.ltb_lt.
Qed.

Lemma masked_spec m v :
  0 <= m < 256 -> 0 <= v < 256 ->
  swarHasMaskedByte (le_word bytes) (m * ones 8) (v * ones 8) = 0 <->
  Forall (fun b => Z.land b m <> v) bytes.
Proof using Hlen Hbytes.
  intros Hm Hv. unfold swarHasMaskedByte. rewrite <- Hlen.
  destruct (le_word_map2 Z.land bytes m eq_refl land_split Hm Hbytes) as [-> Hr].
  rewrite <- (length_map (fun b => Z.land b m) bytes).
  destruct (le_word_map2 Z.lxor _ v eq_refl lxor_split Hv Hr) as [-> Hr2].
  rewrite swarHasZero_spec by (rewrite ?length_map; done). rewrite !Forall_map.
  apply Forall_iff_strong. apply Forall_forall. intros b _. simpl. by rewrite Z.lxor_eq_0_iff.
Qed.

Lemma byte_spec c :
  0 <= c < 256 -> swarHasByte (le_word bytes) c = 0 <-> Forall (fun b => b <> c) bytes.
Proof using Hlen Hbytes.
  intros Hc. unfold swarHasByte, u64. rewrite Z.mod_small by (unfold swarLo; lia).
  change swarLo with (ones 8). rewrite <- Hlen.
  destruct (le_word_map2 Z.lxor bytes c eq_refl lxor_split Hc Hbytes) as [-> Hr].
  rewrite swarHasZero_spec by (rewrite ?length_map; done). rewrite Forall_map.
  apply Forall_iff_strong. apply Forall_forall. intros b _. simpl. by rewrite Z.lxor_eq_0_iff.
Qed.
End EightMore.
End SwarFacts.

(** ** The wide test agrees with the byte test *)
Definition clean_byte (b : Z) : Prop :=
  (32 <= b < 128 /\ b <> 92 /\ b <> 34 /\ b <> 60 /\ b <> 62 /\ b <> 38)%Z.

Lemma pair_masks b : (0 <= b < 256)%Z ->
  ((Z.land b 0xFB <> 0x22 <-> b <> 34 /\ b <> 38) /\ (Z.land b 0xFD <> 0x3C <-> b <> 60 /\ b <> 62))%Z.
Proof.
  intros Hb.
  pose proof (SwarFacts.byte_check (fun b =>
    Bool.eqb (Z.land b 0xFB =? 0x22) ((b =? 34) || (b =? 38)) &&
    Bool.eqb (Z.land b 0xFD =? 0x3C) ((b =? 60) || (b =? 62)))%Z ltac:(vm_compute; reflexivity) b Hb) as H.
  simpl in H. apply andb_true_iff in H as [H1%eqb_prop H2%eqb_prop].
  rewrite <- !Z.eqb_neq, H1, H2, !orb_false_iff. done.
Qed.

(** The test of a whole word is the test of its eight bytes. *)
Theorem chunk_clean_spec (bytes : list Z) :
  length bytes = 8 -> Forall (fun b => 0 <= b < 256)%Z bytes ->
  Swar.jsonRawChunkClean (Swar.le_word bytes) = true <-> Forall clean_byte bytes.
Proof.
  intros Hlen Hb. unfold Swar.jsonRawChunkClean.
  assert (Hclean : Forall clean_byte bytes <->
    Forall (fun b => b < 128)%Z bytes /\ Forall (fun b => 32 <= b)%Z bytes /\
    (Forall (fun b => Z.land b 0xFB <> 0x22)%Z bytes /\ Forall (fun b => Z.land b 0xFD <> 0x3C)%Z bytes) /\
    Forall (fun b => b <> 92)%Z bytes).
  { rewrite <- !Forall_and. apply SwarFacts.Forall_iff_strong. eapply Forall_impl; [exact Hb|].
    intros b Hr. simpl in Hr. destruct (pair_masks b Hr) as [-> ->]. unfold clean_byte. lia. }
  rewrite Hclean, <- (SwarFacts.high_spec bytes Hlen Hb), <- (SwarFacts.less_spec bytes Hlen Hb),
    <- (SwarFacts.masked_spec bytes Hlen Hb 0xFB 0x22), <- (SwarFacts.masked_spec bytes Hlen Hb 0xFD 0x3C),
    <- (SwarFacts.byte_spec bytes Hlen Hb 92) by lia.
  change (0xFB * SwarFacts.ones 8)%Z with Swar.swarQuoteAmpMask.
  change (0x22 * SwarFacts.ones 8)%Z with Swar.swarQuoteAmpValue.
  change (0xFD * SwarFacts.ones 8)%Z with Swar.swarAngleMask.
  change (0x3C * SwarFacts.ones 8)%Z with Swar.swarAngleValue.
  set (x := Z.land (Swar.le_word bytes) Swar.swarHi).
  set (y := Z.land (Z.ldiff (Swar.u64 (Swar.le_word bytes - Swar.swarLo * 0x20)) (Swar.le_word bytes)) Swar.swarHi).
  destruct (Z.eqb_spec x 0), (Z.eqb_spec y 0); simpl; rewrite ?Z.eqb_eq, ?Z.lor_eq_0_iff; intuition done.
Qed.

Definition clean_ascii (a : Ascii.ascii) : bool := (byte_of a <? 128) && html_safe a.

Lemma clean_byte_ascii a : clean_byte (Z.of_nat (byte_of a)) <-> clean_ascii a = true.
Proof.
  unfold clean_byte, clean_ascii, html_safe, is_byte.
  rewrite !andb_true_iff, !negb_true_iff, Nat.ltb_lt, Nat.leb_le, !Nat.eqb_neq. lia.
Qed.

Lemma first_bytes_spec n s : n <= String.length s ->
  length (Swar.first_bytes n s) = n /\ Forall (fun b => 0 <= b < 256)%Z (Swar.first_bytes n s) /\
  (Forall clean_byte (Swar.first_bytes n s) <-> str_all clean_ascii (stake n s) = true).
Proof.
  revert s; induction n as [|n IH]; intros [|a s] Hn; simpl in *; try done; try lia.
  destruct (IH s) as (Hl & Hr & Hc); [lia|]. pose proof (byte_of_lt a).
  repeat split; [lia|by constructor; [lia|]|..]; rewrite Forall_cons, andb_true_iff, clean_byte_ascii; naive_solver.
Qed.

Lemma load8_clean s : 8 <= String.length s ->
  Swar.jsonRawChunkClean (Swar.load8LE s) = str_all clean_ascii (stake 8 s).
Proof.
  intros Hn. destruct (first_bytes_spec 8 s Hn) as (Hl & Hr & Hc).
  apply eq_true_iff_eq. rewrite <- Hc. by apply chunk_clean_spec.
Qed.

(** ** The fast paths agree with the encoder of encoding/json *)
Lemma sapp_cancel (a b c : string) : a +:+ b = a +:+ c <-> b = c.
Proof. split; [|by intros ->]. induction a as [|x a IH]; simpl; [done|]. by intros [= H%IH]. Qed.

Lemma encode_cons a t :
  encode (String a t) =
  (encode_step (String a t)).1 +:+ encode (sdrop (encode_step (String a t)).2 (String a t)).
Proof. apply scan_step, encode_progress. Qed.

Lemma encode_ascii a t : byte_of a < 128 ->
  encode (String a t) = (if html_safe a then String a EmptyString else escape_byte a) +:+ encode t.
Proof. intros H. rewrite encode_cons. unfold encode_step. by rewrite (proj2 (Nat.ltb_lt _ _)). Qed.

Lemma encode_wide a t : 128 <= byte_of a ->
  encode (String a t) =
  (if invalid_rune (String a t) then bs "ufffd"
   else if ((DecodeRune (String a t)).1 =? 8232)%Z then bs "u2028"
   else if ((DecodeRune (String a t)).1 =? 8233)%Z then bs "u2029"
   else stake (DecodeRune (String a t)).2 (String a t)) +:+
  encode (sdrop (DecodeRune (String a t)).2 (String a t)).
Proof.
  intros H. rewrite encode_cons. unfold encode_step, invalid_rune.
  rewrite (proj2 (Nat.ltb_ge _ _)) by done. by destruct (DecodeRune (String a t)).
Qed.

Lemma encode_clean p r : str_all clean_ascii p = true -> encode (p +:+ r) = p +:+ encode r.
Proof.
  induction p as [|a p IH]; simpl; [done|]. intros [Ha Hp]%andb_true_iff.
  unfold clean_ascii in Ha. apply andb_true_iff in Ha as [Ha%Nat.ltb_lt Hs].
  rewrite encode_ascii, Hs, IH by done. done.
Qed.

Lemma escape_byte_length a : 2 <= String.length (escape_byte a).
Proof. destruct a as [[] [] [] [] [] [] [] []]; apply Nat.leb_le; vm_compute; reflexivity. Qed.

Lemma encode_chunk_length a t :
  String.length (stake (encode_step (String a t)).2 (String a t)) <= String.length (encode_step (String a t)).1.
Proof.
  unfold encode_step. destruct (byte_of a <? 128) eqn:Ha.
  { simpl. destruct (html_safe a); simpl; [lia|]. pose proof (escape_byte_length a). lia. }
  destruct (DecodeRune (String a t)) as [r n] eqn:Hd. apply DecodeRune_view in Hd.
  destruct ((r =? RuneError)%Z && (n =? 1)) eqn:Hb.
  { apply andb_true_iff in Hb as [_ ->%Nat.eqb_eq]. simpl. lia. }
  assert (n <= 4) by (destruct Hd; lia).
  assert (String.length (stake n (String a t)) <= 4).
  { destruct Hd; simpl; lia. }
  cbn [fst snd]. destruct (r =? 8232)%Z; [simpl in *; lia|]. destruct (r =? 8233)%Z; simpl in *; lia.
Qed.

Lemma encode_longer s : String.length s <= String.length (encode s).
Proof.
  apply (scan_ind encode_step (fun s => String.length s <= String.length (encode s)) encode_progress);
    [done|]. intros a t IH. pose proof (encode_chunk_length a t) as Hc.
  rewrite encode_cons, sapp_length.
  rewrite <- (stake_sdrop (encode_step (String a t)).2 (String a t)) at 1. rewrite sapp_length. lia.
Qed.

Lemma stake_length_le n s : String.length (stake n s) <= n.
Proof. revert s; induction n as [|n IH]; intros [|a s]; simpl; [lia..|]. specialize (IH s). lia. Qed.

(** An escape makes the text longer, so a text that is left alone has none. *)
Lemma encode_escaped a t chunk n :
  encode (String a t) = chunk +:+ encode (sdrop n (String a t)) ->
  n < String.length chunk -> encode (String a t) <> String a t.
Proof.
  intros He Hn Heq. assert (Hl : String.length (encode (String a t)) = String.length (String a t)) by congruence.
  rewrite He, sapp_length in Hl. pose proof (encode_longer (sdrop n (String a t))).
  pose proof (stake_length_le n (String a t)).
  assert (String.length (String a t) =
    String.length (stake n (String a t)) + String.length (sdrop n (String a t)))
    by (rewrite <- sapp_length, stake_sdrop; done). lia.
Qed.

Lemma can_append_spec n value :
  String.length value <= n -> can_append_fuel n value = true <-> encode value = value.
Proof.
  revert value; induction n as [|n IH]; intros [|a rest] Hn; simpl String.length in Hn; try done; [lia|].
  cbn [can_append_fuel].
  destruct ((byte_of a <? 128) && (8 <=? String.length (String a rest)) &&
            Swar.jsonRawChunkClean (Swar.load8LE (String a rest))) eqn:Hwide.
  { apply andb_true_iff in Hwide as [[_ H8%Nat.leb_le]%andb_true_iff Hc]. rewrite load8_clean in Hc by done.
    rewrite IH by (rewrite sdrop_length; simpl in *; lia).
    pose proof (stake_sdrop 8 (String a rest)) as Hsplit.
    assert (He : encode (String a rest) = stake 8 (String a rest) +:+ encode (sdrop 8 (String a rest)))
      by (rewrite <- Hsplit at 1; by apply encode_clean).
    by rewrite He, <- (sapp_cancel (stake 8 (String a rest))), Hsplit. }
  clear Hwide. destruct (byte_of a <? 128) eqn:Ha; byte_facts.
  - rewrite encode_ascii by done.
    assert (Hs : html_safe a = negb ((byte_of a <? 32) || is_byte 92 a || is_byte 34 a || is_byte 60 a
                                     || is_byte 62 a || is_byte 38 a)).
    { unfold html_safe. rewrite !negb_orb, Nat.ltb_antisym, negb_involutive. done. }
    destruct (html_safe a) eqn:Hsafe; symmetry in Hs.
    + apply negb_true_iff in Hs as ->. rewrite IH by lia.
      by rewrite <- (sapp_cancel (String a EmptyString) (encode rest) rest).
    + apply negb_false_iff in Hs as ->. split; [done|]. intros He. exfalso.
      assert (He' : encode (String a rest) = escape_byte a +:+ encode rest) by (rewrite encode_ascii, Hsafe by done; done).
      apply (encode_escaped a rest (escape_byte a) 1); [done| |by rewrite He'].
      pose proof (escape_byte_length a). lia.
  - pose proof (encode_wide a rest ltac:(lia)) as He. unfold invalid_rune in He.
    pose proof (DecodeRune_progress a rest) as Hp.
    destruct (DecodeRune (String a rest)) as [r size] eqn:Hd. cbn [fst snd] in *.
    apply DecodeRune_view in Hd.
    destruct ((r =? RuneError)%Z && (size =? 1)) eqn:Hbad.
    { split; [done|]. intros H. exfalso. revert H. eapply encode_escaped; [exact He|].
      apply andb_true_iff in Hbad as [_ ->%Nat.eqb_eq]. simpl. lia. }
    assert (size <= 4) by (destruct Hd; lia).
    destruct (r =? 8232)%Z eqn:H1; simpl orb.
    { split; [done|]. intros H'. exfalso. revert H'. eapply encode_escaped; [exact He|]. simpl. lia. }
    destruct (r =? 8233)%Z eqn:H2.
    { split; [done|]. intros H'. exfalso. revert H'. eapply encode_escaped; [exact He|]. simpl. lia. }
    rewrite IH by (rewrite sdrop_length; simpl; lia). rewrite He.
    by rewrite <- (sapp_cancel (stake size (String a rest))), stake_sdrop.
Qed.

(** The quick test says exactly that the encoder would leave the text alone. *)
Theorem can_append_iff_verbatim (value : string) :
  canAppendJSONRawString value = true <-> encode value = value.
Proof. by apply can_append_spec. Qed.

Lemma append_fuel_spec n dst seg rest :
  String.length rest <= n ->
  append_fuel n dst seg rest =
  if valid_fuel n rest then Some (dst +:+ seg +:+ encode rest) else None.
Proof.
  revert dst seg rest; induction n as [|n IH]; intros dst seg [|a rest] Hn; simpl String.length in Hn; try lia;
    try (cbn; by rewrite sapp_nil_r).
  cbn [append_fuel valid_fuel].
  destruct (byte_of a <? 128) eqn:Ha; byte_facts.
  - rewrite encode_ascii by done.
    assert (Hd : invalid_rune (String a rest) = false /\ sdrop (DecodeRune (String a rest)).2 (String a rest) = rest).
    { unfold invalid_rune. rewrite DecodeRune_ascii by done. split; [|done].
      apply andb_false_iff. left. apply Z.eqb_neq. unfold RuneError. lia. }
    destruct Hd as [-> ->]. cbn [negb andb]. fold (html_safe a).
    destruct (html_safe a) eqn:Hs; rewrite IH by lia; destruct (valid_fuel n rest); try done.
    + by rewrite !sapp_assoc.
    + fold (escape_byte a). by rewrite !sapp_assoc.
  - rewrite encode_wide by lia. unfold invalid_rune. pose proof (DecodeRune_progress a rest) as Hp.
    destruct (DecodeRune (String a rest)) as [r size] eqn:Hd. cbn [fst snd] in *.
    destruct ((r =? RuneError)%Z && (size =? 1)); [done|]. cbn [negb andb].
    destruct (r =? 8232)%Z; [|destruct (r =? 8233)%Z]; cbn [orb];
      (rewrite IH by (rewrite sdrop_length; simpl; lia);
       destruct (valid_fuel n _); [by rewrite !sapp_assoc|done]).
Qed.

(** C35: the two-pass encoder is the encoder of encoding/json, on every text: clean,
    with escapes, and with invalid UTF-8. *)
Theorem appendJSONBytes_spec (dst value : string) :
  appendJSONBytes dst value = dst +:+ json_string value.
Proof.
  unfold appendJSONBytes, json_string. destruct (canAppendJSONRawString value) eqn:Hraw.
  - apply can_append_iff_verbatim in Hraw. by rewrite Hraw.
  - rewrite append_fuel_spec by done. destruct (valid_fuel _ value); [|done].
    by rewrite !sapp_assoc.
Qed.

(** ** No payload holds a control byte *)
Definition graphic (a : Ascii.ascii) : bool := 32 <=? byte_of a.

Lemma escape_byte_graphic a : str_all graphic (escape_byte a) = true.
Proof. destruct a as [[] [] [] [] [] [] [] []]; vm_compute; reflexivity. Qed.

Lemma encode_graphic s : str_all graphic (encode s) = true.
Proof.
  apply (scan_ind encode_step (fun s => str_all graphic (encode s) = true) encode_progress); [done|].
  intros a t IH. rewrite encode_cons, str_all_app, IH, andb_true_r. clear IH. unfold encode_step.
  destruct (byte_of a <? 128) eqn:Ha; byte_facts.
  - cbn [fst]. destruct (html_safe a) eqn:Hs; [|apply escape_byte_graphic].
    unfold html_safe in Hs. byte_facts. simpl. unfold graphic. by rewrite (proj2 (Nat.leb_le _ _)).
  - destruct (DecodeRune (String a t)) as [r n] eqn:Hd. apply DecodeRune_view in Hd. cbn [fst].
    destruct ((r =? RuneError)%Z && (n =? 1)); [done|].
    destruct (r =? 8232)%Z; [done|]. destruct (r =? 8233)%Z; [done|].
    assert (Hg : forall x, 128 <= byte_of x -> graphic x = true) by (intros x Hx; apply Nat.leb_le; lia).
    inversion Hd; subst; byte_facts; simpl; try lia.
    + by rewrite Hg.
    + rewrite !Hg by lia. done.
    + destruct (accept3_facts _ _ ltac:(eassumption)) as (? & ? & _). rewrite !Hg by lia. done.
    + destruct (accept4_facts _ _ ltac:(eassumption)) as (? & ? & _). rewrite !Hg by lia. done.
Qed.

Lemma appendJSONBytes_graphic dst v :
  str_all graphic (appendJSONBytes dst v) = str_all graphic dst.
Proof.
  rewrite appendJSONBytes_spec. unfold json_string. rewrite !str_all_app, encode_graphic.
  by rewrite andb_true_r.
Qed.

Lemma fmt_d_graphic z : str_all graphic (fmt_d z) = true.
Proof.
  apply (str_all_impl digit_or_sign); [|apply fmt_d_digits].
  intros c Hc. unfold digit_or_sign in Hc. unfold graphic. apply Nat.leb_le.
  apply orb_true_iff in Hc. unfold is_byte in Hc. rewrite andb_true_iff, !Nat.leb_le, Nat.eqb_eq in Hc. lia.
Qed.

Lemma payload_graphic f : str_all graphic (payload f) = true.
Proof.
  destruct f; unfold payload, appendSSEMessageStart, appendSSEContentBlockStartToolUse,
    appendSSEContentBlockStartText, appendSSEContentBlockStartThinking, appendSSEContentBlockDeltaInputJSON,
    appendSSEContentBlockDeltaText, appendSSEContentBlockDeltaThinking, appendSSEContentBlockStop,
    appendSSEMessageDelta;
    repeat rewrite ?str_all_app, ?appendJSONBytes_graphic, ?fmt_d_graphic; vm_compute; reflexivity.
Qed.

(** ** The client reads the frames that were written *)

(** What the relay puts on an Anthropic event stream. *)
Inductive Item : Type :=
| ItemFrame (f : Frame)
| ItemError (code message : string)
| ItemKeepAlive.

Definition item_writes (i : Item) : list string :=
  match i with
  | ItemFrame f => writeSSEFrameBytes (event_of f) (payload f)
  | ItemError code message => writeSSEFrameBytes "error" (appendAnthropicError EmptyString code message)
  | ItemKeepAlive => [sseKeepAlive]
  end.

Definition item_message (i : Item) : option (string * string) :=
  match i with
  | ItemFrame f => Some (event_of f, payload f)
  | ItemError code message => Some ("error", appendAnthropicError EmptyString code message)
  | ItemKeepAlive => None
  end.

Definition stream_bytes (items : list Item) : string :=
  foldr (fun i acc => on_wire (item_writes i) +:+ acc) EmptyString items.

Lemma frame_bytes event data :
  on_wire (writeSSEFrameBytes event data) =
  (sseEventPrefix +:+ event) +:+ newline +:+ (sseDataPrefix +:+ data) +:+ sseLineBreak.
Proof.
  unfold writeSSEFrameBytes, sseFramePrefix. case_bool_decide; cbn [on_wire foldr];
    unfold sseDataJoin; by rewrite !sapp_assoc.
Qed.

Lemma graphic_not_newline a : graphic a = true -> is_byte 10 a = false.
Proof. unfold graphic, is_byte. rewrite Nat.leb_le, Nat.eqb_neq. lia. Qed.

Lemma cut_block_graphic g s : str_all graphic g = true ->
  cut_block (g +:+ s) = ('(b, rest) ← cut_block s; Some (g +:+ b, rest)).
Proof.
  induction g as [|a g IH]; simpl; [by destruct (cut_block s) as [[]|]|].
  intros [Ha Hg]%andb_true_iff. rewrite (graphic_not_newline a Ha), IH by done. simpl.
  by destruct (cut_block s) as [[]|].
Qed.

Lemma cut_line_graphic g s : str_all graphic g = true ->
  cut_line (g +:+ newline +:+ s) = (g, s).
Proof.
  induction g as [|a g IH]; cbn [str_all String.append cut_line]; [done|]. intros [Ha Hg]%andb_true_iff.
  rewrite (graphic_not_newline a Ha). by rewrite IH.
Qed.

Lemma cut_line_all g : str_all graphic g = true -> cut_line g = (g, EmptyString).
Proof.
  induction g as [|a g IH]; simpl; [done|]. intros [Ha Hg]%andb_true_iff.
  rewrite (graphic_not_newline a Ha). by rewrite IH.
Qed.

Lemma cut_block_cons a s :
  cut_block (String a s) =
  if is_byte 10 a && HasPrefix s newline then Some (EmptyString, sdrop 1 s)
  else '(b, rest) ← cut_block s; Some (String a b, rest).
Proof. done. Qed.

Lemma cut_block_newline x t : is_byte 10 x = false ->
  cut_block (newline +:+ String x t) =
  ('(b, rest) ← cut_block (String x t); Some (newline +:+ b, rest)).
Proof.
  intros Hx. change (newline +:+ String x t) with (String (Ascii.ascii_of_nat 10) (String x t)).
  rewrite cut_block_cons. unfold newline at 1. cbn [HasPrefix].
  destruct (Ascii.eqb_spec (Ascii.ascii_of_nat 10) x) as [<-|_]; [done|]. cbn [andb].
  by rewrite andb_false_r.
Qed.

Lemma cut_block_frame l1 x l2 rest :
  str_all graphic l1 = true -> str_all graphic (String x l2) = true ->
  cut_block (l1 +:+ newline +:+ String x l2 +:+ sseLineBreak +:+ rest) =
  Some (l1 +:+ newline +:+ String x l2, rest).
Proof.
  intros H1 H2. rewrite cut_block_graphic by done.
  assert (Hx : is_byte 10 x = false).
  { apply graphic_not_newline. simpl in H2. by apply andb_true_iff in H2 as [? _]. }
  change (String x l2 +:+ sseLineBreak +:+ rest) with (String x (l2 +:+ sseLineBreak +:+ rest)).
  rewrite cut_block_newline by done.
  change (String x (l2 +:+ sseLineBreak +:+ rest)) with (String x l2 +:+ sseLineBreak +:+ rest).
  rewrite cut_block_graphic by done.
  change (cut_block (sseLineBreak +:+ rest)) with (Some (EmptyString, rest)). cbn [mbind option_bind].
  by rewrite sapp_nil_r.
Qed.

Lemma client_step n event data rest :
  str_all graphic event = true -> str_all graphic data = true ->
  client_fuel (S n) (on_wire (writeSSEFrameBytes event data) +:+ rest) = (event, data) :: client_fuel n rest.
Proof.
  intros He Hd. rewrite frame_bytes, !sapp_assoc. cbn [client_fuel].
  assert (H1 : str_all graphic (sseEventPrefix +:+ event) = true) by (by rewrite str_all_app, He).
  assert (H2 : str_all graphic (sseDataPrefix +:+ data) = true) by (by rewrite str_all_app, Hd).
  rewrite <- (sapp_assoc sseEventPrefix event), <- (sapp_assoc sseDataPrefix data).
  set (l1 := sseEventPrefix +:+ event) in *.
  change (sseDataPrefix +:+ data) with (String "d"%char ("ata: " +:+ data)) in *.
  rewrite cut_block_frame by done. unfold parse_block. rewrite cut_line_graphic by done.
  unfold l1. rewrite (proj2 (HasPrefix_spec _ _)) by eauto.
  change (String "d"%char ("ata: " +:+ data)) with (sseDataPrefix +:+ data).
  rewrite (proj2 (HasPrefix_spec _ _)) by eauto. cbn [andb option_list app].
  by rewrite !TrimPrefix_app.
Qed.

Lemma item_graphic f : str_all graphic (event_of f) = true.
Proof. by destruct f. Qed.

Lemma error_graphic code message : str_all graphic (appendAnthropicError EmptyString code message) = true.
Proof.
  unfold appendAnthropicError. repeat rewrite ?str_all_app, ?appendJSONBytes_graphic. by vm_compute.
Qed.

Lemma client_items n items :
  String.length (stream_bytes items) <= n ->
  client_fuel n (stream_bytes items) = omap item_message items.
Proof.
  revert n; induction items as [|i items IH]; intros n Hn; [by destruct n|].
  assert (Hlen : 1 <= String.length (on_wire (item_writes i))).
  { destruct i; cbn [item_writes]; [| |vm_compute; lia];
      rewrite frame_bytes, !sapp_length; simpl; lia. }
  cbn [stream_bytes foldr] in *. fold (stream_bytes items) in *. rewrite sapp_length in Hn.
  destruct n as [|n]; [lia|]. destruct i as [f|code message|]; cbn [item_writes omap list_omap item_message] in *.
  - rewrite client_step by (apply item_graphic || apply payload_graphic). by rewrite IH by lia.
  - rewrite client_step by (done || apply error_graphic). by rewrite IH by lia.
  - cbn [client_fuel]. change (on_wire [sseKeepAlive]) with (": keep-alive" +:+ sseLineBreak).
    rewrite sapp_assoc, cut_block_graphic by done. simpl. by rewrite IH by lia.
Qed.

(** C34: whatever the texts in the frames hold, the client receives exactly the
    frames that were written, in order: no text can end a frame or open one. *)
Theorem client_receives (items : list Item) :
  client (stream_bytes items) = omap item_message items.
Proof. by apply client_items. Qed.

(** ** Every payload is the JSON of its frame *)
Definition obj (fields : list (string * json)) : json := JObj fields.
Definition frame_json (f : Frame) : json :=
  match f with
  | MessageStart msgID model i o =>
      obj [("type", JStr "message_start");
           ("message", obj [("id", JStr msgID); ("type", JStr "message"); ("role", JStr "assistant");
              ("content", JArr []); ("model", JStr model);
              ("usage", obj [("input_tokens", JInt i); ("output_tokens", JInt o)])])]
  | BlockStartToolUse index id name =>
      obj [("type", JStr "content_block_start"); ("index", JInt index);
           ("content_block", obj [("type", JStr "tool_use"); ("id", JStr id); ("name", JStr name); ("input", obj [])])]
  | BlockStartText index =>
      obj [("type", JStr "content_block_start"); ("index", JInt index);
           ("content_block", obj [("type", JStr "text"); ("text", JStr EmptyString)])]
  | BlockStartThinking index sig =>
      obj [("type", JStr "content_block_start"); ("index", JInt index);
           ("content_block", obj [("type", JStr "thinking"); ("thinking", JStr EmptyString); ("signature", JStr sig)])]
  | DeltaInputJSON index p =>
      obj [("type", JStr "content_block_delta"); ("index", JInt index);
           ("delta", obj [("type", JStr "input_json_delta"); ("partial_json", JStr p)])]
  | DeltaText index t =>
      obj [("type", JStr "content_block_delta"); ("index", JInt index);
           ("delta", obj [("type", JStr "text_delta"); ("text", JStr t)])]
  | DeltaThinking index t =>
      obj [("type", JStr "content_block_delta"); ("index", JInt index);
           ("delta", obj [("type", JStr "thinking_delta"); ("thinking", JStr t)])]
  | BlockStop index => obj [("type", JStr "content_block_stop"); ("index", JInt index)]
  | MessageDelta reason o =>
      obj [("type", JStr "message_delta"); ("delta", obj [("stop_reason", JStr reason)]);
           ("usage", obj [("output_tokens", JInt o)])]
  | MessageStop => obj [("type", JStr "message_stop")]
  end.

Ltac strip_prefix :=
  repeat match goal with
  | |- String ?a ?s = String ?a ?t => apply (f_equal (String a))
  | |- ?a +:+ ?s = ?a +:+ ?t => apply (f_equal (String.append a))
  end.

Lemma payload_render f : payload f = render (frame_json f).
Proof.
  destruct f; unfold payload, appendSSEMessageStart, appendSSEContentBlockStartToolUse,
    appendSSEContentBlockStartText, appendSSEContentBlockStartThinking, appendSSEContentBlockDeltaInputJSON,
    appendSSEContentBlockDeltaText, appendSSEContentBlockDeltaThinking, appendSSEContentBlockStop,
    appendSSEMessageDelta, sseMessageStopBytes; rewrite ?appendJSONBytes_spec;
  cbn [frame_json obj render JInt]; unfold JInt; cbn [render];
  repeat match goal with |- context [js ?x] => let y := eval vm_compute in (js x) in change (js x) with y end;
  repeat match goal with
  | |- context [json_string ?x] =>
      lazymatch x with
      | EmptyString => let y := eval vm_compute in (json_string x) in change (json_string x) with y
      | String _ _ => let y := eval vm_compute in (json_string x) in change (json_string x) with y
      end
  end; rewrite ?sapp_assoc; cbn [String.append]; rewrite ?sapp_assoc; cbn [String.append];
  repeat (strip_prefix; rewrite ?sapp_assoc; cbn [String.append]); try reflexivity.
Qed.

Lemma NoDup_keys (keys : list string) : bool_decide (NoDup keys) = true -> NoDup keys.
Proof. apply bool_decide_eq_true_1. Qed.

Lemma frame_json_ok f : json_ok (frame_json f).
Proof.
  destruct f; unfold frame_json, obj;
    repeat match goal with
    | |- NoDup _ => apply NoDup_keys; vm_compute; reflexivity
    | |- json_ok (JInt _) => apply json_ok_int
    | |- json_ok (snd _) => cbn [snd]
    | |- json_ok _ => constructor
    | |- Forall _ _ => constructor
    end.
Qed.

(** Every payload the relay writes decodes to the fields of its frame, the texts
    coerced to valid UTF-8. *)
Theorem payload_decodes (f : Frame) : Unmarshal (payload f) = Some (coerce_json (frame_json f)).
Proof. rewrite payload_render. apply Unmarshal_render, frame_json_ok. Qed.
