(* ===== verification/OpenAISSE.v ===== *)
(** * The OpenAI chunk adapter (src/internal/adapter/openai_sse.go)

    A frame of the Anthropic stream is translated to one
    [chat.completion.chunk] object, or to none. [appendOpenAIChunkFast] copies
    the quoted texts out of the frame's JSON by searching for field markers;
    [buildOpenAIChunkSlow] decodes the frame and encodes a chunk.

    The capacity estimates ([ensureOpenAIChunkCapacity]) only size a buffer and
    are not modelled: a [dst] here is the bytes it holds. *)

From Stdlib Require Import Ascii.
From stdpp Require Import base numbers list strings sets.
From S2P Require Import Prelude GoLib Json SseFrame.

Local Open Scope nat_scope.

(** ** Literals and markers *)
Definition openAIChunkIDPrefix : string := js "{'id':".
Definition openAIChunkObjectCreated : string := js ",'object':'chat.completion.chunk','created':".
Definition openAIChunkModelPrefix : string := js ",'model':".
Definition openAIChunkChoicesPrefix : string := js ",'choices':[{'index':0,".
Definition openAIMessageStartSuffix : string := js "'delta':{'role':'assistant'}}]}".
Definition openAITextDeltaPrefix : string := js "'delta':{'content':".
Definition openAIContentDeltaSuffix : string := "}}]}".
Definition openAIThinkingDeltaPrefix : string := js "'delta':{'reasoning_content':".
Definition openAIToolIndexPrefix : string := js "'delta':{'tool_calls':[{'index':".
Definition openAIToolArgsDeltaPrefix : string := js ",'function':{'arguments':".
Definition openAIToolArgsDeltaSuffix : string := "}}]}}]}".
Definition openAIToolStartDeltaPrefix : string := js ",'id':".
Definition openAIToolStartNamePrefix : string := js ",'type':'function','function':{'name':".
Definition openAIToolStartDeltaSuffix : string := js ",'arguments':''}}]}}]}".
Definition openAIMessageDeltaPrefix : string := js "'delta':{},'finish_reason':".
Definition openAIMessageDeltaSuffix : string := "}]}".

Definition openAIModelMarker : string := js "'model':".
Definition openAIToolUseTypeMarker : string := js "'type':'tool_use'".
Definition openAITextContentTypeMarker : string := js "'type':'text'".
Definition openAITextDeltaMarker : string := js "'type':'text_delta'".
Definition openAIInputJSONMarker : string := js "'type':'input_json_delta'".
Definition openAIThinkingDeltaMarker : string := js "'type':'thinking_delta'".
Definition openAIStopReasonMarker : string := js "'stop_reason':".
Definition openAITextMarker : string := js "'text':".
Definition openAIPartialJSONMarker : string := js "'partial_json':".
Definition openAIThinkingMarker : string := js "'thinking':".
Definition openAIIDMarker : string := js "'id':".
Definition openAINameMarker : string := js "'name':".

(** ** Quoted texts *)
Definition needs_quoting (a : Ascii.ascii) : bool :=
  (byte_of a <? 32) || is_byte 92 a || is_byte 34 a || (128 <=? byte_of a).

(** [json.Marshal] of a string never fails, so neither does this. *)
Definition appendOpenAIJSONString (dst value : string) : string :=
  if str_all (fun a => negb (needs_quoting a)) value
  then dst +:+ dquote +:+ value +:+ dquote
  else dst +:+ json_string value.

Definition normalizeOpenAIStopReasonQuoted (quoted : string) : string :=
  if (String.length quoted =? 0) || String.eqb quoted (js "''") || String.eqb quoted (js "'stop'")
     || String.eqb quoted (js "'end_turn'") then js "'stop'"
  else if String.eqb quoted (js "'tool_use'") then js "'tool_calls'"
  else if String.eqb quoted (js "'max_tokens'") then js "'length'"
  else if String.eqb quoted (js "'refusal'") then js "'content_filter'"
  else quoted.

Definition normalizeOpenAIStopReason (stopReason : string) : string :=
  let s := TrimSpace stopReason in
  if String.eqb s EmptyString || String.eqb s "stop" || String.eqb s "end_turn" then "stop"
  else if String.eqb s "tool_use" then "tool_calls"
  else if String.eqb s "max_tokens" then "length"
  else if String.eqb s "refusal" then "content_filter"
  else s.

(** The scan for the closing quote: [acc] is what was read since the opening one. *)
Fixpoint scan_literal (escaped : bool) (s : string) : option string :=
  match s with
  | EmptyString => None
  | String a s' =>
      if escaped then String a <$> scan_literal false s'
      else if is_byte 92 a then String a <$> scan_literal true s'
      else if is_byte 34 a then Some dquote
      else String a <$> scan_literal false s'
  end.

Definition extractJSONStringValueAfter (data marker : string) : option string :=
  idx ← Index data marker;
  match skip_space (sdrop (idx + String.length marker) data) with
  | String a rest => if is_byte 34 a then String a <$> scan_literal false rest else None
  | EmptyString => None
  end.

(** ** Chunks *)
Section Chunks.
  Context (msgID : string) (created : Z).

Definition appendOpenAIChunkPrefix (dst quotedModel : string) : string :=
  let dst := dst +:+ openAIChunkIDPrefix in
  let dst := appendOpenAIJSONString dst msgID in
  let dst := dst +:+ openAIChunkObjectCreated in
  let dst := dst +:+ fmt_d created in
  let dst := dst +:+ openAIChunkModelPrefix in
  let dst := if 0 <? String.length quotedModel then dst +:+ quotedModel else dst +:+ js "''" in
  dst +:+ openAIChunkChoicesPrefix.

Definition appendOpenAIChunkMessageStart (dst quotedModel : string) : string :=
  appendOpenAIChunkPrefix dst quotedModel +:+ openAIMessageStartSuffix.

Definition appendOpenAIChunkText (dst quotedText : string) : string :=
  let dst := appendOpenAIChunkPrefix dst EmptyString in
  let dst := dst +:+ openAITextDeltaPrefix in
  let dst := dst +:+ quotedText in
  dst +:+ openAIContentDeltaSuffix.

Definition appendOpenAIChunkThinking (dst quotedThinking : string) : string :=
  let dst := appendOpenAIChunkPrefix dst EmptyString in
  let dst := dst +:+ openAIThinkingDeltaPrefix in
  let dst := dst +:+ quotedThinking in
  dst +:+ openAIContentDeltaSuffix.

Definition appendOpenAIChunkToolArgs (dst : string) (index : Z) (quotedArgs : string) : string :=
  let dst := appendOpenAIChunkPrefix dst EmptyString in
  let dst := dst +:+ openAIToolIndexPrefix in
  let dst := dst +:+ fmt_d index in
  let dst := dst +:+ openAIToolArgsDeltaPrefix in
  let dst := dst +:+ quotedArgs in
  dst +:+ openAIToolArgsDeltaSuffix.

Definition appendOpenAIChunkToolStart (dst : string) (index : Z) (quotedID quotedName : string) : string :=
  let dst := appendOpenAIChunkPrefix dst EmptyString in
  let dst := dst +:+ openAIToolIndexPrefix in
  let dst := dst +:+ fmt_d index in
  let dst := dst +:+ openAIToolStartDeltaPrefix in
  let dst := dst +:+ quotedID in
  let dst := dst +:+ openAIToolStartNamePrefix in
  let dst := dst +:+ quotedName in
  dst +:+ openAIToolStartDeltaSuffix.

Definition appendOpenAIChunkMessageDelta (dst quotedStopReason : string) : string :=
  let dst := appendOpenAIChunkPrefix dst EmptyString in
  let dst := dst +:+ openAIMessageDeltaPrefix in
  let dst := dst +:+ quotedStopReason in
  dst +:+ openAIMessageDeltaSuffix.

Definition openAIToolIndex (data : string) : option Z :=
  v ← Unmarshal data;
  match v with
  | JObj fs => i ← as_int (struct_field "index" fs); if (i <? 0)%Z then None else Some i
  | JNull => Some 0%Z
  | _ => None
  end.

Definition appendOpenAIChunkFast (dst event data : string) : option string :=
  if String.eqb event "message_start" then
    quotedModel ← extractJSONStringValueAfter data openAIModelMarker;
    Some (appendOpenAIChunkMessageStart dst quotedModel)
  else if String.eqb event "content_block_start" then
    match (if Contains data openAIToolUseTypeMarker then
             match extractJSONStringValueAfter data openAIIDMarker,
                   extractJSONStringValueAfter data openAINameMarker with
             | Some quotedID, Some quotedName => Some (quotedID, quotedName)
             | _, _ => None
             end
           else None) with
    | Some (quotedID, quotedName) =>
        index ← openAIToolIndex data;
        Some (appendOpenAIChunkToolStart dst index quotedID quotedName)
    | None =>
        if Contains data openAITextContentTypeMarker then
          quotedText ← extractJSONStringValueAfter data openAITextMarker;
          if 2 <? String.length quotedText then Some (appendOpenAIChunkText dst quotedText) else None
        else None
    end
  else if String.eqb event "content_block_delta" then
    if Contains data openAITextDeltaMarker then
      quotedText ← extractJSONStringValueAfter data openAITextMarker;
      Some (appendOpenAIChunkText dst quotedText)
    else if Contains data openAIInputJSONMarker then
      quotedArgs ← extractJSONStringValueAfter data openAIPartialJSONMarker;
      index ← openAIToolIndex data;
      Some (appendOpenAIChunkToolArgs dst index quotedArgs)
    else if Contains data openAIThinkingDeltaMarker then
      quotedThinking ← extractJSONStringValueAfter data openAIThinkingMarker;
      Some (appendOpenAIChunkThinking dst quotedThinking)
    else None
  else if String.eqb event "message_delta" then
    quotedStopReason ← extractJSONStringValueAfter data openAIStopReasonMarker;
    Some (appendOpenAIChunkMessageDelta dst (normalizeOpenAIStopReasonQuoted quotedStopReason))
  else None.

(** *** The slow path

    The chunk's encoding: [json.Marshal] writes the fields of the struct in their
    order and leaves out the empty ones. *)
Definition opt_field (k : string) (v : option json) : list (string * json) :=
  match v with Some v => [(k, v)] | None => [] end.

Record openAIDelta := mkDelta {
  Role : option string; Content : option string; ReasoningContent : option string;
  ToolCalls : list json
}.
Definition emptyDelta : openAIDelta := mkDelta None None None [].
Definition delta_empty (d : openAIDelta) : bool :=
  match d with mkDelta None None None [] => true | _ => false end.

Definition delta_json (d : openAIDelta) : json :=
  JObj (opt_field "role" (JStr <$> Role d) ++ opt_field "content" (JStr <$> Content d) ++
        opt_field "reasoning_content" (JStr <$> ReasoningContent d) ++
        match ToolCalls d with [] => [] | l => [("tool_calls", JArr l)] end).

(** [omitempty] drops an empty string. *)
Definition str_field (k s : string) : list (string * json) :=
  if String.eqb s EmptyString then [] else [(k, JStr s)].

Definition tool_call (index : Z) (id typ : string) (name : option string) (args : string) : json :=
  JObj ([("index", JInt index)] ++ str_field "id" id ++ str_field "type" typ ++
        [("function", JObj (opt_field "name" (JStr <$> name) ++ [("arguments", JStr args)]))]).

Definition chunk_json (model : string) (d : openAIDelta) (finish : option string) : json :=
  JObj [("id", JStr msgID); ("object", JStr "chat.completion.chunk"); ("created", JInt created);
        ("model", JStr model);
        ("choices", JArr [JObj ([("index", JInt 0); ("delta", delta_json d)] ++
                                opt_field "finish_reason" (JStr <$> finish))])].

(** The top-level value of a payload struct: null decodes to the zero struct. *)
Definition as_payload (v : option json) : option (list (string * json)) :=
  match v with
  | Some (JObj fs) => Some fs
  | Some JNull => Some []
  | _ => None
  end.

Definition slow_choice (event data : string) : option (string * openAIDelta * option string) :=
  if String.eqb event "message_start" then
    fs ← as_payload (Unmarshal data);
    message ← as_struct_ptr (struct_field "message" fs);
    message ← message;
    model ← as_string (struct_field "model" message);
    Some (model, mkDelta (Some "assistant") None None [], None)
  else if String.eqb event "content_block_start" then
    fs ← as_payload (Unmarshal data);
    index ← as_int (struct_field "index" fs);
    block ← as_struct_ptr (struct_field "content_block" fs);
    block ← block;
    typ ← as_string (struct_field "type" block);
    text ← as_string (struct_field "text" block);
    id ← as_string (struct_field "id" block);
    name ← as_string (struct_field "name" block);
    if (index <? 0)%Z then None
    else if String.eqb typ "text" then
      Some (EmptyString,
            if String.eqb text EmptyString then emptyDelta else mkDelta None (Some text) None [], None)
    else if String.eqb typ "tool_use" then
      Some (EmptyString,
            mkDelta None None None [tool_call index id "function" (Some name) EmptyString], None)
    else None
  else if String.eqb event "content_block_delta" then
    fs ← as_payload (Unmarshal data);
    index ← as_int (struct_field "index" fs);
    delta ← as_struct_ptr (struct_field "delta" fs);
    delta ← delta;
    typ ← as_string (struct_field "type" delta);
    text ← as_string_ptr (struct_field "text" delta);
    partial ← as_string_ptr (struct_field "partial_json" delta);
    thinking ← as_string_ptr (struct_field "thinking" delta);
    if (index <? 0)%Z then None
    else if String.eqb typ "text_delta" then
      text ← text; Some (EmptyString, mkDelta None (Some text) None [], None)
    else if String.eqb typ "input_json_delta" then
      partial ← partial;
      Some (EmptyString,
            mkDelta None None None [tool_call index EmptyString EmptyString None partial], None)
    else if String.eqb typ "thinking_delta" then
      thinking ← thinking; Some (EmptyString, mkDelta None None (Some thinking) [], None)
    else None
  else if String.eqb event "message_delta" then
    fs ← as_payload (Unmarshal data);
    delta ← as_struct_ptr (struct_field "delta" fs);
    delta ← delta;
    reason ← as_string_ptr (struct_field "stop_reason" delta);
    reason ← reason;
    Some (EmptyString, emptyDelta, Some (normalizeOpenAIStopReason reason))
  else None.

Definition buildOpenAIChunkSlow (event data : string) : option string :=
  '(model, delta, finish) ← slow_choice event data;
  if delta_empty delta && negb (bool_decide (is_Some finish)) then None
  else Some (render (chunk_json model delta finish)).

Definition AppendOpenAIChunk (dst event data : string) : option string :=
  match appendOpenAIChunkFast dst event data with
  | Some raw => Some raw
  | None => raw ← buildOpenAIChunkSlow event data; Some (dst +:+ raw)
  end.
End Chunks.

Example text_delta_chunk :
  AppendOpenAIChunk "m1" 7 "" "content_block_delta" (payload (DeltaText 0 "hi")) =
  Some (js "{'id':'m1','object':'chat.completion.chunk','created':7,'model':'','choices':[{'index':0,'delta':{'content':'hi'}}]}")
  /\ AppendOpenAIChunk "m1" 7 "" "content_block_start" (payload (BlockStartText 0)) = None
  /\ AppendOpenAIChunk "m1" 7 "" "content_block_stop" (payload (BlockStop 0)) = None
  /\ buildOpenAIChunkSlow "m1" 7 "content_block_start" (payload (BlockStartToolUse 3 "t" "Bash")) =
     AppendOpenAIChunk "m1" 7 "" "content_block_start" (payload (BlockStartToolUse 3 "t" "Bash")).
Proof. vm_compute. repeat split. Qed.
