(* ===== verification/Stream.v ===== *)
(** * The stream relay (src/internal/handler/stream_handler.go)

    [St] is the state of a [streamHandler], its fields grouped by concern:
    - [Conn]: the response (what is on the wire, the flags that say whether the
      response is open, returned or failed, the block positions given out);
    - [Hist]: the answer kept for a non-stream response and for the logs;
    - [Meter]: the usage the response reports;
    - [Calls]: the tool calls.

    [Cfg] is what the request fixes before the first event. One Definition per
    method of the handler; a method's name with [_locked] is the critical section
    the method takes [h.mu] for.

    - A [w.Write] may fail: [wfail n] says whether the n-th does. A frame takes
      several writes; one that fails leaves a [WTorn] item on the wire.
    - The keep-alive goroutine runs between two critical sections of the request's
      own goroutine: [lock] is where it may, [tick n] how many times it does
      before the n-th lock.
    - [panicked] is set where the Go code panics; nothing runs after it. *)

From Stdlib Require Import Ascii.
From Corelib Require Import SpecFloat.
From stdpp Require Import base numbers list strings sets gmap.
From S2P Require Import Prelude GoLib Json Marshal Tools Tokens SseFrame OpenAISSE Errors.

Local Open Scope orchids_scope.

(** ** Data *)
Inductive WireItem : Type :=
| WFrame (f : Frame)                        (* an event-stream frame *)
| WError (category message : string)        (* its in-band failure report *)
| WChunk (raw : string)                     (* an OpenAI chunk *)
| WErrorChunk (category message : string)   (* its in-band failure report *)
| WDone                                     (* data: [DONE] *)
| WKeepAlive
| WHTTPError (status : Z) (category message : string) (retryAfter : Duration)
| WTorn.                                    (* a write failed part-way *)

Inductive BlockType := BlockNone | BlockThinking | BlockText.
#[global] Instance BlockType_eq_dec : EqDecision BlockType. Proof. solve_decision. Defined.

Record toolCall := mkToolCall { call_id : string; call_name : string; call_input : string }.

Record block := mkBlock {
  b_type : string; b_signature : option string; b_id : string; b_name : string; b_input : json
}.

Record Cfg := mkCfg {
  isStream : bool;
  suppressThinking : bool;
  openAI : bool;                 (* responseFormat == adapter.FormatOpenAI *)
  hasFlusher : bool;             (* h.flusher != nil *)
  msgID : string;
  created : Z;                   (* startTime.Unix() *)
  pendingModel : string;
  disallowToolCalls : bool;
  surfaceToolRejects : bool;
  allowedToolNames : gset string;
  clientTools : list json;
  structured : option (string -> option string)  (* the check: the error of a text, if any *)
}.

Record Conn := mkConn {
  wire : list WireItem;
  wcount : nat;                  (* writes made *)
  locks : nat;                   (* critical sections entered *)
  flushed : nat;                 (* items the client has been sent *)
  deferredFlushFrames : Z;
  deferredFlushBytes : Z;
  hasReturn : bool;
  returned : bool;               (* the atomic mirror of hasReturn *)
  requestFailed : bool;
  streamFailure : bool;          (* middleware.MarkStreamFailure *)
  messageStartWritten : bool;
  blockIndex : Z;
  activeBlockType : BlockType;
  activeThinkingSSEIndex : Z;
  activeTextSSEIndex : Z;
  panicked : bool
}.

Record Hist := mkHist {
  responseText : string;
  contentBlocks : list block;
  textBlockBuilders : list (option string);
  thinkingBlockBuilders : list (option string);
  thinkingBlockSigs : list string;
  activeThinkingBlockIndex : Z;
  activeTextBlockIndex : Z;
  pendingThinkingSig : string;
  hasTextOutput : bool;
  hasReasoningOutput : bool;
  finalStopReason : string;
  completionLogged : bool;
  emptyOutputFallback : string
}.

Record Meter := mkMeter {
  useUpstreamUsage : bool;
  outputTokens : Z;
  inputTokens : Z;
  cachedInputTokens : Z;
  cacheWriteTokens : Z;
  reasoningTokens : Z;
  usageMetadata : list (string * json);
  outputEstimator : Estimator
}.

Record Calls := mkCalls {
  pendingToolCalls : list toolCall;
  toolCallHandled : gset string;
  toolCallEmitted : gset string;
  toolCallCount : Z;
  suppressedToolCalls : Z
}.

Record St := mkSt { conn : Conn; hist : Hist; meter : Meter; calls : Calls }.

#[export] Instance Cfg_eta : Eta Cfg := fun c => mkCfg (isStream c) (suppressThinking c) (openAI c)
  (hasFlusher c) (msgID c) (created c) (pendingModel c) (disallowToolCalls c) (surfaceToolRejects c)
  (allowedToolNames c) (clientTools c) (structured c).
#[export] Instance Conn_eta : Eta Conn := fun c => mkConn (wire c) (wcount c) (locks c) (flushed c)
  (deferredFlushFrames c) (deferredFlushBytes c) (hasReturn c) (returned c) (requestFailed c)
  (streamFailure c) (messageStartWritten c) (blockIndex c) (activeBlockType c)
  (activeThinkingSSEIndex c) (activeTextSSEIndex c) (panicked c).
#[export] Instance Hist_eta : Eta Hist := fun h => mkHist (responseText h) (contentBlocks h)
  (textBlockBuilders h) (thinkingBlockBuilders h) (thinkingBlockSigs h) (activeThinkingBlockIndex h)
  (activeTextBlockIndex h) (pendingThinkingSig h) (hasTextOutput h) (hasReasoningOutput h)
  (finalStopReason h) (completionLogged h) (emptyOutputFallback h).
#[export] Instance Meter_eta : Eta Meter := fun m => mkMeter (useUpstreamUsage m) (outputTokens m)
  (inputTokens m) (cachedInputTokens m) (cacheWriteTokens m) (reasoningTokens m) (usageMetadata m)
  (outputEstimator m).
#[export] Instance Calls_eta : Eta Calls := fun c => mkCalls (pendingToolCalls c) (toolCallHandled c)
  (toolCallEmitted c) (toolCallCount c) (suppressedToolCalls c).
#[export] Instance St_eta : Eta St := fun s => mkSt (conn s) (hist s) (meter s) (calls s).

Definition on_conn (f : Conn -> Conn) (s : St) : St := s <| conn := f (conn s) |>.
Definition on_hist (f : Hist -> Hist) (s : St) : St := s <| hist := f (hist s) |>.
Definition on_meter (f : Meter -> Meter) (s : St) : St := s <| meter := f (meter s) |>.
Definition on_calls (f : Calls -> Calls) (s : St) : St := s <| calls := f (calls s) |>.

Definition initialConn : Conn :=
  mkConn [] 0 0 0 0 0 false false false false false (-1) BlockNone (-1) (-1) false.
Definition initialHist : Hist :=
  mkHist EmptyString [] [] [] [] (-1) (-1) EmptyString false false EmptyString false EmptyString.
Definition initialMeter : Meter := mkMeter false 0 0 0 0 0 [] zeroEstimator.
Definition initialCalls : Calls := mkCalls [] ∅ ∅ 0 0.
Definition newStreamHandler : St := mkSt initialConn initialHist initialMeter initialCalls.

(** The setters a request calls before it runs. *)
Definition setAllowedToolNames (names : list string) (c : Cfg) : Cfg :=
  c <| allowedToolNames := list_to_set (List.filter (fun k => negb (String.eqb k EmptyString))
         (map (fun name => ToLower (TrimSpace name)) names)) |>.
Definition setDisallowToolCalls (disallow : bool) (c : Cfg) : Cfg := c <| disallowToolCalls := disallow |>.
Definition setSurfaceToolRejects (surface : bool) (c : Cfg) : Cfg := c <| surfaceToolRejects := surface |>.
Definition setClientTools (tools : list json) (c : Cfg) : Cfg := c <| clientTools := tools |>.
Definition setStructuredOutput (check : option (string -> option string)) (c : Cfg) : Cfg :=
  c <| structured := check |>.
Definition setEmptyOutputFallback (text : string) (s : St) : St :=
  on_hist (fun h => h <| emptyOutputFallback := TrimSpace text |>) s.
Definition setUsageTokens (input output : Z) (s : St) : St :=
  on_meter (fun m =>
    let m := m <| useUpstreamUsage := true |> in
    let m := if (0 <=? input)%Z then m <| inputTokens := input |> else m in
    if (0 <=? output)%Z then m <| outputTokens := output |> else m) s.

(** ** The handler *)
Section Handler.
  Context `{UnicodeTable} (cfg : Cfg) (wfail : nat -> bool) (tick : nat -> nat).

(** *** Writing *)
Fixpoint try_writes (chunks : list string) (n : nat) : bool * nat :=
  match chunks with
  | [] => (true, n)
  | _ :: chunks' => if wfail n then (false, S n) else try_writes chunks' (S n)
  end.

(** The writes of one item: what reached the wire, and whether all succeeded. *)
Definition put (item : WireItem) (chunks : list string) (c : Conn) : Conn * bool :=
  let '(ok, n) := try_writes chunks (wcount c) in
  (c <| wire := wire c ++ [if ok then item else WTorn] |> <| wcount := n |>, ok).

Definition sseDeferredFlushFrameThreshold : Z := 4.
Definition sseDeferredFlushByteThreshold : Z := 2048.

Definition flush_now (c : Conn) : Conn :=
  c <| deferredFlushFrames := 0%Z |> <| deferredFlushBytes := 0%Z |> <| flushed := length (wire c) |>.

Definition flushSSEWithLenLocked (event : string) (dataLen : nat) (immediate force : bool) (c : Conn) : Conn :=
  if negb (hasFlusher cfg) then c
  else if force || immediate then flush_now c
  else
    let c := c <| deferredFlushFrames := (deferredFlushFrames c + 1)%Z |> in
    let c := c <| deferredFlushBytes := (deferredFlushBytes c + Z.of_nat
      (String.length event + dataLen + String.length sseEventPrefix + String.length sseDataJoin
       + String.length sseLineBreak))%Z |> in
    if ((sseDeferredFlushFrameThreshold <=? deferredFlushFrames c) ||
        (sseDeferredFlushByteThreshold <=? deferredFlushBytes c))%Z
    then flush_now c else c.

Definition shouldFlushSSEImmediately (event data : string) : bool :=
  if String.eqb event "content_block_delta" then Contains data openAITextDeltaMarker else true.

Definition markWriteErrorLocked (s : St) : St :=
  let s := on_conn (fun c => c <| hasReturn := true |> <| requestFailed := true |>
    <| returned := true |> <| streamFailure := true |>) s in
  on_hist (fun h => h <| finalStopReason := "write_error" |>) s.

(** Put an item and go on, or record the failed write. *)
Definition put_or_mark (item : WireItem) (chunks : list string) (k : St -> St) (s : St) : St :=
  let '(c, ok) := put item chunks (conn s) in
  let s := s <| conn := c |> in
  if ok then k s else markWriteErrorLocked s.

Definition frame_event (f : Frame) : string := event_of f.

Definition emitSSEFrameLocked (f : Frame) (immediate final : bool) (s : St) : St :=
  if negb (isStream cfg) then s
  else if openAI cfg then
    let done_line (s : St) : St :=
      if final && String.eqb (event_of f) "message_stop" then
        put_or_mark WDone [sseDoneLine] (fun s =>
          on_conn (flushSSEWithLenLocked (event_of f) (String.length sseDoneLine) true true) s) s
      else s in
    match AppendOpenAIChunk (msgID cfg) (created cfg) EmptyString (event_of f) (payload f) with
    | Some raw =>
        put_or_mark (WChunk raw) (writeOpenAIFrame raw) (fun s =>
          done_line (on_conn (flushSSEWithLenLocked (event_of f) (String.length (payload f)) immediate final) s)) s
    | None => done_line s
    end
  else
    put_or_mark (WFrame f) (writeSSEFrameBytes (event_of f) (payload f)) (fun s =>
      on_conn (flushSSEWithLenLocked (event_of f) (String.length (payload f)) immediate final) s) s.

Definition writeMessageStartLocked (s : St) : St :=
  if negb (isStream cfg) || hasReturn (conn s) then s
  else
    let f := MessageStart (msgID cfg) (pendingModel cfg) (inputTokens (meter s)) 0 in
    emitSSEFrameLocked f true false (on_conn (fun c => c <| messageStartWritten := true |>) s).

Definition ensureMessageStartLocked (s : St) : St * bool :=
  if messageStartWritten (conn s) then (s, true)
  else if requestFailed (conn s) || hasReturn (conn s) || negb (isStream cfg) then (s, false)
  else let s := writeMessageStartLocked s in (s, messageStartWritten (conn s)).

(** For any event but [message_start], which [writeMessageStartLocked] emits. *)
Definition writeSSEBytesLockedWithHint (f : Frame) (immediate : bool) (s : St) : St :=
  if negb (isStream cfg) || hasReturn (conn s) then s
  else
    let '(s, opened) := ensureMessageStartLocked s in
    if opened then emitSSEFrameLocked f immediate false s else s.

Definition writeFinalSSEBytesLockedWithHint (f : Frame) (immediate : bool) (s : St) : St :=
  emitSSEFrameLocked f immediate true s.

(** The serialised writers: [final] bypasses the checks of the running stream. *)
Definition write_block (f : Frame) (immediate final : bool) (s : St) : St :=
  if final then writeFinalSSEBytesLockedWithHint f immediate s
  else writeSSEBytesLockedWithHint f immediate s.
Definition writeSSEContentBlockStartToolUseLocked (index : Z) (id name : string) (final : bool) : St -> St :=
  write_block (BlockStartToolUse index id name) true final.
Definition writeSSEContentBlockStartTextLocked (index : Z) (final : bool) : St -> St :=
  write_block (BlockStartText index) true final.
Definition writeSSEContentBlockDeltaInputJSONLocked (index : Z) (p : string) (final : bool) : St -> St :=
  write_block (DeltaInputJSON index p) false final.
Definition writeSSEContentBlockDeltaTextLocked (index : Z) (text : string) (final : bool) : St -> St :=
  write_block (DeltaText index text) true final.
Definition writeSSEContentBlockDeltaThinkingLocked (index : Z) (t : string) (final : bool) : St -> St :=
  write_block (DeltaThinking index t) false final.
Definition writeSSEContentBlockStopLocked (index : Z) (final : bool) : St -> St :=
  write_block (BlockStop index) true final.
Definition writeSSEMessageDeltaLocked (reason : string) (tokens : Z) (final : bool) : St -> St :=
  write_block (MessageDelta reason tokens) true final.

Definition writeSSEBytesLocked (f : Frame) (s : St) : St :=
  if negb (isStream cfg) || hasReturn (conn s) then s
  else emitSSEFrameLocked f (shouldFlushSSEImmediately (event_of f) (payload f)) false s.

Definition writeKeepAlive_locked (s : St) : St :=
  if negb (isStream cfg) then s
  else if hasReturn (conn s) then s
  else if negb (messageStartWritten (conn s)) then s
  else put_or_mark WKeepAlive [sseKeepAlive] (fun s =>
    on_conn (flushSSEWithLenLocked "keep-alive" (String.length sseKeepAlive) true true) s) s.

(** The keep-alive goroutine stops for good once it has seen the response
    returned; its write checks the same flag. *)
Definition lock (s : St) : St :=
  let s := Nat.iter (tick (locks (conn s))) writeKeepAlive_locked s in
  on_conn (fun c => c <| locks := S (locks c) |>) s.

(** *** Accounting *)
Definition addOutputTokens (text : string) (s : St) : St :=
  if String.eqb text EmptyString then s else
  let s := lock s in
  if useUpstreamUsage (meter s) then s
  else on_meter (fun m => m <| outputEstimator := Estimator_Add (outputEstimator m) text |>) s.

Definition finalizeOutputTokens (s : St) : St :=
  let s := lock s in
  if useUpstreamUsage (meter s) then s
  else on_meter (fun m => m <| outputTokens := Count (outputEstimator m) |>) s.

(** A Go [int] is an integer literal; a float64 is truncated, and one beyond 64
    bits converts to the least integer. *)
Definition truncate (v : float64) : Z :=
  match v with
  | S754_zero _ => 0
  | S754_finite sg m e =>
      let a := (if e <? 0 then Z.pos m / 2 ^ (- e) else Z.pos m * 2 ^ e)%Z in
      let z := (if sg then - a else a)%Z in
      if ((min_int64 <=? z) && (z <=? max_int64))%Z then z else min_int64
  | _ => min_int64
  end.
Definition getUsageIntValue (usage : list (string * json)) (key : string) : option Z :=
  match field key usage with
  | Some (JNum lit) =>
      match int_literal lit with Some z => Some z | None => truncate <$> ParseFloat lit end
  | _ => None
  end.

Fixpoint read_usage (usage : list (string * json)) (keys : list string) : option Z :=
  match keys with
  | [] => None
  | key :: keys' => match getUsageIntValue usage key with Some v => Some v | None => read_usage usage keys' end
  end.

Definition metadataKeys : list string :=
  ["billable"; "cacheable_tokens"; "firstTokenDuration"; "totalDuration"; "serverDuration"].
Definition has_key (usage : list (string * json)) (k : string) : bool :=
  match field k usage with Some _ => true | None => false end.
Definition some_b {A} (o : option A) : bool := match o with Some _ => true | None => false end.

Definition applyUpstreamUsageTokens (usage : list (string * json)) (s : St) : St :=
  match usage with
  | [] => s
  | _ =>
    let input := read_usage usage ["inputTokens"; "input_tokens"] in
    let output := read_usage usage ["outputTokens"; "output_tokens"] in
    let cached := read_usage usage ["cacheReadTokens"; "cache_read_tokens"] in
    let cacheWrite := read_usage usage ["cacheWriteTokens"; "cache_creation_input_tokens"] in
    let reasoning := read_usage usage ["reasoningTokens"; "reasoning_tokens"] in
    let hasCredits := has_key usage "credits" in
    let hasOriginalCredits := has_key usage "original_credits" in
    let hasMetadata := existsb (has_key usage) metadataKeys in
    let counted := some_b input || some_b output || some_b cached || some_b cacheWrite ||
                   some_b reasoning || hasCredits || hasOriginalCredits in
    if negb (counted || hasMetadata) then s
    else
      on_meter (fun m =>
        let m := if counted then m <| useUpstreamUsage := true |> else m in
        let m := m <| inputTokens := default (inputTokens m) input |> in
        let m := m <| outputTokens := default (outputTokens m) output |> in
        let m := m <| cachedInputTokens := default (cachedInputTokens m) cached |> in
        let m := m <| cacheWriteTokens := default (cacheWriteTokens m) cacheWrite |> in
        let m := m <| reasoningTokens := default (reasoningTokens m) reasoning |> in
        foldl (fun m k => match field k usage with
                          | Some v => m <| usageMetadata := set_field k v (usageMetadata m) |>
                          | None => m
                          end) m (metadataKeys ++ ["credits"; "original_credits"])) (lock s)
  end.

(** *** Content blocks *)
Definition grow {A} (zero : A) (slots : list A) (idx : nat) : list A :=
  slots ++ replicate (S idx - length slots) zero.

Definition popActiveBlockStopDataLocked (s : St) : St * option Frame :=
  match activeBlockType (conn s) with
  | BlockNone => (s, None)
  | BlockThinking =>
      let f := BlockStop (activeThinkingSSEIndex (conn s)) in
      let s := on_hist (fun h => h <| activeThinkingBlockIndex := (-1)%Z |>) s in
      (on_conn (fun c => c <| activeThinkingSSEIndex := (-1)%Z |> <| activeBlockType := BlockNone |>) s, Some f)
  | BlockText =>
      let f := BlockStop (activeTextSSEIndex (conn s)) in
      let s := on_hist (fun h => h <| activeTextBlockIndex := (-1)%Z |>) s in
      (on_conn (fun c => c <| activeTextSSEIndex := (-1)%Z |> <| activeBlockType := BlockNone |>) s, Some f)
  end.

Definition closeActiveBlockLocked (s : St) : St :=
  match popActiveBlockStopDataLocked s with
  | (s, None) => s
  | (s, Some f) => writeSSEBytesLocked f s
  end.
Definition closeActiveBlock (s : St) : St := closeActiveBlockLocked (lock s).

Definition new_block (typ : string) (signature : option string) : block :=
  mkBlock typ signature EmptyString EmptyString JNull.

(** Opening a block, under the lock; the block's position is returned. *)
Definition open_thinking (s : St) : St * Z :=
  let s := on_conn (fun c => c <| blockIndex := (blockIndex c + 1)%Z |> <| activeBlockType := BlockThinking |>) s in
  let sseIdx := blockIndex (conn s) in
  let signature := pendingThinkingSig (hist s) in
  let s := on_hist (fun h =>
    let h := h <| pendingThinkingSig := EmptyString |> in
    let h := h <| contentBlocks := contentBlocks h ++ [new_block "thinking" (Some signature)] |> in
    let internalIdx := (length (contentBlocks h) - 1)%nat in
    let h := h <| activeThinkingBlockIndex := Z.of_nat internalIdx |> in
    let h := h <| thinkingBlockBuilders :=
      <[internalIdx := Some EmptyString]> (grow None (thinkingBlockBuilders h) internalIdx) |> in
    h <| thinkingBlockSigs := <[internalIdx := signature]> (grow EmptyString (thinkingBlockSigs h) internalIdx) |>) s in
  let s := on_conn (fun c => c <| activeThinkingSSEIndex := sseIdx |>) s in
  (writeSSEBytesLockedWithHint (BlockStartThinking sseIdx signature) true s, sseIdx).

Definition open_text (s : St) : St * Z :=
  let s := on_conn (fun c => c <| blockIndex := (blockIndex c + 1)%Z |> <| activeBlockType := BlockText |>) s in
  let sseIdx := blockIndex (conn s) in
  let s := on_hist (fun h =>
    let h := h <| contentBlocks := contentBlocks h ++ [new_block "text" None] |> in
    let internalIdx := (length (contentBlocks h) - 1)%nat in
    let h := h <| activeTextBlockIndex := Z.of_nat internalIdx |> in
    h <| textBlockBuilders :=
      <[internalIdx := Some EmptyString]> (grow None (textBlockBuilders h) internalIdx) |>) s in
  let s := on_conn (fun c => c <| activeTextSSEIndex := sseIdx |>) s in
  (writeSSEContentBlockStartTextLocked sseIdx false s, sseIdx).

Definition ensureBlock (blockType : BlockType) (s : St) : St * Z :=
  if bool_decide (blockType = BlockThinking) && suppressThinking cfg then (s, (-1)%Z)
  else
    let s := lock s in
    let s := if negb (bool_decide (activeBlockType (conn s) = BlockNone)) &&
                negb (bool_decide (activeBlockType (conn s) = blockType))
             then closeActiveBlockLocked s else s in
    match blockType with
    | BlockThinking =>
        if bool_decide (activeBlockType (conn s) = BlockThinking) then (s, activeThinkingSSEIndex (conn s))
        else open_thinking s
    | BlockText =>
        if bool_decide (activeBlockType (conn s) = BlockText) then (s, activeTextSSEIndex (conn s))
        else open_text s
    | BlockNone => (s, (-1)%Z)  (* no caller *)
    end.

(** [slots[idx]] after [historyBuilderAt], with the delta written to it. *)
Definition append_history (idx : Z) (delta : string) (slots : list (option string)) : list (option string) :=
  let i := Z.to_nat idx in
  let slots := grow None slots i in
  <[i := Some (default EmptyString (mjoin (slots !! i)) +:+ delta)]> slots.

Definition in_blocks (idx : Z) (h : Hist) : bool :=
  ((0 <=? idx) && (idx <? Z.of_nat (length (contentBlocks h))))%Z.

Definition thinkingBlockSigAt (idx : Z) (h : Hist) : option string :=
  if (idx <? 0)%Z then None else thinkingBlockSigs h !! Z.to_nat idx.

(** A signature that arrives after its block was opened without one. *)
Definition late_signature (sig : string) (internalIdx : Z) (h : Hist) : Hist :=
  if in_blocks internalIdx h then
    match thinkingBlockSigAt internalIdx h with
    | Some EmptyString =>
        let i := Z.to_nat internalIdx in
        let h := h <| thinkingBlockSigs := <[i := sig]> (thinkingBlockSigs h) |> in
        h <| contentBlocks := alter (fun b => mkBlock (b_type b) (Some sig) (b_id b) (b_name b) (b_input b)) i
               (contentBlocks h) |>
    | _ => h
    end
  else h.

(** *** Tool calls *)
Definition input_or_empty (input : string) : string := FirstNonEmptyUntrimmed [TrimSpace input; "{}"].

Definition emitToolCallNonStream (call : toolCall) (s : St) : St :=
  let s := addOutputTokens (call_name call) s in
  let s := addOutputTokens (call_input call) s in
  let inputValue := default (JObj []) (UnmarshalAny (input_or_empty (call_input call))) in
  on_hist (fun h => h <| contentBlocks := contentBlocks h ++
    [mkBlock "tool_use" None (call_id call) (call_name call) inputValue] |>) s.

Definition emitToolCallStream (call : toolCall) (idx : Z) (final : bool) (s : St) : St :=
  if String.eqb (call_id call) EmptyString then s else
  let s := addOutputTokens (call_name call) s in
  let s := addOutputTokens (call_input call) s in
  let inputJSON := input_or_empty (call_input call) in
  let s := lock s in
  let '(s, idx) :=
    if (idx <? 0)%Z
    then let s := on_conn (fun c => c <| blockIndex := (blockIndex c + 1)%Z |>) s in (s, blockIndex (conn s))
    else (s, idx) in
  let s := writeSSEContentBlockStartToolUseLocked idx (call_id call) (call_name call) final s in
  let s := writeSSEContentBlockDeltaInputJSONLocked idx inputJSON final s in
  writeSSEContentBlockStopLocked idx final s.

Definition emitToolUseFromInput (toolID toolName inputStr : string) (s : St) : St :=
  if String.eqb toolID EmptyString || String.eqb toolName EmptyString then s
  else if bool_decide (toolID ∈ toolCallEmitted (calls s)) then s
  else
    let s := on_calls (fun c => c <| toolCallEmitted := {[toolID]} ∪ toolCallEmitted c |>) s in
    let s := addOutputTokens toolName s in
    let inputJSON := input_or_empty inputStr in
    let s := lock s in
    let s := on_calls (fun c => c <| toolCallCount := (toolCallCount c + 1)%Z |>) s in
    let s := on_conn (fun c => c <| blockIndex := (blockIndex c + 1)%Z |>) s in
    let idx := blockIndex (conn s) in
    let s := writeSSEContentBlockStartToolUseLocked idx toolID toolName false s in
    let s := writeSSEContentBlockDeltaInputJSONLocked idx inputJSON false s in
    writeSSEContentBlockStopLocked idx false s.

Definition flushPendingToolCalls (s : St) : St :=
  let s := lock s in
  let pending := pendingToolCalls (calls s) in
  let s := on_calls (fun c => c <| pendingToolCalls := [] |>) s in
  foldl (fun s call => if isStream cfg then emitToolCallStream call (-1) true s
                       else emitToolCallNonStream call s) s pending.

Definition handleToolCallAfterChecks (call : toolCall) (s : St) : St :=
  on_calls (fun c => c <| pendingToolCalls := pendingToolCalls c ++ [call] |>
                       <| toolCallCount := (toolCallCount c + 1)%Z |>) (lock s).

Definition hasAllowedToolName (name : string) : bool :=
  bool_decide (ToLower (TrimSpace name) ∈ allowedToolNames cfg).

Definition allowed_tool (call : toolCall) : bool :=
  if bool_decide (allowedToolNames cfg = ∅) then true
  else
    let lowerName := ToLower (TrimSpace (call_name call)) in
    bool_decide (lowerName ∈ allowedToolNames cfg) ||
    ((String.eqb lowerName "taskoutput" || String.eqb lowerName "taskstop") && hasAllowedToolName "task") ||
    (String.eqb lowerName "task" && taskDelegationAllowed (allowedToolNames cfg) (call_input call)).

(** The fallback text, where the request wants one and none is set. *)
Definition surface (text : string) (s : St) : St :=
  if surfaceToolRejects cfg && String.eqb (emptyOutputFallback (hist s)) EmptyString
  then on_hist (fun h => h <| emptyOutputFallback := text |>) s else s.
Definition count_suppressed (s : St) : St :=
  on_calls (fun c => c <| suppressedToolCalls := (suppressedToolCalls c + 1)%Z |>) s.

Definition shouldAcceptToolCall (call : toolCall) (s : St) : St * bool :=
  let s := lock s in
  let s := if disallowToolCalls cfg
           then surface (suppressedWriteContentFallback (call_name call) (call_input call)) s else s in
  let allowed := allowed_tool call in
  let s := if allowed then s
           else surface "The upstream model attempted to use a tool that is not available in this request." s in
  let s := if disallowToolCalls cfg
           then surface "This request did not provide a compatible tool for the attempted operation." s else s in
  let s := if disallowToolCalls cfg then count_suppressed s else s in
  let s := if allowed then s else count_suppressed s in
  if disallowToolCalls cfg || negb allowed then (s, false)
  else if hasNonProjectSandboxToolPath (call_name call) (call_input call) then
    (surface "The upstream model attempted an operation outside the active project."
       (count_suppressed (lock s)), false)
  else if negb (validToolCallInput (call_name call) (call_input call)) then
    (surface "The upstream model returned an invalid tool request." (count_suppressed (lock s)), false)
  else (s, true).

(** *** Failures *)
Definition hasVisibleOutput (s : St) : St * bool :=
  let s := lock s in
  (s, hasTextOutput (hist s) || (0 <? toolCallCount (calls s))%Z ||
      negb (bool_decide (pendingToolCalls (calls s) = [])) ||
      negb (bool_decide (toolCallEmitted (calls s) = ∅)) ||
      (0 <? String.length (responseText (hist s)))%nat).

Definition hasAnyOutput (s : St) : St * bool :=
  let s := lock s in
  let has := hasReasoningOutput (hist s) || useUpstreamUsage (meter s) in
  if has then (s, true) else hasVisibleOutput s.

Definition hasCommitted (s : St) : St * bool :=
  let s := lock s in (s, messageStartWritten (conn s) || hasReturn (conn s)).

Definition terminalState (s : St) : St * (bool * bool) :=
  let s := lock s in (s, (hasReturn (conn s), requestFailed (conn s))).

Definition claim_failure (c : Conn) : Conn :=
  c <| hasReturn := true |> <| requestFailed := true |> <| returned := true |>.

(** A failed write of the report itself is only logged. *)
Definition put_report (item : WireItem) (chunks : list string) (s : St) : St * bool :=
  let '(c, ok) := put item chunks (conn s) in (s <| conn := c |>, ok).

Definition writeStreamError (category message : string) (s : St) : St :=
  if negb (isStream cfg) then s else
  let s := lock s in
  if hasReturn (conn s) then s else
  let s := on_conn (fun c => claim_failure c <| streamFailure := true |>) s in
  let '(s, go) :=
    if openAI cfg then
      let '(s, ok) := put_report (WErrorChunk category message)
        (writeOpenAIFrame (appendOpenAIError EmptyString category message)) s in
      if ok then let '(s, _) := put_report WDone [sseDoneLine] s in (s, true) else (s, false)
    else
      let '(s, _) := put_report (WError category message)
        (writeSSEFrameBytes "error" (appendAnthropicError EmptyString category message)) s in (s, true) in
  if go && hasFlusher cfg then on_conn (fun c => c <| flushed := length (wire c) |>) s else s.

Definition reportRequestFailure (category message : string) (retryAfter : Duration) (s : St) : St :=
  let '(s, committed) := if isStream cfg then hasCommitted s else (s, false) in
  if committed then writeStreamError category message s
  else
    let s := lock s in
    if hasReturn (conn s) then s
    else
      let s := on_conn claim_failure s in
      let e := NewWithRetryAfter category message (StatusForCategory category) retryAfter in
      on_conn (fun c => c <| wire := wire c ++
        [WHTTPError (app_HTTPStatus e) (app_Code e) (app_Message e) (app_RetryAfter e)] |>) s.

Definition PoolRetriesExhaustedMessage : string :=
  "Request failed: retries exhausted and no available accounts. Please check account statuses in Admin UI or add valid accounts.".

Definition InjectNoAvailableAccountError (lastErr : string) (selectErr : option string) (s : St) : St :=
  let out := ClassifyPoolExhaustion selectErr lastErr in
  let out := if pool_Empty out
             then mkPool (Category (ClassifyUpstreamError lastErr)) PoolRetriesExhaustedMessage else out in
  reportRequestFailure (pool_Category out) (pool_Message out) 0 s.

(** *** Finishing *)
Definition validateStructuredAnswer (s : St) : St * option string :=
  let s := lock s in
  let text := responseText (hist s) in
  (s, match structured cfg with
      | None => None
      | Some check => if String.eqb (TrimSpace text) EmptyString then None else check text
      end).

Definition finalizeCompletion (s : St) : St :=
  let s := lock s in
  if completionLogged (hist s) then s else on_hist (fun h => h <| completionLogged := true |>) s.

(** The event [model.text-delta]. *)
Definition text_delta (delta : string) (s : St) : St :=
  if String.eqb delta EmptyString then s else
  let s := lock s in
  let s := on_hist (fun h => h <| hasTextOutput := true |>) s in
  let '(s, sseIdx, internalIdx) :=
    if (activeTextSSEIndex (conn s) <? 0)%Z then
      let '(s, sseIdx) := ensureBlock BlockText s in
      let s := lock s in
      (s, sseIdx, activeTextBlockIndex (hist s))
    else (s, activeTextSSEIndex (conn s), activeTextBlockIndex (hist s)) in
  let s := if useUpstreamUsage (meter s) then s
           else on_meter (fun m => m <| outputEstimator := Estimator_Add (outputEstimator m) delta |>) s in
  let s := if isStream cfg then s
           else on_hist (fun h => h <| responseText := responseText h +:+ delta |>) s in
  let s := if in_blocks internalIdx (hist s)
           then on_hist (fun h => h <| textBlockBuilders :=
                  append_history internalIdx delta (textBlockBuilders h) |>) s else s in
  writeSSEContentBlockDeltaTextLocked sseIdx delta false s.

Definition has_tool_calls (s : St) : bool :=
  (0 <? toolCallCount (calls s))%Z || negb (bool_decide (pendingToolCalls (calls s) = [])) ||
  negb (bool_decide (toolCallEmitted (calls s) = ∅)).

(** The answer of a request that produced none. *)
Definition empty_fallback (s : St) : St :=
  let '(s, visible) := hasVisibleOutput s in
  if visible then s else
  let s := lock s in
  let fallback := emptyOutputFallback (hist s) in
  if String.eqb fallback EmptyString then s else
  let s := on_meter (fun m => m <| useUpstreamUsage := false |> <| outputTokens := 0%Z |>
             <| outputEstimator := Estimator_Reset (outputEstimator m) |>) (lock s) in
  if returned (conn s) then s else text_delta fallback s.

(** The closing frames of a response that is being finished. *)
Definition finish_body (stopReason : string) (s : St) : St :=
  if isStream cfg then
    let '(s, stop) := popActiveBlockStopDataLocked (lock s) in
    let s := match stop with
             | Some f => emitSSEFrameLocked f false true (lock s)
             | None => s
             end in
    let s := flushPendingToolCalls s in
    let s := finalizeOutputTokens s in
    let s := lock s in
    let s := writeSSEMessageDeltaLocked stopReason (outputTokens (meter s)) true s in
    emitSSEFrameLocked MessageStop false true (lock s)
  else finalizeOutputTokens (flushPendingToolCalls s).

Definition finishResponse (stopReason : string) (s : St) : St :=
  let '(s, stopReason) :=
    if String.eqb stopReason "tool_use" then
      let s := lock s in (s, if has_tool_calls s then stopReason else "end_turn")
    else (s, stopReason) in
  let '(s, mismatch) := validateStructuredAnswer s in
  match mismatch with
  | Some e => reportRequestFailure "schema_mismatch" e 0 s
  | None =>
      let s := empty_fallback s in
      let '(s, opened) := ensureMessageStartLocked (lock s) in
      let '(s, stop) :=
        if isStream cfg && negb opened
        then let s := lock s in (s, negb (messageStartWritten (conn s))) else (s, false) in
      if stop then s else
      let s := lock s in
      if hasReturn (conn s) then s else
      let s := on_conn (fun c => c <| hasReturn := true |> <| returned := true |>) s in
      let s := on_hist (fun h => h <| finalStopReason := stopReason |>) s in
      finalizeCompletion (finish_body stopReason s)
  end.

Definition forceFinishIfMissing (s : St) : St :=
  let s := lock s in
  if hasReturn (conn s) then s
  else finishResponse (if has_tool_calls s then "tool_use" else "end_turn") s.

(** *** Rounds *)
Definition resetRoundState (s : St) : St :=
  let s := closeActiveBlockLocked (lock s) in
  let s := on_conn (fun c => c <| activeThinkingSSEIndex := (-1)%Z |> <| activeTextSSEIndex := (-1)%Z |>
    <| activeBlockType := BlockNone |> <| hasReturn := false |> <| returned := false |>
    <| deferredFlushFrames := 0%Z |> <| deferredFlushBytes := 0%Z |>) s in
  let s := on_hist (fun h => h <| activeThinkingBlockIndex := (-1)%Z |> <| activeTextBlockIndex := (-1)%Z |>
    <| responseText := EmptyString |> <| contentBlocks := [] |> <| textBlockBuilders := [] |>
    <| thinkingBlockBuilders := [] |> <| thinkingBlockSigs := [] |> <| completionLogged := false |>
    <| finalStopReason := EmptyString |> <| hasTextOutput := false |>) s in
  let s := on_calls (fun c => c <| pendingToolCalls := [] |> <| toolCallHandled := ∅ |>
    <| toolCallEmitted := ∅ |> <| toolCallCount := 0%Z |>) s in
  on_meter (fun m => m <| outputTokens := 0%Z |> <| cachedInputTokens := 0%Z |> <| cacheWriteTokens := 0%Z |>
    <| reasoningTokens := 0%Z |> <| usageMetadata := [] |> <| useUpstreamUsage := false |>
    <| outputEstimator := Estimator_Reset (outputEstimator m) |>) s.

(** *** Events *)

(** An upstream message: its type and its event, a map or nil. *)
Record SSEMessage := mkSSEMessage { msg_Type : string; msg_Event : option (list (string * json)) }.

Definition event_map (msg : SSEMessage) : list (string * json) := default [] (msg_Event msg).
Definition event_str (msg : SSEMessage) (k : string) : string := default EmptyString (str_at k (event_map msg)).

Definition extractThinkingSignature (event : list (string * json)) : string :=
  match str_at "signature" event with
  | Some sig => TrimSpace sig
  | None =>
      match obj_field "data" event with
      | Some data => match str_at "signature" data with Some sig => TrimSpace sig | None => EmptyString end
      | None => EmptyString
      end
  end.

Definition eventKey (msg : SSEMessage) : string :=
  if String.eqb (msg_Type msg) "model" then
    match msg_Event msg with
    | Some ev => match str_at "type" ev with Some t => "model." +:+ t | None => msg_Type msg end
    | None => msg_Type msg
    end
  else msg_Type msg.

Definition nonempty (s : string) : bool := negb (String.eqb s EmptyString).

Definition reasoning_start (event : list (string * json)) (s : St) : St :=
  let s := on_hist (fun h => h <| pendingThinkingSig := EmptyString |>) s in
  let sig := extractThinkingSignature event in
  if nonempty sig
  then (ensureBlock BlockThinking (on_hist (fun h => h <| pendingThinkingSig := sig |>) s)).1 else s.

Definition reasoning_delta (event : list (string * json)) (delta : string) (s : St) : St :=
  let s := lock s in
  let sig := pendingThinkingSig (hist s) in
  let '(s, sig) :=
    if nonempty sig then (s, sig)
    else
      let sig := extractThinkingSignature event in
      if nonempty sig then (on_hist (fun h => h <| pendingThinkingSig := sig |>) (lock s), sig) else (s, sig) in
  if String.eqb delta EmptyString then
    if nonempty sig then
      let '(s, _) := ensureBlock BlockThinking s in
      let s := lock s in
      on_hist (fun h => late_signature sig (activeThinkingBlockIndex h) h) s
    else s
  else
    let s := lock s in
    let s := on_hist (fun h => h <| hasReasoningOutput := true |>) s in
    let sseIdx := activeThinkingSSEIndex (conn s) in
    let internalIdx := activeThinkingBlockIndex (hist s) in
    let s := if nonempty sig then on_hist (late_signature sig internalIdx) s else s in
    let '(s, sseIdx, internalIdx) :=
      if (sseIdx <? 0)%Z then
        let '(s, sseIdx) := ensureBlock BlockThinking s in
        let s := lock s in
        (s, sseIdx, activeThinkingBlockIndex (hist s))
      else (s, sseIdx, internalIdx) in
    let s := if isStream cfg && negb (useUpstreamUsage (meter s))
             then on_meter (fun m => m <| outputTokens := (outputTokens m + EstimateTextTokens delta)%Z |>) s
             else s in
    let s := if in_blocks internalIdx (hist s)
             then on_hist (fun h => h <| thinkingBlockBuilders :=
                    append_history internalIdx delta (thinkingBlockBuilders h) |>) s else s in
    writeSSEContentBlockDeltaThinkingLocked sseIdx delta false s.

Definition tool_call_event (msg : SSEMessage) (s : St) : St :=
  let toolID := event_str msg "toolCallId" in
  let '(toolName, inputStr) := normalizeUpstreamToolCall (event_str msg "toolName") (event_str msg "input") in
  let s := lock s in
  match rewriteToolCallToClient (clientTools cfg) toolName inputStr with
  | Err _ => on_conn (fun c => c <| panicked := true |>) s
  | Ok (toolName, inputStr) =>
      if String.eqb toolID EmptyString then s
      else if bool_decide (toolID ∈ toolCallHandled (calls s)) then s
      else
        let call := mkToolCall toolID toolName inputStr in
        let '(s, accepted) := shouldAcceptToolCall call s in
        if negb accepted then s
        else
          let s := on_calls (fun c => c <| toolCallHandled := {[toolID]} ∪ toolCallHandled c |>) s in
          if isStream cfg then emitToolUseFromInput toolID toolName inputStr s
          else handleToolCallAfterChecks call s
  end.

Definition upstream_stop_reason (event : list (string * json)) : string :=
  match str_at "finishReason" event with
  | Some r =>
      if String.eqb r "tool-calls" || String.eqb r "tool_use" then "tool_use"
      else if String.eqb r "stop" || String.eqb r "end_turn" then "end_turn"
      else if String.eqb r "max_tokens" || String.eqb r "max_token_limit" then "max_tokens"
      else "end_turn"
  | None => "end_turn"
  end.

Definition finish_event (event : list (string * json)) (s : St) : St :=
  let s := match obj_field "usage" event with
           | Some usage => applyUpstreamUsageTokens usage s
           | None => s
           end in
  let stopReason := upstream_stop_reason event in
  let s := lock s in
  let toolUseEmitted := negb (bool_decide (toolCallEmitted (calls s) = ∅)) in
  let hadToolCalls := has_tool_calls s in
  let stopReason := if toolUseEmitted then "tool_use" else stopReason in
  let stopReason := if String.eqb stopReason "tool_use" && negb hadToolCalls then "end_turn" else stopReason in
  finishResponse stopReason (closeActiveBlock s).

Definition handleMessage (msg : SSEMessage) (s : St) : St :=
  if panicked (conn s) then s
  else if returned (conn s) then s
  else
    let key := eventKey msg in
    let event := event_map msg in
    if suppressThinking cfg && HasPrefix key "model.reasoning-" then
      if String.eqb key "model.reasoning-delta" && nonempty (event_str msg "delta")
      then on_hist (fun h => h <| hasReasoningOutput := true |>) (lock s) else s
    else if String.eqb key "model.reasoning-start" then reasoning_start event s
    else if String.eqb key "model.reasoning-delta" then reasoning_delta event (event_str msg "delta") s
    else if String.eqb key "model.reasoning-end" then closeActiveBlock s
    else if String.eqb key "model.text-start" then (ensureBlock BlockText s).1
    else if String.eqb key "model.text-delta" then text_delta (event_str msg "delta") s
    else if String.eqb key "model.text-end" then closeActiveBlock s
    else if String.eqb key "model.tool-call" then tool_call_event msg s
    else if String.eqb key "model.tokens-used" then applyUpstreamUsageTokens event s
    else if String.eqb key "model.finish" then finish_event event s
    else s.

(** *** Runs *)

(** What the request's goroutine does with the handler: feed it events, finish
    it, report a failure, and start another round where the response is not over
    (the guard of the retry loop). *)
Inductive Op : Type :=
| OpMessage (msg : SSEMessage)
| OpForceFinish
| OpReport (category message : string) (retryAfter : Duration)
| OpNoAccount (lastErr : string) (selectErr : option string)
| OpNextRound.

Definition next_round (s : St) : St :=
  let '(s, (over, _)) := terminalState s in
  if over then s else resetRoundState s.

Definition step (op : Op) (s : St) : St :=
  if panicked (conn s) then s else
  match op with
  | OpMessage msg => handleMessage msg s
  | OpForceFinish => forceFinishIfMissing s
  | OpReport category message retryAfter => reportRequestFailure category message retryAfter s
  | OpNoAccount lastErr selectErr => InjectNoAvailableAccountError lastErr selectErr s
  | OpNextRound => next_round s
  end.

Definition run (ops : list Op) (s : St) : St := foldl (fun s op => step op s) s ops.
End Handler.

(** ** The client's side of the event stream

    What a client of the Anthropic protocol takes: one [message_start] first;
    blocks started at consecutive positions, their deltas of the type of the
    block, each block stopped once; [message_delta] once every block is stopped,
    then [message_stop]; or one error, in band or as the HTTP response itself;
    nothing after either. A torn item ends what can be required. *)
Inductive kind := KText | KThinking | KTool.
#[global] Instance kind_eq_dec : EqDecision kind. Proof. solve_decision. Defined.

Inductive Client : Type :=
| CInit
| COpen (opens : list (Z * kind)) (next : Z)
| CClosing
| CDone
| CFailed
| CBroken.

Definition open_block (opens : list (Z * kind)) (next idx : Z) (k : kind) : option Client :=
  if (idx =? next)%Z then Some (COpen ((idx, k) :: opens) (next + 1)) else None.
Definition in_block (opens : list (Z * kind)) (next idx : Z) (k : kind) : option Client :=
  if bool_decide ((idx, k) ∈ opens) then Some (COpen opens next) else None.

Definition frame_step (opens : list (Z * kind)) (next : Z) (f : Frame) : option Client :=
  match f with
  | MessageStart _ _ _ _ => None
  | BlockStartText i => open_block opens next i KText
  | BlockStartThinking i _ => open_block opens next i KThinking
  | BlockStartToolUse i _ _ => open_block opens next i KTool
  | DeltaText i _ => in_block opens next i KText
  | DeltaThinking i _ => in_block opens next i KThinking
  | DeltaInputJSON i _ => in_block opens next i KTool
  | BlockStop i =>
      if bool_decide (i ∈ opens.*1)
      then Some (COpen (filter (fun ik => ik.1 <> i) opens) next) else None
  | MessageDelta _ _ => match opens with [] => Some CClosing | _ => None end
  | MessageStop => None
  end.

Definition client_step (c : Client) (i : WireItem) : option Client :=
  match c, i with
  | CBroken, _ | _, WTorn => Some CBroken
  | CInit, WFrame (MessageStart _ _ _ _) => Some (COpen [] 0)
  | CInit, WHTTPError _ _ _ _ => Some CFailed
  | COpen opens next, WFrame f => frame_step opens next f
  | COpen opens next, WKeepAlive => Some c
  | COpen _ _, WError _ _ => Some CFailed
  | CClosing, WFrame MessageStop => Some CDone
  | _, _ => None
  end.

Definition client_run (w : list WireItem) : option Client :=
  foldl (fun c i => c ≫= fun c => client_step c i) (Some CInit) w.

Lemma client_run_snoc w i : client_run (w ++ [i]) = client_run w ≫= fun c => client_step c i.
Proof. unfold client_run. by rewrite foldl_app. Qed.

(** Two states that differ off the connection. *)
Ltac same_conn := cbv zeta; repeat match goal with |- context [if ?b then _ else _] => destruct b end; reflexivity.

(** ** The invariant of the relay *)
Section Proofs.
  Context `{UnicodeTable} (cfg : Cfg) (wfail : nat -> bool) (tick : nat -> nat).
  Hypothesis Hstream : isStream cfg = true.
  Hypothesis Hformat : openAI cfg = false.

(** The fields that no write touches. *)
Definition core (c : Conn) : Z * BlockType * Z * Z * bool :=
  (blockIndex c, activeBlockType c, activeThinkingSSEIndex c, activeTextSSEIndex c, panicked c).

Definition broken (c : Conn) : Prop := client_run (wire c) = Some CBroken.
Definition over (c : Conn) : Prop :=
  hasReturn c = true /\ returned c = true /\ (client_run (wire c) = Some CDone \/ client_run (wire c) = Some CFailed).
Definition live (o : list (Z * kind)) (n : Z) (c : Conn) : Prop :=
  hasReturn c = false /\ requestFailed c = false /\ returned c = false /\
  if messageStartWritten c then client_run (wire c) = Some (COpen o n)
  else client_run (wire c) = Some CInit /\ o = [] /\ n = 0%Z.
(** The response claimed by a finisher that has not written its last frame. *)
Definition finishing (k : Client) (c : Conn) : Prop :=
  hasReturn c = true /\ returned c = true /\ (broken c \/ client_run (wire c) = Some k).
Definition good (o : list (Z * kind)) (n : Z) (c : Conn) : Prop := broken c \/ live o n c \/ over c.
Definition alive (o : list (Z * kind)) (n : Z) (c : Conn) : Prop := broken c \/ live o n c.

(** One item put on the wire. *)
Lemma put_or_mark_spec item chunks k s :
  let s' := put_or_mark wfail item chunks k s in
  exists c, core c = core (conn s) /\ messageStartWritten c = messageStartWritten (conn s) /\
  ((wire c = wire (conn s) ++ [item] /\ hasReturn c = hasReturn (conn s) /\
    returned c = returned (conn s) /\ requestFailed c = requestFailed (conn s) /\ s' = k (s <| conn := c |>)) \/
   (wire c = wire (conn s) ++ [WTorn] /\ s' = markWriteErrorLocked (s <| conn := c |>))).
Proof using.
  unfold put_or_mark, put. destruct (try_writes wfail chunks (wcount (conn s))) as [[] n];
    eexists (conn s <| wire := _ |> <| wcount := _ |>);
    (split; [reflexivity|]); (split; [reflexivity|]); [left|right]; repeat split.
Qed.

Lemma flush_spec event len imm force c :
  let c' := flushSSEWithLenLocked cfg event len imm force c in
  core c' = core c /\ messageStartWritten c' = messageStartWritten c /\ wire c' = wire c /\
  hasReturn c' = hasReturn c /\ returned c' = returned c /\ requestFailed c' = requestFailed c.
Proof using. unfold flushSSEWithLenLocked. split_ifs; done. Qed.

(** What putting an item does to the connection. *)
Definition puts (item : WireItem) (c c' : Conn) : Prop :=
  core c' = core c /\ messageStartWritten c' = messageStartWritten c /\
  ((wire c' = wire c ++ [item] /\ hasReturn c' = hasReturn c /\ returned c' = returned c /\
    requestFailed c' = requestFailed c) \/
   (wire c' = wire c ++ [WTorn] /\ hasReturn c' = true /\ returned c' = true /\ requestFailed c' = true)).

Lemma put_or_mark_puts item chunks event len imm force s :
  puts item (conn s) (conn (put_or_mark wfail item chunks (fun s =>
    on_conn (flushSSEWithLenLocked cfg event len imm force) s) s)).
Proof using.
  destruct (put_or_mark_spec item chunks (fun s => on_conn (flushSSEWithLenLocked cfg event len imm force) s) s)
    as (c & Hc & Hm & [(Hw & Hr & Hr' & Hf & Hs)|[Hw Hs]]); simpl in Hs; rewrite Hs; clear Hs.
  - cbn. destruct (flush_spec event len imm force c) as (F1 & F2 & F3 & F4 & F5 & F6).
    split; [by rewrite F1|]. split; [by rewrite F2|]. left. by rewrite F3, F4, F5, F6.
  - split; [exact Hc|]. split; [exact Hm|]. right. done.
Qed.

Lemma emit_puts f imm final s :
  puts (WFrame f) (conn s) (conn (emitSSEFrameLocked cfg wfail f imm final s)).
Proof using Hstream Hformat. unfold emitSSEFrameLocked. rewrite Hstream, Hformat. apply put_or_mark_puts. Qed.

Lemma puts_client item c c' k k' :
  puts item c c' -> client_run (wire c) = Some k -> client_step k item = Some k' ->
  broken c' \/ (client_run (wire c') = Some k' /\ hasReturn c' = hasReturn c /\
                returned c' = returned c /\ requestFailed c' = requestFailed c).
Proof using.
  intros (_ & _ & [(Hw & Hrest)|(Hw & _)]) Hk Hstep.
  - right. rewrite Hw, client_run_snoc, Hk. done.
  - left. unfold broken. rewrite Hw, client_run_snoc, Hk. by destruct k.
Qed.

Lemma puts_broken item c c' : puts item c c' -> broken c -> broken c'.
Proof using.
  unfold broken. intros (_ & _ & [(Hw & _)|(Hw & _)]) Hb; by rewrite Hw, client_run_snoc, Hb.
Qed.

Lemma puts_core item c c' : puts item c c' -> core c' = core c.
Proof using. by intros (? & _). Qed.

Lemma puts_live item c c' o n o' n' :
  puts item c c' -> live o n c -> messageStartWritten c = true ->
  client_step (COpen o n) item = Some (COpen o' n') -> alive o' n' c'.
Proof using.
  intros Hp (H1 & H2 & H3 & Hk) Hm Hstep. rewrite Hm in Hk.
  destruct (puts_client _ _ _ _ _ Hp Hk Hstep) as [?|(Hk' & Hr & Hr' & Hf)]; [by left|].
  right. unfold live. destruct Hp as (_ & Hm' & _). rewrite Hm', Hm, Hr, Hr', Hf. done.
Qed.

Lemma alive_good o n c : alive o n c -> good o n c.
Proof using. unfold alive, good. tauto. Qed.
Lemma good_alive o n c : good o n c -> hasReturn c = false -> alive o n c.
Proof using. intros [?|[?|(? & _)]] ?; [by left|by right|congruence]. Qed.

(** *** The running stream *)
Lemma writeMessageStart_good o n s :
  live o n (conn s) -> messageStartWritten (conn s) = false ->
  let c' := conn (writeMessageStartLocked cfg wfail s) in
  core c' = core (conn s) /\ messageStartWritten c' = true /\ (broken c' \/ live o n c').
Proof using Hstream Hformat.
  intros (H1 & H2 & H3 & Hk) Hm. rewrite Hm in Hk. destruct Hk as (Hk & -> & ->).
  unfold writeMessageStartLocked. rewrite Hstream, H1. cbn [negb orb].
  set (f := MessageStart _ _ _ _). set (s1 := on_conn _ s).
  pose proof (emit_puts f true false s1) as Hp. set (c' := conn (emitSSEFrameLocked cfg wfail f true false s1)) in *.
  assert (Hk1 : client_run (wire (conn s1)) = Some CInit) by done.
  split; [by rewrite (puts_core _ _ _ Hp)|].
  pose proof Hp as (_ & Hm' & _). split; [by rewrite Hm'|].
  destruct (puts_client _ _ _ _ (COpen [] 0) Hp Hk1 eq_refl) as [?|(Hk' & Hr & Hr' & Hf)]; [by left|right].
  unfold live. rewrite Hm', Hr, Hr', Hf. done.
Qed.

Lemma ensure_good o n s :
  good o n (conn s) -> hasReturn (conn s) = false ->
  let '(s', opened) := ensureMessageStartLocked cfg wfail s in
  core (conn s') = core (conn s) /\
  (broken (conn s') \/ (live o n (conn s') /\ messageStartWritten (conn s') = true /\ opened = true)).
Proof using Hstream Hformat.
  intros Hg Hr. unfold ensureMessageStartLocked. destruct (messageStartWritten (conn s)) eqn:Hm.
  { split; [done|]. destruct Hg as [?|[?|(? & _)]]; [by left|by right|congruence]. }
  rewrite Hstream, Hr. cbn [negb orb]. destruct Hg as [Hb|[Hl|(? & _)]]; [| |congruence].
  - destruct (requestFailed (conn s)); cbn [orb]; [by split; [|left]|].
    unfold writeMessageStartLocked. rewrite Hstream, Hr. cbn [negb orb]. set (s1 := on_conn _ s).
    pose proof (emit_puts (MessageStart (msgID cfg) (pendingModel cfg) (inputTokens (meter s)) 0) true false s1) as Hp.
    split; [by rewrite (puts_core _ _ _ Hp)|]. left. by apply (puts_broken _ _ _ Hp).
  - pose proof Hl as (_ & -> & _). cbn [orb].
    destruct (writeMessageStart_good o n s Hl Hm) as (Hc & Hm' & Hd). split; [done|].
    rewrite Hm'. destruct Hd; [by left|by right].
Qed.

Lemma write_good o n o' n' f imm s :
  good o n (conn s) -> frame_step o n f = Some (COpen o' n') ->
  let c' := conn (writeSSEBytesLockedWithHint cfg wfail f imm s) in
  core c' = core (conn s) /\ good o' n' c'.
Proof using Hstream Hformat.
  intros Hg Hstep. unfold writeSSEBytesLockedWithHint. rewrite Hstream. cbn [negb orb].
  destruct (hasReturn (conn s)) eqn:Hr.
  { split; [done|]. destruct Hg as [?|[(? & _)|?]]; [by left|congruence|by right; right]. }
  pose proof (ensure_good o n s Hg Hr) as He.
  destruct (ensureMessageStartLocked cfg wfail s) as [s' opened]. destruct He as [Hc Hd].
  destruct opened; cbn beta iota.
  - pose proof (emit_puts f imm false s') as Hp. split; [by rewrite (puts_core _ _ _ Hp)|].
    destruct Hd as [Hb|(Hl & Hm & _)]; [left; by apply (puts_broken _ _ _ Hp)|].
    by apply alive_good, (puts_live _ _ _ _ _ _ _ Hp Hl Hm).
  - split; [done|]. destruct Hd as [?|(_ & _ & ?)]; [by left|done].
Qed.

(** The unconditional writer of [closeActiveBlockLocked]: it does not open the
    stream, so it is used where the stream is open. *)
Lemma write_open_good o n o' n' f s :
  good o n (conn s) -> frame_step o n f = Some (COpen o' n') ->
  (live o n (conn s) -> messageStartWritten (conn s) = true) ->
  let c' := conn (writeSSEBytesLocked cfg wfail f s) in
  core c' = core (conn s) /\ good o' n' c'.
Proof using Hstream Hformat.
  intros Hg Hstep Hm. unfold writeSSEBytesLocked. rewrite Hstream. cbn [negb orb].
  destruct (hasReturn (conn s)) eqn:Hr.
  { split; [done|]. destruct Hg as [?|[(? & _)|?]]; [by left|congruence|by right; right]. }
  pose proof (emit_puts f (shouldFlushSSEImmediately (event_of f) (payload f)) false s) as Hp.
  split; [by rewrite (puts_core _ _ _ Hp)|].
  destruct Hg as [Hb|[Hl|(? & _)]]; [left; by apply (puts_broken _ _ _ Hp)| |congruence].
  by apply alive_good, (puts_live _ _ _ _ _ _ _ Hp Hl (Hm Hl)).
Qed.

Lemma write_open_alive o n o' n' f s :
  alive o n (conn s) -> frame_step o n f = Some (COpen o' n') ->
  (live o n (conn s) -> messageStartWritten (conn s) = true) ->
  alive o' n' (conn (writeSSEBytesLocked cfg wfail f s)).
Proof using Hstream Hformat.
  intros Hg Hstep Hm. unfold writeSSEBytesLocked. rewrite Hstream. cbn [negb orb].
  destruct (hasReturn (conn s)) eqn:Hr.
  { destruct Hg as [?|(? & _)]; [by left|congruence]. }
  pose proof (emit_puts f (shouldFlushSSEImmediately (event_of f) (payload f)) false s) as Hp.
  destruct Hg as [Hb|Hl]; [left; by apply (puts_broken _ _ _ Hp)|].
  by apply (puts_live _ _ _ _ _ _ _ Hp Hl (Hm Hl)).
Qed.

(** *** The keep-alive goroutine *)
Lemma keepalive_puts s :
  let s' := writeKeepAlive_locked cfg wfail s in
  conn s' = conn s \/ (hasReturn (conn s) = false /\ messageStartWritten (conn s) = true /\
                       puts WKeepAlive (conn s) (conn s')).
Proof using Hstream.
  unfold writeKeepAlive_locked. rewrite Hstream. cbn [negb].
  destruct (hasReturn (conn s)) eqn:Hr; [by left|].
  destruct (messageStartWritten (conn s)) eqn:Hm; cbn [negb]; [right|by left].
  split; [done|]. split; [done|]. apply put_or_mark_puts.
Qed.

Lemma keepalive_good o n s :
  good o n (conn s) ->
  let c' := conn (writeKeepAlive_locked cfg wfail s) in
  core c' = core (conn s) /\ messageStartWritten c' = messageStartWritten (conn s) /\ good o n c'.
Proof using Hstream.
  intros Hg. destruct (keepalive_puts s) as [->|(Hr & Hm & Hp)]; [done|].
  pose proof Hp as (Hc & Hm' & _). split; [done|]. split; [done|].
  destruct Hg as [Hb|[Hl|(? & _)]]; [left; by apply (puts_broken _ _ _ Hp)| |congruence].
  by apply alive_good, (puts_live _ _ _ _ _ _ _ Hp Hl Hm).
Qed.

Lemma keepalive_alive o n s : alive o n (conn s) -> alive o n (conn (writeKeepAlive_locked cfg wfail s)).
Proof using Hstream.
  intros Hg. destruct (keepalive_puts s) as [->|(Hr & Hm & Hp)]; [done|].
  destruct Hg as [Hb|Hl]; [left; by apply (puts_broken _ _ _ Hp)|].
  by apply (puts_live _ _ _ _ _ _ _ Hp Hl Hm).
Qed.

Lemma lock_alive o n s : alive o n (conn s) -> alive o n (conn (lock cfg wfail tick s)).
Proof using Hstream.
  intros Hg. unfold lock. generalize (tick (locks (conn s))) as k. intros k.
  enough (Hi : alive o n (conn (Nat.iter k (writeKeepAlive_locked cfg wfail) s))) by exact Hi.
  induction k as [|k IH]; [done|]. rewrite Nat.iter_succ. by apply keepalive_alive.
Qed.

Lemma lock_good o n s :
  good o n (conn s) ->
  let c' := conn (lock cfg wfail tick s) in
  core c' = core (conn s) /\ messageStartWritten c' = messageStartWritten (conn s) /\ good o n c'.
Proof using Hstream.
  intros Hg. unfold lock. generalize (tick (locks (conn s))) as k. intros k.
  assert (Hi : let c' := conn (Nat.iter k (writeKeepAlive_locked cfg wfail) s) in
    core c' = core (conn s) /\ messageStartWritten c' = messageStartWritten (conn s) /\ good o n c').
  { induction k as [|k IH]; [done|]. cbv zeta. rewrite Nat.iter_succ. destruct IH as (Hc & Hm & Hgk).
    destruct (keepalive_good o n _ Hgk) as (Hc' & Hm' & Hg'). by rewrite Hc', Hm'. }
  exact Hi.
Qed.

(** Once the response has returned, the goroutine adds nothing. *)
Lemma lock_returned s : hasReturn (conn s) = true ->
  let c' := conn (lock cfg wfail tick s) in
  core c' = core (conn s) /\ wire c' = wire (conn s) /\ hasReturn c' = true /\
  returned c' = returned (conn s) /\ messageStartWritten c' = messageStartWritten (conn s).
Proof using Hstream.
  intros Hr. unfold lock. generalize (tick (locks (conn s))) as k. intros k.
  assert (Hi : conn (Nat.iter k (writeKeepAlive_locked cfg wfail) s) = conn s).
  { induction k as [|k IH]; [done|]. rewrite Nat.iter_succ.
    destruct (keepalive_puts (Nat.iter k (writeKeepAlive_locked cfg wfail) s)) as [He|(Hr' & _)].
    - etrans; [exact He|exact IH].
    - rewrite IH in Hr'. congruence. }
  unfold on_conn. cbn -[Nat.iter]. rewrite Hi. done.
Qed.

(** *** The block positions *)
Definition opens (c : Conn) : list (Z * kind) :=
  match activeBlockType c with
  | BlockNone => []
  | BlockThinking => [(activeThinkingSSEIndex c, KThinking)]
  | BlockText => [(activeTextSSEIndex c, KText)]
  end.

Definition core_ok (c : Conn) : Prop :=
  (-1 <= blockIndex c)%Z /\
  match activeBlockType c with
  | BlockNone => activeThinkingSSEIndex c = (-1)%Z /\ activeTextSSEIndex c = (-1)%Z
  | BlockThinking => (0 <= activeThinkingSSEIndex c <= blockIndex c)%Z /\ activeTextSSEIndex c = (-1)%Z
  | BlockText => activeThinkingSSEIndex c = (-1)%Z /\ (0 <= activeTextSSEIndex c <= blockIndex c)%Z
  end.

Definition inv (c : Conn) : Prop := core_ok c /\ good (opens c) (blockIndex c + 1) c.

Lemma core_eq c c' : core c' = core c ->
  blockIndex c' = blockIndex c /\ activeBlockType c' = activeBlockType c /\
  activeThinkingSSEIndex c' = activeThinkingSSEIndex c /\ activeTextSSEIndex c' = activeTextSSEIndex c /\
  opens c' = opens c /\ (core_ok c -> core_ok c').
Proof using.
  unfold core. intros [= H1 H2 H3 H4 H5]. repeat (split; [done|]).
  split; [unfold opens; by rewrite H2, H3, H4|]. unfold core_ok. by rewrite H1, H2, H3, H4.
Qed.

Lemma inv_core c c' :
  core c' = core c -> core_ok c -> good (opens c) (blockIndex c + 1) c' -> inv c'.
Proof using.
  intros Hc Hok Hg. destruct (core_eq c c' Hc) as (H1 & _ & _ & _ & H5 & H6).
  split; [by apply H6|]. by rewrite H1, H5.
Qed.

Lemma lock_inv s : inv (conn s) ->
  core (conn (lock cfg wfail tick s)) = core (conn s) /\ inv (conn (lock cfg wfail tick s)).
Proof using Hstream.
  intros [Hok Hg]. destruct (lock_good _ _ s Hg) as (Hc & _ & Hg'). split; [done|].
  by apply (inv_core (conn s)).
Qed.

Lemma write_inv o' n' f imm s :
  inv (conn s) -> frame_step (opens (conn s)) (blockIndex (conn s) + 1) f = Some (COpen o' n') ->
  o' = opens (conn s) -> n' = (blockIndex (conn s) + 1)%Z ->
  core (conn (writeSSEBytesLockedWithHint cfg wfail f imm s)) = core (conn s) /\
  inv (conn (writeSSEBytesLockedWithHint cfg wfail f imm s)).
Proof using Hstream Hformat.
  intros [Hok Hg] Hstep -> ->. destruct (write_good _ _ _ _ f imm s Hg Hstep) as [Hc Hg'].
  split; [done|]. by apply (inv_core (conn s)).
Qed.

Lemma close_step idx k n s1 :
  good [(idx, k)] n (conn s1) -> core_ok (conn s1) -> opens (conn s1) = [] ->
  n = (blockIndex (conn s1) + 1)%Z ->
  let s' := writeSSEBytesLocked cfg wfail (BlockStop idx) s1 in
  core (conn s') = core (conn s1) /\ inv (conn s').
Proof using Hstream Hformat.
  intros Hg Hok Ho Hn.
  destruct (write_open_good [(idx, k)] n [] n (BlockStop idx) s1 Hg) as [Hc Hg'].
  - cbn. rewrite bool_decide_true by set_solver. rewrite decide_False by (cbn; naive_solver). done.
  - intros (_ & _ & _ & Hl). destruct (messageStartWritten (conn s1)); [done|]. by destruct Hl as (_ & ? & _).
  - split; [done|]. apply (inv_core (conn s1)); [done|done|]. by rewrite Ho, <- Hn.
Qed.

Lemma close_inv s : inv (conn s) ->
  inv (conn (closeActiveBlockLocked cfg wfail s)) /\
  activeBlockType (conn (closeActiveBlockLocked cfg wfail s)) = BlockNone /\
  blockIndex (conn (closeActiveBlockLocked cfg wfail s)) = blockIndex (conn s).
Proof using Hstream Hformat.
  intros Hinv0. pose proof Hinv0 as [Hok Hg]. unfold closeActiveBlockLocked, popActiveBlockStopDataLocked.
  unfold core_ok in Hok. unfold opens in Hg.
  destruct (activeBlockType (conn s)) eqn:Ha; [by split|..];
  match goal with |- context [writeSSEBytesLocked _ _ (BlockStop ?i) ?s1] =>
    match type of Hg with good [(_, ?k)] ?n _ =>
      destruct (close_step i k n s1 Hg) as [Hc Hinv];
        [split; [apply Hok|]; cbn; lia|done|done|];
      split; [done|]; destruct (core_eq _ _ Hc) as (-> & -> & _); done end end.
Qed.

(** What a block that is being opened needs of the state: no block is open. *)
Lemma opening f (b : BlockType) s s1 :
  inv (conn s) -> activeBlockType (conn s) = BlockNone ->
  good [] (blockIndex (conn s) + 1) (conn s1) ->
  core_ok (conn s1) -> blockIndex (conn s1) = (blockIndex (conn s) + 1)%Z ->
  (exists k, frame_step [] (blockIndex (conn s) + 1) f =
     open_block [] (blockIndex (conn s) + 1) (blockIndex (conn s1)) k /\
     opens (conn s1) = [(blockIndex (conn s1), k)]) ->
  let s' := writeSSEBytesLockedWithHint cfg wfail f true s1 in
  core (conn s') = core (conn s1) /\ inv (conn s').
Proof using Hstream Hformat.
  intros _ _ Hg Hok Hb (k & Hf & Ho). cbv zeta.
  unfold open_block in Hf. rewrite Hb, Z.eqb_refl in Hf.
  destruct (write_good _ _ _ _ f true s1 Hg Hf) as [Hc Hg']. split; [done|].
  apply (inv_core (conn s1)); [done|done|]. rewrite Ho, Hb. exact Hg'.
Qed.

Lemma open_block_inv (b : BlockType) s :
  b <> BlockNone -> inv (conn s) -> activeBlockType (conn s) = BlockNone ->
  let r := match b with BlockThinking => open_thinking cfg wfail s | _ => open_text cfg wfail s end in
  inv (conn r.1) /\ activeBlockType (conn r.1) = b /\
  r.2 = (match b with BlockThinking => activeThinkingSSEIndex (conn r.1) | _ => activeTextSSEIndex (conn r.1) end).
Proof using Hstream Hformat.
  intros Hb Hi Ha. pose proof Hi as [Hok Hg].
  assert (Ho : opens (conn s) = []) by (unfold opens; by rewrite Ha). rewrite Ho in Hg.
  unfold core_ok in Hok. rewrite Ha in Hok. destruct Hok as (Hbi & Hth & Htx).
  destruct b; [done| |]; cbv zeta; unfold open_thinking, open_text, writeSSEContentBlockStartTextLocked, write_block;
  cbn [fst snd];
  match goal with |- context [writeSSEBytesLockedWithHint _ _ ?f ?imm ?s1] =>
    destruct (opening f BlockNone s s1 Hi Ha) as [Hc Hinv] end.
  all: first
    [ exact Hg
    | (split; [cbn; lia|]; cbn; lia)
    | reflexivity
    | (exists KThinking; split; reflexivity)
    | (exists KText; split; reflexivity)
    | idtac ].
  all: destruct (core_eq _ _ Hc) as (H1 & H2 & H3 & H4 & _ & _).
  all: split; [exact Hinv|]; split; [exact H2|]; symmetry; (exact H3 || exact H4).
Qed.

Definition active_index (b : BlockType) (c : Conn) : Z :=
  match b with BlockThinking => activeThinkingSSEIndex c | _ => activeTextSSEIndex c end.

Lemma ensureBlock_inv (b : BlockType) s :
  b <> BlockNone -> (b = BlockThinking -> suppressThinking cfg = false) -> inv (conn s) ->
  let r := ensureBlock cfg wfail tick b s in
  inv (conn r.1) /\ activeBlockType (conn r.1) = b /\ r.2 = active_index b (conn r.1).
Proof using Hstream Hformat.
  intros Hb Hsup Hi. cbv zeta. unfold ensureBlock.
  replace (bool_decide (b = BlockThinking) && suppressThinking cfg) with false
    by (case_bool_decide; [rewrite Hsup|]; done).
  destruct (lock_inv s Hi) as [_ Hi1]. set (s1 := lock cfg wfail tick s) in *.
  set (s2 := if _ && _ then closeActiveBlockLocked cfg wfail s1 else s1).
  assert (H2 : inv (conn s2) /\ (activeBlockType (conn s2) = b \/ activeBlockType (conn s2) = BlockNone)).
  { unfold s2. destruct (close_inv s1 Hi1) as (Hc & Ha & _).
    do 2 case_bool_decide; cbn [negb andb]; auto. }
  destruct H2 as [Hi2 Ha2]. clearbody s2. clear s1 Hi1.
  destruct (bool_decide (activeBlockType (conn s2) = b)) eqn:Hab.
  - apply bool_decide_eq_true_1 in Hab. destruct b; [done|..]; rewrite bool_decide_true by done; done.
  - apply bool_decide_eq_false_1 in Hab. destruct Ha2 as [|Ha2]; [done|].
    pose proof (open_block_inv b s2 Hb Hi2 Ha2) as Ho. cbv zeta in Ho.
    destruct b; [done|..]; rewrite bool_decide_false by done; exact Ho.
Qed.

(** A delta for the block that is open. *)
Lemma delta_inv (b : BlockType) f imm s :
  inv (conn s) -> activeBlockType (conn s) = b ->
  (b = BlockText /\ (exists t, f = DeltaText (activeTextSSEIndex (conn s)) t) \/
   b = BlockThinking /\ (exists t, f = DeltaThinking (activeThinkingSSEIndex (conn s)) t)) ->
  inv (conn (writeSSEBytesLockedWithHint cfg wfail f imm s)).
Proof using Hstream Hformat.
  intros Hi Ha Hf. eapply write_inv; [exact Hi| |done|done].
  unfold opens. rewrite Ha. destruct Hf as [[-> [t ->]]|[-> [t ->]]]; cbn; unfold in_block;
    by rewrite bool_decide_true by set_solver.
Qed.

Lemma active_text c : core_ok c -> (activeTextSSEIndex c <? 0)%Z = false -> activeBlockType c = BlockText.
Proof using. intros [_ Hc] Hlt%Z.ltb_ge. destruct (activeBlockType c); [lia|lia|done]. Qed.
Lemma active_thinking c : core_ok c -> (activeThinkingSSEIndex c <? 0)%Z = false -> activeBlockType c = BlockThinking.
Proof using. intros [_ Hc] Hlt%Z.ltb_ge. destruct (activeBlockType c); [lia|done|lia]. Qed.


Lemma delta_text_inv idx delta s s' :
  inv (conn s) -> activeBlockType (conn s) = BlockText -> idx = activeTextSSEIndex (conn s) ->
  conn s' = conn s -> inv (conn (writeSSEContentBlockDeltaTextLocked cfg wfail idx delta false s')).
Proof using Hstream Hformat.
  intros Hi Ha -> Hc. unfold writeSSEContentBlockDeltaTextLocked, write_block.
  eapply (delta_inv BlockText); rewrite ?Hc; [exact Hi|exact Ha|left; split; [done|by eexists]].
Qed.
Lemma delta_thinking_inv idx delta s s' :
  inv (conn s) -> activeBlockType (conn s) = BlockThinking -> idx = activeThinkingSSEIndex (conn s) ->
  conn s' = conn s -> inv (conn (writeSSEContentBlockDeltaThinkingLocked cfg wfail idx delta false s')).
Proof using Hstream Hformat.
  intros Hi Ha -> Hc. unfold writeSSEContentBlockDeltaThinkingLocked, write_block.
  eapply (delta_inv BlockThinking); rewrite ?Hc; [exact Hi|exact Ha|right; split; [done|by eexists]].
Qed.

(** The block a delta belongs to: the open one, or one opened for it. *)
Lemma locked_block (b : BlockType) s :
  b <> BlockNone -> (b = BlockThinking -> suppressThinking cfg = false) -> inv (conn s) ->
  let s1 := (ensureBlock cfg wfail tick b s).1 in
  let s2 := lock cfg wfail tick s1 in
  inv (conn s2) /\ activeBlockType (conn s2) = b /\
  (ensureBlock cfg wfail tick b s).2 = active_index b (conn s2).
Proof using Hstream Hformat.
  intros Hb Hs Hi. destruct (ensureBlock_inv b s Hb Hs Hi) as (H1 & H2 & H3). cbv zeta.
  destruct (lock_inv _ H1) as [Hc H4]. destruct (core_eq _ _ Hc) as (_ & Ha & Hth & Htx & _).
  split; [done|]. split; [by rewrite Ha|]. rewrite H3. by destruct b; cbn; rewrite ?Hth, ?Htx.
Qed.

Lemma text_delta_inv delta s : inv (conn s) -> inv (conn (text_delta cfg wfail tick delta s)).
Proof using Hstream Hformat.
  intros Hi. unfold text_delta. destruct (String.eqb delta EmptyString); [done|].
  destruct (lock_inv s Hi) as [_ Hi1].
  set (s1 := on_hist _ (lock cfg wfail tick s)). assert (Hi2 : inv (conn s1)) by exact Hi1.
  clearbody s1. clear Hi1. destruct (activeTextSSEIndex (conn s1) <? 0)%Z eqn:Hlt.
  - pose proof (locked_block BlockText s1 ltac:(done) ltac:(done) Hi2) as (H1 & H2 & H3). cbv zeta in *.
    destruct (ensureBlock cfg wfail tick BlockText s1) as [s2 idx]. cbn [fst snd] in *.
    eapply delta_text_inv; [exact H1|exact H2|exact H3|same_conn].
  - eapply delta_text_inv; [exact Hi2| |reflexivity|same_conn].
    apply active_text; [apply Hi2|done].
Qed.

Lemma late_signature_conn sig i s : conn (on_hist (late_signature sig i) s) = conn s.
Proof using. reflexivity. Qed.

Lemma reasoning_delta_inv event delta s :
  suppressThinking cfg = false -> inv (conn s) -> inv (conn (reasoning_delta cfg wfail tick event delta s)).
Proof using Hstream Hformat.
  intros Hsup Hi. unfold reasoning_delta. destruct (lock_inv s Hi) as [_ Hi1].
  set (s1 := lock cfg wfail tick s) in *. clearbody s1. clear Hi.
  set (p := if nonempty (pendingThinkingSig (hist s1)) then _ else _).
  assert (Hp : inv (conn p.1)).
  { unfold p. split_ifs. cbn. by apply lock_inv. }
  destruct p as [s2 sig]. cbn [fst] in Hp. clear s1 Hi1.
  destruct (String.eqb delta EmptyString).
  { destruct (nonempty sig); [|done].
    pose proof (locked_block BlockThinking s2 ltac:(done) (fun _ => Hsup) Hp) as (H1 & _ & _). cbv zeta in *.
    by destruct (ensureBlock cfg wfail tick BlockThinking s2) as [s3 idx]. }
  destruct (lock_inv s2 Hp) as [_ Hi3].
  set (s3 := on_hist _ (lock cfg wfail tick s2)). assert (Hi3' : inv (conn s3)) by exact Hi3.
  clearbody s3. clear Hi3. cbv zeta.
  set (s4 := if nonempty sig then on_hist _ s3 else s3).
  assert (Hc4 : conn s4 = conn s3) by (unfold s4; same_conn).
  destruct (activeThinkingSSEIndex (conn s3) <? 0)%Z eqn:Hlt.
  - assert (Hi4 : inv (conn s4)) by by rewrite Hc4.
    pose proof (locked_block BlockThinking s4 ltac:(done) (fun _ => Hsup) Hi4) as (H1 & H2 & H3). cbv zeta in *.
    destruct (ensureBlock cfg wfail tick BlockThinking s4) as [s5 idx]. cbn [fst snd] in *.
    eapply delta_thinking_inv; [exact H1|exact H2|exact H3|same_conn].
  - eapply (delta_thinking_inv _ _ s4); [by rewrite Hc4| |by rewrite Hc4|same_conn].
    rewrite Hc4. apply active_thinking; [apply Hi3'|done].
Qed.

Lemma reasoning_start_inv event s :
  suppressThinking cfg = false -> inv (conn s) -> inv (conn (reasoning_start cfg wfail tick event s)).
Proof using Hstream Hformat.
  intros Hsup Hi. unfold reasoning_start. destruct (nonempty _); [|done].
  by apply (ensureBlock_inv BlockThinking).
Qed.

Lemma closeActiveBlock_inv s : inv (conn s) ->
  inv (conn (closeActiveBlock cfg wfail tick s)) /\
  activeBlockType (conn (closeActiveBlock cfg wfail tick s)) = BlockNone.
Proof using Hstream Hformat.
  intros Hi. destruct (lock_inv s Hi) as [_ Hi1]. destruct (close_inv _ Hi1) as (H1 & H2 & _). done.
Qed.

Lemma addOutputTokens_inv text s : inv (conn s) ->
  core (conn (addOutputTokens cfg wfail tick text s)) = core (conn s) /\
  inv (conn (addOutputTokens cfg wfail tick text s)).
Proof using Hstream.
  intros Hi. unfold addOutputTokens. destruct (String.eqb text EmptyString); [done|].
  destruct (lock_inv s Hi) as [Hc Hi1]. destruct (useUpstreamUsage _); done.
Qed.

(** *** Tool-use blocks *)

(** A tool-use block is started, filled and stopped in one critical section, with
    the checks of the running stream or without them. *)
Lemma tool_block (final : bool) (G : list (Z * kind) -> Z -> Conn -> Prop) o idx id name input s :
  (forall o n o' n' f imm s, G o n (conn s) -> frame_step o n f = Some (COpen o' n') ->
     core (conn (write_block cfg wfail f imm final s)) = core (conn s) /\
     G o' n' (conn (write_block cfg wfail f imm final s))) ->
  G o idx (conn s) -> (forall ik, ik ∈ o -> (ik.1 < idx)%Z) ->
  let s' := writeSSEContentBlockStopLocked cfg wfail idx final
    (writeSSEContentBlockDeltaInputJSONLocked cfg wfail idx input final
      (writeSSEContentBlockStartToolUseLocked cfg wfail idx id name final s)) in
  core (conn s') = core (conn s) /\ G o (idx + 1)%Z (conn s').
Proof using Hstream Hformat.
  intros HW Hg Hlt. cbv zeta. unfold writeSSEContentBlockStopLocked, writeSSEContentBlockDeltaInputJSONLocked,
    writeSSEContentBlockStartToolUseLocked.
  destruct (HW o idx ((idx, KTool) :: o) (idx + 1)%Z (BlockStartToolUse idx id name) true s Hg) as [Hc1 Hg1].
  { cbn. unfold open_block. by rewrite Z.eqb_refl. }
  set (s1 := write_block cfg wfail (BlockStartToolUse idx id name) true final s) in *.
  destruct (HW _ _ ((idx, KTool) :: o) (idx + 1)%Z (DeltaInputJSON idx input) false s1 Hg1) as [Hc2 Hg2].
  { cbn. unfold in_block. by rewrite bool_decide_true by set_solver. }
  set (s2 := write_block cfg wfail (DeltaInputJSON idx input) false final s1) in *.
  destruct (HW _ _ o (idx + 1)%Z (BlockStop idx) true s2 Hg2) as [Hc3 Hg3].
  { unfold frame_step. rewrite bool_decide_true by set_solver. rewrite filter_cons_False by (cbn; naive_solver).
    do 2 f_equal. clear -Hlt. induction o as [|[i k] o IH]; [done|]. rewrite filter_cons_True.
    - rewrite IH; [done|]. intros ik Hik. apply Hlt. set_solver.
    - pose proof (Hlt (i, k) ltac:(set_solver)). cbn in *. lia. }
  split; [by rewrite Hc3, Hc2, Hc1|done].
Qed.

Lemma opens_below c : core_ok c -> forall ik, ik ∈ opens c -> (ik.1 < blockIndex c + 1)%Z.
Proof using Hstream Hformat.
  intros [_ Hc] ik Hin. unfold opens in Hin. destruct (activeBlockType c); [set_solver| |];
    apply list_elem_of_singleton in Hin as ->; cbn; lia.
Qed.

Lemma next_block_core c : core_ok c -> core_ok (c <| blockIndex := (blockIndex c + 1)%Z |>).
Proof using Hstream Hformat. unfold core_ok. cbn. destruct (activeBlockType c); lia. Qed.

Lemma emitToolUseFromInput_inv toolID toolName input s :
  inv (conn s) -> inv (conn (emitToolUseFromInput cfg wfail tick toolID toolName input s)).
Proof using Hstream Hformat.
  intros Hi. unfold emitToolUseFromInput. destruct (_ || _); [done|]. destruct (bool_decide _); [done|].
  set (s0 := on_calls _ s). assert (Hi0 : inv (conn s0)) by exact Hi. clearbody s0. clear Hi.
  destruct (addOutputTokens_inv toolName s0 Hi0) as [_ Hi1].
  destruct (lock_inv _ Hi1) as [_ Hi2]. set (s2 := lock cfg wfail tick _) in *. clearbody s2. clear Hi1.
  set (s3 := on_conn _ (on_calls _ s2)). pose proof Hi2 as [Hok Hg].
  assert (Hidx : blockIndex (conn s3) = (blockIndex (conn s2) + 1)%Z) by reflexivity.
  assert (Ho : opens (conn s3) = opens (conn s2)) by reflexivity.
  assert (Hok3 : core_ok (conn s3)) by by apply next_block_core.
  destruct (tool_block false good (opens (conn s2)) (blockIndex (conn s3)) toolID toolName (input_or_empty input) s3)
    as [Hc Hg'].
  - intros. by apply write_good with (o := o) (n := n).
  - rewrite Hidx. exact Hg.
  - rewrite Hidx. by apply opens_below.
  - apply (inv_core (conn s3)); [exact Hc|done|]. rewrite Ho. exact Hg'.
Qed.

Lemma shouldAccept_inv call s : inv (conn s) ->
  inv (conn (shouldAcceptToolCall cfg wfail tick call s).1).
Proof using Hstream Hformat.
  intros Hi. unfold shouldAcceptToolCall. destruct (lock_inv s Hi) as [_ Hi1].
  set (s1 := lock cfg wfail tick s) in *. clearbody s1. clear Hi. cbv zeta.
  set (s5 := if allowed_tool cfg call then _ else count_suppressed _).
  assert (Hc5 : conn s5 = conn s1).
  { unfold s5, surface, count_suppressed. split_ifs; reflexivity. }
  assert (Hi5 : inv (conn s5)) by by rewrite Hc5. clearbody s5.
  destruct (lock_inv s5 Hi5) as [_ Hi6].
  assert (Hs : forall text s', conn (surface cfg text s') = conn s').
  { intros. unfold surface. by destruct (_ && _). }
  destruct (_ || _); [done|]. destruct (hasNonProjectSandboxToolPath _ _); [cbn [fst]; by rewrite Hs|].
  destruct (negb _); [cbn [fst]; by rewrite Hs|done].
Qed.

Lemma tool_call_inv msg s : inv (conn s) -> inv (conn (tool_call_event cfg wfail tick msg s)).
Proof using Hstream Hformat.
  intros Hi. unfold tool_call_event. destruct (normalizeUpstreamToolCall _ _) as [name input].
  destruct (lock_inv s Hi) as [_ Hi1]. set (s1 := lock cfg wfail tick s) in *. clearbody s1. clear Hi.
  destruct (rewriteToolCallToClient _ _ _) as [[name' input']|e]; [|exact Hi1].
  destruct (String.eqb _ _); [done|]. destruct (bool_decide _); [done|].
  pose proof (shouldAccept_inv (mkToolCall (event_str msg "toolCallId") name' input') s1 Hi1) as Ha.
  destruct (shouldAcceptToolCall _ _ _ _ _) as [s2 ok]. cbn [fst] in Ha. destruct ok; cbn [negb]; [|done].
  rewrite Hstream. by apply emitToolUseFromInput_inv.
Qed.

Lemma usage_inv usage s : inv (conn s) -> inv (conn (applyUpstreamUsageTokens cfg wfail tick usage s)).
Proof using Hstream Hformat.
  intros Hi. unfold applyUpstreamUsageTokens. destruct usage; [done|]. cbv zeta.
  destruct (negb _); [done|]. exact (proj2 (lock_inv s Hi)).
Qed.

(** *** The end of a response *)
Definition ended (c : Conn) : Prop := broken c \/ over c.

Lemma ended_inv c : core_ok c -> ended c -> inv c.
Proof using. intros Hok [Hb|Ho]; (split; [done|]); [by left|by right; right]. Qed.

Lemma returned_ended c : inv c -> hasReturn c = true -> ended c.
Proof using. intros [_ [?|[(? & _)|?]]] ?; [by left|congruence|by right]. Qed.

Lemma lock_finishing k s : finishing k (conn s) ->
  core (conn (lock cfg wfail tick s)) = core (conn s) /\ finishing k (conn (lock cfg wfail tick s)).
Proof using Hstream.
  intros (Hr & Hr' & Hk). destruct (lock_returned s Hr) as (Hc & Hw & H1 & H2 & _). split; [done|].
  unfold finishing, broken. by rewrite Hw, H1, H2.
Qed.

Lemma emit_finishing k k' f imm s : finishing k (conn s) -> client_step k (WFrame f) = Some k' ->
  core (conn (emitSSEFrameLocked cfg wfail f imm true s)) = core (conn s) /\
  finishing k' (conn (emitSSEFrameLocked cfg wfail f imm true s)).
Proof using Hstream Hformat.
  intros (Hr & Hr' & Hk) Hstep. pose proof (emit_puts f imm true s) as Hp.
  split; [by rewrite (puts_core _ _ _ Hp)|].
  assert (Hflags : hasReturn (conn (emitSSEFrameLocked cfg wfail f imm true s)) = true /\
    returned (conn (emitSSEFrameLocked cfg wfail f imm true s)) = true).
  { destruct Hp as (_ & _ & [(_ & -> & -> & _)|(_ & -> & -> & _)]); done. }
  unfold finishing. destruct Hflags as [-> ->]. split; [done|]. split; [done|].
  destruct Hk as [Hb|Hk]; [left; by apply (puts_broken _ _ _ Hp)|].
  destruct (puts_client _ _ _ _ _ Hp Hk Hstep) as [?|(? & _)]; [by left|by right].
Qed.

Lemma write_finishing o n o' n' f imm s :
  finishing (COpen o n) (conn s) -> frame_step o n f = Some (COpen o' n') ->
  core (conn (write_block cfg wfail f imm true s)) = core (conn s) /\
  finishing (COpen o' n') (conn (write_block cfg wfail f imm true s)).
Proof using Hstream Hformat. intros Hf Hstep. by apply emit_finishing with (k := COpen o n). Qed.

(** The response claimed, no block open. *)
Definition closing (c : Conn) : Prop :=
  core_ok c /\ activeBlockType c = BlockNone /\ finishing (COpen [] (blockIndex c + 1)) c.

Lemma closing_core c c' : core c' = core c -> closing c ->
  finishing (COpen [] (blockIndex c + 1)) c' -> closing c'.
Proof using.
  intros Hc (Hok & Ha & _) Hf. destruct (core_eq _ _ Hc) as (H1 & H2 & _ & _ & _ & H6).
  split; [by apply H6|]. split; [by rewrite H2|]. by rewrite H1.
Qed.

Lemma lock_closing s : closing (conn s) -> closing (conn (lock cfg wfail tick s)).
Proof using Hstream.
  intros Hc. destruct (lock_finishing _ s (proj2 (proj2 Hc))) as [He Hf]. by apply (closing_core (conn s)).
Qed.

Lemma addOutputTokens_closing text s : closing (conn s) ->
  closing (conn (addOutputTokens cfg wfail tick text s)).
Proof using Hstream.
  intros Hc. unfold addOutputTokens. destruct (String.eqb _ _); [done|].
  destruct (useUpstreamUsage _); exact (lock_closing s Hc).
Qed.

Lemma emitToolCallStream_closing call s : closing (conn s) ->
  closing (conn (emitToolCallStream cfg wfail tick call (-1) true s)).
Proof using Hstream Hformat.
  intros Hc. unfold emitToolCallStream. destruct (String.eqb _ _); [done|].
  pose proof (lock_closing _ (addOutputTokens_closing (call_input call) _
    (addOutputTokens_closing (call_name call) s Hc))) as Hc1.
  set (s1 := lock cfg wfail tick _) in *. clearbody s1. clear Hc.
  change (-1 <? 0)%Z with true. cbn iota zeta. set (s2 := on_conn _ s1).
  destruct Hc1 as (Hok & Ha & Hf).
  assert (Hb2 : blockIndex (conn s2) = (blockIndex (conn s1) + 1)%Z) by reflexivity.
  destruct (tool_block true (fun o n c => finishing (COpen o n) c) [] (blockIndex (conn s2))
    (call_id call) (call_name call) (input_or_empty (call_input call)) s2) as [Hc' Hf'].
  - intros. by apply write_finishing with (o := o) (n := n).
  - rewrite Hb2. exact Hf.
  - set_solver.
  - destruct (core_eq _ _ Hc') as (H1 & H2 & _ & _ & _ & H6).
    split; [by apply H6, next_block_core|]. split; [by rewrite H2|]. by rewrite H1.
Qed.

Lemma flushPending_closing s : closing (conn s) -> closing (conn (flushPendingToolCalls cfg wfail tick s)).
Proof using Hstream Hformat.
  intros Hc. pose proof (lock_closing s Hc) as Hc1. unfold flushPendingToolCalls. rewrite Hstream.
  set (s1 := lock cfg wfail tick s) in *. clearbody s1. cbv zeta.
  set (s2 := on_calls _ s1). assert (Hc2 : closing (conn s2)) by exact Hc1. clearbody s2. clear Hc Hc1.
  revert s2 Hc2. induction (pendingToolCalls (calls s1)) as [|call l IH]; intros s2 Hc2; [done|].
  cbn [foldl]. apply IH. by apply emitToolCallStream_closing.
Qed.

Lemma finish_body_done reason s :
  core_ok (conn s) -> finishing (COpen (opens (conn s)) (blockIndex (conn s) + 1)) (conn s) ->
  core_ok (conn (finish_body cfg wfail tick reason s)) /\
  finishing CDone (conn (finish_body cfg wfail tick reason s)).
Proof using Hstream Hformat.
  intros Hok Hf. unfold finish_body. rewrite Hstream.
  destruct (lock_finishing _ s Hf) as [Hc1 Hf1]. set (s1 := lock cfg wfail tick s) in *.
  destruct (core_eq _ _ Hc1) as (Hb & Ha & Hth & Htx & Ho & Hok1). specialize (Hok1 Hok).
  rewrite <- Hb, <- Ho in Hf1. clearbody s1. clear Hf Hc1 Hb Ha Hth Htx Ho Hok s.
  set (p := popActiveBlockStopDataLocked s1).
  assert (Hp : closing (conn (match p.2 with
    | Some f => emitSSEFrameLocked cfg wfail f false true (lock cfg wfail tick p.1) | None => p.1 end))).
  { unfold p, popActiveBlockStopDataLocked. unfold opens in Hf1. unfold core_ok in Hok1.
    destruct (activeBlockType (conn s1)) eqn:Ha; cbn [fst snd].
    { split; [|done]. unfold core_ok. by rewrite Ha. }
    all: set (s2 := on_conn _ _); assert (Hok2 : core_ok (conn s2)) by (split; [apply Hok1|cbn; lia]);
      destruct (lock_finishing _ s2 Hf1) as [Hc2 Hf2];
      match type of Hf2 with finishing (COpen [(?i, ?k)] ?n) _ =>
        destruct (emit_finishing _ (COpen [] n) (BlockStop i) false _ Hf2) as [Hc3 Hf3] end;
      [cbn; rewrite bool_decide_true by set_solver; rewrite decide_False by (cbn; naive_solver); done|];
      rewrite Hc2 in Hc3; destruct (core_eq _ _ Hc3) as (H1 & H2 & _ & _ & _ & H6);
      (split; [by apply H6|]; split; [by rewrite H2|]; rewrite H1; exact Hf3). }
  destruct p as [s2 stop]. cbn [fst snd] in Hp. clear s1 Hf1 Hok1.
  set (s3 := match stop with Some f => _ | None => s2 end) in *. clearbody s3. clear s2 stop.
  pose proof (flushPending_closing s3 Hp) as Hc4.
  set (s4 := flushPendingToolCalls cfg wfail tick s3) in *. clearbody s4. clear s3 Hp.
  assert (Hc5 : closing (conn (finalizeOutputTokens cfg wfail tick s4))).
  { unfold finalizeOutputTokens. destruct (useUpstreamUsage _); exact (lock_closing s4 Hc4). }
  set (s5 := finalizeOutputTokens cfg wfail tick s4) in *. clearbody s5. clear s4 Hc4.
  pose proof (lock_closing s5 Hc5) as Hc6. set (s6 := lock cfg wfail tick s5) in *. clearbody s6. clear s5 Hc5.
  destruct Hc6 as (Hok6 & _ & Hf6).
  destruct (emit_finishing _ CClosing (MessageDelta reason (outputTokens (meter s6))) true s6 Hf6 eq_refl) as [Hc7 Hf7].
  unfold writeSSEMessageDeltaLocked, write_block, writeFinalSSEBytesLockedWithHint.
  set (s7 := emitSSEFrameLocked cfg wfail (MessageDelta _ _) true true s6) in *.
  destruct (lock_finishing _ s7 Hf7) as [Hc8 Hf8].
  destruct (emit_finishing _ CDone MessageStop false _ Hf8 eq_refl) as [Hc9 Hf9].
  split; [|done]. rewrite Hc8, Hc7 in Hc9. by apply (core_eq _ _ Hc9).
Qed.

Lemma lock_broken s : broken (conn s) -> broken (conn (lock cfg wfail tick s)).
Proof using Hstream.
  intros Hb. unfold lock. generalize (tick (locks (conn s))) as k. intros k.
  enough (Hi : broken (conn (Nat.iter k (writeKeepAlive_locked cfg wfail) s))) by exact Hi.
  induction k as [|k IH]; [done|]. rewrite Nat.iter_succ.
  destruct (keepalive_puts (Nat.iter k (writeKeepAlive_locked cfg wfail) s)) as [->|(_ & _ & Hp)]; [done|].
  by apply (puts_broken _ _ _ Hp).
Qed.

(** The stream is open, unless there is nothing left to write to. *)
Definition opened_ok (c : Conn) : Prop := broken c \/ hasReturn c = true \/ messageStartWritten c = true.

Lemma lock_opened s : inv (conn s) -> opened_ok (conn s) -> opened_ok (conn (lock cfg wfail tick s)).
Proof using Hstream.
  intros [_ Hg] [Hb|[Hr|Hm]].
  - left. by apply lock_broken.
  - right; left. by apply lock_returned.
  - right; right. destruct (lock_good _ _ s Hg) as (_ & -> & _). done.
Qed.

Lemma ensure_inv s : inv (conn s) ->
  let r := ensureMessageStartLocked cfg wfail s in
  inv (conn r.1) /\ opened_ok (conn r.1) /\ (r.2 = false -> ended (conn r.1)).
Proof using Hstream Hformat.
  intros Hi. pose proof Hi as [Hok Hg]. cbv zeta. destruct (hasReturn (conn s)) eqn:Hr.
  - assert (Hc : (ensureMessageStartLocked cfg wfail s).1 = s).
    { unfold ensureMessageStartLocked. rewrite Hr. rewrite orb_true_r. by destruct (messageStartWritten _). }
    rewrite Hc. split; [done|]. split; [by right; left|]. intros _. by apply returned_ended.
  - pose proof (ensure_good _ _ s Hg Hr) as He.
    destruct (ensureMessageStartLocked cfg wfail s) as [s' opened]. destruct He as [Hc Hd].
    cbn [fst snd]. split; [apply (inv_core (conn s)); [done|done|]|split].
    + destruct Hd as [?|(? & _)]; [by left|by right; left].
    + destruct Hd as [?|(_ & ? & _)]; [by left|by right; right].
    + intros ->. destruct Hd as [?|(_ & _ & ?)]; [by left|done].
Qed.

(** *** Failure reports *)
Lemma put_report_client item chunks s k :
  client_run (wire (conn s)) = Some k -> client_step k item = Some CFailed ->
  let r := put_report wfail item chunks s in
  core (conn r.1) = core (conn s) /\ hasReturn (conn r.1) = hasReturn (conn s) /\
  returned (conn r.1) = returned (conn s) /\
  (broken (conn r.1) \/ client_run (wire (conn r.1)) = Some CFailed).
Proof using.
  intros Hk Hstep. unfold put_report, put. destruct (try_writes _ _ _) as [ok n]. cbn. repeat (split; [done|]).
  unfold broken. cbn. rewrite client_run_snoc, Hk. destruct ok; [by right|left]. by destruct k.
Qed.

Lemma put_report_broken item chunks s :
  broken (conn s) -> broken (conn (put_report wfail item chunks s).1).
Proof using.
  unfold broken, put_report, put. destruct (try_writes _ _ _) as [ok n]. cbn.
  intros Hb. by rewrite client_run_snoc, Hb.
Qed.

Lemma writeStreamError_ended category message s :
  inv (conn s) -> opened_ok (conn s) ->
  let c' := conn (writeStreamError cfg wfail tick category message s) in
  core c' = core (conn s) /\ ended c'.
Proof using Hstream Hformat.
  intros Hi Ho. destruct (lock_inv s Hi) as [Hc Hi1]. pose proof (lock_opened s Hi Ho) as Ho1.
  unfold writeStreamError. rewrite Hstream, Hformat. cbn [negb]. cbv zeta.
  set (s1 := lock cfg wfail tick s) in *. rewrite <- Hc. clearbody s1. clear Hc Hi Ho.
  destruct (hasReturn (conn s1)) eqn:Hr; [by split; [|apply returned_ended]|].
  set (s2 := on_conn _ s1). set (item := WError category message). set (chunks := writeSSEFrameBytes _ _).
  assert (Hflush : forall s' (b : bool),
    let c := conn (if b then on_conn (fun c => c <| flushed := length (wire c) |>) s' else s') in
    core c = core (conn s') /\ (ended c <-> ended (conn s'))) by (by intros s' []).
  pose proof (put_report_client item chunks s2) as Hput. cbv zeta in Hput.
  pose proof (put_report_broken item chunks s2) as Hbr.
  assert (Hcore : core (conn (put_report wfail item chunks s2).1) = core (conn s2)).
  { unfold put_report. by destruct (put wfail item chunks (conn s2)) as [c ok] eqn:Hp;
      unfold put in Hp; destruct (try_writes _ _ _); injection Hp as <- <-. }
  destruct (put_report wfail item chunks s2) as [s3 ok]. cbn [fst andb] in *.
  destruct (Hflush s3 (hasFlusher cfg)) as [-> ->]. split; [exact Hcore|].
  destruct Ho1 as [Hb|[?|Hm]]; [by left; apply Hbr|congruence|].
  destruct Hi1 as [_ [Hb|[(_ & _ & _ & Hk)|(? & _)]]]; [by left; apply Hbr| |congruence].
  rewrite Hm in Hk. destruct (Hput _ Hk eq_refl) as (_ & H1 & H2 & [?|?]); [by left|right].
  split; [by rewrite H1|]. split; [by rewrite H2|by right].
Qed.

Lemma report_ended category message retryAfter s :
  inv (conn s) ->
  let c' := conn (reportRequestFailure cfg wfail tick category message retryAfter s) in
  core c' = core (conn s) /\ ended c'.
Proof using Hstream Hformat.
  intros Hi. unfold reportRequestFailure, hasCommitted. rewrite Hstream. cbv zeta.
  destruct (lock_inv s Hi) as [Hc Hi1]. set (s1 := lock cfg wfail tick s) in *. clearbody s1.
  destruct (messageStartWritten (conn s1) || hasReturn (conn s1)) eqn:Hcom.
  - apply orb_true_iff in Hcom.
    destruct (writeStreamError_ended category message s1 Hi1) as [Hc' He].
    { unfold opened_ok. tauto. }
    split; [by rewrite Hc'|done].
  - apply orb_false_iff in Hcom as [Hm Hr].
    destruct (lock_inv s1 Hi1) as [Hc2 Hi2]. pose proof Hi1 as [_ Hg1].
    destruct (lock_good _ _ s1 Hg1) as (_ & Hm2 & _). rewrite Hm in Hm2.
    set (s2 := lock cfg wfail tick s1) in *. clearbody s2.
    destruct (hasReturn (conn s2)) eqn:Hr2.
    { split; [by rewrite Hc2|by apply returned_ended]. }
    split; [cbn; by rewrite <- Hc, <- Hc2|].
    destruct Hi2 as [_ [Hb|[(_ & _ & _ & Hk)|(? & _)]]]; [|rewrite Hm2 in Hk; destruct Hk as (Hk & _)|congruence].
    + left. unfold broken in *. cbn. by rewrite client_run_snoc, Hb.
    + right. split; [done|]. split; [done|]. right. cbn. by rewrite client_run_snoc, Hk.
Qed.

Lemma empty_fallback_inv s : inv (conn s) -> inv (conn (empty_fallback cfg wfail tick s)).
Proof using Hstream Hformat.
  intros Hi. unfold empty_fallback, hasVisibleOutput. cbv zeta.
  destruct (lock_inv s Hi) as [_ Hi1]. set (s1 := lock cfg wfail tick s) in *. clearbody s1.
  destruct (_ || _ || _ || _ || _); [done|].
  destruct (lock_inv s1 Hi1) as [_ Hi2]. set (s2 := lock cfg wfail tick s1) in *. clearbody s2.
  destruct (String.eqb _ _); [done|].
  destruct (lock_inv s2 Hi2) as [_ Hi3]. set (s3 := on_meter _ (lock cfg wfail tick s2)).
  assert (Hi3' : inv (conn s3)) by exact Hi3. clearbody s3.
  destruct (returned (conn s3)); [done|]. by apply text_delta_inv.
Qed.

(** Whatever it is given, finishing ends the response. *)
Lemma finish_ended reason s : inv (conn s) ->
  let c' := conn (finishResponse cfg wfail tick reason s) in core_ok c' /\ ended c'.
Proof using Hstream Hformat.
  intros Hi. unfold finishResponse. cbv zeta.
  set (p := if String.eqb reason "tool_use" then _ else _).
  assert (Hp : inv (conn p.1)).
  { unfold p. destruct (String.eqb _ _); [|done]. cbn [fst]. by apply lock_inv. }
  destruct p as [s1 reason1]. cbn [fst] in Hp. unfold validateStructuredAnswer. cbv zeta.
  destruct (lock_inv s1 Hp) as [_ Hi2]. set (s2 := lock cfg wfail tick s1) in *. clearbody s2. clear s1 Hp Hi.
  match goal with |- context [match ?m with Some _ => _ | None => _ end] => destruct m as [e|] end.
  { destruct (report_ended "schema_mismatch" e 0 s2 Hi2) as [Hc He]. split; [|done].
    apply (core_eq _ _ Hc). apply Hi2. }
  pose proof (empty_fallback_inv s2 Hi2) as Hi3. set (s3 := empty_fallback cfg wfail tick s2) in *. clearbody s3.
  destruct (lock_inv s3 Hi3) as [_ Hi4]. set (s4 := lock cfg wfail tick s3) in *. clearbody s4. clear s3 Hi3 s2 Hi2.
  pose proof (ensure_inv s4 Hi4) as (Hi5 & Ho5 & Hstop). cbv zeta in *.
  destruct (ensureMessageStartLocked cfg wfail s4) as [s5 opened]. cbn [fst snd] in *. clear s4 Hi4.
  rewrite Hstream. cbn [andb].
  set (q := if negb opened then _ else _).
  assert (Hq : inv (conn q.1) /\ opened_ok (conn q.1) /\ (q.2 = true -> ended (conn q.1))).
  { unfold q. destruct opened; cbn [negb fst snd]; [done|]. split; [by apply lock_inv|].
    split; [by apply lock_opened|]. intros _. specialize (Hstop eq_refl).
    destruct Hstop as [Hb|(Hr & Hr' & Hk)]; [left; by apply lock_broken|right].
    destruct (lock_returned s5 Hr) as (_ & Hw & H1 & H2 & _). unfold over. by rewrite Hw, H1, H2. }
  destruct q as [s6 stop]. cbn [fst snd] in Hq. destruct Hq as (Hi6 & Ho6 & Hs6). clear s5 Hi5 Ho5 Hstop.
  destruct stop; [split; [apply Hi6|by apply Hs6]|].
  pose proof (lock_opened s6 Hi6 Ho6) as Ho7. destruct (lock_inv s6 Hi6) as [_ Hi7].
  set (s7 := lock cfg wfail tick s6) in *. clearbody s7. clear s6 Hi6 Ho6 Hs6.
  destruct (hasReturn (conn s7)) eqn:Hr7; [split; [apply Hi7|by apply returned_ended]|].
  set (s8 := on_hist _ _).
  assert (Hf8 : finishing (COpen (opens (conn s8)) (blockIndex (conn s8) + 1)) (conn s8)).
  { split; [done|]. split; [done|]. destruct Ho7 as [?|[?|Hm]]; [by left|congruence|].
    destruct Hi7 as [_ [?|[(_ & _ & _ & Hk)|(? & _)]]]; [by left| |congruence].
    rewrite Hm in Hk. by right. }
  destruct (finish_body_done reason1 s8) as [Hok9 Hf9]; [apply Hi7|done|].
  set (s9 := finish_body cfg wfail tick reason1 s8) in *. clearbody s9.
  unfold finalizeCompletion. destruct (lock_finishing _ s9 Hf9) as [Hc10 Hf10].
  assert (Hend : core_ok (conn (lock cfg wfail tick s9)) /\ ended (conn (lock cfg wfail tick s9))).
  { split; [by apply (core_eq _ _ Hc10)|]. destruct Hf10 as (H1 & H2 & [?|?]); [by left|right].
    split; [done|]. split; [done|by left]. }
  destruct (completionLogged _); exact Hend.
Qed.

(** *** Every operation *)
Lemma forceFinish_ended s : inv (conn s) ->
  let c' := conn (forceFinishIfMissing cfg wfail tick s) in core_ok c' /\ ended c'.
Proof using Hstream Hformat.
  intros Hi. unfold forceFinishIfMissing. destruct (lock_inv s Hi) as [_ Hi1]. cbv zeta.
  destruct (hasReturn _) eqn:Hr; [|by apply finish_ended].
  split; [apply Hi1|by apply returned_ended].
Qed.

Lemma finish_event_inv event s : inv (conn s) -> inv (conn (finish_event cfg wfail tick event s)).
Proof using Hstream Hformat.
  intros Hi. unfold finish_event. cbv zeta.
  set (s1 := match obj_field "usage" event with Some _ => _ | None => s end).
  assert (Hi1 : inv (conn s1)) by (unfold s1; destruct (obj_field "usage" event); [by apply usage_inv|done]).
  destruct (lock_inv s1 Hi1) as [_ Hi2]. destruct (closeActiveBlock_inv _ Hi2) as [Hi3 _].
  match goal with |- inv (conn (finishResponse _ _ _ ?r _)) => destruct (finish_ended r _ Hi3) as [Hok He] end.
  by apply ended_inv.
Qed.

Lemma handleMessage_inv msg s : inv (conn s) -> inv (conn (handleMessage cfg wfail tick msg s)).
Proof using Hstream Hformat.
  intros Hi. unfold handleMessage. destruct (panicked (conn s)); [done|]. destruct (returned (conn s)); [done|].
  cbv zeta. destruct (suppressThinking cfg && HasPrefix (eventKey msg) "model.reasoning-") eqn:Hsup.
  { match goal with |- context [if ?b then _ else _] => destruct b end; [exact (proj2 (lock_inv s Hi))|done]. }
  assert (Hno : forall k, String.eqb (eventKey msg) k = true -> HasPrefix k "model.reasoning-" = true ->
    suppressThinking cfg = false).
  { intros k Heq Hk. apply String.eqb_eq in Heq. rewrite Heq, Hk, andb_true_r in Hsup. exact Hsup. }
  destruct (String.eqb (eventKey msg) "model.reasoning-start") eqn:E1; [by apply reasoning_start_inv; eauto|].
  destruct (String.eqb (eventKey msg) "model.reasoning-delta") eqn:E2; [by apply reasoning_delta_inv; eauto|].
  destruct (String.eqb _ "model.reasoning-end"); [by apply closeActiveBlock_inv|].
  destruct (String.eqb _ "model.text-start"); [by apply (ensureBlock_inv BlockText)|].
  destruct (String.eqb _ "model.text-delta"); [by apply text_delta_inv|].
  destruct (String.eqb _ "model.text-end"); [by apply closeActiveBlock_inv|].
  destruct (String.eqb _ "model.tool-call"); [by apply tool_call_inv|].
  destruct (String.eqb _ "model.tokens-used"); [by apply usage_inv|].
  destruct (String.eqb _ "model.finish"); [by apply finish_event_inv|done].
Qed.

(** Closing the open block of a running stream leaves it running. *)
Lemma close_alive s : core_ok (conn s) -> alive (opens (conn s)) (blockIndex (conn s) + 1) (conn s) ->
  alive [] (blockIndex (conn s) + 1) (conn (closeActiveBlockLocked cfg wfail s)).
Proof using Hstream Hformat.
  intros Hok Hg. unfold closeActiveBlockLocked, popActiveBlockStopDataLocked. unfold opens in Hg.
  destruct (activeBlockType (conn s)) eqn:Ha; [done|..];
  (match goal with |- context [writeSSEBytesLocked _ _ ?f ?s1] =>
     apply (write_open_alive _ _ _ _ f s1 Hg) end;
   [ cbn; rewrite bool_decide_true by set_solver; rewrite decide_False by (cbn; naive_solver); done
   | intros (_ & _ & _ & Hl); cbn; cbn in Hl; destruct (messageStartWritten (conn s)); [done|];
     by destruct Hl as (_ & ? & _) ]).
Qed.

(** A round starts only while the response is not over; the reset then finds no
    flag to clear, unless a keep-alive write has just failed. *)
Lemma next_round_inv s : inv (conn s) -> inv (conn (next_round cfg wfail tick s)).
Proof using Hstream Hformat.
  intros Hi. unfold next_round, terminalState. cbv zeta.
  destruct (lock_inv s Hi) as [_ Hi1]. set (s1 := lock cfg wfail tick s) in *. clearbody s1.
  destruct (hasReturn (conn s1)) eqn:Hr; [done|]. unfold resetRoundState.
  pose proof (lock_alive _ _ s1 (good_alive _ _ _ (proj2 Hi1) Hr)) as Ha2.
  destruct (lock_inv s1 Hi1) as [Hc2 Hi2]. set (s2 := lock cfg wfail tick s1) in *. clearbody s2.
  destruct (core_eq _ _ Hc2) as (Hb & _ & _ & _ & Ho & _). rewrite <- Hb, <- Ho in Ha2.
  pose proof (close_alive s2 (proj1 Hi2) Ha2) as Ha3.
  destruct (close_inv s2 Hi2) as ([Hok3 _] & Hn3 & Hb3).
  set (s3 := closeActiveBlockLocked cfg wfail s2) in *. clearbody s3. rewrite <- Hb3 in Ha3.
  split; [split; [apply Hok3|done]|]. change (good [] (blockIndex (conn s3) + 1)
    (conn s3 <| activeThinkingSSEIndex := (-1)%Z |> <| activeTextSSEIndex := (-1)%Z |>
     <| activeBlockType := BlockNone |> <| hasReturn := false |> <| returned := false |>
     <| deferredFlushFrames := 0%Z |> <| deferredFlushBytes := 0%Z |>)).
  destruct Ha3 as [?|(H1 & H2 & H3 & Hk)]; [by left|right; left; done].
Qed.

Lemma step_inv op s : inv (conn s) -> inv (conn (step cfg wfail tick op s)).
Proof using Hstream Hformat.
  intros Hi. unfold step. destruct (panicked (conn s)); [done|]. destruct op as [msg| |cat message ra|le se|].
  - by apply handleMessage_inv.
  - destruct (forceFinish_ended s Hi). by apply ended_inv.
  - destruct (report_ended cat message ra s Hi) as [Hc He]. apply ended_inv; [|done].
    apply (core_eq _ _ Hc), Hi.
  - unfold InjectNoAvailableAccountError. cbv zeta.
    match goal with |- inv (conn (reportRequestFailure _ _ _ ?c ?m ?r _)) =>
      destruct (report_ended c m r s Hi) as [Hc He] end.
    apply ended_inv; [|done]. apply (core_eq _ _ Hc), Hi.
  - by apply next_round_inv.
Qed.

Lemma run_inv ops s : inv (conn s) -> inv (conn (run cfg wfail tick ops s)).
Proof using Hstream Hformat.
  unfold run. revert s; induction ops as [|op ops IH]; intros s Hi; [done|]. by apply IH, step_inv.
Qed.

Lemma initial_inv s : conn s = initialConn -> inv (conn s).
Proof using. intros ->. split; [by split|]. right; left. done. Qed.
End Proofs.

(** *** What the client of a stream sees *)

(** A client's run breaks only on a torn item. *)
Lemma broken_torn w : client_run w = Some CBroken -> WTorn ∈ w.
Proof.
  induction w as [|i w IH] using rev_ind; [done|]. rewrite client_run_snoc.
  destruct (client_run w) as [c|]; [|done]. intros Hs. apply elem_of_app.
  destruct c, i; try (by left; apply IH); try (by right; left); try done;
    cbn in Hs; unfold frame_step, open_block, in_block in Hs; repeat (case_match; try done).
Qed.

(** C4: whatever the upstream sends, whenever the rounds, the failures and the
    keep-alives come, and whichever writes fail, what a streaming response puts
    on the wire is a run of the protocol the client expects. *)
Theorem relay_wire_accepted `{UnicodeTable} cfg wfail tick ops s0 :
  isStream cfg = true -> openAI cfg = false -> conn s0 = initialConn ->
  exists c, client_run (wire (conn (run cfg wfail tick ops s0))) = Some c.
Proof.
  intros Hs Hf H0. destruct (run_inv cfg wfail tick Hs Hf ops s0) as [_ Hg].
  { by apply initial_inv. }
  destruct Hg as [Hb|[(_ & _ & _ & Hk)|(_ & _ & [Hk|Hk])]]; try (by eexists).
  destruct (messageStartWritten _); [|destruct Hk as [Hk _]]; by eexists.
Qed.

(** C5: the fallback finish that closes every request ends the response: the client
    has its [message_stop], or one error, unless a write to it has failed. *)
Theorem response_completes `{UnicodeTable} cfg wfail tick ops s0 :
  isStream cfg = true -> openAI cfg = false -> conn s0 = initialConn ->
  panicked (conn (run cfg wfail tick ops s0)) = false ->
  let w := wire (conn (run cfg wfail tick (ops ++ [OpForceFinish]) s0)) in
  client_run w = Some CDone \/ client_run w = Some CFailed \/ WTorn ∈ w.
Proof.
  intros Hs Hf H0 Hp. cbv zeta. unfold run. rewrite foldl_app. fold (run cfg wfail tick ops s0).
  set (s := run cfg wfail tick ops s0) in *. cbn [foldl]. unfold step. rewrite Hp.
  destruct (forceFinish_ended cfg wfail tick Hs Hf s) as [_ [Hb|(_ & _ & [Hk|Hk])]].
  - by apply run_inv, initial_inv.
  - right; right. by apply broken_torn.
  - by left.
  - by right; left.
Qed.

(** ** The answer relayed is the answer received *)
Section Faithful.
  Context `{UnicodeTable} (cfg : Cfg) (wfail : nat -> bool) (tick : nat -> nat).
  Hypothesis Hstream : isStream cfg = true.
  Hypothesis Hformat : openAI cfg = false.
  Hypothesis Hwrites : forall n, wfail n = false.

(** The text and the reasoning an item carries. *)
Definition said (i : WireItem) : string * string :=
  match i with
  | WFrame (DeltaText _ t) => (t, EmptyString)
  | WFrame (DeltaThinking _ t) => (EmptyString, t)
  | _ => (EmptyString, EmptyString)
  end.
Definition text_of (w : list WireItem) : string := foldr (fun i acc => (said i).1 +:+ acc) EmptyString w.
Definition reasoning_of (w : list WireItem) : string := foldr (fun i acc => (said i).2 +:+ acc) EmptyString w.

(** The response is open. *)
Definition healthy (c : Conn) : Prop :=
  hasReturn c = false /\ returned c = false /\ requestFailed c = false /\ panicked c = false.

(** What a step of an open response adds to it: text [a] and reasoning [b]. *)
Definition adds (a b : string) (c c' : Conn) : Prop :=
  healthy c -> healthy c' /\ exists w, wire c' = wire c ++ w /\ text_of w = a /\ reasoning_of w = b.

Lemma said_app (f : string * string -> string) w w' :
  foldr (fun i acc => f (said i) +:+ acc) EmptyString (w ++ w') =
  foldr (fun i acc => f (said i) +:+ acc) EmptyString w +:+ foldr (fun i acc => f (said i) +:+ acc) EmptyString w'.
Proof using. induction w as [|i w IH]; cbn; [done|]. by rewrite IH, sapp_assoc. Qed.

Lemma adds_refl c : adds EmptyString EmptyString c c.
Proof using. intros Hh. split; [done|]. exists []. by rewrite app_nil_r. Qed.

Lemma adds_trans a b a' b' c c1 c2 :
  adds a b c c1 -> adds a' b' c1 c2 -> adds (a +:+ a') (b +:+ b') c c2.
Proof using.
  intros H1 H2 Hh. destruct (H1 Hh) as (Hh1 & w & Hw & <- & <-).
  destruct (H2 Hh1) as (Hh2 & w' & Hw' & <- & <-). split; [done|].
  exists (w ++ w'). rewrite Hw', Hw, app_assoc. split; [done|].
  by split; [apply (said_app fst)|apply (said_app snd)].
Qed.

Lemma adds_silent a b c c1 c2 :
  adds EmptyString EmptyString c c1 -> adds a b c1 c2 -> adds a b c c2.
Proof using. intros H1 H2. exact (adds_trans _ _ _ _ _ _ _ H1 H2). Qed.

Lemma adds_same_conn a b c c1 c2 :
  wire c2 = wire c1 -> hasReturn c2 = hasReturn c1 -> returned c2 = returned c1 ->
  requestFailed c2 = requestFailed c1 -> panicked c2 = panicked c1 -> adds a b c c1 -> adds a b c c2.
Proof using.
  intros Hw H1 H2 H3 H4 Ha Hh. destruct (Ha Hh) as (Hh1 & w & Hw1 & Ht). split.
  - unfold healthy. by rewrite H1, H2, H3, H4.
  - exists w. by rewrite Hw, Hw1.
Qed.

(** *** Writing *)
Lemma try_writes_ok chunks n : try_writes wfail chunks n = (true, n + length chunks)%nat.
Proof using Hwrites.
  revert n; induction chunks as [|x l IH]; intros n; cbn; [by rewrite Nat.add_0_r|].
  rewrite Hwrites, IH. f_equal. lia.
Qed.

Lemma put_adds item chunks event len imm force s :
  adds (said item).1 (said item).2 (conn s) (conn (put_or_mark wfail item chunks (fun s =>
    on_conn (flushSSEWithLenLocked cfg event len imm force) s) s)).
Proof using Hwrites.
  intros Hh. unfold put_or_mark, put. rewrite try_writes_ok. cbn.
  set (c1 := conn s <| wire := _ |> <| wcount := _ |>).
  destruct (flush_spec cfg event len imm force c1) as (Hc & _ & Hw & H1 & H2 & H3).
  split.
  - unfold healthy. rewrite H1, H2, H3. destruct Hh as (? & ? & ? & ?). repeat (split; [done|]).
    unfold core in Hc. by injection Hc as _ _ _ _ ->.
  - exists [item]. rewrite Hw. split; [done|]. cbn. by rewrite !sapp_nil_r.
Qed.

Lemma emit_adds f imm final s :
  adds (said (WFrame f)).1 (said (WFrame f)).2 (conn s) (conn (emitSSEFrameLocked cfg wfail f imm final s)).
Proof using Hstream Hformat Hwrites.
  unfold emitSSEFrameLocked. rewrite Hstream, Hformat. cbn [negb]. apply put_adds.
Qed.

Lemma ensure_start_adds s :
  healthy (conn s) ->
  let r := ensureMessageStartLocked cfg wfail s in
  r.2 = true /\ adds EmptyString EmptyString (conn s) (conn r.1).
Proof using Hstream Hformat Hwrites.
  intros (H1 & H2 & H3 & H4). unfold ensureMessageStartLocked.
  destruct (messageStartWritten (conn s)) eqn:Hm; [split; [done|apply adds_refl]|].
  rewrite H3, H1, Hstream. cbn [negb orb fst snd]. unfold writeMessageStartLocked. rewrite Hstream, H1. cbn [negb orb].
  match goal with |- context [emitSSEFrameLocked _ _ ?f ?i ?fi ?s1] =>
    split; [|exact (emit_adds f i fi s1)];
    pose proof (emit_puts cfg wfail Hstream Hformat f i fi s1) as (_ & Hm' & _); by rewrite Hm' end.
Qed.

Lemma write_hint_adds f imm s :
  adds (said (WFrame f)).1 (said (WFrame f)).2 (conn s) (conn (writeSSEBytesLockedWithHint cfg wfail f imm s)).
Proof using Hstream Hformat Hwrites.
  intros Hh. pose proof Hh as (H1 & _). unfold writeSSEBytesLockedWithHint. rewrite Hstream, H1. cbn [negb orb].
  destruct (ensure_start_adds s Hh) as [Ho Ha]. destruct (ensureMessageStartLocked cfg wfail s) as [s1 o].
  cbn in Ho, Ha. subst o. exact (adds_silent _ _ _ _ _ Ha (emit_adds f imm false s1) Hh).
Qed.

Lemma write_adds f s :
  said (WFrame f) = (EmptyString, EmptyString) ->
  adds EmptyString EmptyString (conn s) (conn (writeSSEBytesLocked cfg wfail f s)).
Proof using Hstream Hformat Hwrites.
  intros Hf. unfold writeSSEBytesLocked. destruct (_ || _); [apply adds_refl|].
  pose proof (emit_adds f (shouldFlushSSEImmediately (event_of f) (payload f)) false s) as He.
  by rewrite Hf in He.
Qed.

Lemma keepalive_adds s : adds EmptyString EmptyString (conn s) (conn (writeKeepAlive_locked cfg wfail s)).
Proof using Hwrites.
  unfold writeKeepAlive_locked. destruct (negb _); [apply adds_refl|].
  destruct (hasReturn _); [apply adds_refl|]. destruct (negb _); [apply adds_refl|].
  exact (put_adds WKeepAlive [sseKeepAlive] "keep-alive" (String.length sseKeepAlive) true true s).
Qed.

Lemma lock_adds s : adds EmptyString EmptyString (conn s) (conn (lock cfg wfail tick s)).
Proof using Hwrites.
  unfold lock. generalize (tick (locks (conn s))) as k. intros k.
  apply (adds_same_conn _ _ _ (conn (Nat.iter k (writeKeepAlive_locked cfg wfail) s))); try done.
  induction k as [|k IH]; [apply adds_refl|]. rewrite Nat.iter_succ.
  exact (adds_silent _ _ _ _ _ IH (keepalive_adds _)).
Qed.

Lemma adds_lock a b s c : adds a b (conn (lock cfg wfail tick s)) c -> adds a b (conn s) c.
Proof using Hwrites. apply adds_silent, lock_adds. Qed.

Lemma adds_last a b c c1 c2 : adds a b c c1 -> adds EmptyString EmptyString c1 c2 -> adds a b c c2.
Proof using.
  intros H1 H2. pose proof (adds_trans _ _ _ _ _ _ _ H1 H2) as H3. by rewrite !sapp_nil_r in H3.
Qed.

(** *** Blocks *)
Lemma closeLocked_adds s : adds EmptyString EmptyString (conn s) (conn (closeActiveBlockLocked cfg wfail s)).
Proof using Hstream Hformat Hwrites.
  unfold closeActiveBlockLocked, popActiveBlockStopDataLocked.
  destruct (activeBlockType (conn s)); [apply adds_refl|..];
    (match goal with |- context [writeSSEBytesLocked _ _ ?f ?s1] => exact (write_adds f s1 eq_refl) end).
Qed.

Lemma ensureBlock_adds b s :
  adds EmptyString EmptyString (conn s) (conn (ensureBlock cfg wfail tick b s).1).
Proof using Hstream Hformat Hwrites.
  unfold ensureBlock. destruct (_ && _); [apply adds_refl|]. cbv zeta. apply adds_lock.
  set (s1 := lock cfg wfail tick s). clearbody s1.
  match goal with |- context [if ?g then closeActiveBlockLocked _ _ s1 else s1] =>
    set (s2 := if g then closeActiveBlockLocked cfg wfail s1 else s1);
    assert (H2 : adds EmptyString EmptyString (conn s1) (conn s2))
      by (subst s2; destruct g; [apply closeLocked_adds|apply adds_refl]) end.
  apply (adds_silent _ _ _ _ _ H2). clearbody s2.
  destruct b; [apply adds_refl|destruct (bool_decide _); [apply adds_refl|]..].
  - unfold open_thinking. cbv zeta.
    match goal with |- context [writeSSEBytesLockedWithHint _ _ ?f ?i ?s1] => exact (write_hint_adds f i s1) end.
  - unfold open_text, writeSSEContentBlockStartTextLocked, write_block. cbv zeta.
    match goal with |- context [writeSSEBytesLockedWithHint _ _ ?f ?i ?s1] => exact (write_hint_adds f i s1) end.
Qed.

Lemma locked_block_adds b s :
  adds EmptyString EmptyString (conn s) (conn (lock cfg wfail tick (ensureBlock cfg wfail tick b s).1)).
Proof using Hstream Hformat Hwrites. exact (adds_last _ _ _ _ _ (ensureBlock_adds b s) (lock_adds _)). Qed.

Lemma delta_adds f imm s s' : conn s' = conn s ->
  adds (said (WFrame f)).1 (said (WFrame f)).2 (conn s) (conn (write_block cfg wfail f imm false s')).
Proof using Hstream Hformat Hwrites. intros <-. apply write_hint_adds. Qed.

Lemma text_delta_adds d s : adds d EmptyString (conn s) (conn (text_delta cfg wfail tick d s)).
Proof using Hstream Hformat Hwrites.
  unfold text_delta. destruct (String.eqb_spec d EmptyString) as [->|_]; [apply adds_refl|].
  apply adds_lock. set (s1 := lock cfg wfail tick s). clearbody s1. cbv zeta.
  set (s2 := on_hist _ s1). change (conn s1) with (conn s2). clearbody s2. clear s1.
  destruct (activeTextSSEIndex (conn s2) <? 0)%Z.
  - pose proof (locked_block_adds BlockText s2) as He.
    destruct (ensureBlock _ _ _ _ _) as [s3 idx]. cbn [fst] in He. apply (adds_silent _ _ _ _ _ He).
    apply (delta_adds (DeltaText idx d)). same_conn.
  - apply (delta_adds (DeltaText _ d)). same_conn.
Qed.

Lemma reasoning_start_adds event s :
  adds EmptyString EmptyString (conn s) (conn (reasoning_start cfg wfail tick event s)).
Proof using Hstream Hformat Hwrites.
  unfold reasoning_start. destruct (nonempty _); [|apply adds_refl].
  match goal with |- context [ensureBlock _ _ _ _ ?s1] => exact (ensureBlock_adds BlockThinking s1) end.
Qed.

Lemma reasoning_delta_adds event d s :
  adds EmptyString d (conn s) (conn (reasoning_delta cfg wfail tick event d s)).
Proof using Hstream Hformat Hwrites.
  unfold reasoning_delta. apply adds_lock. set (s1 := lock cfg wfail tick s). clearbody s1.
  set (p := if nonempty (pendingThinkingSig (hist s1)) then _ else _).
  assert (Hp : adds EmptyString EmptyString (conn s1) (conn p.1)).
  { unfold p. split_ifs; cbn [fst]; try apply adds_refl. apply lock_adds. }
  destruct p as [s2 sig]. cbn [fst] in Hp. apply (adds_silent _ _ _ _ _ Hp). clear Hp s1 s.
  destruct (String.eqb_spec d EmptyString) as [->|_].
  { destruct (nonempty sig); [|apply adds_refl]. pose proof (locked_block_adds BlockThinking s2) as He.
    destruct (ensureBlock _ _ _ _ _) as [s3 idx]. exact He. }
  apply adds_lock. set (s3 := on_hist _ (lock cfg wfail tick s2)).
  change (conn (lock cfg wfail tick s2)) with (conn s3). clearbody s3. cbv zeta.
  set (s4 := if nonempty sig then on_hist _ s3 else s3).
  assert (Hc4 : conn s4 = conn s3) by (unfold s4; same_conn). rewrite <- Hc4.
  destruct (activeThinkingSSEIndex (conn s4) <? 0)%Z.
  - pose proof (locked_block_adds BlockThinking s4) as He.
    destruct (ensureBlock _ _ _ _ _) as [s5 idx]. cbn [fst] in He. apply (adds_silent _ _ _ _ _ He).
    apply (delta_adds (DeltaThinking idx d)). same_conn.
  - apply (delta_adds (DeltaThinking _ d)). same_conn.
Qed.

Lemma addOutputTokens_adds text s :
  adds EmptyString EmptyString (conn s) (conn (addOutputTokens cfg wfail tick text s)).
Proof using Hwrites.
  unfold addOutputTokens. destruct (String.eqb text EmptyString); [apply adds_refl|].
  destruct (useUpstreamUsage _); exact (lock_adds s).
Qed.

Lemma shouldAccept_adds call s :
  adds EmptyString EmptyString (conn s) (conn (shouldAcceptToolCall cfg wfail tick call s).1).
Proof using Hwrites.
  unfold shouldAcceptToolCall. apply adds_lock. set (s1 := lock cfg wfail tick s). clearbody s1. cbv zeta.
  set (s5 := if allowed_tool cfg call then _ else count_suppressed _).
  assert (Hc5 : conn s5 = conn s1) by (unfold s5, surface, count_suppressed; split_ifs; reflexivity).
  rewrite <- Hc5. clearbody s5.
  assert (Hs : forall text s', conn (surface cfg text s') = conn s').
  { intros. unfold surface. by destruct (_ && _). }
  destruct (_ || _); [apply adds_refl|].
  destruct (hasNonProjectSandboxToolPath _ _); [cbn [fst]; rewrite Hs; exact (lock_adds s5)|].
  destruct (negb _); [cbn [fst]; rewrite Hs; exact (lock_adds s5)|apply adds_refl].
Qed.

Lemma silent_write f imm a b c s : said (WFrame f) = (EmptyString, EmptyString) ->
  adds a b c (conn s) -> adds a b c (conn (write_block cfg wfail f imm false s)).
Proof using Hstream Hformat Hwrites.
  intros Hf Ha. apply (adds_last _ _ _ _ _ Ha). pose proof (delta_adds f imm s s eq_refl) as Hw.
  by rewrite Hf in Hw.
Qed.

Lemma emitToolUse_adds toolID toolName input s :
  adds EmptyString EmptyString (conn s) (conn (emitToolUseFromInput cfg wfail tick toolID toolName input s)).
Proof using Hstream Hformat Hwrites.
  unfold emitToolUseFromInput. destruct (_ || _); [apply adds_refl|]. destruct (bool_decide _); [apply adds_refl|].
  set (s0 := on_calls _ s). change (conn s) with (conn s0). clearbody s0.
  apply (adds_silent _ _ _ _ _ (addOutputTokens_adds toolName s0)). apply adds_lock.
  set (s2 := lock cfg wfail tick _). clearbody s2. cbv zeta.
  apply (adds_silent _ _ _ (conn (on_conn (fun c => c <| blockIndex := (blockIndex c + 1)%Z |>)
    (on_calls (fun c => c <| toolCallCount := (toolCallCount c + 1)%Z |>) s2)))).
  { by apply (adds_same_conn _ _ _ (conn s2)), adds_refl. }
  set (s3 := on_conn _ (on_calls _ s2)). clearbody s3.
  unfold writeSSEContentBlockStartToolUseLocked, writeSSEContentBlockDeltaInputJSONLocked,
    writeSSEContentBlockStopLocked.
  do 3 (apply silent_write; [reflexivity|]). apply adds_refl.
Qed.

Lemma tool_call_adds msg s :
  panicked (conn (tool_call_event cfg wfail tick msg s)) = false ->
  adds EmptyString EmptyString (conn s) (conn (tool_call_event cfg wfail tick msg s)).
Proof using Hstream Hformat Hwrites.
  unfold tool_call_event. destruct (normalizeUpstreamToolCall _ _) as [name input]. cbv zeta.
  destruct (rewriteToolCallToClient _ _ _) as [[name' input']|e]; [intros _|done].
  apply adds_lock. set (s1 := lock cfg wfail tick s). clearbody s1.
  destruct (String.eqb _ _); [apply adds_refl|]. destruct (bool_decide _); [apply adds_refl|].
  pose proof (shouldAccept_adds (mkToolCall (event_str msg "toolCallId") name' input') s1) as Ha.
  destruct (shouldAcceptToolCall _ _ _ _ _) as [s2 ok]. cbn [fst] in Ha. apply (adds_silent _ _ _ _ _ Ha).
  destruct ok; cbn [negb]; [|apply adds_refl]. rewrite Hstream.
  match goal with |- context [emitToolUseFromInput _ _ _ ?a ?b ?c ?s3] => exact (emitToolUse_adds a b c s3) end.
Qed.

Lemma usage_adds usage s :
  adds EmptyString EmptyString (conn s) (conn (applyUpstreamUsageTokens cfg wfail tick usage s)).
Proof using Hwrites.
  unfold applyUpstreamUsageTokens. destruct usage; [apply adds_refl|]. cbv zeta.
  destruct (negb _); [apply adds_refl|exact (lock_adds s)].
Qed.

(** *** Events *)

(** The text and the reasoning of an event; none of a finish. *)
Definition message_text (msg : SSEMessage) : string :=
  if String.eqb (eventKey msg) "model.text-delta" then event_str msg "delta" else EmptyString.
Definition message_reasoning (msg : SSEMessage) : string :=
  if String.eqb (eventKey msg) "model.reasoning-delta" && negb (suppressThinking cfg)
  then event_str msg "delta" else EmptyString.

Lemma message_adds msg s :
  healthy (conn s) -> eventKey msg <> "model.finish" ->
  panicked (conn (handleMessage cfg wfail tick msg s)) = false ->
  adds (message_text msg) (message_reasoning msg) (conn s) (conn (handleMessage cfg wfail tick msg s)).
Proof using Hstream Hformat Hwrites.
  intros (_ & Hret & _ & Hpan) Hfin. unfold handleMessage, message_text, message_reasoning.
  rewrite Hpan, Hret. cbv zeta. generalize (eventKey msg) Hfin. clear Hfin. intros key Hfin Hp.
  repeat match type of Hp with context [String.eqb key ?k] =>
    destruct (String.eqb_spec key k) as [->|?]; [try congruence|] end;
  repeat match goal with H : ?k <> _ |- context [String.eqb ?k ?k'] => rewrite (proj2 (String.eqb_neq k k') H) end;
  [..|(destruct (_ && _); apply adds_refl)];
  match goal with |- context [HasPrefix ?k ?p] =>
    let b := eval vm_compute in (HasPrefix k p) in change (HasPrefix k p) with b in Hp |- * end;
  repeat match goal with |- context [String.eqb ?k ?k'] =>
    is_ground k; let b := eval vm_compute in (String.eqb k k') in change (String.eqb k k') with b in Hp |- * end;
  destruct (suppressThinking cfg); cbn [andb negb] in Hp |- *;
  first [ apply adds_refl | apply reasoning_start_adds | apply reasoning_delta_adds | apply text_delta_adds
        | exact (closeLocked_adds _) | exact (ensureBlock_adds BlockText s) | by apply tool_call_adds
        | apply usage_adds | (destruct (nonempty _); [exact (lock_adds s)|apply adds_refl])
        | apply adds_lock, closeLocked_adds ].
Qed.

Lemma run_adds msgs s :
  healthy (conn s) -> Forall (fun msg => eventKey msg <> "model.finish") msgs ->
  panicked (conn (run cfg wfail tick (map OpMessage msgs) s)) = false ->
  adds (foldr (fun msg acc => message_text msg +:+ acc) EmptyString msgs)
       (foldr (fun msg acc => message_reasoning msg +:+ acc) EmptyString msgs)
       (conn s) (conn (run cfg wfail tick (map OpMessage msgs) s)).
Proof using Hstream Hformat Hwrites.
  unfold run. revert s; induction msgs as [|msg msgs IH]; intros s Hh Hf Hp; [apply adds_refl|].
  apply Forall_cons in Hf as [Hm Hf]. cbn [map foldl foldr] in Hp |- *.
  assert (Hs : step cfg wfail tick (OpMessage msg) s = handleMessage cfg wfail tick msg s).
  { unfold step. destruct Hh as (_ & _ & _ & Hpan). by rewrite Hpan. }
  rewrite Hs in Hp |- *. set (s1 := handleMessage cfg wfail tick msg s) in *.
  assert (Hp1 : panicked (conn s1) = false).
  { destruct (panicked (conn s1)) eqn:Hp1; [|done]. exfalso.
    assert (Hstuck : foldl (fun s op => step cfg wfail tick op s) s1 (map OpMessage msgs) = s1).
    { clear -Hp1. induction msgs as [|m ms IHm]; [done|]. cbn. unfold step at 2. by rewrite Hp1. }
    rewrite Hstuck in Hp. congruence. }
  pose proof (message_adds msg s Hh Hm Hp1) as Ha. destruct (Ha Hh) as [Hh1 _].
  exact (adds_trans _ _ _ _ _ _ _ Ha (IH s1 Hh1 Hf Hp)).
Qed.
End Faithful.


(** ** Concrete runs *)
Definition print_all : UnicodeTable := {| IsPrint := fun _ => true |}.
#[local] Existing Instance print_all.
Definition plain_cfg : Cfg :=
  mkCfg true false false true "msg_1" 0 "m" false false ∅ [] None.
Definition model_event (fs : list (string * json)) : SSEMessage := mkSSEMessage "model" (Some fs).
Definition says (kind delta : string) : SSEMessage :=
  model_event [("type", JStr kind); ("delta", JStr delta)].
Definition conversation : list SSEMessage :=
  [ says "reasoning-delta" "hm"; says "text-delta" "Hel";
    model_event [("type", JStr "tool-call"); ("toolCallId", JStr "t1"); ("toolName", JStr "lookup");
                 ("input", JStr (js "{'q':1}"))];
    says "text-delta" "lo" ].
(** The third write to the response fails in part. *)
Definition third_write (n : nat) : bool := (n =? 6)%nat.

Lemma relay_wire_accepted_witness :
  isStream plain_cfg = true /\
  exists c, client_run (wire (conn (run plain_cfg third_write (fun _ => 1)
    (map OpMessage conversation ++ [OpNextRound; OpReport "timeout" "late" 0]) newStreamHandler))) = Some c.
Proof. split; [done|]. by apply relay_wire_accepted. Defined.

Lemma response_completes_witness :
  panicked (conn (run plain_cfg (fun _ => false) (fun _ => 1) (map OpMessage conversation) newStreamHandler)) = false /\
  client_run (wire (conn (run plain_cfg (fun _ => false) (fun _ => 1)
    (map OpMessage conversation ++ [OpForceFinish]) newStreamHandler))) = Some CDone.
Proof.
  split; [by vm_compute|].
  destruct (response_completes plain_cfg (fun _ => false) (fun _ => 1) (map OpMessage conversation) newStreamHandler)
    as [Hd|_]; [done|done|done|by vm_compute|exact Hd|by vm_compute].
Defined.


(** The check of a strict structured output reads [responseText], which a stream
    does not keep: the same answer that a non-stream response reports as a
    schema mismatch is streamed as a success. *)
Definition strict_cfg (stream : bool) : Cfg :=
  plain_cfg <| isStream := stream |> <| structured := Some (fun _ => Some "schema mismatch") |>.
Example strict_answer_streamed :
  let answer stream := wire (conn (run (strict_cfg stream) (fun _ => false) (fun _ => 0)
    [OpMessage (says "text-delta" "not the schema"); OpForceFinish] newStreamHandler)) in
  client_run (answer true) = Some CDone /\ client_run (answer false) = Some CFailed.
Proof. vm_compute. done. Qed.

(** The tokens estimated for the reasoning of a stream are overwritten by the
    estimate of its text when the response finishes. *)
Example reasoning_tokens_lost :
  let s := run plain_cfg (fun _ => false) (fun _ => 0)
    [OpMessage (says "reasoning-delta" "one two three"); OpMessage (says "text-delta" "ok")] newStreamHandler in
  outputTokens (meter s) = 3%Z /\
  outputTokens (meter (step plain_cfg (fun _ => false) (fun _ => 0) OpForceFinish s)) = 1%Z.
Proof. vm_compute. done. Qed.
