(* ===== verification/ClientCache.v ===== *)
(** * The per-account client cache (src/internal/handler/client_cache.go)

    A client is built from an account and the configuration, kept for the next
    request of the account, and replaced when a credential changes. [Cache] is the
    [accountClientCache]; a client is a pointer, named by the order of building.
    The lock is released between the steps of an acquisition, so [step] runs one
    critical section of one request at a time and [World] records where each
    request is. [fingerprint_bytes] is what the fingerprint hashes. *)

From Stdlib Require Import Ascii.
From stdpp Require Import base numbers list strings gmap pretty.
From S2P Require Import Prelude GoLib Account.

Local Open Scope orchids_scope.

(** ** The fingerprint *)

(** The settings a provider client captures when it is built. *)
Record ClientConfig := mkClientConfig {
  WorkBuddyBaseURL : string; QoderProtocolProfile : string; QoderOAuthBaseURL : string;
  QoderOpenAPIBaseURL : string; QoderInferenceURL : string; QoderClientID : string;
  QoderClientVersion : string; ClineAPIBaseURL : string; ClineWorkOSClientID : string;
  ClineWorkOSAuthorizeURL : string; ClineWorkOSTokenURL : string; ProxyURL : string;
  ProxyHTTP : string; ProxyHTTPS : string; ProxyUser : string; ProxyPass : string;
  RequestTimeout : Z; UpstreamMaxConnsPerHost : Z; UpstreamMaxIdleConnsPerHost : Z;
  QoderHTTP2Enabled : bool; ClineHTTP2Enabled : bool; WorkBuddyHTTP2Enabled : bool;
  ProxyBypass : list string
}.

Definition NUL : string := String (ascii_of_nat 0) EmptyString.
Definition writeString (value : string) : string := value +:+ NUL.
Definition writeBool (value : bool) : string :=
  String (ascii_of_nat (if value then 1 else 0)) EmptyString +:+ NUL.
Definition writeInt64 (value : Z) : string := fmt_d value +:+ NUL.
Definition write_all (values : list string) : string := foldr (fun v acc => writeString v +:+ acc) EmptyString values.
Definition writeStrings (values : list string) : string :=
  writeInt64 (Z.of_nat (length values)) +:+ write_all values.
Definition FormatBool (b : bool) : string := if b then "true" else "false".

(** What is written, in order: one value per call of the writers. *)
Inductive written :=
| WString (value : string)
| WBool (value : bool)
| WStrings (values : list string).
Definition write (w : written) : string :=
  match w with
  | WString v => writeString v
  | WBool b => writeBool b
  | WStrings vs => writeStrings vs
  end.
Definition WInt (z : Z) : written := WString (fmt_d z).
(** [UnixNano] wraps for a time too far from the epoch. *)
Definition UnixNano (t : Time) : Z := wrap64 (t - unix_epoch).

Definition account_fields (acc : Account) : list written :=
  [ WInt (ID acc); WString (Name acc); WString (AccountType acc); WString (ClientCookie acc);
    WString (RefreshToken acc); WString (UserID acc); WString (AgentMode acc); WString (Email acc);
    WString (Token acc); WString (WorkBuddyAccessToken acc); WString (WorkBuddyRefreshToken acc);
    WString (WorkBuddyUID acc); WInt (UnixNano (WorkBuddyExpiresAt acc)); WStrings (WorkBuddyModelIDs acc);
    WString (QoderAccessToken acc); WString (QoderRefreshToken acc); WInt (UnixNano (QoderExpiresAt acc));
    WString (QoderMachineID acc); WString (QoderUserID acc); WString (QoderUserName acc);
    WString (QoderOrganizationID acc); WStrings (QoderOrganizationTags acc); WBool (QoderDataPolicy acc);
    WStrings (QoderModelIDs acc); WString (ClineAccessToken acc); WString (ClineRefreshToken acc);
    WInt (UnixNano (ClineExpiresAt acc)); WString (ClineEmail acc); WStrings (ClineModelIDs acc) ].

Definition config_fields (cfg : ClientConfig) : list written :=
  [ WString (WorkBuddyBaseURL cfg); WString (QoderProtocolProfile cfg); WString (QoderOAuthBaseURL cfg);
    WString (QoderOpenAPIBaseURL cfg); WString (QoderInferenceURL cfg); WString (QoderClientID cfg);
    WString (QoderClientVersion cfg); WString (ClineAPIBaseURL cfg); WString (ClineWorkOSClientID cfg);
    WString (ClineWorkOSAuthorizeURL cfg); WString (ClineWorkOSTokenURL cfg); WString (ProxyURL cfg);
    WString (ProxyHTTP cfg); WString (ProxyHTTPS cfg); WString (ProxyUser cfg); WString (ProxyPass cfg);
    WInt (RequestTimeout cfg); WInt (UpstreamMaxConnsPerHost cfg); WInt (UpstreamMaxIdleConnsPerHost cfg);
    WString (FormatBool (QoderHTTP2Enabled cfg)); WString (FormatBool (ClineHTTP2Enabled cfg));
    WString (FormatBool (WorkBuddyHTTP2Enabled cfg)) ].

Definition write_fields (fields : list written) : string :=
  foldr (fun w acc => write w +:+ acc) EmptyString fields.

Definition fingerprint_bytes (acc : Account) (cfg : option ClientConfig) : string :=
  write_fields (account_fields acc) +:+
  match cfg with
  | Some cfg => write_fields (config_fields cfg) +:+ write_all (ProxyBypass cfg)
  | None => EmptyString
  end.

(** ** The cache *)
Abbreviation client := nat (only parsing).

Record cachedAccountClient := mkEntry { fingerprint : string; entry_client : client; inUse : Z }.

(** [closed] is the [Close] calls made so far; [built] counts the clients. *)
Record Cache := mkCache {
  entries : gmap Z cachedAccountClient;
  retired : list (client * Z);
  closed : list client;
  built : client
}.
#[export] Instance Cache_eta : Eta Cache := fun c => mkCache (entries c) (retired c) (closed c) (built c).

Definition newAccountClientCache : Cache := mkCache ∅ [] [] 0.

Definition Close (cl : client) (c : Cache) : Cache := c <| closed := closed c ++ [cl] |>.

(** Retire a client that is in use, close it otherwise. *)
Definition retire_or_close (e : cachedAccountClient) (c : Cache) : Cache :=
  if (0 <? inUse e)%Z then c <| retired := retired c ++ [(entry_client e, inUse e)] |>
  else Close (entry_client e) c.

Definition dropLocked (id : Z) (e : cachedAccountClient) (c : Cache) : Cache :=
  retire_or_close e (c <| entries := delete id (entries c) |>).

Definition evictByID (id : Z) (c : Cache) : Cache :=
  match entries c !! id with Some e => dropLocked id e c | None => c end.

Definition evictIfChanged (id : Z) (fp : string) (c : Cache) : Cache * bool :=
  match entries c !! id with
  | Some e => if String.eqb (fingerprint e) fp then (c, false) else (dropLocked id e c, true)
  | None => (c, false)
  end.

(** [evictAccounts]: [resolve] reads an account's current state and gives the
    fingerprint it builds; [None] when the account is gone. *)
Definition evictAccounts (resolve : Z -> option string) (ids : list Z) (c : Cache) : Cache :=
  foldl (fun c id =>
    if (id =? 0)%Z then c
    else match resolve id with
         | None => evictByID id c
         | Some fp => (evictIfChanged id fp c).1
         end) c ids.

(** The three critical sections of an acquisition. *)
Definition cached_client (id : Z) (fp : string) (c : Cache) : option client :=
  match entries c !! id with
  | Some e => if String.eqb (fingerprint e) fp then Some (entry_client e) else None
  | None => None
  end.

Definition buildAccountClient (c : Cache) : Cache * client := (c <| built := S (built c) |>, built c).

Definition install (id : Z) (fp : string) (cl : client) (c : Cache) : Cache * client :=
  match cached_client id fp c with
  | Some cl' => (Close cl c, cl')
  | None =>
      let c := match entries c !! id with Some e => retire_or_close e c | None => c end in
      (c <| entries := <[id := mkEntry fp cl 0]> (entries c) |>, cl)
  end.

Definition mark_used (id : Z) (cl : client) (c : Cache) : Cache :=
  match entries c !! id with
  | Some e => if decide (entry_client e = cl)
              then c <| entries := <[id := mkEntry (fingerprint e) cl (inUse e + 1)]> (entries c) |> else c
  | None => c
  end.

(** The retired client found first, with one use less. *)
Fixpoint release_retired (cl : client) (l : list (client * Z)) : list (client * Z) * bool :=
  match l with
  | [] => ([], false)
  | (cl', n) :: l' =>
      if decide (cl' = cl) then
        let n := if (0 <? n)%Z then (n - 1)%Z else n in
        if (n =? 0)%Z then (l', true) else ((cl', n) :: l', false)
      else let '(l'', close) := release_retired cl l' in ((cl', n) :: l'', close)
  end.

Definition release (id : Z) (cl : client) (c : Cache) : Cache :=
  let from_retired (c : Cache) : Cache :=
    let '(l, close) := release_retired cl (retired c) in
    let c := c <| retired := l |> in
    if close then Close cl c else c in
  match entries c !! id with
  | Some e =>
      if decide (entry_client e = cl) then
        let n := if (0 <? inUse e)%Z then (inUse e - 1)%Z else inUse e in
        c <| entries := <[id := mkEntry (fingerprint e) cl n]> (entries c) |>
      else from_retired c
  | None => from_retired c
  end.

(** [Handler.Close]: every client of the cache is closed. *)
Definition CloseAll (c : Cache) : Cache :=
  mkCache ∅ [] (closed c ++ ((entry_client ∘ snd) <$> map_to_list (entries c)) ++ (retired c).*1) (built c).

(** ** Requests *)

(** Where a request is: it wants the client of account [id] with fingerprint [fp];
    it has built one; it has one but is not counted yet; it holds it. *)
Inductive pc :=
| Wants (id : Z) (fp : string)
| HasBuilt (id : Z) (fp : string) (cl : client)
| Got (id : Z) (cl : client)
| Holds (id : Z) (cl : client).

Record World := mkWorld { cache : Cache; requests : gmap nat pc }.

Inductive Op :=
| OpStart (r : nat) (id : Z) (fp : string)
| OpRun (r : nat)                       (* the next critical section of a request *)
| OpRelease (r : nat)
| OpEvict (resolve : list (Z * option string))
| OpCloseAll.

Definition set_pc (r : nat) (p : pc) (w : World) : World := mkWorld (cache w) (<[r := p]> (requests w)).

Definition run_section (p : pc) (c : Cache) : Cache * pc :=
  match p with
  | Wants id fp =>
      match cached_client id fp c with
      | Some cl => (c, Got id cl)
      | None => let '(c, cl) := buildAccountClient c in (c, HasBuilt id fp cl)
      end
  | HasBuilt id fp cl => let '(c, cl) := install id fp cl c in (c, Got id cl)
  | Got id cl => (mark_used id cl c, Holds id cl)
  | Holds id cl => (c, p)
  end.

Definition step (op : Op) (w : World) : World :=
  match op with
  | OpStart r id fp => match requests w !! r with None => set_pc r (Wants id fp) w | _ => w end
  | OpRun r =>
      match requests w !! r with
      | Some p => let '(c, p) := run_section p (cache w) in mkWorld c (<[r := p]> (requests w))
      | None => w
      end
  | OpRelease r =>
      match requests w !! r with
      | Some (Holds id cl) => mkWorld (release id cl (cache w)) (delete r (requests w))
      | _ => w
      end
  | OpEvict changes =>
      let resolve id := default None (snd <$> List.find (fun kv => (fst kv =? id)%Z) changes) in
      mkWorld (evictAccounts resolve changes.*1 (cache w)) (requests w)
  | OpCloseAll => mkWorld (CloseAll (cache w)) (requests w)
  end.

Definition empty_world : World := mkWorld newAccountClientCache ∅.
Definition run (ops : list Op) (w : World) : World := foldl (fun w op => step op w) w ops.

(** A whole acquisition with nothing in between. *)
Definition acquire (r : nat) (id : Z) (fp : string) : list Op := [OpStart r id fp; OpRun r; OpRun r; OpRun r].

(** ** Every client is somewhere, and in one place *)
Definition cur (m : gmap Z cachedAccountClient) : list client := entry_client <$> (map_to_list m).*2.
Definition clients_of (c : Cache) : list client := cur (entries c) ++ (retired c).*1 ++ closed c.
Definition building_of (p : pc) : option client := match p with HasBuilt _ _ cl => Some cl | _ => None end.
Definition holder_of (p : pc) : option client := match p with Holds _ cl => Some cl | _ => None end.
Definition collect (f : pc -> option client) (rs : gmap nat pc) : list client := omap f (map_to_list rs).*2.
Definition building : gmap nat pc -> list client := collect building_of.
Definition holders : gmap nat pc -> list client := collect holder_of.

Lemma cur_delete m id e : m !! id = Some e -> cur m ≡ₚ entry_client e :: cur (delete id m).
Proof. intros He. unfold cur. by rewrite <- (map_to_list_delete m id e He). Qed.

Lemma cur_insert m id e : cur (<[id := e]> m) ≡ₚ entry_client e :: cur (delete id m).
Proof.
  unfold cur. rewrite <- insert_delete_eq. by rewrite map_to_list_insert by apply lookup_delete_eq.
Qed.

Lemma collect_delete f rs r p : rs !! r = Some p ->
  collect f rs ≡ₚ option_list (f p) ++ collect f (delete r rs).
Proof.
  intros Hp. unfold collect. rewrite <- (map_to_list_delete rs r p Hp). cbn. by destruct (f p).
Qed.

Lemma collect_insert f rs r p :
  collect f (<[r := p]> rs) ≡ₚ option_list (f p) ++ collect f (delete r rs).
Proof.
  unfold collect. rewrite <- insert_delete_eq, map_to_list_insert by apply lookup_delete_eq. cbn.
  by destruct (f p).
Qed.

Lemma retire_clients e c : clients_of (retire_or_close e c) ≡ₚ entry_client e :: clients_of c.
Proof.
  unfold retire_or_close, Close, clients_of. destruct (0 <? inUse e)%Z; cbn; rewrite ?fmap_app; cbn;
    rewrite ?app_assoc; solve_Permutation.
Qed.

Lemma retire_entries e c : entries (retire_or_close e c) = entries c /\ built (retire_or_close e c) = built c.
Proof. unfold retire_or_close. by destruct (0 <? inUse e)%Z. Qed.

Lemma drop_clients id e c : entries c !! id = Some e -> clients_of (dropLocked id e c) ≡ₚ clients_of c.
Proof.
  intros He. unfold dropLocked. rewrite retire_clients. unfold clients_of. cbn.
  by rewrite (cur_delete _ _ _ He).
Qed.

Lemma evict_clients resolve ids c :
  clients_of (evictAccounts resolve ids c) ≡ₚ clients_of c /\ built (evictAccounts resolve ids c) = built c.
Proof.
  unfold evictAccounts. revert c; induction ids as [|id ids IH]; intros c; [done|]. cbn [foldl].
  match goal with |- context [foldl _ ?c1 ids] => specialize (IH c1); destruct IH as [-> ->];
    enough (clients_of c1 ≡ₚ clients_of c /\ built c1 = built c) by done end.
  destruct (id =? 0)%Z; [done|]. destruct (resolve id) as [fp|]; unfold evictByID, evictIfChanged.
  - destruct (entries c !! id) as [e|] eqn:He; [|done]. destruct (String.eqb _ _); [done|]. cbn [fst].
    split; [by apply drop_clients|exact (proj2 (retire_entries e _))].
  - destruct (entries c !! id) as [e|] eqn:He; [|done]. split; [by apply drop_clients|exact (proj2 (retire_entries e _))].
Qed.

Lemma install_clients id fp cl c :
  clients_of (install id fp cl c).1 ≡ₚ cl :: clients_of c /\ built (install id fp cl c).1 = built c.
Proof.
  unfold install. destruct (cached_client id fp c) as [cl'|].
  { split; [|done]. unfold clients_of. cbn. solve_Permutation. }
  destruct (entries c !! id) as [e|] eqn:He; cbn.
  - destruct (retire_entries e c) as [Hen Hb]. split; [|by rewrite Hb].
    pose proof (retire_clients e c) as Hp. revert Hp. unfold clients_of. cbn.
    rewrite Hen, cur_insert, (cur_delete _ _ _ He). cbn. intros Hp.
    apply (Permutation_cons_inv (a := entry_client e)). rewrite Permutation_swap, Hp. solve_Permutation.
  - split; [|done]. unfold clients_of. cbn. rewrite cur_insert, delete_id by done. done.
Qed.

Lemma mark_clients id cl c :
  clients_of (mark_used id cl c) ≡ₚ clients_of c /\ built (mark_used id cl c) = built c.
Proof.
  unfold mark_used. destruct (entries c !! id) as [e|] eqn:He; [|done]. case_decide as Hcl; [|done].
  split; [|done]. unfold clients_of. cbn. by rewrite cur_insert, (cur_delete _ _ _ He), Hcl.
Qed.

Lemma release_retired_clients cl l :
  let '(l', close) := release_retired cl l in
  (if close then cl :: l'.*1 else l'.*1) ≡ₚ l.*1.
Proof.
  induction l as [|[cl' n] l IH]; cbn; [done|]. case_decide as Hcl.
  - subst. destruct (_ =? 0)%Z; done.
  - destruct (release_retired cl l) as [l' []]; cbn.
    + rewrite Permutation_swap. by apply perm_skip.
    + by apply perm_skip.
Qed.

Lemma release_clients id cl c :
  clients_of (release id cl c) ≡ₚ clients_of c /\ built (release id cl c) = built c.
Proof.
  unfold release. pose proof (release_retired_clients cl (retired c)) as Hr.
  destruct (release_retired cl (retired c)) as [l close].
  assert (Hfrom : let c' := c <| retired := l |> in
    clients_of (if close then Close cl c' else c') ≡ₚ clients_of c /\
    built (if close then Close cl c' else c') = built c).
  { split; [|by destruct close]. unfold clients_of. destruct close; cbn; rewrite <- Hr; solve_Permutation. }
  destruct (entries c !! id) as [e|] eqn:He; [|exact Hfrom]. case_decide as Hcl; [|exact Hfrom].
  split; [|done]. unfold clients_of. cbn. by rewrite cur_insert, (cur_delete _ _ _ He), Hcl.
Qed.

(** Every client built is current, retired, closed or still in the hands of the
    request that built it, and it is in one of these places only. *)
Definition placed (w : World) : Prop :=
  seq 0 (built (cache w)) ≡ₚ clients_of (cache w) ++ building (requests w).

Lemma run_section_placed c p c' p' :
  run_section p c = (c', p') ->
  exists new, seq 0 (built c') ≡ₚ new ++ seq 0 (built c) /\
    clients_of c' ++ option_list (building_of p') ≡ₚ new ++ clients_of c ++ option_list (building_of p).
Proof.
  destruct p as [id fp|id fp cl|id cl|id cl]; cbn.
  - destruct (cached_client id fp c) as [cl|]; intros [= <- <-]; [by exists []|].
    exists [built c]. cbn -[seq]. rewrite seq_S. split; [solve_Permutation|].
    unfold clients_of. cbn. solve_Permutation.
  - pose proof (install_clients id fp cl c) as [Hi Hb]. destruct (install id fp cl c) as [c1 cl1].
    intros [= <- <-]. exists []. cbn in Hi, Hb |- *. rewrite Hb, Hi. split; [done|]. solve_Permutation.
  - intros [= <- <-]. destruct (mark_clients id cl c) as [Hm Hb]. exists []. by rewrite Hm, Hb.
  - intros [= <- <-]. by exists [].
Qed.

Lemma step_placed op w : placed w -> placed (step op w).
Proof.
  unfold placed. intros Hw. destruct op as [r id fp|r|r|changes|]; cbn.
  - destruct (requests w !! r) eqn:Hr; [done|]. cbn. unfold building. by rewrite collect_insert, delete_id.
  - destruct (requests w !! r) as [p|] eqn:Hr; [|done].
    destruct (run_section p (cache w)) as [c' p'] eqn:Hs. cbn.
    destruct (run_section_placed _ _ _ _ Hs) as (new & H1 & H2).
    unfold building in *. rewrite H1, Hw, collect_insert, (collect_delete _ _ _ _ Hr), !app_assoc, H2. solve_Permutation.
  - destruct (requests w !! r) as [[]|] eqn:Hr; try done. cbn.
    destruct (release_clients id cl (cache w)) as [Hc ->]. unfold building in *. rewrite Hc, Hw, (collect_delete _ _ _ _ Hr). done.
  - destruct (evict_clients (fun id => default None (snd <$> List.find (fun kv => (fst kv =? id)%Z) changes))
      changes.*1 (cache w)) as [-> ->]. done.
  - rewrite Hw. unfold clients_of, cur. cbn. rewrite list_fmap_compose. solve_Permutation.
Qed.

Lemma run_placed ops w : placed w -> placed (run ops w).
Proof. unfold run. revert w; induction ops as [|op ops IH]; intros w Hw; [done|]. by apply IH, step_placed. Qed.

Lemma empty_placed : placed empty_world.
Proof. unfold placed, clients_of, cur, building, collect. cbn. by rewrite !map_to_list_empty. Qed.

(** C36: under any interleaving of requests, evictions and the shutdown no client is
    closed twice, and none is lost: a client that was built is current, retired,
    closed or in the hands of the request that is about to install it. *)
Theorem closed_at_most_once ops :
  let w := run ops empty_world in
  NoDup (closed (cache w)) /\
  forall cl, cl < built (cache w) ->
    cl ∈ closed (cache w) \/ cl ∈ cur (entries (cache w)) \/ cl ∈ (retired (cache w)).*1 \/
    cl ∈ building (requests w).
Proof.
  intros w. pose proof (run_placed ops empty_world empty_placed) as Hw. fold w in Hw. unfold placed in Hw.
  assert (Hnd : NoDup (clients_of (cache w) ++ building (requests w))) by (rewrite <- Hw; apply NoDup_seq).
  split.
  - apply NoDup_app in Hnd as (Hnd & _). unfold clients_of in Hnd.
    apply NoDup_app in Hnd as (_ & _ & Hnd). by apply NoDup_app in Hnd as (_ & _ & Hnd).
  - intros cl Hlt. assert (Hin : cl ∈ clients_of (cache w) ++ building (requests w)).
    { rewrite <- Hw. apply elem_of_seq. lia. }
    unfold clients_of in Hin. rewrite !elem_of_app in Hin. tauto.
Qed.

(** ** A client in use is never closed

    For acquisitions that nothing interrupts. *)
Definition uses (rs : gmap nat pc) (cl : client) : Z :=
  Z.of_nat (length (filter (fun cl' => cl' = cl) (holders rs))).

Definition kept (c : Cache) (id : Z) (cl : client) : Prop :=
  cl ∈ (retired c).*1 \/ exists e, entries c !! id = Some e /\ entry_client e = cl.

Record counted (c : Cache) (rs : gmap nat pc) : Prop := mkCounted {
  only_holders : forall r p, rs !! r = Some p -> exists id cl, p = Holds id cl /\ kept c id cl;
  entry_uses : forall id e, entries c !! id = Some e -> inUse e = uses rs (entry_client e);
  retired_uses : forall cl n, (cl, n) ∈ retired c -> n = uses rs cl /\ (0 < n)%Z
}.

Lemma uses_insert rs r id cl cl' : rs !! r = None ->
  uses (<[r := Holds id cl]> rs) cl' = (uses rs cl' + if decide (cl = cl') then 1 else 0)%Z.
Proof.
  intros Hr. unfold uses, holders. rewrite collect_insert, delete_id by done.
  change (option_list (holder_of (Holds id cl))) with [cl]. rewrite filter_app, filter_cons, filter_nil, length_app. case_decide; cbn [length]; lia.
Qed.

Lemma uses_delete rs r id cl cl' : rs !! r = Some (Holds id cl) ->
  uses rs cl' = (uses (delete r rs) cl' + if decide (cl = cl') then 1 else 0)%Z.
Proof.
  intros Hr. unfold uses, holders. rewrite (collect_delete _ _ _ _ Hr).
  change (option_list (holder_of (Holds id cl))) with [cl]. rewrite filter_app, filter_cons, filter_nil, length_app. case_decide; cbn [length]; lia.
Qed.

Lemma uses_positive rs r id cl : rs !! r = Some (Holds id cl) -> (0 < uses rs cl)%Z.
Proof.
  intros Hr. rewrite (uses_delete _ _ _ _ cl Hr), decide_True by done. unfold uses. lia.
Qed.

Lemma uses_nonneg rs cl : (0 <= uses rs cl)%Z.
Proof. unfold uses. lia. Qed.

(** What being in one place gives. *)
Lemma distinct_entry c id e : NoDup (clients_of c) -> entries c !! id = Some e ->
  entry_client e ∉ (retired c).*1 /\ entry_client e ∉ closed c /\
  forall id' e', id' <> id -> entries c !! id' = Some e' -> entry_client e' <> entry_client e.
Proof.
  unfold clients_of. intros Hnd He. rewrite (cur_delete _ _ _ He) in Hnd. cbn in Hnd.
  apply NoDup_cons in Hnd as [Hni _]. rewrite !not_elem_of_app in Hni. destruct Hni as (Hc & Hr & Hcl).
  split; [done|]. split; [done|]. intros id' e' Hne He' Heq. apply Hc. rewrite <- Heq.
  unfold cur. apply list_elem_of_fmap. exists e'. split; [done|]. apply list_elem_of_fmap.
  exists (id', e'). split; [done|]. apply elem_of_map_to_list. by rewrite lookup_delete_ne.
Qed.

Lemma kept_open c id cl : NoDup (clients_of c) -> kept c id cl -> cl ∉ closed c.
Proof.
  intros Hnd [Hr|(e & He & <-)]; [|by apply (distinct_entry _ _ _ Hnd He)].
  unfold clients_of in Hnd. apply NoDup_app in Hnd as (_ & _ & Hnd). apply NoDup_app in Hnd as (_ & Hd & _).
  by apply Hd.
Qed.

(** Dropping an entry. *)
Lemma drop_counted c rs id e : NoDup (clients_of c) -> entries c !! id = Some e ->
  counted c rs -> counted (dropLocked id e c) rs.
Proof.
  intros Hnd He [H1 H2 H3]. pose proof (H2 _ _ He) as Hu. unfold dropLocked, retire_or_close, Close.
  destruct (0 <? inUse e)%Z eqn:Hin; cbn.
  - split; cbn.
    + intros r p Hp. destruct (H1 _ _ Hp) as (id' & cl & -> & Hk). exists id', cl. split; [done|].
      destruct Hk as [Hk|(e' & He' & <-)]; [left; cbn; rewrite fmap_app; set_solver|].
      destruct (decide (id' = id)) as [->|Hne].
      * left. cbn. rewrite fmap_app. assert (e' = e) as -> by congruence. cbn. set_solver.
      * right. exists e'. cbn. by rewrite lookup_delete_ne.
    + intros id' e' He'. apply lookup_delete_Some in He' as [_ He']. by apply (H2 id').
    + intros cl n [Hr|Hr]%elem_of_app; [by apply H3|]. apply list_elem_of_singleton in Hr as [= -> ->].
      split; [done|]. lia.
  - split; cbn.
    + intros r p Hp. destruct (H1 _ _ Hp) as (id' & cl & -> & Hk). exists id', cl. split; [done|].
      destruct Hk as [Hk|(e' & He' & <-)]; [by left|]. destruct (decide (id' = id)) as [->|Hne].
      * assert (e' = e) as -> by congruence. pose proof (uses_positive _ _ _ _ Hp). lia.
      * right. exists e'. cbn. by rewrite lookup_delete_ne.
    + intros id' e' He'. apply lookup_delete_Some in He' as [_ He']. by apply (H2 id').
    + apply H3.
Qed.

Lemma holders_elem rs cl : cl ∈ holders rs <-> exists r id, rs !! r = Some (Holds id cl).
Proof.
  unfold holders, collect. rewrite list_elem_of_omap. split.
  - intros (p & Hp & Hh). destruct p; cbn in Hh; try discriminate. injection Hh as ->.
    apply list_elem_of_fmap in Hp as ([r p] & Heq & Hin). cbn in Heq. subst.
    apply elem_of_map_to_list in Hin. eauto.
  - intros (r & id & Hr). exists (Holds id cl). split; [|done]. apply list_elem_of_fmap.
    exists (r, Holds id cl). split; [done|]. by apply elem_of_map_to_list.
Qed.

Lemma uses_zero rs cl : cl ∉ holders rs -> uses rs cl = 0%Z.
Proof.
  intros Hn. unfold uses. destruct (filter _ _) as [|x l] eqn:E; [done|].
  assert (Hx : x ∈ filter (fun cl' => cl' = cl) (holders rs)) by (rewrite E; by left).
  apply list_elem_of_filter in Hx as [-> Hx]. done.
Qed.

(** A fresh client is installed. *)
Lemma add_counted c rs id fp cl : entries c !! id = None -> cl ∉ holders rs ->
  counted c rs -> counted (c <| entries := <[id := mkEntry fp cl 0]> (entries c) |>) rs.
Proof.
  intros Hn Hcl [H1 H2 H3]. split; cbn; [| |apply H3].
  - intros r p Hp. destruct (H1 _ _ Hp) as (id' & cl' & -> & Hk). exists id', cl'. split; [done|].
    destruct Hk as [Hk|(e' & He' & <-)]; [by left|right]. exists e'. cbn. rewrite lookup_insert_ne by congruence. done.
  - intros id' e' He'. apply lookup_insert_Some in He' as [[<- <-]|[_ He']]; [|by apply (H2 id')].
    cbn. by rewrite uses_zero.
Qed.

(** A request is counted on the current client of an account. *)
Lemma hold_counted c rs r id e : NoDup (clients_of c) -> rs !! r = None -> entries c !! id = Some e ->
  counted c rs -> counted (mark_used id (entry_client e) c) (<[r := Holds id (entry_client e)]> rs).
Proof.
  intros Hnd Hr He [H1 H2 H3]. destruct (distinct_entry _ _ _ Hnd He) as (Hret & _ & Hother).
  unfold mark_used. rewrite He, decide_True by done. split; cbn.
  - intros r' p Hp. apply lookup_insert_Some in Hp as [[<- <-]|[Hne Hp]].
    + exists id, (entry_client e). split; [done|]. right. cbn. eexists. by rewrite lookup_insert_eq.
    + destruct (H1 _ _ Hp) as (id' & cl' & -> & Hk). exists id', cl'. split; [done|].
      destruct Hk as [Hk|(e' & He' & <-)]; [by left|right]. cbn. destruct (decide (id' = id)) as [->|Hd].
      * eexists. rewrite lookup_insert_eq. split; [done|]. cbn. congruence.
      * exists e'. by rewrite lookup_insert_ne.
  - intros id' e' He'. apply lookup_insert_Some in He' as [[<- <-]|[Hne He']]; cbn; rewrite uses_insert by done.
    + rewrite decide_True by done. by rewrite (H2 _ _ He).
    + rewrite decide_False by (intros Heq; by apply (Hother id' e')). rewrite (H2 _ _ He'). lia.
  - intros cl n Hin. rewrite uses_insert by done. destruct (H3 _ _ Hin) as [-> Hpos].
    rewrite decide_False; [lia|]. intros Heq. apply Hret. rewrite Heq. apply list_elem_of_fmap. by exists (cl, uses rs cl).
Qed.

Lemma release_retired_spec cl l n : NoDup l.*1 -> (cl, n) ∈ l -> (0 < n)%Z ->
  (release_retired cl l).2 = bool_decide (n = 1)%Z /\
  forall cl' n', (cl', n') ∈ (release_retired cl l).1 <->
    (cl' <> cl /\ (cl', n') ∈ l) \/ (cl' = cl /\ n' = (n - 1)%Z /\ (1 < n)%Z).
Proof.
  induction l as [|[cl0 n0] l IH]; intros Hnd Hin Hpos; [by apply elem_of_nil in Hin|].
  cbn in Hnd. apply NoDup_cons in Hnd as [Hni Hnd].
  assert (Hl : forall m, (cl0, m) ∈ l -> False).
  { intros m Hm. apply Hni, list_elem_of_fmap. by exists (cl0, m). }
  cbn [release_retired]. destruct (decide (cl0 = cl)) as [->|Hcl].
  - apply elem_of_cons in Hin as [[= <-]|Hin]; [|by destruct (Hl n)].
    rewrite (proj2 (Z.ltb_lt _ _)) by done. destruct (n - 1 =? 0)%Z eqn:Hz.
    + rewrite bool_decide_true by lia. split; [done|]. cbn. intros cl' n'. rewrite elem_of_cons. split.
      * intros Hin. left. split; [|by right]. intros ->. by apply (Hl n').
      * intros [(Hne & [[= -> ->]|Hin])|(_ & _ & ?)]; [done|done|lia].
    + rewrite bool_decide_false by lia. split; [done|]. cbn. intros cl' n'. rewrite !elem_of_cons. split.
      * intros [[= -> ->]|Hin]; [right; lia|]. left. split; [|by right]. intros ->. by apply (Hl n').
      * intros [(Hne & [[= -> ->]|Hin])|(-> & -> & _)]; [done|by right|by left].
  - apply elem_of_cons in Hin as [[= ? ?]|Hin]; [congruence|]. destruct (IH Hnd Hin Hpos) as [Hc Hspec].
    destruct (release_retired cl l) as [l' close]. cbn [fst snd] in *. split; [done|].
    intros cl' n'. rewrite !elem_of_cons, Hspec. split.
    + intros [[= -> ->]|[(? & ?)|?]]; [left; split; [done|by left]|left; split; [done|by right]|by right].
    + intros [(Hne & [[= -> ->]|Hin'])|?]; [by left|right; left; done|by right; right].
Qed.

(** Releasing a retired client. *)
Lemma retired_counted c rs r id cl : NoDup (clients_of c) -> rs !! r = Some (Holds id cl) ->
  cl ∈ (retired c).*1 -> counted c rs ->
  let '(l, close) := release_retired cl (retired c) in
  let c' := c <| retired := l |> in
  counted (if close then Close cl c' else c') (delete r rs).
Proof.
  intros Hnd Hr Hin [H1 H2 H3]. pose proof (fun cl' => uses_delete rs r id cl cl' Hr) as Hu.
  apply list_elem_of_fmap in Hin as ([cl0 n] & -> & Hin). cbn [fst] in *. destruct (H3 _ _ Hin) as [Hn Hpos].
  assert (Hndr : NoDup (retired c).*1).
  { unfold clients_of in Hnd. apply NoDup_app in Hnd as (_ & _ & Hnd). by apply NoDup_app in Hnd as (Hnd & _). }
  destruct (release_retired_spec cl0 (retired c) n Hndr Hin Hpos) as [Hclose Hspec].
  destruct (release_retired cl0 (retired c)) as [l close]. cbn [fst snd] in *.
  enough (Hc : counted (c <| retired := l |>) (delete r rs)) by (destruct close; [by destruct Hc; split|done]).
  pose proof (Hu cl0) as Hu0. rewrite decide_True in Hu0 by done. split; cbn.
  - intros r' p Hp. pose proof Hp as Hp'. apply lookup_delete_Some in Hp as [_ Hp].
    destruct (H1 _ _ Hp) as (id' & cl' & -> & Hk). exists id', cl'. split; [done|].
    destruct Hk as [Hk|He]; [left|by right]. cbn. apply list_elem_of_fmap in Hk as ([cl1 n1] & -> & Hk).
    cbn [fst] in *. apply list_elem_of_fmap. destruct (decide (cl1 = cl0)) as [->|Hne].
    + pose proof (uses_positive _ _ _ _ Hp'). exists (cl0, n - 1)%Z. split; [done|]. apply Hspec. right. split; [done|]. split; [done|]. lia.
    + exists (cl1, n1). split; [done|]. apply Hspec. by left.
  - intros id' e' He'. rewrite (H2 _ _ He'), (Hu (entry_client e')), decide_False; [lia|]. intros Heq.
    destruct (distinct_entry _ _ _ Hnd He') as (Hret & _). apply Hret. rewrite <- Heq.
    apply list_elem_of_fmap. by exists (cl0, n).
  - intros cl' n' Hin'. apply Hspec in Hin' as [(Hne & Hin')|(-> & -> & Hlt)].
    + destruct (H3 _ _ Hin') as [-> ?]. rewrite (Hu cl') in *. rewrite decide_False in * by congruence. lia.
    + lia.
Qed.

Lemma release_counted c rs r id cl : NoDup (clients_of c) -> rs !! r = Some (Holds id cl) ->
  counted c rs -> counted (release id cl c) (delete r rs).
Proof.
  intros Hnd Hr [H1 H2 H3]. pose proof (uses_positive _ _ _ _ Hr) as Hpos.
  pose proof (fun cl' => uses_delete rs r id cl cl' Hr) as Hu.
  destruct (H1 _ _ Hr) as (? & ? & [= <- <-] & Hk).
  unfold release. destruct (entries c !! id) as [e|] eqn:He; [case_decide as Hcl|].
  - subst cl. destruct (distinct_entry _ _ _ Hnd He) as (Hret & _ & Hother).
    rewrite (H2 _ _ He), (proj2 (Z.ltb_lt _ _)) by done. split; cbn.
    + intros r' p Hp. apply lookup_delete_Some in Hp as [_ Hp]. destruct (H1 _ _ Hp) as (id' & cl' & -> & Hk').
      exists id', cl'. split; [done|]. destruct Hk' as [Hk'|(e' & He' & <-)]; [by left|right]. cbn.
      destruct (decide (id' = id)) as [->|Hd].
      * eexists. rewrite lookup_insert_eq. split; [done|]. cbn. congruence.
      * exists e'. by rewrite lookup_insert_ne.
    + intros id' e' He'. apply lookup_insert_Some in He' as [[<- <-]|[Hne He']]; cbn.
      * specialize (Hu (entry_client e)). rewrite decide_True in Hu by done. lia.
      * rewrite (H2 _ _ He'), (Hu (entry_client e')), decide_False; [lia|]. intros Heq.
        by apply (Hother id' e').
    + intros cl' n Hin. destruct (H3 _ _ Hin) as [-> Hn]. rewrite (Hu cl') in Hn |- *.
      rewrite decide_False in *; [split; lia|..]; intros Heq; apply Hret; rewrite Heq;
        apply list_elem_of_fmap; by eexists (cl', _).
  - assert (Hin : cl ∈ (retired c).*1) by (destruct Hk as [Hk|(e' & He' & <-)]; [done|congruence]).
    pose proof (retired_counted c rs r id cl Hnd Hr Hin (mkCounted _ _ H1 H2 H3)) as Hrc.
    by destruct (release_retired cl (retired c)).
  - assert (Hin : cl ∈ (retired c).*1) by (destruct Hk as [Hk|(e' & He' & _)]; [done|congruence]).
    pose proof (retired_counted c rs r id cl Hnd Hr Hin (mkCounted _ _ H1 H2 H3)) as Hrc.
    by destruct (release_retired cl (retired c)).
Qed.

Lemma evict_counted resolve ids c rs : NoDup (clients_of c) -> counted c rs ->
  counted (evictAccounts resolve ids c) rs.
Proof.
  unfold evictAccounts. revert c; induction ids as [|id ids IH]; intros c Hnd Hc; [done|]. cbn [foldl].
  destruct (id =? 0)%Z; [by apply IH|].
  assert (Hdrop : forall e, entries c !! id = Some e ->
    NoDup (clients_of (dropLocked id e c)) /\ counted (dropLocked id e c) rs).
  { intros e He. split; [by rewrite drop_clients|by apply drop_counted]. }
  destruct (resolve id) as [fp|]; unfold evictIfChanged, evictByID; destruct (entries c !! id) as [e|] eqn:He;
    try (by apply IH); destruct (Hdrop e eq_refl); [destruct (String.eqb _ _)|]; by apply IH.
Qed.

(** An acquisition that nothing interrupts: the client it ends with is the current
    one of its account, and the cache before the use is counted is as before or
    has a new client installed. *)
Lemma acquire_run w r id fp : requests w !! r = None ->
  exists c e, entries c !! id = Some e /\
    run (acquire r id fp) w =
      mkWorld (mark_used id (entry_client e) c) (<[r := Holds id (entry_client e)]> (requests w)) /\
    (c = cache w \/
     exists c0, (c0 = cache w \/ exists e0, entries (cache w) !! id = Some e0 /\ c0 = dropLocked id e0 (cache w)) /\
       entry_client e = built (cache w) /\ inUse e = 0%Z /\ entries c0 !! id = None /\
       c = c0 <| built := S (built (cache w)) |> <| entries := <[id := e]> (entries c0) |>).
Proof.
  intros Hr. destruct w as [c rs]. cbn in Hr. unfold run, acquire. cbn [foldl]. unfold step at 4. cbn [requests].
  rewrite Hr. unfold set_pc. cbn [cache requests].
  unfold step at 3. cbn [requests]. rewrite lookup_insert_eq. cbn [run_section cache].
  destruct (cached_client id fp c) as [cl|] eqn:Hc.
  - unfold cached_client in Hc. destruct (entries c !! id) as [e|] eqn:He; [|done].
    destruct (String.eqb _ _); [|done]. injection Hc as <-. exists c, e. split; [done|]. split; [|by left].
    rewrite insert_insert_eq. unfold step at 2. cbn [requests]. rewrite lookup_insert_eq.
    cbn [run_section cache]. rewrite insert_insert_eq. unfold step. cbn [requests]. rewrite lookup_insert_eq.
    cbn [run_section cache]. by rewrite insert_insert_eq.
  - unfold buildAccountClient. rewrite insert_insert_eq. unfold step at 2. cbn [requests].
    rewrite lookup_insert_eq. cbn [run_section cache]. unfold install, cached_client. cbn [entries].
    change (entries (c <| built := S (built c) |>)) with (entries c).
    set (e := mkEntry fp (built c) 0).
    assert (Hfin : forall c1, entries c1 !! id = Some e ->
      step (OpRun r) (mkWorld c1 (<[r := Got id (built c)]> rs)) =
      mkWorld (mark_used id (entry_client e) c1) (<[r := Holds id (entry_client e)]> rs)).
    { intros c1 He. unfold step. cbn [requests]. rewrite lookup_insert_eq. cbn [run_section cache].
      by rewrite insert_insert_eq. }
    unfold cached_client in Hc. destruct (entries c !! id) as [e0|] eqn:He0.
    + destruct (String.eqb _ _); [done|]. rewrite insert_insert_eq, Hfin; [|cbn; by rewrite lookup_insert_eq].
      eexists _, e. split; [|split; [reflexivity|right]]; [cbn; by rewrite lookup_insert_eq|].
      exists (dropLocked id e0 c). split; [right; by exists e0|]. split; [done|]. split; [done|].
      destruct (retire_entries e0 (c <| entries := delete id (entries c) |>)) as [Hen _]. unfold dropLocked.
      rewrite Hen. split; [apply lookup_delete_eq|].
      unfold retire_or_close, Close. destruct (0 <? inUse e0)%Z; cbn; by rewrite insert_delete_eq.
    + rewrite insert_insert_eq, Hfin; [|cbn; by rewrite lookup_insert_eq].
      eexists _, e. split; [|split; [reflexivity|right]]; [cbn; by rewrite lookup_insert_eq|].
      exists c. split; [by left|]. done.
Qed.

(** *** Schedules in which acquisitions are not interrupted *)
Inductive Atomic :=
| AAcquire (r : nat) (id : Z) (fp : string)
| ARelease (r : nat)
| AEvict (changes : list (Z * option string)).

Definition atomic_step (w : World) (a : Atomic) : World :=
  match a with
  | AAcquire r id fp => if decide (requests w !! r = None) then run (acquire r id fp) w else w
  | ARelease r => step (OpRelease r) w
  | AEvict changes => step (OpEvict changes) w
  end.
Definition run_atomic (l : list Atomic) : World := foldl atomic_step empty_world l.

Definition sound (w : World) : Prop := placed w /\ counted (cache w) (requests w).

Lemma placed_distinct w : placed w -> NoDup (clients_of (cache w)).
Proof.
  unfold placed. intros Hw. assert (Hnd : NoDup (clients_of (cache w) ++ building (requests w)))
    by (rewrite <- Hw; apply NoDup_seq). by apply NoDup_app in Hnd as (Hnd & _).
Qed.

Lemma built_fresh w : sound w -> built (cache w) ∉ holders (requests w).
Proof.
  intros [Hp [H1 _ _]] (r & id & Hr)%holders_elem. destruct (H1 _ _ Hr) as (id' & cl & [= <- <-] & Hk).
  assert (Hin : built (cache w) ∈ clients_of (cache w)).
  { unfold clients_of, cur. rewrite !elem_of_app. destruct Hk as [Hk|(e & He & Heq)]; [by right; left|left].
    rewrite <- Heq. apply list_elem_of_fmap. exists e. split; [done|]. apply list_elem_of_fmap.
    exists (id, e). split; [done|]. by apply elem_of_map_to_list. }
  assert (Hseq : built (cache w) ∈ seq 0 (built (cache w))) by (unfold placed in Hp; rewrite Hp; set_solver).
  apply elem_of_seq in Hseq. lia.
Qed.

Lemma acquire_sound w r id fp : sound w -> requests w !! r = None -> sound (run (acquire r id fp) w).
Proof.
  intros Hs Hr. split; [by apply run_placed, Hs|]. pose proof (built_fresh w Hs) as Hfresh.
  destruct Hs as [Hp Hc]. pose proof (placed_distinct w Hp) as Hnd.
  destruct (acquire_run w r id fp Hr) as (c & e & He & -> & Hcases). cbn [cache requests].
  assert (Hcc : NoDup (clients_of c) /\ counted c (requests w)).
  { destruct Hcases as [->|(c0 & Hc0 & Hb & Hu & Hn & ->)]; [done|].
    assert (H0 : clients_of c0 ≡ₚ clients_of (cache w) /\ counted c0 (requests w)).
    { destruct Hc0 as [->|(e0 & He0 & ->)]; [done|]. split; [by apply drop_clients|by apply drop_counted]. }
    destruct H0 as [Hperm Hcnt]. split.
    - assert (Hcl : clients_of (c0 <| built := S (built (cache w)) |> <| entries := <[id := e]> (entries c0) |>) ≡ₚ
                    built (cache w) :: clients_of (cache w)).
      { rewrite <- Hperm. unfold clients_of. cbn. by rewrite cur_insert, delete_id, Hb. }
      rewrite Hcl. apply NoDup_cons. split; [|done]. intros Hin.
      assert (Hseq : built (cache w) ∈ seq 0 (built (cache w))) by (unfold placed in Hp; rewrite Hp; set_solver).
      apply elem_of_seq in Hseq. lia.
    - destruct e as [fp' cl n]. cbn in Hb, Hu. subst cl n.
      destruct (add_counted c0 (requests w) id fp' (built (cache w)) Hn Hfresh Hcnt). by split. }
  destruct Hcc. by apply hold_counted.
Qed.

Lemma atomic_sound w a : sound w -> sound (atomic_step w a).
Proof.
  intros Hs. destruct a as [r id fp|r|changes]; cbn [atomic_step].
  - case_decide; [by apply acquire_sound|done].
  - split; [by apply step_placed, Hs|]. destruct Hs as [Hp Hc]. cbn.
    destruct (requests w !! r) as [[]|] eqn:Hr; try done. apply release_counted; [by apply placed_distinct|done|done].
  - split; [by apply step_placed, Hs|]. destruct Hs as [Hp Hc]. cbn.
    apply evict_counted; [by apply placed_distinct|done].
Qed.

Lemma run_atomic_sound l : sound (run_atomic l).
Proof.
  unfold run_atomic. assert (He : sound empty_world).
  { split; [apply empty_placed|]. split; cbn; [by intros ? ? ?%lookup_empty_Some|by intros ? ? ?%lookup_empty_Some|].
    intros cl n Hin. by apply elem_of_nil in Hin. }
  revert He. generalize empty_world. induction l as [|a l IH]; intros w Hw; [done|]. by apply IH, atomic_sound.
Qed.

(** Where acquisitions are not interrupted, a request never holds a closed
    client whatever accounts change meanwhile, and a client that nobody holds and
    that is not current is closed: none leaks. *)
Theorem client_open_while_held l :
  let w := run_atomic l in
  (forall r id cl, requests w !! r = Some (Holds id cl) -> cl ∉ closed (cache w)) /\
  (forall cl, cl < built (cache w) -> cl ∉ cur (entries (cache w)) -> cl ∉ holders (requests w) ->
     cl ∈ closed (cache w)).
Proof.
  intros w. destruct (run_atomic_sound l) as [Hp [H1 H2 H3]]. fold w in Hp, H1, H2, H3. split.
  - intros r id cl Hr. destruct (H1 _ _ Hr) as (? & ? & [= <- <-] & Hk).
    by apply (kept_open _ id); [apply placed_distinct|].
  - intros cl Hlt Hcur Hh. assert (Hin : cl ∈ seq 0 (built (cache w))) by (apply elem_of_seq; lia).
    unfold placed in Hp. rewrite Hp in Hin. unfold clients_of in Hin. rewrite !elem_of_app in Hin.
    destruct Hin as [[?|[Hr|?]]|Hb]; [done| |done|].
    + apply list_elem_of_fmap in Hr as ([cl' n] & -> & Hr). destruct (H3 _ _ Hr) as [-> Hpos].
      rewrite uses_zero in Hpos by done. lia.
    + unfold building, collect in Hb. apply list_elem_of_omap in Hb as (p & Hp' & Hb).
      apply list_elem_of_fmap in Hp' as ([r p'] & -> & Hr). apply elem_of_map_to_list in Hr.
      destruct (H1 _ _ Hr) as (id & cl' & Heq & _). cbn in Hb. by rewrite Heq in Hb.
Qed.

(** A credential changes while a request holds the client: the next request gets a
    new one, the old one is closed when its holder lets go. *)
Definition rotation : list Atomic :=
  [AAcquire 0 7 "a"; AEvict [(7%Z, Some "b")]; AAcquire 1 7 "b"].
Lemma client_open_while_held_witness :
  requests (run_atomic rotation) !! 0 = Some (Holds 7 0) /\ 0 ∉ closed (cache (run_atomic rotation)) /\
  0 ∈ closed (cache (run_atomic (rotation ++ [ARelease 0]))).
Proof.
  split; [by vm_compute|]. split.
  - apply (proj1 (client_open_while_held rotation) 0 7%Z 0). by vm_compute.
  - apply (proj2 (client_open_while_held (rotation ++ [ARelease 0]))).
    + vm_compute. lia.
    + vm_compute. set_solver.
    + vm_compute. set_solver.
Defined.

Lemma closed_at_most_once_witness :
  let w := run [OpStart 0 7 "a"; OpStart 1 7 "a"; OpRun 0; OpRun 1; OpRun 0; OpRun 1] empty_world in
  NoDup (closed (cache w)) /\ 1 ∈ closed (cache w).
Proof.
  split; [apply closed_at_most_once|].
  destruct (proj2 (closed_at_most_once [OpStart 0 7 "a"; OpStart 1 7 "a"; OpRun 0; OpRun 1; OpRun 0; OpRun 1]) 1)
    as [H|[H|[H|H]]]; [vm_compute; lia|exact H|exfalso; revert H; vm_compute; set_solver..].
Defined.

(** The lock is not held from the lookup to the count: a credential change in
    between closes the client the request has just been given. *)
Example evicted_before_counted :
  let w := run [OpStart 0 7 "a"; OpRun 0; OpRun 0; OpEvict [(7%Z, Some "b")]; OpRun 0] empty_world in
  requests w !! 0 = Some (Holds 7 0) /\ 0 ∈ closed (cache w).
Proof. vm_compute. split; [done|]. by left. Qed.

(** The same window lets one request close the client of another. *)
Example closed_under_a_counted_holder :
  let w := run [OpStart 0 7 "a"; OpRun 0; OpRun 0; OpRun 0;  (* the first holds client 0 *)
                OpStart 1 7 "a"; OpRun 1; OpEvict [(7%Z, Some "b")]; OpRun 1; OpRelease 1] empty_world in
  requests w !! 0 = Some (Holds 7 0) /\ 0 ∈ closed (cache w).
Proof. vm_compute. split; [done|]. by left. Qed.

(** ** What the fingerprint tells apart *)
Definition nul_free (s : string) : Prop := str_all (fun a => negb (byte_of a =? 0)) s = true.
Definition plain_write (w : written) : Prop :=
  match w with
  | WString v => nul_free v
  | WBool _ => True
  | WStrings vs => Forall nul_free vs
  end.
Definition same_shape (w w' : written) : Prop :=
  match w, w' with
  | WString _, WString _ | WBool _, WBool _ | WStrings _, WStrings _ => True
  | _, _ => False
  end.

Lemma writeString_inj v v' r r' : nul_free v -> nul_free v' ->
  writeString v +:+ r = writeString v' +:+ r' -> v = v' /\ r = r'.
Proof.
  unfold writeString, nul_free. revert v'; induction v as [|a v IH]; intros [|a' v'] Hv Hv' Heq; cbn in *.
  - by injection Heq.
  - injection Heq as <- _. by cbn in Hv'.
  - injection Heq as -> _. by cbn in Hv.
  - injection Heq as <- Heq. apply andb_true_iff in Hv as [_ Hv]. apply andb_true_iff in Hv' as [_ Hv'].
    by destruct (IH v' Hv Hv' Heq) as [-> ->].
Qed.

Lemma fmt_d_nul_free z : nul_free (fmt_d z).
Proof.
  apply (str_all_impl digit_or_sign); [|apply fmt_d_digits].
  intros a Ha. unfold digit_or_sign in Ha. apply negb_true_iff, Nat.eqb_neq. intros H0. by rewrite H0 in Ha.
Qed.

Lemma write_all_inj vs vs' r r' : length vs = length vs' -> Forall nul_free vs -> Forall nul_free vs' ->
  write_all vs +:+ r = write_all vs' +:+ r' -> vs = vs' /\ r = r'.
Proof.
  revert vs'; induction vs as [|v vs IH]; intros [|v' vs'] Hlen Hv Hv' Heq; try done.
  apply Forall_cons in Hv as [Hv Hvs]. apply Forall_cons in Hv' as [Hv' Hvs'].
  cbn in Heq. rewrite !sapp_assoc in Heq. apply writeString_inj in Heq as [-> Heq]; [|done..].
  destruct (IH vs' ltac:(by injection Hlen) Hvs Hvs' Heq) as [-> ->]. done.
Qed.

(** Written to the end, the values need no count. *)
Lemma write_all_whole vs vs' : Forall nul_free vs -> Forall nul_free vs' -> write_all vs = write_all vs' -> vs = vs'.
Proof.
  revert vs'; induction vs as [|v vs IH]; intros [|v' vs'] Hv Hv' Heq; [done|cbn in Heq..].
  - by destruct v'.
  - by destruct v.
  - apply Forall_cons in Hv as [Hv Hvs]. apply Forall_cons in Hv' as [Hv' Hvs'].
    apply writeString_inj in Heq as [-> Heq]; [|done..]. by rewrite (IH vs' Hvs Hvs' Heq).
Qed.

Lemma write_inj w w' r r' : same_shape w w' -> plain_write w -> plain_write w' ->
  write w +:+ r = write w' +:+ r' -> w = w' /\ r = r'.
Proof.
  destruct w as [v|b|vs], w' as [v'|b'|vs']; cbn; try done; intros _ Hw Hw' Heq.
  - by apply writeString_inj in Heq as [-> ->].
  - destruct b, b'; by injection Heq as ->.
  - unfold writeStrings, writeInt64 in Heq. rewrite !sapp_assoc in Heq.
    change (fmt_d ?z +:+ NUL +:+ ?x) with (fmt_d z +:+ (NUL +:+ x)) in Heq.
    rewrite <- !(sapp_assoc (fmt_d _)) in Heq. apply writeString_inj in Heq as [Hn Heq]; [|apply fmt_d_nul_free..].
    unfold fmt_d in Hn. apply (inj pretty), Nat2Z.inj in Hn.
    by apply write_all_inj in Heq as [-> ->].
Qed.

Lemma write_fields_inj fs fs' r r' : Forall2 same_shape fs fs' -> Forall plain_write fs -> Forall plain_write fs' ->
  write_fields fs +:+ r = write_fields fs' +:+ r' -> fs = fs' /\ r = r'.
Proof.
  intros Hs. induction Hs as [|w w' fs fs' Hw Hs IH]; intros Hp Hp' Heq; [done|].
  apply Forall_cons in Hp as [Hpw Hp]. apply Forall_cons in Hp' as [Hpw' Hp'].
  cbn in Heq. rewrite !sapp_assoc in Heq. apply write_inj in Heq as [-> Heq]; [|done..].
  by destruct (IH Hp Hp' Heq) as [-> ->].
Qed.

Definition plain_config (cfg : ClientConfig) : Prop :=
  Forall plain_write (config_fields cfg) /\ Forall nul_free (ProxyBypass cfg).

(** The bytes the fingerprint hashes determine every field a provider client is
    built from: two states of an account and its settings, with no NUL byte in
    their texts, hash the same bytes exactly when they agree on all of them. A
    cached client is kept, then, only for what builds the same client (or for a
    collision of the hash). *)
Theorem fingerprint_faithful acc acc' cfg cfg' :
  Forall plain_write (account_fields acc) -> Forall plain_write (account_fields acc') ->
  (forall c, cfg = Some c -> plain_config c) -> (forall c, cfg' = Some c -> plain_config c) ->
  fingerprint_bytes acc cfg = fingerprint_bytes acc' cfg' <->
  account_fields acc = account_fields acc' /\
  (fun c => (config_fields c, ProxyBypass c)) <$> cfg = (fun c => (config_fields c, ProxyBypass c)) <$> cfg'.
Proof.
  intros Ha Ha' Hc Hc'. unfold fingerprint_bytes. split.
  - intros Heq. apply write_fields_inj in Heq as [-> Heq]; [|repeat constructor|done..]. split; [done|].
    destruct cfg as [c|], cfg' as [c'|]; [| | |done].
    + destruct (Hc c eq_refl) as [H1 H2]. destruct (Hc' c' eq_refl) as [H1' H2'].
      apply write_fields_inj in Heq as [Hf Heq]; [|repeat constructor|done..].
      apply write_all_whole in Heq; [|done..]. cbn. by rewrite Hf, Heq.
    + exfalso. cbn in Heq. by destruct (WorkBuddyBaseURL c).
    + exfalso. cbn in Heq. by destruct (WorkBuddyBaseURL c').
  - intros [-> Hcfg]. f_equal. destruct cfg as [c|], cfg' as [c'|]; cbn in Hcfg; try done.
    apply (inj Some), pair_equal_spec in Hcfg as [-> ->]. done.
Qed.

Lemma fingerprint_faithful_witness :
  fingerprint_bytes (sample_account 1 "qoder" no_status) None <>
  fingerprint_bytes (sample_account 2 "qoder" no_status) None.
Proof.
  intros Heq. apply fingerprint_faithful in Heq as [Heq _].
  - revert Heq. vm_compute. discriminate.
  - repeat constructor.
  - repeat constructor.
  - done.
  - done.
Defined.
