(* ===== verification/Catalogs.v ===== *)
(** * The model catalogues of the providers

    What an account's stored snapshot says its provider offers:
    src/internal/qoder/catalog.go, src/internal/workbuddy/catalog.go,
    src/internal/workbuddy/free_models.go and src/internal/cline/catalog.go. A
    snapshot is a list of rows, each a JSON object or an older bare form. Account
    selection asks whether a model is advertised and whether it is free. The
    opaque [context_config] of a Qoder row is not modelled. *)

From Stdlib Require Import Ascii.
From Corelib Require Import SpecFloat.
From stdpp Require Import base numbers list strings gmap.
From S2P Require Import Prelude GoLib Json Marshal.

Local Open Scope orchids_scope.

(** ** Decoding *)
Definition as_float_ptr (v : option json) : option (option float64) :=
  match v with
  | None | Some JNull => Some None
  | Some (JNum lit) => Some <$> ParseFloat lit
  | _ => None
  end.
Definition is_object (row : string) : bool := HasPrefix row "{".

(** ** Qoder *)
Record modelEntry := mkModelEntry {
  Key : string;
  Name : string;
  DisplayName : string;
  Format : string;
  Source : string;
  Enable : option bool;
  IsVL : bool;
  IsReasoning : bool;
  IsDefault : bool;
  PriceFactor : option float64;
  MaxInputTokens : Z;
  OrgTags : list string
}.
#[export] Instance modelEntry_eta : Eta modelEntry := fun m => mkModelEntry (Key m) (Name m) (DisplayName m)
  (Format m) (Source m) (Enable m) (IsVL m) (IsReasoning m) (IsDefault m) (PriceFactor m) (MaxInputTokens m) (OrgTags m).

Definition bareEntry (key name : string) : modelEntry :=
  mkModelEntry key name EmptyString EmptyString EmptyString None false false false None 0 [].

Definition decode_entry (fs : list (string * json)) : option modelEntry :=
  let f k := struct_field k fs in
  key ← as_string (f "key"); name ← as_string (f "name"); display ← as_string (f "display_name");
  format ← as_string (f "format"); source ← as_string (f "source"); enable ← as_bool_ptr (f "enable");
  vl ← as_bool (f "is_vl"); reasoning ← as_bool (f "is_reasoning"); default_ ← as_bool (f "is_default");
  price ← as_float_ptr (f "price_factor"); budget ← as_int (f "max_input_tokens");
  tags ← as_list as_string (f "organization_tags");
  _ ← as_list Some (f "context_config_variants");
  Some (mkModelEntry key name display format source enable vl reasoning default_ price budget tags).

Definition enabled (m : modelEntry) : bool := match Enable m with Some b => b | None => true end.

Record Catalog := mkCatalog {
  entries : list modelEntry;
  byKey : gmap string modelEntry;
  byName : gmap string modelEntry
}.

Definition or_else (s t : string) : string := if String.eqb s EmptyString then t else s.

(** A row as the catalogue keeps it: [None] when it is skipped. *)
Definition normal_entry (e : modelEntry) : option modelEntry :=
  if negb (enabled e) then None
  else
    let key := TrimSpace (Key e) in
    if String.eqb key EmptyString || EqualFold key "auto" then None
    else
      let name := TrimSpace (Name e) in
      let display := TrimSpace (DisplayName e) in
      Some (e <| Key := key |> <| Name := or_else (or_else name display) key |> <| DisplayName := display |>
              <| Format := or_else (Format e) "openai" |> <| Source := or_else (Source e) "system" |>).

(** The first row of a key is kept, under the key in lower case. *)
Definition add_entry (kept : list modelEntry) (e : modelEntry) : list modelEntry :=
  match normal_entry e with
  | None => kept
  | Some e' => if bool_decide (ToLower (Key e') ∈ (fun k => ToLower (Key k)) <$> kept) then kept else kept ++ [e']
  end.

Definition aliases (e : modelEntry) : list string :=
  filter (fun a => a <> EmptyString) [ToLower (Name e); ToLower (DisplayName e)].

Definition add_alias (e : modelEntry) (names : gmap string modelEntry) (alias : string) : gmap string modelEntry :=
  match names !! alias with Some _ => names | None => <[alias := e]> names end.

Definition index_entry (maps : gmap string modelEntry * gmap string modelEntry) (e : modelEntry)
    : gmap string modelEntry * gmap string modelEntry :=
  (<[ToLower (Key e) := e]> maps.1, foldl (add_alias e) maps.2 (aliases e)).

Definition newCatalog (rows : list modelEntry) : Catalog :=
  let kept := foldl add_entry [] rows in
  let maps := foldl index_entry (∅, ∅) kept in
  mkCatalog kept maps.1 maps.2.

Fixpoint cut_tab (s : string) : string * string :=
  match s with
  | EmptyString => (EmptyString, EmptyString)
  | String a s' => if is_byte 9 a then (EmptyString, s')
                   else let '(x, y) := cut_tab s' in (String a x, y)
  end.

Definition snapshot_entry (id : string) : option modelEntry :=
  let trimmed := TrimSpace id in
  if String.eqb trimmed EmptyString then None
  else if is_object trimmed then
    match Unmarshal trimmed with Some (JObj fs) => decode_entry fs | _ => None end
  else
    let '(key, name) := cut_tab trimmed in
    if String.eqb (TrimSpace key) EmptyString then None
    else Some (bareEntry (TrimSpace key) (TrimSpace name)).

Definition catalogFromIDs (ids : list string) : Catalog := newCatalog (omap snapshot_entry ids).

Inductive resolve_error := ErrNoUpstreamCatalog | ErrUnsupportedModel.

Definition defaultEntry (c : Catalog) : option modelEntry :=
  match List.find IsDefault (entries c) with
  | Some e => Some e
  | None =>
      let tier needle := List.find (fun e => Contains (ToLower (Name e)) needle) (entries c) in
      match tier "flash" with
      | Some e => Some e
      | None => match tier "lite" with
                | Some e => Some e
                | None => match tier "efficient" with
                          | Some e => Some e
                          | None => match tier "plus" with Some e => Some e | None => head (entries c) end
                          end
                end
      end
  end.

Definition Resolve (c : Catalog) (requested : string) : result modelEntry resolve_error :=
  match entries c with
  | [] => Err ErrNoUpstreamCatalog
  | _ =>
      let name := TrimSpace requested in
      if String.eqb name EmptyString then
        match defaultEntry c with Some e => Ok e | None => Err ErrNoUpstreamCatalog end
      else
        let name := ToLower name in
        match byKey c !! name with
        | Some e => Ok e
        | None => match byName c !! name with Some e => Ok e | None => Err ErrUnsupportedModel end
        end
  end.

Definition f64_is_zero (f : float64) : bool := match f with S754_zero _ => true | _ => false end.
Definition free_entry (e : modelEntry) : bool :=
  match PriceFactor e with Some f => f64_is_zero f | None => false end.

(** The names of a row, as [FreeModelIDs] and [CatalogContextWindows] list them. *)
Definition entry_names (e : modelEntry) : list string :=
  filter (fun v => v <> EmptyString) ((fun v => ToLower (TrimSpace v)) <$> [Key e; Name e; DisplayName e]).

Definition resolves_free (c : Catalog) (name : string) : bool :=
  match Resolve c name with Ok e => free_entry e | Err _ => false end.

Definition FreeModelIDs (ids : list string) : gset string :=
  let c := catalogFromIDs ids in
  list_to_set (filter (fun name => resolves_free c name = true) (mjoin (entry_names <$> entries c))).

(** Qoder's [IsFreeModel]. *)
Definition QoderIsFreeModel (ids : list string) (requested : string) : bool :=
  bool_decide (ToLower (TrimSpace requested) ∈ FreeModelIDs ids).

(** The default input budgets; an ambiguous name has the budget of the row it
    resolves to. *)
Definition CatalogContextWindows (ids : list string) : gmap string Z :=
  let c := catalogFromIDs ids in
  foldl (fun out name =>
    match Resolve c name with
    | Ok e => if (0 <? MaxInputTokens e)%Z then <[name := MaxInputTokens e]> out else out
    | Err _ => out
    end) ∅ (mjoin (entry_names <$> entries c)).

(** ** WorkBuddy *)
Module WorkBuddy.
Record Row := mkRow { ID : string; Name : string; MaxInputTokens : Z; MaxOutputTokens : Z }.

Definition decode_row (fs : list (string * json)) : option Row :=
  let f k := struct_field k fs in
  id ← as_string (f "id"); name ← as_string (f "name");
  input ← as_int (f "max_input_tokens"); output ← as_int (f "max_output_tokens");
  Some (mkRow id name input output).

(** A stored row: a JSON object, or a bare id. *)
Definition snapshot_row (raw : string) : option Row :=
  let trimmed := TrimSpace raw in
  if String.eqb trimmed EmptyString then None
  else if is_object trimmed then
    match Unmarshal trimmed with Some (JObj fs) => decode_row fs | _ => None end
  else Some (mkRow trimmed EmptyString 0 0).

Definition text_field (k v : string) : list (string * json) :=
  if String.eqb v EmptyString then [] else [(k, JStr v)].
Definition int_field (k : string) (v : Z) : list (string * json) := if (v =? 0)%Z then [] else [(k, JNum (fmt_d v))].

Definition row_json (r : Row) : json :=
  JObj ([("id", JStr (ID r))] ++ text_field "name" (Name r) ++
        int_field "max_input_tokens" (MaxInputTokens r) ++ int_field "max_output_tokens" (MaxOutputTokens r)).

(** [WorkBuddyModel] has the fields of a row. *)
Definition CatalogSnapshot (models : list Row) : list string :=
  omap (fun m => let id := TrimSpace (ID m) in
                 if String.eqb id EmptyString then None
                 else Some (render (row_json (mkRow id (TrimSpace (Name m)) (MaxInputTokens m) (MaxOutputTokens m)))))
       models.

Definition widen (id : string) (v : Z) (m : gmap string Z) : gmap string Z :=
  if (0 <? v)%Z then
    match m !! id with
    | Some existing => if (existing <? v)%Z then <[id := v]> m else m
    | None => <[id := v]> m
    end
  else m.

Definition CatalogContextWindows (ids : list string) : gmap string Z * gmap string Z :=
  foldl (fun '(input, output) raw =>
    match snapshot_row raw with
    | Some r =>
        let id := ToLower (TrimSpace (ID r)) in
        if String.eqb id EmptyString then (input, output)
        else (widen id (MaxInputTokens r) input, widen id (MaxOutputTokens r) output)
    | None => (input, output)
    end) (∅, ∅) ids.

Definition freeModelIDs : list string :=
  ["deepseek-v4.1-flash"; "deepseek-v4.1-flash-sg"; "glm-5.3-flash"; "hy4-preview-f"; "hy3"].

Definition IsFreeModel (modelID : string) : bool := existsb (String.eqb (ToLower (TrimSpace modelID))) freeModelIDs.

Definition IsFreeModelInCatalog (ids : list string) (modelID : string) : bool :=
  let modelID := ToLower (TrimSpace modelID) in
  IsFreeModel modelID &&
  existsb (fun raw => match snapshot_row raw with
                      | Some r => EqualFold (TrimSpace (ID r)) modelID
                      | None => false
                      end) ids.
End WorkBuddy.

(** ** Cline *)
Module Cline.
Record Model := mkModel { ID : string; Name : string; Provider : string; RequiresStream : bool }.

(** The provider is what stands before the first slash. *)
Fixpoint before_slash (s : string) : string :=
  match s with
  | EmptyString => EmptyString
  | String a s' => if is_byte 47 a then EmptyString else String a (before_slash s')
  end.

Definition free_row (v : option json) : option (string * string) :=
  match v with
  | Some (JObj fs) => id ← as_string (struct_field "id" fs); name ← as_string (struct_field "name" fs); Some (id, name)
  | Some JNull => Some (EmptyString, EmptyString)
  | _ => None
  end.

Definition free_rows (j : json) : option (list (string * string)) :=
  match j with
  | JObj fs => as_list free_row (struct_field "free" fs)
  | JNull => Some []
  | _ => None
  end.

Definition parseCatalog (raw : string) : option (list Model) :=
  j ← Unmarshal raw;
  rows ← free_rows j;
  Some (omap (M:=list) (fun '(rawID, name) =>
    let id := TrimSpace rawID in
    if String.eqb id EmptyString then None
    else Some (mkModel id (TrimSpace name) (before_slash id) (negb (Contains id ":")))) rows).

Definition row_json (id name provider : string) (stream : bool) : json :=
  JObj ([("id", JStr id)] ++ WorkBuddy.text_field "name" name ++ WorkBuddy.text_field "provider" provider ++
        (if stream then [("requires_stream", JBool true)] else [])).

Definition CatalogSnapshot (models : list Model) : list string :=
  omap (fun m => let id := TrimSpace (ID m) in
                 if String.eqb id EmptyString then None
                 else Some (render (row_json id (TrimSpace (Name m)) (TrimSpace (Provider m)) (RequiresStream m))))
       models.

Definition catalogID (raw : string) : string :=
  let trimmed := TrimSpace raw in
  if String.eqb trimmed EmptyString then EmptyString
  else if is_object trimmed then
    match Unmarshal trimmed with
    | Some (JObj fs) =>
        default EmptyString (id ← as_string (struct_field "id" fs); _ ← as_string (struct_field "name" fs);
          _ ← as_string (struct_field "provider" fs); _ ← as_bool (struct_field "requires_stream" fs);
          Some (TrimSpace id))
    | _ => EmptyString
    end
  else trimmed.

Definition CatalogSupportsModel (rows : list string) (modelID : string) : bool :=
  let modelID := TrimSpace modelID in
  if String.eqb modelID EmptyString then true
  else existsb (fun row => EqualFold (catalogID row) modelID) rows.
End Cline.

(** ** Qoder: what the index answers *)
#[local] Arguments TrimSpace : simpl never.
#[local] Arguments ToLower : simpl never.

Lemma kept_normal rows kept e : e ∈ foldl add_entry kept rows -> e ∈ kept \/ exists raw, normal_entry raw = Some e.
Proof.
  revert kept; induction rows as [|raw rows IH]; intros kept; cbn; [by left|]. intros [Hin|?]%IH; [|by right].
  unfold add_entry in Hin. destruct (normal_entry raw) as [e'|] eqn:Hn; [|by left].
  case_bool_decide; [by left|]. apply elem_of_app in Hin as [?| ->%list_elem_of_singleton]; [by left|right; eauto].
Qed.

Lemma normal_trimmed raw e : normal_entry raw = Some e ->
  TrimSpace (Key e) = Key e /\ Key e <> EmptyString /\ TrimSpace (DisplayName e) = DisplayName e /\
  TrimSpace (Name e) = Name e.
Proof.
  unfold normal_entry. destruct (negb _); [done|]. destruct (String.eqb_spec (TrimSpace (Key raw)) EmptyString); [done|].
  destruct (EqualFold _ _); [done|]. cbn. intros [= <-]. cbn. rewrite !TrimSpace_idem. repeat (split; [done|]).
  unfold or_else. repeat case_match; rewrite ?TrimSpace_idem; done.
Qed.

Lemma catalog_entry ids e : e ∈ entries (catalogFromIDs ids) ->
  TrimSpace (Key e) = Key e /\ Key e <> EmptyString /\ TrimSpace (DisplayName e) = DisplayName e /\
  TrimSpace (Name e) = Name e.
Proof.
  cbn. intros [Hin|(raw & Hn)]%kept_normal; [by apply elem_of_nil in Hin|by eapply normal_trimmed].
Qed.

(** The two indexes hold kept rows, under names of theirs. *)
Definition indexed (kept : list modelEntry) (maps : gmap string modelEntry * gmap string modelEntry) : Prop :=
  (forall n e, maps.1 !! n = Some e -> e ∈ kept /\ n = ToLower (Key e)) /\
  (forall n e, maps.2 !! n = Some e -> e ∈ kept /\ n ∈ aliases e).

Lemma add_alias_indexed (kept : list modelEntry) e (als : list string) (names : gmap string modelEntry) :
  e ∈ kept -> Forall (fun a => a ∈ aliases e) als ->
  (forall n x, names !! n = Some x -> x ∈ kept /\ n ∈ aliases x) ->
  forall n x, foldl (add_alias e) names als !! n = Some x -> x ∈ kept /\ n ∈ aliases x.
Proof.
  intros He. revert names; induction als as [|a als IH]; intros names Hals Hn; [done|]. cbn.
  apply Forall_cons in Hals as [Ha Hals]. apply IH; [done|]. intros n x. unfold add_alias.
  destruct (names !! a) eqn:Hna; [apply Hn|].
  intros [[<- <-]|[_ Hx]]%lookup_insert_Some; [by split|by apply Hn].
Qed.

Lemma index_indexed (kept rows : list modelEntry) maps : (forall e, e ∈ rows -> e ∈ kept) ->
  indexed kept maps -> indexed kept (foldl index_entry maps rows).
Proof.
  revert maps; induction rows as [|e rows IH]; intros maps Hr [Hk Hn]; [done|]. cbn. apply IH; [set_solver|].
  split; cbn.
  - intros n x [[<- <-]|[_ Hx]]%lookup_insert_Some; [split; [set_solver|done]|by apply Hk].
  - apply add_alias_indexed; [set_solver|by apply Forall_forall|done].
Qed.

Lemma catalog_indexed ids : indexed (entries (catalogFromIDs ids)) (byKey (catalogFromIDs ids), byName (catalogFromIDs ids)).
Proof.
  unfold catalogFromIDs, newCatalog. cbn. set (kept := foldl add_entry [] _).
  rewrite <- surjective_pairing. apply index_indexed; [done|].
  split; cbn; intros n e He; by apply lookup_empty_Some in He.
Qed.

Lemma resolved_named ids n e : ToLower (TrimSpace n) = n -> n <> EmptyString ->
  Resolve (catalogFromIDs ids) n = Ok e -> e ∈ entries (catalogFromIDs ids) /\ n ∈ entry_names e.
Proof.
  intros Hn Hne Hr. destruct (catalog_indexed ids) as [Hk Ha]. cbn [fst snd] in Hk, Ha.
  assert (Htrim : TrimSpace n <> EmptyString) by (intros H0; rewrite H0 in Hn; by cbn in Hn).
  assert (Hcase : byKey (catalogFromIDs ids) !! n = Some e \/ byName (catalogFromIDs ids) !! n = Some e).
  { unfold Resolve in Hr. destruct (entries _); [done|]. destruct (String.eqb_spec (TrimSpace n) EmptyString); [done|].
    rewrite Hn in Hr. destruct (byKey _ !! n); [left; congruence|]. destruct (byName _ !! n); [right; congruence|done]. }
  destruct Hcase as [Hc|Hc]; [destruct (Hk _ _ Hc) as [Hin ->]|destruct (Ha _ _ Hc) as [Hin Hal]];
    (split; [done|]); destruct (catalog_entry ids e Hin) as (HtK & _ & HtD & HtN); unfold entry_names;
    apply list_elem_of_filter; (split; [done|]); cbn; rewrite HtK, HtD, HtN.
  - by left.
  - unfold aliases in Hal. apply list_elem_of_filter in Hal as [_ Hal]. set_solver.
Qed.

(** A Qoder model is free for an account exactly when the account's catalogue
    resolves the requested name to a row that is priced at zero: a row with no
    price is not free, a name that resolves elsewhere is not made free by a row
    that merely carries it, and without a catalogue nothing is. *)
Theorem free_exactly_when_resolved ids requested :
  ToLower (TrimSpace requested) = requested -> requested <> EmptyString ->
  QoderIsFreeModel ids requested = true <->
  exists e, Resolve (catalogFromIDs ids) requested = Ok e /\ free_entry e = true.
Proof.
  intros Hn Hne. unfold QoderIsFreeModel, FreeModelIDs. rewrite Hn, bool_decide_eq_true.
  rewrite elem_of_list_to_set, list_elem_of_filter. unfold resolves_free. split.
  - intros [Hf _]. destruct (Resolve _ requested) as [e|]; [eauto|done].
  - intros (e & Hr & Hf). rewrite Hr. split; [done|].
    destruct (resolved_named ids requested e Hn Hne Hr) as [Hin Hnm].
    apply list_elem_of_join. exists (entry_names e). split; [done|]. apply list_elem_of_fmap. eauto.
Qed.

Lemma free_exactly_when_resolved_witness :
  QoderIsFreeModel [js "{'key':'qmodel','display_name':'Lite','price_factor':0}"; "pro"] "lite" = true /\
  exists e, Resolve (catalogFromIDs [js "{'key':'qmodel','display_name':'Lite','price_factor':0}"; "pro"]) "lite" = Ok e /\
    free_entry e = true.
Proof.
  split; [by vm_compute|]. apply free_exactly_when_resolved; [by vm_compute|done|by vm_compute].
Defined.

(** ** The stored rows read back *)
Lemma render_object_trimmed fs : TrimSpace (render (JObj fs)) = render (JObj fs) /\ is_object (render (JObj fs)) = true.
Proof.
  rewrite render_obj. split; [|done]. generalize (render_members fs). intros m. apply TrimSpace_fixed.
  - destruct m as [|b [|c m]]; reflexivity.
  - rewrite !rev_app_distr. change (String.rev "}") with "}". change (String.rev "{") with "{".
    destruct (String.rev m) as [|b [|c t]]; cbn; [done|..]; unfold space2, space3; cbn; by rewrite ?andb_false_r.
Qed.

Lemma cline_row_id id name provider stream :
  Cline.catalogID (render (Cline.row_json id name provider stream)) = TrimSpace (ToValidUTF8 id).
Proof.
  unfold Cline.catalogID, Cline.row_json. set (fs := [_] ++ _).
  destruct (render_object_trimmed fs) as [Ht Ho]. cbv zeta. rewrite Ht, Ho.
  assert (Hok : json_ok (JObj fs)).
  { unfold fs, WorkBuddy.text_field.
    destruct (String.eqb _ _), (String.eqb _ _), stream; repeat constructor; set_solver. }
  rewrite (Unmarshal_render _ Hok). rewrite render_obj. cbn [String.append String.eqb coerce_json].
  unfold fs, WorkBuddy.text_field.
  destruct (String.eqb name EmptyString), (String.eqb provider EmptyString), stream; reflexivity.
Qed.

(** An account may be given a Cline model exactly when its provider's feed, as
    stored, had it: the stored rows read back to the identifiers that were
    observed, compared without case. *)
Theorem cline_snapshot_supports models requested :
  Forall (fun m => ValidString (TrimSpace (Cline.ID m)) = true) models ->
  Cline.CatalogSupportsModel (Cline.CatalogSnapshot models) requested = true <->
  TrimSpace requested = EmptyString \/
  exists m, m ∈ models /\ TrimSpace (Cline.ID m) <> EmptyString /\
    EqualFold (TrimSpace (Cline.ID m)) (TrimSpace requested) = true.
Proof.
  intros Hv. unfold Cline.CatalogSupportsModel. cbv zeta.
  destruct (String.eqb_spec (TrimSpace requested) EmptyString) as [He|Hne]; [by split; [left|]|].
  rewrite existsb_exists. setoid_rewrite <- list_elem_of_In. unfold Cline.CatalogSnapshot.
  setoid_rewrite list_elem_of_omap. rewrite Forall_forall in Hv. split.
  - intros (row & (m & Hin & Hm) & Heq). right. exists m. cbv zeta in Hm.
    destruct (String.eqb_spec (TrimSpace (Cline.ID m)) EmptyString); [done|]. apply (inj Some) in Hm. subst row.
    rewrite cline_row_id, ToValidUTF8_valid, TrimSpace_idem in Heq by (by apply Hv). done.
  - intros [?|(m & Hin & Hid & Heq)]; [done|]. eexists. split.
    + exists m. split; [done|]. cbv zeta. destruct (String.eqb_spec (TrimSpace (Cline.ID m)) EmptyString); done.
    + by rewrite cline_row_id, ToValidUTF8_valid, TrimSpace_idem by (by apply Hv).
Qed.

Lemma cline_snapshot_supports_witness :
  Cline.CatalogSupportsModel (Cline.CatalogSnapshot [Cline.mkModel " x-ai/Grok:free" "Grok" "x-ai" false]) "X-AI/grok:free" = true.
Proof.
  apply cline_snapshot_supports; [repeat constructor|]. right. eexists. split; [by left|]. split; [by vm_compute|by vm_compute].
Defined.
