(* ===== verification/Selection.v ===== *)
(** * What a selection leaves of the shared accounts

    A selection may load a fresh snapshot, clear expired verdicts, claim a probe
    and write to the store; the accounts it finds keep their ids. [known] says
    that every account in sight is one of a set of ids, [well_placed] that the
    cached pointers have been allocated, [ids_stay] that an allocated pointer
    goes on naming the account it named. They are what a request relies on while
    it holds a pointer, whatever the other requests do (Retry.v). *)

From stdpp Require Import base numbers list strings gmap.
From S2P Require Import Prelude GoLib Channel Errors Account Credentials AccountStore Policy LoadBalancer.

Local Open Scope Z_scope.

Definition store_known {S} `{AccountStoreOps S} (U : list Z) (s : S) : Prop :=
  forall accounts, so_GetEnabledAccounts s = Ok accounts -> Forall (fun a : Account => ID a ∈ U) accounts.

(** A write to the store lists no account that was neither listed nor written. *)
Class AccountStoreLaws (S : Type) `{AccountStoreOps S} := {
  update_known U now (acc : Account) s : ID acc ∈ U -> store_known U s -> store_known U (so_UpdateAccount now acc s);
  claim_known U id now s : store_known U s -> store_known U (so_ClaimGrokPaidQuotaProbe id now s).2;
}.

Definition ids_stay (l l' : LB) : Prop :=
  (next_loc l <= next_loc l')%nat /\ forall p, (p < next_loc l)%nat -> ID (deref l' p) = ID (deref l p).
#[export] Instance ids_stay_preorder : PreOrder ids_stay.
Proof.
  split; [by intros l; split|]. intros l1 l2 l3 [N1 H1] [N2 H2]. split; [lia|].
  intros p Hp. rewrite H2 by lia. by apply H1.
Qed.

Definition well_placed (l : LB) : Prop :=
  Forall (fun p => p < next_loc l)%nat (slice_elems (cachedAccounts l)) /\
  forall index k, cachedByChannel l = Some index -> Forall (fun p => p < next_loc l)%nat (default [] (index !! k)).

(** The same pointers to accounts of the same ids. *)
Definition same_pool (l l' : LB) : Prop :=
  next_loc l' = next_loc l /\ cachedAccounts l' = cachedAccounts l /\
  cachedByChannel l' = cachedByChannel l /\ forall p, ID (deref l' p) = ID (deref l p).
#[export] Instance same_pool_preorder : PreOrder same_pool.
Proof.
  split; [by intros l; split_and!|]. intros l1 l2 l3 (A1 & B1 & C1 & D1) (A2 & B2 & C2 & D2).
  split_and!; [congruence..|]. intros p. by rewrite D2.
Qed.

Lemma same_pool_stay l l' : same_pool l l' -> ids_stay l l'.
Proof. intros (N & _ & _ & D). split; [lia|]. by intros p _. Qed.
Lemma same_pool_placed l l' : same_pool l l' -> well_placed l -> well_placed l'.
Proof. intros (N & A & C & _) [H1 H2]. split; rewrite ?A, ?C, ?N; done. Qed.

Lemma same_pool_update p (f : Account -> Account) l : (forall a : Account, ID (f a) = ID a) -> same_pool l (update_loc p f l).
Proof.
  intros Hf. split_and!; [done..|]. intros q. rewrite deref_update. case_decide; [|done]. subst. apply Hf.
Qed.

Lemma same_pool_heap l l' : heap l' = heap l -> next_loc l' = next_loc l ->
  cachedAccounts l' = cachedAccounts l -> cachedByChannel l' = cachedByChannel l -> same_pool l l'.
Proof. intros Hh ???. split_and!; try done. intros p. by rewrite (deref_heap l l'). Qed.

Lemma same_pool_only_cleared l l' : only_cleared l l' -> same_pool l l'.
Proof.
  intros [Hc ->]. split_and!; [done..|]. intros p. by apply cleared_keeps.
Qed.

(** ** The choice writes only the cursor and the stamps of selection *)
Lemma least_sub l counts acs best low q :
  q ∈ (foldl (least_step l counts) (best, low) acs).1 -> q ∈ best \/ q ∈ acs.
Proof.
  revert best low; induction acs as [|a acs IH]; intros best low; cbn [foldl]; [by left|].
  destruct (least_step l counts (best, low) a) as [best' low'] eqn:Hstep. intros Hq.
  assert (Hb : q ∈ best' -> q ∈ best \/ q = a).
  { revert Hstep. unfold least_step. destruct (negb _); [intros [= <- <-]; by left|].
    destruct best as [|b0 best]; [intros [= <- <-] Hin; right; by apply list_elem_of_singleton|].
    destruct (f64_lt _ _); [intros [= <- <-] Hin; right; by apply list_elem_of_singleton|].
    destruct (f64_eq _ _); intros [= <- <-]; [|by left].
    change (b0 :: best ++ [a]) with ((b0 :: best) ++ [a]).
    intros [?|Hin]%elem_of_app; [by left|right; by apply list_elem_of_singleton]. }
  destruct (IH _ _ Hq) as [Hin|Hin]; [|right; by right].
  destruct (Hb Hin) as [?| ->]; [by left|right; by left].
Qed.

Lemma window_pool now pick tracker accounts l :
  let '(o, l') := select_window now pick tracker accounts l in
  same_pool l l' /\ forall p, o = Some p -> p ∈ accounts.
Proof.
  unfold select_window. set (counts := tracker _).
  assert (Hsub : forall p, p ∈ least_loaded l counts accounts -> p ∈ accounts).
  { intros p Hp. destruct (least_sub _ _ _ _ _ _ Hp) as [Hn|?]; [by apply elem_of_nil in Hn|done]. }
  destruct (least_loaded l counts accounts) as [|b best] eqn:Hb; [by split|].
  destruct (idle_pool l (b :: best) !! _) as [p|] eqn:Hp; [|by split].
  split; [by apply same_pool_heap|]. intros q [= <-].
  apply Hsub. apply list_elem_of_lookup_2 in Hp. by apply idle_pool_sub in Hp.
Qed.

Lemma windows_pool fuel now pick tracker start offset accounts l : accounts <> [] ->
  let '(o, l') := select_windows fuel now pick tracker start offset accounts l in
  same_pool l l' /\ forall p, o = Some p -> p ∈ accounts.
Proof.
  intros Hne. revert offset l; induction fuel as [|fuel IH]; intros offset l; cbn [select_windows]; [by split|].
  destruct (_ <=? _)%nat; [by split|].
  match goal with |- context [select_window now pick tracker ?win l] =>
    pose proof (window_pool now pick tracker win l) as Hw; destruct (select_window now pick tracker win l) as [[p|] l1] end.
  - destruct Hw as [? Hw]. split; [done|]. intros q [= <-]. eapply rotated_elem; [done|]. by apply Hw.
  - destruct Hw as [Hs _]. specialize (IH (offset + accountScanWindow)%nat l1).
    destruct (select_windows _ _ _ _ _ _ _ l1) as [o l2]. destruct IH as [? ?].
    split; [by etransitivity|done].
Qed.

Lemma cursor_pool l n : same_pool l (rotateScanCursor l n).1.
Proof. unfold rotateScanCursor. destruct (n =? 0)%nat; [reflexivity|by apply same_pool_heap]. Qed.

Lemma choice_pool now pick tracker accounts l :
  let '(o, l') := selectAccountWithTracker now pick tracker accounts l in
  same_pool l l' /\ forall p, o = Some p -> p ∈ accounts.
Proof.
  unfold selectAccountWithTracker. destruct accounts as [|a accounts]; [by split|].
  destruct (_ <? _)%nat; [|apply window_pool].
  pose proof (cursor_pool l (length (a :: accounts))) as Hc.
  destruct (rotateScanCursor l _) as [l1 start]. cbn [fst] in Hc.
  pose proof (windows_pool (length (a :: accounts)) now pick tracker start 0 (a :: accounts) l1) as Hw.
  destruct (select_windows _ _ _ _ _ _ _ l1) as [o l2]. destruct Hw as [? ?]; [done|].
  split; [by etransitivity|done].
Qed.

(** ** The scan *)
Section Scan.
Context {S : Type} `{AccountStoreLaws S} (U : list Z).

Definition known (w : World S) : Prop :=
  (forall p, ID (deref (lb w) p) ∈ U) /\ store_known U (st w).

Lemma known_same_pool (w w' : World S) : same_pool (lb w) (lb w') -> store_known U (st w') -> known w -> known w'.
Proof using. intros (_ & _ & _ & D) Hst [Hk _]. split; [|done]. intros p. rewrite D. apply Hk. Qed.

(** One part of a scan. *)
Definition scans (w w' : World S) : Prop := same_pool (lb w) (lb w') /\ (known w -> known w').
#[export] Instance scans_preorder : PreOrder scans.
Proof using. split; [by intros w; split|]. intros w1 w2 w3 [] []. split; [by etransitivity|auto]. Qed.

Lemma persist_scans now p (w : World S) : scans w (persistAccountStatus now (deref (lb w) p) w).
Proof using All.
  split; [reflexivity|]. intros [Hk Hst]. split; [exact Hk|]. apply update_known; [apply Hk|done].
Qed.

Lemma update_scans p (f : Account -> Account) (w : World S) : (forall a : Account, ID (f a) = ID a) -> scans w (set_lb w (update_loc p f (lb w))).
Proof using.
  intros Hf. assert (Hs := same_pool_update p f (lb w) Hf). split; [exact Hs|].
  intros Hk. apply (known_same_pool w); [exact Hs|apply Hk|done].
Qed.

Lemma clear_scans now p (w : World S) : scans w (clearAccountStatus now p w).
Proof using All.
  unfold clearAccountStatus.
  assert (Hid : forall a : Account, ID (resetAccountRuntimeState a) = ID a) by done.
  set (w1 := set_lb w (update_loc p resetAccountRuntimeState (lb w))).
  transitivity w1; [by apply update_scans|].
  change (update_loc p resetAccountRuntimeState (lb w)) with (lb w1).
  destruct (cachedAccountLocked _ (lb w1)) as [c|].
  - transitivity (set_lb w1 (update_loc c resetAccountRuntimeState (lb w1))); [by apply update_scans|].
    apply (persist_scans now p (set_lb w1 (update_loc c resetAccountRuntimeState (lb w1)))).
  - apply (persist_scans now p w1).
Qed.

Lemma available_scans now p (w : World S) : scans w (isAccountAvailable now p w).2.
Proof using All.
  unfold isAccountAvailable. destruct (negb _); [reflexivity|].
  destruct (billing_gate now _); cbn [negb].
  - destruct (status_admission now _); cbn [snd]; [reflexivity..|apply clear_scans].
  - reflexivity.
  - pose proof (claim_known U (ID (deref (lb w) p)) now (st w)) as Hc.
    destruct (so_ClaimGrokPaidQuotaProbe _ _ _) as [claimed s]. cbn [snd] in Hc.
    assert (Hq : scans w (mkWorld (lb w) s)).
    { split; [reflexivity|]. intros [Hk Hst]. split; [exact Hk|by apply Hc]. }
    destruct claimed; cbn [negb]; [|exact Hq].
    destruct (status_admission now _); cbn [snd]; [exact Hq..|]. etransitivity; [exact Hq|].
    apply (clear_scans now p (mkWorld (lb w) s)).
Qed.

Lemma scan_scans now excludeIDs channel flt candidates t found (w : World S) :
  let '(_, found', w') := foldl (scan_one now excludeIDs channel flt) (t, found, w) candidates in
  scans w w' /\ forall p, p ∈ found' -> p ∈ found \/ (p ∈ candidates /\ ID (deref (lb w') p) ∉ excludeIDs).
Proof using All.
  revert t found w; induction candidates as [|q candidates IH]; intros t found w; cbn [foldl].
  { split; [reflexivity|auto]. }
  assert (Hstep : exists t1 found1 w1, scan_one now excludeIDs channel flt (t, found, w) q = (t1, found1, w1) /\
    scans w w1 /\ forall p, p ∈ found1 -> p ∈ found \/ (p = q /\ ID (deref (lb w) p) ∉ excludeIDs)).
  { unfold scan_one. destruct (existsb _ _) eqn:Hex; [eexists _, _, _; split_and!; [done|reflexivity|auto]|].
    destruct (negb _); [eexists _, _, _; split_and!; [done|reflexivity|auto]|].
    destruct (match flt with Some f => _ | None => None end); [eexists _, _, _; split_and!; [done|reflexivity|auto]|].
    pose proof (available_scans now q w) as Ha. destruct (isAccountAvailable now q w) as [ok w1].
    eexists _, _, _. split_and!; [done|exact Ha|]. destruct ok; [|auto].
    intros p [?|Hx]%elem_of_app; [auto|]. apply list_elem_of_singleton in Hx as ->. right. split; [done|].
    intros Hin. apply list_elem_of_In in Hin. apply (eq_true_false_abs _ (proj2 (existsb_exists _ _) (ex_intro _ _ (conj Hin (Z.eqb_refl _)))) Hex). }
  destruct Hstep as (t1 & found1 & w1 & -> & Hs & Hf). specialize (IH t1 found1 w1).
  destruct (foldl _ _ candidates) as [[t2 found2] w2]. destruct IH as [Hs2 Hf2].
  split; [by etransitivity|]. intros p Hp. destruct (Hf2 p Hp) as [Hp1|[? ?]]; [|right; split; [by right|done]].
  destruct (Hf p Hp1) as [?|[-> Hn]]; [by left|right; split; [by left|]].
  destruct Hs as [(_ & _ & _ & D1) _], Hs2 as [(_ & _ & _ & D2) _]. by rewrite D2, D1.
Qed.

Lemma cursor_scans l (w : World S) : same_pool (lb w) l -> scans w (set_lb w l).
Proof using. intros Hs. split; [exact Hs|]. intros Hk. apply (known_same_pool w); [exact Hs|apply Hk|done]. Qed.

Lemma pool_scans now excludeIDs channel flt accounts (w : World S) :
  let '(_, found, w') := scan_pool now excludeIDs channel flt accounts w in
  scans w w' /\ forall p, p ∈ found -> p ∈ accounts /\ ID (deref (lb w') p) ∉ excludeIDs.
Proof using All.
  unfold scan_pool, scan. destruct (_ <? _)%nat eqn:Hlen.
  2: { pose proof (scan_scans now excludeIDs channel flt accounts no_tally [] w) as Hs.
    destruct (foldl _ _ accounts) as [[t found] w']. destruct Hs as [? Hf]. split; [done|].
    intros p Hp. destruct (Hf p Hp) as [Hn|]; [by apply elem_of_nil in Hn|done]. }
  assert (Hne : accounts <> []) by (intros ->; done).
  pose proof (cursor_pool (lb w) (length accounts)) as Hc. destruct (rotateScanCursor (lb w) _) as [l start].
  cbn [fst] in Hc. pose proof (cursor_scans l w Hc) as Hc'.
  pose proof (scan_scans now excludeIDs channel flt (rotated start accountScanWindow accounts) no_tally [] (set_lb w l)) as Hs.
  destruct (foldl _ _ (rotated _ _ _)) as [[t found] w1]. destruct Hs as [Hs Hf].
  assert (Hs1 : scans w w1) by (etransitivity; [exact Hc'|exact Hs]).
  destruct found as [|f found].
  - pose proof (scan_scans now excludeIDs channel flt accounts no_tally [] w1) as Hs2.
    destruct (foldl _ _ accounts) as [[t2 found2] w2]. destruct Hs2 as [Hs2 Hf2].
    split; [by etransitivity|]. intros p Hp. destruct (Hf2 p Hp) as [Hn|]; [by apply elem_of_nil in Hn|done].
  - split; [exact Hs1|]. intros p Hp. destruct (Hf p Hp) as [Hn|[Hr ?]]; [by apply elem_of_nil in Hn|]. split; [by eapply rotated_elem|done].
Qed.

(** ** The snapshot *)
Lemma snapshot_old n (accounts : list Account) (hp : gmap loc Account) p : (p < n)%nat ->
  (list_to_map (zip (seq n (length accounts)) accounts) ∪ hp : gmap loc Account) !! p = hp !! p.
Proof using.
  intros Hp. apply lookup_union_r, not_elem_of_list_to_map. rewrite fst_zip by (rewrite length_seq; lia).
  intros Hin%elem_of_seq. lia.
Qed.

Lemma snapshot_known n (accounts : list Account) (hp : gmap loc Account) p acc :
  (list_to_map (zip (seq n (length accounts)) accounts) ∪ hp : gmap loc Account) !! p = Some acc ->
  acc ∈ accounts \/ hp !! p = Some acc.
Proof using.
  intros [Hl|[_ Hr]]%lookup_union_Some_raw; [left|by right].
  apply elem_of_list_to_map_2 in Hl. by apply elem_of_zip_r in Hl.
Qed.

Lemma load_spec now accounts l : let '(l', s) := load_snapshot now accounts l in
  ids_stay l l' /\ well_placed l' /\ Forall (fun p => p < next_loc l')%nat (slice_elems s) /\
  forall p, ID (deref l' p) = ID (deref l p) \/ exists a : Account, a ∈ accounts /\ ID (deref l' p) = ID a.
Proof using.
  unfold load_snapshot. set (locs := seq (next_loc l) (length accounts)).
  assert (Hlocs : Forall (fun p => p < next_loc l + length accounts)%nat locs).
  { apply Forall_forall. intros p Hp%elem_of_seq. lia. }
  split_and!.
  - split; cbn [next_loc]; [lia|]. intros p Hp. unfold deref. cbn [heap]. unfold locs. by rewrite snapshot_old.
  - split; cbn [cachedAccounts cachedByChannel slice_elems next_loc]; [exact Hlocs|].
    intros index k [= <-]. apply Forall_forall. intros p Hp.
    apply index_fold_elem in Hp as [Hp|(acc & Hin & _)]; [by rewrite lookup_empty in Hp; apply elem_of_nil in Hp|].
    apply elem_of_zip_l in Hin. exact (proj1 (Forall_forall _ _) Hlocs p Hin).
  - exact Hlocs.
  - intros p. set (l' := mkLB _ _ _ _ _ _ _ _ _).
    destruct (heap l' !! p) as [acc|] eqn:Hp; unfold deref at 1 3; rewrite Hp; cbn [default].
    + apply snapshot_known in Hp as [Hin|Hin]; [right; by exists acc|left; unfold deref; by rewrite Hin].
    + apply lookup_union_None in Hp as [_ Hp]. left. unfold deref. by rewrite Hp.
Qed.

(** ** The selection *)
Lemma selection_keeps now pick excludeIDs channel tracker flt (w w' : World S) res :
  GetNextAccount now pick excludeIDs channel tracker flt w = (res, w') ->
  (known w -> known w') /\
  (forall p, res = Ok p -> ID (deref (lb w') p) ∉ excludeIDs) /\
  (well_placed (lb w) -> ids_stay (lb w) (lb w') /\ well_placed (lb w') /\
     forall p, res = Ok p -> (p < next_loc (lb w'))%nat).
Proof using All.
  unfold GetNextAccount. unfold getEnabledAccounts.
  assert (Hrest : forall s w1 res w', (match scan_pool now excludeIDs channel flt (channel_pool channel s (lb w1)) w1 with
     | (t, found, w) =>
      match found with
      | [] => (Err (empty_pool_error channel t), w)
      | _ =>
          let '(picked, l) := selectAccountWithTracker now pick tracker found (lb w) in
          match picked with
          | None => (Err (at_limit_error channel), set_lb w l)
          | Some p => (Ok p, set_lb w l)
          end
      end end) = (res, w') ->
     scans w1 w' /\ forall p, res = Ok p -> p ∈ channel_pool channel s (lb w1) /\ ID (deref (lb w') p) ∉ excludeIDs).
  { clear res w'. intros s w1 res w' Heq.
    pose proof (pool_scans now excludeIDs channel flt (channel_pool channel s (lb w1)) w1) as Hp.
    destruct (scan_pool _ _ _ _ _ _) as [[t found] w2]. destruct Hp as [Hs Hf].
    destruct found as [|f found]; [injection Heq as <- <-; by split|].
    pose proof (choice_pool now pick tracker (f :: found) (lb w2)) as Hc.
    destruct (selectAccountWithTracker _ _ _ _ _) as [o l]. destruct Hc as [Hc Hin].
    pose proof (cursor_scans l w2 Hc) as Hl.
    destruct o as [p|]; injection Heq as <- <-; (split; [by etransitivity|]); [|done].
    intros q [= <-]. destruct (Hf p (Hin p eq_refl)) as [? ?]. split; [done|].
    destruct Hl as [(_ & _ & _ & D) _]. by rewrite D. }
  assert (Hplaced : forall s l, well_placed l -> Forall (fun p => p < next_loc l)%nat (slice_elems s) ->
    Forall (fun p => p < next_loc l)%nat (channel_pool channel s l)).
  { intros s l [_ Hidx] Hs. unfold channel_pool. destruct (String.eqb _ _); [done|].
    destruct (cachedByChannel l) as [index|] eqn:Hi; [|done]. destruct (_ && _); [|done]. by apply Hidx. }
  destruct (cachedAccountsBefore (lb w) now) as [s|] eqn:Hcache.
  - intros Heq. destruct (Hrest s w res w' Heq) as [[Hs Hk] Hin]. split; [exact Hk|].
    split; [intros p Hp; by apply Hin|]. intros Hw.
    split; [by apply same_pool_stay|]. split; [by eapply same_pool_placed|].
    assert (Hslice : Forall (fun p => p < next_loc (lb w))%nat (slice_elems s)).
    { unfold cachedAccountsBefore in Hcache. destruct (_ && _); [|done]. injection Hcache as <-. apply Hw. }
    intros p Hp. destruct Hs as (-> & _). apply (proj1 (Forall_forall _ _) (Hplaced s (lb w) Hw Hslice)). by apply Hin.
  - destruct (so_GetEnabledAccounts (st w)) as [accounts|e] eqn:Hg.
    2: { intros [= <- <-]. split; [done|]. split; [done|]. intros ?. split; [reflexivity|by split]. }
    pose proof (load_spec now accounts (lb w)) as Hl.
    destruct (load_snapshot now accounts (lb w)) as [l s]. destruct Hl as (Hstay & Hw1 & Hs & Hid).
    intros Heq. destruct (Hrest s (set_lb w l) res w' Heq) as [[Hsp Hk] Hin]. cbn [lb set_lb] in *. split; [|split; [intros p Hp; by apply Hin|]].
    + intros [Hkw Hst]. apply Hk. split; cbn; [|done]. intros p.
      destruct (Hid p) as [->|(a & Ha & ->)]; [apply Hkw|].
      exact (proj1 (Forall_forall _ _) (Hst accounts Hg) a Ha).
    + intros _. split; [etransitivity; [exact Hstay|by apply same_pool_stay]|].
      split; [by eapply same_pool_placed|]. intros p Hp. destruct Hsp as (-> & _). apply (proj1 (Forall_forall _ _) (Hplaced s l Hw1 Hs)). by apply Hin.
Qed.
End Scan.
