(* ===== verification/Retry.v ===== *)
(** * The retry loop of a request (internal/handler/handler.go HandleMessages, handler_helpers.go)

    From the first account selection to the last frame: the selection with its
    account filter and the reserved concurrency slot, the loop that sends the
    request, classifies a failure, records its verdict on the account, switches
    to another account or waits out a refusal every account shares, and the
    deferred releases.

    The loop composes the balancer (LoadBalancer.v), the policy (Policy.v), the
    catalogues (Catalogs.v) and the relay (Stream.v). What the rest of the
    process and the outside do is an environment ([Env]) asked at each event, the
    [ev]-th question getting the [ev]-th answer: the clock, the writes of other
    requests to the shared accounts and the store, the tracker, the upstream, the
    cancellation of the caller. A [log] records the slots and clients taken and
    given back, the requests sent and the waits. *)

From Corelib Require Import SpecFloat.
From stdpp Require Import base numbers list strings gmap.
From S2P Require Import Prelude GoLib Channel Errors Account Cooldown Policy Credentials AccountStore LoadBalancer Selection Json Tools SseFrame Stream Catalogs.

Local Open Scope Z_scope.
Local Open Scope orchids_scope.

(** ** Delays *)
Definition upstreamRetryAfter (err : GoError) : Duration :=
  match err_RetryAfter err with
  | None => 0
  | Some delay =>
      if delay <=? 0 then 0
      else if 30 * Second <? delay then 30 * Second else delay
  end.

Definition computeRetryDelay (base : Duration) (attempt : Z) (category : string) : Duration :=
  if base <=? 0 then 0 else
  let attempt := if attempt <? 1 then 1 else attempt in
  let attempt := if 4 <? attempt then 4 else attempt in
  let delay := wrap64 (base * Z.shiftl 1 (attempt - 1)) in
  let delay := if String.eqb category "rate_limit" && (delay <? 2 * Second) then 2 * Second else delay in
  if 30 * Second <? delay then 30 * Second else delay.

Definition shouldRetryCurrentAccountWhenNoAlternative (category : string) : bool :=
  existsb (String.eqb (TrimSpace category)) ["network"; "timeout"; "server"; "model_unavailable"; "unknown"].

Definition isSharedUpstreamRefusalClass (class : UpstreamErrorClass) : bool :=
  if SwitchAccount class then false
  else existsb (String.eqb (Category class)) ["rate_limit"; "upstream_unavailable"; "upstream_queue"].

Definition sharedRefusalTotalWaitBudget : Duration := 60 * Second.
Definition sharedRefusalEdgeSafeCeiling : Duration := 60 * Second.

Definition SharedRefusalWaitBudget (configuredMs : Z) : Duration :=
  if configuredMs <=? 0 then sharedRefusalTotalWaitBudget
  else
    let budget := wrap64 (configuredMs * Millisecond) in
    if budget <? Second then Second else budget.

Definition SharedRefusalBudgetExceedsEdge (budget : Duration) : bool := sharedRefusalEdgeSafeCeiling <? budget.

Definition sharedRefusalWaitAllowedWithin (already next budget : Duration) : bool :=
  if next <=? 0 then false
  else
    let budget := if budget <=? 0 then sharedRefusalTotalWaitBudget else budget in
    wrap64 (already + next) <=? budget.

(** The fractions of the hint that the first three probes wait. *)
Definition probe_fractions : list float64 :=
  [f64_div (f64_of_Z 1) (f64_of_Z 16); f64_div (f64_of_Z 1) (f64_of_Z 4); f64_div (f64_of_Z 3) (f64_of_Z 4)].

Definition sharedRefusalWait (hint : Duration) (retry : Z) : Duration :=
  if hint <=? 0 then 0 else
  let fraction := if (1 <=? retry) && (retry <=? 3)
                  then nth (Z.to_nat (retry - 1)) probe_fractions f64_zero else f64_of_Z 1 in
  let wait := truncate (SFmul 53 1024 (f64_of_Z hint) fraction) in
  let wait := if wait <? Second then Second else wait in
  if hint <? wait then hint else wait.

Definition is_qoder (channel : string) : bool := EqualFold (TrimSpace channel) "qoder".

Definition sharedRefusalWaitForChannel (hint : Duration) (retry : Z) (channel : string)
    (qoderIntervalMs : Z) : Duration :=
  if is_qoder channel then
    if hint <=? 0 then 0
    else if 0 <? qoderIntervalMs then
      let ms := if 86400000 <? qoderIntervalMs then 86400000 else qoderIntervalMs in
      let interval := ms * Millisecond in
      if interval <? Second then Second else interval
    else hint
  else sharedRefusalWait hint retry.

(** [rand.Int63n] draws below its argument. *)
Definition sharedRefusalJitter (delay : Duration) (draw : Z) : Duration :=
  if delay <=? 0 then 0 else
  let jitter := Z.quot delay 5 in
  let jitter := if 5 * Second <? jitter then 5 * Second else jitter in
  if jitter <=? 0 then 0 else draw mod jitter.

Definition sharedRefusalSleepForChannel (wait : Duration) (channel : string) (qoderIntervalMs draw : Z) : Duration :=
  if (0 <? qoderIntervalMs) && is_qoder channel then wait
  else wrap64 (wait + sharedRefusalJitter wait draw).

(** ** The account filter *)
Definition honorsModelCooldown (channel : string) : bool :=
  existsb (String.eqb (ToLower (TrimSpace channel))) ["qoder"; "workbuddy"].

(** What the filter asks of the model table: the billing tier of a row, [None]
    when there is none or the read fails. *)
Class ModelRows (S : Type) := { so_ModelBillingTier : string -> string -> S -> option string }.

Section Request.
Context {S : Type} `{AccountStoreOps S} `{ModelRows S}.

Definition isCurrentFreeModel (channel modelID : string) (store : S) : bool :=
  match so_ModelBillingTier channel (ToLower (TrimSpace modelID)) store with
  | Some tier => EqualFold (TrimSpace tier) "free"
  | None => false
  end.

(** The verdict on an account whose allowance is spent or that must pay. *)
Definition spent_filter (channel model : string) (store : S) (acc : Account) : option rejection :=
  let free_on_qoder := QoderIsFreeModel (QoderModelIDs acc) model && isCurrentFreeModel "qoder" model store in
  let free_on_workbuddy := WorkBuddy.IsFreeModelInCatalog (WorkBuddyModelIDs acc) model in
  let only (b : bool) := if b then None else Some ErrAccountNotEligible in
  let code := TrimSpace (StatusCode acc) in
  if String.eqb code "402" then
    if String.eqb channel "qoder" then only free_on_qoder
    else if String.eqb channel "workbuddy" then only free_on_workbuddy
    else Some ErrAccountNotEligible
  else if String.eqb code AccountStatusQoderQuotaExhausted then only (String.eqb channel "qoder" && free_on_qoder)
  else if String.eqb code AccountStatusWorkBuddyQuotaExhausted
  then only (String.eqb channel "workbuddy" && free_on_workbuddy)
  else None.

Definition account_filter (now : Time) (channel model : string) (store : S) (acc : Account) : option rejection :=
  if String.eqb channel "cline" && negb (Cline.CatalogSupportsModel (ClineModelIDs acc) model)
  then Some ErrAccountNotEligible
  else
    let kind := if honorsModelCooldown channel then ModelCooldownKind acc model now else EmptyString in
    if String.eqb kind ModelCooldownUnavailable then Some RejectModelUnavailable
    else if String.eqb kind ModelCooldownThrottled then Some RejectModelThrottled
    else spent_filter channel model store acc.

Definition selection_filter (now : Time) (targetChannel modelID : string) (store : S)
    : option (Account -> option rejection) :=
  let model := TrimSpace modelID in
  let channel := ToLower (TrimSpace targetChannel) in
  if negb (String.eqb model EmptyString) && (honorsModelCooldown channel || String.eqb channel "cline")
  then Some (account_filter now channel model store) else None.

(** ** State *)
Inductive Event :=
| SlotTaken (id : Z)
| SlotGiven (id : Z)
| ClientTaken (handle : nat)
| ClientGiven (handle : nat)
| Sent (account : Z) (handle : option nat) (slot : Z)
| Waited (charged slept : Duration).

Inductive UpstreamClient := DefaultClient | AccountClient (p : loc).

(** [handle.connTracker], [handle.client] and [handle.loadBalancer]. *)
Inductive TrackerKind := Limited | Unlimited | Builtin.

Record Handler := mkHandler {
  has_balancer : bool;
  default_client : bool;
  tracker_kind : TrackerKind;
  MaxRetries : Z;
  RetryDelay : Z;                    (* milliseconds *)
  QoderQueueRetryIntervalMs : Z;
  SharedRefusalWaitBudgetMs : Z;
}.

Record Request := mkRequest {
  targetChannel : string;
  forcedChannel : bool;
  req_Model : string;
  mappedModel : string;
  supports_flush : bool;
}.

(** What the [ev]-th question to the rest of the world is answered. *)
Record Env := mkEnv {
  clock : nat -> Time;
  others : nat -> World S -> World S;            (* other requests and processes *)
  conns : nat -> list Z -> gmap Z Z;             (* the counts the tracker reports *)
  try_slot : nat -> Z -> Z -> bool;              (* TryAcquire id limit *)
  pick : nat -> nat -> nat;
  factory : nat -> Account -> bool;              (* buildAccountClient yields a client *)
  upstream : nat -> list SSEMessage * option GoError;
  canceled : nat -> bool;                        (* ctx.Err() != nil *)
  ctx_error : string;
  sleeps : nat -> bool;                          (* the timer fires before the cancellation *)
  draw : nat -> Z;
}.

Record Req := mkReq {
  sh : St;
  world : World S;
  ev : nat;
  log : list Event;
  handles : nat;
  apiClient : UpstreamClient;
  currentAccount : option loc;
  releaseClient : option nat;        (* [None] for the release that does nothing *)
  trackedAccountID : Z;
  failedAccountIDs : list Z;
  attempt : Z;
  retriesRemaining : Z;
  sharedRefusalWaited : Duration;
  stuck : bool;                      (* the bound of the selection loop was too small *)
}.

#[global] Instance Req_eta : Eta Req := fun s => mkReq (sh s) (world s) (ev s) (log s) (handles s)
  (apiClient s) (currentAccount s) (releaseClient s) (trackedAccountID s) (failedAccountIDs s)
  (attempt s) (retriesRemaining s) (sharedRefusalWaited s) (stuck s).

Definition start (sh0 : St) (w : World S) : Req :=
  mkReq sh0 w 0 [] 0 DefaultClient None None 0 [] 0 0 0 false.

Context `{UnicodeTable}.
Context (cfg : Cfg) (wfail : nat -> bool) (tick : nat -> nat).
Context (h : Handler) (req : Request) (env : Env) (pool : nat).

Definition on_sh (f : St -> St) (s : Req) : Req := s <| sh := f (sh s) |>.
Definition note (e : Event) (s : Req) : Req := s <| log := log s ++ [e] |>.
(** Time passes: the next question, after whatever the others did. *)
Definition pass (s : Req) : Req :=
  s <| world := others env (ev s) (world s) |> <| ev := Datatypes.S (ev s) |>.
Definition account_at (s : Req) (p : loc) : Account := deref (lb (world s)) p.
Definition current (s : Req) : option Account := account_at s <$> currentAccount s.

(** ** Slots *)
Definition tryAcquireTrackedAccount (acc : option loc) (s : Req) : Req * option Z :=
  let s := pass s in
  match acc with
  | None => (s, Some 0)
  | Some p =>
      let id := ID (account_at s p) in
      if id =? 0 then (s, Some 0)
      else
        let limit := EffectiveAccountConcurrencyLimit (Some (account_at s p)) in
        let granted := match tracker_kind h with
                       | Limited => if 0 <? limit then try_slot env (ev s) id limit else true
                       | Unlimited => negb ((0 <? limit) && (limit <=? default 0 (conns env (ev s) [id] !! id)))
                       | Builtin => true
                       end in
        match tracker_kind h, has_balancer h with
        | Builtin, false => (s, Some 0)
        | _, _ => if granted then (note (SlotTaken id) s, Some id) else (s, None)
        end
  end.

Definition releaseTrackedAccount (id : Z) (s : Req) : Req :=
  if id =? 0 then s else note (SlotGiven id) s.

Definition release_handle (handle : option nat) (s : Req) : Req :=
  match handle with Some k => note (ClientGiven k) s | None => s end.

(** ** Selection *)
Definition selectAccountRecordWithOptions (excluded : list Z) (model : string) (s : Req) : Req * result loc string :=
  let now := clock env (ev s) in
  let '(res, w) := GetNextAccount now (pick env (ev s)) excluded (targetChannel req) (conns env (ev s))
                     (selection_filter now (targetChannel req) model (st (world s))) (world s) in
  (s <| world := w |>, res).

Definition acquireAccountClient (p : loc) (s : Req) : Req * option (option nat) :=
  let s := pass s in
  if negb (factory env (ev s) (account_at s p)) then (s, None)
  else if ID (account_at s p) =? 0 then (s, Some None)
  else (note (ClientTaken (handles s)) s <| handles := Datatypes.S (handles s) |>, Some (Some (handles s))).

Definition selection : Type := UpstreamClient * option loc * option nat.

Definition acquireAccountSelection (excluded : list Z) (model : string) (s : Req)
    : Req * result selection string :=
  let fallback (e : string) := if default_client h then Ok (DefaultClient, None, None) else Err e in
  if has_balancer h then
    match selectAccountRecordWithOptions excluded model (pass s) with
    | (s, Err e) => (s, if forcedChannel req then Err e else fallback e)
    | (s, Ok p) =>
        match acquireAccountClient p s with
        | (s, None) => (s, Err "no client configured")
        | (s, Some handle) => (s, Ok (AccountClient p, Some p, handle))
        end
    end
  else (s, fallback "no client configured").

Definition reservationRetries : nat := 8.
Definition at_limit_text : string := "all matching accounts are at their concurrency limit".

(** One pass of the loop selects, and reserves the slot of what was selected:
    [full] are the accounts whose last slot another request won, [excluded] the
    failed ones and those. *)
Fixpoint reserve (fuel retries : nat) (full : list Z) (model : string) (s : Req)
    : Req * result (selection * Z) string :=
  match fuel with
  | O => (s <| stuck := true |>, Err EmptyString)
  | Datatypes.S fuel =>
      let full_error := Err (at_limit_error (targetChannel req)) in
      match acquireAccountSelection (failedAccountIDs s ++ full) model s with
      | (s, Err e) =>
          if (retries <? reservationRetries)%nat && Contains e at_limit_text then
            let s := pass s in
            if sleeps env (ev s) then reserve fuel (Datatypes.S retries) [] model s
            else (s, Err (ctx_error env))
          else (s, match full with [] => Err e | _ => full_error end)
      | (s, Ok (cl, account, handle)) =>
          match tryAcquireTrackedAccount account s with
          | (s, Some id) => (s, Ok (cl, account, handle, id))
          | (s, None) =>
              let s := release_handle handle s in
              match account with
              | None => (s, Err "failed to reserve an account concurrency slot")
              | Some p =>
                  let id := ID (account_at s p) in
                  if id =? 0 then (s, Err "failed to reserve an account concurrency slot")
                  else if bool_decide (id ∈ full) then (s, full_error)
                  else reserve fuel retries (full ++ [id]) model s
              end
          end
      end
  end.

(** At most [pool] accounts lose the race in each of the nine passes. *)
Definition reserve_fuel : nat := (Datatypes.S reservationRetries) * (pool + 2).

Definition acquireReservedAccountSelection (model : string) (s : Req) : Req * result (selection * Z) string :=
  reserve reserve_fuel 0 [] model s.

(** ** The verdict on the account *)
Definition update_account (p : loc) (f : Account -> Account) (s : Req) : Req :=
  s <| world := set_lb (world s) (update_loc p f (lb (world s))) |>.
Definition freeTierMaxHold : Duration := 6 * Hour.
Definition freeTierHold (now : Time) (acc : Account) : Duration :=
  let reset := wq_ResetAt (WorkBuddyQuota acc) in
  if After reset now && (Sub reset now <? freeTierMaxHold) then Sub reset now else freeTierMaxHold.

(** What the verdict does to the account, [None] when it does nothing. *)
Definition verdict_write (now : Time) (v : Verdict) (acc : Account) : option (Account * bool) :=
  if bool_decide (v_Scope v = ScopeModel) && negb (String.eqb (v_Model v) EmptyString) && (0 <? v_Cooldown v)
  then Some (RecordModelCooldownWithReason now acc (v_Model v) (Add now (v_Cooldown v)) (v_ModelCooldownKind v), false)
  else if String.eqb (v_Status v) EmptyString then None
  else
    let acc := Apply now v acc in
    let spent := String.eqb (v_Status v) AccountStatusWorkBuddyQuotaExhausted
                 && WorkBuddy.IsFreeModelInCatalog (WorkBuddyModelIDs acc) (mappedModel req) in
    Some (if spent
          then RecordModelCooldownWithReason now acc (mappedModel req) (Add now (freeTierHold now acc)) ModelCooldownUnavailable
          else acc, true).

Definition record_verdict (v : Verdict) (s : Req) : Req :=
  match currentAccount s with
  | Some p =>
      if negb (has_balancer h) then s else
      let now := clock env (ev s) in
      match verdict_write now v (account_at s p) with
      | None => s
      | Some (acc, applied) =>
          let s := update_account p (fun _ => acc) s in
          let w := world s in
          s <| world := if applied then PersistAppliedAccountStatus now p w
                        else persistAccountStatus now (deref (lb w) p) w |>
      end
  | None => s
  end.

(** ** One attempt

    A part of the loop's body says whether the body goes on. *)
Definition andThen (p : Req * bool) (k : Req -> Req * bool) : Req * bool :=
  if p.2 then k p.1 else p.

Definition report (category message : string) (retryAfter : Duration) (s : Req) : Req :=
  on_sh (reportRequestFailure cfg wfail tick category message retryAfter) s.
Definition finish (s : Req) : Req := on_sh (finishResponse cfg wfail tick "end_turn") s.
Definition report_error (err : GoError) (s : Req) : Req :=
  report (Category (ClassifyUpstreamError (err_Error err))) (PublicMessage (err_Error err)) (upstreamRetryAfter err) s.

Definition begin_round (s : Req) : Req * bool :=
  let '(sh', (over, _)) := terminalState cfg wfail tick (sh s) in
  if over then (s <| sh := sh' |>, false)
  else (on_sh (resetRoundState cfg wfail tick) (s <| sh := sh' |>), true).

Definition send (s : Req) : Req * option GoError :=
  let s := note (Sent (match current s with Some acc => ID acc | None => 0 end) (releaseClient s) (trackedAccountID s)) (pass s) in
  let '(msgs, err) := upstream env (ev s) in
  (on_sh (run cfg wfail tick (map OpMessage msgs)) s, err).

(** No retry once the response is over or the caller has been given anything. *)
Definition stop_after_output (err : GoError) (s : Req) : Req * bool :=
  let '(sh', (over, _)) := terminalState cfg wfail tick (sh s) in
  let s := s <| sh := sh' |> in
  if over then (s, false)
  else
    let '(sh', output) := hasAnyOutput cfg wfail tick (sh s) in
    let s := s <| sh := sh' |> in
    if output then (report_error err s, false) else (s, true).

Definition stop_not_retryable (v : Verdict) (err : GoError) (s : Req) : Req * bool :=
  let s := pass s in
  if v_Retryable v then (s, true)
  else if String.eqb (Category (ClassifyUpstreamError (err_Error err))) "canceled" then
    if canceled env (ev s) then (finish s, false)
    else (report "server" "Upstream request was canceled unexpectedly" 0 s, false)
  else (report_error err s, false).

Definition spend_retry (err : GoError) (s : Req) : Req * bool :=
  let s := pass s in
  if canceled env (ev s) then (finish s, false)
  else if retriesRemaining s <=? 0 then (report_error err s, false)
  else (s <| retriesRemaining := retriesRemaining s - 1 |>, true).

Definition no_alternative (err : GoError) (e : string) (s : Req) : Req * bool :=
  (finish (on_sh (InjectNoAvailableAccountError cfg wfail tick (err_Error err) (Some e)) s), false).

Definition switch_account (v : Verdict) (err : GoError) (s : Req) : Req * bool :=
  match currentAccount s with
  | Some prev =>
      if negb (v_SwitchAccount v && has_balancer h) then (s, true) else
      let id := ID (account_at s prev) in
      let s := if bool_decide (id ∈ failedAccountIDs s) then s
               else s <| failedAccountIDs := failedAccountIDs s ++ [id] |> in
      let s := releaseTrackedAccount (trackedAccountID s) s <| trackedAccountID := 0 |> in
      match acquireReservedAccountSelection (mappedModel req) s with
      | (s, Ok (cl, account, handle, tracked)) =>
          let previous := releaseClient s in
          let s := s <| apiClient := cl |> <| currentAccount := account |> <| releaseClient := handle |>
                     <| trackedAccountID := tracked |> in
          (release_handle previous s, true)
      | (s, Err e) =>
          if shouldRetryCurrentAccountWhenNoAlternative (Category (ClassifyUpstreamError (err_Error err))) then
            match tryAcquireTrackedAccount (Some prev) s with
            | (s, Some id) => (s <| trackedAccountID := id |>, true)
            | (s, None) => no_alternative err e s
            end
          else no_alternative err e s
      end
  | None => (s, true)
  end.

(** The delay before the next attempt, and the part of it that a shared refusal
    charges to the budget. *)
Definition retry_delay (err : GoError) (attempt : Z) : Duration :=
  let delay := computeRetryDelay (wrap64 (RetryDelay h * Millisecond)) (attempt + 1)
                 (Category (ClassifyUpstreamError (err_Error err))) in
  if delay <? upstreamRetryAfter err then upstreamRetryAfter err else delay.

Definition qoder_interval (class : UpstreamErrorClass) : Z :=
  if String.eqb (Category class) "upstream_queue" then QoderQueueRetryIntervalMs h else 0.

Definition shared_wait (err : GoError) (attempt : Z) : Duration :=
  let class := ClassifyUpstreamError (err_Error err) in
  let delay := retry_delay err attempt in
  if (0 <? delay) && isSharedUpstreamRefusalClass class
  then sharedRefusalWaitForChannel delay (attempt + 1) (targetChannel req) (qoder_interval class) else 0.

(** The interval slept: a shared refusal's with a jitter that is not charged. *)
Definition wait_delay (err : GoError) (attempt : Z) (draw : Z) : Duration :=
  let charged := shared_wait err attempt in
  if 0 <? charged
  then sharedRefusalSleepForChannel charged (targetChannel req) (qoder_interval (ClassifyUpstreamError (err_Error err))) draw
  else retry_delay err attempt.

(** The slot is not held through the wait for a shared resource. *)
Definition give_slot_up (shared : bool) (delay : Duration) (s : Req) : Req * bool :=
  if (0 <? delay) && shared && negb (trackedAccountID s =? 0)
  then (releaseTrackedAccount (trackedAccountID s) s <| trackedAccountID := 0 |>, true) else (s, false).

Definition sleep_through (charged delay : Duration) (s : Req) : Req * bool :=
  if 0 <? delay then
    let s := note (Waited charged delay) (pass s) in
    if sleeps env (ev s) then (s, true) else (finish s, false)
  else (s, true).

Definition charge_budget (shared : bool) (charged delay : Duration) (s : Req) : Req :=
  if shared
  then s <| sharedRefusalWaited :=
         wrap64 (wrap64 (sharedRefusalWaited s + charged) + (if charged =? 0 then delay else 0)) |>
  else s.

Definition take_slot_back (released : bool) (s : Req) : Req * bool :=
  if negb released then (s, true)
  else match currentAccount s with
       | None => (s, true)
       | Some p =>
           match tryAcquireTrackedAccount (Some p) s with
           | (s, Some id) => (s <| trackedAccountID := id |>, true)
           | (s, None) => (report "rate_limit" PoolBusyMessage 0 s, false)
           end
       end.

Definition over_budget (err : GoError) (s : Req) : bool :=
  let charged := shared_wait err (attempt s) in
  isSharedUpstreamRefusalClass (ClassifyUpstreamError (err_Error err)) && (0 <? charged)
  && negb (sharedRefusalWaitAllowedWithin (sharedRefusalWaited s) charged
             (SharedRefusalWaitBudget (SharedRefusalWaitBudgetMs h))).

Definition wait_out (err : GoError) (s : Req) : Req * bool :=
  if over_budget err s then (report_error err s, false)
  else
    let shared := isSharedUpstreamRefusalClass (ClassifyUpstreamError (err_Error err)) in
    let charged := shared_wait err (attempt s) in
    let s := pass s in
    let delay := wait_delay err (attempt s) (draw env (ev s)) in
    let '(s, released) := give_slot_up shared delay s in
    andThen (sleep_through charged delay s) (fun s =>
    take_slot_back released (charge_budget shared charged delay s)).

Definition after_failure (err : GoError) (s : Req) : Req * bool :=
  andThen (stop_after_output err s) (fun s =>
  let v := Classify (clock env (ev s)) (current s) (Some err) (req_Model req) in
  let s := record_verdict v s in
  andThen (stop_not_retryable v err s) (fun s =>
  andThen (spend_retry err s) (fun s =>
  andThen (switch_account v err s) (fun s =>
  andThen (wait_out err s) (fun s =>
  (s <| attempt := attempt s + 1 |>, true)))))).

(** One turn of the loop: [true] when the loop goes round again. *)
Definition one_attempt (s : Req) : Req * bool :=
  andThen (begin_round s) (fun s =>
  let '(s, err) := send s in
  if panicked (conn (sh s)) then (s, false)
  else match err with
       | None => (on_sh (forceFinishIfMissing cfg wfail tick) s, false)
       | Some err => after_failure err s
       end).

Fixpoint attempts (fuel : nat) (s : Req) : Req * bool :=
  match fuel with
  | O => (s, true)
  | Datatypes.S fuel => andThen (one_attempt s) (attempts fuel)
  end.

(** ** The request *)

Definition PoolNoAccountsMessage : string :=
  "Request failed: no account in this channel can serve the request. Please check the account pool in Admin UI or add valid accounts.".

(** The answer when the pool could not take the request. *)
Definition writePoolExhaustion (out : PoolExhaustion) (s : St) : St :=
  let out := if pool_Empty out then mkPool "configuration" PoolNoAccountsMessage else out in
  let e := New (pool_Category out) (pool_Message out) (StatusForCategory (pool_Category out)) in
  on_conn (fun c => c <| wire := wire c ++
    [WHTTPError (app_HTTPStatus e) (app_Code e) (app_Message e) (app_RetryAfter e)] |>) s.

Definition refuse (status : Z) (category message : string) (s : St) : St :=
  on_conn (fun c => c <| wire := wire c ++ [WHTTPError status category message 0] |>) s.

(** What the deferred [recover] writes after a panic. *)
Definition recovered (s : St) : St :=
  if negb (panicked (conn s)) then s
  else if isStream cfg
  then (put_report wfail (WError "server_error" "Internal Server Error")
          (writeSSEFrameBytes "error" (appendAnthropicError EmptyString "server_error" "Internal Server Error")) s).1
  else refuse 500 "server_error" "Internal Server Error" s.

Definition loop_fuel : nat := Datatypes.S (Z.to_nat (MaxRetries h)).

Definition run_request (s : Req) : Req :=
  let s := s <| attempt := 0 |> <| retriesRemaining := Z.max 0 (MaxRetries h) |> <| sharedRefusalWaited := 0 |> in
  let '(s, _) := attempts loop_fuel s in
  if panicked (conn (sh s)) || hasReturn (conn (sh s)) then s else finish s.

Definition deferred (s : Req) : Req :=
  release_handle (releaseClient s) (releaseTrackedAccount (trackedAccountID s) s)
    <| releaseClient := None |> <| trackedAccountID := 0 |>.

Definition HandleMessages (sh0 : St) (w : World S) : Req :=
  let '(s, picked) := acquireReservedAccountSelection (TrimSpace (req_Model req)) (start sh0 w) in
  match picked with
  | Err e => on_sh (writePoolExhaustion (ClassifyPoolExhaustion (Some e) e)) s
  | Ok (cl, account, handle, tracked) =>
      let s := s <| apiClient := cl |> <| currentAccount := account |> <| releaseClient := handle |>
                 <| trackedAccountID := tracked |> in
      if isStream cfg && negb (supports_flush req)
      then deferred (on_sh (refuse 500 "api_error" "Streaming not supported by underlying connection") s)
      else on_sh recovered (deferred (run_request s))
  end.

(** * What the parts of the loop leave alone

    [quiet s s']: between the two the relay, the retry budget and the wait budget
    did not move, and nothing was sent or waited out: only slots, clients, the
    accounts and the store. *)
Definition is_sent (e : Event) : bool := match e with Sent _ _ _ => true | _ => false end.
Definition is_waited (e : Event) : bool := match e with Waited _ _ => true | _ => false end.
Definition calm (l : list Event) : Prop := Forall (fun e => is_sent e = false /\ is_waited e = false) l.
Definition counters (s : Req) : St * Z * Z * Duration :=
  (sh s, attempt s, retriesRemaining s, sharedRefusalWaited s).

Definition quiet (s s' : Req) : Prop :=
  counters s' = counters s /\ exists l, log s' = log s ++ l /\ calm l.

#[local] Instance quiet_preorder : PreOrder quiet.
Proof using.
  split.
  - intros s. split; [done|]. exists []. by rewrite app_nil_r; split; [|constructor].
  - intros s1 s2 s3 [E1 (l1 & L1 & C1)] [E2 (l2 & L2 & C2)]. split; [congruence|].
    exists (l1 ++ l2). rewrite L2, L1, <- app_assoc. split; [done|]. by apply Forall_app.
Qed.

Lemma quiet_same s s' : counters s' = counters s -> log s' = log s -> quiet s s'.
Proof using. intros Hc Hl. split; [done|]. exists []. rewrite Hl, app_nil_r. by split; [|constructor]. Qed.

Lemma note_quiet e s : is_sent e = false -> is_waited e = false -> quiet s (note e s).
Proof using. intros. split; [done|]. exists [e]. by split; [|repeat constructor]. Qed.

Lemma pass_quiet s : quiet s (pass s).
Proof using. by apply quiet_same. Qed.

Lemma try_quiet acc s : quiet s (tryAcquireTrackedAccount acc s).1.
Proof using.
  unfold tryAcquireTrackedAccount. destruct acc as [p|]; [|apply pass_quiet].
  destruct (_ =? 0); [apply pass_quiet|].
  assert (Hb : forall b : bool, forall i, quiet s (if b then (note (SlotTaken i) (pass s), Some i) else (pass s, None)).1).
  { intros [] i; cbn [fst]; [|apply pass_quiet]. etransitivity; [apply pass_quiet|by apply note_quiet]. }
  destruct (tracker_kind h), (has_balancer h); first [exact (Hb true _) | apply Hb | apply pass_quiet].
Qed.

Lemma release_tracked_quiet id s : quiet s (releaseTrackedAccount id s).
Proof using. unfold releaseTrackedAccount. destruct (id =? 0); [reflexivity|by apply note_quiet]. Qed.

Lemma release_handle_quiet k s : quiet s (release_handle k s).
Proof using. destruct k; [by apply note_quiet|reflexivity]. Qed.

Lemma acquire_client_quiet p s : quiet s (acquireAccountClient p s).1.
Proof using.
  unfold acquireAccountClient. destruct (negb _); [apply pass_quiet|]. destruct (_ =? 0); [apply pass_quiet|].
  cbn [fst]. etransitivity; [apply pass_quiet|]. split; [done|].
  eexists [_]. split; [done|]. by repeat constructor.
Qed.

Lemma select_quiet excluded model s : quiet s (selectAccountRecordWithOptions excluded model s).1.
Proof using. unfold selectAccountRecordWithOptions. destruct (GetNextAccount _ _ _ _ _ _ _). by apply quiet_same. Qed.

Lemma selection_quiet excluded model s : quiet s (acquireAccountSelection excluded model s).1.
Proof using.
  unfold acquireAccountSelection. destruct (has_balancer h); [|reflexivity].
  pose proof (select_quiet excluded model (pass s)) as Hs.
  destruct (selectAccountRecordWithOptions _ _ _) as [s1 [p|e]]; cbn [fst] in Hs.
  - pose proof (acquire_client_quiet p s1) as Hc. destruct (acquireAccountClient p s1) as [s2 [k|]];
      cbn [fst] in *; (etransitivity; [apply pass_quiet|]; by etransitivity).
  - cbn [fst]. etransitivity; [apply pass_quiet|done].
Qed.

Lemma reserve_quiet fuel : forall retries full model s, quiet s (reserve fuel retries full model s).1.
Proof using.
  induction fuel as [|fuel IH]; intros retries full model s; cbn [reserve]; [by apply quiet_same|].
  pose proof (selection_quiet (failedAccountIDs s ++ full) model s) as Hs.
  destruct (acquireAccountSelection _ _ _) as [s1 [[[cl account] handle]|e]]; cbn [fst] in Hs.
  - pose proof (try_quiet account s1) as Ht.
    destruct (tryAcquireTrackedAccount account s1) as [s2 [id|]]; cbn [fst] in Ht |- *; [by etransitivity|].
    assert (Hr : quiet s (release_handle handle s2)).
    { etransitivity; [exact Hs|]. etransitivity; [exact Ht|apply release_handle_quiet]. }
    destruct account as [p|]; [|done]. destruct (_ =? 0); [done|]. case_bool_decide; [done|].
    etransitivity; [exact Hr|apply IH].
  - destruct (_ && _); [|done].
    assert (Hp : quiet s (pass s1)) by (etransitivity; [exact Hs|apply pass_quiet]).
    destruct (sleeps env _); [|done]. etransitivity; [exact Hp|apply IH].
Qed.

Lemma verdict_quiet v s : quiet s (record_verdict v s).
Proof using.
  unfold record_verdict. destruct (currentAccount s); [|reflexivity]. destruct (negb _); [reflexivity|].
  destruct (verdict_write _ _ _) as [[acc []]|]; by apply quiet_same.
Qed.

(** A part of the body that goes on, moved nothing. *)
Definition goes_quietly (k : Req -> Req * bool) : Prop := forall s s', k s = (s', true) -> quiet s s'.

Lemma not_retryable_quiet v err : goes_quietly (stop_not_retryable v err).
Proof using.
  intros s s'. unfold stop_not_retryable. destruct (v_Retryable v); [intros [= <-]; apply pass_quiet|].
  destruct (String.eqb _ _); [destruct (canceled env _)|]; congruence.
Qed.

Lemma switch_quiet v err : goes_quietly (switch_account v err).
Proof using.
  intros s s'. unfold switch_account. destruct (currentAccount s) as [prev|]; [|intros [= <-]; reflexivity].
  destruct (negb _); [intros [= <-]; reflexivity|]. cbv zeta.
  set (s1 := if bool_decide _ then _ else _).
  assert (Q1 : quiet s s1) by (unfold s1; case_bool_decide; [reflexivity|by apply quiet_same]).
  set (s2 := releaseTrackedAccount _ s1 <| trackedAccountID := 0 |>).
  assert (Q2 : quiet s s2).
  { etransitivity; [exact Q1|]. etransitivity; [apply release_tracked_quiet|by apply quiet_same]. }
  pose proof (reserve_quiet reserve_fuel 0 [] (mappedModel req) s2) as Q3.
  unfold acquireReservedAccountSelection.
  destruct (reserve _ _ _ _ _) as [s3 [[[[cl account] handle] tracked]|e]]; cbn [fst] in Q3.
  - intros [= <-]. etransitivity; [exact Q2|]. etransitivity; [exact Q3|].
    etransitivity; [|apply release_handle_quiet]. by apply quiet_same.
  - destruct (shouldRetryCurrentAccountWhenNoAlternative _); [|discriminate].
    pose proof (try_quiet (Some prev) s3) as Q4.
    destruct (tryAcquireTrackedAccount _ _) as [s4 [id|]]; cbn [fst] in Q4; [|discriminate]. intros [= <-].
    etransitivity; [exact Q2|]. etransitivity; [exact Q3|]. etransitivity; [exact Q4|by apply quiet_same].
Qed.

(** [still s s']: nothing was sent or waited out and no budget moved, whatever was
    answered or reserved. *)
Definition still (s s' : Req) : Prop :=
  attempt s' = attempt s /\ retriesRemaining s' = retriesRemaining s /\
  sharedRefusalWaited s' = sharedRefusalWaited s /\ exists l, log s' = log s ++ l /\ calm l.

#[local] Instance still_preorder : PreOrder still.
Proof using.
  split.
  - intros s. split_and!; [done..|]. exists []. by rewrite app_nil_r; split; [|constructor].
  - intros s1 s2 s3 (A1 & R1 & W1 & l1 & L1 & C1) (A2 & R2 & W2 & l2 & L2 & C2). split_and!; [congruence..|].
    exists (l1 ++ l2). rewrite L2, L1, <- app_assoc. split; [done|]. by apply Forall_app.
Qed.

Lemma quiet_still s s' : quiet s s' -> still s s'.
Proof using. intros [Hc Hl]. unfold counters in Hc. injection Hc as _ Ea Er Ew. by split_and!. Qed.

Lemma same_still s s' : attempt s' = attempt s -> retriesRemaining s' = retriesRemaining s ->
  sharedRefusalWaited s' = sharedRefusalWaited s -> log s' = log s -> still s s'.
Proof using. intros Ha Hr Hw Hl. split_and!; [done..|]. exists []. rewrite Hl, app_nil_r. by split; [|constructor]. Qed.

(** [rests s s']: nothing was sent and the retry budget did not move. *)
Definition rests (s s' : Req) : Prop :=
  attempt s' = attempt s /\ retriesRemaining s' = retriesRemaining s /\
  exists l, log s' = log s ++ l /\ Forall (fun e => is_sent e = false) l.

#[local] Instance rests_preorder : PreOrder rests.
Proof using.
  split.
  - intros s. split_and!; [done..|]. exists []. by rewrite app_nil_r; split; [|constructor].
  - intros s1 s2 s3 (A1 & R1 & l1 & L1 & C1) (A2 & R2 & l2 & L2 & C2). split_and!; [congruence..|].
    exists (l1 ++ l2). rewrite L2, L1, <- app_assoc. split; [done|]. by apply Forall_app.
Qed.

Lemma still_rests s s' : still s s' -> rests s s'.
Proof using.
  intros (A & R & _ & l & L & C). split_and!; [done..|]. exists l. split; [done|].
  eapply Forall_impl; [exact C|]. by intros e [].
Qed.

Lemma quiet_rests s s' : quiet s s' -> rests s s'.
Proof using. intros Q. by apply still_rests, quiet_still. Qed.

Lemma same_rests s s' : attempt s' = attempt s -> retriesRemaining s' = retriesRemaining s -> log s' = log s ->
  rests s s'.
Proof using. intros Ha Hr Hl. split_and!; [done..|]. exists []. rewrite Hl, app_nil_r. by split; [|constructor]. Qed.

Lemma note_rests e s : is_sent e = false -> rests s (note e s).
Proof using. intros. split_and!; [done..|]. exists [e]. by split; [|repeat constructor]. Qed.

Lemma begin_still s : still s (begin_round s).1.
Proof using.
  unfold begin_round. destruct (terminalState _ _ _ _) as [sh' [over ov]]. destruct over; by apply same_still.
Qed.

Lemma output_still err s : still s (stop_after_output err s).1.
Proof using.
  unfold stop_after_output. destruct (terminalState _ _ _ _) as [sh' [over ov]]. cbv zeta.
  destruct over; [by apply same_still|].
  destruct (hasAnyOutput _ _ _ _) as [sh'' output]. destruct output; by apply same_still.
Qed.

Lemma not_retryable_still v err s : still s (stop_not_retryable v err s).1.
Proof using.
  unfold stop_not_retryable. destruct (v_Retryable v); [by apply same_still|].
  destruct (String.eqb _ _); [destruct (canceled env _)|]; by apply same_still.
Qed.

Lemma switch_still v err s : still s (switch_account v err s).1.
Proof using.
  destruct (switch_account v err s) as [s' b] eqn:Hs. destruct b; [by eapply quiet_still, switch_quiet|].
  revert Hs. unfold switch_account. destruct (currentAccount s) as [prev|]; [|discriminate].
  destruct (negb _); [discriminate|]. cbv zeta.
  set (s1 := if bool_decide _ then _ else _).
  assert (Q1 : still s s1) by (unfold s1; case_bool_decide; [reflexivity|by apply same_still]).
  set (s2 := releaseTrackedAccount _ s1 <| trackedAccountID := 0 |>).
  assert (Q2 : still s s2).
  { etransitivity; [exact Q1|]. etransitivity; [apply quiet_still, release_tracked_quiet|by apply same_still]. }
  pose proof (reserve_quiet reserve_fuel 0 [] (mappedModel req) s2) as Q3.
  unfold acquireReservedAccountSelection.
  destruct (reserve _ _ _ _ _) as [s3 [[[[cl account] handle] tracked]|e]]; [discriminate|]; cbn [fst] in Q3.
  assert (Hn : forall err e s4, still s s4 -> still s (no_alternative err e s4).1).
  { intros err' e' s4 Q. etransitivity; [exact Q|by apply same_still]. }
  assert (Q4 : still s s3) by (etransitivity; [exact Q2|by apply quiet_still]).
  destruct (shouldRetryCurrentAccountWhenNoAlternative _); [|intros [= <-]; by apply (Hn err e s3)].
  pose proof (try_quiet (Some prev) s3) as Q5.
  destruct (tryAcquireTrackedAccount _ _) as [s4 [id|]]; [discriminate|]; cbn [fst] in Q5. intros [= <-].
  apply (Hn err e s4). etransitivity; [exact Q4|by apply quiet_still].
Qed.

Lemma give_up_rests shared delay s : rests s (give_slot_up shared delay s).1.
Proof using.
  unfold give_slot_up. destruct (_ && _); [|reflexivity]. cbn [fst].
  etransitivity; [apply quiet_rests, release_tracked_quiet|by apply same_rests].
Qed.

Lemma sleep_rests charged delay s : rests s (sleep_through charged delay s).1.
Proof using.
  unfold sleep_through. destruct (0 <? delay); [|reflexivity].
  assert (Q : rests s (note (Waited charged delay) (pass s))).
  { etransitivity; [apply (quiet_rests _ _ (pass_quiet s))|by apply note_rests]. }
  destruct (sleeps env _); [exact Q|]. etransitivity; [exact Q|by apply same_rests].
Qed.

Lemma charge_rests shared charged delay s : rests s (charge_budget shared charged delay s).
Proof using. unfold charge_budget. destruct shared; by apply same_rests. Qed.

Lemma take_back_rests released s : rests s (take_slot_back released s).1.
Proof using.
  unfold take_slot_back. destruct (negb released); [reflexivity|]. destruct (currentAccount s) as [p|]; [|reflexivity].
  pose proof (try_quiet (Some p) s) as Ht.
  destruct (tryAcquireTrackedAccount (Some p) s) as [s' [id|]]; cbn [fst] in *;
    (etransitivity; [apply quiet_rests, Ht|by apply same_rests]).
Qed.

Lemma then_rests s p k : rests s p.1 -> (forall s', rests s' (k s').1) -> rests s (andThen p k).1.
Proof using. intros Hp Hk. unfold andThen. destruct p as [s' []]; cbn [fst snd] in *; [by etransitivity|done]. Qed.

Lemma wait_rests err s : rests s (wait_out err s).1.
Proof using.
  unfold wait_out. destruct (over_budget err s); [by apply same_rests|]. cbv zeta.
  match goal with |- context [give_slot_up ?sh ?d ?s1] =>
    pose proof (give_up_rests sh d s1) as Q; destruct (give_slot_up sh d s1) as [s2 released]; cbn [fst] in Q end.
  apply then_rests.
  - etransitivity; [apply (quiet_rests _ _ (pass_quiet s))|]. etransitivity; [exact Q|apply sleep_rests].
  - intros s'. etransitivity; [apply charge_rests|apply take_back_rests].
Qed.

(** * The loop ends *)
Definition sends (l : list Event) : nat := length (List.filter is_sent l).

Lemma rests_sends s s' : rests s s' -> sends (log s') = sends (log s) /\ retriesRemaining s' = retriesRemaining s.
Proof using.
  intros (_ & Hr & l & -> & Hl). split; [|done]. unfold sends. rewrite List.filter_app, length_app.
  assert (Hn : List.filter is_sent l = []) by (induction Hl as [|e l He _ IH]; cbn; [|rewrite He]; done).
  rewrite Hn. cbn. lia.
Qed.

Definition failure_cost (s : Req) (p : Req * bool) : Prop :=
  sends (log p.1) = sends (log s) /\
  (p.2 = true -> retriesRemaining p.1 = retriesRemaining s - 1 /\ 0 < retriesRemaining s).

(** Before the retry is spent nothing else moves; after it neither. *)
Lemma cost_after s p k : rests s p.1 -> (forall s', retriesRemaining s' = retriesRemaining s ->
    sends (log s') = sends (log s) -> failure_cost s' (k s')) -> failure_cost s (andThen p k).
Proof using.
  intros Hp Hk. destruct (rests_sends _ _ Hp) as [Hs Hr]. unfold andThen.
  destruct p as [s' []]; cbn [fst snd] in *; [|by split].
  destruct (Hk s' Hr Hs) as [E1 E2]. unfold failure_cost. by rewrite E1, <- Hr.
Qed.

Lemma spent_after s s0 p k : 0 < retriesRemaining s0 -> retriesRemaining s = retriesRemaining s0 - 1 ->
  sends (log s) = sends (log s0) -> rests s p.1 ->
  (forall s', retriesRemaining s' = retriesRemaining s -> sends (log s') = sends (log s) -> failure_cost s0 (k s')) ->
  failure_cost s0 (andThen p k).
Proof using.
  intros Hlt Hr Hs Hp Hk. destruct (rests_sends _ _ Hp) as [Es Er]. unfold andThen.
  destruct p as [s' []]; cbn [fst snd] in *; [by apply Hk|]. split; [by rewrite <- Hs|done].
Qed.

Lemma failure_spec err s : failure_cost s (after_failure err s).
Proof using.
  unfold after_failure. apply cost_after; [apply still_rests, output_still|]. intros s1 R1 S1. cbv zeta.
  set (v := Classify _ _ _ _).
  pose proof (rests_sends _ _ (quiet_rests _ _ (verdict_quiet v s1))) as [S2 R2].
  set (s2 := record_verdict v s1) in *. clearbody s2.
  assert (Hgo : failure_cost s2 (andThen (stop_not_retryable v err s2) (fun s =>
    andThen (spend_retry err s) (fun s => andThen (switch_account v err s) (fun s =>
    andThen (wait_out err s) (fun s => (s <| attempt := attempt s + 1 |>, true))))))).
  { apply cost_after; [apply still_rests, not_retryable_still|]. intros s3 R3 S3. unfold spend_retry at 1.
    destruct (canceled env _); [by split|]. destruct (_ <=? 0) eqn:Hz; [by split|]. bool_to_prop.
    unfold andThen at 1. cbn [fst snd].
    apply (spent_after (pass s3 <| retriesRemaining := retriesRemaining (pass s3) - 1 |>) s3); [done..|apply still_rests, switch_still|].
    intros s4 R4 S4. apply (spent_after s4 s3); [done|exact R4|exact S4|apply wait_rests|].
    intros s5 R5 S5. split; cbn [fst snd]; [exact (eq_trans S5 S4)|]. intros _. split; [exact (eq_trans R5 R4)|done]. }
  destruct Hgo as [E1 E2]. split; [congruence|]. rewrite <- R2. exact E2.
Qed.

Lemma attempt_spec s : let p := one_attempt s in
  (sends (log p.1) <= sends (log s) + 1)%nat /\
  (p.2 = true -> retriesRemaining p.1 = retriesRemaining s - 1 /\ 0 < retriesRemaining s).
Proof using.
  cbv zeta. unfold one_attempt. destruct (rests_sends _ _ (still_rests _ _ (begin_still s))) as [S1 R1].
  unfold andThen at 1 2. destruct (begin_round s) as [s1 []]; cbn [fst snd] in *.
  2: { unfold andThen. cbn. split; [lia|done]. }
  unfold andThen at 1. cbn [fst snd].
  assert (Hsent : sends (log (send s1).1) = (sends (log s1) + 1)%nat /\ retriesRemaining (send s1).1 = retriesRemaining s1).
  { unfold send. cbv zeta. destruct (upstream env _) as [msgs err]. split; [|done]. cbn [fst on_sh].
    change (log (on_sh ?f ?x)) with (log x). unfold sends. cbn. rewrite List.filter_app, length_app. done. }
  destruct (send s1) as [s2 [err|]]; cbn [fst] in Hsent; destruct Hsent as [S2 R2].
  - destruct (panicked _); [cbn; split; [lia|done]|]. destruct (failure_spec err s2) as [E1 E2].
    split; [lia|]. intros Hb. destruct (E2 Hb). split; lia.
  - destruct (panicked _); cbn [fst snd]; (split; [try change (log (on_sh ?f ?x)) with (log x); lia|done]).
Qed.

Lemma attempts_end fuel s : retriesRemaining s < Z.of_nat fuel -> 0 <= retriesRemaining s ->
  (attempts fuel s).2 = false /\ (sends (log (attempts fuel s).1) <= sends (log s) + fuel)%nat.
Proof using.
  revert s. induction fuel as [|fuel IH]; intros s Hf Hr; cbn [attempts]; [lia|].
  destruct (attempt_spec s) as [E1 E2]. unfold andThen.
  destruct (one_attempt s) as [s' []]; cbn [fst snd] in *; [|split; [done|lia]].
  destruct (E2 eq_refl). destruct (IH s'); [lia..|]. split; [done|lia].
Qed.

(** * Slots and clients

    What a request holds, read off its log: a slot is taken only while none is
    held, at most two clients are held at a time, and a request is sent only under
    the slot of the account it is sent with and with its client in use. *)
Record Held := mkHeld { held_slot : Z; held_clients : list nat; next_handle : nat }.

Definition held_step (hd : Held) (e : Event) : option Held :=
  match e with
  | SlotTaken id =>
      if (held_slot hd =? 0) && negb (id =? 0) then Some (mkHeld id (held_clients hd) (next_handle hd)) else None
  | SlotGiven id =>
      if (held_slot hd =? id) && negb (id =? 0) then Some (mkHeld 0 (held_clients hd) (next_handle hd)) else None
  | ClientTaken k =>
      if (k =? next_handle hd)%nat && (length (held_clients hd) <=? 1)%nat
      then Some (mkHeld (held_slot hd) (k :: held_clients hd) (Datatypes.S (next_handle hd))) else None
  | ClientGiven k =>
      if bool_decide (k ∈ held_clients hd)
      then Some (mkHeld (held_slot hd) (List.filter (fun c => negb (c =? k)%nat) (held_clients hd)) (next_handle hd)) else None
  | Sent account handle slot =>
      if (held_slot hd =? slot) && (slot =? account)
         && match handle with Some k => bool_decide (k ∈ held_clients hd) | None => true end
      then Some hd else None
  | Waited _ _ => Some hd
  end.

Definition held_run (l : list Event) : option Held :=
  foldl (fun o e => o ≫= fun hd => held_step hd e) (Some (mkHeld 0 [] 0)) l.

Lemma held_snoc l e : held_run (l ++ [e]) = held_run l ≫= fun hd => held_step hd e.
Proof using. unfold held_run. by rewrite foldl_app. Qed.

Definition handle_list (k : option nat) : list nat := match k with Some k => [k] | None => [] end.

(** The request holds [slot] and the clients [cs], all handed out so far. *)
Definition holds (slot : Z) (cs : list nat) (s : Req) : Prop :=
  held_run (log s) = Some (mkHeld slot cs (handles s)) /\ Forall (fun k => k < handles s)%nat cs.

Definition hands (s : Req) : Z * option nat * option loc * list Z :=
  (trackedAccountID s, releaseClient s, currentAccount s, failedAccountIDs s).

(** Pointers already in hand go on naming the same account. *)
Definition keeps (s s' : Req) : Prop :=
  well_placed (lb (world s)) -> well_placed (lb (world s')) /\ ids_stay (lb (world s)) (lb (world s')).
#[local] Instance keeps_preorder : PreOrder keeps.
Proof using.
  split; [by intros s ?|]. intros s1 s2 s3 K1 K2 W. destruct (K1 W) as [W2 I2]. destruct (K2 W2) as [W3 I3].
  split; [done|by etransitivity].
Qed.

Lemma keeps_same s s' : world s' = world s -> keeps s s'.
Proof using. intros E W. by rewrite E. Qed.

Definition inside (p : loc) (s : Req) : Prop := (p < next_loc (lb (world s)))%nat.

Lemma keeps_id s s' p : keeps s s' -> well_placed (lb (world s)) -> inside p s ->
  inside p s' /\ ID (account_at s' p) = ID (account_at s p).
Proof using. intros K W Hp. destruct (K W) as [_ [N I]]. unfold inside in *. split; [lia|by apply I]. Qed.

Section Holding.
Context `{!AccountStoreLaws S}.
Hypothesis others_keep : forall n w, well_placed (lb w) ->
  well_placed (lb (others env n w)) /\ ids_stay (lb w) (lb (others env n w)).

Lemma pass_keeps s : keeps s (pass s).
Proof using others_keep. intros W. apply (others_keep (ev s) (world s) W). Qed.

Lemma release_holds slot cs s : holds slot cs s -> holds 0 cs (releaseTrackedAccount slot s).
Proof using.
  intros [Hr Hf]. unfold releaseTrackedAccount. destruct (slot =? 0) eqn:Hz; [bool_to_prop; by subst|].
  split; [|done]. cbn [log handles note]. change (log (note ?e s)) with (log s ++ [e]).
  rewrite held_snoc, Hr. cbn. by rewrite Z.eqb_refl, Hz.
Qed.

Lemma give_back_holds slot k cs s : k ∉ cs -> holds slot (k :: cs) s -> holds slot cs (note (ClientGiven k) s).
Proof using.
  intros Hk [Hr Hf]. split; [|by inversion Hf]. change (log (note ?e s)) with (log s ++ [e]).
  rewrite held_snoc, Hr. cbn. rewrite bool_decide_eq_true_2 by (by left). f_equal. f_equal.
  rewrite Nat.eqb_refl. cbn [negb]. clear -Hk. induction cs as [|c cs IH]; [done|]. cbn.
  destruct (Nat.eqb_spec c k) as [ -> |]; [set_solver|]. cbn [negb]. rewrite IH; [done|set_solver].
Qed.

Lemma pass_holds slot cs s : holds slot cs s -> holds slot cs (pass s).
Proof using. done. Qed.

Lemma take_holds id cs s : id <> 0 -> holds 0 cs s -> holds id cs (note (SlotTaken id) s).
Proof using.
  intros Hid [Hr Hf]. split; [|done]. change (log (note ?e s)) with (log s ++ [e]). rewrite held_snoc, Hr.
  cbn. by apply Z.eqb_neq in Hid as ->.
Qed.

Definition id_of (acc : option loc) (s : Req) : Z := match acc with Some p => ID (account_at s p) | None => 0 end.

Lemma try_spec acc cs s : (acc <> None -> has_balancer h = true) -> holds 0 cs s ->
  let '(s', o) := tryAcquireTrackedAccount acc s in
  keeps s s' /\ hands s' = hands s /\
  match o with Some id => holds id cs s' /\ id = id_of acc s' | None => holds 0 cs s' end.
Proof using others_keep.
  intros Hb Hh. unfold tryAcquireTrackedAccount. pose proof (pass_keeps s) as Hk. pose proof (pass_holds _ _ _ Hh) as Hp.
  destruct acc as [p|]; [|by split_and!]. rewrite (Hb ltac:(done)). cbv zeta.
  destruct (_ =? 0) eqn:Hz; bool_to_prop; [by split_and!|].
  assert (Hboth : forall b : bool,
    let '(s', o) := if b then (note (SlotTaken (ID (account_at (pass s) p))) (pass s), Some (ID (account_at (pass s) p)))
                    else (pass s, None) in
    keeps s s' /\ hands s' = hands s /\
    match o with Some id => holds id cs s' /\ id = id_of (Some p) s' | None => holds 0 cs s' end).
  { intros []; (split; [exact Hk|split; [done|]]); [|exact Hp]. split; [by apply take_holds|done]. }
  destruct (tracker_kind h); first [exact (Hboth true) | apply Hboth].
Qed.

Lemma client_spec p cs s : holds 0 cs s -> (length cs <= 1)%nat ->
  let '(s', o) := acquireAccountClient p s in
  keeps s s' /\ hands s' = hands s /\
  match o with
  | Some handle => holds 0 (handle_list handle ++ cs) s' /\ forall k, handle = Some k -> k ∉ cs
  | None => holds 0 cs s'
  end.
Proof using others_keep.
  intros Hh Hlen. unfold acquireAccountClient. pose proof (pass_keeps s) as Hk. pose proof (pass_holds _ _ _ Hh) as Hp.
  cbv zeta. destruct (negb _); [by split_and!|]. destruct (_ =? 0); [by split_and!|].
  split; [exact Hk|split; [done|]]. destruct Hp as [Hr Hf]. split.
  - split.
    + change (log (note ?e ?x <| handles := ?k |>)) with (log x ++ [e]). rewrite held_snoc, Hr. cbn.
      by rewrite Nat.eqb_refl, (proj2 (Nat.leb_le _ _) Hlen).
    + change (Forall (fun k => k < Datatypes.S (handles (pass s)))%nat (handles (pass s) :: cs)).
      constructor; [apply Nat.lt_succ_diag_r|].
      eapply Forall_impl; [exact Hf|]. intros k Hlt. exact (Nat.lt_lt_succ_r _ _ Hlt).
  - intros k [= <-] Hin. apply (proj1 (Forall_forall _ _) Hf) in Hin. exact (Nat.lt_irrefl _ Hin).
Qed.

Lemma selection_spec excluded model cs s : holds 0 cs s -> (length cs <= 1)%nat -> well_placed (lb (world s)) ->
  let '(s', o) := acquireAccountSelection excluded model s in
  keeps s s' /\ hands s' = hands s /\
  match o with
  | Ok (cl, acc, handle) => holds 0 (handle_list handle ++ cs) s' /\ (forall k, handle = Some k -> k ∉ cs) /\
      (acc <> None -> has_balancer h = true) /\
      forall p, acc = Some p -> inside p s' /\ ID (account_at s' p) ∉ excluded
  | Err _ => holds 0 cs s'
  end.
Proof using All.
  intros Hh Hlen Hw. unfold acquireAccountSelection. cbv zeta.
  assert (Hfall : forall e s', holds 0 cs s' ->
    match (if default_client h then Ok (DefaultClient, None, None) else Err e) : result selection string with
    | Ok (cl, acc, handle) => holds 0 (handle_list handle ++ cs) s' /\ (forall k, handle = Some k -> k ∉ cs) /\
      (acc <> None -> has_balancer h = true) /\
      forall p, acc = Some p -> inside p s' /\ ID (account_at s' p) ∉ excluded
    | Err _ => holds 0 cs s' end).
  { intros e s' Hs'. destruct (default_client h); [by split_and!|done]. }
  destruct (has_balancer h) eqn:Hbal; [|split; [reflexivity|split; [done|by apply Hfall]]].
  pose proof (pass_keeps s) as Hk. destruct (Hk Hw) as [Hw1 _].
  assert (Hsel : let '(s1, o) := selectAccountRecordWithOptions excluded model (pass s) in
    keeps (pass s) s1 /\ hands s1 = hands s /\ holds 0 cs s1 /\
    forall p, o = Ok p -> inside p s1 /\ ID (account_at s1 p) ∉ excluded).
  { unfold selectAccountRecordWithOptions. cbv zeta. destruct (GetNextAccount _ _ _ _ _ _ _) as [res w] eqn:Hg.
    destruct (selection_keeps [] _ _ _ _ _ _ _ _ _ Hg) as (_ & Hex & Hsk). destruct (Hsk Hw1) as (Hi & Hw2 & Hin).
    split; [intros _; by split|]. split_and!; [done..|]. intros p Hp. split; [by apply Hin|by apply Hex]. }
  destruct (selectAccountRecordWithOptions _ _ _) as [s1 [p|e]]; destruct Hsel as (K1 & E1 & Q1 & Hin).
  - pose proof (client_spec p cs s1 Q1 Hlen) as Hc. destruct (acquireAccountClient p s1) as [s2 [handle|]];
      destruct Hc as (K2 & E2 & Q2).
    + split; [etransitivity; [exact Hk|by etransitivity]|]. split; [congruence|]. destruct Q2 as [Q2 Hf].
      split_and!; [done..|]. intros q [= <-]. destruct (K1 Hw1) as [Hw2 _].
      destruct (keeps_id s1 s2 p K2 Hw2) as [? ->]; [by apply Hin|]. split; [done|by apply Hin].
    + split; [etransitivity; [exact Hk|by etransitivity]|]. by split; [congruence|].
  - split; [by etransitivity|]. split; [done|]. destruct (forcedChannel req); [done|by apply Hfall].
Qed.

(** The reservation: the slot of what is selected, or nothing. *)
Lemma reservation_spec fuel : forall retries full model cs s,
  holds 0 cs s -> (length cs <= 1)%nat -> well_placed (lb (world s)) ->
  let '(s', o) := reserve fuel retries full model s in
  keeps s s' /\ hands s' = hands s /\
  match o with
  | Ok (cl, acc, handle, id) => holds id (handle_list handle ++ cs) s' /\ (forall k, handle = Some k -> k ∉ cs) /\
      id = id_of acc s' /\ (acc <> None -> has_balancer h = true) /\
      forall p, acc = Some p -> inside p s' /\ ID (account_at s' p) ∉ failedAccountIDs s
  | Err _ => holds 0 cs s'
  end.
Proof using All.
  induction fuel as [|fuel IH]; intros retries full model cs s Hh Hlen Hw; cbn [reserve].
  { split; [by apply keeps_same|done]. }
  pose proof (selection_spec (failedAccountIDs s ++ full) model cs s Hh Hlen Hw) as Hs.
  destruct (acquireAccountSelection _ _ _) as [s1 [[[cl acc] handle]|e]]; destruct Hs as (K1 & E1 & Q1);
    destruct (K1 Hw) as [Hw1 _].
  - destruct Q1 as (Q1 & Hfresh & Hbal & Hin).
    pose proof (try_spec acc (handle_list handle ++ cs) s1 Hbal Q1) as Ht.
    destruct (tryAcquireTrackedAccount acc s1) as [s2 [id|]]; destruct Ht as (K2 & E2 & Q2).
    + split; [by etransitivity|]. split; [congruence|]. destruct Q2 as [Q2 Hid].
      split_and!; [done..|]. intros p Hp. destruct (Hin p Hp) as [Hin1 Hex].
      destruct (keeps_id s1 s2 p K2 Hw1 Hin1) as [? ->]. split; [done|]. rewrite elem_of_app in Hex. tauto.
    + assert (Q3 : holds 0 cs (release_handle handle s2)).
      { destruct handle as [k|]; [|done]. apply give_back_holds; [by apply Hfresh|done]. }
      assert (K3 : keeps s (release_handle handle s2)).
      { etransitivity; [exact K1|]. etransitivity; [exact K2|]. apply keeps_same. by destruct handle. }
      assert (E3 : hands (release_handle handle s2) = hands s) by (rewrite <- E1, <- E2; by destruct handle).
      set (s3 := release_handle handle s2) in *. clearbody s3. destruct (K3 Hw) as [Hw3 _].
      destruct acc as [p|]; [|by split_and!]. destruct (_ =? 0); [by split_and!|].
      case_bool_decide; [by split_and!|].
      match goal with |- context [reserve fuel ?a ?b ?c ?d] =>
        pose proof (IH a b c cs d Q3 Hlen Hw3) as Hi; destruct (reserve fuel a b c d) as [s4 o] end.
      destruct Hi as (K4 & E4 & Q4). split; [by etransitivity|]. split; [congruence|].
      unfold hands in E3. injection E3 as _ _ _ F3. by rewrite <- F3.
  - destruct (_ && _); [|destruct full; by split_and!].
    assert (K2 : keeps s (pass s1)) by (etransitivity; [exact K1|apply pass_keeps]). destruct (K2 Hw) as [Hw2 _].
    cbv zeta. destruct (sleeps env _); [|by split_and!].
    match goal with |- context [reserve fuel ?a ?b ?c ?d] =>
      pose proof (IH a b c cs d (pass_holds _ _ _ Q1) Hlen Hw2) as Hi; destruct (reserve fuel a b c d) as [s4 o] end.
    destruct Hi as (K4 & E4 & Q4). split; [by etransitivity|]. split; [rewrite E4; exact E1|].
    unfold hands in E1. injection E1 as _ _ _ F3. change (failedAccountIDs (pass s1)) with (failedAccountIDs s1) in Q4.
    by rewrite <- F3.
Qed.

(** Between two parts of the loop: the slot held is that of the current account.
    Where the loop stops, what is held is what the deferred releases give back. *)
Definition parked (s : Req) : Prop :=
  well_placed (lb (world s)) /\ forall p, currentAccount s = Some p -> inside p s /\ has_balancer h = true.
Definition ending (s : Req) : Prop := holds (trackedAccountID s) (handle_list (releaseClient s)) s.
Definition settled (s : Req) : Prop :=
  parked s /\ trackedAccountID s = id_of (currentAccount s) s /\ ending s.
Definition outcome (p : Req * bool) : Prop := if p.2 then settled p.1 else ending p.1.

(** What these depend on. *)
Definition body (s : Req) : World S * list Event * nat * option loc * Z * option nat :=
  (world s, log s, handles s, currentAccount s, trackedAccountID s, releaseClient s).

Lemma body_settled s s' : body s' = body s -> settled s -> settled s'.
Proof using.
  unfold body. intros [= E1 E2 E3 E4 E5 E6]. unfold settled, parked, ending, holds, inside, id_of, account_at.
  by rewrite E1, E2, E3, E4, E5, E6.
Qed.

Lemma body_ending s s' : body s' = body s -> ending s -> ending s'.
Proof using. unfold body. intros [= E1 E2 E3 E4 E5 E6]. unfold ending, holds. by rewrite E2, E3, E5, E6. Qed.

Lemma settled_ending s : settled s -> ending s.
Proof using. by intros (_ & _ & ?). Qed.

Lemma keeps_parked s s' : keeps s s' -> currentAccount s' = currentAccount s -> parked s -> parked s'.
Proof using.
  intros K E [W P]. split; [by apply K|]. intros p Hp. rewrite E in Hp. destruct (P p Hp) as [Hin Hb].
  split; [by apply (keeps_id s s' p K W)|done].
Qed.

Lemma keeps_settled s s' : keeps s s' -> log s' = log s -> handles s' = handles s -> hands s' = hands s ->
  settled s -> settled s'.
Proof using.
  unfold hands. intros K El Eh [= E1 E2 E3 E4] (P & T & F). split; [by apply (keeps_parked s)|].
  unfold ending, holds. rewrite El, Eh, E1, E2, E3. split; [|done]. rewrite T.
  destruct (currentAccount s) as [p|] eqn:Hp; [|done]. cbn. symmetry. apply (keeps_id s s' p K); [apply P|by apply P].
Qed.

Lemma pass_settled s : settled s -> settled (pass s).
Proof using others_keep. by apply keeps_settled; [apply pass_keeps|..]. Qed.

Lemma then_outcome p k : outcome p -> (forall s, settled s -> outcome (k s)) -> outcome (andThen p k).
Proof using. unfold andThen. destruct p as [s []]; cbn; auto. Qed.

(** *** The verdict *)
Lemma cooldown_id now acc model until reason : ID (RecordModelCooldownWithReason now acc model until reason) = ID acc.
Proof using. unfold RecordModelCooldownWithReason. by repeat case_match. Qed.

Lemma apply_id now v (acc : Account) : ID (Apply now v acc) = ID acc.
Proof using. unfold Apply. cbv zeta. by repeat case_match. Qed.

Lemma verdict_id now v (acc acc' : Account) b : verdict_write now v acc = Some (acc', b) -> ID acc' = ID acc.
Proof using.
  unfold verdict_write. cbv zeta. destruct (_ && _ && _); [intros [= <- _]; apply cooldown_id|].
  destruct (String.eqb _ _); [done|]. intros [= <- _]. destruct (_ && _); [rewrite cooldown_id|]; apply apply_id.
Qed.

Lemma replace_scans U p (acc : Account) (w : World S) : ID acc = ID (deref (lb w) p) ->
  scans U w (set_lb w (update_loc p (fun _ => acc) (lb w))).
Proof using.
  intros Hid. assert (Hs : same_pool (lb w) (update_loc p (fun _ => acc) (lb w))).
  { split_and!; [done..|]. intros q. rewrite deref_update. case_decide; [by subst|done]. }
  split; [exact Hs|]. intros Hk. apply (known_same_pool U w); [exact Hs|apply Hk|done].
Qed.

Lemma applied_scans U now p (w : World S) : scans U w (PersistAppliedAccountStatus now p w).
Proof using AccountStoreLaws0.
  unfold PersistAppliedAccountStatus. destruct (cachedAccountLocked _ _) as [c|].
  - match goal with |- scans U w (persistAccountStatus _ (deref (update_loc c ?f ?l) p) _) =>
      transitivity (set_lb w (update_loc c f l)); [by apply update_scans|] end.
    apply (persist_scans U now p (set_lb w _)).
  - apply (persist_scans U now p (set_lb w (lb w))).
Qed.

Lemma verdict_scans U v s : scans U (world s) (world (record_verdict v s)).
Proof using AccountStoreLaws0.
  unfold record_verdict. destruct (currentAccount s) as [p|]; [|reflexivity]. destruct (negb _); [reflexivity|].
  destruct (verdict_write _ _ _) as [[acc applied]|] eqn:Hv; [|reflexivity]. apply verdict_id in Hv.
  etransitivity; [by apply (replace_scans U p acc (world s))|].
  change (world (update_account p (fun _ => acc) s)) with (set_lb (world s) (update_loc p (fun _ => acc) (lb (world s)))).
  destruct applied; [apply applied_scans|apply persist_scans].
Qed.

Lemma verdict_settled v s : settled s -> settled (record_verdict v s).
Proof using All.
  intros Hs. destruct (verdict_scans [] v s) as [Hp _].
  assert (K : keeps s (record_verdict v s)) by (intros W; split; [by eapply same_pool_placed|by apply same_pool_stay]).
  revert Hs. apply keeps_settled; [exact K|..]; unfold record_verdict; repeat case_match; done.
Qed.

(** *** The parts *)
Lemma settled_outcome s b : settled s -> outcome (s, b).
Proof using. intros Hs. destruct b; [done|by apply settled_ending]. Qed.

Lemma begin_settled s : settled s -> outcome (begin_round s).
Proof using.
  intros Hs. unfold begin_round. destruct (terminalState _ _ _ _) as [sh' [over ov]].
  destruct over; apply settled_outcome; by apply (body_settled s).
Qed.

Lemma send_settled s : settled s -> settled (send s).1.
Proof using others_keep.
  intros Hs. pose proof (pass_settled s Hs) as (P & T & F). unfold send. cbv zeta.
  destruct (upstream env _) as [msgs err]. cbn [fst].
  match goal with |- settled (on_sh _ (note ?e _)) => set (sent := e) end.
  apply (body_settled (note sent (pass s))); [done|]. split; [exact P|]. split; [exact T|].
  destruct F as [Hr Hf]. split; [|exact Hf]. change (log (note sent ?x)) with (log x ++ [sent]).
  rewrite held_snoc, Hr. cbn. destruct Hs as (_ & T0 & _).
  rewrite Z.eqb_refl. unfold current. rewrite T0. unfold id_of at 1.
  destruct (currentAccount s) as [p|]; cbn; rewrite ?Z.eqb_refl; cbn;
    (destruct (releaseClient s) as [k|]; cbn; [rewrite bool_decide_eq_true_2 by (by left)|]; done).
Qed.

Lemma output_settled err s : settled s -> outcome (stop_after_output err s).
Proof using.
  intros Hs. unfold stop_after_output. destruct (terminalState _ _ _ _) as [sh' [over ov]]. cbv zeta.
  destruct over; [apply settled_outcome; by apply (body_settled s)|].
  destruct (hasAnyOutput _ _ _ _) as [sh'' output]. destruct output; apply settled_outcome; by apply (body_settled s).
Qed.

Lemma not_retryable_settled v err s : settled s -> outcome (stop_not_retryable v err s).
Proof using others_keep.
  intros Hs%pass_settled. unfold stop_not_retryable. cbv zeta. destruct (v_Retryable v); [by apply settled_outcome|].
  destruct (String.eqb _ _); [destruct (canceled env _)|]; apply settled_outcome; by apply (body_settled (pass s)).
Qed.

Lemma spend_settled err s : settled s -> outcome (spend_retry err s).
Proof using others_keep.
  intros Hs%pass_settled. unfold spend_retry. cbv zeta.
  destruct (canceled env _); [|destruct (_ <=? 0)]; apply settled_outcome; by apply (body_settled (pass s)).
Qed.

(** While no slot is held. *)
Definition unslotted (s : Req) : Prop :=
  parked s /\ trackedAccountID s = 0 /\ holds 0 (handle_list (releaseClient s)) s.

Lemma release_unslotted s : settled s ->
  unslotted (releaseTrackedAccount (trackedAccountID s) s <| trackedAccountID := 0 |>).
Proof using.
  intros (P & T & F). assert (Hrel : forall id, body (releaseTrackedAccount id s) =
    (world s, log (releaseTrackedAccount id s), handles s, currentAccount s, trackedAccountID s, releaseClient s)).
  { intros id. unfold releaseTrackedAccount. by destruct (id =? 0). }
  specialize (Hrel (trackedAccountID s)). pose proof (release_holds _ _ _ F) as Q.
  set (s1 := releaseTrackedAccount (trackedAccountID s) s) in *. clearbody s1.
  unfold body in Hrel. injection Hrel as E1 E3 E4 E5 E6. split; [|split; [done|]].
  - change (parked (s1 <| trackedAccountID := 0 |>)) with (parked s1). unfold parked, inside. by rewrite E1, E4.
  - change (holds 0 (handle_list (releaseClient s1)) s1). by rewrite E6.
Qed.

Lemma give_last_holds slot k l s : k ∉ l -> holds slot (l ++ [k]) s -> holds slot l (note (ClientGiven k) s).
Proof using.
  intros Hk [Hr Hf]. apply Forall_app in Hf as [Hf _]. split; [|exact Hf]. change (log (note ?e s)) with (log s ++ [e]).
  rewrite held_snoc, Hr. cbn. rewrite bool_decide_eq_true_2 by (apply elem_of_app; right; by left). f_equal. f_equal.
  rewrite List.filter_app. cbn. rewrite Nat.eqb_refl. cbn. rewrite app_nil_r.
  clear -Hk. induction l as [|c l IH]; [done|]. cbn.
  destruct (Nat.eqb_spec c k) as [ -> |]; [set_solver|]. cbn [negb]. rewrite IH; [done|set_solver].
Qed.

Lemma handle_short k : (length (handle_list k) <= 1)%nat.
Proof using. destruct k; cbn; lia. Qed.

Lemma retake_outcome p s (k : Req -> Req) : currentAccount s = Some p -> unslotted s ->
  (forall s, body (k s) = body s) ->
  outcome (match tryAcquireTrackedAccount (Some p) s with
           | (s, Some id) => (s <| trackedAccountID := id |>, true)
           | (s, None) => (k s, false) end).
Proof using others_keep.
  intros Hp (P & T & Q) Hk. destruct P as [W P]. destruct (P p Hp) as [Hin Hb].
  pose proof (try_spec (Some p) _ s (fun _ => Hb) Q) as Ht.
  destruct (tryAcquireTrackedAccount (Some p) s) as [s' [id|]]; destruct Ht as (K & E & R);
    unfold hands in E; injection E as E1 E2 E3 E4.
  - destruct R as [R Hid]. cbn [outcome fst snd]. split; [|split].
    + change (parked s'). by apply (keeps_parked s).
    + change (id = id_of (currentAccount s') s'). by rewrite E3, Hp.
    + change (holds id (handle_list (releaseClient s')) s'). by rewrite E2.
  - apply (body_ending s'); [apply Hk|]. unfold ending. by rewrite E1, E2, T.
Qed.

Lemma switch_settled v err s : settled s -> outcome (switch_account v err s).
Proof using All.
  intros Hs. unfold switch_account. destruct (currentAccount s) as [prev|] eqn:Hprev; [|by apply settled_outcome].
  destruct (negb _); [by apply settled_outcome|]. cbv zeta.
  set (s1 := if bool_decide _ then _ else _).
  assert (B1 : body s1 = body s) by (unfold s1; by case_bool_decide).
  pose proof (release_unslotted s1 (body_settled _ _ B1 Hs)) as U2.
  set (s2 := releaseTrackedAccount _ s1 <| trackedAccountID := 0 |>) in *.
  assert (C2 : currentAccount s2 = Some prev).
  { rewrite <- Hprev. transitivity (currentAccount s1); [|by injection B1].
    unfold s2, releaseTrackedAccount. by destruct (_ =? 0). }
  clearbody s2. destruct U2 as (P2 & T2 & Q2).
  pose proof (reservation_spec reserve_fuel 0 [] (mappedModel req) _ s2 Q2 (handle_short _) (proj1 P2)) as Hr.
  unfold acquireReservedAccountSelection.
  destruct (reserve _ _ _ _ _) as [s3 [[[[cl account] handle] tracked]|e]]; destruct Hr as (K3 & E3 & Q3);
    unfold hands in E3; injection E3 as F1 F2 F3 F4; destruct (K3 (proj1 P2)) as [W3 _].
  - destruct Q3 as (Q3 & Hfresh & Hid & Hbal & Hin). cbn [outcome fst snd].
    set (s4 := s3 <| apiClient := cl |> <| currentAccount := account |> <| releaseClient := handle |>
                  <| trackedAccountID := tracked |>).
    assert (Q4 : holds tracked (handle_list handle) (release_handle (releaseClient s3) s4)).
    { rewrite <- F2 in Q3, Hfresh. destruct (releaseClient s3) as [k|]; cbn [handle_list release_handle] in *.
      - apply give_last_holds; [|exact Q3]. destruct handle as [k'|]; cbn [handle_list]; [|set_solver].
        specialize (Hfresh k' eq_refl). set_solver.
      - by rewrite app_nil_r in Q3. }
    assert (B4 : forall k, let x := release_handle k s4 in world x = world s3 /\ currentAccount x = account /\
      trackedAccountID x = tracked /\ releaseClient x = handle) by (by intros []).
    specialize (B4 (releaseClient s3)). set (s5 := release_handle (releaseClient s3) s4) in *. clearbody s5.
    cbv zeta in B4. destruct B4 as (A1 & A2 & A3 & A4). split; [|split].
    + split; [by rewrite A1|]. intros p Hp. rewrite A2 in Hp. unfold inside. rewrite A1.
      split; [by apply Hin|]. apply Hbal. by rewrite Hp.
    + rewrite A2, A3, Hid. unfold id_of, account_at. by rewrite A1.
    + unfold ending. by rewrite A3, A4.
  - assert (U3 : unslotted s3).
    { split; [by apply (keeps_parked s2)|]. split; [by rewrite F1|by rewrite F2]. }
    assert (Hstop : forall s', unslotted s' -> outcome (no_alternative err e s')).
    { intros s' (_ & T & Q). apply (body_ending s'); [done|]. unfold ending. by rewrite T. }
    destruct (shouldRetryCurrentAccountWhenNoAlternative _); [|by apply Hstop].
    apply (retake_outcome prev s3 (fun s => (no_alternative err e s).1)); [by rewrite F3|exact U3|done].
Qed.

(** *** The wait *)
Definition midway (released : bool) (s : Req) : Prop := if released then unslotted s else settled s.

Lemma midway_pass b s : midway b s -> midway b (pass s).
Proof using others_keep.
  destruct b; [|apply pass_settled]. intros (P & T & Q).
  split; [|by split]. by apply (keeps_parked s); [apply pass_keeps|..].
Qed.

Lemma midway_same b s s' : body s' = body s -> midway b s -> midway b s'.
Proof using.
  destruct b; [|apply body_settled]. unfold body. intros [= E1 E2 E3 E4 E5 E6].
  unfold midway, unslotted, parked, inside, holds. by rewrite E1, E2, E3, E4, E5, E6.
Qed.

Lemma midway_ending b s : midway b s -> ending s.
Proof using. destruct b; [|apply settled_ending]. intros (_ & T & Q). unfold ending. by rewrite T. Qed.

Lemma midway_waited b charged delay s : midway b s -> midway b (note (Waited charged delay) s).
Proof using.
  assert (Hh : forall slot cs, holds slot cs s -> holds slot cs (note (Waited charged delay) s)).
  { intros slot cs [Hr Hf]. split; [|exact Hf]. change (log (note ?e s)) with (log s ++ [e]). by rewrite held_snoc, Hr. }
  destruct b; intros (P & T & Q); (split; [exact P|split; [exact T|by apply Hh]]).
Qed.

Lemma wait_settled err s : settled s -> outcome (wait_out err s).
Proof using All.
  intros Hs. unfold wait_out. destruct (over_budget err s); [apply settled_outcome; by apply (body_settled s)|].
  cbv zeta. pose proof (pass_settled s Hs) as Hp.
  match goal with |- context [give_slot_up ?sh ?d ?s1] =>
    assert (Hg : midway (give_slot_up sh d s1).2 (give_slot_up sh d s1).1) end.
  { unfold give_slot_up. destruct (_ && _); cbn [fst snd midway]; [by apply release_unslotted|done]. }
  destruct (give_slot_up _ _ _) as [s2 released]; cbn [fst snd] in Hg.
  match goal with |- context [sleep_through ?c ?d s2] => set (charged := c) in *; set (delay := d) in * end.
  assert (Hsl : let p := sleep_through charged delay s2 in if p.2 then midway released p.1 else ending p.1).
  { unfold sleep_through. destruct (0 <? delay); cbn; [|done].
    assert (Hw : midway released (note (Waited charged delay) (pass s2))) by (by apply midway_waited, midway_pass).
    destruct (sleeps env _); cbn [fst snd]; [done|]. apply (body_ending (note (Waited charged delay) (pass s2))); [done|].
    by eapply midway_ending. }
  cbv zeta in Hsl. unfold andThen. destruct (sleep_through charged delay s2) as [s3 []]; cbn [fst snd] in *; [|exact Hsl].
  match goal with |- context [charge_budget ?sh charged delay s3] =>
    assert (Hc : midway released (charge_budget sh charged delay s3))
      by (apply (midway_same released s3); [unfold charge_budget; by destruct sh|done]);
    set (s4 := charge_budget sh charged delay s3) in * end.
  clearbody s4. unfold take_slot_back. destruct released; cbn [negb]; [|exact Hc].
  destruct (currentAccount s4) as [p|] eqn:Hcur.
  - by apply (retake_outcome p s4 (report "rate_limit" PoolBusyMessage 0)).
  - destruct Hc as (P & T & Q). cbn. split; [exact P|]. split; [by rewrite Hcur, T|]. unfold ending. by rewrite T.
Qed.

Lemma failure_settled err s : settled s -> outcome (after_failure err s).
Proof using All.
  intros Hs. unfold after_failure. apply then_outcome; [by apply output_settled|]. intros s1 H1'. cbv zeta.
  set (v := Classify _ _ _ _). pose proof (verdict_settled v s1 H1') as H2'. clearbody v.
  apply then_outcome; [by apply not_retryable_settled|]. intros s3 H3.
  apply then_outcome; [by apply spend_settled|]. intros s4 H4.
  apply then_outcome; [by apply switch_settled|]. intros s5 H5.
  apply then_outcome; [by apply wait_settled|]. intros s6 H6. by apply (body_settled s6).
Qed.

Lemma attempt_settled s : settled s -> outcome (one_attempt s).
Proof using All.
  intros Hs. unfold one_attempt. apply then_outcome; [by apply begin_settled|]. intros s1 Hs1.
  pose proof (send_settled s1 Hs1) as Hs2. destruct (send s1) as [s2 [err|]]; cbn [fst] in Hs2.
  - destruct (panicked _); [by apply settled_ending|by apply failure_settled].
  - destruct (panicked _); apply settled_ending; [done|by apply (body_settled s2)].
Qed.

Lemma attempts_settled fuel s : settled s -> ending (attempts fuel s).1.
Proof using All.
  revert s; induction fuel as [|fuel IH]; intros s Hs; cbn [attempts]; [by apply settled_ending|].
  pose proof (attempt_settled s Hs) as Ha. unfold andThen.
  destruct (one_attempt s) as [s' []]; cbn [fst snd outcome] in *; [by apply IH|done].
Qed.

(** After a switch the failed account is excluded, and the request goes on with an
    account that has not failed, with the default client, or, where nothing else is
    left and the failure was not the account's, with the same one. *)
Lemma switch_moves v err s s' prev : settled s -> switch_account v err s = (s', true) ->
  v_SwitchAccount v = true -> currentAccount s = Some prev ->
  ID (account_at s prev) ∈ failedAccountIDs s' /\
  match currentAccount s' with
  | None => True
  | Some p => ID (account_at s' p) ∉ failedAccountIDs s' \/
      (p = prev /\ shouldRetryCurrentAccountWhenNoAlternative (Category (ClassifyUpstreamError (err_Error err))) = true)
  end.
Proof using All.
  intros Hs Hsw Hv Hprev. revert Hsw. unfold switch_account. rewrite Hprev, Hv.
  pose proof Hs as ((_ & P0) & _). destruct (P0 prev Hprev) as [_ Hbal]. rewrite Hbal. cbn [andb negb]. cbv zeta.
  set (s1 := if bool_decide _ then _ else _).
  assert (B1 : body s1 = body s) by (unfold s1; by case_bool_decide).
  assert (F1 : ID (account_at s prev) ∈ failedAccountIDs s1).
  { unfold s1. case_bool_decide as Hin; [done|]. change (ID (account_at s prev) ∈ failedAccountIDs s ++ [ID (account_at s prev)]).
    apply elem_of_app. right. by left. }
  pose proof (release_unslotted s1 (body_settled _ _ B1 Hs)) as (P2 & T2 & Q2).
  set (s2 := releaseTrackedAccount _ s1 <| trackedAccountID := 0 |>) in *.
  assert (F2 : failedAccountIDs s2 = failedAccountIDs s1) by (unfold s2, releaseTrackedAccount; by destruct (_ =? 0)).
  assert (C2 : currentAccount s2 = Some prev).
  { rewrite <- Hprev. transitivity (currentAccount s1); [|by injection B1].
    unfold s2, releaseTrackedAccount. by destruct (_ =? 0). }
  clearbody s2. pose proof (reservation_spec reserve_fuel 0 [] (mappedModel req) _ s2 Q2 (handle_short _) (proj1 P2)) as Hr.
  unfold acquireReservedAccountSelection.
  destruct (reserve _ _ _ _ _) as [s3 [[[[cl account] handle] tracked]|e]]; destruct Hr as (K3 & E3 & Q3);
    unfold hands in E3; injection E3 as E31 E32 E33 E34.
  - intros [= <-]. destruct Q3 as (_ & _ & _ & _ & Hin).
    set (s4 := s3 <| apiClient := cl |> <| currentAccount := account |> <| releaseClient := handle |>
                  <| trackedAccountID := tracked |>).
    assert (Hsame : forall k, failedAccountIDs (release_handle k s4) = failedAccountIDs s3 /\
      currentAccount (release_handle k s4) = account /\ world (release_handle k s4) = world s3) by (by intros []).
    destruct (Hsame (releaseClient s3)) as (G1 & G2 & G3). rewrite G1, G2, E34, F2. split; [done|].
    destruct account as [p|]; [|done]. left. unfold account_at. rewrite G3, <- F2. by apply Hin.
  - destruct (shouldRetryCurrentAccountWhenNoAlternative _) eqn:Hre; [|discriminate].
    destruct P2 as [W2 P2]. pose proof (try_spec (Some prev) _ s3 (fun _ => Hbal) Q3) as Ht.
    destruct (tryAcquireTrackedAccount _ _) as [s4 [id|]]; [|discriminate]. intros [= <-].
    destruct Ht as (_ & E4 & _). unfold hands in E4. injection E4 as _ _ E43 E44.
    change (failedAccountIDs (s4 <| trackedAccountID := id |>)) with (failedAccountIDs s4).
    change (currentAccount (s4 <| trackedAccountID := id |>)) with (currentAccount s4).
    rewrite E44, E34, F2, E43, E33, C2. split; [done|]. by right.
Qed.

Lemma deferred_returns s : ending s -> held_run (log (deferred s)) = Some (mkHeld 0 [] (handles s)).
Proof using.
  intros Q. unfold deferred. set (s1 := releaseTrackedAccount (trackedAccountID s) s).
  pose proof (release_holds _ _ _ Q : holds 0 _ s1) as Q1.
  assert (E1 : handles s1 = handles s) by (unfold s1, releaseTrackedAccount; by destruct (_ =? 0)).
  clearbody s1. destruct (releaseClient s) as [k|]; cbn [release_handle handle_list] in *.
  - destruct (give_last_holds 0 k [] s1 (not_elem_of_nil k) Q1) as [Hr _].
    change (held_run (log (note (ClientGiven k) s1)) = Some (mkHeld 0 [] (handles s))). rewrite Hr. cbn. by rewrite E1.
  - destruct Q1 as [Hr _]. change (held_run (log s1) = Some (mkHeld 0 [] (handles s))). by rewrite Hr, E1.
Qed.

Lemma request_returns sh0 w : well_placed (lb w) ->
  exists n, held_run (log (HandleMessages sh0 w)) = Some (mkHeld 0 [] n).
Proof using All.
  intros Hw. unfold HandleMessages, acquireReservedAccountSelection.
  assert (Q0 : holds 0 [] (start sh0 w)) by (split; [done|constructor]).
  pose proof (reservation_spec reserve_fuel 0 [] (TrimSpace (req_Model req)) [] (start sh0 w) Q0
    (Nat.le_0_l _) Hw) as Hr.
  destruct (reserve _ _ _ _ _) as [s [[[[cl account] handle] tracked]|e]]; destruct Hr as (K & E & Q).
  2: { exists (handles s). apply Q. }
  destruct Q as (Q & _ & Hid & Hbal & Hin). rewrite app_nil_r in Q.
  set (s1 := s <| apiClient := cl |> <| currentAccount := account |> <| releaseClient := handle |>
               <| trackedAccountID := tracked |>).
  assert (Hs : settled s1).
  { split; [|split; [exact Hid|exact Q]]. split; [by apply K|]. intros p Hp. change (account = Some p) in Hp.
    split; [by apply Hin|]. apply Hbal. by rewrite Hp. }
  destruct (_ && _); [eexists; apply deferred_returns, (body_ending s1); [done|by apply settled_ending]|].
  eexists. change (log (on_sh ?f ?x)) with (log x). apply deferred_returns. unfold run_request.
  match goal with |- context [attempts loop_fuel ?s2] =>
    pose proof (attempts_settled loop_fuel s2 (body_settled s1 s2 eq_refl Hs)) as Ha;
    destruct (attempts loop_fuel s2) as [s3 go] end.
  cbn [fst] in Ha. destruct (_ || _); [done|by apply (body_ending s3)].
Qed.
End Holding.

(** * The selection ends

    Where the accounts in sight are among [pool] ids, the reservation loop ends
    by itself. *)
Section Bounded.
Context `{!AccountStoreLaws S} (U : list Z).
Hypothesis others_known : forall n w, known U w -> known U (others env n w).
Hypothesis pool_bound : (length U <= pool)%nat.

Definition steady (s s' : Req) : Prop := known U (world s) -> known U (world s') /\ stuck s' = stuck s.
#[local] Instance steady_preorder : PreOrder steady.
Proof using.
  split; [by intros s|]. intros s1 s2 s3 A B K. destruct (A K) as [K2 E2]. destruct (B K2). split; congruence.
Qed.
Lemma steady_same s s' : world s' = world s -> stuck s' = stuck s -> steady s s'.
Proof using. intros Ew Es K. by rewrite Ew. Qed.

Lemma pass_steady s : steady s (pass s).
Proof using others_known. intros K. split; [by apply others_known|done]. Qed.

Lemma try_steady acc s : steady s (tryAcquireTrackedAccount acc s).1.
Proof using others_known.
  transitivity (pass s); [apply pass_steady|]. unfold tryAcquireTrackedAccount.
  by repeat case_match; apply steady_same.
Qed.

Lemma release_handle_steady k s : steady s (release_handle k s).
Proof using. by destruct k; apply steady_same. Qed.

Lemma release_tracked_steady id s : steady s (releaseTrackedAccount id s).
Proof using. unfold releaseTrackedAccount. by destruct (id =? 0); apply steady_same. Qed.

Lemma selection_steady excluded model s : steady s (acquireAccountSelection excluded model s).1.
Proof using All.
  unfold acquireAccountSelection. cbv zeta. destruct (has_balancer h); [|reflexivity].
  assert (Hsel : steady (pass s) (selectAccountRecordWithOptions excluded model (pass s)).1).
  { unfold selectAccountRecordWithOptions. cbv zeta. destruct (GetNextAccount _ _ _ _ _ _ _) as [res w] eqn:Hg.
    destruct (selection_keeps U _ _ _ _ _ _ _ _ _ Hg) as [Hk _]. intros K. split; [by apply Hk|done]. }
  destruct (selectAccountRecordWithOptions _ _ _) as [s1 [p|e]]; cbn [fst] in Hsel.
  - assert (Hc : steady s1 (acquireAccountClient p s1).1).
    { transitivity (pass s1); [apply pass_steady|]. unfold acquireAccountClient. by repeat case_match; apply steady_same. }
    destruct (acquireAccountClient p s1) as [s2 [k|]]; cbn [fst] in *;
      (etransitivity; [apply pass_steady|by etransitivity]).
  - cbn [fst]. etransitivity; [apply pass_steady|done].
Qed.

(** Turns left: one per account that may still lose the race, in each pass. *)
Definition turns (retries : nat) (full : list Z) : nat :=
  ((reservationRetries - retries) * (length U + 2) + (length U + 2 - length full))%nat.

Lemma reserve_steady fuel : forall retries full model s,
  NoDup full -> (forall id, id ∈ full -> id ∈ U) -> (retries <= reservationRetries)%nat ->
  (turns retries full <= fuel)%nat -> steady s (reserve fuel retries full model s).1.
Proof using All.
  induction fuel as [|fuel IH]; intros retries full model s Hnd Hsub Hret Hfuel.
  { exfalso. pose proof (submseteq_length _ _ (NoDup_submseteq _ U Hnd Hsub)) as Hl. revert Hfuel. unfold turns.
    generalize ((reservationRetries - retries) * (length U + 2))%nat. lia. }
  cbn [reserve]. intros K. pose proof (selection_steady (failedAccountIDs s ++ full) model s) as Hsel.
  destruct (acquireAccountSelection _ _ _) as [s1 [[[cl acc] handle]|e]]; cbn [fst] in Hsel.
  - pose proof (try_steady acc s1) as Ht.
    destruct (tryAcquireTrackedAccount acc s1) as [s2 [id|]]; cbn [fst] in Ht |- *; revert K; [by apply (transitivity Hsel)|].
    intros K. assert (H3 : steady s (release_handle handle s2)).
    { etransitivity; [exact Hsel|]. etransitivity; [exact Ht|apply release_handle_steady]. }
    set (s3 := release_handle handle s2) in *. clearbody s3. destruct (H3 K) as [K3 E3].
    destruct acc as [p|]; [|by split]. destruct (_ =? 0); [by split|]. case_bool_decide as Hin; [by split|].
    rewrite <- E3. apply IH; [| |done| |exact K3].
    + apply NoDup_app. split_and!; [done| |apply NoDup_singleton].
      intros x Hx Hx'. apply list_elem_of_singleton in Hx' as ->. done.
    + intros id [?|Hid]%elem_of_app; [by apply Hsub|]. apply list_elem_of_singleton in Hid as ->. apply K3.
    + unfold turns in *. rewrite length_app. cbn [length]. pose proof (submseteq_length _ _ (NoDup_submseteq _ U Hnd Hsub)). lia.
  - destruct ((retries <? reservationRetries)%nat && _) eqn:Hc; [|by apply Hsel].
    apply andb_true_iff in Hc as [Hc _]. apply Nat.ltb_lt in Hc. cbv zeta.
    assert (H3 : steady s (pass s1)) by (etransitivity; [exact Hsel|apply pass_steady]). destruct (H3 K) as [K3 E3].
    destruct (sleeps env _); [|by split]. rewrite <- E3. apply IH; [constructor|set_solver|lia| |exact K3].
    unfold turns in *. cbn [length].
    replace (reservationRetries - retries)%nat with (Datatypes.S (reservationRetries - Datatypes.S retries)) in Hfuel by lia.
    pose proof (submseteq_length _ _ (NoDup_submseteq _ U Hnd Hsub)). lia.
Qed.

Lemma reserved_steady model s : steady s (acquireReservedAccountSelection model s).1.
Proof using All.
  apply reserve_steady; [constructor|set_solver|lia|]. unfold turns, reserve_fuel, reservationRetries. cbn [length]. lia.
Qed.

Lemma then_steady s p k : steady s p.1 -> (forall s', steady s' (k s').1) -> steady s (andThen p k).1.
Proof using. intros Hp Hk. unfold andThen. destruct p as [s' []]; cbn [fst snd] in *; [by etransitivity|done]. Qed.

Lemma verdict_steady v s : steady s (record_verdict v s).
Proof using All.
  intros K. split; [by apply (verdict_scans U v s)|]. unfold record_verdict. by repeat case_match.
Qed.

Lemma switch_steady v err s : steady s (switch_account v err s).1.
Proof using All.
  unfold switch_account. destruct (currentAccount s) as [prev|]; [|reflexivity]. destruct (negb _); [reflexivity|].
  cbv zeta. set (s1 := if bool_decide _ then _ else _).
  assert (Q1 : steady s s1) by (unfold s1; case_bool_decide; [reflexivity|by apply steady_same]).
  set (s2 := releaseTrackedAccount _ s1 <| trackedAccountID := 0 |>).
  assert (Q2 : steady s s2).
  { etransitivity; [exact Q1|]. etransitivity; [apply release_tracked_steady|by apply steady_same]. }
  pose proof (reserved_steady (mappedModel req) s2) as Q3.
  destruct (acquireReservedAccountSelection _ _) as [s3 [[[[cl account] handle] tracked]|e]]; cbn [fst] in Q3.
  - cbn [fst]. etransitivity; [exact Q2|]. etransitivity; [exact Q3|].
    etransitivity; [|apply release_handle_steady]. by apply steady_same.
  - assert (Q4 : steady s s3) by (by etransitivity).
    destruct (shouldRetryCurrentAccountWhenNoAlternative _); [|etransitivity; [exact Q4|by apply steady_same]].
    pose proof (try_steady (Some prev) s3) as Q5.
    destruct (tryAcquireTrackedAccount _ _) as [s4 [id|]]; cbn [fst] in *;
      (etransitivity; [exact Q4|]; etransitivity; [exact Q5|by apply steady_same]).
Qed.

Lemma wait_steady err s : steady s (wait_out err s).1.
Proof using All.
  unfold wait_out. destruct (over_budget err s); [by apply steady_same|]. cbv zeta.
  match goal with |- context [give_slot_up ?sh ?d ?s1] =>
    assert (Q : steady s (give_slot_up sh d s1).1); [|destruct (give_slot_up sh d s1) as [s2 released]; cbn [fst] in Q] end.
  { etransitivity; [apply pass_steady|]. unfold give_slot_up. destruct (_ && _); [|reflexivity].
    etransitivity; [apply release_tracked_steady|by apply steady_same]. }
  etransitivity; [exact Q|]. apply then_steady.
  - unfold sleep_through. destruct (0 <? _); [|reflexivity]. etransitivity; [apply (pass_steady s2)|].
    destruct (sleeps env _); by apply steady_same.
  - intros s3. match goal with |- context [take_slot_back released (charge_budget ?sh ?c ?d s3)] =>
      transitivity (charge_budget sh c d s3); [unfold charge_budget; destruct sh; by apply steady_same|] end.
    unfold take_slot_back. destruct (negb released); [reflexivity|].
    destruct (currentAccount _) as [p|]; [|reflexivity].
    match goal with |- context [tryAcquireTrackedAccount (Some p) ?s] => pose proof (try_steady (Some p) s) as Ht;
      destruct (tryAcquireTrackedAccount (Some p) s) as [s4 [id|]]; cbn [fst] in * end;
      (etransitivity; [exact Ht|by apply steady_same]).
Qed.

Lemma failure_steady err s : steady s (after_failure err s).1.
Proof using All.
  unfold after_failure. apply then_steady.
  { unfold stop_after_output. destruct (terminalState _ _ _ _) as [sh' [over ov]]. cbv zeta.
    destruct over; [by apply steady_same|].
    destruct (hasAnyOutput _ _ _ _) as [sh'' output]. destruct output; by apply steady_same. }
  intros s1. cbv zeta. set (v := Classify _ _ _ _). etransitivity; [apply (verdict_steady v)|].
  clearbody v. apply then_steady.
  { unfold stop_not_retryable. etransitivity; [apply pass_steady|]. cbv zeta. repeat case_match; by apply steady_same. }
  intros s2. apply then_steady.
  { unfold spend_retry. etransitivity; [apply pass_steady|]. cbv zeta. repeat case_match; by apply steady_same. }
  intros s3. apply then_steady; [apply switch_steady|].
  intros s4. apply then_steady; [apply wait_steady|]. intros s5. by apply steady_same.
Qed.

Lemma attempt_steady s : steady s (one_attempt s).1.
Proof using All.
  unfold one_attempt. apply then_steady.
  { unfold begin_round. destruct (terminalState _ _ _ _) as [sh' [over ov]]. destruct over; by apply steady_same. }
  intros s1. assert (Hs : steady s1 (send s1).1).
  { etransitivity; [apply pass_steady|]. unfold send. cbv zeta. destruct (upstream env _). by apply steady_same. }
  destruct (send s1) as [s2 [err|]]; cbn [fst] in Hs; (etransitivity; [exact Hs|]).
  - destruct (panicked _); [reflexivity|apply failure_steady].
  - destruct (panicked _); by apply steady_same.
Qed.

Lemma attempts_steady fuel s : steady s (attempts fuel s).1.
Proof using All.
  revert s; induction fuel as [|fuel IH]; intros s; cbn [attempts]; [reflexivity|].
  apply then_steady; [apply attempt_steady|exact IH].
Qed.

Lemma request_unstuck sh0 w : known U w -> stuck (HandleMessages sh0 w) = false.
Proof using All.
  intros K. unfold HandleMessages. pose proof (reserved_steady (TrimSpace (req_Model req)) (start sh0 w) K) as Hr.
  destruct (acquireReservedAccountSelection _ _) as [s [[[[cl account] handle] tracked]|e]]; destruct Hr as [K1 E1].
  2: exact E1.
  set (s1 := s <| apiClient := cl |> <| currentAccount := account |> <| releaseClient := handle |>
               <| trackedAccountID := tracked |>).
  assert (Hd : forall s, stuck (deferred s) = stuck s).
  { intros s0. unfold deferred, release_handle, releaseTrackedAccount. by destruct (_ =? 0), (releaseClient s0). }
  destruct (_ && _); [rewrite Hd; exact E1|]. change (stuck (on_sh ?f ?x)) with (stuck x). rewrite Hd. unfold run_request.
  match goal with |- context [attempts loop_fuel ?s2] =>
    destruct (attempts_steady loop_fuel s2 K1) as [_ E2]; destruct (attempts loop_fuel s2) as [s3 go] end.
  cbn [fst] in E2. transitivity (stuck s3); [by destruct (_ || _)|]. rewrite E2. exact E1.
Qed.
End Bounded.

Lemma request_sends sh0 w : (sends (log (HandleMessages sh0 w)) <= Datatypes.S (Z.to_nat (MaxRetries h)))%nat.
Proof using.
  unfold HandleMessages, acquireReservedAccountSelection.
  pose proof (rests_sends _ _ (quiet_rests _ _ (reserve_quiet reserve_fuel 0 [] (TrimSpace (req_Model req)) (start sh0 w)))) as [E1 _].
  destruct (reserve _ _ _ _ _) as [s [[[[cl account] handle] tracked]|e]]; cbn [fst] in E1.
  2: { change (log (on_sh ?f ?x)) with (log x). rewrite E1. cbn. lia. }
  set (s1 := s <| apiClient := cl |> <| currentAccount := account |> <| releaseClient := handle |>
               <| trackedAccountID := tracked |>).
  assert (Hd : forall s, sends (log (deferred s)) = sends (log s)).
  { intros s0. set (s2 := release_handle (releaseClient s0) (releaseTrackedAccount (trackedAccountID s0) s0)).
    change (log (deferred s0)) with (log s2).
    apply (rests_sends s0 s2), quiet_rests. etransitivity; [apply release_tracked_quiet|apply release_handle_quiet]. }
  destruct (_ && _); [rewrite Hd; change (sends (log s) <= Datatypes.S (Z.to_nat (MaxRetries h)))%nat; rewrite E1; cbn; lia|].
  change (log (on_sh ?f ?x)) with (log x). rewrite Hd. unfold run_request.
  match goal with |- context [attempts loop_fuel ?s2] =>
    pose proof (attempts_end loop_fuel s2) as Ha; destruct (attempts loop_fuel s2) as [s3 go] end.
  destruct Ha as [_ Ha]; [unfold loop_fuel; cbn; lia|cbn; lia|]. cbn [fst] in Ha.
  change (log (_ <| attempt := _ |> <| retriesRemaining := _ |> <| sharedRefusalWaited := _ |>)) with (log s) in Ha.
  rewrite E1 in Ha. cbn in Ha. unfold loop_fuel in Ha. destruct (_ || _); exact Ha.
Qed.

(** * The response stays well formed, and ends

    A predicate of the relay that every operation of it keeps is kept by the request. *)
Record keeps_relay (P : St -> Prop) : Prop := {
  kept_lock s : P s -> P (lock cfg wfail tick s);
  kept_run msgs s : P s -> P (run cfg wfail tick (map OpMessage msgs) s);
  kept_round s : P s -> P (next_round cfg wfail tick s);
  kept_report category message ra s : P s -> P (reportRequestFailure cfg wfail tick category message ra s);
  kept_finish s : P s -> P (finishResponse cfg wfail tick "end_turn" s);
  kept_force s : P s -> P (forceFinishIfMissing cfg wfail tick s);
}.

Section Kept.
Context (P : St -> Prop) (kept : keeps_relay P).

Definition spoken (s s' : Req) : Prop := P (sh s) -> P (sh s').
#[local] Instance spoken_preorder : PreOrder spoken.
Proof using. split; [by intros s ?|]. intros s1 s2 s3 A B I. auto. Qed.

Lemma spoken_same s s' : sh s' = sh s -> spoken s s'.
Proof using. intros E I. by rewrite E. Qed.

Lemma quiet_spoken s s' : quiet s s' -> spoken s s'.
Proof using. intros [Hc _]. apply spoken_same. by injection Hc. Qed.

Lemma then_spoken s p k : spoken s p.1 -> (forall s', spoken s' (k s').1) -> spoken s (andThen p k).1.
Proof using. intros Hp Hk. unfold andThen. destruct p as [s' []]; cbn [fst snd] in *; [by etransitivity|done]. Qed.

Lemma report_spoken category message ra s : spoken s (report category message ra s).
Proof using kept. exact (kept_report P kept category message ra (sh s)). Qed.

Lemma finish_spoken s : spoken s (finish s).
Proof using kept. exact (kept_finish P kept (sh s)). Qed.

Lemma inject_spoken e1 e2 s : spoken s (on_sh (InjectNoAvailableAccountError cfg wfail tick e1 e2) s).
Proof using kept. unfold InjectNoAvailableAccountError. exact (report_spoken _ _ 0 s). Qed.

Lemma begin_spoken s : spoken s (begin_round s).1.
Proof using kept.
  intros I. pose proof (kept_round P kept (sh s) I) as Hn. unfold begin_round, next_round in *.
  destruct (terminalState _ _ _ _) as [sh' [over ov]]. by destruct over.
Qed.

Lemma send_spoken s : spoken s (send s).1.
Proof using kept.
  unfold send. cbv zeta. destruct (upstream env _) as [msgs err]. exact (kept_run P kept msgs (sh s)).
Qed.

Lemma output_spoken err s : spoken s (stop_after_output err s).1.
Proof using kept.
  intros I. unfold stop_after_output, terminalState. cbv zeta. pose proof (kept_lock P kept _ I) as I1.
  set (s1 := s <| sh := lock cfg wfail tick (sh s) |>). change (P (sh s1)) in I1.
  change (lock cfg wfail tick (sh s)) with (sh s1). destruct (hasReturn _); [exact I1|].
  pose proof (kept_lock P kept _ I1) as I2. pose proof (kept_lock P kept _ I2) as I3.
  unfold hasAnyOutput, hasVisibleOutput. cbv zeta.
  destruct (_ || _); [by apply (report_spoken _ _ _ (s1 <| sh := lock cfg wfail tick (sh s1) |>))|].
  match goal with |- context [if ?b then (report_error _ _, false) else _] => destruct b end;
    [by apply (report_spoken _ _ _ (s1 <| sh := lock cfg wfail tick (lock cfg wfail tick (sh s1)) |>))|exact I3].
Qed.

Lemma not_retryable_spoken v err s : spoken s (stop_not_retryable v err s).1.
Proof using kept.
  unfold stop_not_retryable. etransitivity; [apply (quiet_spoken _ _ (pass_quiet s))|]. cbv zeta.
  destruct (v_Retryable v); [reflexivity|].
  destruct (String.eqb _ _); [destruct (canceled env _)|]; first [apply finish_spoken|apply report_spoken].
Qed.

Lemma spend_spoken err s : spoken s (spend_retry err s).1.
Proof using kept.
  unfold spend_retry. etransitivity; [apply (quiet_spoken _ _ (pass_quiet s))|]. cbv zeta.
  destruct (canceled env _); [apply finish_spoken|]. destruct (_ <=? 0); [apply report_spoken|by apply spoken_same].
Qed.

Lemma switch_spoken v err s : spoken s (switch_account v err s).1.
Proof using kept.
  destruct (switch_account v err s) as [s' b] eqn:Hs. destruct b; [by eapply quiet_spoken, switch_quiet|].
  revert Hs. unfold switch_account. destruct (currentAccount s) as [prev|]; [|discriminate].
  destruct (negb _); [discriminate|]. cbv zeta. set (s1 := if bool_decide _ then _ else _).
  assert (Q1 : sh s1 = sh s) by (unfold s1; by case_bool_decide).
  set (s2 := releaseTrackedAccount _ s1 <| trackedAccountID := 0 |>).
  assert (Q2 : sh s2 = sh s) by (rewrite <- Q1; unfold s2, releaseTrackedAccount; by destruct (_ =? 0)).
  unfold acquireReservedAccountSelection. pose proof (reserve_quiet reserve_fuel 0 [] (mappedModel req) s2) as Q3.
  destruct (reserve _ _ _ _ _) as [s3 [[[[cl account] handle] tracked]|e]]; [discriminate|]; cbn [fst] in Q3.
  assert (Hstop : forall s4, spoken s s4 -> spoken s (no_alternative err e s4).1).
  { intros s4 Q. transitivity s4; [exact Q|].
    transitivity (on_sh (InjectNoAvailableAccountError cfg wfail tick (err_Error err) (Some e)) s4);
      [apply inject_spoken|exact (finish_spoken _)]. }
  assert (Q4 : spoken s s3) by (transitivity s2; [by apply spoken_same|by apply quiet_spoken]).
  destruct (shouldRetryCurrentAccountWhenNoAlternative _); [|intros [= <-]; by apply (Hstop s3)].
  pose proof (try_quiet (Some prev) s3) as Q5.
  destruct (tryAcquireTrackedAccount _ _) as [s4 [id|]]; [discriminate|]; cbn [fst] in Q5. intros [= <-].
  apply (Hstop s4). transitivity s3; [exact Q4|by apply quiet_spoken].
Qed.

Lemma wait_spoken err s : spoken s (wait_out err s).1.
Proof using kept.
  unfold wait_out. destruct (over_budget err s); [apply report_spoken|]. cbv zeta.
  match goal with |- context [give_slot_up ?sh ?d ?s1] =>
    assert (Q : spoken s (give_slot_up sh d s1).1); [|destruct (give_slot_up sh d s1) as [s2 released]; cbn [fst] in Q] end.
  { unfold give_slot_up. destruct (_ && _); [|apply (quiet_spoken _ _ (pass_quiet s))].
    apply spoken_same. unfold releaseTrackedAccount. by destruct (_ =? 0). }
  etransitivity; [exact Q|]. apply then_spoken.
  - unfold sleep_through. destruct (0 <? _); [|reflexivity].
    destruct (sleeps env _); [by apply spoken_same|]. by etransitivity; [|apply finish_spoken]; apply spoken_same.
  - intros s3. match goal with |- context [take_slot_back released (charge_budget ?sh ?c ?d s3)] =>
      transitivity (charge_budget sh c d s3); [unfold charge_budget; destruct sh; by apply spoken_same|] end.
    unfold take_slot_back. destruct (negb released); [reflexivity|].
    destruct (currentAccount _) as [p|]; [|reflexivity].
    match goal with |- context [tryAcquireTrackedAccount (Some p) ?s] => pose proof (try_quiet (Some p) s) as Ht;
      destruct (tryAcquireTrackedAccount (Some p) s) as [s4 [id|]]; cbn [fst] in * end;
      (etransitivity; [by apply quiet_spoken|]); [by apply spoken_same|apply report_spoken].
Qed.

Lemma attempt_spoken s : spoken s (one_attempt s).1.
Proof using kept.
  unfold one_attempt. apply then_spoken; [apply begin_spoken|]. intros s1. pose proof (send_spoken s1) as Hs.
  destruct (send s1) as [s2 [err|]]; cbn [fst] in Hs; (etransitivity; [exact Hs|]).
  - destruct (panicked _); [reflexivity|]. unfold after_failure.
    apply then_spoken; [apply output_spoken|]. intros s3. cbv zeta. set (v := Classify _ _ _ _).
    etransitivity; [apply (quiet_spoken _ _ (verdict_quiet v s3))|]. clearbody v.
    apply then_spoken; [apply not_retryable_spoken|]. intros s4.
    apply then_spoken; [apply spend_spoken|]. intros s5.
    apply then_spoken; [apply switch_spoken|]. intros s6.
    apply then_spoken; [apply wait_spoken|]. intros s7. by apply spoken_same.
  - destruct (panicked _); [reflexivity|]. exact (kept_force P kept (sh s2)).
Qed.

Lemma attempts_spoken fuel s : spoken s (attempts fuel s).1.
Proof using kept.
  revert s; induction fuel as [|fuel IH]; intros s; cbn [attempts]; [reflexivity|].
  apply then_spoken; [apply attempt_spoken|exact IH].
Qed.


(** How the relay of a request is left: refused before the first attempt; or at the end
    of the attempts, finished by the request when they did not. *)
Lemma request_relay sh0 w : P sh0 ->
  let s := sh (HandleMessages sh0 w) in
  (exists out, s = writePoolExhaustion out sh0)
  \/ (isStream cfg && negb (supports_flush req) = true
      /\ s = refuse 500 "api_error" "Streaming not supported by underlying connection" sh0)
  \/ exists x, P x /\ s = recovered x /\
      (panicked (conn x) = true \/ hasReturn (conn x) = true
       \/ exists y, P y /\ hasReturn (conn y) = false /\ x = finishResponse cfg wfail tick "end_turn" y).
Proof using kept.
  intros H0'. cbv zeta. unfold HandleMessages, acquireReservedAccountSelection.
  destruct (reserve_quiet reserve_fuel 0 [] (TrimSpace (req_Model req)) (start sh0 w)) as [Hc _].
  destruct (reserve _ _ _ _ _) as [s [[[[cl account] handle] tracked]|e]]; cbn [fst] in Hc; injection Hc as Hsh _ _ _.
  2: { left. eexists. unfold on_sh. cbn. by rewrite Hsh. }
  right. set (s1 := s <| apiClient := cl |> <| currentAccount := account |> <| releaseClient := handle |>
               <| trackedAccountID := tracked |>).
  assert (Hd : forall s, sh (deferred s) = sh s).
  { intros s0. unfold deferred, release_handle, releaseTrackedAccount. by destruct (_ =? 0), (releaseClient s0). }
  destruct (_ && _).
  { left. split; [done|]. rewrite Hd. change (sh (on_sh ?f ?x)) with (f (sh x)). change (sh s1) with (sh s). by rewrite Hsh. }
  right. change (sh (on_sh ?f ?x)) with (f (sh x)). rewrite Hd. unfold run_request.
  match goal with |- context [attempts loop_fuel ?s2] =>
    pose proof (attempts_spoken loop_fuel s2) as Ha; destruct (attempts loop_fuel s2) as [s3 go] end.
  cbn [fst] in Ha. unfold spoken in Ha.
  assert (I3 : P (sh s3)) by (apply Ha; change (P (sh s)); by rewrite Hsh).
  destruct (panicked (conn (sh s3))) eqn:Hp; cbn [orb]; [exists (sh s3); auto|].
  destruct (hasReturn (conn (sh s3))) eqn:Hr; [exists (sh s3); auto|].
  exists (finishResponse cfg wfail tick "end_turn" (sh s3)). split; [by apply (kept_finish P kept)|]. split; [done|].
  right; right. by exists (sh s3).
Qed.
End Kept.

Lemma recovered_panicked x : panicked (conn (recovered x)) = panicked (conn x) /\
  (panicked (conn x) = false -> recovered x = x).
Proof using.
  unfold recovered. destruct (panicked (conn x)) eqn:Hp; cbn [negb]; [|done]. split; [|done].
  destruct (isStream cfg); [|exact Hp]. unfold put_report, put. destruct (try_writes _ _ _) as [[] n]; exact Hp.
Qed.

Section Answered.
Hypothesis Hstream : isStream cfg = true.
Hypothesis Hformat : openAI cfg = false.

Lemma inv_kept : keeps_relay (fun s => inv (conn s)).
Proof using Hstream Hformat.
  constructor; cbv beta.
  - intros s I. by apply (lock_inv cfg wfail tick Hstream).
  - intros msgs s I. by apply (run_inv cfg wfail tick Hstream Hformat).
  - intros s I. by apply (next_round_inv cfg wfail tick Hstream Hformat).
  - intros category message ra s I. destruct (report_ended cfg wfail tick Hstream Hformat category message ra s I) as [Hc He].
    apply ended_inv; [|exact He]. apply (core_eq _ _ Hc), I.
  - intros s I. destruct (finish_ended cfg wfail tick Hstream Hformat "end_turn" s I) as [Hok He]. by apply ended_inv.
  - intros s I. destruct (forceFinish_ended cfg wfail tick Hstream Hformat s I). by apply ended_inv.
Qed.

Lemma ended_client c : ended c ->
  client_run (wire c) = Some CDone \/ client_run (wire c) = Some CFailed \/ WTorn ∈ wire c.
Proof using. intros [Hb|(_ & _ & [?|?])]; [right; right; by apply broken_torn|by left|by right; left]. Qed.

Lemma request_answered_or sh0 w : conn sh0 = initialConn ->
  let c := conn (sh (HandleMessages sh0 w)) in
  panicked c = true \/ client_run (wire c) = Some CDone \/ client_run (wire c) = Some CFailed \/ WTorn ∈ wire c.
Proof using Hstream Hformat.
  intros H0'. cbv zeta.
  destruct (request_relay _ inv_kept sh0 w (initial_inv sh0 H0')) as [[out ->]|[[_ ->]|(x & Ix & -> & Hx)]];
    [right; right; left; cbn; by rewrite H0'..|].
  destruct (recovered_panicked x) as [-> Heq]. destruct (panicked (conn x)); [by left|right]. rewrite (Heq eq_refl). apply ended_client.
  destruct Hx as [?|[Hr|(y & Iy & _ & ->)]]; [done|by apply returned_ended|].
  by apply (finish_ended cfg wfail tick Hstream Hformat "end_turn" y Iy).
Qed.
End Answered.

(** * The waits stay within the budget *)
Section Waits.
Hypothesis delay_small : - 10 ^ 12 <= RetryDelay h <= 10 ^ 12.
Hypothesis budget_small : SharedRefusalWaitBudgetMs h <= 10 ^ 12.

Definition budget : Duration := SharedRefusalWaitBudget (SharedRefusalWaitBudgetMs h).
Definition charge (e : Event) : Duration := match e with Waited c _ => c | _ => 0 end.
Definition charges (l : list Event) : Duration := sumZ charge l.

(** A wait for a shared refusal lasts what it is charged and at most a fifth, or
    five seconds, more; any other wait at most thirty seconds. *)
Definition wait_ok (e : Event) : Prop :=
  match e with
  | Waited c d => if c =? 0 then 0 < d <= 30 * Second
                  else 0 < c <= d /\ d - c <= 5 * Second /\ 5 * (d - c) <= c
  | _ => True
  end.

Lemma budget_bounds : Second <= budget <= 10 ^ 18.
Proof using budget_small.
  clear delay_small. unfold budget, SharedRefusalWaitBudget, sharedRefusalTotalWaitBudget, Second, Millisecond in *.
  destruct (_ <=? 0) eqn:Hz; bool_to_prop; [lia|].
  rewrite wrap64_id by (unfold in_int64, min_int64, max_int64; lia). destruct (_ <? _) eqn:Hs; bool_to_prop; lia.
Qed.

Lemma hint_bounds err : 0 <= upstreamRetryAfter err <= 30 * Second.
Proof using. unfold upstreamRetryAfter, Second. destruct (err_RetryAfter err); [by_cases|lia]. Qed.

Lemma compute_bounds base a category : base <= 10 ^ 18 -> 0 <= computeRetryDelay base a category <= 30 * Second.
Proof using.
  clear delay_small budget_small. intros Hb. unfold computeRetryDelay. destruct (base <=? 0) eqn:Hz; bool_to_prop; [unfold Second; lia|].
  cbv zeta. set (a1 := if a <? 1 then 1 else a). set (a2 := if 4 <? a1 then 4 else a1).
  assert (Ha : 1 <= a2 <= 4) by (unfold a2, a1; repeat (destruct (_ <? _) eqn:?; bool_to_prop); lia).
  clearbody a2. rewrite Z.shiftl_mul_pow2 by lia.
  assert (Hp : 1 <= 1 * 2 ^ (a2 - 1) <= 8).
  { assert (a2 = 1 \/ a2 = 2 \/ a2 = 3 \/ a2 = 4) as [-> |[-> |[-> | ->]]] by lia; cbn; lia. }
  rewrite wrap64_id by (unfold in_int64, min_int64, max_int64; nia).
  assert (Hd : 0 < base * (1 * 2 ^ (a2 - 1))) by nia.
  set (d := base * (1 * 2 ^ (a2 - 1))) in *. clearbody d.
  set (d' := if _ && _ then _ else d). assert (Hd' : 0 < d') by (unfold d', Second in *; destruct (_ && _); lia).
  clearbody d'. unfold Second. destruct (_ <? d') eqn:Ht; bool_to_prop; lia.
Qed.

Lemma delay_bounds err a : 0 <= retry_delay err a <= 30 * Second.
Proof using delay_small.
  unfold retry_delay. cbv zeta. pose proof (hint_bounds err) as Hh.
  pose proof (compute_bounds (wrap64 (RetryDelay h * Millisecond)) (a + 1) (Category (ClassifyUpstreamError (err_Error err)))) as Hc.
  rewrite wrap64_id in Hc by (unfold in_int64, min_int64, max_int64, Millisecond; lia).
  rewrite wrap64_id by (unfold in_int64, min_int64, max_int64, Millisecond; lia).
  destruct (_ <? _); [done|]. apply Hc. unfold Millisecond. lia.
Qed.

Lemma probe_bounds hint retry : 0 < hint -> 0 < sharedRefusalWait hint retry <= hint.
Proof using.
  intros Hh. unfold sharedRefusalWait. rewrite (proj2 (Z.leb_gt _ _) Hh). cbv zeta.
  set (w := truncate _). clearbody w. set (w' := if w <? Second then Second else w).
  assert (Hw : 0 < w') by (unfold w', Second in *; destruct (w <? _) eqn:Hs; bool_to_prop; lia).
  clearbody w'. destruct (hint <? w') eqn:Hs; bool_to_prop; lia.
Qed.

Lemma shared_bounds err a : 0 <= shared_wait err a <= 86400 * Second /\
  (isSharedUpstreamRefusalClass (ClassifyUpstreamError (err_Error err)) = true -> shared_wait err a = 0 ->
   retry_delay err a = 0) /\
  (isSharedUpstreamRefusalClass (ClassifyUpstreamError (err_Error err)) = false -> shared_wait err a = 0).
Proof using delay_small.
  pose proof (delay_bounds err a) as Hd. unfold shared_wait. cbv zeta.
  set (d := retry_delay err a) in *. clearbody d.
  destruct (isSharedUpstreamRefusalClass _); rewrite ?andb_true_r, ?andb_false_r;
    [|by split_and!; unfold Second; try lia].
  destruct (0 <? d) eqn:Hz; bool_to_prop; [|by split_and!; unfold Second; try lia].
  unfold sharedRefusalWaitForChannel. cbv zeta. rewrite (proj2 (Z.leb_gt _ _) Hz).
  destruct (is_qoder _).
  - set (q := qoder_interval _). clearbody q. unfold Second, Millisecond in *.
    destruct (0 <? q) eqn:H1'; bool_to_prop; [|split_and!; try done; lia].
    set (m := if 86400000 <? q then 86400000 else q).
    assert (Hm : 0 < m <= 86400000) by (unfold m; destruct (86400000 <? q) eqn:H2'; bool_to_prop; lia). clearbody m.
    destruct (_ <? _) eqn:H3'; bool_to_prop; split_and!; try done; lia.
  - pose proof (probe_bounds d (a + 1) Hz). unfold Second in *. split_and!; try done; lia.
Qed.

Lemma jitter_bounds w dr : 0 < w -> 0 <= sharedRefusalJitter w dr <= 5 * Second /\ 5 * sharedRefusalJitter w dr <= w.
Proof using.
  intros Hw. unfold sharedRefusalJitter. rewrite (proj2 (Z.leb_gt _ _) Hw). cbv zeta.
  assert (Hq : 0 <= w ÷ 5 /\ 5 * (w ÷ 5) <= w).
  { rewrite Z.quot_div_nonneg by lia. pose proof (Z.div_mod w 5 ltac:(lia)). pose proof (Z.mod_pos_bound w 5 ltac:(lia)). lia. }
  set (j := if 5 * Second <? w ÷ 5 then 5 * Second else w ÷ 5).
  assert (Hj : 0 <= j <= 5 * Second /\ 5 * j <= w).
  { unfold j, Second in *. destruct (_ <? w ÷ 5) eqn:Hc; bool_to_prop; lia. }
  clearbody j. destruct (j <=? 0) eqn:Hz; bool_to_prop; [unfold Second; lia|].
  pose proof (Z.mod_pos_bound dr j ltac:(lia)). lia.
Qed.

Lemma delay_wait_ok err a dr :
  0 < wait_delay err a dr -> wait_ok (Waited (shared_wait err a) (wait_delay err a dr)).
Proof using delay_small.
  destruct (shared_bounds err a) as [Hs _]. pose proof (delay_bounds err a) as Hd.
  unfold wait_delay. cbv zeta. set (c := shared_wait err a) in *. clearbody c. unfold wait_ok.
  destruct (0 <? c) eqn:Hc; bool_to_prop.
  - intros _. rewrite (proj2 (Z.eqb_neq c 0)) by lia. unfold sharedRefusalSleepForChannel.
    destruct (_ && _); [unfold Second in *; lia|]. destruct (jitter_bounds c dr Hc) as [J1 J2].
    rewrite wrap64_id by (unfold in_int64, min_int64, max_int64, Second in *; lia). lia.
  - intros Hp. assert (c = 0) as -> by lia. cbn. lia.
Qed.

Lemma charged_waits err a dr : 0 < shared_wait err a -> 0 < wait_delay err a dr.
Proof using delay_small.
  destruct (shared_bounds err a) as [Hs _]. unfold wait_delay. cbv zeta. intros Hc.
  rewrite (proj2 (Z.ltb_lt _ _) Hc). unfold sharedRefusalSleepForChannel. destruct (_ && _); [done|].
  destruct (jitter_bounds _ dr Hc) as [J1 J2].
  rewrite wrap64_id by (unfold in_int64, min_int64, max_int64, Second in *; lia). lia.
Qed.

(** The budget spent is what the log charges. *)
Definition accounted (s : Req) : Prop :=
  charges (log s) = sharedRefusalWaited s /\ 0 <= sharedRefusalWaited s <= budget /\ Forall wait_ok (log s).
Definition within (l : list Event) : Prop := 0 <= charges l <= budget /\ Forall wait_ok l.

Lemma accounted_within s : accounted s -> within (log s).
Proof using. intros (E & Hb & Hw). split; [by rewrite E|done]. Qed.

Lemma calm_charges l : calm l -> charges l = 0 /\ Forall wait_ok l.
Proof using.
  induction 1 as [|e l [_ He] _ [IH1 IH2]]; [by split|]. unfold charges in *. rewrite sumZ_cons, IH1.
  destruct e; cbn in *; try done; (split; [done|by constructor]).
Qed.

Lemma still_accounted s s' : still s s' -> accounted s -> accounted s'.
Proof using.
  intros (_ & _ & W & l & L & C) (E & Hb & Hw). destruct (calm_charges l C) as [C1 C2]. unfold accounted.
  rewrite L, W. unfold charges in *. rewrite sumZ_app, C1, E, Z.add_0_r. split_and!; try done; try lia.
  by apply Forall_app.
Qed.

Lemma take_back_still released s : still s (take_slot_back released s).1.
Proof using.
  unfold take_slot_back. destruct (negb released); [reflexivity|]. destruct (currentAccount s) as [p|]; [|reflexivity].
  pose proof (try_quiet (Some p) s) as Ht.
  destruct (tryAcquireTrackedAccount (Some p) s) as [s' [id|]]; cbn [fst] in *;
    (etransitivity; [apply quiet_still, Ht|by apply same_still]).
Qed.

Definition accounts (p : Req * bool) : Prop := if p.2 then accounted p.1 else within (log p.1).

Lemma still_accounts s p : still s p.1 -> accounted s -> accounts p.
Proof using.
  intros Hs Ha. pose proof (still_accounted _ _ Hs Ha) as Hp. unfold accounts. destruct p.2; [done|by apply accounted_within].
Qed.

Lemma then_accounts p k : accounts p -> (forall s, accounted s -> accounts (k s)) -> accounts (andThen p k).
Proof using.
  unfold andThen, accounts. destruct p as [s []]; cbn [fst snd]; intros Hp Hk; [by apply Hk|exact Hp].
Qed.

Lemma wait_accounts err s : accounted s -> accounts (wait_out err s).
Proof using All.
  intros Ha. unfold wait_out. destruct (over_budget err s) eqn:Hover.
  { apply (still_accounts s); [by apply same_still|done]. }
  cbv zeta. pose proof (still_accounted _ _ (quiet_still _ _ (pass_quiet s)) Ha) as Hp.
  destruct (shared_bounds err (attempt s)) as (Hc & Hzero & Hown).
  change (attempt (pass s)) with (attempt s).
  pose proof (delay_wait_ok err (attempt s) (draw env (ev (pass s)))) as Hok.
  pose proof (charged_waits err (attempt s) (draw env (ev (pass s)))) as Hpos'.
  set (shared := isSharedUpstreamRefusalClass _) in *. set (charged := shared_wait err (attempt s)) in *.
  assert (Hwd : charged = 0 -> wait_delay err (attempt s) (draw env (ev (pass s))) = retry_delay err (attempt s)).
  { intros H0'. unfold wait_delay. cbv zeta. fold charged. by rewrite H0'. }
  set (delay := wait_delay err _ _) in *.
  assert (Hroom : charges (log s) = sharedRefusalWaited s /\ 0 <= sharedRefusalWaited s + charged <= budget).
  { destruct Ha as (E & Hb & _). split; [done|]. unfold over_budget in Hover. cbv zeta in Hover. fold charged shared budget in Hover.
    destruct shared; cbn [andb] in Hover; [|rewrite (Hown eq_refl); lia].
    destruct (0 <? charged) eqn:Hpos; bool_to_prop; cbn [andb] in Hover; [|assert (charged = 0) as -> by lia; lia].
    apply negb_false_iff in Hover. unfold sharedRefusalWaitAllowedWithin in Hover.
    rewrite (proj2 (Z.leb_gt _ _) Hpos) in Hover. pose proof budget_bounds as Hbb. unfold Second in *.
    rewrite (proj2 (Z.leb_gt budget 0)) in Hover by lia.
    rewrite wrap64_id in Hover by (unfold in_int64, min_int64, max_int64; lia). bool_to_prop. lia. }
  match goal with |- context [give_slot_up shared delay ?s1] =>
    assert (Q : accounted (give_slot_up shared delay s1).1 /\ sharedRefusalWaited (give_slot_up shared delay s1).1 = sharedRefusalWaited s);
    [|destruct (give_slot_up shared delay s1) as [s2 released]; cbn [fst] in Q] end.
  { unfold give_slot_up. destruct (_ && _); [|done]. cbn [fst].
    assert (St : still (pass s) (releaseTrackedAccount (trackedAccountID (pass s)) (pass s) <| trackedAccountID := 0 |>)).
    { etransitivity; [apply quiet_still, release_tracked_quiet|by apply same_still]. }
    split; [by apply (still_accounted (pass s))|]. by destruct St as (_ & _ & W & _). }
  destruct Q as [Q QW]. clearbody delay charged shared.
  assert (Hend : forall s', still s2 s' -> 0 < delay -> let s3 := note (Waited charged delay) s' in
    charges (log s3) = sharedRefusalWaited s + charged /\ Forall wait_ok (log s3) /\ sharedRefusalWaited s3 = sharedRefusalWaited s).
  { intros s' Hs' Hd. destruct (still_accounted _ _ Hs' Q) as (E & _ & Hw). destruct Hs' as (_ & _ & W' & _). cbv zeta.
    change (log (note ?e s')) with (log s' ++ [e]). unfold charges in *. rewrite sumZ_app. cbn [sumZ foldr charge].
    split; [rewrite E; lia|]. split; [apply Forall_app; split; [done|by constructor; [apply Hok|constructor]]|].
    change (sharedRefusalWaited s' = sharedRefusalWaited s). lia. }
  unfold sleep_through, andThen. destruct (0 <? delay) eqn:Hd; bool_to_prop; cbn [fst snd].
  - destruct (Hend (pass s2) (quiet_still _ _ (pass_quiet s2)) Hd) as (E & Hw & W).
    set (s3 := note (Waited charged delay) (pass s2)) in *.
    destruct (sleeps env _); cbn [fst snd].
    2: { change (within (log s3)). split; [lia|done]. }
    apply (still_accounts _ _ (take_back_still released _)). unfold charge_budget.
    destruct shared.
    + destruct (charged =? 0) eqn:Hz; bool_to_prop; [exfalso; rewrite (Hwd Hz), (Hzero eq_refl Hz) in Hd; lia|].
      unfold accounted. change (log (s3 <| sharedRefusalWaited := ?x |>)) with (log s3).
      change (sharedRefusalWaited (s3 <| sharedRefusalWaited := ?x |>)) with x. pose proof budget_bounds.
      rewrite Z.add_0_r, W, wrap64_id, wrap64_id by (unfold in_int64, min_int64, max_int64; rewrite ?wrap64_id by (unfold in_int64, min_int64, max_int64; lia); lia).
      split_and!; [done|lia|lia|done].
    + pose proof (Hown eq_refl) as ->. unfold accounted. rewrite E, W. split_and!; [lia|lia|lia|done].
  - apply (still_accounts _ _ (take_back_still released _)). unfold charge_budget. destruct shared; [|exact Q].
    assert (Hcz : charged = 0 -> delay = 0) by (intros H0'; rewrite (Hwd H0'); by apply Hzero).
    destruct (charged =? 0) eqn:Hz; bool_to_prop.
    + rewrite (Hcz Hz), Hz. destruct Q as (E & Hb & Hw). unfold accounted.
      change (log (s2 <| sharedRefusalWaited := ?x |>)) with (log s2).
      change (sharedRefusalWaited (s2 <| sharedRefusalWaited := ?x |>)) with x. pose proof budget_bounds.
      rewrite !Z.add_0_r, wrap64_id, wrap64_id by (unfold in_int64, min_int64, max_int64; rewrite ?wrap64_id by (unfold in_int64, min_int64, max_int64; lia); lia).
      by split_and!; [|lia|lia|].
    + exfalso. lia.
Qed.

Lemma log_accounted s s' : log s' = log s -> sharedRefusalWaited s' = sharedRefusalWaited s -> accounted s -> accounted s'.
Proof using. unfold accounted. by intros -> ->. Qed.

Lemma log_accounts s p : log p.1 = log s -> sharedRefusalWaited p.1 = sharedRefusalWaited s -> accounted s -> accounts p.
Proof using.
  intros Hl Hw Ha. pose proof (log_accounted s p.1 Hl Hw Ha). unfold accounts. destruct p.2; [done|by apply accounted_within].
Qed.

Lemma attempt_accounts s : accounted s -> accounts (one_attempt s).
Proof using All.
  intros Ha. unfold one_attempt. apply then_accounts; [by apply (still_accounts s); [apply begin_still|]|].
  intros s1 A1. assert (A2 : accounted (send s1).1).
  { destruct A1 as (E & Hb & Hw). unfold send. cbv zeta. destruct (upstream env _) as [msgs err]. cbn [fst].
    match goal with |- accounted (on_sh _ (note ?e _)) => set (sent := e) end.
    unfold accounted. change (log (on_sh ?f (note sent ?x))) with (log s1 ++ [sent]).
    change (sharedRefusalWaited (on_sh ?f ?x)) with (sharedRefusalWaited s1). unfold charges in *.
    rewrite sumZ_app, E. cbn. split_and!; [lia|lia|lia|]. apply Forall_app. split; [done|by repeat constructor]. }
  destruct (send s1) as [s2 [err|]]; cbn [fst] in A2.
  2: { destruct (panicked _); by apply (log_accounts s2). }
  destruct (panicked _); [by apply (log_accounts s2)|]. unfold after_failure.
  apply then_accounts; [by apply (still_accounts s2); [apply output_still|]|]. intros s3 A3. cbv zeta.
  set (v := Classify _ _ _ _). pose proof (still_accounted _ _ (quiet_still _ _ (verdict_quiet v s3)) A3) as A4.
  clearbody v. apply then_accounts; [by eapply still_accounts; [apply not_retryable_still|]|]. intros s5 A5.
  apply then_accounts; [|intros s6 A6; apply then_accounts; [by eapply still_accounts; [apply switch_still|]|]].
  { unfold spend_retry. cbv zeta. destruct (canceled env _); [|destruct (_ <=? 0)]; by apply (log_accounts s5). }
  intros s7 A7. apply then_accounts; [by apply wait_accounts|]. intros s8 A8. by apply (log_accounts s8).
Qed.

Lemma attempts_within fuel s : accounted s -> within (log (attempts fuel s).1).
Proof using All.
  revert s; induction fuel as [|fuel IH]; intros s Ha; cbn [attempts]; [by apply accounted_within|].
  pose proof (attempt_accounts s Ha) as Hp. unfold andThen, accounts in *.
  destruct (one_attempt s) as [s' []]; cbn [fst snd] in *; [by apply IH|done].
Qed.

Lemma request_within sh0 w : within (log (HandleMessages sh0 w)).
Proof using All.
  unfold HandleMessages, acquireReservedAccountSelection.
  assert (A0 : accounted (start sh0 w)).
  { pose proof budget_bounds. unfold Second in *. split; [done|]. split; [cbn; lia|constructor]. }
  pose proof (still_accounted _ _ (quiet_still _ _ (reserve_quiet reserve_fuel 0 [] (TrimSpace (req_Model req)) (start sh0 w))) A0) as A1.
  destruct (reserve_quiet reserve_fuel 0 [] (TrimSpace (req_Model req)) (start sh0 w)) as [W1 _].
  destruct (reserve _ _ _ _ _) as [s [[[[cl account] handle] tracked]|e]]; cbn [fst] in A1, W1.
  2: { by apply (accounted_within s). }
  injection W1 as _ _ _ W1.
  set (s1 := s <| apiClient := cl |> <| currentAccount := account |> <| releaseClient := handle |>
               <| trackedAccountID := tracked |>).
  assert (Hd : forall s, within (log s) -> within (log (deferred s))).
  { intros s0 [Hb Hw]. assert (St : still s0 (deferred s0)).
    { unfold deferred. set (s2 := release_handle _ _). transitivity s2; [|by apply same_still].
      apply quiet_still. etransitivity; [apply release_tracked_quiet|apply release_handle_quiet]. }
    destruct St as (_ & _ & _ & l & L & C). destruct (calm_charges l C) as [C1 C2]. unfold within, charges in *.
    rewrite L, sumZ_app, C1, Z.add_0_r. split; [done|by apply Forall_app]. }
  destruct (_ && _); [apply Hd; by apply (accounted_within s)|].
  change (log (on_sh ?f ?x)) with (log x). apply Hd. unfold run_request.
  match goal with |- context [attempts loop_fuel ?s2] =>
    pose proof (attempts_within loop_fuel s2) as Hw; destruct (attempts loop_fuel s2) as [s3 go] end.
  cbn [fst] in Hw. assert (W3 : within (log s3)).
  { apply Hw. destruct A1 as (E & Hb & Hok). pose proof budget_bounds. unfold Second in *.
    unfold accounted. change (sharedRefusalWaited (_ <| sharedRefusalWaited := 0 |>)) with 0.
    change (log (_ <| sharedRefusalWaited := 0 |>)) with (log s). split_and!; [|lia|lia|done].
    rewrite E. exact W1. }
  by destruct (_ || _).
Qed.
End Waits.

(** * What a request promises *)

(** C12: a request ends. It sends at most one attempt more than the configured
    retries, the loop stops by itself, and where the accounts in sight are among
    [pool] ids the selection loop does too, whatever other requests do meanwhile. *)
Theorem request_terminates `{!AccountStoreLaws S} (U : list Z) sh0 w :
  (forall n w, known U w -> known U (others env n w)) -> (length U <= pool)%nat -> known U w ->
  stuck (HandleMessages sh0 w) = false /\
  (forall s, retriesRemaining s = Z.max 0 (MaxRetries h) -> (attempts loop_fuel s).2 = false) /\
  (sends (log (HandleMessages sh0 w)) <= Datatypes.S (Z.to_nat (MaxRetries h)))%nat.
Proof.
  intros Ho Hp Hk. split; [by apply (request_unstuck U)|]. split; [|apply request_sends].
  intros s Hs. apply attempts_end; unfold loop_fuel; lia.
Qed.

(** C13: everything a request takes it gives back. It never holds two slots, it holds
    two clients only while it switches, and each attempt is sent under the slot of
    the very account it is sent with and with a client that has not been given
    back; when the request is over neither slot nor client is left, whichever way
    it ended. *)
Theorem resources_returned `{!AccountStoreLaws S} sh0 w :
  (forall n w, well_placed (lb w) -> well_placed (lb (others env n w)) /\ ids_stay (lb w) (lb (others env n w))) ->
  well_placed (lb w) ->
  exists n, held_run (log (HandleMessages sh0 w)) = Some (mkHeld 0 [] n).
Proof. intros Ho Hw. by apply request_returns. Qed.

(** Every request is answered. Whatever the upstream answers to each attempt,
    whichever accounts are found, whenever the caller leaves and whichever writes
    fail, what a streaming client receives is one complete response or one error:
    the attempts never leave the response open, and never answer it twice. *)
Theorem request_answered sh0 w :
  isStream cfg = true -> openAI cfg = false -> conn sh0 = initialConn ->
  let c := conn (sh (HandleMessages sh0 w)) in
  panicked c = true \/ client_run (wire c) = Some CDone \/ client_run (wire c) = Some CFailed \/ WTorn ∈ wire c.
Proof. intros Hs Hf H0'. by apply request_answered_or. Qed.

(** C14: the time a request waits for a refusal that every account shares stays within
    the configured budget, over all its attempts; a single wait exceeds what it is
    charged by at most a fifth and five seconds, and any other wait is at most
    thirty seconds. *)
Theorem shared_waits_bounded sh0 w :
  - 10 ^ 12 <= RetryDelay h <= 10 ^ 12 -> SharedRefusalWaitBudgetMs h <= 10 ^ 12 ->
  let l := log (HandleMessages sh0 w) in
  0 <= charges l <= SharedRefusalWaitBudget (SharedRefusalWaitBudgetMs h) /\ Forall wait_ok l.
Proof. intros Hd Hb. by apply request_within. Qed.
End Request.

(** * Witnesses

    A store that is a list of rows, two WorkBuddy accounts and an upstream that
    first refuses with a rate limit. *)
#[local] Existing Instance print_all.
#[local] Instance RowsOps : AccountStoreOps (list Account) := {|
  so_GetEnabledAccounts rows := Ok rows;
  so_UpdateAccount _ acc rows := (fun row : Account => if ID row =? ID acc then acc else row) <$> rows;
  so_ClaimGrokPaidQuotaProbe _ _ rows := (true, rows);
|}.
#[local] Instance RowsModels : ModelRows (list Account) := {| so_ModelBillingTier _ _ _ := None |}.

Lemma rows_update U now (acc : Account) (rows : list Account) : ID acc ∈ U -> store_known U rows ->
  store_known U (so_UpdateAccount now acc rows).
Proof.
  intros Ha Hk accounts [= <-]. apply Forall_fmap. eapply Forall_impl; [by apply Hk|].
  intros row Hrow. cbn. by destruct (ID row =? ID acc).
Qed.
#[local] Instance RowsLaws : AccountStoreLaws (list Account) :=
  {| update_known := rows_update; claim_known _ _ _ _ Hk := Hk |}.

Definition two_rows : list Account :=
  [sample_account 1 "workbuddy" no_status; sample_account 2 "workbuddy" no_status].
Definition two_accounts : World (list Account) := mkWorld (NewWithCacheTTL (5 * Second)) two_rows.
Definition plain_handler : Handler := mkHandler true false Limited 3 100 0 0.
Definition plain_request : Request := mkRequest "workbuddy" true "glm-5" "glm-5" true.
(** The upstream refuses with [refusal] until the [n]-th event, then answers. *)
Definition refusing (refusal : GoError) (n : nat) : Env (S := list Account) :=
  mkEnv (fun _ => 10 ^ 18) (fun _ w => w) (fun _ _ => ∅) (fun _ _ _ => true) (fun _ _ => 0%nat) (fun _ _ => true)
    (fun ev => if (ev <? n)%nat then ([], Some refusal) else (conversation, None))
    (fun _ => false) "context canceled" (fun _ => true) (fun _ => 0).
#[local] Instance Env_eta : Eta (Env (S := list Account)) := fun e => mkEnv (clock e) (others e) (conns e) (try_slot e)
  (pick e) (factory e) (upstream e) (canceled e) (ctx_error e) (sleeps e) (draw e).
Definition throttled_once : Env (S := list Account) := refusing (mkError "HTTP 429 too many requests" (Some (2 * Second))) 6.
Definition sample_run (env : Env (S := list Account)) : Req (S := list Account) :=
  HandleMessages plain_cfg (fun _ => false) (fun _ => 1%nat) plain_handler plain_request env 3 newStreamHandler two_accounts.

(** The throttled account is left: its slot and its client go back, the second
    account answers. *)
Example throttled_run :
  log (sample_run throttled_once) =
    [ClientTaken 0; SlotTaken 1; Sent 1 (Some 0%nat) 1; SlotGiven 1; ClientTaken 1; SlotTaken 2; ClientGiven 0;
     Waited 0 (2 * Second); Sent 2 (Some 1%nat) 2; SlotGiven 2; ClientGiven 1] /\
  text_of (wire (conn (sh (sample_run throttled_once)))) = "Hello".
Proof. vm_compute. split; reflexivity. Qed.

(** A queue every account shares is waited out with the slot given up. *)
Definition queued_always : Env (S := list Account) :=
  refusing (mkError queued_payload (Some (25 * Second))) 100.
Example queued_run :
  log (sample_run queued_always) =
    [ClientTaken 0; SlotTaken 1; Sent 1 (Some 0%nat) 1; SlotGiven 1; Waited 1562500000 1562500000; SlotTaken 1;
     Sent 1 (Some 0%nat) 1; SlotGiven 1; Waited 6250000000 6250000000; SlotTaken 1;
     Sent 1 (Some 0%nat) 1; SlotGiven 1; Waited 18750000000 18750000000; SlotTaken 1;
     Sent 1 (Some 0%nat) 1; SlotGiven 1; ClientGiven 0] /\
  wire (conn (sh (sample_run queued_always))) =
    [WHTTPError 429 "upstream_queue" (PublicMessage queued_payload) (25 * Second)].
Proof. vm_compute. split; reflexivity. Qed.

(** Where the refusal carries no hint and no delay is configured, the shared
    refusal is retried at once and moves no budget. *)
Example hintless_gate :
  let h := mkHandler true false Limited 3 0 0 0 in
  let env := refusing (mkError queued_payload None) 100 in
  let s := HandleMessages plain_cfg (fun _ => false) (fun _ => 1%nat) h plain_request env 3 newStreamHandler two_accounts in
  sends (log s) = 4%nat /\ sharedRefusalWaited s = 0.
Proof. vm_compute. split; reflexivity. Qed.

Lemma two_known : known [0; 1; 2] two_accounts.
Proof.
  split; [intros p; by left|]. intros accounts [= <-].
  repeat constructor; vm_compute; set_solver.
Qed.

Lemma request_terminates_witness :
  stuck (sample_run throttled_once) = false /\ (sends (log (sample_run throttled_once)) <= 4)%nat.
Proof.
  destruct (request_terminates plain_cfg (fun _ => false) (fun _ => 1%nat) plain_handler plain_request throttled_once 3
    [0; 1; 2] newStreamHandler two_accounts) as (H1 & _ & H3); [done|cbn; lia|exact two_known|].
  split; [exact H1|exact H3].
Defined.

Lemma two_placed : well_placed (lb two_accounts).
Proof. split; [constructor|done]. Qed.

Lemma resources_returned_witness :
  exists n, held_run (log (sample_run queued_always)) = Some (mkHeld 0 [] n).
Proof.
  apply (resources_returned plain_cfg (fun _ => false) (fun _ => 1%nat) plain_handler plain_request queued_always 3
    newStreamHandler two_accounts); [|exact two_placed]. intros n w Hw. split; [exact Hw|reflexivity].
Defined.

(** A response that breaks off after its first words is not tried again. *)
Definition broken_off : Env (S := list Account) :=
  throttled_once <| upstream := fun _ => ([says "text-delta" "Hel"], Some (mkError "connection reset" None)) |>.
Lemma request_answered_witness :
  client_run (wire (conn (sh (sample_run throttled_once)))) = Some CDone /\
  client_run (wire (conn (sh (sample_run broken_off)))) = Some CFailed /\ sends (log (sample_run broken_off)) = 1%nat.
Proof.
  split.
  - destruct (request_answered plain_cfg (fun _ => false) (fun _ => 1%nat) plain_handler plain_request throttled_once 3
      newStreamHandler two_accounts) as [Hp|[Hd|[Hf|Ht]]];
      [done|done|done|by vm_compute in Hp|exact Hd|by vm_compute in Hf|by vm_compute].
  - vm_compute. split; reflexivity.
Defined.

Lemma shared_waits_bounded_witness :
  charges (log (sample_run queued_always)) = 26562500000 /\
  0 <= charges (log (sample_run queued_always)) <= 60 * Second.
Proof.
  split; [by vm_compute|].
  apply (shared_waits_bounded plain_cfg (fun _ => false) (fun _ => 1%nat) plain_handler plain_request queued_always 3
    newStreamHandler two_accounts); cbn; lia.
Defined.
