(* ===== verification/ModelPolicy.v ===== *)
(** * Model policy (internal/modelpolicy)

    The names of Grok models: the identifiers retired from the channel, the names
    clients see, and the reasoning levels each model accepts. *)

From Stdlib Require Import Ascii.
From stdpp Require Import base numbers list strings.
From S2P Require Import Prelude GoLib.

Local Open Scope orchids_scope.

Definition DeprecatedGrokModelIDs : list string := [
  "grok-4.20-0309-non-reasoning"; "grok-4.20-0309"; "grok-4.20-0309-reasoning";
  "grok-4.20-0309-non-reasoning-super"; "grok-4.20-0309-super"; "grok-4.20-0309-reasoning-super";
  "grok-4.20-0309-non-reasoning-heavy"; "grok-4.20-0309-heavy"; "grok-4.20-0309-reasoning-heavy";
  "grok-4.20-multi-agent-0309"; "grok-4.20-fast"; "grok-4.20-auto"; "grok-4.20-expert"; "grok-4.20-heavy";
  "grok-4.3-beta"; "grok-build-0.1"; "grok-imagine-image-pro"; "grok-3"; "grok-3-thinking"; "grok-3-fast";
  "grok-4"; "grok-4-mini"; "grok-4-fast"; "grok-4-heavy"; "grok-4.1"; "grok-4.1-mini"; "grok-4.1-fast";
  "grok-4.1-thinking"; "grok-4-1-thinking"; "grok-4-1-thinking-1129"; "grok-4.2"; "grok-4-2"; "grok-4.20-beta";
  "grok-4-20-beta"; "grok-4.20-reasoning"; "grok-4.20-non-reasoning"; "grok-4.20-multi-agent"; "grok-420";
  "grok-code-fast"; "grok-code-fast-1"; "grok-imagine-1.0"; "grok-imagine-1.0-fast"; "grok-imagine-1.0-edit";
  "grok-imagine-1.0-video"; "grok-2"; "grok-2.1"; "grok-3.1"; "grok-4.21"].

Definition IsDeprecatedGrokModelID (modelID : string) : bool :=
  bool_decide (ToLower (TrimSpace modelID) ∈ DeprecatedGrokModelIDs).

Definition IsVisibleGrokModel (modelID : string) (verified : bool) : bool :=
  if IsDeprecatedGrokModelID modelID then false else verified.

(** ** Public names *)
Definition providerPublicPrefixes : list string := ["build/"; "grok_build/"].

Definition StripProviderPublicPrefix (id : string) : string * bool :=
  let normalized := ToLower (TrimSpace id) in
  match find (HasPrefix normalized) providerPublicPrefixes with
  | Some prefix => (TrimSpace (TrimPrefix normalized prefix), true)
  | None => (normalized, false)
  end.

Definition ExternalPublicID (internalID : string) : string :=
  let id := ToLower (TrimSpace internalID) in
  match find (HasPrefix id) providerPublicPrefixes with
  | Some prefix => TrimSpace (TrimPrefix id prefix)
  | None => id
  end.

(** ** Reasoning levels *)
Definition reasoningEffortCapabilities : list (string * list string) := [
  ("grok-4.5", ["low"; "medium"; "high"]);
  ("grok-4.6", ["low"; "medium"; "high"; "xhigh"]);
  ("grok-4.7", ["low"; "medium"; "high"; "xhigh"]);
  ("grok-4.3", ["none"; "low"; "medium"; "high"]);
  ("grok-build-0.1", ["none"]);
  ("grok-4.20-0309-reasoning", ["low"; "medium"; "high"]);
  ("grok-4.20-0309-non-reasoning", ["none"]);
  ("grok-4.20-multi-agent-0309", ["low"; "medium"; "high"; "xhigh"]);
  ("grok-3-mini", ["low"; "medium"; "high"]);
  ("grok-3-mini-fast", ["low"; "medium"; "high"]);
  ("grok-composer-2.5-fast", ["none"])].

Definition GrokModelSlug (publicID : string) : string :=
  TrimPrefix (TrimPrefix (ToLower (TrimSpace publicID)) "build/") "grok_build/".

Definition IsGrokComposerModel (publicID : string) : bool := HasPrefix (GrokModelSlug publicID) "grok-composer-".

Definition SupportedReasoningEfforts (publicID : string) : list string :=
  match find (fun row => String.eqb row.1 (GrokModelSlug publicID)) reasoningEffortCapabilities with
  | Some (_, levels) => levels
  | None => ["none"]
  end.

Definition SupportsReasoningEffort (publicID effort : string) : bool :=
  existsb (String.eqb (ToLower (TrimSpace effort))) (SupportedReasoningEfforts publicID).

(** * Lemmas *)
Lemma ExternalPublicID_strip id : ExternalPublicID id = (StripProviderPublicPrefix id).1.
Proof. unfold ExternalPublicID, StripProviderPublicPrefix. by destruct (find _ _). Qed.

(** A qualifier in front of a retired name hides its retirement: the check wants
    the stripped name. *)
Example qualified_retired :
  (IsDeprecatedGrokModelID "Grok-3 ", IsDeprecatedGrokModelID "build/grok-3",
   IsDeprecatedGrokModelID (ExternalPublicID " Build/grok-3"), IsVisibleGrokModel "grok-4.5" true) = (true, false, true, true).
Proof. reflexivity. Qed.

(** Every model offers at least one level, and a Composer model only "none". *)
Lemma SupportedReasoningEfforts_nonempty id : SupportedReasoningEfforts id <> [].
Proof.
  unfold SupportedReasoningEfforts. destruct (find _ _) as [[k levels]|] eqn:E; [|done].
  apply find_some in E as [E _]. intros ->. cbn in E. repeat destruct E as [E|E]; simplify_eq. done.
Qed.

Lemma composer_rows :
  forallb (fun row => implb (HasPrefix row.1 "grok-composer-") (bool_decide (row.2 = ["none"])))
    reasoningEffortCapabilities = true.
Proof. by vm_compute. Qed.

Lemma composer_none id : IsGrokComposerModel id = true -> SupportedReasoningEfforts id = ["none"].
Proof.
  unfold IsGrokComposerModel, SupportedReasoningEfforts. intros Hp.
  destruct (find _ _) as [[k levels]|] eqn:E; [|done]. apply find_some in E as [E Hk%String.eqb_eq].
  pose proof composer_rows as F. rewrite forallb_forall in F. specialize (F _ E). cbn [fst snd] in *.
  rewrite Hk, Hp in F. by apply bool_decide_eq_true in F.
Qed.
