(* ===== verification/Models.v ===== *)
(** * Model rows (internal/store/model.go, redis_models.go, store_models.go,
    redis_scripts.go: listModelsScript, reconcileDiscoveredModelsScript, and the
    start-up maintenance of store.go)

    The public models of each channel: the row and its availability state, the two
    lookup indexes beside the rows, and the reconciliation that publishes what an
    upstream catalogue offers. The indexes may be stale; a lookup checks what it
    finds through them and falls back to a scan. The order in which Redis returns
    the members of a set is a parameter. A row is kept as its record: its JSON text
    is modelled for the availability state only. *)

From Stdlib Require Import Ascii.
From stdpp Require Import base numbers list strings gmap sorting pretty.
From S2P Require Import Prelude GoLib Json Marshal Tools ModelPolicy.

Local Open Scope orchids_scope.

(** ** The row *)
Definition ModelStatusAvailable : string := "available".
Definition ModelStatusMaintenance : string := "maintenance".
Definition ModelStatusOffline : string := "offline".

Definition ModelStatus_Enabled (s : string) : bool := String.eqb s ModelStatusAvailable.

Definition status_word (s : string) : string :=
  if existsb (String.eqb s) ["available"; "enabled"; "true"; "on"; "1"] then ModelStatusAvailable
  else if existsb (String.eqb s) ["maintenance"; "maint"] then ModelStatusMaintenance
  else ModelStatusOffline.

Definition ModelStatus_UnmarshalJSON (data : string) : string :=
  let data := TrimSpace data in
  if String.eqb data EmptyString || String.eqb data "null" then ModelStatusOffline
  else match Unmarshal data with
       | Some (JBool b) => if b then ModelStatusAvailable else ModelStatusOffline
       | Some (JStr str) => status_word (ToLower (TrimSpace str))
       | _ => ModelStatusOffline
       end.

Definition ModelStatus_MarshalJSON (s : string) : string :=
  json_string (if String.eqb s EmptyString then ModelStatusOffline else s).

(** [CreatedAt] is [None] in a row stored before the field existed; Go reads it as
    the zero time. *)
Record Model := mkModel {
  ID : string;
  Channel : string;
  ModelID : string;
  Name : string;
  Status : string;
  Verified : bool;
  IsDefault : bool;
  SortOrder : Z;
  Provider : string;
  UpstreamModel : string;
  Capabilities : list string;
  BillingTier : string;
  BillingSource : string;
  Origin : string;
  BoundAccountIDs : list Z;
  CreatedAt : option Time
}.
#[export] Instance Model_eta : Eta Model := fun m => mkModel (ID m) (Channel m) (ModelID m) (Name m) (Status m)
  (Verified m) (IsDefault m) (SortOrder m) (Provider m) (UpstreamModel m) (Capabilities m) (BillingTier m)
  (BillingSource m) (Origin m) (BoundAccountIDs m) (CreatedAt m).

Definition created (m : Model) : Time := default zero_time (CreatedAt m).

(** [slices.CompactFunc] with equality: of a run of equal elements the first. *)
Fixpoint compact (l : list Z) : list Z :=
  match l with
  | x :: (y :: _) as rest => if (x =? y)%Z then compact rest else x :: compact rest
  | _ => l
  end.

Definition string_le (s t : string) : Prop := bytes_le s t = true.
#[export] Instance string_le_dec : RelDecision string_le.
Proof. intros s t. unfold string_le. apply _. Defined.

(** The non-empty words of a list in lower case, each once, in order of first
    occurrence. *)
Definition add_word (seen : list string) (value : string) : list string :=
  let value := ToLower (TrimSpace value) in
  if String.eqb value EmptyString || bool_decide (value ∈ seen) then seen else seen ++ [value].

Definition lower_trim (s : string) : string := ToLower (TrimSpace s).

Definition NormalizeRoute (m : Model) : Model :=
  let origin := lower_trim (Origin m) in
  m <| Provider := lower_trim (Provider m) |> <| UpstreamModel := TrimSpace (UpstreamModel m) |>
    <| BillingTier := lower_trim (BillingTier m) |> <| BillingSource := lower_trim (BillingSource m) |>
    <| Origin := if String.eqb origin EmptyString then "manual" else origin |>
    <| Capabilities := merge_sort string_le (foldl add_word [] (Capabilities m)) |>
    <| BoundAccountIDs := compact (merge_sort Z.le (BoundAccountIDs m)) |>.

Definition SupportsCapability (m : option Model) (capability : string) : bool :=
  match m with
  | None => true
  | Some m => bool_decide (Capabilities m = []) || bool_decide (lower_trim capability ∈ Capabilities m)
  end.

Definition AllowsAccount (m : option Model) (accountID : Z) : bool :=
  match m with
  | None => true
  | Some m => bool_decide (BoundAccountIDs m = []) || bool_decide (accountID ∈ BoundAccountIDs m)
  end.

(** ** Redis *)
Record Db := mkDb {
  rows : gmap string Model;
  ids : gset string;
  next_id : Z;
  model_id_map : gmap string string;
  channel_map : gmap string string
}.
#[export] Instance Db_eta : Eta Db := fun d => mkDb (rows d) (ids d) (next_id d) (model_id_map d) (channel_map d).

Definition empty_db : Db := mkDb ∅ ∅ 0 ∅ ∅.

(** What decoding a stored row yields: the state goes through its JSON form. *)
Definition read_row (m : Model) : Model :=
  m <| Status := ModelStatus_UnmarshalJSON (ModelStatus_MarshalJSON (Status m)) |>.

Fixpoint map_bytes (f : ascii -> ascii) (s : string) : string :=
  match s with EmptyString => EmptyString | String a s' => String (f a) (map_bytes f s') end.
Definition dash (a : ascii) : ascii := if is_byte 95 a || is_byte 32 a then ascii_of_nat 45 else a.

Definition normalizeModelChannelKey (channel : string) : string := map_bytes dash (lower_trim channel).

Definition modelChannelIndexKey (channel modelID : string) : string :=
  normalizeModelChannelKey channel +:+ "|" +:+ TrimSpace modelID.

Definition GetModel (id : string) (db : Db) : result Model string :=
  match rows db !! id with None => Err "no rows" | Some m => Ok (read_row m) end.

(** [strconv.Atoi]. *)
Definition Atoi (s : string) : option Z :=
  let '(neg, d) := match s with
                   | String a s' => if is_byte 45 a then (true, s') else if is_byte 43 a then (false, s') else (false, s)
                   | EmptyString => (false, s)
                   end in
  if String.eqb d EmptyString then None
  else
    v ← digits_value 0 d;
    let z := if neg : bool then (- v)%Z else v in
    if ((min_int64 <=? z) && (z <=? max_int64))%Z then Some z else None.

Definition id_before (m1 m2 : Model) : bool :=
  match Atoi (ID m1), Atoi (ID m2) with
  | Some a, Some b => (a <? b)%Z
  | _, _ => negb (bytes_le (ID m2) (ID m1))
  end.
Definition id_order (m1 m2 : Model) : Prop := id_before m2 m1 = false.
#[export] Instance id_order_dec : RelDecision id_order.
Proof. intros m1 m2. unfold id_order. apply _. Defined.

Definition set_rows (f : gmap string Model -> gmap string Model) (db : Db) : Db := db <| rows := f (rows db) |>.

(** [pipe.Set] and [pipe.SAdd] of a row. *)
Definition put_row (id : string) (m : Model) (db : Db) : Db :=
  db <| rows := <[id := m]> (rows db) |> <| ids := {[ id ]} ∪ ids db |>.

Definition HSetNX (k v : string) (h : gmap string string) : gmap string string :=
  match h !! k with Some _ => h | None => <[k := v]> h end.

Definition blank (s : string) : bool := String.eqb (TrimSpace s) EmptyString.

Definition stamp (now : Time) (m : Model) : Model :=
  if IsZero (created m) then m <| CreatedAt := Some now |> else m.

Definition with_id (m : Model) (id : string) : Model := m <| ID := id |>.

Definition redis_CreateModel (now : Time) (m : Model) (db : Db) : Model * Db :=
  let n := (next_id db + 1)%Z in
  let m := stamp now (with_id m (fmt_d n)) in
  let db := put_row (ID m) m (db <| next_id := n |>) in
  (m, if blank (ModelID m) then db
      else db <| model_id_map := HSetNX (ModelID m) (ID m) (model_id_map db) |>
              <| channel_map := <[modelChannelIndexKey (Channel m) (ModelID m) := ID m]> (channel_map db) |>).

(** [HGet] with a missing field read as the empty string. *)
Definition HGet (h : gmap string string) (k : string) : string := default EmptyString (h !! k).

Definition redis_UpdateModel (now : Time) (m : Model) (db : Db) : result Model string * Db :=
  let m := stamp now m in
  if String.eqb (ID m) EmptyString then (Err "model id is required", db)
  else
    let prev := match GetModel (ID m) db with Ok p => Some p | Err _ => None end in
    let db' := put_row (ID m) m db in
    let prev_key :=
      match prev with
      | Some p => if blank (ModelID p) then None
                  else let key := modelChannelIndexKey (Channel p) (ModelID p) in
                       if String.eqb key (modelChannelIndexKey (Channel m) (ModelID m)) then None else Some key
      | None => None
      end in
    let db' := match prev_key with
               | Some key => db' <| channel_map := delete key (channel_map db') |>
               | None => db'
               end in
    (Ok m,
     if blank (ModelID m) then db'
     else
       let current := HGet (model_id_map db) (ModelID m) in
       let ours := String.eqb current EmptyString || String.eqb current (ID m)
                   || match prev with Some p => String.eqb current (ID p) | None => false end in
       db' <| model_id_map := if ours then <[ModelID m := ID m]> (model_id_map db') else model_id_map db' |>
           <| channel_map := <[modelChannelIndexKey (Channel m) (ModelID m) := ID m]> (channel_map db') |>).

Definition DeleteModel (id : string) (db : Db) : Db :=
  if String.eqb id EmptyString then db
  else
    let db' := db <| rows := delete id (rows db) |> <| ids := ids db ∖ {[ id ]} |> in
    match GetModel id db with
    | Ok m =>
        if blank (ModelID m) then db'
        else db' <| model_id_map := if String.eqb (HGet (model_id_map db) (ModelID m)) id
                                    then delete (ModelID m) (model_id_map db') else model_id_map db' |>
                 <| channel_map := delete (modelChannelIndexKey (Channel m) (ModelID m)) (channel_map db') |>
    | Err _ => db'
    end.

(** ** Reconciliation *)
Record ModelReconcileOptions := mkReconcileOptions { Prune : bool; ProviderScope : string }.
Record ModelReconcileResult := mkReconcileResult {
  AddedModelIDs : list string; UpdatedModelIDs : list string;
  DeletedModelIDs : list string; ProtectedIDs : list string }.
Definition Added (r : ModelReconcileResult) : nat := length (AddedModelIDs r).
Definition Updated (r : ModelReconcileResult) : nat := length (UpdatedModelIDs r).
Definition Deleted (r : ModelReconcileResult) : nat := length (DeletedModelIDs r).
Definition Protected (r : ModelReconcileResult) : nat := length (ProtectedIDs r).

Definition prepared_row (now : Time) (channel modelID : string) (input : Model) : Model :=
  NormalizeRoute (stamp now
    (input <| ID := EmptyString |> <| Channel := TrimSpace channel |> <| ModelID := modelID |> <| Origin := "discovery" |>)).

(** The rows of the payload; a missing row, a blank id or a repeated one refuses the
    whole snapshot. *)
Fixpoint prepare_rows `{UnicodeTable} (now : Time) (channel : string) (seen : list string) (models : list (option Model))
    : result (list Model) string :=
  match models with
  | [] => Ok []
  | None :: _ => Err "discovered model is nil"
  | Some input :: rest =>
      let modelID := TrimSpace (ModelID input) in
      if String.eqb modelID EmptyString then Err "discovered model id is required"
      else if bool_decide (modelID ∈ seen) then Err ("duplicate discovered model id " +:+ Quote modelID)
      else let? rows := prepare_rows now channel (modelID :: seen) rest in
           Ok (prepared_row now channel modelID input :: rows)
  end.

(** [string.lower] of the scripts: ASCII letters only. *)
Definition lua_lower : string -> string := map_bytes lower_byte.
Definition lua_channel (m : Model) : string := map_bytes dash (lua_lower (Channel m)).
Definition lua_origin (m : Model) : string := lua_lower (Origin m).

(** What the script has done so far. *)
Record Script := mkScript {
  s_db : Db;
  s_added : list string;
  s_updated : list string;
  s_deleted : list string;
  s_protected : list string
}.
#[export] Instance Script_eta : Eta Script := fun s => mkScript (s_db s) (s_added s) (s_updated s) (s_deleted s) (s_protected s).

Definition empty (s : string) : bool := String.eqb s EmptyString.
Arguments empty : simpl never.

(** An operator's row that the catalogue also lists. An empty [omitempty] field of
    the observation is absent from the payload. *)
Definition promoted (cur inc : Model) : Model :=
  let pick (own seen : string) := if empty own && negb (empty seen) then seen else own in
  let newer (own seen : string) := if empty seen then own else seen in
  cur <| Verified := true |>
      <| Name := if empty (Name cur) || String.eqb (Name cur) (ModelID inc) then Name inc else Name cur |>
      <| Provider := pick (Provider cur) (Provider inc) |> <| UpstreamModel := pick (UpstreamModel cur) (UpstreamModel inc) |>
      <| BillingTier := newer (BillingTier cur) (BillingTier inc) |>
      <| BillingSource := newer (BillingSource cur) (BillingSource inc) |>.

Definition replaced (id : string) (cur inc : Model) : Model :=
  inc <| ID := id |> <| CreatedAt := match CreatedAt cur with Some t => Some t | None => CreatedAt inc end |>.

Section Redis.
(** The order in which SMEMBERS returns a set. *)
Context (smembers : gset string -> list string).

Definition listed (db : Db) : list (string * Model) :=
  omap (fun id => pair id <$> rows db !! id) (smembers (ids db)).

Definition ListModels (db : Db) : list Model := merge_sort id_order ((fun row => read_row row.2) <$> listed db).

(** The rows of a channel by model id; of two with one id the later one. *)
Definition existing_rows (channel : string) (db : Db) : gmap string (string * Model) :=
  foldl (fun found row => if String.eqb (lua_channel row.2) channel then <[ModelID row.2 := row]> found else found)
    ∅ (listed db).

Definition owned (scope : string) (prune : bool) (cur : Model) : bool :=
  (negb (empty scope) && prune) || String.eqb (lua_origin cur) "discovery".

Definition publish_row (channel scope : string) (prune : bool) (existing : gmap string (string * Model))
    (s : Script) (inc : Model) : Script :=
  let db := s_db s in
  let index id (h : gmap string string) := <[channel +:+ "|" +:+ ModelID inc := id]> h in
  match existing !! ModelID inc with
  | Some (id, cur) =>
      let ours := owned scope prune cur in
      s <| s_db := db <| rows := <[id := if ours then replaced id cur inc else promoted cur inc]> (rows db) |>
                      <| channel_map := index id (channel_map db) |> |>
        <| s_updated := s_updated s ++ [ModelID inc] |>
        <| s_protected := if ours then s_protected s else s_protected s ++ [ModelID inc] |>
  | None =>
      let n := (next_id db + 1)%Z in
      let id := fmt_d n in
      s <| s_db := put_row id (with_id inc id) (db <| next_id := n |>)
             <| model_id_map := HSetNX (ModelID inc) id (model_id_map db) |>
             <| channel_map := index id (channel_map db) |> |>
        <| s_added := s_added s ++ [ModelID inc] |>
  end.

Definition HDelIf (k v : string) (h : gmap string string) : gmap string string :=
  if bool_decide (h !! k = Some v) then delete k h else h.

Definition prune_row (channel scope : string) (wanted : list string) (s : Script)
    (entry : string * (string * Model)) : Script :=
  let '(model_id, (id, cur)) := entry in
  let db := s_db s in
  if bool_decide (model_id ∈ wanted) then s
  else if negb (empty scope || String.eqb (lua_lower (Provider cur)) scope) then s
  else if owned scope true cur then
    s <| s_db := db <| rows := delete id (rows db) |> <| ids := ids db ∖ {[ id ]} |>
           <| model_id_map := HDelIf model_id id (model_id_map db) |>
           <| channel_map := HDelIf (channel +:+ "|" +:+ model_id) id (channel_map db) |> |>
      <| s_deleted := s_deleted s ++ [model_id] |>
  else if empty (lua_origin cur) || String.eqb (lua_origin cur) "manual"
  then s <| s_protected := s_protected s ++ [model_id] |>
  else s.

Definition reconcileDiscoveredModelsScript (channel scope : string) (prune : bool) (incoming : list Model) (db : Db) : Script :=
  let existing := existing_rows channel db in
  let s := foldl (publish_row channel scope prune existing) (mkScript db [] [] [] []) incoming in
  if prune then foldl (prune_row channel scope (ModelID <$> incoming)) s (map_to_list existing) else s.

Definition ReconcileDiscoveredModels `{UnicodeTable} (now : Time) (channel : string) (models : list (option Model))
    (options : ModelReconcileOptions) (db : Db) : result ModelReconcileResult string * Db :=
  let channelKey := normalizeModelChannelKey channel in
  if String.eqb channelKey EmptyString then (Err "model channel is required", db)
  else
    match prepare_rows now channel [] models with
    | Err e => (Err e, db)
    | Ok incoming =>
        let s := reconcileDiscoveredModelsScript channelKey (lua_lower (lower_trim (ProviderScope options)))
                   (Prune options) incoming db in
        let sorted l := merge_sort string_le l in
        (Ok (mkReconcileResult (sorted (s_added s)) (sorted (s_updated s)) (sorted (s_deleted s)) (sorted (s_protected s))),
         s_db s)
    end.

(** ** Lookups *)
Definition is_route (channel modelID : string) (m : Model) : bool :=
  String.eqb (normalizeModelChannelKey (Channel m)) (normalizeModelChannelKey channel) && String.eqb (ModelID m) modelID.

Definition route_good (channel modelID : string) (m : Model) : bool :=
  String.eqb (TrimSpace (ModelID m)) modelID
  && String.eqb (normalizeModelChannelKey (Channel m)) (normalizeModelChannelKey channel).

(** A lookup: the row the index names when it is the one asked for, else the first
    of the listing, which then repairs the index. *)
Definition index_hit (h : gmap string string) (key : string) (good : Model -> bool) (db : Db) : option Model :=
  let id := HGet h key in
  if empty id then None
  else match GetModel id db with Ok m => if good m then Some m else None | Err _ => None end.

Definition GetModelByModelID (modelID : string) (db : Db) : result Model string * Db :=
  let modelID := TrimSpace modelID in
  if empty modelID then (Err "model not found", db)
  else
    match index_hit (model_id_map db) modelID (fun m => String.eqb (TrimSpace (ModelID m)) modelID) db with
    | Some m => (Ok m, db)
    | None =>
        match find (fun m => String.eqb (ModelID m) modelID) (ListModels db) with
        | Some m => (Ok m, db <| model_id_map := <[modelID := ID m]> (model_id_map db) |>)
        | None => (Err "model not found", db)
        end
    end.

Definition GetModelByChannelAndModelID (channel modelID : string) (db : Db) : result Model string * Db :=
  let modelID := TrimSpace modelID in
  if empty modelID then (Err "model not found", db)
  else
    let key := modelChannelIndexKey channel modelID in
    match index_hit (channel_map db) key (route_good channel modelID) db with
    | Some m => (Ok m, db)
    | None =>
        match find (is_route channel modelID) (ListModels db) with
        | Some m => (Ok m, db <| channel_map := <[key := ID m]> (channel_map db) |>)
        | None => (Err "model not found", db)
        end
    end.

(** ** The store facade *)
Definition other_default (m : Model) (excludeSelf : bool) (other : Model) : bool :=
  negb (negb (String.eqb (Channel other) (Channel m)) || (excludeSelf && String.eqb (ID other) (ID m)) || negb (IsDefault other)).

Definition clear_default (now : Time) (db : Db) (other : Model) : Db :=
  (redis_UpdateModel now (other <| IsDefault := false |>) db).2.

Definition clearOtherModelDefaults (now : Time) (m : Model) (excludeSelf : bool) (db : Db) : Db :=
  if negb (IsDefault m) then db
  else foldl (clear_default now) db (filter (fun other => other_default m excludeSelf other = true) (ListModels db)).

Definition CreateModel (now : Time) (m : Model) (db : Db) : Model * Db :=
  let m := NormalizeRoute m in
  redis_CreateModel now m (clearOtherModelDefaults now m false db).

Definition UpdateModel (now : Time) (m : Model) (db : Db) : result Model string * Db :=
  let m := NormalizeRoute m in
  redis_UpdateModel now m (clearOtherModelDefaults now m true db).

(** ** Start-up *)
Definition applyGrokRouteDefaults (m : Model) : Model :=
  m <| Origin := "catalog" |> <| Provider := "build" |>
    <| UpstreamModel := TrimPrefix (lower_trim (ModelID m)) "build/" |>
    <| Capabilities := ["chat"; "messages"; "responses"] |>.

Definition backfillGrokRouteMetadata (now : Time) (db : Db) : Db :=
  let step db m :=
    if negb (EqualFold (TrimSpace (Channel m)) "grok") then db
    else if negb (empty (Provider m)) && negb (empty (UpstreamModel m)) && negb (bool_decide (Capabilities m = [])) then db
    else (UpdateModel now (applyGrokRouteDefaults m) db).2 in
  foldl step db (ListModels db).

(** The retired identifiers of the channel "Grok", in the order of a Go map. *)
Definition cleanupDeprecatedModelIDs (order : list string) (db : Db) : Db :=
  let step db modelID :=
    match GetModelByChannelAndModelID "Grok" modelID db with
    | (Ok m, db) => DeleteModel (ID m) db
    | (Err _, db) => db
    end in
  foldl step db order.

Definition deprecatedModelIDs : list string := DeprecatedGrokModelIDs ++ ["grok-4.3"].

Definition prepareModels (now : Time) (order : list string) (db : Db) : Db :=
  backfillGrokRouteMetadata now (cleanupDeprecatedModelIDs order db).
End Redis.

(** * Lemmas

    A sound store: each row under its own id, the id set beside it, and every id
    one the counter has issued. *)
Definition issued (n : Z) (id : string) : Prop := exists k, (0 < k <= n)%Z /\ id = fmt_d k.
Record sound (db : Db) : Prop := {
  sound_counter : (0 <= next_id db)%Z;
  sound_key : forall id m, rows db !! id = Some m -> ID m = id;
  sound_ids : ids db = dom (rows db);
  sound_issued : forall id m, rows db !! id = Some m -> issued (next_id db) id;
}.

Lemma empty_sound : sound empty_db.
Proof. by split. Qed.

Lemma issued_nonempty n id : issued n id -> empty id = false.
Proof. intros (k & _ & ->). apply String.eqb_neq, fmt_d_nonempty. Qed.

Lemma issued_mono n n' id : (n <= n')%Z -> issued n id -> issued n' id.
Proof. intros Hn (k & ? & ->). exists k. split; [lia|done]. Qed.

Lemma fmt_d_inj a b : fmt_d a = fmt_d b -> a = b.
Proof. apply (inj pretty). Qed.

Lemma issued_fresh db k m : sound db -> (next_id db < k)%Z -> rows db !! fmt_d k = Some m -> False.
Proof. intros Hs Hk Hm. apply (sound_issued _ Hs) in Hm as (j & ? & E%fmt_d_inj). lia. Qed.

#[local] Ltac eqbs := repeat match goal with
  | H : String.eqb _ _ = true |- _ => apply String.eqb_eq in H
  | H : String.eqb _ _ = false |- _ => apply String.eqb_neq in H
  | H : empty _ = false |- _ => apply String.eqb_neq in H
  | H : empty _ = true |- _ => apply String.eqb_eq in H
  | H : andb _ _ = true |- _ => apply andb_true_iff in H as [? ?]
  end.

(** A change of the rows that keeps the keys, and one that touches no row. *)
Lemma sound_put db id m : sound db -> ID m = id -> issued (next_id db) id -> sound (put_row id m db).
Proof.
  intros Hs He Hi. split; cbn; [by apply sound_counter|..].
  - intros i m' [[-> ->]|[_ H]]%lookup_insert_Some; [done|by apply (sound_key _ Hs)].
  - rewrite dom_insert_L. by rewrite (sound_ids _ Hs).
  - intros i m' [[-> ->]|[_ H]]%lookup_insert_Some; [done|by apply (sound_issued _ Hs) in H].
Qed.

Lemma sound_del db id : sound db -> sound (db <| rows := delete id (rows db) |> <| ids := ids db ∖ {[ id ]} |>).
Proof.
  intros Hs. split; cbn; [by apply sound_counter|..].
  - intros i m' [_ H]%lookup_delete_Some. by apply (sound_key _ Hs).
  - rewrite dom_delete_L. by rewrite (sound_ids _ Hs).
  - intros i m' [_ H]%lookup_delete_Some. by apply (sound_issued _ Hs) in H.
Qed.

Lemma sound_same db db' : rows db' = rows db -> ids db' = ids db -> next_id db' = next_id db -> sound db -> sound db'.
Proof. intros Hr Hi Hn [N A B C]. split; rewrite ?Hr, ?Hi, ?Hn; done. Qed.

Lemma sound_next db n : (next_id db <= n)%Z -> sound db -> sound (db <| next_id := n |>).
Proof. intros Hn [N A B C]. split; cbn; [lia|done..|]. intros id m Hm. eapply issued_mono, C; done. Qed.

Lemma stamp_fields now m :
  ID (stamp now m) = ID m /\ Channel (stamp now m) = Channel m /\ ModelID (stamp now m) = ModelID m
  /\ IsDefault (stamp now m) = IsDefault m /\ Origin (stamp now m) = Origin m /\ Provider (stamp now m) = Provider m.
Proof. unfold stamp. by destruct (IsZero _). Qed.

Lemma redis_CreateModel_rows now m db :
  let n := (next_id db + 1)%Z in
  let m' := stamp now (with_id m (fmt_d n)) in
  let db' := (redis_CreateModel now m db).2 in
  (redis_CreateModel now m db).1 = m' /\ rows db' = <[fmt_d n := m']> (rows db)
  /\ ids db' = {[ fmt_d n ]} ∪ ids db /\ next_id db' = n.
Proof.
  cbn zeta. unfold redis_CreateModel. rewrite (proj1 (stamp_fields _ _)).
  by destruct (blank _).
Qed.

Lemma redis_CreateModel_sound now m db : sound db -> sound (redis_CreateModel now m db).2.
Proof.
  intros Hs. pose proof (sound_counter _ Hs) as Hc. destruct (redis_CreateModel_rows now m db) as (_ & Hr & Hi & Hx).
  eapply (sound_same (put_row (fmt_d (next_id db + 1)) (stamp now (with_id m (fmt_d (next_id db + 1))))
                        (db <| next_id := next_id db + 1 |>)%Z)); [done..|].
  apply sound_put; [apply sound_next; [lia|done]|by rewrite (proj1 (stamp_fields _ _))|].
  cbn. exists (next_id db + 1)%Z. split; [lia|done].
Qed.

Lemma redis_UpdateModel_rows now m db :
  empty (ID m) = false ->
  let db' := (redis_UpdateModel now m db).2 in
  (redis_UpdateModel now m db).1 = Ok (stamp now m) /\ rows db' = <[ID m := stamp now m]> (rows db)
  /\ ids db' = {[ ID m ]} ∪ ids db /\ next_id db' = next_id db.
Proof.
  cbn zeta. unfold redis_UpdateModel, empty. destruct (stamp_fields now m) as (-> & _). intros ->.
  repeat case_match; done.
Qed.

Lemma redis_UpdateModel_sound now m db : sound db -> issued (next_id db) (ID m) -> sound (redis_UpdateModel now m db).2.
Proof.
  intros Hs Hi. destruct (redis_UpdateModel_rows now m db (issued_nonempty _ _ Hi)) as (_ & Hr & Hd & Hx).
  eapply (sound_same (put_row (ID m) (stamp now m) db)); [done..|].
  apply sound_put; [done|by rewrite (proj1 (stamp_fields _ _))|done].
Qed.

Lemma DeleteModel_rows id db :
  rows (DeleteModel id db) = (if empty id then rows db else delete id (rows db)) /\
  ids (DeleteModel id db) = (if empty id then ids db else ids db ∖ {[ id ]}) /\
  next_id (DeleteModel id db) = next_id db.
Proof. unfold DeleteModel, empty. repeat case_match; done. Qed.

Lemma DeleteModel_sound id db : sound db -> sound (DeleteModel id db).
Proof.
  intros Hs. destruct (DeleteModel_rows id db) as (Hr & Hi & Hn). destruct (empty id) eqn:E.
  - by eapply sound_same.
  - eapply (sound_same (db <| rows := delete id (rows db) |> <| ids := ids db ∖ {[ id ]} |>)); [done..|].
    by apply sound_del.
Qed.

(** ** Reading *)
Lemma status_word_canonical s :
  status_word s = ModelStatusAvailable \/ status_word s = ModelStatusMaintenance \/ status_word s = ModelStatusOffline.
Proof. unfold status_word. repeat case_match; auto. Qed.

(** A state read back is one of the three; a second trip changes nothing. *)
Lemma ModelStatus_UnmarshalJSON_canonical data :
  ModelStatus_UnmarshalJSON data ∈ [ModelStatusAvailable; ModelStatusMaintenance; ModelStatusOffline].
Proof.
  unfold ModelStatus_UnmarshalJSON. repeat case_match; try set_solver.
  match goal with |- status_word ?w ∈ _ => destruct (status_word_canonical w) as [->|[->| ->]]; set_solver end.
Qed.

Lemma canonical_fixed s : s ∈ [ModelStatusAvailable; ModelStatusMaintenance; ModelStatusOffline] ->
  ModelStatus_UnmarshalJSON (ModelStatus_MarshalJSON s) = s.
Proof. rewrite !elem_of_cons. intros [->|[->|[->|[]%not_elem_of_nil]]]; by vm_compute. Qed.

Lemma read_row_idem m : read_row (read_row m) = read_row m.
Proof.
  unfold read_row at 1.
  by rewrite (canonical_fixed (Status (read_row m)) (ModelStatus_UnmarshalJSON_canonical _)).
Qed.

Lemma read_row_fields m :
  ID (read_row m) = ID m /\ Channel (read_row m) = Channel m /\ ModelID (read_row m) = ModelID m
  /\ IsDefault (read_row m) = IsDefault m.
Proof. done. Qed.

Section RedisLemmas.
Context (smembers : gset string -> list string) (smembers_elements : forall X, smembers X ≡ₚ elements X).

Lemma elem_of_listed db id m : sound db -> (id, m) ∈ listed smembers db <-> rows db !! id = Some m.
Proof.
  intros Hs. unfold listed. rewrite list_elem_of_omap. split.
  - intros (i & _ & E). destruct (rows db !! i) eqn:Hi; naive_solver.
  - intros H. exists id. rewrite H. split; [|done].
    by rewrite smembers_elements, elem_of_elements, (sound_ids _ Hs), elem_of_dom.
Qed.

Lemma listed_NoDup db : NoDup (listed smembers db).*1.
Proof.
  unfold listed. assert (NoDup (smembers (ids db))) as H by (rewrite smembers_elements; apply NoDup_elements).
  revert H. generalize (smembers (ids db)). clear smembers_elements. induction l as [|i l IH]; cbn; intros H; [constructor|].
  apply NoDup_cons in H as [Hi Hl]. specialize (IH Hl).
  destruct (rows db !! i); cbn; [|done]. constructor; [|done].
  intros ([j m'] & -> & (i' & Hi' & E)%list_elem_of_omap)%list_elem_of_fmap. cbn in *.
  destruct (rows db !! i'); naive_solver.
Qed.

Lemma elem_of_ListModels db m : sound db ->
  m ∈ ListModels smembers db <-> exists id m0, rows db !! id = Some m0 /\ m = read_row m0.
Proof.
  intros Hs. unfold ListModels. rewrite merge_sort_Permutation, list_elem_of_fmap. split.
  - intros ([id m0] & -> & H%(elem_of_listed _ _ _ Hs)). eauto.
  - intros (id & m0 & H%(elem_of_listed _ _ _ Hs) & ->). by exists (id, m0).
Qed.

Lemma listed_row_reads db m : sound db -> m ∈ ListModels smembers db -> GetModel (ID m) db = Ok m /\ empty (ID m) = false.
Proof.
  intros Hs (id & m0 & Hr & ->)%(elem_of_ListModels _ _ Hs). unfold GetModel.
  change (ID (read_row m0)) with (ID m0). rewrite (sound_key _ Hs _ _ Hr), Hr.
  split; [done|]. eapply issued_nonempty, sound_issued; done.
Qed.

Lemma index_hit_sound h key good db m : index_hit h key good db = Some m ->
  GetModel (HGet h key) db = Ok m /\ good m = true.
Proof. unfold index_hit. repeat case_match; naive_solver. Qed.

Lemma find_none {A} (f : A -> bool) l x : find f l = None -> x ∈ l -> f x = false.
Proof. intros H Hx. apply list_elem_of_In in Hx. by eapply List.find_none in H. Qed.
Lemma find_in {A} (f : A -> bool) l x : find f l = Some x -> x ∈ l /\ f x = true.
Proof. intros H%List.find_some. by rewrite list_elem_of_In. Qed.

(** ** Lookups

    What the index gives, or else the listing; [good] is what the index must show
    and [hit] what the scan looks for. *)
Definition lookup_by (h : gmap string string) (key : string) (good hit : Model -> bool) (db : Db) : option Model :=
  match index_hit h key good db with Some m => Some m | None => find hit (ListModels smembers db) end.

Lemma lookup_by_found h key good hit db m : sound db -> (forall m, hit m = true -> good m = true) ->
  lookup_by h key good hit db = Some m ->
  GetModel (ID m) db = Ok m /\ good m = true /\ empty (ID m) = false.
Proof.
  intros Hs Hg. unfold lookup_by. destruct (index_hit _ _ _ _) as [m'|] eqn:E; intros H.
  - injection H as ->. unfold index_hit in E. destruct (empty _) eqn:Hk; [done|].
    destruct (GetModel _ db) as [m'|] eqn:Hm; [|done]. destruct (good m') eqn:Hgood; [|done]. injection E as ->.
    assert (ID m = HGet h key) as ->; [|done]. unfold GetModel in Hm. destruct (rows db !! HGet h key) eqn:Hr; [|done].
    injection Hm as <-. by apply (sound_key _ Hs) in Hr.
  - apply find_in in H as [Hin Hh]. destruct (listed_row_reads _ _ Hs Hin). auto.
Qed.

Lemma lookup_by_none h key good hit db : sound db -> (forall m, hit m = true -> good m = true) ->
  lookup_by h key good hit db = None -> forall id m, rows db !! id = Some m -> hit (read_row m) = false.
Proof.
  intros Hs Hg. unfold lookup_by. destruct (index_hit _ _ _ _); [done|]. intros H id m Hm.
  eapply find_none; [done|]. apply elem_of_ListModels; eauto.
Qed.

(** The repaired index answers by itself. *)
Lemma index_repaired h key good db m : h !! key = Some (ID m) -> empty (ID m) = false -> GetModel (ID m) db = Ok m ->
  good m = true -> index_hit h key good db = Some m.
Proof. intros Hh He Hm Hg. unfold index_hit, HGet. rewrite Hh. cbn. by rewrite He, Hm, Hg. Qed.

Lemma GetModelByChannelAndModelID_by channel modelID db :
  let id := TrimSpace modelID in
  let key := modelChannelIndexKey channel id in
  GetModelByChannelAndModelID smembers channel modelID db =
  if empty id then (Err "model not found", db)
  else match lookup_by (channel_map db) key (route_good channel id) (is_route channel id) db with
       | None => (Err "model not found", db)
       | Some m => (Ok m, match index_hit (channel_map db) key (route_good channel id) db with
                          | Some _ => db | None => db <| channel_map := <[key := ID m]> (channel_map db) |> end)
       end.
Proof. cbn zeta. unfold GetModelByChannelAndModelID, lookup_by. by repeat (case_match; simplify_eq). Qed.

Lemma is_route_good channel modelID m : is_route channel (TrimSpace modelID) m = true ->
  route_good channel (TrimSpace modelID) m = true.
Proof.
  unfold is_route, route_good. intros H. eqbs. rewrite H0, TrimSpace_idem. by rewrite H, !String.eqb_refl.
Qed.

Lemma GetModel_transfer id db db' : rows db' = rows db -> GetModel id db' = GetModel id db.
Proof. unfold GetModel. by intros ->. Qed.

Lemma route_lookup_spec channel modelID db : sound db ->
  match GetModelByChannelAndModelID smembers channel modelID db with
  | (Ok m, db') =>
      GetModel (ID m) db = Ok m /\ TrimSpace (ModelID m) = TrimSpace modelID /\
      normalizeModelChannelKey (Channel m) = normalizeModelChannelKey channel /\
      rows db' = rows db /\ ids db' = ids db /\ next_id db' = next_id db /\
      GetModelByChannelAndModelID smembers channel modelID db' = (Ok m, db')
  | (Err e, db') =>
      e = "model not found" /\ db' = db /\
      (TrimSpace modelID = EmptyString \/
       forall id m, rows db !! id = Some m -> normalizeModelChannelKey (Channel m) = normalizeModelChannelKey channel ->
                    ModelID m <> TrimSpace modelID)
  end.
Proof.
  intros Hs. rewrite GetModelByChannelAndModelID_by. cbn zeta. set (id := TrimSpace modelID).
  destruct (empty id) eqn:He; [eqbs; auto|].
  destruct (lookup_by _ _ _ _ _) as [m|] eqn:Hl.
  - destruct (lookup_by_found _ _ _ _ _ _ Hs (is_route_good channel modelID) Hl) as (Hm & Hg & Hi).
    pose proof Hg as Hg'. unfold route_good in Hg'. apply andb_true_iff in Hg' as [?%String.eqb_eq ?%String.eqb_eq].
    split_and!; [done..|by destruct (index_hit _ _ _ _)|by destruct (index_hit _ _ _ _)|by destruct (index_hit _ _ _ _)|].
    rewrite GetModelByChannelAndModelID_by. cbn zeta. fold id. rewrite He.
    destruct (index_hit (channel_map db) _ _ db) as [m'|] eqn:Ei.
    + by rewrite Hl, Ei.
    + match goal with |- context[index_hit (channel_map ?d) ?k ?g ?d] =>
        assert (index_hit (channel_map d) k g d = Some m) as E by (apply index_repaired; [apply lookup_insert_eq|done..])
      end.
      unfold lookup_by. by rewrite E.
  - split_and!; [done..|right]. intros i m Hr Hc Hmid.
    pose proof (lookup_by_none _ _ _ _ _ Hs (is_route_good channel modelID) Hl i m Hr) as H. unfold is_route in H.
    change (Channel (read_row m)) with (Channel m) in H. change (ModelID (read_row m)) with (ModelID m) in H.
    by rewrite Hc, Hmid, !String.eqb_refl in H.
Qed.

(** ** Defaults *)
Definition one_default (db : Db) : Prop :=
  forall id1 id2 m1 m2, rows db !! id1 = Some m1 -> rows db !! id2 = Some m2 ->
    IsDefault m1 = true -> IsDefault m2 = true -> Channel m1 = Channel m2 -> id1 = id2.

(** One row loses its flag; nothing else about defaults changes. *)
Lemma clear_default_sound now db m0 : sound db -> rows db !! ID m0 <> None -> sound (clear_default now db m0).
Proof.
  intros Hs Hr. unfold clear_default. apply redis_UpdateModel_sound; [done|].
  cbn.
  destruct (rows db !! ID m0) eqn:E; [|done]. by apply (sound_issued _ Hs) in E.
Qed.

Lemma clear_default_rows now db m0 : empty (ID m0) = false ->
  rows (clear_default now db m0) = <[ID m0 := stamp now (m0 <| IsDefault := false |>)]> (rows db).
Proof.
  intros He. unfold clear_default.
  refine (proj1 (proj2 (redis_UpdateModel_rows _ _ _ _))). exact He.
Qed.

Lemma clear_defaults_fold now l db : sound db -> Forall (fun m => rows db !! ID m <> None) l ->
  let db' := foldl (clear_default now) db l in
  sound db' /\ dom (rows db') = dom (rows db) /\
  (forall id, id ∉ ID <$> l -> rows db' !! id = rows db !! id) /\
  (forall id m', rows db' !! id = Some m' -> id ∈ ID <$> l -> IsDefault m' = false).
Proof.
  revert db. induction l as [|m l IH]; intros db Hs Hl; cbn zeta.
  { cbn. split_and!; [done..|]. set_solver. }
  apply Forall_cons in Hl as [Hm Hl]. cbn [foldl fmap list_fmap].
  assert (empty (ID m) = false) as He.
  { destruct (rows db !! ID m) eqn:E; [|done]. apply (sound_issued _ Hs) in E. by eapply issued_nonempty. }
  pose proof (clear_default_rows now db m He) as Hr. set (db1 := clear_default now db m) in *.
  assert (dom (rows db1) = dom (rows db)) as Hd.
  { rewrite Hr, dom_insert_L. apply not_eq_None_Some, elem_of_dom in Hm. set_solver. }
  destruct (IH db1) as (Hs' & Hd' & Hout & Hin).
  { by apply clear_default_sound. }
  { eapply Forall_impl; [exact Hl|]. intros m1 H1%not_eq_None_Some. apply not_eq_None_Some.
    rewrite <- elem_of_dom in *. by rewrite Hd. }
  split_and!; [done|by rewrite Hd'|..].
  - intros id [Hne Hnot]%not_elem_of_cons. rewrite (Hout _ Hnot), Hr. by rewrite lookup_insert_ne.
  - intros id m' Hm' Hid. destruct (decide (id ∈ ID <$> l)) as [Hy|Hn]; [by eapply Hin|].
    rewrite (Hout _ Hn), Hr in Hm'. assert (id = ID m) as -> by set_solver.
    rewrite lookup_insert_eq in Hm'. injection Hm' as <-. 
    rewrite (proj1 (proj2 (proj2 (proj2 (stamp_fields _ _))))). done.
Qed.

(** After the clearing, whatever default is left in the channel is the row itself. *)
Lemma clearOtherModelDefaults_spec now m self db : sound db ->
  let db' := clearOtherModelDefaults smembers now m self db in
  sound db' /\ dom (rows db') = dom (rows db) /\
  (forall id m', rows db' !! id = Some m' -> IsDefault m' = true -> rows db !! id = Some m') /\
  (IsDefault m = true -> forall id m', rows db' !! id = Some m' -> IsDefault m' = true -> Channel m' = Channel m ->
     self = true /\ id = ID m).
Proof.
  intros Hs. cbn zeta. unfold clearOtherModelDefaults. destruct (IsDefault m) eqn:Hd; cbn [negb]; [|by split_and!].
  set (l := filter _ _).
  destruct (clear_defaults_fold now l db Hs) as (Hs' & Hdom & Hout & Hin).
  { apply Forall_forall. intros m1 [_ H1]%list_elem_of_filter. apply (elem_of_ListModels _ _ Hs) in H1 as (id & m0 & Hr & ->).
    change (ID (read_row m0)) with (ID m0). by rewrite (sound_key _ Hs _ _ Hr), Hr. }
  assert (forall id m', rows (foldl (clear_default now) db l) !! id = Some m' -> IsDefault m' = true ->
            id ∉ ID <$> l /\ rows db !! id = Some m') as Hkeep.
  { intros id m' Hm' Hdef. destruct (decide (id ∈ ID <$> l)) as [Hy|Hn]; [by rewrite (Hin _ _ Hm' Hy) in Hdef|].
    by rewrite Hout in Hm'. }
  split_and!; [done..| |].
  - intros id m' Hm' Hdef. by apply Hkeep.
  - intros _ id m' Hm' Hdef Hc. destruct (Hkeep _ _ Hm' Hdef) as [Hn Hr].
    pose proof (sound_key _ Hs _ _ Hr) as Hid. destruct (other_default m self (read_row m')) eqn:Eo.
    + destruct Hn. apply list_elem_of_fmap. exists (read_row m'). split; [by rewrite <- Hid|].
      apply list_elem_of_filter. split; [done|]. apply elem_of_ListModels; eauto.
    + unfold other_default in Eo. destruct (read_row_fields m') as (Ei & Ec & _ & Ed). rewrite Ei, Ec, Ed, Hc, Hdef in Eo.
      rewrite String.eqb_refl in Eo. destruct self; cbn in Eo; [|done].
      destruct (String.eqb (ID m') (ID m)) eqn:E; [|done]. apply String.eqb_eq in E. by rewrite <- Hid.
Qed.

Lemma NormalizeRoute_fields m :
  ID (NormalizeRoute m) = ID m /\ Channel (NormalizeRoute m) = Channel m /\ ModelID (NormalizeRoute m) = ModelID m
  /\ IsDefault (NormalizeRoute m) = IsDefault m.
Proof. done. Qed.

Lemma UpdateModel_keeps now m db : sound db -> (ID m = EmptyString \/ rows db !! ID m <> None) ->
  let db' := (UpdateModel smembers now m db).2 in
  sound db' /\ (one_default db -> one_default db').
Proof.
  intros Hs Hm. unfold UpdateModel. set (n := NormalizeRoute m). cbn zeta.
  destruct (clearOtherModelDefaults_spec now n true db Hs) as (Hs' & Hd & Hkeep & Hself).
  set (db1 := clearOtherModelDefaults smembers now n true db) in *.
  assert (one_default db -> one_default db1) as Hone.
  { intros Ho id1 id2 m1 m2 H1 H2 D1 D2. apply (Ho id1 id2 m1 m2); eauto. }
  change (ID m) with (ID n) in Hm. destruct Hm as [He|Hr].
  { unfold redis_UpdateModel. destruct (stamp_fields now n) as (-> & _). rewrite He. cbn. auto. }
  assert (issued (next_id db1) (ID n)) as Hi.
  { apply not_eq_None_Some, elem_of_dom in Hr. rewrite <- Hd in Hr. apply elem_of_dom in Hr as [m0 Hr].
    by apply (sound_issued _ Hs') in Hr. }
  split; [by apply redis_UpdateModel_sound|]. intros Ho. specialize (Hone Ho).
  destruct (redis_UpdateModel_rows now n db1 (issued_nonempty _ _ Hi)) as (_ & Hrows & _).
  destruct (stamp_fields now n) as (_ & Ec & _ & Ed & _).
  intros id1 id2 m1 m2. rewrite Hrows.
  intros [[<- <-]|[N1 H1]]%lookup_insert_Some [[<- <-]|[N2 H2]]%lookup_insert_Some D1 D2 C; [done|..].
  - rewrite Ed in D1. rewrite Ec in C. destruct (Hself D1 _ _ H2 D2 (eq_sym C)) as [_ ->]. done.
  - rewrite Ed in D2. rewrite Ec in C. destruct (Hself D2 _ _ H1 D1 C) as [_ ->]. done.
  - by apply (Hone id1 id2 m1 m2).
Qed.

Lemma CreateModel_keeps now m db : sound db ->
  let db' := (CreateModel smembers now m db).2 in
  sound db' /\ (one_default db -> one_default db').
Proof.
  intros Hs. unfold CreateModel. set (n := NormalizeRoute m). cbn zeta.
  destruct (clearOtherModelDefaults_spec now n false db Hs) as (Hs' & Hd & Hkeep & Hself).
  set (db1 := clearOtherModelDefaults smembers now n false db) in *.
  split; [by apply redis_CreateModel_sound|]. intros Ho.
  destruct (redis_CreateModel_rows now n db1) as (_ & Hrows & _).
  pose proof (stamp_fields now (with_id n (fmt_d (next_id db1 + 1)))) as (_ & Ec & _ & Ed & _).
  intros id1 id2 m1 m2. rewrite Hrows.
  intros [[<- <-]|[N1 H1]]%lookup_insert_Some [[<- <-]|[N2 H2]]%lookup_insert_Some D1 D2 C; [done|..].
  - rewrite Ed in D1. rewrite Ec in C. by destruct (Hself D1 _ _ H2 D2 (eq_sym C)).
  - rewrite Ed in D2. rewrite Ec in C. by destruct (Hself D2 _ _ H1 D1 C).
  - apply (Ho id1 id2 m1 m2); eauto.
Qed.

Lemma DeleteModel_keeps id db : one_default db -> one_default (DeleteModel id db).
Proof.
  intros Ho. destruct (DeleteModel_rows id db) as (Hr & _). intros id1 id2 m1 m2. rewrite Hr. destruct (empty id); [apply Ho|].
  intros [_ H1]%lookup_delete_Some [_ H2]%lookup_delete_Some. by apply Ho.
Qed.

(** ** Reconciliation

    What a reconciliation makes of each row it finds, and the rows it adds. *)
Definition after (channel scope : string) (prune : bool) (incoming : list Model) (m : Model) : option Model :=
  if negb (String.eqb (lua_channel m) channel) then Some m
  else match find (fun inc => String.eqb (ModelID inc) (ModelID m)) incoming with
       | Some inc => Some (if owned scope prune m then replaced (ID m) m inc else promoted m inc)
       | None =>
           if prune && (empty scope || String.eqb (lua_lower (Provider m)) scope) && owned scope true m then None else Some m
       end.

Fixpoint new_rows (n : Z) (news : list Model) : list (string * Model) :=
  match news with
  | [] => []
  | inc :: rest => (fmt_d (n + 1), with_id inc (fmt_d (n + 1))) :: new_rows (n + 1) rest
  end.

Definition lists_route (channel : string) (db : Db) (modelID : string) : Prop :=
  exists id m, rows db !! id = Some m /\ lua_channel m = channel /\ ModelID m = modelID.

Definition news (existing : gmap string (string * Model)) (incoming : list Model) : list Model :=
  filter (fun inc => existing !! ModelID inc = None) incoming.

Definition reconciled_rows (channel scope : string) (prune : bool) (incoming : list Model) (db : Db) : gmap string Model :=
  list_to_map (new_rows (next_id db) (news (existing_rows smembers channel db) incoming))
  ∪ omap (after channel scope prune incoming) (rows db).

Definition distinct_routes (channel : string) (db : Db) : Prop :=
  forall id1 id2 m1 m2, rows db !! id1 = Some m1 -> rows db !! id2 = Some m2 ->
    lua_channel m1 = channel -> lua_channel m2 = channel -> ModelID m1 = ModelID m2 -> id1 = id2.

Lemma existing_rows_spec channel db k id m : sound db -> distinct_routes channel db ->
  existing_rows smembers channel db !! k = Some (id, m) <->
  rows db !! id = Some m /\ lua_channel m = channel /\ ModelID m = k.
Proof.
  intros Hs Hd. unfold existing_rows.
  transitivity ((id, m) ∈ listed smembers db /\ lua_channel m = channel /\ ModelID m = k); [|by rewrite elem_of_listed].
  assert (forall x y, x ∈ listed smembers db -> y ∈ listed smembers db -> lua_channel x.2 = channel ->
            lua_channel y.2 = channel -> ModelID x.2 = ModelID y.2 -> x = y) as Hu.
  { intros [i x] [j y] Hx%(elem_of_listed _ _ _ Hs) Hy%(elem_of_listed _ _ _ Hs) Cx Cy Ek.
    assert (i = j) as -> by by apply (Hd i j x y). congruence. }
  revert Hu. generalize (listed smembers db). intros l. clear Hd smembers_elements Hs db.
  induction l as [|x l IH] using rev_ind; intros Hu; cbn.
  { rewrite lookup_empty. split; [done|intros [[]%not_elem_of_nil _]]. }
  rewrite foldl_snoc. specialize (IH ltac:(set_solver)).
  destruct (String.eqb (lua_channel x.2) channel) eqn:Ec.
  - apply String.eqb_eq in Ec. destruct (decide (ModelID x.2 = k)) as [Ek|Ek].
    + rewrite Ek, lookup_insert_eq. rewrite elem_of_app, list_elem_of_singleton. split.
      * intros [= ->]. auto.
      * intros (Hin & C & K). f_equal. apply Hu; [set_solver..|done|done|by rewrite Ek].
    + rewrite lookup_insert_ne by done. rewrite IH, elem_of_app, list_elem_of_singleton. naive_solver.
  - apply String.eqb_neq in Ec. rewrite IH, elem_of_app, list_elem_of_singleton. naive_solver.
Qed.

(** What the rows found promise to the script. *)
Record found_ok (n : Z) (existing : gmap string (string * Model)) : Prop := {
  found_issued : forall k id cur, existing !! k = Some (id, cur) -> issued n id;
  found_key : forall k id cur, existing !! k = Some (id, cur) -> ModelID cur = k /\ ID cur = id;
  found_inj : forall k1 k2 id c1 c2, existing !! k1 = Some (id, c1) -> existing !! k2 = Some (id, c2) -> k1 = k2;
}.

Lemma existing_found_ok channel db : sound db -> distinct_routes channel db ->
  found_ok (next_id db) (existing_rows smembers channel db).
Proof.
  intros Hs Hd. split.
  - intros k id cur (H & _)%existing_rows_spec; [|done..]. by apply (sound_issued _ Hs id cur).
  - intros k id cur (H & _ & <-)%existing_rows_spec; [|done..]. split; [done|]. by apply (sound_key _ Hs).
  - intros k1 k2 id c1 c2 (H1 & _ & <-)%existing_rows_spec (H2 & _ & <-)%existing_rows_spec; [|done..]. by simplify_eq.
Qed.

Lemma found_ok_mono n n' E : (n <= n')%Z -> found_ok n E -> found_ok n' E.
Proof. intros Hn [A B C]. split; [|done..]. intros. eapply issued_mono, A; done. Qed.

Definition hit (scope : string) (prune : bool) (existing : gmap string (string * Model)) (id : string) (inc : Model)
    : option Model :=
  match existing !! ModelID inc with
  | Some (id', cur) => if decide (id' = id) then Some (if owned scope prune cur then replaced id cur inc else promoted cur inc)
                       else None
  | None => None
  end.

Lemma new_rows_ids n l id m : list_to_map (M := gmap string Model) (new_rows n l) !! id = Some m ->
  exists k, (n < k)%Z /\ id = fmt_d k.
Proof.
  revert n. induction l as [|inc l IH]; intros n; cbn; [by rewrite lookup_empty|].
  intros [[<- _]|[_ H]]%lookup_insert_Some; [exists (n + 1)%Z; split; [lia|done]|].
  apply IH in H as (k & ? & ->). exists k. split; [lia|done].
Qed.

Lemma hits_none scope prune E id l : (forall k cur, E !! k = Some (id, cur) -> k ∉ ModelID <$> l) ->
  head (omap (hit scope prune E id) l) = None.
Proof.
  intros H. induction l as [|inc l IH]; [done|]. cbn. unfold hit at 1.
  destruct (E !! ModelID inc) as [[id' cur]|] eqn:Ek.
  - case_decide as Hid; [subst; apply H in Ek; set_solver|]. apply IH. set_solver.
  - apply IH. set_solver.
Qed.

Lemma hits_fresh scope prune E n id l : found_ok n E -> (exists k, (n < k)%Z /\ id = fmt_d k) ->
  head (omap (hit scope prune E id) l) = None.
Proof.
  intros Hf (k & Hk & ->). apply hits_none. intros k0 cur H0. exfalso.
  destruct (found_issued _ _ Hf _ _ _ H0) as (j & ? & ->%fmt_d_inj). lia.
Qed.

Lemma publish_rows channel scope prune E incoming s :
  NoDup (ModelID <$> incoming) -> found_ok (next_id (s_db s)) E ->
  let s' := foldl (publish_row channel scope prune E) s incoming in
  forall id, rows (s_db s') !! id =
    match list_to_map (M := gmap string Model) (new_rows (next_id (s_db s)) (news E incoming)) !! id with
    | Some m => Some m
    | None => match head (omap (hit scope prune E id) incoming) with Some m => Some m | None => rows (s_db s) !! id end
    end.
Proof.
  revert s. induction incoming as [|inc rest IH]; intros s Hnd Hf; cbn zeta; [done|].
  apply NoDup_cons in Hnd as [Hnot Hnd]. intros id. cbn [foldl omap list_omap]. unfold news. rewrite filter_cons.
  unfold hit at 1. destruct (E !! ModelID inc) as [[id' cur]|] eqn:Ek.
  - rewrite decide_False by done. rewrite IH; [|done|unfold publish_row; rewrite Ek; exact Hf].
    unfold publish_row. rewrite Ek. cbn. destruct (list_to_map _ !! id); [done|]. case_decide as Hid.
    + subst id'. rewrite hits_none; [by rewrite lookup_insert_eq|].
      intros k c Hk. by rewrite (found_inj _ _ Hf _ _ _ _ _ Hk Ek).
    + by rewrite lookup_insert_ne.
  - rewrite decide_True by done. rewrite IH; [|done|unfold publish_row; rewrite Ek; eapply found_ok_mono, Hf; cbn; lia].
    unfold publish_row. rewrite Ek. cbn. set (n := next_id (s_db s)) in *.
    destruct (decide (id = fmt_d (n + 1))) as [->|Hid].
    + rewrite lookup_insert_eq. destruct (list_to_map _ !! _) as [m|] eqn:El.
      { apply new_rows_ids in El as (k & ? & Ej%fmt_d_inj). lia. }
      rewrite (hits_fresh _ _ _ n); [by rewrite lookup_insert_eq|done|]. exists (n + 1)%Z. split; [lia|done].
    + by rewrite !lookup_insert_ne.
Qed.

(** The rows that are in scope and no longer wanted. *)
Definition dropped (scope : string) (wanted : list string) (e : string * (string * Model)) : bool :=
  negb (bool_decide (e.1 ∈ wanted)) && (empty scope || String.eqb (lua_lower (Provider e.2.2)) scope) && owned scope true e.2.2.

Lemma prune_rows channel scope wanted l s id :
  rows (s_db (foldl (prune_row channel scope wanted) s l)) !! id =
  if existsb (fun e => String.eqb e.2.1 id && dropped scope wanted e) l then None else rows (s_db s) !! id.
Proof.
  revert s. induction l as [|[k [i cur]] l IH]; intros s; [done|]. cbn [foldl existsb]. rewrite IH.
  assert (rows (s_db (prune_row channel scope wanted s (k, (i, cur)))) =
          if dropped scope wanted (k, (i, cur)) then delete i (rows (s_db s)) else rows (s_db s)) as ->.
  { unfold prune_row, dropped. cbn.
    destruct (bool_decide _), (empty scope || _), (owned scope true cur); cbn; try done; by destruct (_ || _). }
  cbn. destruct (existsb _ l); [by rewrite orb_true_r|]. rewrite orb_false_r.
  destruct (dropped _ _ _); [|by rewrite andb_false_r]. rewrite andb_true_r.
  destruct (String.eqb i id) eqn:E; [apply String.eqb_eq in E as ->; by rewrite lookup_delete_eq|].
  apply String.eqb_neq in E. by rewrite lookup_delete_ne.
Qed.

Lemma hits_of_row scope prune E n id m l : found_ok n E -> E !! ModelID m = Some (id, m) ->
  head (omap (hit scope prune E id) l) =
  (fun inc => if owned scope prune m then replaced id m inc else promoted m inc)
    <$> find (fun inc => String.eqb (ModelID inc) (ModelID m)) l.
Proof.
  intros Hf Hm. induction l as [|inc l IH]; [done|]. cbn. unfold hit at 1.
  destruct (String.eqb (ModelID inc) (ModelID m)) eqn:E1.
  - apply String.eqb_eq in E1. rewrite E1, Hm, decide_True by done. done.
  - apply String.eqb_neq in E1. destruct (E !! ModelID inc) as [[i cur]|] eqn:Ei; [|exact IH].
    case_decide as Hid; [|exact IH]. subst. by destruct E1; eapply found_inj.
Qed.

Lemma found_find k incoming : k ∈ ModelID <$> incoming <->
  find (fun inc => String.eqb (ModelID inc) k) incoming <> None.
Proof.
  split.
  - intros (inc & -> & Hin)%list_elem_of_fmap Hn. eapply find_none in Hn; [|done]. by rewrite String.eqb_refl in Hn.
  - intros H. destruct (find _ _) as [inc|] eqn:E; [|done]. apply find_in in E as [Hin Hk%String.eqb_eq].
    apply list_elem_of_fmap. eauto.
Qed.

(** A found row is dropped exactly when the map of the specification removes it. *)
Lemma dropped_row channel scope incoming db id : sound db -> distinct_routes channel db ->
  existsb (fun e => String.eqb e.2.1 id && dropped scope (ModelID <$> incoming) e)
    (map_to_list (existing_rows smembers channel db)) = true <->
  exists m, rows db !! id = Some m /\ lua_channel m = channel /\ dropped scope (ModelID <$> incoming) (ModelID m, (id, m)) = true.
Proof.
  intros Hs Hd. rewrite existsb_exists. split.
  - intros ([k [i cur]] & Hin & [He%String.eqb_eq Hdr]%andb_true_iff). cbn in He. subst i.
    apply list_elem_of_In, elem_of_map_to_list, existing_rows_spec in Hin as (Hr & Hc & <-); [|done..]. eauto.
  - intros (m & Hr & Hc & Hdr). exists (ModelID m, (id, m)). split.
    + apply list_elem_of_In, elem_of_map_to_list, existing_rows_spec; done.
    + cbn [fst snd]. by rewrite String.eqb_refl, Hdr.
Qed.

Lemma script_rows channel scope prune incoming db : sound db -> distinct_routes channel db -> NoDup (ModelID <$> incoming) ->
  rows (s_db (reconcileDiscoveredModelsScript smembers channel scope prune incoming db)) =
  reconciled_rows channel scope prune incoming db.
Proof.
  intros Hs Hd Hnd. apply map_eq. intros id. unfold reconciled_rows, reconcileDiscoveredModelsScript. cbn zeta.
  set (E := existing_rows smembers channel db) in *.
  pose proof (existing_found_ok channel db Hs Hd) as Hf. fold E in Hf.
  set (s1 := foldl _ _ incoming).
  pose proof (publish_rows channel scope prune E incoming (mkScript db [] [] [] []) Hnd Hf id) as Hp.
  fold s1 in Hp. cbn [s_db] in Hp.
  assert (forall m, rows db !! id = Some m -> lua_channel m = channel -> E !! ModelID m = Some (id, m)) as HE.
  { intros m Hm Hc. by apply existing_rows_spec. }
  assert (rows (s_db (if prune then foldl (prune_row channel scope (ModelID <$> incoming)) s1 (map_to_list E) else s1)) !! id
    = if prune && existsb (fun e => String.eqb e.2.1 id && dropped scope (ModelID <$> incoming) e) (map_to_list E)
      then None else rows (s_db s1) !! id) as ->.
  { destruct prune; [|done]. apply prune_rows. }
  rewrite Hp. clear Hp. unfold E. rewrite lookup_union.
  pose proof (dropped_row channel scope incoming db id Hs Hd) as Hdr. fold E in Hdr |- *.
  destruct (list_to_map (new_rows (next_id db) (news E incoming)) !! id) as [m|] eqn:En.
  - apply new_rows_ids in En as (k & Hk & ->). rewrite lookup_omap.
    destruct (rows db !! fmt_d k) as [m0|] eqn:Hr; [by destruct (issued_fresh _ _ _ Hs Hk Hr)|].
    destruct (existsb _ _); [by destruct (proj1 Hdr eq_refl) as (m0 & ? & _)|]. by rewrite andb_false_r.
  - rewrite (left_id None union), lookup_omap. destruct (rows db !! id) as [m|] eqn:Hr; cbn.
    + pose proof (sound_key _ Hs _ _ Hr) as Hid. unfold after. destruct (String.eqb (lua_channel m) channel) eqn:Ec; cbn [negb].
      * apply String.eqb_eq in Ec. rewrite (hits_of_row _ _ _ _ _ _ _ Hf (HE m eq_refl Ec)).
        destruct (find _ incoming) as [inc|] eqn:Ef; cbn.
        -- destruct (existsb _ _); [|by rewrite andb_false_r, Hid].
           destruct (proj1 Hdr eq_refl) as (m' & [= <-] & _ & Hx). unfold dropped in Hx. cbn in Hx.
           rewrite bool_decide_true in Hx; [done|]. apply found_find. by rewrite Ef.
        -- assert (existsb (fun e => String.eqb e.2.1 id && dropped scope (ModelID <$> incoming) e) (map_to_list E)
                   = (empty scope || String.eqb (lua_lower (Provider m)) scope) && owned scope true m) as ->; [|by rewrite andb_assoc].
           assert (dropped scope (ModelID <$> incoming) (ModelID m, (id, m))
                   = (empty scope || String.eqb (lua_lower (Provider m)) scope) && owned scope true m) as <-.
           { unfold dropped. cbn. rewrite bool_decide_false; [done|]. intros H%found_find. by rewrite Ef in H. }
           apply eq_true_iff_eq. rewrite Hdr. naive_solver.
      * apply String.eqb_neq in Ec. rewrite hits_none.
        -- destruct (existsb _ _); [|by rewrite andb_false_r]. destruct (proj1 Hdr eq_refl) as (m' & [= <-] & ? & _). done.
        -- intros k cur (Hr' & Hc & _)%existing_rows_spec; [|done..]. simplify_eq.
    + rewrite hits_none; [|intros k cur (Hr' & _)%existing_rows_spec; [|done..]; simplify_eq].
      destruct (existsb _ _); [by destruct (proj1 Hdr eq_refl) as (m0 & ? & _)|]. by rewrite andb_false_r.
Qed.

(** *** Without assuming that routes are distinct *)
Lemma existing_rows_in channel db k id m : sound db -> existing_rows smembers channel db !! k = Some (id, m) ->
  rows db !! id = Some m /\ lua_channel m = channel /\ ModelID m = k.
Proof.
  intros Hs. assert (forall x, x ∈ listed smembers db -> rows db !! x.1 = Some x.2) as Hl.
  { intros [i x] H. by apply elem_of_listed in H. }
  revert Hl. unfold existing_rows. generalize (listed smembers db). intros l. clear smembers_elements.
  induction l as [|x l IH] using rev_ind; intros Hl; cbn; [by rewrite lookup_empty|].
  rewrite foldl_snoc. specialize (IH ltac:(set_solver)).
  destruct (String.eqb (lua_channel x.2) channel) eqn:Ec; [|exact IH].
  intros [[<- ->]|[_ H]]%lookup_insert_Some; [|by apply IH].
  split_and!; [apply (Hl (id, m)); set_solver|by apply String.eqb_eq|done].
Qed.

Lemma existing_ok channel db : sound db -> found_ok (next_id db) (existing_rows smembers channel db).
Proof.
  intros Hs. split.
  - intros k id cur (H & _)%existing_rows_in; [|done]. by apply (sound_issued _ Hs id cur).
  - intros k id cur (H & _ & <-)%existing_rows_in; [|done]. split; [done|]. by apply (sound_key _ Hs).
  - intros k1 k2 id c1 c2 (H1 & _ & <-)%existing_rows_in (H2 & _ & <-)%existing_rows_in; [|done..]. by simplify_eq.
Qed.

Lemma sound_set db id m : sound db -> rows db !! id <> None -> ID m = id -> sound (db <| rows := <[id := m]> (rows db) |>).
Proof.
  intros Hs Hr%not_eq_None_Some He. destruct Hr as [m0 Hr].
  eapply (sound_same (put_row id m db)); [done| |done|].
  - cbn. rewrite (sound_ids _ Hs). apply elem_of_dom_2 in Hr. set_solver.
  - apply sound_put; [done..|]. by apply (sound_issued _ Hs id m0).
Qed.

Definition rows_present (E : gmap string (string * Model)) (db : Db) : Prop :=
  forall k id cur, E !! k = Some (id, cur) -> rows db !! id <> None.

Lemma publish_sound channel scope prune E n s inc : found_ok n E -> sound (s_db s) -> rows_present E (s_db s) ->
  sound (s_db (publish_row channel scope prune E s inc)) /\
  rows_present E (s_db (publish_row channel scope prune E s inc)).
Proof.
  intros Hf Hs Hp. unfold publish_row. destruct (E !! ModelID inc) as [[id cur]|] eqn:Ek; cbn.
  - destruct (found_key _ _ Hf _ _ _ Ek) as [_ Hid]. split.
    + set (row := if owned scope prune cur then _ else _).
      eapply (sound_same (s_db s <| rows := <[id := row]> (rows (s_db s)) |>)); [done..|].
      apply sound_set; [done|by eapply Hp|]. subst row. by destruct (owned _ _ _).
    + intros k i c Hk. cbn. destruct (decide (i = id)) as [->|Hne]; [by rewrite lookup_insert_eq|].
      rewrite lookup_insert_ne by done. by eapply Hp.
  - set (j := (next_id (s_db s) + 1)%Z). split.
    + pose proof (sound_counter _ Hs). eapply (sound_same (put_row (fmt_d j) (with_id inc (fmt_d j)) (s_db s <| next_id := j |>))); [done..|].
      apply sound_put; [apply sound_next; [lia|done]|done|]. exists j. cbn. split; [lia|done].
    + intros k i c Hk. cbn. destruct (decide (i = fmt_d j)) as [->|Hne]; [by rewrite lookup_insert_eq|].
      rewrite lookup_insert_ne by done. by eapply Hp.
Qed.

Lemma prune_sound channel scope wanted s e : sound (s_db s) -> sound (s_db (prune_row channel scope wanted s e)).
Proof.
  intros Hs. destruct e as [k [id cur]]. unfold prune_row. repeat case_match; try done.
  eapply (sound_same (s_db s <| rows := delete id (rows (s_db s)) |> <| ids := ids (s_db s) ∖ {[ id ]} |>)); [done..|].
  by apply sound_del.
Qed.

Lemma script_sound channel scope prune incoming db : sound db ->
  sound (s_db (reconcileDiscoveredModelsScript smembers channel scope prune incoming db)).
Proof.
  intros Hs. unfold reconcileDiscoveredModelsScript. cbn zeta. pose proof (existing_ok channel db Hs) as Hf.
  set (E := existing_rows smembers channel db) in *.
  assert (forall l s, sound (s_db s) -> rows_present E (s_db s) ->
            sound (s_db (foldl (publish_row channel scope prune E) s l))) as H1.
  { induction l as [|inc l IH]; intros s Hs1 Hp1; [done|]. cbn.
    destruct (publish_sound channel scope prune E _ s inc Hf Hs1 Hp1). by apply IH. }
  assert (forall l s, sound (s_db s) -> sound (s_db (foldl (prune_row channel scope (ModelID <$> incoming)) s l))) as H2.
  { induction l as [|e l IH]; intros s Hs1; [done|]. cbn. by apply IH, prune_sound. }
  assert (sound (s_db (foldl (publish_row channel scope prune E) (mkScript db [] [] [] []) incoming))) as H3.
  { apply H1; [done|]. intros k id cur (H & _)%existing_rows_in; [|done]. cbn. by rewrite H. }
  destruct prune; [by apply H2|done].
Qed.

(** Where a row of the result comes from. *)
Lemma script_origins channel scope prune incoming db id m' : sound db -> NoDup (ModelID <$> incoming) ->
  rows (s_db (reconcileDiscoveredModelsScript smembers channel scope prune incoming db)) !! id = Some m' ->
  rows db !! id = Some m' \/
  (exists inc, inc ∈ incoming /\ IsDefault m' = IsDefault inc) \/
  (exists cur inc, rows db !! id = Some cur /\ m' = promoted cur inc).
Proof.
  intros Hs Hnd. unfold reconcileDiscoveredModelsScript. cbn zeta. set (E := existing_rows smembers channel db).
  pose proof (existing_ok channel db Hs) as Hf. fold E in Hf.
  set (s1 := foldl _ _ incoming).
  pose proof (publish_rows channel scope prune E incoming (mkScript db [] [] [] []) Hnd Hf id) as Hp.
  fold s1 in Hp. cbn [s_db] in Hp.
  intros Hm. assert (rows (s_db s1) !! id = Some m') as H1.
  { destruct prune; [|done]. rewrite prune_rows in Hm. by destruct (existsb _ _). }
  rewrite H1 in Hp. clear H1 Hm. destruct (list_to_map _ !! id) as [m|] eqn:En.
  - injection Hp as ->. right; left. clear -En. revert En. generalize (next_id db).
    assert (forall inc, inc ∈ news E incoming -> inc ∈ incoming) as Hin by (intros inc [_ H]%list_elem_of_filter; done).
    revert Hin. generalize (news E incoming) as l. induction l as [|inc l IH]; intros Hin n; cbn; [by rewrite lookup_empty|].
    intros [[_ <-]|[_ H]]%lookup_insert_Some; [exists inc; split; [set_solver|done]|]. eapply IH; [set_solver|done].
  - destruct (head _) as [m|] eqn:Eh; [|by left]. injection Hp as ->.
    assert (m ∈ omap (hit scope prune E id) incoming) as Hin by (destruct (omap _ _); [done|]; cbn in Eh; simplify_eq; set_solver).
    apply list_elem_of_omap in Hin as (inc & Hinc & Hh). unfold hit in Hh.
    destruct (E !! ModelID inc) as [[i cur]|] eqn:Ek; [|done]. case_decide as Hi; [|done]. subst i. injection Hh as <-.
    apply existing_rows_in in Ek as (Hr & _); [|done]. right. destruct (owned _ _ _); [left|right]; eauto.
Qed.

(** *** The snapshot *)
Definition prepared (channel : string) (inc : Model) : Prop :=
  Channel inc = TrimSpace channel /\ Origin inc = "discovery" /\ ModelID inc <> EmptyString /\ CreatedAt inc <> None.

Lemma prepared_row_ok now channel modelID input : modelID <> EmptyString ->
  prepared channel (prepared_row now channel modelID input) /\ ModelID (prepared_row now channel modelID input) = modelID
  /\ IsDefault (prepared_row now channel modelID input) = IsDefault input.
Proof.
  intros Hne. unfold prepared_row, prepared, stamp. cbn. unfold created. cbn.
  destruct (IsZero _) eqn:E; cbn; split_and!; try done.
  intros H. rewrite H in E. done.
Qed.

Lemma prepare_rows_ok `{UnicodeTable} now channel seen models incoming : prepare_rows now channel seen models = Ok incoming ->
  Forall (prepared channel) incoming /\ NoDup (ModelID <$> incoming) /\
  (forall k, k ∈ ModelID <$> incoming -> k ∉ seen) /\
  (forall inc, inc ∈ incoming -> exists input, Some input ∈ models /\ IsDefault inc = IsDefault input).
Proof.
  revert seen incoming. induction models as [|[input|] rest IH]; intros seen incoming; cbn; [|..|done].
  { intros [= <-]. split_and!; [constructor|constructor|intros k Hk; set_solver|set_solver]. }
  destruct (String.eqb _ EmptyString) eqn:Ee; [done|]. apply String.eqb_neq in Ee.
  case_bool_decide as Hseen; [done|].
  destruct (prepare_rows now channel _ rest) as [tail|] eqn:Et; [|done]. cbn. intros [= <-].
  destruct (IH _ _ Et) as (Hp & Hnd & Hout & Hdef).
  destruct (prepared_row_ok now channel (TrimSpace (ModelID input)) input Ee) as (P1 & P2 & P3).
  set (row := prepared_row now channel (TrimSpace (ModelID input)) input) in *.
  rewrite fmap_cons, P2. split_and!.
  - by constructor.
  - constructor; [|done]. intros Hin. apply Hout in Hin. set_solver.
  - intros k [->|Hk]%elem_of_cons; [done|]. apply Hout in Hk. set_solver.
  - intros inc [->|Hinc]%elem_of_cons; [exists input; split; [set_solver|done]|].
    destruct (Hdef _ Hinc) as (i & ? & ?). exists i. split; [set_solver|done].
Qed.

(** ** A store over time *)
Inductive ModelOp :=
  | OpCreate (now : Time) (m : Model)
  | OpUpdate (now : Time) (m : Model)
  | OpDelete (id : string)
  | OpLookup (channel modelID : string)
  | OpReconcile (now : Time) (channel : string) (models : list (option Model)) (options : ModelReconcileOptions).

Definition model_op `{UnicodeTable} (db : Db) (op : ModelOp) : Db :=
  match op with
  | OpCreate now m => (CreateModel smembers now m db).2
  | OpUpdate now m => (UpdateModel smembers now m db).2
  | OpDelete id => DeleteModel id db
  | OpLookup channel modelID => (GetModelByChannelAndModelID smembers channel modelID db).2
  | OpReconcile now channel models options => (ReconcileDiscoveredModels smembers now channel models options db).2
  end.

(** The admin API updates rows it has just read. *)
Definition op_allowed (db : Db) (op : ModelOp) : Prop :=
  match op with OpUpdate _ m => rows db !! ID m <> None | _ => True end.

(** A snapshot that marks no default of its own. *)
Definition no_default (op : ModelOp) : Prop :=
  match op with OpReconcile _ _ models _ => forall m, Some m ∈ models -> IsDefault m = false | _ => True end.

Fixpoint history `{UnicodeTable} (db : Db) (ops : list ModelOp) : Prop :=
  match ops with
  | [] => True
  | op :: rest => op_allowed db op /\ history (model_op db op) rest
  end.

Lemma model_op_sound `{UnicodeTable} db op : sound db -> op_allowed db op -> sound (model_op db op).
Proof.
  intros Hs Ho. destruct op as [now m|now m|id|channel modelID|now channel models options]; cbn [model_op op_allowed no_default] in *.
  - by apply CreateModel_keeps.
  - apply UpdateModel_keeps; auto.
  - by apply DeleteModel_sound.
  - pose proof (route_lookup_spec channel modelID db Hs) as Hl.
    destruct (GetModelByChannelAndModelID _ _ _ _) as [[m|e] db']; cbn [snd].
    + destruct Hl as (_ & _ & _ & Hr & Hi & Hn & _). by eapply sound_same.
    + by destruct Hl as (_ & -> & _).
  - unfold ReconcileDiscoveredModels. repeat case_match; try done. by apply script_sound.
Qed.

Lemma model_op_default `{UnicodeTable} db op : sound db -> op_allowed db op -> no_default op ->
  one_default db -> one_default (model_op db op).
Proof.
  intros Hs Ho Hno H1. destruct op as [now m|now m|id|channel modelID|now channel models options]; cbn [model_op op_allowed no_default] in *.
  - by apply CreateModel_keeps.
  - apply UpdateModel_keeps; auto.
  - by apply DeleteModel_keeps.
  - pose proof (route_lookup_spec channel modelID db Hs) as Hl.
    destruct (GetModelByChannelAndModelID _ _ _ _) as [[m|e] db']; cbn [snd].
    + destruct Hl as (_ & _ & _ & Hr & _). unfold one_default. by rewrite Hr.
    + by destruct Hl as (_ & -> & _).
  - unfold ReconcileDiscoveredModels. destruct (String.eqb _ _); [done|].
    destruct (prepare_rows _ _ _ _) as [incoming|] eqn:Ep; [|done]. cbn [snd].
    destruct (prepare_rows_ok _ _ _ _ _ Ep) as (_ & Hnd & _ & Hdef).
    assert (forall id m', rows (s_db (reconcileDiscoveredModelsScript smembers (normalizeModelChannelKey channel)
              (lua_lower (lower_trim (ProviderScope options))) (Prune options) incoming db)) !! id = Some m' ->
              IsDefault m' = true -> exists m, rows db !! id = Some m /\ IsDefault m = true /\ Channel m = Channel m') as Hback.
    { intros id m' Hm Hd. apply script_origins in Hm as [Hm|[(inc & Hin & E)|(cur & inc & Hr & ->)]]; [..|done|done].
      - eauto.
      - destruct (Hdef _ Hin) as (input & Hi & Ei). rewrite (Hno _ Hi) in Ei. congruence.
      - exists cur. exact (conj Hr (conj Hd eq_refl)). }
    intros id1 id2 m1 m2 R1 R2 D1 D2 C.
    destruct (Hback _ _ R1 D1) as (n1 & ? & ? & ?), (Hback _ _ R2 D2) as (n2 & ? & ? & ?).
    apply (H1 id1 id2 n1 n2); congruence.
Qed.

Lemma history_keeps `{UnicodeTable} db ops : sound db -> history db ops ->
  sound (foldl model_op db ops) /\
  (one_default db -> Forall no_default ops -> one_default (foldl model_op db ops)).
Proof.
  revert db. induction ops as [|op ops IH]; intros db Hs Hh; [done|]. destruct Hh as [Ho Hh]. cbn [foldl].
  destruct (IH (model_op db op)) as [H1 H2]; [by apply model_op_sound|done|]. split; [done|].
  intros Hd [Hn Hr]%Forall_cons. apply H2; [|done]. by apply model_op_default.
Qed.

(** ** What a published catalogue leaves *)
Lemma new_rows_in n l id m : list_to_map (M := gmap string Model) (new_rows n l) !! id = Some m ->
  exists i inc, l !! i = Some inc /\ id = fmt_d (n + 1 + Z.of_nat i) /\ m = with_id inc id.
Proof.
  revert n. induction l as [|inc l IH]; intros n; cbn; [by rewrite lookup_empty|].
  intros [[<- <-]|[_ H]]%lookup_insert_Some.
  - exists 0%nat, inc. split_and!; [done|f_equal; lia|done].
  - destruct (IH _ H) as (i & r & Hi & -> & ->). exists (S i), r. split_and!; [done|f_equal; lia|done].
Qed.

Lemma new_rows_lookup n l i inc : l !! i = Some inc ->
  let id := fmt_d (n + 1 + Z.of_nat i) in
  list_to_map (M := gmap string Model) (new_rows n l) !! id = Some (with_id inc id).
Proof.
  revert n i. induction l as [|r l IH]; intros n [|i] Hi; cbn zeta; [done..| |]; cbn [new_rows list_to_map foldr fst snd].
  - injection Hi as ->. replace (n + 1 + Z.of_nat 0)%Z with (n + 1)%Z by lia. apply lookup_insert_eq.
  - rewrite lookup_insert_ne by (intros E%fmt_d_inj; lia).
    replace (n + 1 + Z.of_nat (S i))%Z with (n + 1 + 1 + Z.of_nat i)%Z by lia. by apply IH.
Qed.

Lemma after_route channel scope prune incoming m m' : after channel scope prune incoming m = Some m' -> lua_channel m' = channel ->
  lua_channel m = channel /\ ModelID m = ModelID m'.
Proof.
  unfold after. destruct (String.eqb (lua_channel m) channel) eqn:Ec; cbn.
  - apply String.eqb_eq in Ec. destruct (find _ _) as [inc|] eqn:Ef.
    + apply find_in in Ef as [_ Hk%String.eqb_eq]. intros [= <-] _. split; [done|]. by destruct (owned _ _ _); cbn.
    + destruct (_ && _ && _); intros [= <-]; done.
  - apply String.eqb_neq in Ec. intros [= <-] ?. done.
Qed.

(** The lookup of a reconciled row, old or new. *)
Lemma reconciled_cases channel scope prune incoming db id m' :
  reconciled_rows channel scope prune incoming db !! id = Some m' ->
  (exists i inc, news (existing_rows smembers channel db) incoming !! i = Some inc /\
     id = fmt_d (next_id db + 1 + Z.of_nat i) /\ m' = with_id inc id) \/
  (exists m, rows db !! id = Some m /\ after channel scope prune incoming m = Some m').
Proof.
  unfold reconciled_rows. intros [H|[_ H]]%lookup_union_Some_raw.
  - left. by apply new_rows_in.
  - right. rewrite lookup_omap in H. by destruct (rows db !! id) eqn:E; cbn in H; eauto.
Qed.

Lemma reconciled_distinct channel scope prune incoming db db' : sound db -> distinct_routes channel db ->
  NoDup (ModelID <$> incoming) -> rows db' = reconciled_rows channel scope prune incoming db -> distinct_routes channel db'.
Proof.
  intros Hs Hd Hnd Hr. set (E := existing_rows smembers channel db).
  assert (NoDup (ModelID <$> news E incoming)) as Hnews.
  { eapply sublist_NoDup; [exact Hnd|]. apply fmap_sublist, sublist_filter. }
  assert (forall i inc m id m', news E incoming !! i = Some inc -> rows db !! id = Some m ->
            after channel scope prune incoming m = Some m' -> lua_channel m' = channel -> ModelID inc = ModelID m' -> False) as Hmix.
  { intros i inc m id m' Hi Hm Ha Hc Ek. destruct (after_route _ _ _ _ _ _ Ha Hc) as [Hc0 Ek0].
    apply list_elem_of_lookup_2, list_elem_of_filter in Hi as [Hi _]. unfold E in Hi.
    by rewrite (proj2 (existing_rows_spec channel db (ModelID inc) id m Hs Hd)) in Hi by (split_and!; congruence). }
  intros id1 id2 m1 m2. rewrite Hr.
  intros [(i & inc & Hi & -> & ->)|(n1 & R1 & A1)]%reconciled_cases [(j & inc' & Hj & -> & ->)|(n2 & R2 & A2)]%reconciled_cases C1 C2 K.
  - fold E in Hi, Hj. f_equal. cut (i = j); [intros ->; done|]. eapply NoDup_lookup; [exact Hnews|..].
    + by rewrite list_lookup_fmap, Hi.
    + rewrite list_lookup_fmap, Hj. cbn. by f_equal.
  - by destruct (Hmix _ _ _ _ _ Hi R2 A2 C2 K).
  - by destruct (Hmix _ _ _ _ _ Hj R1 A1 C1 (eq_sym K)).
  - destruct (after_route _ _ _ _ _ _ A1 C1), (after_route _ _ _ _ _ _ A2 C2). apply (Hd id1 id2 n1 n2); congruence.
Qed.

(** What a row offers, apart from its identity and age. *)
Definition offer (m : Model) : Model := m <| ID := EmptyString |> <| CreatedAt := None |>.

Lemma scoped_row scope channel incoming m m' : scope <> EmptyString ->
  after channel scope true incoming m = Some m' -> lua_channel m' = channel -> lua_lower (Provider m') = scope ->
  exists inc, inc ∈ incoming /\ offer m' = offer inc.
Proof.
  intros Hsc%String.eqb_neq Ha Hc Hp. destruct (after_route _ _ _ _ _ _ Ha Hc) as [Hc0 _].
  unfold after, owned, empty in Ha. rewrite Hsc, Hc0, String.eqb_refl in Ha. cbn in Ha.
  destruct (find _ _) as [inc|] eqn:Ef.
  - injection Ha as <-. apply find_in in Ef as [Hin _]. eauto.
  - destruct (String.eqb (lua_lower (Provider m)) scope) eqn:E; cbn in Ha; [done|]. injection Ha as <-.
    by apply String.eqb_neq in E.
Qed.

Lemma published_row scope channel incoming db inc : scope <> EmptyString -> sound db -> distinct_routes channel db ->
  NoDup (ModelID <$> incoming) -> inc ∈ incoming ->
  exists id m', reconciled_rows channel scope true incoming db !! id = Some m' /\ offer m' = offer inc.
Proof.
  intros Hsc%String.eqb_neq Hs Hd Hnd Hin. unfold reconciled_rows. set (E := existing_rows smembers channel db).
  destruct (E !! ModelID inc) as [[id cur]|] eqn:Ek.
  - apply existing_rows_spec in Ek as (Hr & Hc & Hk); [|done..].
    exists id, (replaced (ID cur) cur inc). split; [|done]. rewrite lookup_union_r.
    + rewrite lookup_omap, Hr. cbn. unfold after, owned, empty. rewrite Hsc, Hc, String.eqb_refl. cbn.
      destruct (find _ incoming) as [inc'|] eqn:Ef.
      * apply find_in in Ef as [Hin' Hk'%String.eqb_eq]. cut (inc' = inc); [by intros ->|].
        apply list_elem_of_lookup in Hin as [i Hi], Hin' as [j Hj].
        assert (i = j) as ->; [|congruence]. eapply NoDup_lookup; [exact Hnd|..]; rewrite list_lookup_fmap.
        -- by rewrite Hi.
        -- rewrite Hj. cbn. congruence.
      * exfalso. eapply find_none in Ef; [|exact Hin]. by rewrite Hk, String.eqb_refl in Ef.
    + destruct (list_to_map _ !! id) as [m|] eqn:En; [|done]. apply new_rows_ids in En as (k & Hk' & ->).
      by destruct (issued_fresh _ _ _ Hs Hk' Hr).
  - assert (inc ∈ news E incoming) as Hn by (by apply list_elem_of_filter).
    apply list_elem_of_lookup in Hn as [i Hi]. exists (fmt_d (next_id db + 1 + Z.of_nat i)), (with_id inc (fmt_d (next_id db + 1 + Z.of_nat i))).
    split; [|done]. apply lookup_union_Some_l. by apply new_rows_lookup.
Qed.

(** * Theorems *)

(** A model is found under its channel and name whatever the indexes hold. After
    any history the lookup answers with a stored row of that channel and name if the
    listing has one; when it answers that there is none, none has that name; and
    looking again gives the same row without touching the store. *)
Theorem route_lookup_exact `{UnicodeTable} ops channel modelID : history empty_db ops ->
  let db := foldl model_op empty_db ops in
  match GetModelByChannelAndModelID smembers channel modelID db with
  | (Ok m, db') =>
      GetModel (ID m) db = Ok m /\ TrimSpace (ModelID m) = TrimSpace modelID /\
      normalizeModelChannelKey (Channel m) = normalizeModelChannelKey channel /\
      rows db' = rows db /\ ids db' = ids db /\ next_id db' = next_id db /\
      GetModelByChannelAndModelID smembers channel modelID db' = (Ok m, db')
  | (Err e, db') =>
      e = "model not found" /\ db' = db /\
      (TrimSpace modelID = EmptyString \/
       forall id m, rows db !! id = Some m -> normalizeModelChannelKey (Channel m) = normalizeModelChannelKey channel ->
                    ModelID m <> TrimSpace modelID)
  end.
Proof. intros Hh. apply route_lookup_spec, history_keeps; [apply empty_sound|done]. Qed.

(** A channel has at most one default model after any sequence of creations,
    updates, deletions, lookups and catalogue reconciliations whose snapshots name
    no default, and every row lies under an id the counter issued, exactly once. *)
Theorem default_unique `{UnicodeTable} ops : history empty_db ops -> Forall no_default ops ->
  let db := foldl model_op empty_db ops in
  sound db /\ one_default db.
Proof.
  intros Hh Hn. destruct (history_keeps empty_db ops empty_sound Hh) as [Hs Ho]. split; [done|].
  apply Ho; [|done]. intros id1 id2 m1 m2 H1. cbn in H1. by rewrite lookup_empty in H1.
Qed.


(** An authoritative catalogue of one provider of a channel is what the channel
    offers afterwards: every row of that provider is a model of the snapshot, every
    model of the snapshot has a row, no two rows of the channel share a name, and the
    rows of the other channels are as they were. *)
Theorem scoped_snapshot_authoritative `{UnicodeTable} now channel models options db incoming :
  let key := normalizeModelChannelKey channel in
  let scope := lua_lower (lower_trim (ProviderScope options)) in
  sound db -> distinct_routes key db -> key <> EmptyString -> prepare_rows now channel [] models = Ok incoming ->
  Prune options = true -> scope <> EmptyString ->
  let db' := (ReconcileDiscoveredModels smembers now channel models options db).2 in
  (forall id m', rows db' !! id = Some m' -> lua_channel m' = key -> lua_lower (Provider m') = scope ->
     exists inc, inc ∈ incoming /\ offer m' = offer inc) /\
  (forall inc, inc ∈ incoming -> exists id m', rows db' !! id = Some m' /\ offer m' = offer inc) /\
  distinct_routes key db' /\
  (forall id m, rows db !! id = Some m -> lua_channel m <> key -> rows db' !! id = Some m).
Proof.
  intros key scope Hs Hd Hk Hp Hprune Hsc. cbn zeta. unfold ReconcileDiscoveredModels.
  apply String.eqb_neq in Hk. fold key. rewrite Hk, Hp, Hprune. cbn [snd]. fold scope.
  destruct (prepare_rows_ok _ _ _ _ _ Hp) as (_ & Hnd & _).
  pose proof (script_rows key scope true incoming db Hs Hd Hnd) as Hr.
  set (db' := s_db _) in *. split_and!.
  - intros id m'. rewrite Hr. intros [(i & inc & Hi & -> & ->)|(m & Hm & Ha)]%reconciled_cases Hc Hpr.
    + exists inc. split; [|done]. apply list_elem_of_lookup_2 in Hi. by apply list_elem_of_filter in Hi as [_ ?].
    + by eapply scoped_row.
  - intros inc Hin. rewrite Hr. by apply published_row.
  - by eapply reconciled_distinct.
  - intros id m Hm Hc. rewrite Hr. unfold reconciled_rows. rewrite lookup_union_r.
    + rewrite lookup_omap, Hm. cbn. unfold after. apply String.eqb_neq in Hc. by rewrite Hc.
    + destruct (list_to_map _ !! id) as [x|] eqn:En; [|done]. apply new_rows_ids in En as (k & Hk' & ->).
      by destruct (issued_fresh _ _ _ Hs Hk' Hm).
Qed.
End RedisLemmas.

(** * Witnesses *)
#[local] Instance plain_print : UnicodeTable := {| IsPrint := fun _ => true |}.
#[local] Arguments elements : simpl never.

Definition blank_row : Model := mkModel "" "" "" "" "" false false 0 "" "" [] "" "" "" [] None.
Definition sample_model (channel modelID : string) (default : bool) : Model :=
  blank_row <| Channel := channel |> <| ModelID := modelID |> <| Name := modelID |> <| Status := "Enabled" |>
            <| IsDefault := default |>.
Definition build_model (modelID : string) : option Model := Some (sample_model "" modelID false <| Provider := "Build" |>).
Definition scoped : ModelReconcileOptions := mkReconcileOptions true "build".

(** Two rows, the first renamed: the index of the old name is gone, the global one is
    stale. Then a scoped catalogue replaces the plane. *)
Definition sample_history : list ModelOp :=
  [OpCreate 5 (sample_model "Grok" "grok-4.5" true); OpCreate 6 (sample_model "Grok" "grok-old" true);
   OpUpdate 7 (sample_model "Grok" "grok-4.6" true <| ID := "1" |> <| CreatedAt := Some 5%Z |>);
   OpLookup "grok" " grok-4.6 ";
   OpReconcile 9 "grok" [build_model "grok-4.6"; build_model " grok-5 "] scoped; OpDelete "2"].
Definition sample_models : Db := foldl (model_op elements) empty_db sample_history.

Lemma sample_history_ok : history elements empty_db sample_history.
Proof. split_and!; try exact I; by vm_compute. Qed.

Example sample_models_rows :
  ((fun m => (ID m, ModelID m, Origin m, IsDefault m, created m)) <$> ListModels elements sample_models,
   next_id sample_models) =
  ([("1", "grok-4.6", "discovery", false, 5%Z); ("3", "grok-5", "discovery", false, 9%Z)], 3%Z).
Proof. vm_compute. reflexivity. Qed.

Lemma route_lookup_exact_witness :
  exists m db', GetModelByChannelAndModelID elements "grok" "grok-5" sample_models = (Ok m, db') /\
    GetModel (ID m) sample_models = Ok m /\ rows db' = rows sample_models.
Proof.
  pose proof (route_lookup_exact elements (fun X => reflexivity _) sample_history "grok" "grok-5" sample_history_ok) as H.
  cbn zeta in H. unfold sample_models.
  destruct (GetModelByChannelAndModelID elements "grok" "grok-5" _) as [[m|e] db'] eqn:E.
  - destruct H as (Hm & _ & _ & Hr & _). exact (ex_intro _ m (ex_intro _ db' (conj eq_refl (conj Hm Hr)))).
  - vm_compute in E. discriminate E.
Defined.

Lemma default_unique_witness : sound sample_models /\ one_default sample_models.
Proof.
  apply (default_unique elements (fun X => reflexivity _) sample_history sample_history_ok).
  repeat constructor. intros m. rewrite !elem_of_cons. by intros [[= ->]|[[= ->]|[]%not_elem_of_nil]].
Defined.

(** Before the catalogue: an operator's row, a discovered one and a foreign one. *)
Definition early_history : list ModelOp :=
  [OpCreate 5 (sample_model "Grok" "grok-4.6" true); OpCreate 6 (sample_model "Grok" "grok-old" true)].
Definition before_catalogue : Db := foldl (model_op elements) empty_db early_history.
Definition sample_snapshot : list (option Model) := [build_model "grok-4.6"; build_model " grok-5 "].

Lemma before_catalogue_sound : sound before_catalogue.
Proof.
  assert (history elements empty_db early_history) as H by (repeat (split; [exact I|]); exact I).
  exact (proj1 (history_keeps elements (fun X => reflexivity _) empty_db early_history empty_sound H)).
Qed.
Lemma before_catalogue_distinct : distinct_routes "grok" before_catalogue.
Proof.
  intros id1 id2 m1 m2 H1 H2 _ _ K.
  assert (forall id m, rows before_catalogue !! id = Some m -> (id, ModelID m) ∈ [("1", "grok-4.6"); ("2", "grok-old")]) as Hall.
  { intros id m H. assert (map_Forall (fun id m => (id, ModelID m) ∈ [("1", "grok-4.6"); ("2", "grok-old")]) (rows before_catalogue))
      as Hf by (apply (bool_decide_unpack _); by vm_compute). by apply Hf in H. }
  apply Hall in H1, H2. rewrite K in H1. rewrite !elem_of_cons in H1, H2. clear Hall K.
  destruct H1 as [[= -> E1]|[[= -> E1]|[]%not_elem_of_nil]], H2 as [[= -> E2]|[[= -> E2]|[]%not_elem_of_nil]]; congruence.
Qed.


Lemma scoped_snapshot_authoritative_witness :
  exists incoming, prepare_rows 9 "grok" [] sample_snapshot = Ok incoming /\
    distinct_routes "grok" (ReconcileDiscoveredModels elements 9 "grok" sample_snapshot scoped before_catalogue).2.
Proof.
  destruct (prepare_rows 9 "grok" [] sample_snapshot) as [incoming|e] eqn:E; [|by vm_compute in E].
  exists incoming. split; [done|].
  apply (scoped_snapshot_authoritative elements (fun X => reflexivity _) 9 "grok" sample_snapshot scoped before_catalogue
    incoming before_catalogue_sound before_catalogue_distinct ltac:(by vm_compute) E eq_refl ltac:(by vm_compute)).
Defined.

(** A catalogue that marks its own default, as the refresh of the server publishes
    it, leaves an operator's default beside it. *)
Example two_defaults :
  let db := (CreateModel elements 5 (sample_model "qoder" "mine" true) empty_db).2 in
  let snapshot := [Some (sample_model "" "theirs" true)] in
  let db' := (ReconcileDiscoveredModels elements 9 "qoder" snapshot (mkReconcileOptions true "") db).2 in
  (fun m => (ModelID m, Origin m, IsDefault m)) <$> ListModels elements db' =
    [("mine", "manual", true); ("theirs", "discovery", true)].
Proof. vm_compute. reflexivity. Qed.

(** A state written as the operator typed it reads as one of the three. *)
Example states :
  map ModelStatus_UnmarshalJSON ["true"; " null "; quoted "Maint"; quoted " ON "; "3"; "[]"; quoted "gone"; ""] =
    ["available"; "offline"; "maintenance"; "available"; "offline"; "offline"; "offline"; "offline"].
Proof. vm_compute. reflexivity. Qed.

(** The start-up maintenance: the retired row of Grok goes, its namesake elsewhere
    stays, and the route of the other Grok row is filled in. *)
Example prepared_models :
  let db0 := foldl (model_op elements) empty_db
    [OpCreate 5 (sample_model "Grok" "grok-4.3" false); OpCreate 6 (sample_model "qoder" "grok-4.3" false);
     OpCreate 7 (sample_model "grok" "build/grok-4.5" false)] in
  (fun m => (Channel m, ModelID m, Provider m, UpstreamModel m, Origin m))
    <$> ListModels elements (prepareModels elements 9 deprecatedModelIDs db0) =
  [("qoder", "grok-4.3", "", "", "manual"); ("grok", "build/grok-4.5", "build", "grok-4.5", "catalog")].
Proof. vm_compute. reflexivity. Qed.
