(* ===== verification/Prompt.v ===== *)
(** * The request as the client sends it

    The message types and their decoding: src/internal/prompt/prompt.go,
    src/internal/handler/system_items.go and generation_controls.go, and the request
    struct of src/internal/handler/handler.go. A JSON text is given as its decoded
    value; a field of type [interface{}] keeps it. OpenAI-style tool calls and tool
    messages become the blocks of the Anthropic dialect. *)

From Stdlib Require Import Ascii.
From Corelib Require Import SpecFloat.
From stdpp Require Import base numbers list strings.
From S2P Require Import Prelude GoLib Json Marshal.

Local Open Scope orchids_scope.

(** ** Decoding into an [interface{}] and the maps built of it *)
Definition as_any (v : option json) : option json :=
  let j := default JNull v in if numbers_in_range j then Some j else None.
Definition as_map (v : option json) : option (option (list (string * json))) :=
  j ← as_any v; match j with JNull => Some None | JObj fs => Some (Some fs) | _ => None end.
Definition as_int_ptr (v : option json) : option (option Z) :=
  match v with None | Some JNull => Some None | _ => Some <$> as_int v end.
Definition as_float_ptr (v : option json) : option (option float64) :=
  match v with
  | None | Some JNull => Some None
  | Some (JNum lit) => Some <$> ParseFloat lit
  | _ => None
  end.
(** A struct: a null leaves its zero value. *)
Definition as_struct {A} (decode : list (string * json) -> option A) (v : option json) : option A :=
  match v with
  | None | Some JNull => decode []
  | Some (JObj fs) => decode fs
  | _ => None
  end.
Definition as_ptr {A} (decode : list (string * json) -> option A) (v : option json) : option (option A) :=
  match v with
  | None | Some JNull => Some None
  | Some (JObj fs) => Some <$> decode fs
  | _ => None
  end.

(** ** Blocks *)
Record ImageSource := mkImageSource { is_Type : string; is_MediaType : string; is_Data : string; is_URL : string }.
Definition decode_source (fs : list (string * json)) : option ImageSource :=
  let f k := struct_field k fs in
  type ← as_string (f "type"); media ← as_string (f "media_type"); data ← as_string (f "data"); url ← as_string (f "url");
  Some (mkImageSource type media data url).

(** A marker is its type. *)
Definition CacheControl : Type := string.
Definition decode_cache (fs : list (string * json)) : option CacheControl := as_string (struct_field "type" fs).

Record ContentBlock := mkBlock {
  ToolIndex : option Z;
  Type_ : string;
  b_Text : string;
  Source : option ImageSource;
  URL : string;
  ID : string;
  Name : string;
  Input : json;
  Thinking : string;
  Signature : string;
  ToolUseID : string;
  b_Content : json;
  IsError : bool;
  Cache : option CacheControl
}.
#[export] Instance ContentBlock_eta : Eta ContentBlock := fun b => mkBlock (ToolIndex b) (Type_ b) (b_Text b) (Source b)
  (URL b) (ID b) (Name b) (Input b) (Thinking b) (Signature b) (ToolUseID b) (b_Content b) (IsError b) (Cache b).
Definition empty_block : ContentBlock := mkBlock None "" "" None "" "" "" JNull "" "" "" JNull false None.

Definition decode_block (fs : list (string * json)) : option ContentBlock :=
  let f k := struct_field k fs in
  index ← as_int_ptr (f "index"); type ← as_string (f "type"); text ← as_string (f "text");
  source ← as_ptr decode_source (f "source"); url ← as_string (f "url"); id ← as_string (f "id");
  name ← as_string (f "name"); input ← as_any (f "input"); thinking ← as_string (f "thinking");
  signature ← as_string (f "signature"); use_id ← as_string (f "tool_use_id"); content ← as_any (f "content");
  is_error ← as_bool (f "is_error"); cache ← as_ptr decode_cache (f "cache_control");
  Some (mkBlock index type text source url id name input thinking signature use_id content is_error cache).

(** A union: the text when there are no blocks. *)
Record MessageContent := mkContent { Text : string; Blocks : option (list ContentBlock) }.

Definition IsString (c : MessageContent) : bool := match Blocks c with None => true | Some _ => false end.
Definition GetBlocks (c : MessageContent) : list ContentBlock := default [] (Blocks c).

Definition MessageContent_UnmarshalJSON (j : json) : option MessageContent :=
  match j with
  | JNull => Some (mkContent EmptyString None)
  | JStr text => Some (mkContent text None)
  | JArr _ => blocks ← as_list (as_struct decode_block) (Some j); Some (mkContent EmptyString (Some blocks))
  | _ => None
  end.

Definition newline : string := String (ascii_of_nat 10) EmptyString.
Fixpoint Join (parts : list string) (sep : string) : string :=
  match parts with
  | [] => EmptyString
  | [p] => p
  | p :: rest => p +:+ sep +:+ Join rest sep
  end.

Definition text_blocks (blocks : list ContentBlock) : list string :=
  filter (fun t => t <> EmptyString)
    ((fun b => TrimSpace (b_Text b)) <$> filter (fun b => Type_ b = "text") blocks).

Definition ExtractText (c : MessageContent) : string :=
  match Blocks c with
  | None => TrimSpace (Text c)
  | Some blocks => TrimSpace (Join (text_blocks blocks) newline)
  end.

(** ** Messages *)
Record Message := mkMessage {
  Role : string;
  Content : MessageContent;
  ReasoningContent : string;
  ReasoningItem : option json
}.
#[export] Instance Message_eta : Eta Message := fun m => mkMessage (Role m) (Content m) (ReasoningContent m) (ReasoningItem m).

Record openAIToolCall := mkCall { c_Index : option Z; c_ID : string; c_Type : string; c_Name : string; c_Arguments : string }.

Definition decode_call (fs : list (string * json)) : option openAIToolCall :=
  let f k := struct_field k fs in
  index ← as_int_ptr (f "index"); id ← as_string (f "id"); type ← as_string (f "type");
  '(name, arguments) ← as_struct (fun fs =>
     name ← as_string (struct_field "name" fs); arguments ← as_string (struct_field "arguments" fs);
     Some (name, arguments)) (f "function");
  Some (mkCall index id type name arguments).

Definition decodeOpenAIToolArguments (raw : string) : json :=
  let trimmed := TrimSpace raw in
  if String.eqb trimmed EmptyString then JObj []
  else match UnmarshalAny trimmed with
       | Some JNull => JObj []
       | Some (JObj fs) => JObj fs
       | Some value => JObj [("value", value)]
       | None => JObj [("raw", JStr trimmed)]
       end.

Definition tool_use_block (call : openAIToolCall) : option ContentBlock :=
  let name := TrimSpace (c_Name call) in
  if String.eqb name EmptyString then None
  else Some (empty_block <| ToolIndex := c_Index call |> <| Type_ := "tool_use" |> <| ID := TrimSpace (c_ID call) |>
               <| Name := name |> <| Input := decodeOpenAIToolArguments (c_Arguments call) |>).

Definition text_block (text : string) : ContentBlock := empty_block <| Type_ := "text" |> <| b_Text := text |>.

(** An assistant message with OpenAI tool calls, and a tool message. *)
Definition with_tool_calls (content : MessageContent) (calls : list openAIToolCall) : MessageContent :=
  let own := match Blocks content with
             | None => if String.eqb (TrimSpace (Text content)) EmptyString then [] else [text_block (Text content)]
             | Some blocks => blocks
             end in
  mkContent EmptyString (Some (own ++ omap tool_use_block calls)).

Definition tool_result (content : MessageContent) (id : string) : MessageContent :=
  let text := match Blocks content with None => Text content | Some _ => ExtractText content end in
  mkContent EmptyString (Some [empty_block <| Type_ := "tool_result" |> <| ToolUseID := TrimSpace id |>
                                           <| b_Content := JStr text |>]).

Definition Message_UnmarshalJSON (fs : list (string * json)) : option Message :=
  let f k := struct_field k fs in
  role ← as_string (f "role"); calls ← as_list (as_struct decode_call) (f "tool_calls");
  call_id ← as_string (f "tool_call_id"); reasoning ← as_string (f "reasoning_content");
  content ← MessageContent_UnmarshalJSON (default JNull (f "content"));
  let kind := ToLower (TrimSpace role) in
  let m := mkMessage role content reasoning (f "reasoning_item") in
  Some (if String.eqb kind "assistant" then
          match calls with [] => m | _ => m <| Content := with_tool_calls content calls |> end
        else if String.eqb kind "tool" then m <| Role := "user" |> <| Content := tool_result content call_id |>
        else m).

(** ** System prompt and stop sequences *)
Record SystemItem := mkSystem { s_Type : string; s_Text : string; s_Cache : option CacheControl }.
#[export] Instance SystemItem_eta : Eta SystemItem := fun i => mkSystem (s_Type i) (s_Text i) (s_Cache i).

Definition decode_system (fs : list (string * json)) : option SystemItem :=
  let f k := struct_field k fs in
  type ← as_string (f "type"); text ← as_string (f "text"); cache ← as_ptr decode_cache (f "cache_control");
  Some (mkSystem type text cache).

Definition SystemItems_UnmarshalJSON (v : option json) : option (list SystemItem) :=
  match v with
  | None | Some JNull => Some []
  | Some (JStr text) => Some [mkSystem "text" text None]
  | Some (JArr _) => as_list (as_struct decode_system) v
  | Some (JObj fs) => item ← decode_system fs; Some [item]
  | _ => None
  end.

(** [None] is the nil slice: no sequences given. *)
Definition StopSequences_UnmarshalJSON (v : option json) : option (option (list string)) :=
  match v with
  | None | Some JNull => Some None
  | Some (JStr value) => Some (Some [value])
  | _ => Some <$> as_list as_string v
  end.

(** ** The request *)
Record ClaudeRequest := mkClaudeRequest {
  MaxTokens : option Z;
  MaxCompletionTokens : option Z;
  Temperature : option float64;
  TopP : option float64;
  Stop : option (list string);
  StopSequences : option (list string);
  Model : string;
  Messages : list Message;
  System : list SystemItem;
  Tools : list json;
  ToolChoice : json;
  ParallelToolCalls : option bool;
  IsStream : bool;
  ConversationID : string;
  ConversationIDAlt : string;
  Metadata : list (string * json);
  ReasoningEffort : string;
  OutputConfig : option (list (string * json));
  ThinkingConfig : option (list (string * json));
  ResponseFormat : list (string * json);
  ResponseText : list (string * json);
  Include : list string;
  PromptCacheKey : string;
  ResponsesTools : list (list (string * json));
  MCPServers : list (list (string * json))
}.
#[export] Instance ClaudeRequest_eta : Eta ClaudeRequest := fun r => mkClaudeRequest (MaxTokens r) (MaxCompletionTokens r)
  (Temperature r) (TopP r) (Stop r) (StopSequences r) (Model r) (Messages r) (System r) (Tools r) (ToolChoice r) (ParallelToolCalls r) (IsStream r) (ConversationID r)
  (ConversationIDAlt r) (Metadata r) (ReasoningEffort r) (OutputConfig r) (ThinkingConfig r) (ResponseFormat r)
  (ResponseText r) (Include r) (PromptCacheKey r) (ResponsesTools r) (MCPServers r).

Definition any_map (v : option json) : option (list (string * json)) := default [] <$> as_map v.

Definition decode_request (fs : list (string * json)) : option ClaudeRequest :=
  let f k := struct_field k fs in
  max ← as_int_ptr (f "max_tokens"); max_completion ← as_int_ptr (f "max_completion_tokens");
  temperature ← as_float_ptr (f "temperature"); top_p ← as_float_ptr (f "top_p");
  stop ← StopSequences_UnmarshalJSON (f "stop");
  stops ← (match f "stop_sequences" with None | Some JNull => Some None | v => Some <$> as_list as_string v end);
  model ← as_string (f "model"); messages ← as_list (as_struct Message_UnmarshalJSON) (f "messages");
  system ← SystemItems_UnmarshalJSON (f "system"); tools ← as_list as_any (f "tools");
  choice ← as_any (f "tool_choice"); parallel ← as_bool_ptr (f "parallel_tool_calls"); stream ← as_bool (f "stream");
  conversation ← as_string (f "conversation_id"); alt ← as_string (f "conversationId"); metadata ← any_map (f "metadata");
  effort ← as_string (f "reasoning_effort"); output ← as_map (f "output_config"); thinking ← as_map (f "thinking");
  format ← any_map (f "response_format"); text ← any_map (f "text"); include ← as_list as_string (f "include");
  cache_key ← as_string (f "prompt_cache_key"); hosted ← as_list any_map (f "x_responses_tools");
  servers ← as_list any_map (f "mcp_servers");
  Some (mkClaudeRequest max max_completion temperature top_p stop stops model messages system tools choice parallel stream conversation alt metadata
          effort output thinking format text include cache_key hosted servers).

Definition outputTokenLimit (r : ClaudeRequest) : option Z :=
  match MaxCompletionTokens r with Some n => Some n | None => MaxTokens r end.

Definition stopSequences (r : ClaudeRequest) : option (list string) :=
  match StopSequences r with Some l => Some l | None => Stop r end.

(** * Lemmas *)

(** The blocks of an assistant message: its own, then one for every tool call that
    has a name, in order. *)
Lemma with_tool_calls_uses content calls : calls <> [] ->
  exists own, GetBlocks (with_tool_calls content calls) = own ++ omap (M := list) tool_use_block calls /\
    (forall b, b ∈ own -> b ∈ GetBlocks content \/ b = text_block (Text content)) /\
    (fun c => TrimSpace (c_Name c)) <$> filter (fun c => TrimSpace (c_Name c) <> EmptyString) calls
      = Name <$> omap (M := list) tool_use_block calls.
Proof.
  intros _. eexists. split; [reflexivity|]. split.
  - intros b. unfold GetBlocks. destruct (Blocks content); cbn; [auto|].
    destruct (String.eqb _ _); [by intros ?%not_elem_of_nil|]. intros ->%list_elem_of_singleton. auto.
  - induction calls as [|c calls IH]; [done|]. rewrite filter_cons. cbn [omap list_omap]. unfold tool_use_block at 1.
    destruct (String.eqb (TrimSpace (c_Name c)) EmptyString) eqn:E.
    + apply String.eqb_eq in E. by rewrite decide_False by (intros H; by apply H).
    + apply String.eqb_neq in E. rewrite decide_True by done. cbn. by rewrite IH.
Qed.

Example chat_dialect :
  let call name arguments := JObj [("id", JStr " c1 "); ("function", JObj [("name", JStr name); ("arguments", JStr arguments)])] in
  let m fs := (fun m => (Role m, (fun b => (Type_ b, Name b, Input b, ToolUseID b, b_Content b)) <$> GetBlocks (Content m)))
                <$> Message_UnmarshalJSON fs in
  (m [("role", JStr "assistant"); ("content", JStr "ok"); ("tool_calls", JArr [call "Read" "[1]"; call " " "{}"; call "Bash" "{"])],
   m [("role", JStr "Tool"); ("tool_call_id", JStr "c1"); ("content", JArr [JObj [("type", JStr "text"); ("text", JStr " done ")]])]) =
  (Some ("assistant", [("text", "", JNull, "", JNull); ("tool_use", "Read", JObj [("value", JArr [JNum "1"])], "", JNull);
                       ("tool_use", "Bash", JObj [("raw", JStr "{")], "", JNull)]),
   Some ("user", [("tool_result", "", JNull, "c1", JStr "done")])).
Proof. vm_compute. reflexivity. Qed.
