(* ===== verification/Structured.v ===== *)
(** * Structured output (internal/upstream/protocol.go, schema.go, structured.go)

    The protocol controls of a request, the schema of a strict one, and the check of
    the answer against it: the answer is looked for inside the text the model sent,
    decoded and walked along the schema. The walk stops accepting at 32 levels. The
    texts of the errors are kept as values ([schema_error]); of several errors of one
    object Go reports any one, the model the first in the order of the keys. *)

From Stdlib Require Import Ascii.
From Corelib Require Import SpecFloat.
From stdpp Require Import base numbers list strings.
From S2P Require Import Prelude GoLib Json Marshal Prompt.

Local Open Scope orchids_scope.

(** ** The schema *)
Definition Schema : Type := list (string * json).

Definition CompileSchema (raw : json) : option Schema :=
  match raw with JObj (kv :: rest) => Some (kv :: rest) | _ => None end.

Inductive schema_error :=
  | ErrType (path : string) (allowed : list string) (got : string)
  | ErrEnum (path : string)
  | ErrConst (path : string)
  | ErrMissing (path key : string)
  | ErrExtra (path key : string)
  | ErrDateTime (path value : string)
  | ErrUri (path value : string)
  | ErrBelow (path : string) (value bound : float64)
  | ErrAbove (path : string) (value bound : float64).

Definition schemaString (v : option json) : option string :=
  match v with
  | Some (JStr text) => let text := TrimSpace text in if String.eqb text EmptyString then None else Some text
  | _ => None
  end.

Definition nonblank (j : json) : option string :=
  match j with JStr text => if String.eqb (TrimSpace text) EmptyString then None else Some text | _ => None end.

Definition schemaStringList (v : option json) : list string :=
  match v with Some (JArr items) => omap nonblank items | _ => [] end.

Definition schemaTypeSet (v : json) : list string :=
  match v with
  | JStr typed => let text := TrimSpace typed in if String.eqb text EmptyString then [] else [text]
  | JArr items => omap nonblank items
  | _ => []
  end.

Definition jsonTypeOf (v : json) : string :=
  match v with
  | JNull => "null" | JBool _ => "boolean" | JStr _ => "string"
  | JArr _ => "array" | JObj _ => "object" | JNum _ => "number"
  end.

Definition valueOfNumberAny (v : option json) : option float64 :=
  match v with Some (JNum lit) => ParseFloat lit | _ => None end.

(** [math.Trunc(x) == x] of a finite number. *)
Definition is_integral (x : float64) : bool :=
  match x with
  | S754_zero _ => true
  | S754_finite _ m e => (0 <=? e)%Z || (Z.pos m mod 2 ^ (- e) =? 0)%Z
  | _ => false
  end.

Definition jsonEqual (left right : json) : bool :=
  match left, right with
  | JNull, JNull => true
  | JNull, _ | _, JNull => false
  | _, _ => String.eqb (Marshal left) (Marshal right)
  end.

Definition digits_at (s : string) (first last : nat) : bool :=
  forallb (fun i => match String.get i s with Some a => digit a | None => true end) (seq first (last - first)).
Definition byte_at (s : string) (i n : nat) : bool :=
  match String.get i s with Some a => is_byte n a | None => false end.

Definition looksLikeDateTime (v : string) : bool :=
  if (String.length v <? 19)%nat then false
  else digits_at v 0 4 && byte_at v 4 45 && digits_at v 5 7 && byte_at v 7 45 && digits_at v 8 10
       && (byte_at v 10 84 || byte_at v 10 116) && digits_at v 11 13 && byte_at v 13 58 && digits_at v 14 16
       && byte_at v 16 58 && digits_at v 17 19.

(** The checks of one value at one place of the schema: [None] is acceptance. *)
Definition validateType (schema : Schema) (v : json) (path : string) : option schema_error :=
  match field "type" schema with
  | None => None
  | Some wanted =>
      let allowed := schemaTypeSet wanted in
      let admits t := existsb (String.eqb t) allowed in
      match allowed with
      | [] => None
      | _ =>
          if admits (jsonTypeOf v) then None
          else match v with
               | JNum lit => if admits "integer" && match ParseFloat lit with Some x => is_integral x | None => false end
                             then None else Some (ErrType path allowed "number")
               | _ => Some (ErrType path allowed (jsonTypeOf v))
               end
      end
  end.

Definition validateEnum (schema : Schema) (v : json) (path : string) : option schema_error :=
  match field "enum" schema with
  | Some (JArr (o :: options)) => if existsb (fun option => jsonEqual option v) (o :: options) then None else Some (ErrEnum path)
  | _ => None
  end.

Definition validateConst (schema : Schema) (v : json) (path : string) : option schema_error :=
  match field "const" schema with
  | Some constant => if jsonEqual constant v then None else Some (ErrConst path)
  | None => None
  end.

Definition validateString (schema : Schema) (v path : string) : option schema_error :=
  match schemaString (field "format" schema) with
  | Some format =>
      if String.eqb format "date-time" then if looksLikeDateTime v then None else Some (ErrDateTime path v)
      else if String.eqb format "uri" then
        if negb (Contains v ":")
           || match IndexAny v (" " +:+ String (ascii_of_nat 10) (String (ascii_of_nat 9) EmptyString)) with
              | Some _ => true | None => false end
        then Some (ErrUri path v) else None
      else None
  | None => None
  end.

Definition validateNumber (schema : Schema) (v : float64) (path : string) : option schema_error :=
  match valueOfNumberAny (field "minimum" schema) with
  | Some min => if f64_lt v min then Some (ErrBelow path v min)
                else match valueOfNumberAny (field "maximum" schema) with
                     | Some max => if f64_lt max v then Some (ErrAbove path v max) else None
                     | None => None
                     end
  | None => match valueOfNumberAny (field "maximum" schema) with
            | Some max => if f64_lt max v then Some (ErrAbove path v max) else None
            | None => None
            end
  end.

Definition or_else_error {A} (first second : option A) : option A := match first with Some e => Some e | None => second end.
Fixpoint first_some {A B} (f : A -> option B) (l : list A) : option B :=
  match l with [] => None | x :: rest => or_else_error (f x) (first_some f rest) end.

Definition schema_properties (schema : Schema) : list (string * json) :=
  match field "properties" schema with Some (JObj props) => props | _ => [] end.

(** The keys an object must have and may have. *)
Definition validateKeys (schema : Schema) (fs : list (string * json)) (path : string) : option schema_error :=
  let missing := first_some (fun key => match field key fs with Some _ => None | None => Some (ErrMissing path key) end)
                   (schemaStringList (field "required" schema)) in
  let extra := match field "additionalProperties" schema with
               | Some (JBool false) =>
                   first_some (fun kv => match field kv.1 (schema_properties schema) with
                                         | Some _ => None | None => Some (ErrExtra path kv.1) end) fs
               | _ => None
               end in
  or_else_error missing extra.

Definition lookupDef (root : Schema) (name : string) : option Schema :=
  match field "$defs" root with
  | Some (JObj defs) => match field name defs with Some (JObj target) => Some target | _ => None end
  | _ => None
  end.

(** The reference of a schema into the definitions of the root. *)
Definition schema_ref (schema : Schema) : option string :=
  match schemaString (field "$ref" schema) with
  | Some ref => if HasPrefix ref "#/$defs/" then Some (TrimPrefix ref "#/$defs/") else None
  | None => None
  end.

Definition validateHere (schema : Schema) (v : json) (path : string) : option schema_error :=
  or_else_error (validateType schema v path)
    (or_else_error (validateEnum schema v path)
       (or_else_error (validateConst schema v path)
          match v with
          | JObj fs => validateKeys schema fs path
          | JStr s => validateString schema s path
          | JNum lit => match ParseFloat lit with Some x => validateNumber schema x path | None => None end
          | _ => None
          end)).

Definition maxSchemaDepth : nat := 32.

(** [fuel] is the number of levels that are still checked: [maxSchemaDepth + 1] at
    the root, none beyond it. *)
Fixpoint validate (root : Schema) (fuel : nat) (schema : Schema) (v : json) (path : string) : option schema_error :=
  match fuel with
  | O => None
  | S fuel =>
      match schema_ref schema with
      | Some name => match lookupDef root name with Some target => validate root fuel target v path | None => None end
      | None =>
          or_else_error (validateHere schema v path)
            match v with
            | JObj fs => first_some (fun kv => match field kv.1 (schema_properties schema) with
                                               | Some (JObj property) => validate root fuel property kv.2 (path +:+ "." +:+ kv.1)
                                               | _ => None
                                               end) fs
            | JArr items => match field "items" schema with
                            | Some (JObj item_schema) =>
                                first_some (fun ix => validate root fuel item_schema ix.2
                                                        (path +:+ "[" +:+ fmt_d (Z.of_nat ix.1) +:+ "]"))
                                  (imap pair items)
                            | _ => None
                            end
            | _ => None
            end
      end
  end.

Definition Schema_Validate (s : option Schema) (v : json) : option schema_error :=
  match s with
  | Some root => if bool_decide (root = []) then None else validate root (S maxSchemaDepth) root v "$"
  | None => None
  end.

(** ** The answer inside the text *)

(** The state of a scan over JSON strings. *)
Record Scan := mkScan { inString : bool; escaped : bool }.
Definition scan_byte (s : Scan) (a : ascii) : Scan :=
  if inString s then
    if escaped s then mkScan true false
    else if is_byte 92 a then mkScan true true
    else if is_byte 34 a then mkScan false false else s
  else if is_byte 34 a then mkScan true (escaped s) else s.

Fixpoint unquoted_from (want : nat) (s : Scan) (text : string) : option nat :=
  match text with
  | EmptyString => None
  | String a rest =>
      if negb (inString s) && negb (is_byte 34 a) && is_byte want a then Some 0
      else S <$> unquoted_from want (scan_byte s a) rest
  end.
Definition firstUnquotedIndex (text : string) (want : nat) : option nat := unquoted_from want (mkScan false false) text.

(** The text up to the byte that brings the depth back to zero. *)
Fixpoint balanced_from (open close : nat) (s : Scan) (depth : Z) (text : string) : option string :=
  match text with
  | EmptyString => None
  | String a rest =>
      let go depth := String a <$> balanced_from open close (scan_byte s a) depth rest in
      if inString s || is_byte 34 a then go depth
      else if is_byte open a then go (depth + 1)%Z
      else if is_byte close a then
        if (depth - 1 =? 0)%Z then Some (String a EmptyString) else go (depth - 1)%Z
      else go depth
  end.
Definition closing (open : nat) : nat := if (open =? 91)%nat then 93 else 125.
Definition balancedJSONPrefix (text : string) (open : nat) : option string :=
  balanced_from open (closing open) (mkScan false false) 0 text.

Definition fence : string := "```".
Definition unwrapCodeFence (text : string) : option string :=
  if HasPrefix text fence then
    let rest := sdrop 3 text in
    match Index rest newline with
    | Some i => let rest := sdrop (S i) rest in
                Some match Index rest fence with Some end_ => stake end_ rest | None => rest end
    | None => None
    end
  else None.

Definition candidate_at (text : string) (open : nat) : option string :=
  i ← firstUnquotedIndex text open; balancedJSONPrefix (sdrop i text) open.

Definition extractStructuredCandidate (text : string) : string :=
  let trimmed := TrimSpace text in
  let trimmed := match unwrapCodeFence trimmed with Some inner => TrimSpace inner | None => trimmed end in
  match candidate_at trimmed 123 with
  | Some candidate => candidate
  | None => default EmptyString (candidate_at trimmed 91)
  end.

(** [decoder.Decode] of the first value of a text. *)
Definition Decode (s : string) : option json :=
  '(v, _) ← value_fuel (S (String.length s)) s; if numbers_in_range v then Some v else None.

Inductive answer_error := NoJSON | NotValidJSON | Mismatch (e : schema_error).

Definition Validate (structured : option Schema) (text : string) : option answer_error :=
  match structured with
  | None => None
  | Some schema =>
      if String.eqb (TrimSpace text) EmptyString then None
      else
        let candidate := extractStructuredCandidate text in
        if String.eqb candidate EmptyString then Some NoJSON
        else match Decode candidate with
             | None => Some NotValidJSON
             | Some v => Mismatch <$> Schema_Validate (Some schema) v
             end
  end.

(** ** The controls of a request *)
Record Controls := mkControls {
  k_Format : list (string * json);
  k_Text : list (string * json);
  k_Include : list string;
  k_CacheKey : string;
  k_HostedTools : list (list (string * json))
}.

Inductive protocol_error :=
  | HostedTools (provider : string)
  | IncludeItems (provider : string) (items : list string)
  | TextControl (provider key : string)
  | EnvelopeNotObject
  | SchemaNotObject
  | FormatType (type : option json)
  | QoderCacheKey.

Definition is_nil (v : option json) : bool := match v with None | Some JNull => true | _ => false end.

(** [fmt.Sprint] of the type field, as far as its comparisons go: a value that is no
    string prints as none of the names. *)
Definition type_word (v : option json) : option string :=
  match v with Some (JStr text) => Some (TrimSpace text) | _ => None end.

Definition lowered : list string := ["name"; "schema"; "strict"; "description"].

Definition ChatResponseFormat (c : Controls) : list (string * json) :=
  let f := match field "format" (k_Text c) with Some (JObj v) => v | _ => k_Format c end in
  if negb (match field "type" f with Some (JStr t) => String.eqb t "json_schema" | _ => false end) || negb (is_nil (field "json_schema" f))
  then f
  else
    let schema := omap (M := list) (fun key => pair key <$> field key f) lowered in
    let schema := if is_nil (field "name" schema) then set_field "name" (JStr "response") schema else schema in
    set_field "json_schema" (JObj schema) (foldl (fun out kv => del_field kv.1 out) f schema).

Definition ValidateProtocolControls (provider : string) (c : Controls) : option protocol_error :=
  if negb (bool_decide (k_HostedTools c = [])) then Some (HostedTools provider)
  else if negb (bool_decide (k_Include c = [])) then Some (IncludeItems provider (k_Include c))
  else
    or_else_error
      (first_some (fun kv => if String.eqb kv.1 "format" then None else Some (TextControl provider kv.1)) (k_Text c))
      (let format := ChatResponseFormat c in
       or_else_error
         (if bool_decide (format = []) then None
          else match type_word (field "type" format) with
               | Some word =>
                   if String.eqb word "text" || String.eqb word "json_object" then None
                   else if String.eqb word "json_schema" then
                     match field "json_schema" format with
                     | Some (JObj envelope) =>
                         match field "schema" envelope with Some (JObj _) => None | _ => Some SchemaNotObject end
                     | _ => Some EnvelopeNotObject
                     end
                   else Some (FormatType (field "type" format))
               | None => Some (FormatType (field "type" format))
               end)
         (if String.eqb provider "qoder" && negb (String.eqb (TrimSpace (k_CacheKey c)) EmptyString)
          then Some QoderCacheKey else None)).

Definition StrictSchema (c : Controls) : option Schema :=
  let format := ChatResponseFormat c in
  match type_word (field "type" format) with
  | Some word =>
      if EqualFold word "json_schema" then
        match field "json_schema" format with
        | Some (JObj envelope) =>
            match field "strict" envelope with
            | Some (JBool true) => CompileSchema (default JNull (field "schema" envelope))
            | _ => None
            end
        | _ => None
        end
      else None
  | None => None
  end.

Definition NewStructuredOutput (c : Controls) : option Schema := StrictSchema c.

Definition hint_text : string :=
  "Respond with JSON only. The response must validate against this JSON Schema. Output nothing but the JSON value: no prose, no explanation, and no markdown code fence."
  +:+ newline +:+ "Schema:" +:+ newline.

Definition SystemHint (structured : option Schema) : string :=
  match structured with Some root => hint_text +:+ Marshal (JObj root) | None => EmptyString end.

Definition PrependSystemHint (system : list SystemItem) (hint : string) : list SystemItem :=
  if String.eqb (TrimSpace hint) EmptyString then system else mkSystem "text" hint None :: system.

(** * Lemmas

    ** What a schema asks

    The keywords, each as a condition on the value. *)
Definition of_type (v : json) (t : string) : Prop :=
  t = jsonTypeOf v \/ t = "integer" /\ exists lit x, v = JNum lit /\ ParseFloat lit = Some x /\ is_integral x = true.

Record admits (schema : Schema) (v : json) : Prop := {
  ad_type : forall wanted, field "type" schema = Some wanted -> schemaTypeSet wanted <> [] ->
    exists t, t ∈ schemaTypeSet wanted /\ of_type v t;
  ad_enum : forall options, field "enum" schema = Some (JArr options) -> options <> [] ->
    exists o, o ∈ options /\ jsonEqual o v = true;
  ad_const : forall c, field "const" schema = Some c -> jsonEqual c v = true;
  ad_required : forall fs key, v = JObj fs -> key ∈ schemaStringList (field "required" schema) -> is_Some (field key fs);
  ad_closed : forall fs kv, v = JObj fs -> field "additionalProperties" schema = Some (JBool false) -> kv ∈ fs ->
    is_Some (field kv.1 (schema_properties schema));
  ad_string : forall s, v = JStr s -> validateString schema s EmptyString = None;
  ad_range : forall lit x, v = JNum lit -> ParseFloat lit = Some x ->
    (forall b, valueOfNumberAny (field "minimum" schema) = Some b -> f64_lt x b = false) /\
    (forall b, valueOfNumberAny (field "maximum" schema) = Some b -> f64_lt b x = false);
}.

(** A place, at most [n] levels below, where the value does not do what the schema
    asks. *)
Inductive violates (root : Schema) : nat -> Schema -> json -> Prop :=
| violates_ref n schema v name target :
    schema_ref schema = Some name -> lookupDef root name = Some target -> violates root n target v ->
    violates root (S n) schema v
| violates_here n schema v : schema_ref schema = None -> ~ admits schema v -> violates root (S n) schema v
| violates_property n schema fs k v sub :
    schema_ref schema = None -> (k, v) ∈ fs -> field k (schema_properties schema) = Some (JObj sub) ->
    violates root n sub v -> violates root (S n) schema (JObj fs)
| violates_item n schema items v sub :
    schema_ref schema = None -> v ∈ items -> field "items" schema = Some (JObj sub) ->
    violates root n sub v -> violates root (S n) schema (JArr items).

Lemma or_else_error_none {A} (x y : option A) : or_else_error x y = None <-> x = None /\ y = None.
Proof. destruct x; cbn; naive_solver. Qed.

Lemma first_some_none {A B} (f : A -> option B) l : first_some f l = None <-> forall x, x ∈ l -> f x = None.
Proof.
  induction l as [|x l IH]; cbn; [split; [intros _ x []%not_elem_of_nil|done]|].
  rewrite or_else_error_none, IH. setoid_rewrite elem_of_cons. naive_solver.
Qed.

Lemma existsb_elem (f : string -> bool) l : existsb f l = true <-> exists x, x ∈ l /\ f x = true.
Proof. rewrite existsb_exists. by setoid_rewrite list_elem_of_In. Qed.

Lemma existsb_eq t l : existsb (String.eqb t) l = true <-> t ∈ l.
Proof.
  rewrite existsb_elem. split; [intros (x & Hx & ->%String.eqb_eq); done|]. intros H. exists t. by rewrite String.eqb_refl.
Qed.

Lemma validateType_none schema v path : validateType schema v path = None <->
  forall wanted, field "type" schema = Some wanted -> schemaTypeSet wanted <> [] ->
    exists t, t ∈ schemaTypeSet wanted /\ of_type v t.
Proof.
  unfold validateType. destruct (field "type" schema) as [wanted|]; [|by split].
  transitivity (schemaTypeSet wanted <> [] -> exists t, t ∈ schemaTypeSet wanted /\ of_type v t);
    [|split; [intros H w [= <-]; exact H|intros H; exact (H wanted eq_refl)]].
  destruct (schemaTypeSet wanted) as [|t0 l]; [by split|].
  set (allowed := t0 :: l). transitivity (exists t, t ∈ allowed /\ of_type v t); [|split; [auto|intros H; by apply H]].
  destruct (existsb (String.eqb (jsonTypeOf v)) allowed) eqn:E.
  - apply existsb_eq in E. split; [|done]. intros _. exists (jsonTypeOf v). split; [done|by left].
  - assert (jsonTypeOf v ∉ allowed) as Hn by (intros H%existsb_eq; congruence).
    assert ((exists t, t ∈ allowed /\ of_type v t) <->
      ("integer" ∈ allowed /\ exists lit x, v = JNum lit /\ ParseFloat lit = Some x /\ is_integral x = true)) as ->.
    { unfold of_type. split; [|naive_solver]. intros (t & Ht & [->|[-> H]]); [done|auto]. }
    destruct v; try (split; [done|naive_solver]).
    destruct (existsb (String.eqb "integer") allowed) eqn:Ei; cbn [andb].
    + apply existsb_eq in Ei. destruct (ParseFloat lit) as [x|] eqn:Ep; [destruct (is_integral x) eqn:Ex|].
      * split; [|done]. intros _. split; [done|]. by exists lit, x.
      * split; [done|]. intros [_ (l' & x' & [= <-] & Hp & Hx)]. congruence.
      * split; [done|]. intros [_ (l' & x' & [= <-] & Hp & Hx)]. congruence.
    + split; [done|]. intros [H _]. apply existsb_eq in H. congruence.
Qed.

Lemma validateString_path schema s p q : validateString schema s p = None <-> validateString schema s q = None.
Proof. unfold validateString. repeat case_match; done. Qed.

Lemma validateNumber_none schema x path : validateNumber schema x path = None <->
  (forall b, valueOfNumberAny (field "minimum" schema) = Some b -> f64_lt x b = false) /\
  (forall b, valueOfNumberAny (field "maximum" schema) = Some b -> f64_lt b x = false).
Proof.
  unfold validateNumber. destruct (valueOfNumberAny (field "minimum" schema)) as [a|].
  - destruct (f64_lt x a) eqn:Ea.
    + split; [done|]. intros [H _]. by rewrite (H a) in Ea.
    + destruct (valueOfNumberAny _) as [b|]; [|naive_solver]. destruct (f64_lt b x) eqn:Eb; naive_solver congruence.
  - destruct (valueOfNumberAny _) as [b|]; [|naive_solver]. destruct (f64_lt b x) eqn:Eb; naive_solver congruence.
Qed.

Lemma validateKeys_none schema fs path : validateKeys schema fs path = None <->
  (forall key, key ∈ schemaStringList (field "required" schema) -> is_Some (field key fs)) /\
  (field "additionalProperties" schema = Some (JBool false) -> forall kv, kv ∈ fs ->
     is_Some (field kv.1 (schema_properties schema))).
Proof.
  unfold validateKeys. rewrite or_else_error_none, first_some_none. f_equiv.
  - split; intros H key Hk; specialize (H key Hk); destruct (field key fs); naive_solver.
  - destruct (field "additionalProperties" schema) as [[]|]; try naive_solver. destruct b; [naive_solver|].
    rewrite first_some_none. split.
    + intros H _ kv Hkv. specialize (H kv Hkv). destruct (field _ _); naive_solver.
    + intros H kv Hkv. by destruct (H eq_refl kv Hkv) as [x ->].
Qed.

Lemma validateHere_none schema v path : validateHere schema v path = None <-> admits schema v.
Proof.
  unfold validateHere. rewrite !or_else_error_none, validateType_none.
  assert (validateEnum schema v path = None <-> forall options, field "enum" schema = Some (JArr options) -> options <> [] ->
            exists o, o ∈ options /\ jsonEqual o v = true) as ->.
  { unfold validateEnum. destruct (field "enum" schema) as [[| | | |[|o l]|]|]; try naive_solver.
    destruct (existsb _ _) eqn:E.
    - split; [|done]. intros _ options [= <-] _. apply existsb_exists in E as (x & Hx & He). exists x.
      by rewrite list_elem_of_In.
    - split; [done|]. intros H. destruct (H _ eq_refl) as (x & Hx & He); [done|].
      cut (existsb (fun option => jsonEqual option v) (o :: l) = true); [congruence|].
      apply existsb_exists. exists x. by rewrite <- list_elem_of_In. }
  assert (validateConst schema v path = None <-> forall c, field "const" schema = Some c -> jsonEqual c v = true) as ->.
  { unfold validateConst. destruct (field "const" schema) as [c|]; [|by split]. destruct (jsonEqual c v) eqn:E.
    - split; [|done]. by intros _ c' [= <-].
    - split; [done|]. intros H. by rewrite (H c eq_refl) in E. }
  split.
  - intros (A & B & C & D). split; try done; intros; subst.
    + apply validateKeys_none in D as [D _]. auto.
    + apply validateKeys_none in D as [_ D]. auto.
    + by apply (validateString_path schema s path).
    + rewrite H0 in D. by apply validateNumber_none in D.
  - intros [A B C D E F G]. split_and!; [done..|]. destruct v; try done.
    + destruct (ParseFloat lit) eqn:Ep; [|done]. apply validateNumber_none. by apply (G lit).
    + apply (validateString_path schema s path ""). by apply F.
    + apply validateKeys_none. split; [intros key; by apply D|intros; by eapply E].
Qed.

Lemma validate_none root n schema v path : validate root n schema v path = None <-> ~ violates root n schema v.
Proof.
  revert schema v path. induction n as [|n IH]; intros schema v path; [split; [intros _ H; inversion H|done]|].
  cbn [validate]. destruct (schema_ref schema) as [name|] eqn:Er.
  - destruct (lookupDef root name) as [target|] eqn:El.
    + rewrite IH. split; intros H Hv; apply H; [inversion Hv; simplify_eq; done|by eapply violates_ref].
    + split; [|done]. intros _ Hv. inversion Hv; simplify_eq.
  - rewrite or_else_error_none, validateHere_none. split.
    + intros [Ha Hs] Hv. inversion Hv; simplify_eq; [done| |].
      * rewrite first_some_none in Hs. specialize (Hs _ H1). cbn [fst snd] in Hs. rewrite H2 in Hs.
        by apply IH in Hs.
      * rewrite H2, first_some_none in Hs. apply list_elem_of_lookup in H1 as [i Hi].
        assert ((i, v0) ∈ imap pair items) as Hp.
        { apply list_elem_of_lookup. exists i. by rewrite list_lookup_imap, Hi. }
        specialize (Hs _ Hp). cbn [fst snd] in Hs. by apply IH in Hs.
    + intros Hv. split.
      * destruct (decide (validateHere schema v path = None)) as [E|E]; [by apply validateHere_none in E|].
        destruct Hv. apply violates_here; [done|]. by rewrite <- (validateHere_none schema v path).
      * destruct v; try done.
        -- destruct (field "items" schema) as [[]|] eqn:Ei; try done. apply first_some_none. intros [i x] Hx. cbn [fst snd].
           apply IH. intros Hvx. apply Hv. eapply violates_item; [done| |done|exact Hvx].
           apply list_elem_of_lookup in Hx as [j Hj]. rewrite list_lookup_imap in Hj.
           destruct (l !! j) eqn:Ej; [|done]. cbn in Hj. simplify_eq. by eapply list_elem_of_lookup_2.
        -- apply first_some_none. intros [k x] Hx. cbn [fst snd]. destruct (field k _) as [[]|] eqn:Ek; try done.
           apply IH. intros Hvx. apply Hv. by eapply violates_property.
Qed.

(** ** Finding the value in the text

    The scanner over a part of a text that does not close the value. *)
Definition idle : Scan := mkScan false false.
Definition quoted_state : Scan := mkScan true false.

Fixpoint run_scan (open close : nat) (s : Scan) (depth : Z) (text : string) : option (Scan * Z) :=
  match text with
  | EmptyString => Some (s, depth)
  | String a rest =>
      let go depth := run_scan open close (scan_byte s a) depth rest in
      if inString s || is_byte 34 a then go depth
      else if is_byte open a then go (depth + 1)%Z
      else if is_byte close a then if (depth - 1 =? 0)%Z then None else go (depth - 1)%Z
      else go depth
  end.

Lemma run_scan_app open close s d a b :
  run_scan open close s d (a +:+ b) = '(s', d') ← run_scan open close s d a; run_scan open close s' d' b.
Proof.
  revert s d. induction a as [|c a IH]; intros s d; [done|].
  change (String c a +:+ b) with (String c (a +:+ b)). cbn [run_scan].
  destruct (inString s || is_byte 34 c); [apply IH|]. destruct (is_byte open c); [apply IH|].
  destruct (is_byte close c); [|apply IH]. destruct (d - 1 =? 0)%Z; [done|apply IH].
Qed.

Lemma balanced_run open close s d a s' d' t : run_scan open close s d a = Some (s', d') ->
  balanced_from open close s d (a +:+ t) = String.append a <$> balanced_from open close s' d' t.
Proof.
  revert s d. induction a as [|c a IH]; intros s d; cbn [run_scan].
  { intros [= -> ->]. change (EmptyString +:+ t) with t. by destruct (balanced_from _ _ _ _ t). }
  change (String c a +:+ t) with (String c (a +:+ t)). cbn [balanced_from].
  assert (forall o : option string, String c <$> (String.append a <$> o) = String.append (String c a) <$> o) as Hc by (by intros []).
  destruct (inString s || is_byte 34 c); [intros H; by rewrite (IH _ _ H), Hc|].
  destruct (is_byte open c); [intros H; by rewrite (IH _ _ H), Hc|].
  destruct (is_byte close c); [|intros H; by rewrite (IH _ _ H), Hc].
  destruct (d - 1 =? 0)%Z; [done|]. intros H. by rewrite (IH _ _ H), Hc.
Qed.

(** Bytes a string literal holds without ending. *)
Fixpoint quiet (s : Scan) (chunk : string) : bool :=
  match chunk with
  | EmptyString => negb (escaped s)
  | String a rest => inString (scan_byte s a) && quiet (scan_byte s a) rest
  end.

Lemma quiet_run open close s d chunk : inString s = true -> quiet s chunk = true ->
  run_scan open close s d chunk = Some (quoted_state, d).
Proof.
  revert s. induction chunk as [|a rest IH]; intros [[] []] Hs; cbn [quiet run_scan]; try done.
  - intros [H1 H2]%andb_true_iff. by apply IH.
  - intros [H1 H2]%andb_true_iff. by apply IH.
Qed.

Lemma ascii_chunk_quiet a : (byte_of a < 128)%nat ->
  quiet quoted_state (if html_safe a then String a EmptyString else escape_byte a) = true.
Proof. destruct a as [[] [] [] [] [] [] [] []]; intros H; try reflexivity; vm_compute in H; lia. Qed.

Definition high_byte (a : ascii) : bool := (128 <=? byte_of a)%nat.
Lemma high_bytes_quiet s : str_all high_byte s = true -> quiet quoted_state s = true.
Proof.
  induction s as [|a s IH]; [done|]. cbn [str_all quiet]. intros [Ha%Nat.leb_le Hs]%andb_true_iff.
  assert (scan_byte quoted_state a = quoted_state) as ->; [|by apply IH].
  unfold scan_byte, is_byte. cbn [inString escaped quoted_state]. by rewrite !(proj2 (Nat.eqb_neq _ _)) by lia.
Qed.

Lemma rune_bytes_high a t r size : (128 <= byte_of a)%nat -> DecodeRune (String a t) = (r, size) ->
  invalid_rune (String a t) = false ->
  str_all high_byte (stake size (String a t)) = true.
Proof.
  intros Ha Hd Hi. unfold invalid_rune in Hi. rewrite Hd in Hi. apply DecodeRune_view in Hd.
  inversion Hd; subst; cbn [stake str_all]; unfold high_byte; try lia; try done;
    repeat match goal with
      | H : accept3 _ _ = true |- _ => apply accept3_facts in H
      | H : accept4 _ _ = true |- _ => apply accept4_facts in H
      end; byte_facts; rewrite ?andb_true_iff, ?Nat.leb_le; split_and!; done || lia.
Qed.

Lemma encode_step_quiet a t : quiet quoted_state (encode_step (String a t)).1 = true.
Proof.
  unfold encode_step. destruct (byte_of a <? 128)%nat eqn:Ha.
  - apply Nat.ltb_lt in Ha. by apply ascii_chunk_quiet.
  - apply Nat.ltb_ge in Ha. destruct (DecodeRune (String a t)) as [r size] eqn:Hd. cbn [fst].
    destruct ((r =? RuneError)%Z && (size =? 1)%nat) eqn:Ei; [done|].
    destruct (r =? 8232)%Z; [done|]. destruct (r =? 8233)%Z; [done|].
    apply high_bytes_quiet. eapply rune_bytes_high; [done|done|]. unfold invalid_rune. by rewrite Hd.
Qed.

Lemma encode_run open close d v : run_scan open close quoted_state d (encode v) = Some (quoted_state, d).
Proof.
  apply (scan_ind encode_step (fun v => run_scan open close quoted_state d (encode v) = Some (quoted_state, d)));
    [apply encode_progress|done|].
  intros a t IH. unfold encode. rewrite scan_step by apply encode_progress. rewrite run_scan_app.
  rewrite (quiet_run open close quoted_state d _ eq_refl (encode_step_quiet a t)). exact IH.
Qed.

(** Which bracket is counted: braces, or square brackets. *)
Definition counted (open close : nat) : Prop := open = 123 /\ close = 125 \/ open = 91 /\ close = 93.

Lemma string_run open close d v : run_scan open close idle d (json_string v) = Some (idle, d).
Proof.
  unfold json_string. change (dquote +:+ encode v +:+ dquote) with (String (ascii_of_nat 34) (encode v +:+ dquote)).
  cbn [run_scan inString idle]. change (is_byte 34 (ascii_of_nat 34)) with true. cbn [orb].
  change (scan_byte idle (ascii_of_nat 34)) with quoted_state. by rewrite run_scan_app, encode_run.
Qed.

(** A byte the idle scanner passes over. *)
Definition calm (a : ascii) : bool :=
  negb (is_byte 34 a) && negb (is_byte 123 a) && negb (is_byte 125 a) && negb (is_byte 91 a) && negb (is_byte 93 a).

Lemma calm_run open close d s : counted open close -> str_all calm s = true ->
  run_scan open close idle d s = Some (idle, d).
Proof.
  intros Hc. induction s as [|a s IH]; [done|]. cbn [str_all run_scan inString idle]. intros [Ha Hs]%andb_true_iff.
  unfold calm in Ha. rewrite !andb_true_iff, !negb_true_iff in Ha. destruct Ha as [[[[H1 H2] H3] H4] H5].
  assert (scan_byte idle a = idle) as -> by (unfold scan_byte; cbn [inString idle]; by rewrite H1).
  rewrite H1. destruct Hc as [[-> ->]|[-> ->]]; rewrite ?H2, ?H3, ?H4, ?H5; by apply IH.
Qed.

Definition number_byte (a : ascii) : bool :=
  digit a || is_byte 46 a || is_byte 101 a || is_byte 69 a || is_byte 43 a || is_byte 45 a.

Lemma number_byte_calm a : number_byte a = true -> calm a = true.
Proof. destruct a as [[] [] [] [] [] [] [] []]; intros H; try reflexivity; by vm_compute in H. Qed.

Lemma digits_bytes s d r : digits s = (d, r) -> str_all number_byte d = true.
Proof.
  revert d. induction s as [|a s IH]; intros d; cbn; [by intros [= <- _]|].
  destruct (digit a) eqn:Ha; [|by intros [= <- _]]. destruct (digits s) as [d' r'] eqn:E. intros [= <- <-].
  cbn. unfold number_byte at 1. rewrite Ha. by apply IH.
Qed.

Lemma digits1_bytes s d r : digits1 s = Some (d, r) -> str_all number_byte d = true.
Proof.
  unfold digits1. destruct (digits s) as [[|a d'] r'] eqn:E; [done|]. intros [= <- <-]. by apply digits_bytes in E.
Qed.

Lemma number_bytes s lit r : number s = Some (lit, r) -> str_all number_byte lit = true.
Proof.
  unfold number.
  destruct (match s with EmptyString => _ | String a s' => _ end) as [sign s1] eqn:Esign.
  assert (str_all number_byte sign = true) as Hsign.
  { destruct s as [|a s']; [by simplify_eq|]. destruct (is_byte 45 a) eqn:Ea; simplify_eq; [|done].
    cbn. unfold number_byte. by rewrite Ea, !orb_true_r. }
  destruct (number_int s1) as [[i s2]|] eqn:Ei; [|done]. cbn [mbind option_bind].
  assert (str_all number_byte i = true) as Hi.
  { unfold number_int in Ei. destruct s1 as [|a s']; [done|]. destruct (is_byte 48 a) eqn:Ea.
    - simplify_eq. cbn. apply is_byte_eq in Ea. unfold number_byte, digit, between. by rewrite Ea.
    - by apply digits1_bytes in Ei. }
  destruct (number_frac s2) as [[f s3]|] eqn:Ef; [|done]. cbn [mbind option_bind].
  assert (str_all number_byte f = true) as Hf.
  { unfold number_frac in Ef. destruct s2 as [|a s']; [by simplify_eq|]. destruct (is_byte 46 a) eqn:Ea; [|by simplify_eq].
    destruct (digits1 s') as [[d r']|] eqn:Ed; [|done]. cbn in Ef. simplify_eq. cbn [str_all].
    rewrite (digits1_bytes _ _ _ Ed). unfold number_byte. by rewrite Ea, orb_true_r. }
  destruct (number_exp s3) as [[e s4]|] eqn:Ee; [|done]. cbn [mbind option_bind].
  assert (str_all number_byte e = true) as He.
  { unfold number_exp in Ee. destruct s3 as [|a s']; [by simplify_eq|].
    destruct (is_byte 101 a || is_byte 69 a) eqn:Ea; [|by simplify_eq].
    assert (number_byte a = true) as Hna.
    { unfold number_byte. apply orb_true_iff in Ea as [-> | ->]; by rewrite ?orb_true_r. }
    destruct s' as [|g s'']; [done|]. destruct (is_byte 43 g || is_byte 45 g) eqn:Eg.
    - destruct (digits1 s'') as [[d r']|] eqn:Ed; [|done]. cbn in Ee. simplify_eq. cbn [str_all].
      rewrite Hna, (digits1_bytes _ _ _ Ed). unfold number_byte. apply orb_true_iff in Eg as [-> | ->]; by rewrite ?orb_true_r.
    - destruct (digits1 (String g s'')) as [[d r']|] eqn:Ed; [|done]. cbn in Ee. simplify_eq. cbn [str_all].
      by rewrite Hna, (digits1_bytes _ _ _ Ed). }
  intros [= <- _]. by rewrite !str_all_app, Hsign, Hi, Hf, He.
Qed.

Lemma str_all_calm s : str_all number_byte s = true -> str_all calm s = true.
Proof. induction s as [|a s IH]; [done|]. cbn. intros [Ha Hs]%andb_true_iff. by rewrite (number_byte_calm a Ha), IH. Qed.

(** A rendered value leaves the scanner as it found it. *)
Definition steady (open close : nat) (j : json) : Prop :=
  forall d, (1 <= d)%Z -> run_scan open close idle d (render j) = Some (idle, d).

Lemma bracket_run open close d a body b : counted open close -> (1 <= d)%Z ->
  (byte_of a, byte_of b) = (123, 125) \/ (byte_of a, byte_of b) = (91, 93) ->
  (forall d, (1 <= d)%Z -> run_scan open close idle d body = Some (idle, d)) ->
  run_scan open close idle d (String a (body +:+ String b EmptyString)) = Some (idle, d).
Proof.
  intros Hc Hd Hab Hbody. cbn [run_scan].
  assert (scan_byte idle a = idle /\ scan_byte idle b = idle /\ is_byte 34 a = false /\ is_byte 34 b = false) as (Sa & Sb & Qa & Qb).
  { unfold scan_byte, is_byte. cbn [inString idle]. destruct Hab as [[= -> ->]|[= -> ->]]; done. }
  rewrite Sa, Qa. cbn [inString idle orb].
  assert (forall d, (1 <= d)%Z -> run_scan open close idle d (body +:+ String b EmptyString) =
            if is_byte open b then Some (idle, d + 1)%Z
            else if is_byte close b then if (d - 1 =? 0)%Z then None else Some (idle, d - 1)%Z else Some (idle, d)) as Hrest.
  { intros k Hk. rewrite run_scan_app, Hbody by done. cbn [mbind option_bind run_scan]. rewrite Sb, Qb. done. }
  unfold is_byte in *. destruct Hc as [[-> ->]|[-> ->]], Hab as [[= Ha Hb]|[= Ha Hb]]; rewrite Ha, ?Hb in *; cbn [Nat.eqb] in *;
    rewrite Hrest by lia; cbn [Nat.eqb]; rewrite ?(proj2 (Z.eqb_neq _ _)) by lia; repeat f_equal; lia.
Qed.

Lemma elements_run open close l : counted open close -> Forall (steady open close) l ->
  forall d, (1 <= d)%Z -> run_scan open close idle d (render_elements l) = Some (idle, d).
Proof.
  intros Hc Hl d Hd. induction Hl as [|v l Hv Hl IH]; [done|]. destruct l as [|w l]; [by apply Hv|].
  change (render_elements (v :: w :: l)) with (render v +:+ "," +:+ render_elements (w :: l)).
  rewrite run_scan_app, Hv by done. cbn [mbind option_bind]. rewrite run_scan_app, calm_run by done. exact IH.
Qed.

Lemma members_run open close fs : counted open close -> Forall (fun kv => steady open close kv.2) fs ->
  forall d, (1 <= d)%Z -> run_scan open close idle d (render_members fs) = Some (idle, d).
Proof.
  intros Hc Hl d Hd. induction Hl as [|[k v] fs Hv Hl IH]; [done|].
  assert (run_scan open close idle d (json_string k +:+ ":" +:+ render v) = Some (idle, d)) as Hkv.
  { rewrite run_scan_app, string_run. cbn [mbind option_bind]. rewrite run_scan_app, calm_run by done. by apply Hv. }
  destruct fs as [|kv fs]; [exact Hkv|].
  change (render_members ((k, v) :: kv :: fs)) with (json_string k +:+ ":" +:+ render v +:+ "," +:+ render_members (kv :: fs)).
  replace (json_string k +:+ ":" +:+ render v +:+ "," +:+ render_members (kv :: fs))
    with ((json_string k +:+ ":" +:+ render v) +:+ "," +:+ render_members (kv :: fs)) by by rewrite !sapp_assoc.
  rewrite run_scan_app, Hkv. cbn [mbind option_bind]. rewrite run_scan_app, calm_run by done. exact IH.
Qed.

Lemma render_run open close j : counted open close -> json_ok j -> steady open close j.
Proof.
  intros Hc. induction j as [|b|lit|s|l IH|fs IH] using json_ind'; intros Hok d Hd.
  - by apply calm_run.
  - by destruct b; apply calm_run.
  - inversion Hok as [| |? a t _ _ Hnum| | |]; subst. apply calm_run; [done|]. apply str_all_calm.
    eapply (number_bytes (lit +:+ EmptyString)), Hnum. by intros.
  - apply string_run.
  - inversion Hok as [| | | |? Hl|]; subst. rewrite render_arr. apply (bracket_run _ _ _ "["%char _ "]"%char); [done|done|by right|].
    apply elements_run; [done|]. clear -IH Hl. induction Hl; inversion IH; subst; constructor; auto.
  - inversion Hok as [| | | | |? Hl _]; subst. rewrite render_obj. apply (bracket_run _ _ _ "{"%char _ "}"%char); [done|done|by left|].
    apply members_run; [done|]. clear -IH Hl. induction Hl; inversion IH; subst; constructor; auto.
Qed.

(** *** Trimming around a value *)
Definition solid (c : ascii) : Prop := ascii7 c = true /\ space1 c = false.

Lemma solid_no2 c x : ascii7 c = true -> space2 c x = false /\ space2 x c = false.
Proof.
  intros H. unfold space2. rewrite !(ascii7_not_multibyte c) by (done || lia). cbn. by rewrite andb_false_r.
Qed.
Lemma solid_no3 c x y : ascii7 c = true -> space3 c x y = false /\ space3 x c y = false /\ space3 x y c = false.
Proof.
  intros H. unfold space3. assert (H' := H). unfold ascii7 in H'. apply Nat.ltb_lt in H'.
  rewrite !(ascii7_not_multibyte c) by (done || lia). rewrite (proj2 (Nat.leb_gt 128 (byte_of c))) by lia.
  cbn. by rewrite !andb_false_r.
Qed.

Lemma space_rest_app flip p c t : solid c ->
  space_rest flip (p +:+ String c t) = (fun r => r +:+ String c t) <$> space_rest flip p.
Proof.
  intros [Ha Hs]. destruct p as [|a p].
  { change (EmptyString +:+ String c t) with (String c t). cbn [space_rest]. rewrite Hs.
    destruct t as [|b t]; [done|]. destruct (solid_no2 c b Ha) as [-> ->].
    replace (if flip then false else false) with false by by destruct flip.
    destruct t as [|d t]; [done|]. destruct (solid_no3 c b d Ha) as (-> & _), (solid_no3 c d b Ha) as (_ & _ & ->). by destruct flip. }
  change (String a p +:+ String c t) with (String a (p +:+ String c t)). cbn [space_rest].
  destruct (space1 a); [done|]. destruct p as [|b p].
  { change (EmptyString +:+ String c t) with (String c t). cbn iota beta. destruct (solid_no2 c a Ha) as [-> ->].
    replace (if flip then false else false) with false by by destruct flip.
    destruct t as [|d t]; [done|]. destruct (solid_no3 c a d Ha) as (_ & -> & _), (solid_no3 c d a Ha) as (_ & -> & _).
    by destruct flip. }
  change (String b p +:+ String c t) with (String b (p +:+ String c t)). cbn iota beta.
  destruct (if flip then space2 b a else space2 a b); [done|]. destruct p as [|d p]; [|].
  { change (EmptyString +:+ String c t) with (String c t). cbn iota beta.
    destruct (solid_no3 c a b Ha) as (_ & _ & ->), (solid_no3 c b a Ha) as (-> & _). by destruct flip. }
  change (String d p +:+ String c t) with (String d (p +:+ String c t)). cbn iota beta.
  by destruct (if flip then space3 d b a else space3 a b d).
Qed.

Lemma trim_front_app flip p c t : solid c -> trim_front flip (p +:+ String c t) = trim_front flip p +:+ String c t.
Proof.
  intros Hc. induction p as [p IH] using (induction_ltof1 _ String.length).
  rewrite trim_front_step, space_rest_app by done. rewrite (trim_front_step flip p).
  destruct (space_rest flip p) as [r|] eqn:Hr; [|done]. cbn. apply IH. by eapply space_rest_shorter.
Qed.

(** Trimming a text around a value takes away outside of it only. *)
Definition trim_back (q : string) : string := String.rev (trim_front true (String.rev q)).
Lemma TrimSpace_around p a mid b q : solid a -> solid b ->
  TrimSpace (p +:+ String a (mid +:+ String b q)) = trim_front false p +:+ String a (mid +:+ String b (trim_back q)).
Proof.
  intros Ha Hb. unfold TrimSpace. rewrite trim_front_app by done. set (p' := trim_front false p).
  replace (p' +:+ String a (mid +:+ String b q)) with ((p' +:+ String a mid) +:+ String b q)
    by (change (String a (mid +:+ String b q)) with (String a mid +:+ String b q); by rewrite sapp_assoc).
  rewrite rev_app_distr, rev_cons, sapp_assoc. change (String b EmptyString +:+ ?x) with (String b x).
  rewrite trim_front_app by done. rewrite rev_app_distr, rev_cons, rev_involutive, sapp_assoc.
  change (String a (mid +:+ String b ?x)) with (String a mid +:+ String b x). by rewrite !sapp_assoc.
Qed.

(** *** The value in prose, and in a fence *)
Definition no_object_start (a : ascii) : bool := negb (is_byte 34 a) && negb (is_byte 123 a).

Lemma unquoted_prefix p rest : str_all no_object_start p = true ->
  firstUnquotedIndex (p +:+ String "{"%char rest) 123 = Some (String.length p).
Proof.
  unfold firstUnquotedIndex. fold idle. induction p as [|a p IH]; [done|].
  cbn [str_all]. intros [Ha Hp]%andb_true_iff. unfold no_object_start in Ha. rewrite andb_true_iff, !negb_true_iff in Ha.
  destruct Ha as [H1 H2]. change (String a p +:+ ?x) with (String a (p +:+ x)). cbn [unquoted_from inString idle].
  rewrite H2, andb_false_r. assert (scan_byte idle a = idle) as -> by (unfold scan_byte; cbn [inString idle]; by rewrite H1).
  by rewrite IH.
Qed.

Lemma str_all_suffix P p q : str_all P (p +:+ q) = true -> str_all P q = true.
Proof. rewrite str_all_app. by intros [_ H]%andb_true_iff. Qed.

Lemma object_text fs : render (JObj fs) = String "{"%char (render_members fs +:+ String "}"%char EmptyString).
Proof. apply render_obj. Qed.

Lemma candidate_object p fs q : json_ok (JObj fs) -> str_all no_object_start p = true ->
  candidate_at (p +:+ String "{"%char (render_members fs +:+ String "}"%char q)) 123 = Some (render (JObj fs)).
Proof.
  intros Hok Hp. unfold candidate_at. rewrite unquoted_prefix by done. cbn [mbind option_bind]. rewrite sdrop_app.
  unfold balancedJSONPrefix. fold idle. change (closing 123) with 125. cbn [balanced_from inString idle].
  change (is_byte 34 "{"%char) with false. change (is_byte 123 "{"%char) with true. cbn [orb].
  change (scan_byte idle "{"%char) with idle. change (0 + 1)%Z with 1%Z.
  assert (counted 123 125) as Hc by by left.
  assert (run_scan 123 125 idle 1 (render_members fs) = Some (idle, 1%Z)) as Hrun.
  { apply members_run; [done| |lia]. inversion Hok as [| | | | |? Hl _]; subst. clear -Hl Hc.
    induction Hl; constructor; [by apply render_run|done]. }
  rewrite (balanced_run _ _ _ _ _ _ _ _ Hrun). cbn [balanced_from inString idle].
  change (is_byte 34 "}"%char) with false. change (is_byte 123 "}"%char) with false. change (is_byte 125 "}"%char) with true.
  rewrite object_text. reflexivity.
Qed.

(** How a text may carry a value: after prose that holds neither a brace nor a
    quotation mark, or alone inside a code fence. *)
Inductive carries (t : string) : string -> Prop :=
| in_prose pre post : str_all no_object_start pre = true -> HasPrefix (TrimSpace (pre +:+ t +:+ post)) fence = false ->
    carries t (pre +:+ t +:+ post)
| in_fence lang : str_all (fun a => negb (is_byte 10 a)) lang = true -> Contains t fence = false ->
    carries t (fence +:+ lang +:+ newline +:+ t +:+ newline +:+ fence).

Lemma solid_open : solid "{"%char. Proof. done. Qed.
Lemma solid_close : solid "}"%char. Proof. done. Qed.
Lemma solid_tick : solid "`"%char. Proof. done. Qed.

Lemma Index_newline lang rest : str_all (fun a => negb (is_byte 10 a)) lang = true ->
  Index (lang +:+ newline +:+ rest) newline = Some (String.length lang).
Proof.
  induction lang as [|a lang IH]; [intros _; by destruct rest|]. cbn [str_all]. intros [Ha Hl]%andb_true_iff.
  change (String a lang +:+ ?x) with (String a (lang +:+ x)). cbn [Index]. rewrite IH by done. cbn [HasPrefix newline].
  apply negb_true_iff in Ha. destruct (Ascii.eqb_spec a (ascii_of_nat 10)) as [->|Hne]; [done|].
  destruct (Ascii.eqb_spec (ascii_of_nat 10) a); [by subst|done].
Qed.

Lemma Index_fence t : Contains t fence = false ->
  Index (t +:+ newline +:+ fence) fence = Some (S (String.length t)).
Proof.
  induction t as [|a t IH]; [done|]. intros Hc. change (String a t +:+ ?x) with (String a (t +:+ x)).
  cbn [Contains] in Hc. apply orb_false_iff in Hc as [Hp Hc].
  assert (HasPrefix (String a (t +:+ newline +:+ fence)) fence = false) as Hn.
  { destruct t as [|b [|c t]].
    - cbn. by destruct (Ascii.eqb "`"%char a).
    - cbn. by destruct (Ascii.eqb "`"%char a), (Ascii.eqb "`"%char b).
    - exact Hp. }
  cbn [Index]. rewrite Hn. by rewrite IH.
Qed.

Lemma unwrap_fence lang t : str_all (fun a => negb (is_byte 10 a)) lang = true -> Contains t fence = false ->
  unwrapCodeFence (fence +:+ lang +:+ newline +:+ t +:+ newline +:+ fence) = Some (t +:+ newline).
Proof.
  intros Hl Hc. unfold unwrapCodeFence. rewrite (proj2 (HasPrefix_spec _ fence)) by eauto.
  change (sdrop 3 (fence +:+ ?x)) with x. cbn iota. rewrite Index_newline by done.
  replace (lang +:+ newline +:+ t +:+ newline +:+ fence) with ((lang +:+ newline) +:+ t +:+ newline +:+ fence) by by rewrite sapp_assoc.
  replace (S (String.length lang)) with (String.length (lang +:+ newline)) by (rewrite sapp_length; cbn; lia).
  rewrite sdrop_app, Index_fence by done.
  replace (t +:+ newline +:+ fence) with ((t +:+ newline) +:+ fence) by by rewrite sapp_assoc.
  replace (S (String.length t)) with (String.length (t +:+ newline)) by (rewrite sapp_length; cbn; lia).
  by rewrite stake_app.
Qed.

Lemma TrimSpace_object p fs q :
  TrimSpace (p +:+ render (JObj fs) +:+ q) =
  trim_front false p +:+ String "{"%char (render_members fs +:+ String "}"%char (trim_back q)).
Proof.
  rewrite object_text. change (String "{"%char ?x +:+ q) with (String "{"%char (x +:+ q)). rewrite sapp_assoc.
  apply TrimSpace_around; [apply solid_open|apply solid_close].
Qed.

Lemma fenced_trim x : TrimSpace (fence +:+ x +:+ fence) = fence +:+ x +:+ fence.
Proof.
  change (fence +:+ x +:+ fence) with (EmptyString +:+ String "`"%char ("``" +:+ x +:+ fence)).
  replace ("``" +:+ x +:+ fence) with (("``" +:+ x +:+ "``") +:+ String "`"%char EmptyString)
    by by rewrite !sapp_assoc.
  by rewrite TrimSpace_around by apply solid_tick.
Qed.

Lemma extract_carried fs text : json_ok (JObj fs) -> carries (render (JObj fs)) text ->
  extractStructuredCandidate text = render (JObj fs) /\ TrimSpace text <> EmptyString.
Proof.
  intros Hok Hc. unfold extractStructuredCandidate. destruct Hc as [pre post Hpre Hf|lang Hl Hc].
  - unfold unwrapCodeFence. rewrite Hf, TrimSpace_object.
    destruct (trim_front_suffix false pre) as [p0 Hp0]. rewrite Hp0 in Hpre. apply str_all_suffix in Hpre.
    rewrite candidate_object by done. split; [done|]. intros H. by destruct (trim_front false pre).
  - set (t := render (JObj fs)) in *.
    assert (TrimSpace (fence +:+ lang +:+ newline +:+ t +:+ newline +:+ fence)
              = fence +:+ lang +:+ newline +:+ t +:+ newline +:+ fence) as ->.
    { replace (fence +:+ lang +:+ newline +:+ t +:+ newline +:+ fence)
        with (fence +:+ (lang +:+ newline +:+ t +:+ newline) +:+ fence) by by rewrite !sapp_assoc.
      apply fenced_trim. }
    rewrite unwrap_fence by done. split; [|done].
    pose proof (TrimSpace_object EmptyString fs newline) as E. change (EmptyString +:+ ?x) with x in E. fold t in E. rewrite E.
    cbn [trim_front]. by rewrite (candidate_object EmptyString fs (trim_back newline) Hok eq_refl).
Qed.

Lemma Decode_render j : json_ok j -> numbers_in_range (coerce_json j) = true -> Decode (render j) = Some (coerce_json j).
Proof.
  intros Hok Hn. unfold Decode. pose proof (value_render j Hok (S (String.length (render j))) EmptyString) as H.
  rewrite sapp_nil_r in H. rewrite H; [|lia|by intros]. cbn. by rewrite Hn.
Qed.

(** * Theorems *)


(** The verdict on a text is the verdict on the JSON object it carries, whether
    the model sent the object bare, after prose, or in a code fence: nothing of the
    wrapping reaches the check, and no brace inside a string misleads it. *)
Theorem strict_answer_verdict schema fs text :
  json_ok (JObj fs) -> numbers_in_range (coerce_json (JObj fs)) = true -> carries (render (JObj fs)) text ->
  Validate (Some schema) text = Mismatch <$> Schema_Validate (Some schema) (coerce_json (JObj fs)).
Proof.
  intros Hok Hn Hc. destruct (extract_carried fs text Hok Hc) as [He Ht]. unfold Validate.
  rewrite (proj2 (String.eqb_neq _ _) Ht), He, object_text. cbn [String.eqb].
  rewrite <- object_text, Decode_render by done. done.
Qed.

(** * Witnesses *)
Definition color_schema : Schema :=
  [("type", JStr "object"); ("additionalProperties", JBool false); ("required", JArr [JStr "name"; JStr "shade"]);
   ("properties", JObj [("name", JObj [("type", JStr "string")]); ("shade", JObj [("$ref", JStr "#/$defs/level")]);
                        ("since", JObj [("type", JArr [JStr "string"; JStr "null"]); ("format", JStr "date-time")])]);
   ("$defs", JObj [("level", JObj [("type", JStr "integer"); ("minimum", JNum "0"); ("maximum", JNum "9.5")])])].
Definition color (shade : string) : list (string * json) := [("name", JStr "r{e}d"); ("shade", JNum shade); ("since", JNull)].


Lemma color_ok shade : json_ok (JNum shade) -> json_ok (JObj (color shade)).
Proof.
  intros H. apply ok_obj; [by repeat constructor|]. apply (bool_decide_unpack _). vm_compute. done.
Qed.

Lemma strict_answer_verdict_witness :
  Validate (Some color_schema) ("Sure - here it is: " +:+ render (JObj (color "4")) +:+ " }") = None.
Proof.
  rewrite (strict_answer_verdict color_schema (color "4")).
  - vm_compute. reflexivity.
  - apply color_ok, (json_ok_int 4).
  - vm_compute. reflexivity.
  - apply in_prose; vm_compute; reflexivity.
Defined.

Example verdicts :
  (fun text => Validate (Some color_schema) (js text)) <$>
    ["{'name': 'x', 'shade': 2.5}"; "{'name': 'x', 'shade': 1, 'more': 0}";
     "no json"; "{'name': 'x', 'shade': 1"; "{'name': 'x', 'shade': 1, 'since': '2024-02-30T10:00:00Z'}";
     "{'name': 'x', 'shade': 1e999}"] =
  [Some (Mismatch (ErrType "$.shade" ["integer"] "number")); Some (Mismatch (ErrExtra "$" "more"));
   Some NoJSON; Some NoJSON; None; Some NotValidJSON].
Proof. vm_compute. reflexivity. Qed.

(** An array answer is looked for only when no object is in it: the array of a
    schema of type array is refused for its first element. *)
Example array_of_objects :
  Validate (Some [("type", JStr "array")]) (js "[{'a': 1}, {'a': 2}]") = Some (Mismatch (ErrType "$" ["array"] "object")) /\
  Validate (Some [("type", JStr "array")]) "[1, 2]" = None.
Proof. vm_compute. done. Qed.

(** A fence mark inside a string of a fenced answer ends the fence. *)
Example fence_in_string :
  Validate (Some [("type", JStr "object")]) ("```json" +:+ newline +:+ js "{'code': '```sh'}" +:+ newline +:+ "```") = Some NoJSON.
Proof. vm_compute. done. Qed.

(** A flat [text.format] of the Responses dialect asks for the same contract as its
    chat spelling. *)
Example lowered_format :
  let flat := [("type", JStr "json_schema"); ("strict", JBool true); ("schema", JObj color_schema)] in
  let c := mkControls [] [("format", JObj flat)] [] EmptyString [] in
  (StrictSchema c, ValidateProtocolControls "qoder" c) = (Some color_schema, None).
Proof. vm_compute. done. Qed.
