(* ===== verification/PublicModels.v ===== *)
(** * The models a client sees, and the model a request gets

    What /v1/models publishes (src/internal/handler/models.go, model_context.go,
    codex_models.go, over src/internal/modelcatalog/profile.go and the rows of
    Models.v) and how a request's model name is resolved to a row
    (src/internal/handler/handler_helpers.go): the two must agree, or a client asks
    for a name that was advertised and is refused. The order in which Go ranges over
    a map never matters here, which the folds over [map_to_list] make explicit. The
    mapping of a letter to upper case in a display name is a parameter; JSON
    rendering and the ETag are not modelled. *)

From Stdlib Require Import Ascii.
From stdpp Require Import base numbers list strings gmap sorting.
From S2P Require Import Prelude GoLib Json Marshal Prompt Channel Account Catalogs ModelPolicy Models.

Local Open Scope orchids_scope.

(** ** Profiles (modelcatalog/profile.go)

    The field names of a profile are those of Account.v. *)
Definition key_of (id : string) : string := ToLower (TrimSpace id).

Definition knownReasoningEffort (value : string) : bool :=
  existsb (String.eqb value) ["none"; "minimal"; "low"; "medium"; "high"; "xhigh"; "max"].

(** The known words of a list in lower case, each once, in order. *)
Definition add_effort (known : string -> bool) (seen : list string) (raw : string) : list string :=
  let value := key_of raw in
  if negb (known value) || bool_decide (value ∈ seen) then seen else seen ++ [value].
Definition effort_menu (known : string -> bool) (raws : list string) : list string := foldl (add_effort known) [] raws.

Definition Normalize (p : Profile) : Profile :=
  let efforts := effort_menu knownReasoningEffort (ReasoningEfforts p) in
  let default_ := key_of (DefaultReasoningEffort p) in
  mkProfile (TrimSpace (Account.ModelID p)) efforts
    (if bool_decide (default_ ∈ efforts) then default_ else EmptyString)
    (Account.SupportsReasoningEffort p || negb (bool_decide (efforts = [])))
    (Z.max 0 (ContextWindow p)) (Z.max 0 (MaxCompletionTokens p)) (SupportsBackendSearch p).

(** [ModelIDs]: the first spelling of each identifier. *)
Definition ModelIDs (profiles : list Profile) : list string :=
  (foldl (fun '(seen, out) raw =>
     let id := TrimSpace (Account.ModelID raw) in
     if empty id || bool_decide (ToLower id ∈ (seen : gset string)) then (seen, out)
     else ({[ ToLower id ]} ∪ seen, out ++ [id])) (∅, []) profiles).2.

(** The smaller of two budgets of which 0 is unknown. *)
Definition tighter (current observed : Z) : Z :=
  if ((0 <? observed) && ((current =? 0) || (observed <? current)))%Z then observed else current.

(** What two observations of a model have in common. *)
Definition shared (current p : Profile) : Profile :=
  Normalize (mkProfile (Account.ModelID current)
    (filter (fun effort => effort ∈ ReasoningEfforts p) (ReasoningEfforts current))
    (if String.eqb (DefaultReasoningEffort current) (DefaultReasoningEffort p) then DefaultReasoningEffort current else EmptyString)
    (Account.SupportsReasoningEffort current && Account.SupportsReasoningEffort p)
    (tighter (ContextWindow current) (ContextWindow p))
    (tighter (MaxCompletionTokens current) (MaxCompletionTokens p))
    (SupportsBackendSearch current && SupportsBackendSearch p)).

Definition aggregate_one (state : gmap string nat * list Profile) (raw : Profile) : gmap string nat * list Profile :=
  let '(index, out) := state in
  let p := Normalize raw in
  let key := ToLower (Account.ModelID p) in
  if empty key then state
  else match index !! key with
       | None => (<[key := length out]> index, out ++ [p])
       | Some at_ => (index, alter (fun current => shared current p) at_ out)
       end.

(** The slices of the profiles are copied by [CloneProfiles], so that no caller
    writes into another's; values are copies here. *)
Definition Aggregate (catalogs : list (list Profile)) : list Profile :=
  (foldl aggregate_one (∅, []) (mjoin catalogs)).2.

(** ** Stable sorting ([sort.SliceStable] with a weak order) *)
Fixpoint insert_sorted {A} (less : A -> A -> bool) (x : A) (l : list A) : list A :=
  match l with
  | [] => [x]
  | y :: rest => if less y x then y :: insert_sorted less x rest else x :: l
  end.
Definition SliceStable {A} (less : A -> A -> bool) (l : list A) : list A := foldr (insert_sorted less) [] l.

(** ** Observed windows (model_context.go) *)
Record modelContextWindows := mkWindows { w_input : gmap string Z; w_output : gmap string Z }.

Definition nul : string := String Ascii.zero EmptyString.
Definition contextKey (channel modelID : string) : string := key_of channel +:+ nul +:+ key_of modelID.

Fixpoint window_lookup (w : modelContextWindows) (channel : string) (modelIDs : list string) : Z * Z :=
  match modelIDs with
  | [] => (0, 0)%Z
  | modelID :: rest =>
      if blank modelID then window_lookup w channel rest
      else
        let key := contextKey channel modelID in
        match w_input w !! key, w_output w !! key with
        | None, None => window_lookup w channel rest
        | i, o => (default 0 i, default 0 o)%Z
        end
  end.

(** A smaller positive observation replaces a larger one, or the reverse. *)
Definition narrow (key : string) (limit : Z) (m : gmap string Z) : gmap string Z :=
  if (0 <? limit)%Z && (let old := default 0 (m !! key) in (old =? 0) || (limit <? old))%Z then <[key := limit]> m else m.
Definition widest (key : string) (limit : Z) (m : gmap string Z) : gmap string Z :=
  if match m !! key with Some existing => (existing <? limit)%Z | None => true end then <[key := limit]> m else m.

Definition mergeInputWindows (channel : string) (windows : gmap string Z) (input : gmap string Z) : gmap string Z :=
  foldl (fun m '(modelID, limit) => if (limit <=? 0)%Z then m else widest (contextKey channel modelID) limit m)
    input (map_to_list windows).

Definition observe_profile (w : modelContextWindows) (p : Profile) : modelContextWindows :=
  let key := contextKey "grok" (Account.ModelID p) in
  mkWindows (narrow key (ContextWindow p) (w_input w)) (narrow key (MaxCompletionTokens p) (w_output w)).

Definition grok_catalog (acc : Account) : list Profile := default [] (GrokModelCatalog acc).

Definition observe_account (w : modelContextWindows) (acc : Account) : modelContextWindows :=
  let w := if EqualFold (TrimSpace (AccountType acc)) "grok" then foldl observe_profile w (grok_catalog acc) else w in
  let kind := key_of (AccountType acc) in
  if String.eqb kind "qoder" then
    mkWindows (mergeInputWindows "qoder" (CatalogContextWindows (QoderModelIDs acc)) (w_input w)) (w_output w)
  else if String.eqb kind "workbuddy" then
    let '(input, output) := Catalogs.WorkBuddy.CatalogContextWindows (WorkBuddyModelIDs acc) in
    mkWindows (mergeInputWindows "workbuddy" input (w_input w))
      (foldl (fun m '(modelID, limit) => widest (contextKey "workbuddy" modelID) limit m) (w_output w) (map_to_list output))
  else w.

(** [None] is a failed reading of the accounts. *)
Definition observedModelContextWindows (accounts : option (list Account)) : modelContextWindows :=
  foldl observe_account (mkWindows ∅ ∅) (default [] accounts).

(** ** Codex metadata that the windows fall back to (codex_models.go) *)
Record codexModelMetadata := mkMetadata { contextWindow : Z; description : string; imageInput : bool }.

Definition codexModelMetadataTable : list (string * codexModelMetadata) := [
  ("grok-4.5", mkMetadata 500000 "xAI Grok 4.5 frontier model with reasoning and vision." true);
  ("grok-4.6", mkMetadata 500000 "xAI Grok 4.6 frontier model with reasoning and vision." true);
  ("grok-4.3", mkMetadata 1000000 "xAI Grok 4.3 high-capacity reasoning model." true);
  ("grok-build-0.1", mkMetadata 256000 "xAI Grok Build 0.1 coding model." false);
  ("grok-4.20-0309-reasoning", mkMetadata 2000000 "xAI Grok 4.20 reasoning model." true);
  ("grok-4.20-0309-non-reasoning", mkMetadata 2000000 "xAI Grok 4.20 non-reasoning model." true);
  ("grok-4.20-multi-agent-0309", mkMetadata 2000000 "xAI Grok 4.20 multi-agent model." true);
  ("grok-3-mini", mkMetadata 131072 "xAI Grok 3 Mini model." false);
  ("grok-3-mini-fast", mkMetadata 131072 "xAI Grok 3 Mini Fast model." false);
  ("grok-composer-2.5-fast", mkMetadata 200000 "xAI Grok Composer 2.5 model." false)].

Definition codexDefaultDescription : string := "Grok model served via grok2api.".
Definition codexDefaultMetadata : codexModelMetadata := mkMetadata 128000 codexDefaultDescription false.
Definition metadata_of (slug : string) : option codexModelMetadata :=
  snd <$> find (fun row => String.eqb row.1 slug) codexModelMetadataTable.

Definition grokDeclaredContextWindow (modelID : string) : Z :=
  match metadata_of (GrokModelSlug modelID) with Some m => contextWindow m | None => 0 end.

Definition modelContextWindow (w : modelContextWindows) (channel modelID publicID : string) : Z * Z :=
  let '(input, output) := window_lookup w channel [modelID; publicID] in
  if ((0 <? input) || (0 <? output))%Z then (input, output)
  else
    let declared := if EqualFold (TrimSpace channel) "grok" then
                      let own := grokDeclaredContextWindow modelID in
                      if (own =? 0)%Z then grokDeclaredContextWindow publicID else own
                    else 0%Z in
    if (0 <? declared)%Z then (declared, 0%Z) else (input, output).

(** ** The public list (models.go)

    [p_Object] is always "model"; an absent number is 0. *)
Record PublicModelResponse := mkPublic {
  p_ID : string;
  p_Created : Z;
  p_OwnedBy : string;
  p_Capabilities : list string;
  p_Provider : string;
  p_UpstreamModel : string;
  p_BillingTier : string;
  p_BillingSource : string;
  p_ContextLength : Z;
  p_MaxInputTokens : Z;
  p_MaxOutputTokens : Z;
  p_ReasoningEfforts : list string;
  p_DefaultReasoningEffort : string;
  p_SupportsReasoningEffort : option bool;
  p_SupportsBackendSearch : option bool
}.
#[export] Instance PublicModelResponse_eta : Eta PublicModelResponse := fun p => mkPublic (p_ID p) (p_Created p) (p_OwnedBy p)
  (p_Capabilities p) (p_Provider p) (p_UpstreamModel p) (p_BillingTier p) (p_BillingSource p) (p_ContextLength p)
  (p_MaxInputTokens p) (p_MaxOutputTokens p) (p_ReasoningEfforts p) (p_DefaultReasoningEffort p)
  (p_SupportsReasoningEffort p) (p_SupportsBackendSearch p).

Definition legacyModelCreated : Z := 1677610602.

Definition publicModelResponse (id ownedBy : string) (createdAt : Time) : PublicModelResponse :=
  mkPublic id (if IsZero createdAt then legacyModelCreated else Unix createdAt) ownedBy [] "" "" "" "" 0 0 0 [] "" None None.

Definition channelFromPath (path : string) : string := default EmptyString (FromPath path).

(** Whether the row is published under the filter; its channel is [TrimSpace (Channel m)]. *)
Definition isVisiblePublicModel (m : Model) (filterChannel : string) : bool :=
  let mChannel := TrimSpace (Channel m) in
  if (negb (empty filterChannel) && negb (EqualFold mChannel filterChannel)) || negb (ModelStatus_Enabled (Status m)) then false
  else if EqualFold mChannel "grok" && negb (IsVisibleGrokModel (Models.ModelID m) (Verified m)) then false
  else true.

Definition normalizeRequestedModelID (modelID : string) : string := key_of modelID.

Definition externalPublicModelID (channel internalID : string) : string :=
  let external := ExternalPublicID internalID in
  if EqualFold (TrimSpace channel) "grok" && negb (empty external) then external else normalizeRequestedModelID internalID.

Definition publicModelIDKey (id : string) : string := key_of id.

Definition build_provider (acc : Account) : string :=
  let provider := key_of (GrokProvider acc) in
  if empty provider && EqualFold (TrimSpace (CredentialType acc)) "oauth" then "build" else provider.

Definition build_catalogs (accounts : list Account) : list (list Profile) :=
  omap (fun acc : Account =>
    if EqualFold (TrimSpace (AccountType acc)) "grok" && String.eqb (build_provider acc) "build"
    then match grok_catalog acc with [] => None | catalog => Some catalog end
    else None) accounts.

Definition profile_keys (p : Profile) : list string :=
  filter (fun key => key <> EmptyString) (publicModelIDKey <$> [Account.ModelID p; ExternalPublicID (Account.ModelID p)]).

Definition grokBuildProfiles (accounts : option (list Account)) : gmap string Profile :=
  foldl (fun out p => foldl (fun out key => <[key := p]> out) out (profile_keys p)) ∅
    (Aggregate (build_catalogs (default [] accounts))).

Definition applyGrokBuildProfile (p : Profile) (entry : PublicModelResponse) : PublicModelResponse :=
  let entry := entry <| p_ReasoningEfforts := ReasoningEfforts p |> <| p_DefaultReasoningEffort := DefaultReasoningEffort p |>
                     <| p_SupportsReasoningEffort := Some (Account.SupportsReasoningEffort p) |>
                     <| p_SupportsBackendSearch := Some (SupportsBackendSearch p) |> in
  let entry := if (0 <? ContextWindow p)%Z
               then entry <| p_ContextLength := ContextWindow p |> <| p_MaxInputTokens := ContextWindow p |> else entry in
  if (0 <? MaxCompletionTokens p)%Z then entry <| p_MaxOutputTokens := MaxCompletionTokens p |> else entry.

(** The list so far and the keys of its names. *)
Record Listing := mkListing { l_items : list PublicModelResponse; l_seen : gset string }.

Definition append_item (l : Listing) (entry : PublicModelResponse) : Listing :=
  mkListing (l_items l ++ [entry]) ({[ publicModelIDKey (p_ID entry) ]} ∪ l_seen l).
Definition append_new (l : Listing) (entry : PublicModelResponse) : Listing :=
  if bool_decide (publicModelIDKey (p_ID entry) ∈ l_seen l) then l else append_item l entry.

Definition compatibility_aliases (id : string) : list string :=
  let base := GrokModelSlug id in
  let levels := SupportedReasoningEfforts id in
  (if Contains (TrimSpace id) "/" then [base] else [])
    ++ (if (2 <=? length levels)%nat then (fun level => base +:+ "-" +:+ level) <$> levels else []).

Definition appendGrokCompatibilityAliases (l : Listing) (entry : PublicModelResponse) : Listing :=
  if EqualFold (p_OwnedBy entry) "grok"
  then foldl (fun l alias => append_new l (entry <| p_ID := alias |>)) l (compatibility_aliases (p_ID entry))
  else l.

(** [APIKeyAllowsModel] of middleware/session.go: [None] when the request carries
    no managed key. *)
Definition APIKeyAllowsModel (allowed : option (list string)) (model : string) : bool :=
  match allowed with
  | None | Some [] => true
  | Some models =>
      let model := key_of model in
      existsb (fun a => let a := key_of a in String.eqb a "*" || (negb (empty model) && String.eqb a model)) models
  end.

Section Listing.
Context (allowed : option (list string)) (filterChannel : string).
Context (windows : modelContextWindows) (profiles : gmap string Profile).

Definition public_id (m : Model) : string := externalPublicModelID (TrimSpace (Channel m)) (Models.ModelID m).

Definition listable (m : Model) : bool :=
  isVisiblePublicModel m filterChannel && (APIKeyAllowsModel allowed (Models.ModelID m) || APIKeyAllowsModel allowed (public_id m)).

Definition profile_of (m : Model) : option Profile :=
  let provider := key_of (Provider m) in
  if EqualFold (TrimSpace (Channel m)) "grok" && (String.eqb provider "build" || empty provider)
  then head (omap (fun id => profiles !! publicModelIDKey id) [Models.ModelID m; UpstreamModel m; public_id m])
  else None.

Definition public_entry (m : Model) : PublicModelResponse :=
  let '(input, output) := modelContextWindow windows (TrimSpace (Channel m)) (Models.ModelID m) (public_id m) in
  let entry := publicModelResponse (public_id m) (TrimSpace (Channel m)) (created m)
                 <| p_Capabilities := Capabilities m |> <| p_Provider := Provider m |> <| p_UpstreamModel := UpstreamModel m |>
                 <| p_BillingTier := BillingTier m |> <| p_BillingSource := BillingSource m |>
                 <| p_ContextLength := input |> <| p_MaxInputTokens := input |> <| p_MaxOutputTokens := output |> in
  match profile_of m with Some p => applyGrokBuildProfile p entry | None => entry end.

Definition publish (l : Listing) (m : Model) : Listing :=
  if negb (listable m) then l
  else if bool_decide (publicModelIDKey (public_id m) ∈ l_seen l) then l
  else appendGrokCompatibilityAliases (append_item l (public_entry m)) (public_entry m).

Definition listed_before (a b : Model) : bool :=
  if (SortOrder a =? SortOrder b)%Z
  then negb (bytes_le (ToLower (Models.ModelID b)) (ToLower (Models.ModelID a)))
  else (SortOrder a <? SortOrder b)%Z.

Definition public_models (rows : list Model) : list PublicModelResponse :=
  l_items (foldl publish (mkListing [] ∅) (SliceStable listed_before rows)).
End Listing.

(** ** Effort variants

    A catalogue may publish "family-low", "family-high", ... as separate models. *)
Definition codexEffortSuffixes : list string := ["low"; "medium"; "high"; "xhigh"; "max"].

Definition effort_name (family level : string) : string := family +:+ "-" +:+ level.

Definition TrimSuffix (s suffix : string) : string :=
  if HasSuffix s suffix then stake (String.length s - String.length suffix) s else s.

Definition splitEffortVariantSuffix (modelID : string) : string * string :=
  match find (fun suffix => HasSuffix modelID ("-" +:+ suffix)) codexEffortSuffixes with
  | Some suffix => (TrimSuffix modelID ("-" +:+ suffix), suffix)
  | None => (modelID, EmptyString)
  end.

Fixpoint position (x : string) (l : list string) : nat :=
  match l with [] => O | y :: rest => if String.eqb y x then O else S (position x rest) end.
Definition effortLevelRank (level : string) : nat := position level codexEffortSuffixes.

Definition sortEffortLevels (levels : list string) : list string :=
  SliceStable (fun a b => (effortLevelRank a <? effortLevelRank b)%nat) levels.

(** ** The Codex catalogue (codex_models.go) *)
Definition codexReasoningDescriptions : list (string * string) := [
  ("none", "No reasoning");
  ("minimal", "Fastest responses with minimal reasoning");
  ("low", "Fast responses with lighter reasoning");
  ("medium", "Balances speed and reasoning depth for everyday tasks");
  ("high", "Greater reasoning depth for complex problems");
  ("xhigh", "Extra high reasoning depth for complex problems");
  ("max", "Maximum reasoning depth for the hardest problems")].
Definition level_description (level : string) : string :=
  match find (fun row => String.eqb row.1 level) codexReasoningDescriptions with Some (_, text) => text | None => EmptyString end.

Definition codexBaseInstructions : string :=
  "You are Codex, a coding agent. Follow the user's instructions and use the available tools to complete software engineering tasks. Inspect relevant files before editing, preserve unrelated changes, and verify the result.".

Definition codexDefaultReasoningLevel (levels : list string) : string :=
  if existsb (String.eqb "medium") levels then "medium"
  else match levels with level :: _ => level | [] => "none" end.

Definition known_level (level : string) : bool := existsb (fun row => String.eqb row.1 level) codexReasoningDescriptions.

Definition codexObservedReasoning (item : PublicModelResponse) : option (list string * string) :=
  if match p_SupportsReasoningEffort item with None => true | Some _ => false end
     && match p_ReasoningEfforts item with [] => true | _ => false end && blank (p_DefaultReasoningEffort item)
  then None
  else
    let levels := effort_menu known_level (p_ReasoningEfforts item) in
    let default_ := key_of (p_DefaultReasoningEffort item) in
    Some (levels, if bool_decide (default_ ∈ levels) && negb (empty default_) then default_ else codexDefaultReasoningLevel levels).

Definition codexHasCapability (item : PublicModelResponse) (capability : string) : bool :=
  existsb (fun value => EqualFold (TrimSpace value) capability) (p_Capabilities item).

Definition codexAgentToolsSupported (item : PublicModelResponse) : bool :=
  EqualFold (TrimSpace (p_Provider item)) "build" && codexHasCapability item "responses".

Definition codexVisibilityFor (item : PublicModelResponse) : string :=
  if existsb (codexHasCapability item) ["image"; "image_edit"; "video"] then "hide" else "list".

(** [strings.Fields]. *)
Fixpoint fields_from (fuel : nat) (word s : string) : list string :=
  let flush rest := if empty word then rest else word :: rest in
  match fuel, s with
  | S fuel, String a s1 =>
      match space_rest false s with
      | Some rest => flush (fields_from fuel EmptyString rest)
      | None => fields_from fuel (word +:+ String a EmptyString) s1
      end
  | _, _ => flush []
  end.
Definition Fields (s : string) : list string := fields_from (String.length s) EmptyString s.

(** The families in order of first appearance. A name met again (a variant, then the
    bare name) is entered in the order again. *)
Record effortFamily := mkFamily { representative : PublicModelResponse; f_levels : list string; variants : nat }.
Record Families := mkFamilies { f_table : gmap string effortFamily; f_order : list string }.

Definition add_variant (level : string) (item : PublicModelResponse) (f : effortFamily) : effortFamily :=
  mkFamily (if negb (String.eqb (codexVisibilityFor (representative f)) "list") && String.eqb (codexVisibilityFor item) "list"
            then item else representative f)
    (if bool_decide (level ∈ f_levels f) then f_levels f else f_levels f ++ [level]) (S (variants f)).

Definition add_family (s : Families) (item : PublicModelResponse) : Families :=
  let '(name, level) := splitEffortVariantSuffix (p_ID item) in
  if empty level then
    mkFamilies (<[p_ID item := mkFamily item [] 1]> (f_table s)) (f_order s ++ [p_ID item])
  else
    match f_table s !! name with
    | Some entry => mkFamilies (<[name := add_variant level item entry]> (f_table s)) (f_order s)
    | None => mkFamilies (<[name := add_variant level item (mkFamily item [] 0)]> (f_table s)) (f_order s ++ [name])
    end.
Definition effort_families (items : list PublicModelResponse) : Families := foldl add_family (mkFamilies ∅ []) items.

(** The fields that are the same for every model are [codexBaseInstructions] and the
    constants of the literal: shell type "shell_command", minimal version "0.0.0",
    supported in the API, automatic summaries, text web search, truncation at 10000
    tokens, 95 percent effective window. *)
Record codexModelEntry := mkEntry {
  Slug : string;
  DisplayName : string;
  Description : string;
  DefaultReasoningLevel : string;
  SupportedReasoningLevels : list (string * string);
  Visibility : string;
  Priority : nat;
  ReasoningSupported : bool;
  ApplyPatchToolType : option string;
  SupportsParallelToolCalls : bool;
  CodexContextWindow : Z;
  MaxOutputTokens : Z;
  MaxContextWindow : Z;
  InputModalities : list string
}.

Section Codex.
(** [unicode.ToUpper]. *)
Context (upper : Z -> Z).

Definition title_word (word : string) : string :=
  let '(r, size) := DecodeRune word in EncodeRune (upper r) +:+ ToValidUTF8 (sdrop size word).
Definition spaced (a : ascii) : ascii := if is_byte 95 a || is_byte 45 a then ascii_of_nat 32 else a.
Definition codexDisplayName (slug : string) : string := String.concat " " (title_word <$> Fields (map_bytes spaced slug)).

Definition codex_entry (index : nat) (name : string) (entry : effortFamily) : codexModelEntry :=
  let item := representative entry in
  let collapsed := (2 <=? variants entry)%nat in
  let name := if collapsed then name else p_ID item in
  let own_levels := if collapsed then f_levels entry else [] in
  let slug := GrokModelSlug name in
  let metadata := default codexDefaultMetadata (metadata_of slug) in
  let window := if (0 <? p_ContextLength item)%Z then p_ContextLength item
                else if (0 <? p_MaxInputTokens item)%Z then p_MaxInputTokens item else contextWindow metadata in
  let '(levels, default_) :=
    match codexObservedReasoning item with
    | Some observed => observed
    | None => let levels := match own_levels with [] => SupportedReasoningEfforts name | _ => sortEffortLevels own_levels end in
              (levels, codexDefaultReasoningLevel levels)
    end in
  let tools := codexAgentToolsSupported item in
  mkEntry name (codexDisplayName slug) (description metadata) default_ ((fun level => (level, level_description level)) <$> levels)
    (codexVisibilityFor item) (S index) (existsb (fun level => negb (String.eqb level "none")) levels)
    (if tools then Some "freeform" else None) tools window (p_MaxOutputTokens item)
    (wrap64 (window + (if (0 <? p_MaxOutputTokens item)%Z then p_MaxOutputTokens item else 0)))
    ("text" :: if imageInput metadata then ["image"] else []).

Definition newCodexModelCatalog (items : list PublicModelResponse) : list codexModelEntry :=
  let s := effort_families items in
  omap (fun ix => codex_entry ix.1 ix.2 <$> f_table s !! ix.2) (imap pair (f_order s)).
End Codex.

(** ** The handlers *)
Inductive ModelsResponse :=
  | MethodNotAllowed
  | IDRequired
  | NotConfigured
  | FetchFailed (message : string)
  | NotFound
  | ModelList (data : list PublicModelResponse)
  | CodexCatalog (models : list codexModelEntry)
  | OneModel (model : PublicModelResponse).

Record ModelsRequest := mkModelsRequest {
  r_get : bool;
  r_path : string;
  r_client_version : string;
  r_allowed : option (list string)
}.

(** What the handler finds: no store at all, or its rows and enabled accounts. *)
Record StoreView := mkView { v_rows : result (list Model) string; v_accounts : option (list Account) }.

Definition HandleModels (upper : Z -> Z) (r : ModelsRequest) (store : option StoreView) : ModelsResponse :=
  if negb (r_get r) then MethodNotAllowed
  else match store with
       | None => NotConfigured
       | Some v =>
           match v_rows v with
           | Err e => FetchFailed ("Failed to fetch models: " +:+ e)
           | Ok rows =>
               let items := public_models (r_allowed r) (channelFromPath (r_path r)) (observedModelContextWindows (v_accounts v))
                              (grokBuildProfiles (v_accounts v)) rows in
               if blank (r_client_version r) then ModelList items else CodexCatalog (newCodexModelCatalog upper items)
           end
       end.

(** ** From a requested name to a row (handler_helpers.go)

    The two lookups of the store, as answers: a lookup may repair an index, which
    changes no answer (lemma [lookup_stable]). *)
Record Lookups := mkLookups {
  by_id : string -> result Model string;
  by_route : string -> string -> result Model string
}.

Definition redis_lookups (smembers : gset string -> list string) (db : Db) : Lookups :=
  mkLookups (fun id => (GetModelByModelID smembers id db).1) (fun channel id => (GetModelByChannelAndModelID smembers channel id db).1).

Definition lookup (store : Lookups) (channel modelID : string) : result Model string :=
  if empty channel then by_id store modelID else by_route store channel modelID.

Definition ErrNoRows : string := "no rows in result set".
Definition isModelMissingError (e : string) : bool := String.eqb e ErrNoRows || Contains (ToLower e) "model not found".

Definition effortVariantOrder : list string := ["medium"; "high"; "low"; "xhigh"; "max"].

Definition budget_effort (budget : float64) : string :=
  if negb (f64_lt f64_zero budget) then EmptyString
  else if f64_lt budget (f64_of_Z 4096) then "low"
  else if f64_lt budget (f64_of_Z 16384) then "medium" else "high".

Definition effort_word (config : option (list (string * json))) : string :=
  match config with
  | Some fs => match field "effort" fs with Some (JStr value) => key_of value | _ => EmptyString end
  | None => EmptyString
  end.

Definition first_nonempty (words : list string) : option string := find (fun w => negb (empty w)) words.

Definition looseNumber (v : option json) : option float64 := match v with Some (JNum lit) => ParseFloat lit | _ => None end.

Definition requestReasoningEffort (r : ClaudeRequest) : string :=
  match first_nonempty [key_of (ReasoningEffort r); effort_word (OutputConfig r); effort_word (ThinkingConfig r)] with
  | Some effort => effort
  | None =>
      match ThinkingConfig r with
      | None => EmptyString
      | Some fs => match looseNumber (field "budget_tokens" fs) with Some budget => budget_effort budget | None => EmptyString end
      end
  end.

Section Resolution.
(** [None]: the handler has no store. *)
Context (store : option Lookups).

Definition lookupModelRow (channel modelID : string) : option Model :=
  match store with
  | None => None
  | Some s =>
      let candidate := normalizeRequestedModelID modelID in
      if empty candidate then None
      else match lookup s channel candidate with Ok m => Some m | Err _ => None end
  end.

Definition effort_candidates (modelID effort : string) : list string :=
  (if empty effort then [] else [effort_name modelID effort]) ++ (effort_name modelID <$> effortVariantOrder).

Definition row_enabled (m : option Model) : bool := match m with Some m => ModelStatus_Enabled (Status m) | None => false end.

Definition resolveEffortModelVariant (modelID effort forcedChannel : string) : string :=
  let modelID := normalizeRequestedModelID modelID in
  match store with
  | None => modelID
  | Some _ =>
      if empty modelID then modelID
      else match lookupModelRow forcedChannel modelID with
           | Some _ => modelID
           | None =>
               if negb (empty (splitEffortVariantSuffix modelID).2) then modelID
               else default modelID (find (fun c => row_enabled (lookupModelRow forcedChannel c))
                                       (effort_candidates modelID (key_of effort)))
           end
  end.

Definition LookupChannelForModel (hint modelID : string) : result string string :=
  match store with
  | None => Ok EmptyString
  | Some s =>
      let modelID := normalizeRequestedModelID (if blank hint then modelID else TrimSpace hint) in
      let answer (r : result Model string) (missing : result string string) :=
        match r with
        | Ok m => Ok (TrimSpace (Channel m))
        | Err e => if isModelMissingError e then missing else Err e
        end in
      if empty modelID then Ok EmptyString
      else answer (by_id s modelID)
             (let variant := resolveEffortModelVariant modelID EmptyString EmptyString in
              if empty variant || String.eqb variant modelID then Ok EmptyString
              else answer (by_id s variant) (Ok EmptyString))
  end.

Definition ChannelForModel (hint modelID : string) : string :=
  match LookupChannelForModel hint modelID with Ok channel => channel | Err _ => EmptyString end.

(** [path] is [None] when there is no request at hand. *)
Definition ModelChannel (path : option string) (hint modelID : string) : string :=
  let named := match path with Some p => channelFromPath p | None => EmptyString end in
  if negb (empty named) then named
  else match path with
       | Some _ => ChannelForModel hint (if empty modelID then hint else modelID)
       | None => ChannelForModel EmptyString modelID
       end.

Definition sameModelChannel (a b : string) : bool := String.eqb (normalizeModelChannelKey a) (normalizeModelChannelKey b).

Definition validateModelAvailability (modelID forcedChannel : string) : result (option Model) string :=
  match store with
  | None => Ok None
  | Some _ =>
      let modelID := TrimSpace modelID in
      if empty modelID then Ok None
      else match lookupModelRow forcedChannel modelID with
           | None => Err "model not found"
           | Some m =>
               if negb (ModelStatus_Enabled (Status m)) then Err "model not available"
               else if negb (empty forcedChannel) && negb (sameModelChannel (Channel m) forcedChannel) then Err "model not found"
               else Ok (Some m)
           end
  end.

(** The model step of a request: the effort it asked for, unless its model already
    names one; the name it is served under; the row. *)
Definition requested_effort (r : ClaudeRequest) (forcedChannel : string) : string :=
  if empty forcedChannel && negb (empty (splitEffortVariantSuffix (normalizeRequestedModelID (Prompt.Model r))).2)
  then EmptyString else requestReasoningEffort r.

Definition resolve_request (r : ClaudeRequest) (forcedChannel : string) : string * result (option Model) string :=
  let model := resolveEffortModelVariant (Prompt.Model r) (requested_effort r forcedChannel) forcedChannel in
  (model, validateModelAvailability model forcedChannel).

Definition HandleModelByID (r : ModelsRequest) (accounts : option (list Account)) : ModelsResponse :=
  if negb (r_get r) then MethodNotAllowed
  else
    let path := r_path r in
    let id := match TrimModelPath path with Some (_, id) => id | None => TrimPrefix path "/v1/models/" end in
    if empty id then IDRequired
    else if negb (APIKeyAllowsModel (r_allowed r) id) then NotFound
    else match store with
         | None => NotConfigured
         | Some s =>
             let filterChannel := channelFromPath path in
             let found :=
               match lookup s filterChannel id with
               | Ok m => Some m
               | Err _ =>
                   let variant := resolveEffortModelVariant id EmptyString filterChannel in
                   if negb (empty variant) && negb (String.eqb variant id)
                   then match lookup s filterChannel variant with Ok m => Some m | Err _ => None end else None
               end in
             match found with
             | Some m =>
                 if isVisiblePublicModel m filterChannel then
                   let mChannel := TrimSpace (Channel m) in
                   let '(input, output) := modelContextWindow (observedModelContextWindows accounts) mChannel (Models.ModelID m)
                                             (normalizeRequestedModelID id) in
                   OneModel (publicModelResponse (Models.ModelID m) mChannel (created m)
                               <| p_ContextLength := input |> <| p_MaxInputTokens := input |> <| p_MaxOutputTokens := output |>)
                 else NotFound
             | None => NotFound
             end
         end.
End Resolution.

(** * Lemmas

    ** Suffixes *)
Lemma HasSuffix_split s suffix : HasSuffix s suffix = true -> s = TrimSuffix s suffix +:+ suffix.
Proof.
  intros H. unfold TrimSuffix. rewrite H. apply andb_true_iff in H as [_ H%String.eqb_eq].
  rewrite <- (stake_sdrop (String.length s - String.length suffix) s) at 1. by rewrite H.
Qed.

Lemma split_level id name level : splitEffortVariantSuffix id = (name, level) -> level <> EmptyString ->
  level ∈ codexEffortSuffixes /\ id = effort_name name level.
Proof.
  unfold splitEffortVariantSuffix. destruct (find _ _) as [suffix|] eqn:E; [|naive_solver].
  apply find_some in E as [Hin Hs]. intros [= <- <-] _. split; [by apply list_elem_of_In|].
  by apply HasSuffix_split in Hs.
Qed.

Lemma split_none id name : splitEffortVariantSuffix id = (name, EmptyString) -> name = id.
Proof.
  unfold splitEffortVariantSuffix. destruct (find _ _) as [suffix|] eqn:E; [|naive_solver].
  apply find_some in E as [Hin _]. intros [= _ ->]. by repeat destruct Hin as [Hin|Hin].
Qed.

(** ** Families *)
Definition variant_of (items : list PublicModelResponse) (name level : string) : Prop :=
  level ∈ codexEffortSuffixes /\ exists item, item ∈ items /\ p_ID item = effort_name name level.
Definition named (items : list PublicModelResponse) (id : string) : Prop := exists item, item ∈ items /\ p_ID item = id.

Record family_ok (items : list PublicModelResponse) (name : string) (f : effortFamily) : Prop := {
  fo_representative : representative f ∈ items;
  fo_source : named items name \/ exists level, variant_of items name level;
  fo_levels : forall level, level ∈ f_levels f -> variant_of items name level;
}.

Lemma variant_more items items' name level : (forall i, i ∈ items -> i ∈ items') ->
  variant_of items name level -> variant_of items' name level.
Proof. intros H [? (i & ? & ?)]. split; [done|]. exists i. auto. Qed.

Lemma family_more items items' name f : (forall i, i ∈ items -> i ∈ items') ->
  family_ok items name f -> family_ok items' name f.
Proof.
  intros H [A B C]. split; [by apply H| |].
  - destruct B as [(i & ? & ?)|[level ?]]; [left; exists i; auto|right; exists level; by eapply variant_more].
  - intros level Hl. eapply variant_more, C; done.
Qed.

Lemma family_added items item name level f : splitEffortVariantSuffix (p_ID item) = (name, level) -> level <> EmptyString ->
  item ∈ items -> representative f ∈ items -> (forall l, l ∈ f_levels f -> variant_of items name l) ->
  family_ok items name (add_variant level item f).
Proof.
  intros Hs Hl Hi Hr Hv. destruct (split_level _ _ _ Hs Hl) as [Hin Hid].
  assert (variant_of items name level) as Hnew by (split; [done|by exists item]).
  split; cbn; [by destruct (_ && _)|right; by exists level|]. intros l. destruct (bool_decide _); [apply Hv|].
  rewrite elem_of_app, list_elem_of_singleton. intros [?| ->]; auto.
Qed.

Lemma families_ok items : let s := effort_families items in
  forall name f, f_table s !! name = Some f -> family_ok items name f.
Proof.
  cbn zeta. unfold effort_families. induction items as [|item items IH] using rev_ind; [done|].
  rewrite foldl_snoc. set (s := foldl add_family _ items) in *. intros name f.
  assert (forall i, i ∈ items -> i ∈ items ++ [item]) as Hmore by (intros; rewrite elem_of_app; auto).
  assert (item ∈ items ++ [item]) as Hself by (rewrite elem_of_app, list_elem_of_singleton; auto).
  assert (forall n g, f_table s !! n = Some g -> family_ok (items ++ [item]) n g) as IH'
    by (intros n g H; eapply family_more, IH; eauto). clear IH.
  unfold add_family. destruct (splitEffortVariantSuffix (p_ID item)) as [base level] eqn:Es.
  destruct (empty level) eqn:El.
  - cbn. intros [[<- <-]|[_ H]]%lookup_insert_Some; [|auto].
    split; [done|left; by exists item|by intros ? ?%not_elem_of_nil].
  - apply String.eqb_neq in El. destruct (f_table s !! base) as [g|] eqn:Eg; cbn;
      intros [[<- <-]|[_ H]]%lookup_insert_Some; try (by apply IH').
    + destruct (IH' _ _ Eg) as [Hr _ Hv]. by eapply family_added.
    + eapply family_added; try done. by intros ? ?%not_elem_of_nil.
Qed.

(** What a slug of the catalogue stands for. *)
Lemma slug_source upper items e : e ∈ newCodexModelCatalog upper items ->
  named items (Slug e) \/ exists level, variant_of items (Slug e) level.
Proof.
  unfold newCodexModelCatalog. rewrite list_elem_of_omap. intros ([i name] & _ & (f & Hf & He)%fmap_Some).
  cbn [fst snd] in *. destruct (families_ok items _ _ Hf) as [Hr Hs _].
  assert (Slug e = if (2 <=? variants f)%nat then name else p_ID (representative f)) as ->
    by (subst e; unfold codex_entry; by repeat case_match).
  destruct (2 <=? variants f)%nat; [done|]. left. by exists (representative f).
Qed.

(** ** Resolution *)
Class LookupLaws (s : Lookups) := {
  route_channel : forall channel id m, by_route s channel id = Ok m -> sameModelChannel (Channel m) channel = true
}.

Section Served.
Context (s : Lookups) `{!LookupLaws s} (channel : string).
Notation row_of := (lookupModelRow (Some s) channel).

Lemma row_of_trim id : row_of (TrimSpace id) = row_of id.
Proof. unfold lookupModelRow, normalizeRequestedModelID, key_of. by rewrite TrimSpace_idem. Qed.

(** An enabled row is served under its name. *)
Lemma enabled_served id : row_enabled (row_of id) = true ->
  exists m, row_of id = Some m /\ validateModelAvailability (Some s) id channel = Ok (Some m).
Proof.
  intros H. destruct (row_of id) as [m|] eqn:Hm; [|done]. exists m. split; [done|].
  unfold validateModelAvailability. rewrite row_of_trim, Hm. cbn in H. rewrite H. cbn [negb].
  assert (empty (TrimSpace id) = false) as ->.
  { destruct (empty (TrimSpace id)) eqn:E; [|done]. apply String.eqb_eq in E. rewrite <- row_of_trim, E in Hm. done. }
  destruct (empty channel) eqn:Ec; [done|].
  unfold lookupModelRow, lookup in Hm. rewrite Ec in Hm. destruct (empty _); [done|].
  destruct (by_route s _ _) as [m'|] eqn:Er; [|done]. injection Hm as ->. by rewrite (route_channel _ _ _ Er).
Qed.

Lemma resolved_own id effort m : row_of (key_of id) = Some m -> resolveEffortModelVariant (Some s) id effort channel = key_of id.
Proof.
  intros H. unfold resolveEffortModelVariant, normalizeRequestedModelID. rewrite H. by destruct (empty _).
Qed.

(** A bare family resolves to an enabled variant: the one asked for when there is one. *)
Lemma resolved_family family effort : key_of family = family -> family <> EmptyString -> row_of family = None ->
  (splitEffortVariantSuffix family).2 = EmptyString ->
  (exists level, level ∈ codexEffortSuffixes /\ row_enabled (row_of (effort_name family level)) = true) ->
  row_enabled (row_of (resolveEffortModelVariant (Some s) family effort channel)) = true.
Proof.
  intros Hk Hn Hr Hs (level & Hl & He). unfold resolveEffortModelVariant, normalizeRequestedModelID. rewrite Hk, Hr, Hs.
  apply String.eqb_neq in Hn. unfold empty at 1. rewrite Hn. cbn [negb empty String.eqb].
  destruct (find _ _) as [c|] eqn:Ef; [by apply find_some in Ef as [_ ?]|]. exfalso.
  assert (effort_name family level ∈ effort_candidates family (key_of effort)) as Hin.
  { unfold effort_candidates. rewrite elem_of_app. right. apply list_elem_of_fmap. exists level. split; [done|].
    unfold codexEffortSuffixes, effortVariantOrder in *. set_solver. }
  pose proof (find_none _ _ _ Ef Hin) as Hx. cbn beta in Hx. by rewrite He in Hx.
Qed.

Lemma resolved_effort family effort : key_of family = family -> family <> EmptyString -> row_of family = None ->
  (splitEffortVariantSuffix family).2 = EmptyString -> key_of effort <> EmptyString ->
  row_enabled (row_of (effort_name family (key_of effort))) = true ->
  resolveEffortModelVariant (Some s) family effort channel = effort_name family (key_of effort).
Proof.
  intros Hk Hn Hr Hs He Hrow. unfold resolveEffortModelVariant, normalizeRequestedModelID. rewrite Hk, Hr, Hs.
  apply String.eqb_neq in Hn, He. unfold empty at 1. rewrite Hn. cbn [negb empty String.eqb].
  unfold effort_candidates. unfold empty. rewrite He. cbn [app find]. by rewrite Hrow.
Qed.
End Served.

(** ** The lookups of the store *)
Section Redis.
Context (smembers : gset string -> list string) (smembers_elements : forall X, smembers X ≡ₚ elements X).

Definition lookup_step (channel modelID : string) (db : Db) : result Model string * Db :=
  if empty channel then GetModelByModelID smembers modelID db else GetModelByChannelAndModelID smembers channel modelID db.

Lemma lookup_step_answer channel modelID db :
  (lookup_step channel modelID db).1 = lookup (redis_lookups smembers db) channel modelID.
Proof. unfold lookup_step, lookup. by destruct (empty channel). Qed.

Lemma ListModels_same db db' : rows db' = rows db -> ids db' = ids db -> ListModels smembers db' = ListModels smembers db.
Proof. intros Hr Hi. unfold ListModels, listed. by rewrite Hr, Hi. Qed.

(** A repaired index gives every key the answer it had. *)
Lemma lookup_by_repaired h key key' good good' hit hit' db db' m : sound db -> rows db' = rows db -> ids db' = ids db ->
  (forall m, hit m = true -> good m = true) ->
  lookup_by smembers h key good hit db = Some m -> (key' = key -> good' = good /\ hit' = hit) ->
  lookup_by smembers (<[key := ID m]> h) key' good' hit' db' = lookup_by smembers h key' good' hit' db.
Proof.
  intros Hs Hr Hi Hg Hm Hk. destruct (lookup_by_found smembers smembers_elements _ _ _ _ _ _ Hs Hg Hm) as (Hrow & Hgood & He).
  destruct (decide (key' = key)) as [->|Hne].
  - destruct (Hk eq_refl) as [-> ->]. rewrite Hm. unfold lookup_by.
    rewrite (index_repaired _ _ _ db' m); [done|apply lookup_insert_eq|done| |done]. by rewrite (GetModel_transfer _ db).
  - unfold lookup_by, index_hit, HGet. rewrite lookup_insert_ne by done.
    by rewrite (GetModel_transfer _ db), (ListModels_same db) by done.
Qed.

Lemma GetModelByModelID_by modelID db :
  let id := TrimSpace modelID in
  let good m := String.eqb (TrimSpace (Models.ModelID m)) id in
  let hit m := String.eqb (Models.ModelID m) id in
  GetModelByModelID smembers modelID db =
  if empty id then (Err "model not found", db)
  else match lookup_by smembers (model_id_map db) id good hit db with
       | None => (Err "model not found", db)
       | Some m => (Ok m, match index_hit (model_id_map db) id good db with
                          | Some _ => db | None => db <| model_id_map := <[id := ID m]> (model_id_map db) |> end)
       end.
Proof. cbn zeta. unfold GetModelByModelID, lookup_by. by repeat (case_match; simplify_eq). Qed.

(** A lookup changes no later answer on the same path. *)
Lemma lookup_stable channel modelID modelID' db : sound db ->
  (lookup_step channel modelID' (lookup_step channel modelID db).2).1 = (lookup_step channel modelID' db).1.
Proof.
  intros Hs. unfold lookup_step. destruct (empty channel) eqn:Ec.
  - rewrite (GetModelByModelID_by modelID). cbn zeta. destruct (empty (TrimSpace modelID)); [done|].
    destruct (lookup_by _ _ _ _ _ _) as [m|] eqn:Hl; [|done]. cbn [snd].
    destruct (index_hit _ _ _ _); [done|]. rewrite !GetModelByModelID_by. cbn zeta.
    destruct (empty (TrimSpace modelID')); [done|].
    unshelve erewrite (lookup_by_repaired _ _ _ _ _ _ _ db _ m Hs _ _ _ Hl); [done|done|..].
    + cbn beta. intros m' E%String.eqb_eq. by rewrite E, TrimSpace_idem, String.eqb_refl.
    + by repeat case_match.
    + by intros ->.
  - rewrite (GetModelByChannelAndModelID_by smembers channel modelID). cbn zeta. destruct (empty (TrimSpace modelID)); [done|].
    destruct (lookup_by _ _ _ _ _ _) as [m|] eqn:Hl; [|done]. cbn [snd].
    destruct (index_hit _ _ _ _); [done|]. rewrite !GetModelByChannelAndModelID_by. cbn zeta.
    destruct (empty (TrimSpace modelID')); [done|].
    unshelve erewrite (lookup_by_repaired _ _ _ _ _ _ _ db _ m Hs _ _ (is_route_good _ _) Hl); [done|done|..].
    + by repeat case_match.
    + unfold modelChannelIndexKey. intros E%(inj _)%(inj _). rewrite !TrimSpace_idem in E. by rewrite E.
Qed.

#[export] Instance redis_lookup_laws db (Hs : sound db) : LookupLaws (redis_lookups smembers db).
Proof.
  split. intros channel id m H. cbn in H. pose proof (route_lookup_spec smembers smembers_elements channel id db Hs) as Hl.
  destruct (GetModelByChannelAndModelID _ _ _ _) as [[m'|] db']; [|done]. cbn in H. injection H as ->.
  destruct Hl as (_ & _ & Hc & _). unfold sameModelChannel. by rewrite Hc, String.eqb_refl.
Qed.
End Redis.

(** ** The list *)
Lemma insert_sorted_Permutation {A} (less : A -> A -> bool) x l : insert_sorted less x l ≡ₚ x :: l.
Proof. induction l as [|y l IH]; cbn; [done|]. destruct (less y x); [|done]. by rewrite IH, Permutation_swap. Qed.
Lemma SliceStable_Permutation {A} (less : A -> A -> bool) l : SliceStable less l ≡ₚ l.
Proof. induction l as [|x l IH]; cbn; [done|]. by rewrite insert_sorted_Permutation, IH. Qed.

Definition keys_of (l : Listing) : list string := (fun p => publicModelIDKey (p_ID p)) <$> l_items l.

(** The keys are those of the items, each once. *)
Record listing_ok (l : Listing) : Prop := {
  lo_seen : forall key, key ∈ l_seen l <-> key ∈ keys_of l;
  lo_once : NoDup (keys_of l);
}.

Lemma append_item_ok l entry : listing_ok l -> publicModelIDKey (p_ID entry) ∉ l_seen l -> listing_ok (append_item l entry).
Proof.
  intros [Hs Ho] Hn. unfold append_item. split; unfold keys_of in *; cbn [l_items l_seen].
  - intros key. rewrite fmap_app, elem_of_app, elem_of_union, elem_of_singleton, Hs. cbn. rewrite list_elem_of_singleton. naive_solver.
  - rewrite fmap_app. apply NoDup_app. split_and!; [done| |apply NoDup_singleton].
    intros key Hk. cbn. rewrite list_elem_of_singleton. intros ->. by apply Hn, Hs.
Qed.

Lemma append_new_ok l entry : listing_ok l -> listing_ok (append_new l entry).
Proof. intros H. unfold append_new. case_bool_decide; [done|by apply append_item_ok]. Qed.

Lemma aliases_ok entry names l : listing_ok l -> listing_ok (foldl (fun l alias => append_new l (entry <| p_ID := alias |>)) l names).
Proof. revert l. induction names as [|a names IH]; intros l H; cbn; [done|]. by apply IH, append_new_ok. Qed.

(** Items are only added, and an added item is the entry or one of its aliases. *)
Lemma aliases_items entry names l item : item ∈ l_items (foldl (fun l alias => append_new l (entry <| p_ID := alias |>)) l names) ->
  item ∈ l_items l \/ exists alias, alias ∈ names /\ item = entry <| p_ID := alias |>.
Proof.
  revert l. induction names as [|a names IH]; intros l; cbn; [auto|]. intros [H|(b & ? & ->)]%IH.
  - unfold append_new, append_item in H. case_bool_decide; [auto|]. cbn in H.
    apply elem_of_app in H as [?|E%list_elem_of_singleton]; [auto|]. right. exists a. rewrite elem_of_cons. auto.
  - right. exists b. rewrite elem_of_cons. auto.
Qed.

Lemma aliases_seen entry names l : l_seen l ⊆ l_seen (foldl (fun l alias => append_new l (entry <| p_ID := alias |>)) l names).
Proof.
  revert l. induction names as [|a names IH]; intros l; cbn; [done|]. etrans; [|apply IH].
  unfold append_new, append_item. case_bool_decide; [done|]. cbn. set_solver.
Qed.

Section ListingLemmas.
Context (allowed : option (list string)) (filterChannel : string).
Context (windows : modelContextWindows) (profiles : gmap string Profile).
Notation publish_ := (publish allowed filterChannel windows profiles).
Notation entry_ := (public_entry windows profiles).

(** What an item shows: a published row, under its public name or an alias of it. *)
Definition shows (m : Model) (item : PublicModelResponse) : Prop :=
  item = entry_ m
  \/ EqualFold (TrimSpace (Channel m)) "grok" = true
     /\ exists alias, alias ∈ compatibility_aliases (public_id m) /\ item = entry_ m <| p_ID := alias |>.

Lemma public_entry_fields m : p_ID (entry_ m) = public_id m /\ p_OwnedBy (entry_ m) = TrimSpace (Channel m).
Proof.
  unfold public_entry. destruct (modelContextWindow _ _ _ _) as [i o]. destruct (profile_of _ _); [|done].
  unfold applyGrokBuildProfile. by repeat case_match.
Qed.

Lemma publish_ok l m : listing_ok l -> listing_ok (publish_ l m).
Proof.
  intros H. unfold publish. destruct (negb _); [done|]. case_bool_decide as Hn; [done|].
  unfold appendGrokCompatibilityAliases.
  assert (listing_ok (append_item l (entry_ m))) by (apply append_item_ok; [done|]; by rewrite (proj1 (public_entry_fields m))).
  destruct (EqualFold _ _); [by apply aliases_ok|done].
Qed.

Lemma publish_items l m item : item ∈ l_items (publish_ l m) ->
  item ∈ l_items l \/ listable allowed filterChannel m = true /\ shows m item.
Proof.
  unfold publish. destruct (listable _ _ _); cbn [negb]; [|auto]. case_bool_decide; [auto|].
  assert (item ∈ l_items (append_item l (entry_ m)) -> item ∈ l_items l \/ true = true /\ shows m item) as Hitem.
  { unfold append_item. cbn. intros [?| ->%list_elem_of_singleton]%elem_of_app; [auto|]. right. split; [done|by left]. }
  unfold appendGrokCompatibilityAliases. destruct (public_entry_fields m) as [Hi Hc]. rewrite Hi, Hc.
  destruct (EqualFold _ _) eqn:Eg; [|done]. intros [?|(alias & ? & ->)]%aliases_items; [auto|].
  right. split; [done|]. right. eauto.
Qed.

Lemma publish_seen l m : l_seen l ⊆ l_seen (publish_ l m).
Proof.
  unfold publish. destruct (negb _); [done|]. case_bool_decide; [done|]. unfold appendGrokCompatibilityAliases.
  destruct (EqualFold _ _); [etrans; [|apply aliases_seen]|]; unfold append_item; cbn; set_solver.
Qed.

Lemma publish_named l m : listable allowed filterChannel m = true -> publicModelIDKey (public_id m) ∈ l_seen (publish_ l m).
Proof.
  intros H. unfold publish. rewrite H. cbn [negb]. case_bool_decide as Hn; [done|]. unfold appendGrokCompatibilityAliases.
  assert (publicModelIDKey (public_id m) ∈ l_seen (append_item l (entry_ m)))
    by (unfold append_item; cbn; rewrite (proj1 (public_entry_fields m)); set_solver).
  destruct (EqualFold _ _); [by apply aliases_seen|done].
Qed.

Lemma published rows l : listing_ok l -> let l' := foldl publish_ l rows in
  listing_ok l' /\ l_seen l ⊆ l_seen l' /\
  (forall item, item ∈ l_items l' -> item ∈ l_items l \/ exists m, m ∈ rows /\ listable allowed filterChannel m = true /\ shows m item) /\
  (forall m, m ∈ rows -> listable allowed filterChannel m = true -> publicModelIDKey (public_id m) ∈ l_seen l').
Proof.
  cbn zeta. revert l. induction rows as [|m rows IH]; intros l H; cbn.
  - split_and!; [done..|auto|by intros ? ?%not_elem_of_nil].
  - destruct (IH (publish_ l m)) as (Ho & Hs & Hi & Hn); [by apply publish_ok|]. split_and!; [done| | |].
    + etrans; [apply publish_seen|done].
    + intros item [[?|[? ?]]%publish_items|(m' & ? & ? & ?)]%Hi; [by left|right..].
      * exists m. rewrite elem_of_cons. auto.
      * exists m'. rewrite elem_of_cons. auto.
    + intros m' [->|Hm]%elem_of_cons Hl; [by apply Hs, publish_named|by apply Hn].
Qed.
End ListingLemmas.

(** ** Aggregation *)
Lemma known_word value : knownReasoningEffort value = true -> key_of value = value /\ value <> EmptyString.
Proof.
  unfold knownReasoningEffort. rewrite List.existsb_exists. intros (x & Hin & ->%String.eqb_eq).
  repeat destruct Hin as [<-|Hin]; try done; by vm_compute.
Qed.

Lemma effort_menu_snoc known l raw : effort_menu known (l ++ [raw]) = add_effort known (effort_menu known l) raw.
Proof. unfold effort_menu. by rewrite foldl_snoc. Qed.

(** A menu: known words, each once. *)
Definition menu (l : list string) : Prop := NoDup l /\ Forall (fun v => knownReasoningEffort v = true) l.

Lemma effort_menu_ok l : menu (effort_menu knownReasoningEffort l).
Proof.
  induction l as [|raw l [Hn Hf]] using rev_ind; [by split; constructor|]. rewrite effort_menu_snoc. unfold add_effort.
  destruct (knownReasoningEffort (key_of raw)) eqn:Ek; cbn [negb orb]; [|by split].
  case_bool_decide as Hin; [by split|]. split.
  - apply NoDup_app. split_and!; [done| |apply NoDup_singleton]. by intros x Hx ->%list_elem_of_singleton.
  - apply Forall_app. split; [done|by apply Forall_singleton].
Qed.

Lemma effort_menu_fixed l : menu l -> effort_menu knownReasoningEffort l = l.
Proof.
  induction l as [|v l IH] using rev_ind; [done|]. intros [(Hn & Hd & _)%NoDup_app [Hf Hv]%Forall_app]. apply Forall_cons_1 in Hv as [Hv _].
  rewrite effort_menu_snoc, IH by done. unfold add_effort. rewrite (proj1 (known_word _ Hv)), Hv.
  rewrite bool_decide_eq_false_2; [done|]. intros H. apply (Hd v); [done|by apply list_elem_of_singleton].
Qed.

Lemma menu_filter P `{!forall x, Decision (P x)} l : menu l -> menu (filter P l).
Proof.
  intros [Hn Hf]. split; [by apply NoDup_filter|]. rewrite Forall_forall in Hf |- *.
  intros x [_ Hx]%list_elem_of_filter. by apply Hf.
Qed.

(** An observation: what [Normalize] returns. *)
Record observation (p : Profile) : Prop := {
  ob_menu : menu (ReasoningEfforts p);
  ob_default : DefaultReasoningEffort p = EmptyString \/ DefaultReasoningEffort p ∈ ReasoningEfforts p;
  ob_window : (0 <= ContextWindow p)%Z;
  ob_output : (0 <= MaxCompletionTokens p)%Z;
  ob_id : TrimSpace (Account.ModelID p) = Account.ModelID p;
}.

Lemma Normalize_observation p : observation (Normalize p).
Proof.
  split; cbn; [apply effort_menu_ok| |lia|lia|apply TrimSpace_idem]. case_bool_decide; auto.
Qed.

(** The combination field by field. *)
Lemma shared_fields a b : observation a -> observation b ->
  ReasoningEfforts (shared a b) = filter (fun e => e ∈ ReasoningEfforts b) (ReasoningEfforts a) /\
  (DefaultReasoningEffort (shared a b) <> EmptyString ->
     DefaultReasoningEffort (shared a b) = DefaultReasoningEffort a /\ DefaultReasoningEffort a = DefaultReasoningEffort b) /\
  ContextWindow (shared a b) = tighter (ContextWindow a) (ContextWindow b) /\
  MaxCompletionTokens (shared a b) = tighter (MaxCompletionTokens a) (MaxCompletionTokens b) /\
  SupportsBackendSearch (shared a b) = SupportsBackendSearch a && SupportsBackendSearch b /\
  Account.ModelID (shared a b) = Account.ModelID a.
Proof.
  intros [Ma Da Wa Oa Ia] [Mb Db Wb Ob Ib].
  assert (effort_menu knownReasoningEffort (filter (fun e => e ∈ ReasoningEfforts b) (ReasoningEfforts a))
          = filter (fun e => e ∈ ReasoningEfforts b) (ReasoningEfforts a)) as Hm by (apply effort_menu_fixed, menu_filter; done).
  assert (forall x y, (0 <= x)%Z -> (0 <= y)%Z -> Z.max 0 (tighter x y) = tighter x y) as Ht
    by (intros x y Hx Hy; unfold tighter; destruct (_ && _); lia).
  unfold shared, Normalize.
  cbn [ReasoningEfforts DefaultReasoningEffort ContextWindow MaxCompletionTokens SupportsBackendSearch Account.ModelID].
  rewrite Hm, !Ht, Ia by done. split_and!; try done.
  destruct (String.eqb _ _) eqn:E.
  - apply String.eqb_eq in E. case_bool_decide as Hin; [|done]. intros _. split; [|done].
    apply list_elem_of_filter in Hin as [_ Hin]. destruct Ma as [_ Hf]. rewrite Forall_forall in Hf.
    destruct Da as [Da|Da]; [rewrite Da; by vm_compute|]. by apply known_word, Hf.
  - case_bool_decide as Hin; [|done]. intros H. by exfalso.
Qed.

Lemma shared_observation a b : observation (shared a b).
Proof. apply Normalize_observation. Qed.

Definition model_key (p : Profile) : string := ToLower (Account.ModelID p).
Definition observed (key : string) (raws : list Profile) : list Profile :=
  filter (fun p => model_key p = key) (Normalize <$> raws).

Lemma observed_snoc key raws raw :
  observed key (raws ++ [raw]) = observed key raws ++ (if decide (model_key (Normalize raw) = key) then [Normalize raw] else []).
Proof. unfold observed. rewrite fmap_app, filter_app. by f_equal. Qed.

Lemma observed_normal key raws q : q ∈ observed key raws -> observation q /\ model_key q = key.
Proof.
  unfold observed. rewrite list_elem_of_filter, list_elem_of_fmap. intros (Hk & raw & -> & _).
  split; [apply Normalize_observation|done].
Qed.

(** Each entry of the result is the combination of the observations of its model, in
    their order. *)
Record aggregated (raws : list Profile) (index : gmap string nat) (out : list Profile) : Prop := {
  ag_at : forall key i, index !! key = Some i -> key <> EmptyString /\ exists p, out !! i = Some p /\ model_key p = key;
  ag_index : forall i p, out !! i = Some p -> index !! model_key p = Some i;
  ag_value : forall i p, out !! i = Some p -> exists first rest,
    observed (model_key p) raws = first :: rest /\ p = foldl shared first rest;
  ag_none : forall key, key <> EmptyString -> index !! key = None -> observed key raws = [];
}.

Lemma shared_key a b : observation a -> observation b -> model_key (shared a b) = model_key a.
Proof. intros Ha Hb. unfold model_key. by destruct (shared_fields a b Ha Hb) as (_ & _ & _ & _ & _ & ->). Qed.

Lemma combined_observation first rest : observation first -> Forall observation rest -> observation (foldl shared first rest).
Proof. intros Hf Hr. induction rest using rev_ind; [done|]. rewrite foldl_snoc. apply shared_observation. Qed.

Lemma observed_combined key raws first rest : observed key raws = first :: rest -> observation (foldl shared first rest).
Proof.
  intros E. apply combined_observation; [|apply Forall_forall; intros q Hq];
    eapply (observed_normal key raws); rewrite E, elem_of_cons; auto.
Qed.

Lemma aggregate_one_ok raws raw index out : aggregated raws index out ->
  let '(index', out') := aggregate_one (index, out) raw in aggregated (raws ++ [raw]) index' out'.
Proof.
  intros [Ha Hi Hv Hn]. unfold aggregate_one. set (q := Normalize raw). change (ToLower (Account.ModelID q)) with (model_key q).
  assert (forall key, key <> model_key q -> observed key (raws ++ [raw]) = observed key raws) as Hother
    by (intros key Hk; rewrite observed_snoc, decide_False, app_nil_r by done; done).
  assert (observed (model_key q) (raws ++ [raw]) = observed (model_key q) raws ++ [q]) as Hown
    by (by rewrite observed_snoc, decide_True).
  destruct (empty (model_key q)) eqn:Ee; [apply String.eqb_eq in Ee|apply String.eqb_neq in Ee;
    destruct (index !! model_key q) as [at_|] eqn:Ex].
  - assert (forall i p, out !! i = Some p -> model_key p <> model_key q) as Hne
      by (intros i p Hp; rewrite Ee; eapply Ha, Hi, Hp).
    split; [done|done| |].
    + intros i p Hp. rewrite Hother by (by eapply Hne). by apply Hv with (i := i).
    + intros key Hk Hix. rewrite Hother; [auto|by rewrite Ee].
  - destruct (Ha _ _ Ex) as (_ & cur & Hcur & Hkey). destruct (Hv _ _ Hcur) as (first & rest & Eo & Ecur).
    assert (model_key (shared cur q) = model_key cur) as Hk'.
    { apply shared_key; [|apply Normalize_observation]. rewrite Ecur. by eapply observed_combined. }
    assert (forall i p, alter (fun c => shared c q) at_ out !! i = Some p ->
      i = at_ /\ p = shared cur q \/ i <> at_ /\ out !! i = Some p) as Halter.
    { intros i p. destruct (decide (i = at_)) as [->|Hne]; [rewrite list_lookup_alter_eq, Hcur; cbn; intros [= <-]; by left|].
      rewrite list_lookup_alter_ne by done. by right. }
    split.
    + intros key i Hix. destruct (Ha _ _ Hix) as (? & p & Hp & Hpk). split; [done|].
      destruct (decide (i = at_)) as [->|Hne].
      * exists (shared cur q). rewrite list_lookup_alter_eq, Hcur. split; [done|]. rewrite Hk'. by simplify_eq.
      * exists p. by rewrite list_lookup_alter_ne.
    + intros i p [[-> ->]|[_ Hp]]%Halter; [by rewrite Hk', Hkey|by apply Hi].
    + intros i p [[-> ->]|[Hne Hp]]%Halter.
      * exists first, (rest ++ [q]). rewrite foldl_snoc, <- Ecur. split; [|done]. rewrite Hk', Hkey, Hown, <- Hkey, Eo. done.
      * destruct (Hv _ _ Hp) as (f & r & E & ->). exists f, r. split; [|done]. rewrite Hother; [done|].
        intros Hkq. apply Hne. pose proof (Hi _ _ Hp) as H. rewrite Hkq, Ex in H. by injection H.
    + intros key Hk Hix. rewrite Hother; [auto|]. intros ->. by rewrite Ex in Hix.
  - assert (forall i p, (out ++ [q]) !! i = Some p -> out !! i = Some p \/ i = length out /\ p = q) as Hlast.
    { intros i p. rewrite lookup_app_Some, list_lookup_singleton_Some. intros [?|(? & ? & ->)]; [by left|right]. split; [lia|done]. }
    split.
    + intros key i [[<- <-]|[_ Hix]]%lookup_insert_Some.
      * split; [done|]. exists q. by rewrite lookup_app_r, Nat.sub_diag by lia.
      * destruct (Ha _ _ Hix) as (? & p & Hp & ?). split; [done|]. exists p. split; [|done].
        apply lookup_app_Some. by left.
    + intros i p [Hp|[-> ->]]%Hlast; [|apply lookup_insert_eq]. rewrite lookup_insert_ne; [by apply Hi|].
      intros E. pose proof (Hi _ _ Hp) as H. by rewrite <- E, Ex in H.
    + intros i p [Hp|[-> ->]]%Hlast.
      * rewrite Hother; [by eapply Hv|]. intros E. pose proof (Hi _ _ Hp) as H. by rewrite E, Ex in H.
      * exists q, []. by rewrite Hown, (Hn _ Ee Ex).
    + intros key Hk [Hix Hne]%lookup_insert_None. rewrite Hother; [auto|done].
Qed.

Lemma Aggregate_ok catalogs : exists index, aggregated (mjoin catalogs) index (Aggregate catalogs).
Proof.
  unfold Aggregate. generalize (mjoin catalogs). clear catalogs. intros l.
  exists (foldl aggregate_one (∅, []) l).1. induction l as [|raw l IH] using rev_ind.
  - split; [done..|]. by intros i p.
  - rewrite foldl_snoc. destruct (foldl aggregate_one _ l) as [index out]. cbn [fst snd] in IH.
    pose proof (aggregate_one_ok l raw index out IH) as H. by destruct (aggregate_one _ _).
Qed.

(** The least of the known budgets. *)
Definition least_known (n : Z) (budgets : list Z) : Prop :=
  (forall b, b ∈ budgets -> (0 < b)%Z -> (0 < n <= b)%Z) /\ (n = 0%Z \/ n ∈ budgets).

Lemma tighter_least n b budgets : (0 <= n)%Z -> least_known n budgets -> least_known (tighter n b) (budgets ++ [b]).
Proof.
  intros H0 [Hl Hi]. unfold tighter. destruct (_ && _) eqn:E.
  - split; [|right; rewrite elem_of_app, list_elem_of_singleton; auto].
    apply andb_true_iff in E as [Hb%Z.ltb_lt E]. intros b' [Hb'| ->%list_elem_of_singleton]%elem_of_app Hp; [|lia].
    apply orb_true_iff in E as [->%Z.eqb_eq|E%Z.ltb_lt]; [|pose proof (Hl _ Hb' Hp); lia].
    pose proof (Hl _ Hb' Hp). lia.
  - split; [|destruct Hi; [by left|right; rewrite elem_of_app; auto]].
    intros b' [Hb'| ->%list_elem_of_singleton]%elem_of_app Hp; [by apply Hl|].
    apply andb_false_iff in E as [E%Z.ltb_ge|E]; [lia|]. apply orb_false_iff in E as [?%Z.eqb_neq ?%Z.ltb_ge]. lia.
Qed.

(** What a list of observations has in common. *)
Record common (obs : list Profile) (p : Profile) : Prop := {
  co_efforts : forall e, e ∈ ReasoningEfforts p <-> forall q, q ∈ obs -> e ∈ ReasoningEfforts q;
  co_default : DefaultReasoningEffort p <> EmptyString -> forall q, q ∈ obs -> DefaultReasoningEffort q = DefaultReasoningEffort p;
  co_search : SupportsBackendSearch p = forallb SupportsBackendSearch obs;
  co_window : least_known (ContextWindow p) (ContextWindow <$> obs);
  co_output : least_known (MaxCompletionTokens p) (MaxCompletionTokens <$> obs);
}.

Lemma least_self n : (0 <= n)%Z -> least_known n [n].
Proof. intros H. split; [|right; by apply list_elem_of_singleton]. intros b ->%list_elem_of_singleton. lia. Qed.

Lemma combined_common first rest : observation first -> Forall observation rest -> common (first :: rest) (foldl shared first rest).
Proof.
  intros Hf. induction rest as [|q rest IH] using rev_ind; intros Hr.
  - split; cbn; [intros e; split; [by intros ? ? ->%list_elem_of_singleton|intros H; apply H; by apply list_elem_of_singleton]|
      by intros _ q ->%list_elem_of_singleton|by rewrite andb_true_r|apply least_self, Hf|apply least_self, Hf].
  - apply Forall_app in Hr as [Hr Hq]. apply Forall_cons_1 in Hq as [Hq _].
    destruct (IH Hr) as [Ce Cd Cs Cw Co]. clear IH. rewrite foldl_snoc.
    pose proof (combined_observation _ _ Hf Hr) as Hc. set (c := foldl shared first rest) in *.
    destruct (shared_fields c q Hc Hq) as (He & Hd & Hw & Ho & Hs & _). rewrite app_comm_cons.
    assert (forall x, x ∈ (first :: rest) ++ [q] <-> x ∈ first :: rest \/ x = q) as Hin
      by (intros x; by rewrite elem_of_app, list_elem_of_singleton).
    split.
    + intros e. rewrite He, list_elem_of_filter, Ce. split.
      * intros [Hq' Hall] x [?| ->]%Hin; auto.
      * intros Hall. split; [apply Hall, Hin; auto|]. intros x Hx. apply Hall, Hin. auto.
    + intros Hne x Hx. destruct (Hd Hne) as [E1 E2]. rewrite E1 in Hne |- *.
      apply Hin in Hx as [Hx| ->]; [by apply Cd|done].
    + by rewrite Hs, Cs, forallb_app; cbn; rewrite andb_true_r.
    + rewrite Hw, fmap_app. apply tighter_least; [apply Hc|done].
    + rewrite Ho, fmap_app. apply tighter_least; [apply Hc|done].
Qed.

(** * Theorems *)

(** What is published of a model that several accounts observed is what all of
    them can serve: it has one profile, its efforts are exactly those every
    observation offers, its default is everybody's, its windows are the smallest
    known ones, and search is offered when every account offers it; a model some
    account observed is not lost. *)
Theorem aggregate_conservative catalogs :
  NoDup (model_key <$> Aggregate catalogs) /\
  (forall p, p ∈ Aggregate catalogs -> observed (model_key p) (mjoin catalogs) <> [] /\ common (observed (model_key p) (mjoin catalogs)) p) /\
  (forall q, q ∈ mjoin catalogs -> model_key (Normalize q) <> EmptyString ->
     exists p, p ∈ Aggregate catalogs /\ model_key p = model_key (Normalize q)).
Proof.
  destruct (Aggregate_ok catalogs) as [index [Ha Hi Hv Hn]]. split_and!.
  - apply NoDup_alt. intros i j key. rewrite !list_lookup_fmap.
    intros (p & Hp & ->)%fmap_Some (q & Hq & E)%fmap_Some. apply Hi in Hp, Hq. rewrite E in Hp. rewrite Hp in Hq. by injection Hq.
  - intros p (i & Hp)%list_elem_of_lookup. destruct (Hv _ _ Hp) as (first & rest & E & ->). rewrite E in *. split; [done|].
    apply combined_common; [|apply Forall_forall; intros x Hx]; eapply (observed_normal _ (mjoin catalogs)); rewrite E, elem_of_cons; auto.
  - intros q Hq Hk. destruct (index !! model_key (Normalize q)) as [i|] eqn:Ex.
    + destruct (Ha _ _ Ex) as (_ & p & Hp & ?). exists p. split; [by eapply list_elem_of_lookup_2|done].
    + specialize (Hn _ Hk Ex). exfalso. eapply not_elem_of_nil. rewrite <- Hn. unfold observed.
      apply list_elem_of_filter. split; [done|]. by apply list_elem_of_fmap_2.
Qed.

(** /v1/models shows every visible row the key may use once, under its public
    name, and nothing but such rows and the aliases of the Grok ones: no two items
    have the same name up to case. *)
Theorem public_list_exact allowed filterChannel windows profiles rows :
  let items := public_models allowed filterChannel windows profiles rows in
  NoDup (publicModelIDKey <$> (p_ID <$> items)) /\
  (forall item, item ∈ items -> exists m, m ∈ rows /\ listable allowed filterChannel m = true /\ shows windows profiles m item) /\
  (forall m, m ∈ rows -> listable allowed filterChannel m = true ->
     exists item, item ∈ items /\ publicModelIDKey (p_ID item) = publicModelIDKey (public_id m)).
Proof.
  cbn zeta. unfold public_models.
  destruct (published allowed filterChannel windows profiles (SliceStable listed_before rows) (mkListing [] ∅)) as ([Hs Ho] & _ & Hi & Hn).
  { split; [|constructor]. intros key. unfold keys_of. cbn. by rewrite elem_of_nil. }
  split_and!.
  - rewrite <- list_fmap_compose. exact Ho.
  - intros item [?%not_elem_of_nil|(m & Hm & ? & ?)]%Hi; [done|]. exists m. split; [|done]. by rewrite SliceStable_Permutation in Hm.
  - intros m Hm Hl. rewrite <- (SliceStable_Permutation listed_before) in Hm. specialize (Hn m Hm Hl).
    apply Hs in Hn. unfold keys_of in Hn. apply list_elem_of_fmap in Hn as (item & ? & ?). by exists item.
Qed.


(** ** Sample stores *)
Definition store_of (models : list Model) : Db := foldl (fun db m => (CreateModel elements 5 m db).2) empty_db models.
Definition row (channel modelID : string) : Model := sample_model channel modelID false.
Definition offline (m : Model) : Model := m <| Status := ModelStatusOffline |>.
Definition lookups_of (models : list Model) : option Lookups := Some (redis_lookups elements (store_of models)).
Definition list_for (allowed : option (list string)) (path : string) (models : list Model) : list PublicModelResponse :=
  public_models allowed (channelFromPath path) (mkWindows ∅ ∅) ∅ (ListModels elements (store_of models)).
Definition ascii_upper (r : Z) : Z := if ((97 <=? r) && (r <=? 122))%Z then (r - 32)%Z else r.
Definition slugs (allowed : option (list string)) (models : list Model) : list string :=
  Slug <$> newCodexModelCatalog ascii_upper (list_for allowed "/v1/models" models).
Definition asks (model effort : string) : ClaudeRequest :=
  mkClaudeRequest None None None None None None model [] [] [] JNull None true "" "" [] effort None None [] [] [] "" [] [].
Definition served (models : list Model) (forced model effort : string) : result string string :=
  match resolve_request (lookups_of models) (asks model effort) forced with
  | (name, Ok _) => Ok name
  | (_, Err e) => Err e
  end.

Lemma store_of_sound models : sound (store_of models).
Proof.
  unfold store_of. induction models as [|m models IH] using rev_ind; [apply empty_sound|]. rewrite foldl_snoc.
  exact (proj1 (CreateModel_keeps elements (fun X => reflexivity _) 5 m _ IH)).
Qed.

Definition sol_family : list Model := [row "qoder" "gpt-5-6-sol-low"; row "qoder" "gpt-5-6-sol-high"; row "qoder" "glm-5"].

Definition listed_and_enabled (models : list Model) (item : PublicModelResponse) : bool :=
  String.eqb (normalizeRequestedModelID (p_ID item)) (p_ID item) && row_enabled (lookupModelRow (lookups_of models) "" (p_ID item)).

Lemma sol_items : forallb (listed_and_enabled sol_family) (list_for None "/v1/models" sol_family) = true
  /\ existsb (String.eqb "gpt-5-6-sol-high") (p_ID <$> list_for None "/v1/models" sol_family) = true.
Proof. split; vm_compute; reflexivity. Qed.


(** A family whose own name ends in an effort word is advertised and refused. *)
Example family_of_max :
  let models := [row "qoder" "gpt-5.1-codex-max-low"; row "qoder" "gpt-5.1-codex-max-high"] in
  (slugs None models, served models "" "gpt-5.1-codex-max" "high") = (["gpt-5.1-codex-max"], Err "model not found").
Proof. vm_compute. reflexivity. Qed.

(** A bare model listed behind its variants: one slug twice, the variants lost. *)
Example bare_and_variants :
  slugs None [row "qoder" "foo-high"; row "qoder" "foo-low"; sample_model "qoder" "foo" false <| SortOrder := 9%Z |>] = ["foo"; "foo"].
Proof. vm_compute. reflexivity. Qed.

(** A name with a capital letter is listed in lower case and looked up in lower case,
    among rows compared as they are spelled. *)
Example capital_letter :
  let models := [row "workbuddy" "DeepSeek-V4"] in
  (p_ID <$> list_for None "/v1/models" models, served models "" "DeepSeek-V4" "", served models "workbuddy" "deepseek-v4" "")
  = (["deepseek-v4"], Err "model not found", Err "model not found").
Proof. vm_compute. reflexivity. Qed.

(** A model two channels offer, offline on the first: listed, and refused. *)
Example shadowed_by_offline :
  let models := [offline (row "workbuddy" "glm-5"); row "qoder" "glm-5"] in
  ((fun p => (p_ID p, p_OwnedBy p)) <$> list_for None "/v1/models" models, served models "" "glm-5" "", served models "qoder" "glm-5" "")
  = ([("glm-5", "qoder")], Err "model not available", Ok "glm-5").
Proof. vm_compute. reflexivity. Qed.

(** A key limited to the variants of a family is offered the family, and refused it. *)
Example restricted_key_family :
  let allowed := Some ["foo-low"; "foo-high"] in
  (slugs allowed [row "qoder" "foo-low"; row "qoder" "foo-high"], APIKeyAllowsModel allowed "foo") = (["foo"], false).
Proof. vm_compute. reflexivity. Qed.

(** The routing of the unified path asks for the family without the effort of the
    request. *)
Example channels_disagree :
  let models := [row "workbuddy" "foo-medium"; row "qoder" "foo-high"] in
  (ChannelForModel (lookups_of models) "" "foo", served models "" "foo" "high") = ("workbuddy", Ok "foo-high").
Proof. vm_compute. reflexivity. Qed.
