(* ===== verification/Requests.v ===== *)
(** * Reading a request before it is sent

    What the gateway works out of the messages of a request
    (src/internal/handler/utils.go, tools.go, tool_compaction.go, caching.go,
    token_breakdown.go, count_tokens.go and src/internal/util/tool_results.go): the
    texts behind the harness tags, the conversation it belongs to, the tool gate, the
    cache markers and the token estimate. Files are a parameter, and so are the two
    Unicode classes the topic titles use. HTTP headers are a function of their name. *)

From Stdlib Require Import Ascii.
From stdpp Require Import base numbers list strings gmap.
From S2P Require Import Prelude GoLib Json Marshal Tokens Tools Channel Models PublicModels Prompt.

Local Open Scope orchids_scope.

(** ** Strings *)
Fixpoint LastIndex (s sub : string) : option nat :=
  match s with
  | EmptyString => if empty sub then Some O else None
  | String _ s' => match LastIndex s' sub with
                   | Some i => Some (S i)
                   | None => if HasPrefix s sub then Some O else None
                   end
  end.

(** [strings.ReplaceAll] of a non-empty text. *)
Fixpoint replace_fuel (fuel : nat) (old new s : string) : string :=
  match fuel, s with
  | S fuel, String a s' =>
      if HasPrefix s old then new +:+ replace_fuel fuel old new (sdrop (String.length old) s)
      else String a (replace_fuel fuel old new s')
  | _, _ => s
  end.
Definition ReplaceAll (s old new : string) : string := replace_fuel (String.length s) old new s.

Definition contains_any (text : string) (markers : list string) : bool := existsb (Contains text) markers.

(** The runes of a text, as [range] yields them. *)
Fixpoint runes_fuel (fuel : nat) (s : string) : list Z :=
  match fuel, s with
  | S fuel, String _ _ => let '(r, size) := DecodeRune s in r :: runes_fuel fuel (sdrop size s)
  | _, _ => []
  end.
Definition runes (s : string) : list Z := runes_fuel (String.length s) s.
Definition of_runes (l : list Z) : string := String.concat EmptyString (EncodeRune <$> l).

(** [unicode.IsSpace]. *)
Definition rune_space (r : Z) : bool :=
  existsb (Z.eqb r) [9; 10; 11; 12; 13; 32; 133; 160; 5760; 8232; 8233; 8239; 8287; 12288]%Z || ((8192 <=? r) && (r <=? 8202))%Z.

(** [unicode.IsPunct] and the Han script. *)
Class TextClasses := { is_punct : Z -> bool; is_han : Z -> bool }.

(** ** Persisted tool results (util/tool_results.go) *)
Definition slash_parts (path : string) : list string := split_byte "/"%char path.

(** [filepath.Clean] on Unix, as the components of its result and whether it is rooted. *)
Definition clean_step (rooted : bool) (done_ : list string) (part : string) : list string :=
  if empty part || String.eqb part "." then done_
  else if String.eqb part ".." then
    match done_ with
    | [] => if rooted then [] else [".."]
    | last :: rest => if String.eqb last ".." then ".." :: done_ else rest
    end
  else part :: done_.
Record Cleaned := mkCleaned { rooted : bool; components : list string }.
Definition Clean (path : string) : Cleaned :=
  let r := HasPrefix path "/" in mkCleaned r (rev (foldl (clean_step r) [] (slash_parts path))).
Definition path_text (c : Cleaned) : string :=
  if rooted c then "/" +:+ Join (components c) "/"
  else match components c with [] => "." | parts => Join parts "/" end.

(** [filepath.Ext] of a component. *)
Definition Ext (name : string) : string :=
  match LastIndex name "." with Some i => sdrop i name | None => EmptyString end.

Definition both_slashes (path : string) : list string :=
  filter (fun part => part <> EmptyString) (split_byte "/"%char (replace_byte backslash "/"%char path)).

Fixpoint ordered_components (parts markers : list string) : bool :=
  match markers, parts with
  | [], _ => true
  | _ :: _, [] => false
  | m :: ms, part :: rest => if EqualFold part m then ordered_components rest ms else ordered_components rest markers
  end.
Definition pathContainsOrderedComponents (path : string) (markers : list string) : bool :=
  ordered_components (both_slashes path) markers.

Definition isSafePersistedToolResultPath (path : string) : bool :=
  let clean := Clean (TrimSpace path) in
  if negb (rooted clean) || negb (EqualFold (Ext (default EmptyString (last (components clean)))) ".txt") then false
  else if negb (EqualFold (default "/" (last (removelast (components clean)))) "tool-results") then false
  else pathContainsOrderedComponents (path_text clean) [".claude"; "projects"].

Definition persisted_marker : string := "Full output saved to:".
Definition line_breaks : string := String (ascii_of_nat 13) newline.

Definition extractPersistedToolResultPath (text : string) : option string :=
  idx ← Index text persisted_marker;
  let rest := sdrop (idx + String.length persisted_marker) text in
  let line := match IndexAny rest line_breaks with Some nl => stake nl rest | None => rest end in
  let path := TrimSpace line in
  if empty path then None else Some path.

Definition PersistedToolResultMaxBytes : Z := 256 * 1024.
Definition truncation_note : string := newline +:+ "[persisted output truncated after 262144 bytes]".

Section Files.
(** [os.ReadFile]: [None] when it fails. *)
Context (ReadFile : string -> option string).

Definition expandPersistedToolResultText (text : string) : option string :=
  path ← extractPersistedToolResultPath text;
  if negb (isSafePersistedToolResultPath path) then None
  else
    data ← ReadFile path;
    if empty data then None
    else
      let truncated := (PersistedToolResultMaxBytes <? Z.of_nat (String.length data))%Z in
      let expanded := TrimSpace (if truncated then stake (Z.to_nat PersistedToolResultMaxBytes) data else data) in
      if empty expanded then None else Some (if truncated then expanded +:+ truncation_note else expanded).

Definition NormalizePersistedToolResultText (text : string) : string :=
  let text := TrimSpace text in
  if empty text then EmptyString else default text (expandPersistedToolResultText text).

Definition extractToolResultContent (content : json) : string :=
  match content with
  | JStr v => NormalizePersistedToolResultText v
  | JArr items =>
      NormalizePersistedToolResultText
        (Join (filter (fun s => s <> EmptyString)
                 (omap (fun item => match item with JStr s => Some (NormalizePersistedToolResultText s) | _ => None end) items)) newline)
  | _ => EmptyString
  end.
End Files.

(** [StringifyToolResult] of a decoded value. *)
Definition StringifyToolResult (value : json) : string :=
  match value with
  | JNull => EmptyString
  | JStr text => text
  | _ => Marshal value
  end.

(** ** The tags of the client harness *)
Definition start_tag (tag : string) : string := "<" +:+ tag +:+ ">".
Definition end_tag (tag : string) : string := "</" +:+ tag +:+ ">".

Fixpoint strip_fuel (fuel : nat) (nested : bool) (tag text : string) : string :=
  match fuel with
  | O => text
  | S fuel =>
      match Index text (start_tag tag) with
      | None => text
      | Some start =>
          let body := sdrop (start + String.length (start_tag tag)) text in
          match (if nested then LastIndex body (end_tag tag) else Index body (end_tag tag)) with
          | None => text
          | Some end_ => stake start text +:+ strip_fuel fuel nested tag (sdrop (end_ + String.length (end_tag tag)) body)
          end
      end
  end.
Definition stripModeTaggedBlock (text tag : string) (nested : bool) : string := strip_fuel (S (String.length text)) nested tag text.

Definition mode_tags : list string :=
  ["local-command-caveat"; "command-name"; "command-message"; "command-args"; "local-command-stdout"; "local-command-stderr";
   "local-command-exit-code"].
Definition stripSystemRemindersForMode (text : string) : string :=
  foldl (fun text tag => stripModeTaggedBlock text tag false) (stripModeTaggedBlock text "system-reminder" true) mode_tags.

(** ** Who asks (utils.go) *)
Definition passthroughChannelName (name : string) : string :=
  if EqualFold name WorkBuddy then WorkBuddy
  else if EqualFold name Qoder then Qoder
  else if EqualFold name Cline then Cline else EmptyString.

Definition mapModel (requestModel : string) : string :=
  let normalized := key_of requestModel in
  if HasPrefix normalized "claude-" then ReplaceAll (ReplaceAll normalized "4.6" "4-6") "4.5" "4-5" else normalized.

Definition first_some_text (texts : list string) : string := default EmptyString (find (fun t => negb (empty t)) texts).

Definition metadataString (metadata : list (string * json)) (keys : list string) : string :=
  first_some_text ((fun key => match field key metadata with Some (JStr str) => TrimSpace str | _ => EmptyString end) <$> keys).

Section Headers.
(** The headers of the HTTP request and the request id of the middleware. *)
Context (header : string -> string) (request_id : string).

Definition headerValue (keys : list string) : string := first_some_text ((fun key => TrimSpace (header key)) <$> keys).

Definition conversationKeyForRequest (r : ClaudeRequest) : string :=
  first_some_text [ConversationID r; ConversationIDAlt r;
    metadataString (Metadata r) ["conversation_id"; "conversationId"; "session_id"; "sessionId"; "thread_id"; "threadId"; "chat_id"; "chatId"];
    headerValue ["X-Conversation-Id"; "X-Session-Id"; "X-Thread-Id"; "X-Chat-Id"];
    metadataString (Metadata r) ["user_id"; "userId"]].

Definition explicitConversationID (r : ClaudeRequest) : string :=
  first_some_text [TrimSpace (ConversationID r); TrimSpace (ConversationIDAlt r);
    metadataString (Metadata r) ["conversation_id"; "conversationId"]; headerValue ["X-Conversation-Id"]].

Definition workBuddyConversationRequestID : string :=
  first_some_text [TrimSpace (header "X-Conversation-Request-ID"); request_id].
End Headers.

(** ** What the conversation says *)
Definition role_is (role : string) (m : Message) : bool := EqualFold (TrimSpace (Role m)) role.
Definition role_word (m : Message) : string := key_of (Role m).
Definition is_text (b : ContentBlock) : bool := String.eqb (Type_ b) "text".

Definition extractUserText (messages : list Message) : string :=
  first_some_text ((fun m => ExtractText (Content m)) <$> filter (fun m => Role m = "user") (rev messages)).

(** [None]: the message decides nothing, the walk goes on. *)
Fixpoint followup_blocks (blocks : list ContentBlock) (seen : bool) : bool :=
  match blocks with
  | [] => seen
  | b :: rest =>
      if String.eqb (Type_ b) "tool_result" then followup_blocks rest true
      else if is_text b || blank (Type_ b) then followup_blocks rest seen
      else false
  end.
Definition lastUserIsToolResultFollowup (messages : list Message) : bool :=
  match find (fun m => String.eqb (Role m) "user") (rev messages) with
  | Some m => if IsString (Content m) then false else followup_blocks (GetBlocks (Content m)) false
  | None => false
  end.

Definition clientEmptyOutputRecoveryMarker : string :=
  "[Your previous response had no visible output. Please continue and produce a user-visible response.]".
Definition isClientEmptyOutputRecoveryText (text : string) : bool := String.eqb (TrimSpace text) clientEmptyOutputRecoveryMarker.

Definition silent_assistant (m : Message) : bool :=
  role_is "assistant" m && blank (ExtractText (Content m))
  && (IsString (Content m) || forallb (fun b => is_text b && blank (b_Text b)) (GetBlocks (Content m))).

Definition emptyOutputRecoveryPrefix (messages : list Message) : list Message * bool :=
  match rev messages with
  | last :: previous :: (_ :: _ as earlier) =>
      if role_is "user" last && IsString (Content last) && isClientEmptyOutputRecoveryText (Text (Content last))
         && silent_assistant previous
      then (rev earlier, true) else (messages, false)
  | _ => (messages, false)
  end.

Definition failure_markers : list string :=
  ["file does not exist"; "no such file or directory"; "no such file"; "cannot find the file"; "cannot open file"; "permission denied";
   "is a directory"; "current working directory is "; "file has not been read yet"; "read it first before writing to it";
   "old_string not found"; "string to replace not found"; "could not find old_string"].
Definition looksLikeToolResultFailure (text : string) : bool := contains_any (key_of text) failure_markers.

(** The tools of the calls by id, the later call of an id winning. *)
Definition tool_names (messages : list Message) : gmap string string :=
  foldl (fun names m =>
    if negb (role_is "assistant" m) || IsString (Content m) then names
    else foldl (fun names b => if String.eqb (Type_ b) "tool_use" && negb (blank (ID b))
                               then <[ID b := normalizeToolNameKey (Name b)]> names else names) names (GetBlocks (Content m)))
    ∅ messages.

Section Fallback.
Context (ReadFile : string -> option string).

(** The number of successful mutations, [None] when a block is anything else. *)
Fixpoint count_mutations (names : gmap string string) (blocks : list ContentBlock) : option nat :=
  match blocks with
  | [] => Some O
  | b :: rest =>
      if is_text b then if blank (b_Text b) then count_mutations names rest else None
      else if String.eqb (Type_ b) "tool_result" then
        if IsError b || looksLikeToolResultFailure (extractToolResultContent ReadFile (b_Content b)) then None
        else if existsb (String.eqb (HGet names (ToolUseID b))) ["write"; "edit"; "notebookedit"]
             then S <$> count_mutations names rest else None
      else None
  end.

Definition successfulFileMutationToolResultFallback (messages : list Message) : string :=
  let effective := (emptyOutputRecoveryPrefix messages).1 in
  match last effective with
  | None => EmptyString
  | Some m =>
      if negb (role_is "user" m) || IsString (Content m) then EmptyString
      else match count_mutations (tool_names effective) (GetBlocks (Content m)) with
           | None | Some O => EmptyString
           | Some 1 => "File operation completed successfully."
           | Some _ => "Requested file operations completed successfully."
           end
  end.
End Fallback.

Definition containsSuggestionMode (text : string) : bool :=
  Contains (ToLower (stripSystemRemindersForMode text)) "suggestion mode".

Definition lastNonToolResultUserText (messages : list Message) : string :=
  let text_of m :=
    if IsString (Content m) then
      let text := TrimSpace (stripSystemRemindersForMode (Text (Content m))) in
      if containsSuggestionMode text || isClientEmptyOutputRecoveryText text then EmptyString else text
    else
      TrimSpace (Join (filter (fun text => text <> EmptyString /\ containsSuggestionMode text = false)
        ((fun b => TrimSpace (stripSystemRemindersForMode (b_Text b))) <$> filter (fun b => Type_ b = "text") (GetBlocks (Content m))))
        newline) in
  first_some_text (text_of <$> filter (fun m => role_is "user" m = true) (rev messages)).

Definition isSuggestionMode (messages : list Message) : bool :=
  match find (fun m => String.eqb (Role m) "user") (rev messages) with
  | Some m => let text := ExtractText (Content m) in negb (empty text) && containsSuggestionMode text
  | None => false
  end.

Definition lastMessageText (messages : list Message) (role : string) (accept : string -> bool) : string :=
  default EmptyString
    (find (fun text => negb (empty text) && accept text)
      ((fun m => TrimSpace (stripSystemRemindersForMode (ExtractText (Content m)))) <$> filter (fun m => role_is role m = true) (rev messages))).
Definition lastNonSuggestionUserText (messages : list Message) : string :=
  lastMessageText messages "user" (fun text => negb (containsSuggestionMode text)).
Definition lastAssistantText (messages : list Message) : string := lastMessageText messages "assistant" (fun _ => true).

Definition hasExplicitNextStepOffer (text : string) : bool :=
  let lower := key_of text in
  negb (empty lower) &&
  (contains_any lower ["if you want"; "if you'd like"; "if you need"; "i can continue"; "i can also"; "i can help"; "i can restart";
                       "i can check"; "i can review"; "i can commit"; "i can push"]
   || contains_any text ["如果你要"; "如果需要"; "如果你愿意"; "要的话"; "需要的话"; "我可以继续"; "我可以直接"; "我可以帮你"; "我下一步可以"]).

Definition containsNormalizedRequestText (text : string) (markers : list string) : bool :=
  contains_any (key_of (stripSystemRemindersForMode text)) markers.
Definition looksLikeOptimizationRequest (text : string) : bool :=
  containsNormalizedRequestText text
    ["怎么优化"; "如何优化"; "优化建议"; "性能怎么优化"; "重构建议"; "改进建议";
     "帮我优化"; "优化这个项目"; "项目优化"; "优化下这个项目"; "帮我改进这个项目";
     "优化这个方案"; "帮我优化这个方案"; "优化这个设计"; "帮我优化这个设计"; "优化这个实现"; "帮我优化这个实现";
     "how to optimize"; "optimization advice"; "performance optimization"; "refactor suggestions"; "improvement suggestions";
     "optimize this plan"; "optimize this design"; "optimize this implementation"].

Definition gate_optimize : string :=
  "Use the provided tool results to answer the user's project optimization request directly. Tool access is unavailable for this turn, and any request to read, inspect, search, or review more files will be ignored. Stay specific to the current project and available code context. Do NOT call tools, do not describe a plan, and do not say you will first analyze or review the codebase. Give the best concrete project-specific recommendations now.".
Definition gate_followup : string :=
  "Use the provided tool results to answer the user's follow-up directly. Tool access is unavailable for this turn, and any request to read, inspect, search, or review more files will be ignored. Stay specific to the current project and available code context. Do NOT call tools, do not describe a plan, and answer now based only on the provided results.".
Definition gate_plain : string := "Answer directly without calling tools or performing any file operations.".

Definition buildToolGateMessage (messages : list Message) : string :=
  if lastUserIsToolResultFollowup messages then
    if looksLikeOptimizationRequest (lastNonToolResultUserText messages) then gate_optimize else gate_followup
  else gate_plain.

Definition system_texts (r : ClaudeRequest) : list string :=
  (fun item => ToLower (stripSystemRemindersForMode (s_Text item))) <$> filter (fun item => key_of (s_Type item) = "text") (System r).

Definition isTopicClassifierRequest (r : ClaudeRequest) : bool :=
  existsb (fun lower => forallb (Contains lower) ["new conversation topic"; "isnewtopic"; "json object"; "title"]) (system_texts r).

Definition isTitleGenerationRequest (r : ClaudeRequest) : bool :=
  let texts := system_texts r in
  existsb (fun lower => Contains lower "generate a concise, sentence-case title"
                        || (Contains lower "sentence-case title" && Contains lower "coding session")) texts
  && existsb (fun lower => Contains lower (js "return json with a single 'title' field")
                           || (Contains lower "return json" && Contains lower "single" && Contains lower (js "'title'"))) texts.

Definition extractUserTexts (messages : list Message) : list string :=
  filter (fun text => text <> EmptyString)
    ((fun m => TrimSpace (stripSystemRemindersForMode (ExtractText (Content m)))) <$> filter (fun m => role_word m = "user") messages).

Definition isGreetingText (text : string) : bool :=
  existsb (String.eqb (key_of text)) ["hi"; "hello"; "hey"; "你好"; "您好"; "嗨"; "在吗"].

Definition generateTopicTitle (text : string) : string :=
  let trimmed := TrimSpace text in
  if empty trimmed then "New Topic"
  else
    let words := Fields trimmed in
    if (2 <=? length words)%nat then Join (take 3 words) " " else TrimSpace (of_runes (take 10 (runes trimmed))).

Section Topics.
Context `{TextClasses}.

Definition containsHan (text : string) : bool := existsb is_han (runes text).

Definition buildLocalSuggestion (messages : list Message) : string :=
  let lastUser := lastNonSuggestionUserText messages in
  let lastAssistant := lastAssistantText messages in
  if empty lastAssistant || negb (hasExplicitNextStepOffer lastAssistant) then EmptyString
  else if containsHan lastUser || containsHan lastAssistant then "可以" else "go ahead".

Definition normalizeTopicText (text : string) : string :=
  of_runes (List.filter (fun r => negb (rune_space r || is_punct r)) (runes (key_of text))).

Definition classifyTopicRequest (r : ClaudeRequest) : bool * string :=
  match rev (extractUserTexts (Messages r)) with
  | [] => (false, EmptyString)
  | latest :: earlier =>
      let latest := TrimSpace latest in
      let prev := match earlier with p :: _ => TrimSpace p | [] => EmptyString end in
      if empty latest then (false, EmptyString)
      else if empty prev then (true, generateTopicTitle latest)
      else if isGreetingText latest then (false, EmptyString)
      else
        let latestNorm := normalizeTopicText latest in
        let prevNorm := normalizeTopicText prev in
        if empty latestNorm || empty prevNorm then (negb (String.eqb latest prev), generateTopicTitle latest)
        else if String.eqb latestNorm prevNorm || Contains latestNorm prevNorm || Contains prevNorm latestNorm
        then (false, EmptyString) else (true, generateTopicTitle latest)
  end.
End Topics.

(** ** Tools (tools.go, tool_compaction.go) *)
Definition findUserMarker (promptText : string) : option nat :=
  match Index promptText "<user_request>" with Some i => Some i | None => Index promptText "<user_message>" end.

Definition injectToolGate (promptText message : string) : string :=
  let message := TrimSpace message in
  if empty message then promptText
  else
    let body := "<tool_gate>" +:+ newline +:+ message +:+ newline +:+ "</tool_gate>" in
    match findUserMarker promptText with
    | Some idx => stake idx promptText +:+ body +:+ newline +:+ newline +:+ sdrop idx promptText
    | None => if blank promptText then body +:+ newline +:+ newline else promptText +:+ newline +:+ newline +:+ body
    end.

Definition declare (state : gset string * list string) (name : string) : gset string * list string :=
  let '(seen, out) := state in
  let name := TrimSpace name in
  if empty name || bool_decide (ToLower name ∈ seen) then state else ({[ ToLower name ]} ∪ seen, out ++ [name]).

Definition declare_tool (state : gset string * list string) (tool : json) : gset string * list string :=
  let name := (ExtractToolSpecFields tool).1.1 in
  if empty name then state
  else
    let mapped := NormalizeToolNameFallback name in
    let state := declare state name in
    if EqualFold (TrimSpace name) (TrimSpace mapped) then state else declare state mapped.
Definition declaredToolNames (tools : list json) : list string := (foldl declare_tool (∅, []) tools).2.

Definition estimateToolsTokens (tools : list json) : Z :=
  match tools with [] => 0%Z | _ => EstimateTextTokens (Marshal (JArr tools)) end.

Definition toolChoiceDisablesTools (choice : json) : bool :=
  match choice with
  | JStr typed => EqualFold (TrimSpace typed) "none"
  | JObj fs => match field "type" fs with Some (JStr typed) => EqualFold (TrimSpace typed) "none" | _ => false end
  | _ => false
  end.

(** ** Cache markers (caching.go)

    The blocks and the tools are shared with nobody else while the request is read,
    so the writes through pointers are updates of the request. *)
Definition ephemeral : CacheControl := "ephemeral".
Definition ephemeral_json : json := JObj [("type", JStr "ephemeral")].

Record Marking := mkMarking { request : ClaudeRequest; breakpoints : nat }.

Definition add_marker {A} (get : A -> option CacheControl) (set_ : A -> A) (n : nat) (x : A) : nat * A :=
  if (n <? 4)%nat && match get x with None => true | Some _ => false end then (S n, set_ x) else (n, x).

(** Change the element at a position, counting what it adds. *)
Definition mark_at {A} (f : nat -> A -> nat * A) (i n : nat) (l : list A) : nat * list A :=
  match l !! i with Some x => let '(n, x) := f n x in (n, <[i := x]> l) | None => (n, l) end.

Definition mark_item (n : nat) (item : SystemItem) : nat * SystemItem :=
  add_marker s_Cache (fun i => i <| s_Cache := Some ephemeral |>) n item.
Definition mark_tool (n : nat) (tool : json) : nat * json :=
  match tool with
  | JObj fs => match field "cache_control" fs with
               | Some _ => (n, tool)
               | None => if (n <? 4)%nat then (S n, JObj (set_field "cache_control" ephemeral_json fs)) else (n, tool)
               end
  | _ => (n, tool)
  end.
Definition mark_block (n : nat) (b : ContentBlock) : nat * ContentBlock :=
  add_marker Cache (fun b => b <| Cache := Some ephemeral |>) n b.

Definition block_size (b : ContentBlock) : nat :=
  match Source b with
  | Some source => if String.eqb (Type_ b) "image" then String.length (is_Data source) else String.length (b_Text b)
  | None => String.length (b_Text b)
  end.
Definition largest (blocks : list ContentBlock) : nat :=
  (foldl (fun '(maxSize, selected) ib => if (maxSize <=? block_size ib.2)%nat then (block_size ib.2, ib.1) else (maxSize, selected))
     (O, pred (length blocks)) (imap pair blocks)).2.

Definition mark_message (mixed : bool) (n : nat) (m : Message) : nat * Message :=
  match Blocks (Content m) with
  | None | Some [] => (n, m)
  | Some blocks =>
      let selected := if mixed then largest blocks else pred (length blocks) in
      let '(n, blocks) := mark_at mark_block selected n blocks in
      (n, m <| Content := mkContent (Text (Content m)) (Some blocks) |>)
  end.

(** The positions of the last two user turns. *)
Definition user_turns (messages : list Message) : option nat * option nat :=
  foldl (fun '(previous, last) im => if String.eqb (Role im.2) "user" then (last, Some im.1) else (previous, last)) (None, None)
    (imap pair messages).

Definition mark_turn (mixed : bool) (index : option nat) (s : Marking) : Marking :=
  match index with
  | None => s
  | Some i => let '(n, messages) := mark_at (mark_message mixed) i (breakpoints s) (Messages (request s)) in
              mkMarking (request s <| Messages := messages |>) n
  end.
Definition mark_system (s : Marking) : Marking :=
  let '(n, items) := mark_at mark_item (pred (length (System (request s)))) (breakpoints s) (System (request s)) in
  mkMarking (request s <| System := items |>) n.
Definition mark_tools (s : Marking) : Marking :=
  let '(n, tools) := mark_at mark_tool (pred (length (Prompt.Tools (request s)))) (breakpoints s) (Prompt.Tools (request s)) in
  mkMarking (request s <| Prompt.Tools := tools |>) n.

Definition applyCacheStrategy (strategy : string) (r : ClaudeRequest) : ClaudeRequest :=
  let strategy := key_of strategy in
  let strategy := if String.eqb strategy "mix" then "mixed" else strategy in
  if existsb (String.eqb strategy) [""; "none"; "off"] then r
  else
    let '(previous, last) := user_turns (Messages r) in
    request (mark_turn (String.eqb strategy "mixed") last
      (mark_turn false previous (mark_tools (mark_system (mkMarking r 0))))).

(** ** Token estimates (token_breakdown.go, count_tokens.go) *)
Record inputTokenBreakdown := mkBreakdown {
  BasePromptTokens : Z; SystemContextTokens : Z; HistoryTokens : Z; ToolsTokens : Z; Total : Z }.

Definition extractTaggedContent (text tag : string) : string :=
  if empty text || empty tag then EmptyString
  else match Index text (start_tag tag) with
       | None => EmptyString
       | Some start =>
           let rest := sdrop (start + String.length (start_tag tag)) text in
           match Index rest (end_tag tag) with Some end_ => TrimSpace (stake end_ rest) | None => EmptyString end
       end.

Definition estimateInputTokenBreakdown (promptText : string) (tools : list json) : inputTokenBreakdown :=
  let promptTokens := EstimateTextTokens promptText in
  let own := extractTaggedContent promptText "sys" in
  let sysText := if empty own then extractTaggedContent promptText "system_context" else own in
  let sysTokens := Z.min (EstimateTextTokens sysText) promptTokens in
  let base := (promptTokens - sysTokens)%Z in
  let tokens := estimateToolsTokens tools in
  mkBreakdown base sysTokens 0 tokens (base + sysTokens + 0 + tokens)%Z.

(** A block as encoding/json writes it. *)
Definition text_field (k v : string) : list (string * json) := if empty v then [] else [(k, JStr v)].
Definition any_field (k : string) (v : json) : list (string * json) := match v with JNull => [] | _ => [(k, canonical v)] end.
Definition source_json (s : ImageSource) : json :=
  JObj ([("type", JStr (is_Type s)); ("media_type", JStr (is_MediaType s)); ("data", JStr (is_Data s))] ++ text_field "url" (is_URL s)).
Definition block_json (b : ContentBlock) : json :=
  JObj (match ToolIndex b with Some i => [("index", JNum (fmt_d i))] | None => [] end ++ [("type", JStr (Type_ b))]
    ++ text_field "text" (b_Text b) ++ match Source b with Some s => [("source", source_json s)] | None => [] end
    ++ text_field "url" (URL b) ++ text_field "id" (ID b) ++ text_field "name" (Name b) ++ any_field "input" (Input b)
    ++ text_field "thinking" (Thinking b) ++ text_field "signature" (Signature b) ++ text_field "tool_use_id" (ToolUseID b)
    ++ any_field "content" (b_Content b) ++ (if IsError b then [("is_error", JBool true)] else [])
    ++ match Cache b with Some t => [("cache_control", JObj [("type", JStr t)])] | None => [] end).

Definition block_tokens (b : ContentBlock) : Z :=
  if existsb (String.eqb (Type_ b)) ["image"; "image_url"] then 1024%Z
  else if is_text b then EstimateTextTokens (b_Text b)
  else if String.eqb (Type_ b) "thinking" then EstimateTextTokens (Thinking b)
  else EstimateTextTokens (render (block_json b)).
Definition estimateMessageContentTokens (c : MessageContent) : Z :=
  match Blocks c with None => EstimateTextTokens (Text c) | Some blocks => sumZ block_tokens blocks end.
Definition message_tokens (m : Message) : Z :=
  (estimateMessageContentTokens (Content m) + EstimateTextTokens (ReasoningContent m) + 4)%Z.

Definition add_message (total : nat) (bd : inputTokenBreakdown) (im : nat * Message) : inputTokenBreakdown :=
  let tokens := message_tokens im.2 in
  if String.eqb (Role im.2) "system" || String.eqb (Role im.2) "developer"
  then mkBreakdown (BasePromptTokens bd) (SystemContextTokens bd + tokens) (HistoryTokens bd) 0 0
  else if (im.1 =? pred total)%nat
  then mkBreakdown (BasePromptTokens bd + tokens) (SystemContextTokens bd) (HistoryTokens bd) 0 0
  else mkBreakdown (BasePromptTokens bd) (SystemContextTokens bd) (HistoryTokens bd + tokens) 0 0.

Definition estimateRequestTokenBreakdown (r : ClaudeRequest) : inputTokenBreakdown :=
  let system := sumZ (fun item => EstimateTextTokens (s_Text item)) (System r) in
  let bd := foldl (add_message (length (Messages r))) (mkBreakdown 0 system 0 0 0) (imap pair (Messages r)) in
  let tools := estimateToolsTokens (Prompt.Tools r) in
  mkBreakdown (BasePromptTokens bd) (SystemContextTokens bd) (HistoryTokens bd) tools
    (BasePromptTokens bd + SystemContextTokens bd + HistoryTokens bd + tools)%Z.

Inductive CountResponse :=
  | CountMethodNotAllowed
  | CountInvalidBody
  | CountForbidden (message : string)
  | Counted (input_tokens : Z) (prompt_profile : string) (breakdown : inputTokenBreakdown).

(** The body is [None] when it is not the JSON of a request. *)
Definition HandleCountTokens (store : option Lookups) (post : bool) (path hint : string) (allowed : option (list string))
    (body : option ClaudeRequest) : CountResponse :=
  if negb post then CountMethodNotAllowed
  else match body with
       | None => CountInvalidBody
       | Some r =>
           if negb (APIKeyAllowsModel allowed (Prompt.Model r))
           then CountForbidden ("API key is not allowed to use model " +:+ TrimSpace (Prompt.Model r))
           else
             let breakdown := estimateRequestTokenBreakdown r in
             Counted (Total breakdown) (ToLower (ModelChannel store (Some path) hint (Prompt.Model r))) breakdown
       end.

(** * Lemmas

    ** Markers

    The places a request has for a marker, and the request without any. *)
Inductive Place := InSystem (i : nat) | InTool (i : nat) | InBlock (i j : nat).
#[export] Instance Place_eq_dec : EqDecision Place.
Proof. solve_decision. Defined.

Definition block_at (r : ClaudeRequest) (i j : nat) : option ContentBlock :=
  m ← Messages r !! i; blocks ← Blocks (Content m); blocks !! j.
Definition marker (p : Place) (r : ClaudeRequest) : option json :=
  match p with
  | InSystem i => item ← System r !! i; JStr <$> s_Cache item
  | InTool i => match Prompt.Tools r !! i with Some (JObj fs) => field "cache_control" fs | _ => None end
  | InBlock i j => b ← block_at r i j; JStr <$> Cache b
  end.

Definition plain_item (i : SystemItem) : SystemItem := i <| s_Cache := None |>.
Definition plain_tool (j : json) : json := match j with JObj fs => JObj (del_field "cache_control" fs) | _ => j end.
Definition plain_block (b : ContentBlock) : ContentBlock := b <| Cache := None |>.
Definition plain_message (m : Message) : Message :=
  m <| Content := mkContent (Text (Content m)) (option_map (map plain_block) (Blocks (Content m))) |>.
Definition unmarked (r : ClaudeRequest) : ClaudeRequest :=
  r <| System := plain_item <$> System r |> <| Prompt.Tools := plain_tool <$> Prompt.Tools r |>
    <| Messages := plain_message <$> Messages r |>.

(** What a step may do: add markers at the given places, nothing else. *)
Record marks (places : list Place) (r r' : ClaudeRequest) : Prop := {
  mk_same : unmarked r' = unmarked r;
  mk_kept : forall p c, marker p r = Some c -> marker p r' = Some c;
  mk_new : forall p, p ∉ places -> marker p r' = marker p r;
}.

Lemma marks_refl r : marks [] r r.
Proof. by split. Qed.
Lemma marks_trans a b r1 r2 r3 : marks a r1 r2 -> marks b r2 r3 -> marks (a ++ b) r1 r3.
Proof.
  intros [S1 K1 N1] [S2 K2 N2]. split; [by rewrite S2|auto|]. intros p [Ha Hb]%not_elem_of_app. by rewrite N2, N1.
Qed.

Lemma map_insert_same {A B} (g : A -> B) l i x x' : l !! i = Some x -> g x' = g x -> map g (<[i:=x']> l) = map g l.
Proof. intros Hi Hg. change (g <$> <[i:=x']> l = g <$> l). rewrite list_fmap_insert, Hg. apply list_insert_id. by rewrite list_lookup_fmap, Hi. Qed.

Lemma add_marker_spec {A} (get : A -> option CacheControl) set_ n x : let '(n', x') := add_marker get set_ n x in
  (n' <= S n)%nat /\ (x' = x /\ (is_Some (get x) \/ (4 <= n)%nat) \/ get x = None /\ x' = set_ x).
Proof.
  unfold add_marker. destruct (n <? 4)%nat eqn:E; destruct (get x) eqn:G; cbn; (split; [lia|]); eauto.
  left. split; [done|]. right. by apply Nat.ltb_ge.
Qed.

(** A step that may mark one place. *)
Record step_ok (places : list Place) (s s' : Marking) : Prop := {
  so_marks : marks places (request s) (request s');
  so_count : (breakpoints s' <= breakpoints s + length places)%nat;
  so_done : (breakpoints s + length places <= 4)%nat -> forall p, p ∈ places -> is_Some (marker p (request s'));
}.

Lemma step_skip s : step_ok [] s s.
Proof. split; [apply marks_refl|cbn; lia|by intros _ ? ?%not_elem_of_nil]. Qed.

Lemma step_trans a b s1 s2 s3 : step_ok a s1 s2 -> step_ok b s2 s3 -> step_ok (a ++ b) s1 s3.
Proof.
  intros [M1 C1 D1] [M2 C2 D2]. split; [by eapply marks_trans|rewrite length_app; lia|]. rewrite length_app.
  intros Hn p [Hp|Hp]%elem_of_app; [|apply D2; [lia|done]]. destruct (D1 ltac:(lia) p Hp) as [c Hc].
  exists c. by apply (mk_kept _ _ _ M2).
Qed.

Lemma unmarked_parts r r' : plain_item <$> System r' = plain_item <$> System r -> plain_tool <$> Prompt.Tools r' = plain_tool <$> Prompt.Tools r ->
  plain_message <$> Messages r' = plain_message <$> Messages r ->
  r' <| System := [] |> <| Prompt.Tools := [] |> <| Messages := [] |> = r <| System := [] |> <| Prompt.Tools := [] |> <| Messages := [] |> ->
  unmarked r' = unmarked r.
Proof.
  intros Hs Ht Hm Hr. unfold unmarked. rewrite Hs, Ht, Hm.
  change ((r' <| System := [] |> <| Prompt.Tools := [] |> <| Messages := [] |>)
    <| System := plain_item <$> System r |> <| Prompt.Tools := plain_tool <$> Prompt.Tools r |> <| Messages := plain_message <$> Messages r |> =
    (r <| System := [] |> <| Prompt.Tools := [] |> <| Messages := [] |>)
    <| System := plain_item <$> System r |> <| Prompt.Tools := plain_tool <$> Prompt.Tools r |> <| Messages := plain_message <$> Messages r |>).
  by rewrite Hr.
Qed.

Definition system_targets (r : ClaudeRequest) : list Place :=
  match System r with [] => [] | _ => [InSystem (pred (length (System r)))] end.

Lemma mark_system_ok s : step_ok (system_targets (request s)) s (mark_system s).
Proof.
  unfold mark_system, system_targets, mark_at. destruct s as [r n]. cbn [request breakpoints].
  destruct (System r !! pred (length (System r))) as [x|] eqn:Hx.
  2:{ destruct (System r) as [|y l] eqn:Hs; [|apply lookup_ge_None in Hx; cbn in Hx; lia]. cbn.
      replace (r <| System := [] |>) with r by (destruct r; cbn in *; by subst). apply step_skip. }
  assert (match System r with [] => [] | _ => [InSystem (pred (length (System r)))] end = [InSystem (pred (length (System r)))]) as ->
    by (destruct (System r); done).
  set (i := pred (length (System r))) in *. unfold mark_item.
  pose proof (add_marker_spec s_Cache (fun i => i <| s_Cache := Some ephemeral |>) n x) as H.
  destruct (add_marker _ _ n x) as [n' x'] eqn:E. destruct H as [Hn Hx'].
  assert (forall j, marker (InSystem j) (r <| System := <[i:=x']> (System r) |>) = if decide (j = i) then JStr <$> s_Cache x' else marker (InSystem j) r) as Hm.
  { intros j. unfold marker. cbn. destruct (decide (j = i)) as [->|Hj].
    - rewrite list_lookup_insert_eq; [done|]. by eapply lookup_lt_Some.
    - by rewrite list_lookup_insert_ne. }
  split; cbn [request breakpoints length]; [split|lia|].
  - apply unmarked_parts; [|done..]. apply map_insert_same with x; [done|]. destruct Hx' as [[-> _]|[_ ->]]; done.
  - intros [j|j|j k] c Hc; [|done..]. rewrite Hm. case_decide; [subst j|done]. unfold marker in Hc. rewrite Hx in Hc. cbn in Hc.
    destruct Hx' as [[-> _]|[Hg ->]]; [done|]. by rewrite Hg in Hc.
  - intros [j|j|j k] Hj; [|done..]. rewrite Hm. case_decide; [|done]. subst j. exfalso. apply Hj. apply list_elem_of_singleton. done.
  - intros Hn4 p ->%list_elem_of_singleton. rewrite Hm, decide_True by done. destruct Hx' as [[-> [[c Hc]|?]]|[_ ->]]; [|lia|by eexists].
    exists (JStr c). by rewrite Hc.
Qed.

Definition tool_targets (r : ClaudeRequest) : list Place :=
  match last (Prompt.Tools r) with Some (JObj _) => [InTool (pred (length (Prompt.Tools r)))] | _ => [] end.

Lemma field_del k fs : del_field k (set_field k ephemeral_json fs) = del_field k fs.
Proof.
  unfold set_field, del_field. rewrite List.filter_app. cbn. rewrite String.eqb_refl. cbn. rewrite app_nil_r.
  induction fs as [|[k' v] fs IH]; cbn; [done|]. destruct (negb (String.eqb k k')) eqn:E; cbn; [|done]. by rewrite E, IH.
Qed.

Lemma field_set k v fs : field k (set_field k v fs) = Some v.
Proof.
  unfold field, set_field, del_field. induction fs as [|[k' w] fs IH]; cbn; [by rewrite String.eqb_refl|].
  destruct (String.eqb k k') eqn:E; cbn; [done|]. by rewrite E.
Qed.

Lemma mark_tool_spec n tool : let '(n', tool') := mark_tool n tool in
  (n' <= S n)%nat /\ plain_tool tool' = plain_tool tool /\
  match tool with
  | JObj fs => exists fs', tool' = JObj fs' /\
      (tool' = tool /\ (is_Some (field "cache_control" fs) \/ (4 <= n)%nat)
       \/ field "cache_control" fs = None /\ field "cache_control" fs' = Some ephemeral_json)
  | _ => tool' = tool
  end.
Proof.
  unfold mark_tool. destruct tool as [| | | | |fs]; try (split_and!; [lia|done|done]).
  destruct (field "cache_control" fs) as [c|] eqn:Ef.
  - split_and!; [lia|done|]. exists fs. split; [done|]. left. split; [done|]. left. by exists c.
  - destruct (n <? 4)%nat eqn:En.
    + split_and!; [lia|cbn; by rewrite field_del|]. eexists. split; [done|]. right. split; [done|apply field_set].
    + split_and!; [lia|done|]. exists fs. split; [done|]. left. split; [done|]. right. by apply Nat.ltb_ge.
Qed.

Lemma last_at {A} (l : list A) : last l = l !! pred (length l).
Proof. apply last_lookup. Qed.

Lemma mark_tools_ok s : step_ok (tool_targets (request s)) s (mark_tools s).
Proof.
  unfold mark_tools, tool_targets, mark_at. destruct s as [r n]. cbn [request breakpoints]. rewrite last_at.
  set (i := pred (length (Prompt.Tools r))).
  destruct (Prompt.Tools r !! i) as [x|] eqn:Hx.
  2:{ replace (r <| Prompt.Tools := Prompt.Tools r |>) with r by (by destruct r). apply step_skip. }
  pose proof (mark_tool_spec n x) as H. destruct (mark_tool n x) as [n' x'] eqn:E. destruct H as (Hn & Hp & H).
  assert (forall fs : Prop, True) as _ by done.
  assert ((forall fs, x <> JObj fs) -> mkMarking (r <| Prompt.Tools := <[i:=x']> (Prompt.Tools r) |>) n' = mkMarking r n) as Hskip.
  { intros Hno. destruct x; try (exfalso; eapply Hno; reflexivity); unfold mark_tool in E; injection E as <- <-;
      rewrite list_insert_id by done; by destruct r. }
  destruct x as [| | | | |fs]; try (rewrite Hskip by done; apply step_skip). clear Hskip.
  destruct H as (fs' & Hx' & H).
  assert (forall j, marker (InTool j) (r <| Prompt.Tools := <[i:=x']> (Prompt.Tools r) |>)
    = if decide (j = i) then field "cache_control" fs' else marker (InTool j) r) as Hm.
  { intros j. unfold marker. cbn. destruct (decide (j = i)) as [->|Hj].
    - rewrite list_lookup_insert_eq, Hx'; [done|]. by eapply lookup_lt_Some.
    - by rewrite list_lookup_insert_ne. }
  split; cbn [request breakpoints length]; [split|lia|].
  - apply unmarked_parts; [done| |done..]. apply map_insert_same with (JObj fs); done.
  - intros [j|j|j k] c Hc; [done| |done]. rewrite Hm. case_decide; [subst j|done]. unfold marker in Hc. rewrite Hx in Hc.
    destruct H as [[E' _]|[Hg _]]; [|by rewrite Hg in Hc]. rewrite Hx' in E'. by injection E' as ->.
  - intros [j|j|j k] Hj; [done| |done]. rewrite Hm. case_decide; [|done]. subst j. exfalso. apply Hj. by apply list_elem_of_singleton.
  - intros Hn4 p ->%list_elem_of_singleton. rewrite Hm, decide_True by done.
    destruct H as [[E' [[c Hc]|?]]|[_ ->]]; [|lia|by eexists]. rewrite Hx' in E'. injection E' as ->. by exists c.
Qed.

(** ** The turns *)
Definition turn_targets (mixed : bool) (index : option nat) (r : ClaudeRequest) : list Place :=
  match index with
  | Some i => match m ← Messages r !! i; Blocks (Content m) with
              | None | Some [] => []
              | Some blocks => [InBlock i (if mixed then largest blocks else pred (length blocks))]
              end
  | None => []
  end.

Lemma largest_in blocks : blocks <> [] -> (largest blocks < length blocks)%nat.
Proof.
  intros Hne. unfold largest.
  assert (forall l state, (forall ib, ib ∈ l -> (ib.1 < length blocks)%nat) -> (state.2 < length blocks)%nat ->
    ((foldl (fun '(maxSize, selected) ib => if (maxSize <=? block_size ib.2)%nat then (block_size ib.2, ib.1) else (maxSize, selected))
       state l).2 < length blocks)%nat) as H.
  { induction l as [|ib l IH]; intros [mx sel] Hl Hs; [done|]. cbn [foldl]. apply IH; [intros; apply Hl; by apply elem_of_cons; right|].
    destruct (mx <=? _)%nat; [|done]. apply Hl. by apply elem_of_cons; left. }
  apply H; [|destruct blocks; [done|cbn; lia]].
  intros [k b] (j & y & Hj & Hb)%elem_of_lookup_imap. injection Hj as -> ->. by eapply lookup_lt_Some.
Qed.

Lemma block_at_insert r i m blocks j b k l : Messages r !! i = Some m -> Blocks (Content m) = Some blocks ->
  blocks !! j <> None ->
  block_at (r <| Messages := <[i := m <| Content := mkContent (Text (Content m)) (Some (<[j:=b]> blocks)) |>]> (Messages r) |>) k l
  = if decide (k = i /\ l = j) then Some b else block_at r k l.
Proof.
  intros Hi Hb Hj. unfold block_at. cbn. destruct (decide (k = i)) as [->|Hk].
  - rewrite list_lookup_insert_eq by (by eapply lookup_lt_Some). cbn. rewrite Hi. cbn. rewrite Hb. cbn.
    destruct (decide (l = j)) as [->|Hl].
    + rewrite list_lookup_insert_eq by (apply lookup_lt_is_Some; destruct (blocks !! j); [by eexists|done]). by rewrite decide_True.
    + rewrite list_lookup_insert_ne by done. by rewrite decide_False by naive_solver.
  - rewrite list_lookup_insert_ne by done. by rewrite decide_False by naive_solver.
Qed.

Lemma mark_turn_ok mixed index s : step_ok (turn_targets mixed index (request s)) s (mark_turn mixed index s).
Proof.
  destruct index as [i|]; [|apply step_skip]. destruct s as [r n]. unfold mark_turn, turn_targets, mark_at.
  cbn [request breakpoints]. destruct (Messages r !! i) as [m|] eqn:Hi; cbn.
  2:{ replace (r <| Messages := Messages r |>) with r by (by destruct r). apply step_skip. }
  assert (mkMarking (r <| Messages := <[i:=m]> (Messages r) |>) n = mkMarking r n) as Hskip
    by (rewrite list_insert_id by done; by destruct r).
  unfold mark_message. destruct (Blocks (Content m)) as [[|b0 bs]|] eqn:Hb; [rewrite Hskip; apply step_skip| |rewrite Hskip; apply step_skip].
  set (blocks := b0 :: bs) in *. set (j := if mixed then largest blocks else pred (length blocks)).
  assert (j < length blocks)%nat as Hj by (subst j; destruct mixed; [by apply largest_in|cbn; lia]).
  unfold mark_at. destruct (lookup_lt_is_Some_2 blocks j Hj) as [b Hbj]. rewrite Hbj.
  pose proof (add_marker_spec Cache (fun b => b <| Cache := Some ephemeral |>) n b) as H. unfold mark_block.
  destruct (add_marker _ _ n b) as [n' b'] eqn:E. destruct H as [Hn H].
  assert (forall k l, block_at (r <| Messages := <[i := m <| Content := mkContent (Text (Content m)) (Some (<[j:=b']> blocks)) |>]> (Messages r) |>) k l
    = if decide (k = i /\ l = j) then Some b' else block_at r k l) as Hm
    by (intros k l; apply block_at_insert; [done|done|by rewrite Hbj]).
  assert (block_at r i j = Some b) as Hown by (unfold block_at; rewrite Hi; cbn; by rewrite Hb).
  split; cbn [request breakpoints length]; [split|lia|].
  - apply unmarked_parts; [done|done| |done]. apply map_insert_same with m; [done|]. unfold plain_message. cbn. rewrite Hb. cbn [option_map].
    rewrite (map_insert_same plain_block blocks j b b' Hbj) by (destruct H as [[-> _]|[_ ->]]; done). done.
  - intros [k|k|k l] c Hc; [done|done|]. unfold marker in *. rewrite Hm. case_decide as Hd; [destruct Hd as [-> ->]|done].
    rewrite Hown in Hc. cbn in *. destruct H as [[-> _]|[Hg _]]; [done|]. by rewrite Hg in Hc.
  - intros [k|k|k l] Hkl; [done|done|]. unfold marker. rewrite Hm. case_decide as Hd; [destruct Hd as [-> ->]|done].
    exfalso. apply Hkl. by apply list_elem_of_singleton.
  - intros Hn4 p ->%list_elem_of_singleton. unfold marker. rewrite Hm, decide_True by done. cbn.
    destruct H as [[-> [[c Hc]|?]]|[_ ->]]; [|lia|by eexists]. rewrite Hc. by eexists.
Qed.

Lemma user_turns_snoc l m : user_turns (l ++ [m]) =
  let '(previous, last) := user_turns l in if String.eqb (Role m) "user" then (last, Some (length l)) else (previous, last).
Proof. unfold user_turns. rewrite imap_app, foldl_app. cbn. rewrite Nat.add_0_r. by destruct (foldl _ _ _). Qed.

Lemma user_turns_order l : let '(previous, last) := user_turns l in
  (forall i, last = Some i -> (i < length l)%nat) /\
  (forall i, previous = Some i -> exists j, last = Some j /\ (i < j)%nat).
Proof.
  induction l as [|m l IH] using rev_ind; [by split|]. rewrite user_turns_snoc, length_app. cbn [length].
  destruct (user_turns l) as [previous last]. destruct IH as [Hl Hp]. destruct (String.eqb _ _); split.
  - intros i [= <-]. lia.
  - intros i ->. exists (length l). split; [done|by apply Hl].
  - intros i H. specialize (Hl i H). lia.
  - exact Hp.
Qed.

(** A step that marks one turn leaves the others. *)
Lemma mark_turn_other mixed index s i : index <> Some i -> Messages (request (mark_turn mixed index s)) !! i = Messages (request s) !! i.
Proof.
  intros Hi. destruct index as [k|]; [|done]. unfold mark_turn, mark_at. destruct (Messages (request s) !! k) as [m|] eqn:Hm; [|done].
  destruct (mark_message _ _ _). cbn. apply list_lookup_insert_ne. congruence.
Qed.

Lemma mark_system_others s : Prompt.Tools (request (mark_system s)) = Prompt.Tools (request s)
  /\ Messages (request (mark_system s)) = Messages (request s).
Proof. unfold mark_system. by destruct (mark_at _ _ _ _). Qed.
Lemma mark_tools_others s : Messages (request (mark_tools s)) = Messages (request s).
Proof. unfold mark_tools. by destruct (mark_at _ _ _ _). Qed.

Lemma turn_targets_ext mixed index r r' : (forall i, index = Some i -> Messages r' !! i = Messages r !! i) ->
  turn_targets mixed index r' = turn_targets mixed index r.
Proof. intros H. unfold turn_targets. destruct index as [i|]; [|done]. by rewrite (H i eq_refl). Qed.

(** The places a strategy marks: the end of the system prompt, the last tool, and a
    block of each of the last two user turns. *)
Definition strategy_word (strategy : string) : string :=
  let word := key_of strategy in if String.eqb word "mix" then "mixed" else word.
Definition cache_targets (strategy : string) (r : ClaudeRequest) : list Place :=
  let word := strategy_word strategy in
  if existsb (String.eqb word) [""; "none"; "off"] then []
  else
    let '(previous, last) := user_turns (Messages r) in
    system_targets r ++ tool_targets r ++ turn_targets false previous r ++ turn_targets (String.eqb word "mixed") last r.

Lemma targets_short r : (length (system_targets r) <= 1 /\ length (tool_targets r) <= 1)%nat.
Proof. unfold system_targets, tool_targets. split; repeat case_match; cbn; lia. Qed.
Lemma turn_short mixed index r : (length (turn_targets mixed index r) <= 1)%nat.
Proof. unfold turn_targets. repeat case_match; cbn; lia. Qed.

(** ** Paths *)
Lemma ordered_sub parts markers : ordered_components parts markers = true ->
  exists picked, picked `sublist_of` parts /\ Forall2 (fun part m => EqualFold part m = true) picked markers.
Proof.
  revert markers. induction parts as [|p parts IH]; intros [|m ms]; cbn; intros H; try done.
  - exists []. split; [apply sublist_nil_l|constructor].
  - exists []. split; [apply sublist_nil_l|constructor].
  - destruct (EqualFold p m) eqn:E.
    + destruct (IH _ H) as (picked & Hs & Hf). exists (p :: picked). split; [by constructor|by constructor].
    + destruct (IH _ H) as (picked & Hs & Hf). exists picked. split; [by constructor|done].
Qed.

Lemma clean_step_plain r l part : r = true -> Forall (fun c => c <> ".." /\ c <> "." /\ c <> EmptyString) l ->
  Forall (fun c => c <> ".." /\ c <> "." /\ c <> EmptyString) (clean_step r l part).
Proof.
  intros -> H. unfold clean_step. destruct (empty part) eqn:E1; [done|]. destruct (String.eqb part ".") eqn:E2; [done|].
  destruct (String.eqb part "..") eqn:E3.
  - destruct l as [|c l]; [done|]. apply Forall_cons_1 in H as [(H & _ & _) Hl]. apply String.eqb_neq in H. by rewrite H.
  - apply String.eqb_neq in E1, E2, E3. by constructor.
Qed.

Lemma Clean_plain path : rooted (Clean path) = true ->
  Forall (fun c => c <> ".." /\ c <> "." /\ c <> EmptyString) (components (Clean path)).
Proof.
  unfold Clean. cbn. intros Hr. apply Forall_rev. generalize (slash_parts path). intros parts.
  assert (forall l, Forall (fun c => c <> ".." /\ c <> "." /\ c <> EmptyString) l ->
    Forall (fun c => c <> ".." /\ c <> "." /\ c <> EmptyString) (foldl (clean_step (HasPrefix path "/")) l parts)) as H
    by (induction parts as [|p parts IH]; intros l Hl; [done|]; cbn [foldl]; by apply IH, clean_step_plain).
  apply H. constructor.
Qed.

(** What a strategy does, all markers considered. *)
Lemma cache_spec strategy r :
  let r' := applyCacheStrategy strategy r in
  let places := cache_targets strategy r in
  (length places <= 4)%nat /\ unmarked r' = unmarked r /\
  (forall p c, marker p r = Some c -> marker p r' = Some c) /\
  (forall p, p ∉ places -> marker p r' = marker p r) /\
  (forall p, p ∈ places -> is_Some (marker p r')).
Proof.
  cbn zeta. unfold applyCacheStrategy, cache_targets, strategy_word.
  set (word := if String.eqb (key_of strategy) "mix" then "mixed" else key_of strategy).
  destruct (existsb (String.eqb word) _); [split_and!; [cbn; lia|done..|by intros p ?%not_elem_of_nil]|].
  pose proof (user_turns_order (Messages r)) as Hord. destruct (user_turns (Messages r)) as [previous last_].
  destruct Hord as [_ Hord]. set (mixed := String.eqb word "mixed"). set (s0 := mkMarking r 0).
  pose proof (mark_system_ok s0) as H1. pose proof (mark_tools_ok (mark_system s0)) as H2.
  pose proof (mark_turn_ok false previous (mark_tools (mark_system s0))) as H3.
  pose proof (mark_turn_ok mixed last_ (mark_turn false previous (mark_tools (mark_system s0)))) as H4.
  destruct (mark_system_others s0) as [Ht Hm]. pose proof (mark_tools_others (mark_system s0)) as Hm'.
  assert (tool_targets (request (mark_system s0)) = tool_targets r) as E2 by (unfold tool_targets; by rewrite Ht).
  rewrite E2 in H2. rewrite (turn_targets_ext false previous r) in H3 by (intros; by rewrite Hm', Hm).
  rewrite (turn_targets_ext mixed last_ r) in H4.
  2:{ intros i Hi. rewrite mark_turn_other; [by rewrite Hm', Hm|]. intros Hp. destruct (Hord i Hp) as (j & Hj & Hij).
      rewrite Hj in Hi. injection Hi as ->. lia. }
  pose proof (step_trans _ _ _ _ _ H1 (step_trans _ _ _ _ _ H2 (step_trans _ _ _ _ _ H3 H4))) as [[Hs Hk Hn] _ Hd].
  cbn [request breakpoints s0] in *.
  assert (length (system_targets r ++ tool_targets r ++ turn_targets false previous r ++ turn_targets mixed last_ r) <= 4)%nat as Hlen.
  { rewrite !length_app. destruct (targets_short r). pose proof (turn_short false previous r). pose proof (turn_short mixed last_ r). lia. }
  split_and!; try done. intros p Hp. apply Hd; [|done]. exact Hlen.
Qed.

Lemma cache_unmarked strategy r : unmarked (applyCacheStrategy strategy r) = unmarked r.
Proof. apply (cache_spec strategy r). Qed.

(** * Theorems *)



(** ** Smaller facts *)

(** The gate is put into the prompt; the prompt itself is kept. *)
Lemma injectToolGate_keeps promptText message : TrimSpace promptText <> EmptyString ->
  exists before after gate, promptText = before +:+ after /\ injectToolGate promptText message = before +:+ gate +:+ after.
Proof.
  intros Hp. unfold injectToolGate. destruct (empty _).
  2: set (body := "<tool_gate>" +:+ _).
  - exists promptText, EmptyString, EmptyString. cbn. by rewrite sapp_nil_r.
  - destruct (findUserMarker promptText) as [i|].
    + exists (stake i promptText), (sdrop i promptText), (body +:+ newline +:+ newline). by rewrite stake_sdrop, !sapp_assoc.
    + unfold blank. apply String.eqb_neq in Hp. rewrite Hp. exists promptText, EmptyString, (newline +:+ newline +:+ body). by rewrite !sapp_nil_r.
Qed.

(** The estimate counts every part of the request once. *)
Lemma add_message_sum n bd im : let bd' := add_message n bd im in
  (BasePromptTokens bd' + SystemContextTokens bd' + HistoryTokens bd' =
   BasePromptTokens bd + SystemContextTokens bd + HistoryTokens bd + message_tokens im.2)%Z.
Proof. unfold add_message. destruct (_ || _); [cbn; lia|]. destruct (_ =? _)%nat; cbn; lia. Qed.

Lemma estimate_total r : Total (estimateRequestTokenBreakdown r) =
  (sumZ (fun item => EstimateTextTokens (s_Text item)) (System r) + sumZ message_tokens (Messages r) + estimateToolsTokens (Prompt.Tools r))%Z.
Proof.
  unfold estimateRequestTokenBreakdown. cbn. set (system := sumZ _ (System r)).
  assert (forall l k bd, let bd' := foldl (add_message (length (Messages r))) bd (imap (fun i m => (k + i, m)%nat) l) in
    (BasePromptTokens bd' + SystemContextTokens bd' + HistoryTokens bd' =
     BasePromptTokens bd + SystemContextTokens bd + HistoryTokens bd + sumZ message_tokens l)%Z) as H.
  { induction l as [|m l IH]; intros k bd; cbn zeta; [change (sumZ message_tokens []) with 0%Z; cbn [imap foldl]; lia|]. rewrite sumZ_cons. cbn [imap foldl].
    erewrite (imap_ext _ (fun i m => (S k + i, m)%nat)) by (intros; unfold compose; by rewrite Nat.add_succ_r).
    rewrite IH, add_message_sum. cbn [snd]. lia. }
  specialize (H (Messages r) O (mkBreakdown 0 system 0 0 0)). cbn zeta in H.
  change (imap (fun i m => (0 + i, m)%nat) (Messages r)) with (imap pair (Messages r)) in H.
  cbn [BasePromptTokens SystemContextTokens HistoryTokens] in H. lia.
Qed.

(** The fallback answer speaks only after a turn made of successful results of file
    mutations. *)
Lemma mutations_counted ReadFile names blocks n : count_mutations ReadFile names blocks = Some n ->
  Forall (fun b => is_text b = true /\ blank (b_Text b) = true \/
    Type_ b = "tool_result" /\ IsError b = false /\ HGet names (ToolUseID b) ∈ ["write"; "edit"; "notebookedit"]) blocks /\
  length (filter (fun b => is_text b = false) blocks) = n.
Proof.
  revert n. induction blocks as [|b blocks IH]; intros n; [by intros [= <-]|]. cbn [count_mutations].
  destruct (is_text b) eqn:Et.
  - destruct (blank (b_Text b)) eqn:Eb; [|done]. intros H. destruct (IH n H) as [Hf Hn]. split; [by constructor; auto|].
    rewrite filter_cons_False by (by rewrite Et). done.
  - destruct (String.eqb (Type_ b) "tool_result") eqn:Er; [|done]. destruct (IsError b) eqn:Ee; cbn [orb]; [done|].
    destruct (looksLikeToolResultFailure _); [done|]. destruct (existsb _ _) eqn:Ex; [|done].
    intros (k & H & ->)%fmap_Some. destruct (IH k H) as [Hf Hn]. split.
    + constructor; [|done]. right. split; [by apply String.eqb_eq|]. split; [done|].
      apply List.existsb_exists in Ex as (w & Hw%list_elem_of_In & <-%String.eqb_eq). done.
    + rewrite filter_cons_True by done. cbn. by rewrite Hn.
Qed.

Lemma declare_ok seen out name : (forall key, key ∈ seen <-> key ∈ (ToLower <$> out)) -> NoDup (ToLower <$> out) ->
  let '(seen', out') := declare (seen, out) name in
  (forall key, key ∈ seen' <-> key ∈ (ToLower <$> out')) /\ NoDup (ToLower <$> out').
Proof.
  intros Hs Hn. unfold declare. destruct (empty _); cbn [orb]; [done|]. case_bool_decide as Hin; [done|]. split.
  - intros key. rewrite elem_of_union, elem_of_singleton, Hs, fmap_app, elem_of_app. cbn. rewrite list_elem_of_singleton. tauto.
  - rewrite fmap_app. apply NoDup_app. split_and!; [done| |apply NoDup_singleton].
    intros key Hk. cbn. rewrite list_elem_of_singleton. intros ->. by apply Hin, Hs.
Qed.

(** No declared name is repeated up to case. *)
Lemma declaredToolNames_once tools : NoDup (ToLower <$> declaredToolNames tools).
Proof.
  unfold declaredToolNames.
  assert (forall tools seen out, (forall key, key ∈ seen <-> key ∈ (ToLower <$> out)) -> NoDup (ToLower <$> out) ->
    NoDup (ToLower <$> (foldl declare_tool (seen, out) tools).2)) as H; [|apply H; [|constructor]; intros; cbn; set_solver].
  clear tools. induction tools as [|tool tools IH]; intros seen out Hs Hn; [done|]. cbn [foldl]. unfold declare_tool at 2.
  destruct (empty _); [by apply IH|]. set (name := (ExtractToolSpecFields tool).1.1).
  pose proof (declare_ok seen out name Hs Hn) as H1. destruct (declare (seen, out) name) as [s1 o1]. destruct H1 as [Hs1 Hn1].
  destruct (EqualFold _ _); [by apply IH|].
  pose proof (declare_ok s1 o1 (NormalizeToolNameFallback name) Hs1 Hn1) as H2. destruct (declare (s1, o1) _) as [s2 o2].
  destruct H2. by apply IH.
Qed.

(** What stands between two reminders is taken for a part of them. *)
Example between_reminders :
  let text := "<system-reminder>a</system-reminder> Rename the parser. <system-reminder>b</system-reminder>" in
  let message := mkMessage "user" (mkContent text None) "" None in
  (stripSystemRemindersForMode text, extractUserTexts [message], lastNonToolResultUserText [message]) = ("", [], "").
Proof. vm_compute. reflexivity. Qed.

Example paths :
  (path_text (Clean "/a/./b//../c/"), path_text (Clean "../x/.."), path_text (Clean "/.."), path_text (Clean ""),
   isSafePersistedToolResultPath "/home/u/.claude/projects/p/tool-results/1.txt",
   isSafePersistedToolResultPath "/home/u/.claude/projects/tool-results/../../x.txt",
   isSafePersistedToolResultPath "/etc/passwd") = ("/a/c", "..", "/", ".", true, false, false).
Proof. vm_compute. reflexivity. Qed.

Example titles :
  (generateTopicTitle " fix the login page ", mapModel " Claude-Opus-4.6 ", Fields "a  b", key_of " A ") =
  ("fix the login", "claude-opus-4-6", ["a"; "b"], "a").
Proof. vm_compute. reflexivity. Qed.
