(* ===== verification/Commands.v ===== *)
(** * Requests the gateway answers itself (src/internal/handler/command.go,
    src/internal/adapter/format.go)

    A client harness asks the gateway for the prefix of a shell command, for a topic
    or a title; these are answered without an account, in the protocol and the form
    the client asked for. Splitting a command line into words is the work of a
    library and a parameter here. *)

From Stdlib Require Import Ascii.
From stdpp Require Import base numbers list strings gmap.
From S2P Require Import Prelude GoLib Json Marshal Tokens Tools SseFrame Stream Models PublicModels Prompt Requests.

Local Open Scope orchids_scope.

(** ** The command of a policy request *)
Definition command_mark : string := "Command:".

(** The white space of a regular expression: no vertical tab. *)
Definition re_space (a : ascii) : bool := existsb (fun n => is_byte n a) [9; 10; 12; 13; 32]%nat.
Fixpoint skip_re_space (s : string) : string :=
  match s with String a s' => if re_space a then skip_re_space s' else s | EmptyString => EmptyString end.
Definition line_of (s : string) : string := match Index s newline with Some i => stake i s | None => s end.

(** The trimmed group of [(?m)^Command:\s*(.+)$] at one line, after the mark. The
    group needs a character that ends no line: the text behind the white space, or
    else some of the white space itself. *)
Definition policy_group (rest : string) : option string :=
  let text := skip_re_space rest in
  if negb (empty text) then Some (TrimSpace (line_of text))
  else if str_all (is_byte 10) rest then None else Some EmptyString.

Fixpoint policy_line (line_start : bool) (s : string) : option string :=
  match s with
  | EmptyString => None
  | String a s' =>
      let next := policy_line (is_byte 10 a) s' in
      if line_start && HasPrefix s command_mark
      then match policy_group (sdrop (String.length command_mark) s) with Some g => Some g | None => next end
      else next
  end.

Definition extractCommandFromPolicy (text : string) : string :=
  match policy_line true text with
  | Some command => command
  | None => match Index text command_mark with
            | Some idx => TrimSpace (sdrop (idx + String.length command_mark) text)
            | None => EmptyString
            end
  end.

Definition isCommandPrefixRequest (r : ClaudeRequest) : option string :=
  let userText := extractUserText (Messages r) in
  let lower := ToLower userText in
  if empty userText || negb (Contains lower "<policy_spec>" || Contains lower "command prefix") then None
  else let command := extractCommandFromPolicy userText in if empty command then None else Some command.

(** ** Its prefix *)
Definition word_start (a : ascii) : bool :=
  between 65 90 a || between 97 122 a || is_byte 95 a.
Fixpoint assignment_tail (s : string) : bool :=
  match s with
  | String a s' => is_byte 61 a || ((word_start a || between 48 57 a) && assignment_tail s')
  | EmptyString => false
  end.
Definition isEnvAssignment (token : string) : bool :=
  match token with String a s' => word_start a && assignment_tail s' | EmptyString => false end.

Definition looksLikeCommandInjection (command : string) : bool :=
  contains_any command [newline; String (ascii_of_nat 13) EmptyString; "`"; "$("; ";"; "||"; "&&"; "|"].

Definition gitSubcommands : list string :=
  ["add"; "branch"; "checkout"; "clone"; "commit"; "diff"; "fetch"; "log"; "merge"; "pull"; "push"; "rebase"; "reset"; "show"; "stash";
   "status"; "tag"; "remote"].

Fixpoint find_from (test : string -> bool) (i : nat) (tokens : list string) : option nat :=
  match tokens with
  | [] => None
  | t :: rest => if test t then Some i else find_from test (S i) rest
  end.
Definition findGitSubcommandIndex (tokens : list string) (start : nat) : option nat :=
  find_from (fun t => existsb (String.eqb (ToLower t)) gitSubcommands) start (drop start tokens).

Fixpoint assignments (tokens : list string) : nat :=
  match tokens with t :: rest => if isEnvAssignment t then S (assignments rest) else O | [] => O end.

Definition injection : string := "command_injection_detected".

(** The prefix as the number of words it takes: the assignments before the command,
    the command, and for some commands their subcommand. *)
Definition prefix_words (tokens : list string) : option nat :=
  let cmd := assignments tokens in
  match tokens !! cmd with
  | None => None
  | Some name =>
      let lower := ToLower name in
      let i := S cmd in
      if String.eqb lower "git" then
        match findGitSubcommandIndex tokens i with
        | None => None
        | Some sub =>
            if String.eqb (ToLower (default EmptyString (tokens !! sub))) "push" && (sub =? length tokens - 1)%nat then None
            else Some (S sub)
        end
      else if existsb (String.eqb lower) ["go"; "gg"; "potion"; "pig"] then
        match tokens !! i with None => None | Some _ => Some (S i) end
      else if String.eqb lower "npm" then
        match tokens !! i with
        | None => None
        | Some sub =>
            let sub := ToLower sub in
            if String.eqb sub "run" then
              if (length tokens <=? i + 1)%nat then None
              else if (length tokens <=? i + 2)%nat && (cmd =? 0)%nat then None
              else Some (i + 2)%nat
            else if String.eqb sub "test" then
              if (length tokens <=? i + 1)%nat then None else Some (S i)
            else Some (S cmd)
        end
      else Some (S cmd)
  end.

Section Prefix.
(** [shellquote.Split]: [None] when the quotes do not match. *)
Context (split_words : string -> option (list string)).

Definition detectCommandPrefix (command : string) : string :=
  let trimmed := TrimSpace command in
  if empty trimmed then "none"
  else if looksLikeCommandInjection trimmed then injection
  else match split_words trimmed with
       | None | Some [] => injection
       | Some tokens => match prefix_words tokens with Some n => Join (take n tokens) " " | None => "none" end
       end.
End Prefix.

(** ** Local answers *)
Definition DetectOpenAI (path : string) : bool := Contains path "/chat/completions".

Inductive LocalAnswer :=
  | NoFlusher                              (* 500, streaming not supported *)
  | Events (frames : list Frame)
  | Chunks (data : list string)            (* each a frame, then the done line *)
  | Body (value : json).

Definition localOpenAIDelta (role content : string) : json := JObj (text_field "role" role ++ text_field "content" content).
Definition newLocalOpenAIChunk (id model : string) (created : Z) (delta : json) (finish : option string) : json :=
  JObj [("id", JStr id); ("object", JStr "chat.completion.chunk"); ("created", JNum (fmt_d created)); ("model", JStr model);
        ("choices", JArr [JObj ([("index", JNum "0"); ("delta", delta)]
           ++ match finish with Some reason => [("finish_reason", JStr reason)] | None => [] end)])].

Definition usage_json (names : string * string) (input output : Z) : list (string * json) :=
  [(names.1, JNum (fmt_d input)); (names.2, JNum (fmt_d output))].

Record Answering := mkAnswering { a_msgID : string; a_created : Z; a_openAI : bool; a_flusher : bool }.

Definition local_chunks (a : Answering) (model text : string) : list json :=
  let chunk := newLocalOpenAIChunk (a_msgID a) model (a_created a) in
  [chunk (localOpenAIDelta "assistant" "") None]
    ++ (if empty text then [] else [chunk (localOpenAIDelta "" text) None])
    ++ [chunk (localOpenAIDelta "" "") (Some "stop")].

Definition local_frames (a : Answering) (model text : string) (input output : Z) : list Frame :=
  [MessageStart (a_msgID a) model input 0; BlockStartText 0; DeltaText 0 text; BlockStop 0; MessageDelta "end_turn" output; MessageStop].

Definition local_body (a : Answering) (model text : string) (input output : Z) : json :=
  if a_openAI a then
    JObj [("id", JStr (a_msgID a)); ("object", JStr "chat.completion"); ("created", JNum (fmt_d (a_created a))); ("model", JStr model);
          ("choices", JArr [JObj [("index", JNum "0"); ("message", JObj [("role", JStr "assistant"); ("content", JStr text)]);
                                  ("finish_reason", JStr "stop")]]);
          ("usage", JObj (usage_json ("prompt_tokens", "completion_tokens") input output ++ [("total_tokens", JNum (fmt_d (input + output)))]))]
  else
    JObj [("id", JStr (a_msgID a)); ("type", JStr "message"); ("role", JStr "assistant");
          ("content", JArr [JObj [("text", JStr text); ("type", JStr "text")]]); ("model", JStr model); ("stop_reason", JStr "end_turn");
          ("stop_sequence", JNull); ("usage", JObj (usage_json ("input_tokens", "output_tokens") input output))].

Definition writeLocalTextResponse (a : Answering) (r : ClaudeRequest) (text : string) : LocalAnswer :=
  let inputTokens := EstimateTextTokens (extractUserText (Messages r)) in
  let outputTokens := EstimateTextTokens text in
  if IsStream r then
    if negb (a_flusher a) then NoFlusher
    else if a_openAI a then Chunks (render <$> local_chunks a (Prompt.Model r) text)
    else Events (local_frames a (Prompt.Model r) text inputTokens outputTokens)
  else Body (local_body a (Prompt.Model r) text inputTokens outputTokens).

(** The text each kind of request is answered with. *)
Definition command_answer (prefix : string) : string := FirstNonEmptyUntrimmed [TrimSpace prefix; "none"].
Definition topic_answer `{TextClasses} (r : ClaudeRequest) : string :=
  let '(isNewTopic, title) := classifyTopicRequest r in
  Marshal (JObj [("isNewTopic", JBool isNewTopic); ("title", if isNewTopic : bool then JStr title else JNull)]).
Definition title_answer (r : ClaudeRequest) : string :=
  Marshal (JObj [("title", JStr (generateTopicTitle (extractUserText (Messages r))))]).

(** * Lemmas *)
Lemma assignments_short tokens : (assignments tokens <= length tokens)%nat.
Proof. induction tokens as [|t rest IH]; cbn; [lia|]. destruct (isEnvAssignment t); lia. Qed.

Lemma find_from_bound test i tokens k : find_from test i tokens = Some k -> (i <= k < i + length tokens)%nat.
Proof.
  revert i. induction tokens as [|t rest IH]; intros i; [done|]. cbn [find_from length]. destruct (test t).
  - intros [= <-]. lia.
  - intros H%IH. lia.
Qed.

Lemma prefix_words_bound tokens n : prefix_words tokens = Some n -> (0 < n <= length tokens)%nat.
Proof.
  unfold prefix_words. destruct (tokens !! assignments tokens) as [name|] eqn:Hc; [|done]. apply lookup_lt_Some in Hc.
  destruct (String.eqb _ "git").
  { unfold findGitSubcommandIndex. destruct (find_from _ _ _) as [sub|] eqn:Hf; [|done]. apply find_from_bound in Hf.
    rewrite length_drop in Hf. destruct (_ && _); [done|]. intros [= <-]. lia. }
  destruct (existsb _ _).
  { destruct (tokens !! S _) eqn:Hi; [|done]. apply lookup_lt_Some in Hi. intros [= <-]. lia. }
  destruct (String.eqb _ "npm"); [|intros [= <-]; lia].
  destruct (tokens !! S _) as [sub|] eqn:Hi; [|done]. apply lookup_lt_Some in Hi.
  destruct (String.eqb _ "run").
  { destruct (_ <=? _)%nat eqn:E; [done|]. apply Nat.leb_gt in E. destruct (_ && _); [done|]. intros [= <-]. lia. }
  destruct (String.eqb _ "test"); [|intros [= <-]; lia].
  destruct (_ <=? _)%nat; [done|]. intros [= <-]. lia.
Qed.

(** The answer to a command is one of the two words or the first words of it, and a
    command that strings several together never has a prefix. *)
Lemma detected split_words command :
  let answer := detectCommandPrefix split_words command in
  answer = "none" \/ answer = injection \/
  exists tokens n, split_words (TrimSpace command) = Some tokens /\ (0 < n <= length tokens)%nat /\ answer = Join (take n tokens) " "
    /\ looksLikeCommandInjection (TrimSpace command) = false.
Proof.
  cbn zeta. unfold detectCommandPrefix. destruct (empty _); [by left|].
  destruct (looksLikeCommandInjection _); [by right; left|]. destruct (split_words _) as [[|t rest]|]; [by right; left| |by right; left].
  destruct (prefix_words (t :: rest)) as [n|] eqn:Hn; [|by left]. right. right. exists (t :: rest), n.
  pose proof (prefix_words_bound _ _ Hn) as Hb. done.
Qed.

(** What a client reads in a chunk and in a body. *)
Definition first_choice (v : json) : list (string * json) :=
  match v with
  | JObj fs => match field "choices" fs with Some (JArr (JObj choice :: _)) => choice | _ => [] end
  | _ => []
  end.
Definition content_at (k : string) (choice : list (string * json)) : string :=
  match field k choice with
  | Some (JObj d) => match field "content" d with Some (JStr text) => text | _ => EmptyString end
  | _ => EmptyString
  end.
Definition chunk_text (v : json) : string := content_at "delta" (first_choice v).
Definition body_text (openai : bool) (v : json) : string :=
  if openai then content_at "message" (first_choice v)
  else match v with
       | JObj fs => match field "content" fs with
                    | Some (JArr (JObj b :: _)) => match field "text" b with Some (JStr text) => text | _ => EmptyString end
                    | _ => EmptyString
                    end
       | _ => EmptyString
       end.

Lemma local_chunk_ok id model created role content finish :
  json_ok (newLocalOpenAIChunk id model created (localOpenAIDelta role content) finish).
Proof.
  unfold newLocalOpenAIChunk, localOpenAIDelta, text_field.
  destruct (empty role), (empty content), finish; cbn [app];
    repeat match goal with
    | |- NoDup _ => apply NoDup_keys; vm_compute; reflexivity
    | |- json_ok (JNum (fmt_d _)) => apply json_ok_int
    | |- json_ok (JNum "0") => apply (json_ok_int 0)
    | |- json_ok (snd _) => cbn [snd]
    | |- json_ok _ => constructor
    | |- Forall _ _ => constructor
    end.
Qed.

Lemma local_body_ok a model text input output : json_ok (local_body a model text input output).
Proof.
  unfold local_body, usage_json. destruct (a_openAI a); cbn [app fst snd];
    repeat match goal with
    | |- NoDup _ => apply NoDup_keys; vm_compute; reflexivity
    | |- json_ok (JNum (fmt_d _)) => apply json_ok_int
    | |- json_ok (JNum "0") => apply (json_ok_int 0)
    | |- json_ok (snd _) => cbn [snd]
    | |- json_ok _ => constructor
    | |- Forall _ _ => constructor
    end.
Qed.

(** What a chunk of this form says to its reader. *)
Lemma local_chunk_text id model created role content finish :
  chunk_text (coerce_json (newLocalOpenAIChunk id model created (localOpenAIDelta role content) finish)) = ToValidUTF8 content.
Proof.
  unfold newLocalOpenAIChunk, localOpenAIDelta, text_field.
  destruct (empty role), content as [|b content], finish; reflexivity.
Qed.

Lemma chunks_read (l : list json) :
  Forall json_ok l -> mapM Unmarshal (render <$> l) = Some (coerce_json <$> l).
Proof.
  induction 1 as [|v l Hv _ IH]; [done|]. cbn [fmap list_fmap mapM].
  rewrite (Unmarshal_render v Hv). cbn [mbind option_bind]. by rewrite IH.
Qed.

(** An answer the gateway gives itself reaches the client as it is. A client of
    an event stream sees a whole message whose text is the answer; every chunk of a
    chat completion decodes, and their contents in order are the answer, its invalid
    UTF-8 replaced; a body decodes to the answer in either form. Only a stream that
    cannot be flushed is refused. *)
Theorem local_answer_delivered (a : Answering) (r : ClaudeRequest) (text : string) :
  match writeLocalTextResponse a r text with
  | NoFlusher => IsStream r = true /\ a_flusher a = false
  | Events frames => client_run (WFrame <$> frames) = Some CDone /\ text_of (WFrame <$> frames) = text
  | Chunks data => exists values, mapM Unmarshal data = Some values
      /\ foldr String.append EmptyString (chunk_text <$> values) = ToValidUTF8 text
  | Body value => exists v, Unmarshal (render value) = Some v /\ body_text (a_openAI a) v = ToValidUTF8 text
  end.
Proof.
  unfold writeLocalTextResponse. destruct (IsStream r).
  - destruct (a_flusher a); [|done]. cbn [negb]. destruct (a_openAI a) eqn:Ho.
    + exists (coerce_json <$> local_chunks a (Prompt.Model r) text). split.
      * apply chunks_read. unfold local_chunks. destruct (empty text); cbn [app];
          repeat apply Forall_cons_2; try apply Forall_nil_2; apply local_chunk_ok.
      * unfold local_chunks. destruct text as [|b text]; cbn [empty app fmap list_fmap foldr];
          rewrite !local_chunk_text; [reflexivity|]. cbn [ToValidUTF8 String.append]. apply sapp_nil_r.
    + split; [reflexivity|]. cbn. apply sapp_nil_r.
  - eexists. split; [apply Unmarshal_render, local_body_ok|]. unfold local_body. by destruct (a_openAI a).
Qed.

(** Prefixes of commands, the words split at their blanks. *)
Example npm_prefix (detect := fun words => detectCommandPrefix (fun _ => Some words) (Join words " ")) :
  detect ["FOO=1"; "npm"; "run"; "build"] = "FOO=1 npm run build" /\ detect ["npm"; "run"; "build"] = "none" /\
  detect ["git"; "push"] = "none" /\ detect ["git"; "-C"; "dir"; "push"; "origin"] = "git -C dir push" /\
  detect ["ls"; "|"; "wc"] = injection.
Proof. by vm_compute. Qed.
