(* ===== verification/NonStream.v ===== *)
(** * The body of a response that is no stream (src/internal/handler/handler.go)

    A request that did not ask for a stream is answered in one JSON body, once the
    relay has finished: its blocks take the text their builders collected and are
    written in the form of the protocol. *)

From stdpp Require Import base numbers list strings gmap.
From S2P Require Import Prelude GoLib Json Marshal Tokens Tools SseFrame Models PublicModels Prompt Requests Commands Stream.

Local Open Scope orchids_scope.

(** ** Blocks *)
Definition builderAt (slots : list (option string)) (i : nat) : option string := mjoin (slots !! i).

(** The map the relay keeps of a block. *)
Definition block_map (b : block) : list (string * json) :=
  ("type", JStr (b_type b)) ::
  (if String.eqb (b_type b) "tool_use" then [("id", JStr (b_id b)); ("name", JStr (b_name b)); ("input", b_input b)]
   else match b_signature b with Some sig => [("signature", JStr sig)] | None => [] end).

Definition materializeBlockField (fs : list (string * json)) (key : string) (slots : list (option string)) (i : nat)
    : list (string * json) :=
  match builderAt slots i with
  | Some text => set_field key (JStr text) fs
  | None => match field key fs with Some _ => fs | None => set_field key (JStr EmptyString) fs end
  end.

Definition block_kind (fs : list (string * json)) : string := default EmptyString (str_at "type" fs).

Definition materialize (h : Hist) (i : nat) (b : block) : list (string * json) :=
  let fs := block_map b in
  if String.eqb (block_kind fs) "text" then materializeBlockField fs "text" (textBlockBuilders h) i
  else if String.eqb (block_kind fs) "thinking" then materializeBlockField fs "thinking" (thinkingBlockBuilders h) i
  else fs.

(** The blocks of the answer; a text no block took becomes one. *)
Definition answer_blocks (h : Hist) : list (list (string * json)) :=
  match imap (materialize h) (contentBlocks h) with
  | [] => if (0 <? String.length (responseText h))%nat
          then [[("type", JStr "text"); ("text", JStr (responseText h))]] else []
  | blocks => blocks
  end.

(** ** The OpenAI body *)
Definition mapStopReasonToOpenAIFinishReason (stopReason : string) : string :=
  let word := TrimSpace stopReason in
  if existsb (String.eqb word) [""; "end_turn"; "stop"] then "stop"
  else if String.eqb word "tool_use" then "tool_calls"
  else if String.eqb word "max_tokens" then "length"
  else if String.eqb word "refusal" then "content_filter"
  else stopReason.

(** The text of a block of one kind: its builder's, or its own. *)
Definition part (kind key : string) (slots : list (option string)) (i : nat) (fs : list (string * json)) : string :=
  if String.eqb (block_kind fs) kind then
    match builderAt slots i with
    | Some (String a text) => String a text
    | _ => default EmptyString (str_at key fs)
    end
  else EmptyString.

Definition call_arguments (input : option json) : string :=
  match input with
  | Some (JStr text) => text
  | None | Some JNull => "{}"
  | Some v => Marshal v
  end.

Definition openai_call (fs : list (string * json)) : option json :=
  if String.eqb (block_kind fs) "tool_use" then
    Some (JObj [("id", JStr (default EmptyString (str_at "id" fs))); ("type", JStr "function");
                ("function", JObj [("name", JStr (default EmptyString (str_at "name" fs)));
                                   ("arguments", JStr (call_arguments (field "input" fs)))])])
  else None.

Definition openai_message (h : Hist) : json :=
  let blocks := answer_blocks h in
  let calls := omap (M := list) openai_call blocks in
  let content := String.concat EmptyString (imap (part "text" "text" (textBlockBuilders h)) blocks) in
  let content := if blank content && negb (bool_decide (calls = [])) then EmptyString else content in
  JObj ([("role", JStr "assistant"); ("content", JStr content)]
    ++ text_field "reasoning_content" (String.concat EmptyString (imap (part "thinking" "thinking" (thinkingBlockBuilders h)) blocks))
    ++ match calls with [] => [] | _ => [("tool_calls", JArr calls)] end).

Definition buildOpenAINonStreamResponse (cfg : Cfg) (model stopReason : string) (s : St) : json :=
  let input := inputTokens (meter s) in
  let output := outputTokens (meter s) in
  JObj [("id", JStr (msgID cfg)); ("object", JStr "chat.completion"); ("created", JNum (fmt_d (created cfg))); ("model", JStr model);
        ("choices", JArr [JObj [("index", JNum "0"); ("message", openai_message (hist s));
                                ("finish_reason", JStr (mapStopReasonToOpenAIFinishReason stopReason))]]);
        ("usage", JObj (usage_json ("prompt_tokens", "completion_tokens") input output
                          ++ [("total_tokens", JNum (fmt_d (wrap64 (input + output))))]))].

Definition anthropic_body (cfg : Cfg) (model stopReason : string) (s : St) : json :=
  JObj [("id", JStr (msgID cfg)); ("type", JStr "message"); ("role", JStr "assistant");
        ("content", JArr (JObj <$> answer_blocks (hist s))); ("model", JStr model); ("stop_reason", JStr stopReason);
        ("stop_sequence", JNull); ("usage", JObj (usage_json ("input_tokens", "output_tokens") (inputTokens (meter s)) (outputTokens (meter s))))].

(** The body a finished response is written as; none for a stream or a failure,
    which were answered already. *)
Definition response_body (cfg : Cfg) (model : string) (s : St) : option json :=
  if isStream cfg || requestFailed (conn s) then None
  else
    let reason := finalStopReason (hist s) in
    let stopReason := if empty reason then "end_turn" else reason in
    Some (if openAI cfg then buildOpenAINonStreamResponse cfg model stopReason s else anthropic_body cfg model stopReason s).

(** What a client reads in it. *)
Definition texts_at (kind key : string) (blocks : list json) : string :=
  String.concat EmptyString ((fun v => match v with
    | JObj fs => if String.eqb (block_kind fs) kind then default EmptyString (str_at key fs) else EmptyString
    | _ => EmptyString end) <$> blocks).
Definition answer_text (openai : bool) (v : json) : string :=
  if openai then content_at "message" (first_choice v)
  else match v with
       | JObj fs => match field "content" fs with Some (JArr l) => texts_at "text" "text" l | _ => EmptyString end
       | _ => EmptyString
       end.
Definition answer_reasoning (openai : bool) (v : json) : string :=
  if openai then match field "message" (first_choice v) with
                 | Some (JObj m) => default EmptyString (str_at "reasoning_content" m)
                 | _ => EmptyString
                 end
  else match v with
       | JObj fs => match field "content" fs with Some (JArr l) => texts_at "thinking" "thinking" l | _ => EmptyString end
       | _ => EmptyString
       end.

(** * Lemmas

    ** The text gathered in the blocks of one kind *)
Definition words (kind : string) (slots : list (option string)) (i : nat) (t : string) : string :=
  if String.eqb t kind then default EmptyString (builderAt slots i) else EmptyString.
Definition gather (kind : string) (slots : list (option string)) (types : list string) : string :=
  String.concat EmptyString (imap (words kind slots) types).

(** The position of the last block of a kind. *)
Definition last_of (kind : string) (i : nat) (types : list string) : Prop :=
  types !! i = Some kind /\ forall j, (i < j)%nat -> types !! j <> Some kind.

Lemma concat_app (a b : list string) :
  String.concat EmptyString (a ++ b) = String.concat EmptyString a +:+ String.concat EmptyString b.
Proof.
  induction a as [|x a IH]; [done|]. destruct a as [|y a].
  - cbn. destruct b as [|z b]; cbn; [by rewrite sapp_nil_r|done].
  - change ((x :: y :: a) ++ b) with (x :: ((y :: a) ++ b)). cbn [String.concat app] in *.
    rewrite IH. cbn [String.append]. by rewrite sapp_assoc.
Qed.

Lemma concat_cons (x : string) l : String.concat EmptyString (x :: l) = x +:+ String.concat EmptyString l.
Proof. exact (concat_app [x] l). Qed.

Lemma gather_snoc kind slots types t :
  gather kind slots (types ++ [t]) = gather kind slots types +:+ words kind slots (length types) t.
Proof. unfold gather. rewrite imap_app, concat_app. cbn. by rewrite Nat.add_0_r. Qed.

Lemma gather_ext kind slots slots' types :
  (forall i, types !! i = Some kind -> default EmptyString (builderAt slots' i) = default EmptyString (builderAt slots i)) ->
  gather kind slots' types = gather kind slots types.
Proof.
  intros H. unfold gather. f_equal. apply imap_ext. intros i t Ht. unfold words.
  destruct (String.eqb_spec t kind) as [->|]; [by apply H|done].
Qed.

Lemma builder_grow slots n i : builderAt (grow None slots n) i = builderAt slots i.
Proof.
  unfold builderAt, grow. destruct (decide (i < length slots)%nat); [by rewrite lookup_app_l|].
  rewrite lookup_app_r by lia. rewrite (lookup_ge_None_2 slots) by lia.
  destruct (_ !! _) as [x|] eqn:E; [|done]. apply lookup_replicate in E as [-> _]. done.
Qed.

Lemma grow_length {A} (zero : A) slots n : (n < length (grow zero slots n))%nat.
Proof. unfold grow. rewrite length_app, length_replicate. lia. Qed.

Lemma builder_set slots i j v :
  builderAt (<[i := v]> (grow None slots i)) j = if (j =? i)%nat then v else builderAt slots j.
Proof.
  destruct (Nat.eqb_spec j i) as [->|Hn].
  - unfold builderAt. rewrite list_lookup_insert_eq by apply grow_length. done.
  - rewrite <- (builder_grow slots i j). unfold builderAt. by rewrite list_lookup_insert_ne by done.
Qed.

Lemma imap_silent (f : nat -> string -> string) types :
  (forall j t, types !! j = Some t -> f j t = EmptyString) -> String.concat EmptyString (imap f types) = EmptyString.
Proof.
  revert f. induction types as [|t types IH]; intros f H; [done|]. rewrite imap_cons, concat_cons, (H O t eq_refl).
  apply IH. intros j t' Ht. exact (H (S j) t' Ht).
Qed.

Lemma gather_append kind slots types i d : last_of kind i types ->
  gather kind (append_history (Z.of_nat i) d slots) types = gather kind slots types +:+ d.
Proof.
  intros [Hi Hlast]. rewrite <- (take_drop_middle types i kind Hi). unfold gather, append_history. rewrite Nat2Z.id.
  assert (Hlen : length (take i types) = i) by (apply lookup_lt_Some in Hi; rewrite length_take; lia).
  assert (Hz : forall slots', String.concat EmptyString (imap ((words kind slots' ∘ Nat.add (length (take i types))) ∘ S)
                 (drop (S i) types)) = EmptyString).
  { intros slots'. apply imap_silent. intros j t Ht. unfold compose, words. destruct (String.eqb_spec t kind) as [->|]; [|done].
    exfalso. rewrite lookup_drop in Ht. apply (Hlast (S i + j)%nat); [lia|done]. }
  rewrite !imap_app, !imap_cons, !concat_app, !concat_cons. cbv [compose] in *. rewrite !Hz, !sapp_nil_r, !sapp_assoc. f_equal.
  - f_equal. apply imap_ext. intros j t Ht. unfold words. apply lookup_lt_Some in Ht. rewrite builder_set.
    by destruct (Nat.eqb_spec j i); [lia|].
  - unfold compose, words. rewrite Hlen, Nat.add_0_r, !String.eqb_refl, builder_set, Nat.eqb_refl.
    cbn [default from_option id]. by rewrite <- (builder_grow slots i i).
Qed.

(** ** The relay of a response that is no stream *)
Section NonStream.
  Context `{UnicodeTable} (cfg : Cfg) (wfail : nat -> bool) (tick : nat -> nat).
  Hypothesis Hstream : isStream cfg = false.

Definition kinds (h : Hist) : list string := b_type <$> contentBlocks h.

(** The blocks hold the text [t] and the reasoning [r], in order. *)
Record holds (t r : string) (h : Hist) : Prop := {
  holds_text : gather "text" (textBlockBuilders h) (kinds h) = t;
  holds_reasoning : gather "thinking" (thinkingBlockBuilders h) (kinds h) = r;
}.

(** The block that is open is the last of its kind. *)
Definition open_ok (c : Conn) (h : Hist) : Prop :=
  match activeBlockType c with
  | BlockNone => (activeTextSSEIndex c < 0)%Z /\ (activeThinkingSSEIndex c < 0)%Z
  | BlockText => (activeThinkingSSEIndex c < 0)%Z /\ exists i, activeTextBlockIndex h = Z.of_nat i /\ last_of "text" i (kinds h)
  | BlockThinking => (activeTextSSEIndex c < 0)%Z /\ exists i, activeThinkingBlockIndex h = Z.of_nat i /\ last_of "thinking" i (kinds h)
  end.

(** The response is open and nothing was written of it. *)
Definition unanswered (c : Conn) : Prop :=
  hasReturn c = false /\ returned c = false /\ requestFailed c = false /\ panicked c = false /\ wire c = [].

Record relaying (v : bool) (t r : string) (s : St) : Prop := {
  r_healthy : unanswered (conn s);
  r_holds : holds t r (hist s);
  r_response : responseText (hist s) = t;
  r_visible : v = true -> hasTextOutput (hist s) = true;
  r_index : (-1 <= blockIndex (conn s))%Z;
  r_open : open_ok (conn s) (hist s);
}.

(** What the relay remembers beside its blocks does not matter. *)
Definition same_hist (h h' : Hist) : Prop :=
  kinds h' = kinds h /\ textBlockBuilders h' = textBlockBuilders h /\ thinkingBlockBuilders h' = thinkingBlockBuilders h
  /\ responseText h' = responseText h /\ (hasTextOutput h = true -> hasTextOutput h' = true)
  /\ activeTextBlockIndex h' = activeTextBlockIndex h /\ activeThinkingBlockIndex h' = activeThinkingBlockIndex h.
Definition same_conn_state (c c' : Conn) : Prop :=
  hasReturn c' = hasReturn c /\ returned c' = returned c /\ requestFailed c' = requestFailed c /\ panicked c' = panicked c
  /\ activeBlockType c' = activeBlockType c /\ activeTextSSEIndex c' = activeTextSSEIndex c
  /\ activeThinkingSSEIndex c' = activeThinkingSSEIndex c /\ blockIndex c' = blockIndex c /\ wire c' = wire c.

Lemma relaying_same v t r s s' : same_conn_state (conn s) (conn s') -> same_hist (hist s) (hist s') -> relaying v t r s -> relaying v t r s'.
Proof using.
  intros (C1 & C2 & C3 & C4 & C5 & C6 & C7 & C8 & C9) (H1 & H2 & H3 & H4 & H5 & H6 & H7) [R1 [R2 R2'] R3 R4 R5 R6].
  constructor; [|constructor|..]; unfold unanswered, open_ok in *; rewrite ?C1, ?C2, ?C3, ?C4, ?C5, ?C6, ?C7, ?C8, ?C9, ?H1, ?H2, ?H3, ?H4, ?H6, ?H7; auto.
Qed.

Lemma lock_same s : same_conn_state (conn s) (conn (lock cfg wfail tick s)) /\ hist (lock cfg wfail tick s) = hist s
  /\ calls (lock cfg wfail tick s) = calls s.
Proof using Hstream.
  unfold lock. assert (Nat.iter (tick (locks (conn s))) (writeKeepAlive_locked cfg wfail) s = s) as ->; [|done].
  induction (tick _) as [|k IH]; [done|]. rewrite Nat.iter_succ, IH. unfold writeKeepAlive_locked. by rewrite Hstream.
Qed.
Lemma same_hist_refl h : same_hist h h. Proof using. done. Qed.
Lemma lock_relaying v t r s : relaying v t r s -> relaying v t r (lock cfg wfail tick s).
Proof using Hstream. intros R. destruct (lock_same s) as (Hc & Hh & _). eapply relaying_same; [exact Hc| |exact R]. by rewrite Hh. Qed.

Lemma silent_hint f imm s : writeSSEBytesLockedWithHint cfg wfail f imm s = s.
Proof using Hstream. unfold writeSSEBytesLockedWithHint. by rewrite Hstream. Qed.
Lemma silent_locked f s : writeSSEBytesLocked cfg wfail f s = s.
Proof using Hstream. unfold writeSSEBytesLocked. by rewrite Hstream. Qed.

Lemma close_relaying v t r s : relaying v t r s -> relaying v t r (closeActiveBlockLocked cfg wfail s)
  /\ activeBlockType (conn (closeActiveBlockLocked cfg wfail s)) = BlockNone.
Proof using Hstream.
  intros [R1 [T R] R3 R4 R5 R6]. unfold closeActiveBlockLocked, popActiveBlockStopDataLocked, open_ok in R6 |- *.
  destruct (activeBlockType (conn s)) eqn:E; [split; [constructor; try done; unfold open_ok; by rewrite E|done]|..];
    rewrite silent_locked; (split; [|done]); destruct R6 as [R6 _]; constructor; try done; unfold open_ok; cbn; split; (lia || done).
Qed.

Lemma kinds_open h typ sig : kinds (h <| contentBlocks := contentBlocks h ++ [new_block typ sig] |>) = kinds h ++ [typ].
Proof using. unfold kinds. cbn. by rewrite fmap_app. Qed.
Lemma last_of_snoc kind l : last_of kind (length l) (l ++ [kind]).
Proof using.
  split; [by rewrite lookup_app_r, Nat.sub_diag by lia|]. intros j Hj. rewrite lookup_ge_None_2; [done|]. rewrite length_app. cbn. lia.
Qed.

Lemma gather_open kind slots types n : n = length types ->
  gather kind (<[n := Some EmptyString]> (grow None slots n)) (types ++ [kind]) = gather kind slots types.
Proof using.
  intros ->. rewrite gather_snoc. unfold words. rewrite String.eqb_refl, builder_set, Nat.eqb_refl. cbn [default from_option id].
  rewrite sapp_nil_r. apply gather_ext. intros i Hi. rewrite builder_set. apply lookup_lt_Some in Hi.
  by destruct (Nat.eqb_spec i (length types)); [lia|].
Qed.
Lemma gather_other kind slots types k : k <> kind -> gather kind slots (types ++ [k]) = gather kind slots types.
Proof using. intros Hk. rewrite gather_snoc. unfold words. rewrite (proj2 (String.eqb_neq _ _) Hk). apply sapp_nil_r. Qed.

Lemma opened_length h b : (length (contentBlocks h ++ [b]) - 1)%nat = length (kinds h).
Proof using. unfold kinds. rewrite length_app, length_fmap. cbn. lia. Qed.

Lemma open_text_relaying v t r s : relaying v t r s -> activeBlockType (conn s) = BlockNone ->
  relaying v t r (open_text cfg wfail s).1 /\ activeBlockType (conn (open_text cfg wfail s).1) = BlockText.
Proof using Hstream.
  intros [R1 [T R] R3 R4 R5 R6] E. unfold open_ok in R6. rewrite E in R6. destruct R6 as [_ R6].
  unfold open_text, writeSSEContentBlockStartTextLocked, write_block. cbv zeta. cbn [fst]. rewrite silent_hint. split; [|done].
  match goal with |- relaying _ _ _ ?s' =>
    assert (Hk : kinds (hist s') = kinds (hist s) ++ ["text"]) by (unfold kinds; cbn; by rewrite fmap_app) end.
  constructor; try done; [|cbn; lia|].
  - constructor; rewrite Hk; [|etransitivity; [apply gather_other; done|exact R]].
    etransitivity; [|exact T]. apply gather_open, opened_length.
  - split; [done|]. rewrite Hk. exists (length (kinds (hist s))). split; [exact (f_equal Z.of_nat (opened_length (hist s) (new_block "text" None)))|apply last_of_snoc].
Qed.

Lemma open_thinking_relaying v t r s : relaying v t r s -> activeBlockType (conn s) = BlockNone ->
  relaying v t r (open_thinking cfg wfail s).1 /\ activeBlockType (conn (open_thinking cfg wfail s).1) = BlockThinking.
Proof using Hstream.
  intros [R1 [T R] R3 R4 R5 R6] E. unfold open_ok in R6. rewrite E in R6. destruct R6 as [R6 _].
  unfold open_thinking. cbv zeta. cbn [fst]. rewrite silent_hint. split; [|done].
  match goal with |- relaying _ _ _ ?s' =>
    assert (Hk : kinds (hist s') = kinds (hist s) ++ ["thinking"]) by (unfold kinds; cbn; by rewrite fmap_app) end.
  constructor; try done; [|cbn; lia|].
  - constructor; rewrite Hk; [etransitivity; [apply gather_other; done|exact T]|].
    etransitivity; [|exact R]. apply gather_open.
    exact (opened_length (hist s) (new_block "thinking" (Some (pendingThinkingSig (hist s))))).
  - split; [done|]. rewrite Hk. exists (length (kinds (hist s))). split; [exact (f_equal Z.of_nat (opened_length (hist s) (new_block "thinking" (Some (pendingThinkingSig (hist s))))))|apply last_of_snoc].
Qed.

(** An open block of one type: closed when another type is asked for. *)
Lemma ensure_relaying v t r b s : relaying v t r s -> b <> BlockNone -> (b = BlockThinking -> suppressThinking cfg = false) ->
  relaying v t r (ensureBlock cfg wfail tick b s).1 /\ activeBlockType (conn (ensureBlock cfg wfail tick b s).1) = b.
Proof using Hstream.
  intros R Hb Hs. unfold ensureBlock. destruct (bool_decide (b = BlockThinking) && suppressThinking cfg) eqn:Hg.
  { apply andb_true_iff in Hg as [Hb'%bool_decide_eq_true Hs']. rewrite (Hs Hb') in Hs'. done. }
  cbv zeta. pose proof (lock_relaying v t r s R) as R1. set (s1 := lock cfg wfail tick s) in *. clearbody s1.
  set (s2 := if _ && _ then _ else s1).
  assert (relaying v t r s2 /\ (activeBlockType (conn s2) = b \/ activeBlockType (conn s2) = BlockNone)) as [R2 H2].
  { unfold s2. destruct (negb _ && _) eqn:Hc.
    - destruct (close_relaying v t r s1 R1). by split; [|right].
    - split; [done|]. apply andb_false_iff in Hc as [Hc|Hc]; apply negb_false_iff, bool_decide_eq_true in Hc; auto. }
  clearbody s2. destruct b; [done|..]; destruct H2 as [H2|H2].
  - rewrite (bool_decide_eq_true_2 _ H2). done.
  - rewrite bool_decide_eq_false_2 by by rewrite H2. by apply open_thinking_relaying.
  - rewrite (bool_decide_eq_true_2 _ H2). done.
  - rewrite bool_decide_eq_false_2 by by rewrite H2. by apply open_text_relaying.
Qed.


(** A state that differs where nothing of this looks. *)
Lemma relaying_hist v t r s f : (forall h, same_hist h (f h)) -> relaying v t r s -> relaying v t r (on_hist f s).
Proof using. intros Hf. by apply relaying_same. Qed.
Lemma relaying_meter v t r s f : relaying v t r s -> relaying v t r (on_meter f s).
Proof using. by apply relaying_same. Qed.
Lemma relaying_calls v t r s f : relaying v t r s -> relaying v t r (on_calls f s).
Proof using. by apply relaying_same. Qed.

Lemma in_blocks_last kind i h : last_of kind i (kinds h) -> in_blocks (Z.of_nat i) h = true.
Proof using.
  intros [Hi%lookup_lt_Some _]. unfold kinds in Hi. rewrite length_fmap in Hi. unfold in_blocks.
  apply andb_true_iff. split; [apply Z.leb_le|apply Z.ltb_lt]; lia.
Qed.

(** The open text block, found or opened. *)
Lemma text_block_ready v t r s : relaying v t r s ->
  let '(s', _, i) := if (activeTextSSEIndex (conn s) <? 0)%Z
    then let '(s, sseIdx) := ensureBlock cfg wfail tick BlockText s in let s := lock cfg wfail tick s in (s, sseIdx, activeTextBlockIndex (hist s))
    else (s, activeTextSSEIndex (conn s), activeTextBlockIndex (hist s)) in
  relaying v t r s' /\ activeBlockType (conn s') = BlockText /\ i = activeTextBlockIndex (hist s').
Proof using Hstream.
  intros R. destruct (_ <? 0)%Z eqn:E.
  - destruct (ensure_relaying v t r BlockText s R) as [R1 H1]; [done..|]. destruct (ensureBlock _ _ _ _ _) as [s1 idx].
    cbn [fst] in *. destruct (lock_same s1) as ((_ & _ & _ & _ & C & _) & Hh & _). split_and!; try done; [by apply lock_relaying|congruence].
  - split_and!; try done. apply Z.ltb_ge in E. destruct R as [_ _ _ _ _ R6]. unfold open_ok in R6.
    destruct (activeBlockType (conn s)); [lia|destruct R6; lia|done].
Qed.

Lemma text_delta_relaying v t r d s : relaying v t r s -> relaying (v || nonempty d) (t +:+ d) r (text_delta cfg wfail tick d s).
Proof using Hstream.
  intros R. unfold text_delta. destruct (String.eqb_spec d EmptyString) as [->|Hd]; [by rewrite sapp_nil_r, orb_false_r|].
  cbv zeta. pose proof (lock_relaying v t r s R) as R1. set (s1 := lock cfg wfail tick s) in *. clearbody s1.
  set (s2 := on_hist _ s1). assert (R2 : relaying true t r s2) by (destruct R1 as [? [? ?] ? ? ? ?]; by constructor).
  pose proof (text_block_ready true t r s2 R2) as Hr. clearbody s2.
  destruct (if (activeTextSSEIndex (conn s2) <? 0)%Z then _ else _) as [[s3 idx] i]. destruct Hr as (R3 & H3 & ->).
  rewrite Hstream. unfold writeSSEContentBlockDeltaTextLocked, write_block. rewrite silent_hint.
  set (s4 := if useUpstreamUsage (meter s3) then s3 else _).
  assert (R4 : relaying true t r s4) by (unfold s4; destruct (useUpstreamUsage _); [done|by apply relaying_meter]).
  assert (H4 : activeBlockType (conn s4) = BlockText /\ activeTextBlockIndex (hist s4) = activeTextBlockIndex (hist s3))
    by (unfold s4; by destruct (useUpstreamUsage _)).
  clearbody s4. destruct H4 as [H4 <-]. clear dependent s3. clear dependent s2.
  destruct R4 as [R1' [T RR] R3 R4 R5 R6]. unfold open_ok in R6. rewrite H4 in R6. destruct R6 as [R6 (j & Hj & Hl)].
  set (s5 := on_hist _ s4). assert (Hb : in_blocks (activeTextBlockIndex (hist s4)) (hist s5) = true)
    by (rewrite Hj; by apply (in_blocks_last "text")).
  rewrite Hb. constructor; try done; [|by cbn; f_equal|intros _; exact (R4 eq_refl)|].
  - constructor; [|done]. rewrite Hj. etransitivity; [exact (gather_append "text" _ _ j d Hl)|]. by f_equal.
  - unfold open_ok. cbn. rewrite H4. split; [done|]. by exists j.
Qed.

Lemma late_signature_same sig i h : same_hist h (late_signature sig i h).
Proof using.
  unfold late_signature. destruct (in_blocks i h); [|done]. destruct (thinkingBlockSigAt i h) as [[|? ?]|]; try done.
  assert (kinds (h <| contentBlocks := alter (fun b => mkBlock (b_type b) (Some sig) (b_id b) (b_name b) (b_input b)) (Z.to_nat i)
    (contentBlocks h) |>) = kinds h) as Hk; [|by repeat split].
  unfold kinds. cbn. apply list_eq. intros j. rewrite !list_lookup_fmap. destruct (decide (j = Z.to_nat i)) as [->|Hj].
  - rewrite list_lookup_alter_eq. by destruct (_ !! _).
  - by rewrite list_lookup_alter_ne.
Qed.

(** The open thinking block, found or opened. *)
Lemma thinking_block_ready v t r s : suppressThinking cfg = false -> relaying v t r s ->
  let '(s', _, i) := if (activeThinkingSSEIndex (conn s) <? 0)%Z
    then let '(s, sseIdx) := ensureBlock cfg wfail tick BlockThinking s in let s := lock cfg wfail tick s in (s, sseIdx, activeThinkingBlockIndex (hist s))
    else (s, activeThinkingSSEIndex (conn s), activeThinkingBlockIndex (hist s)) in
  relaying v t r s' /\ activeBlockType (conn s') = BlockThinking /\ i = activeThinkingBlockIndex (hist s').
Proof using Hstream.
  intros Hs R. destruct (_ <? 0)%Z eqn:E.
  - destruct (ensure_relaying v t r BlockThinking s R) as [R1 H1]; [done..|]. destruct (ensureBlock _ _ _ _ _) as [s1 idx].
    cbn [fst] in *. destruct (lock_same s1) as ((_ & _ & _ & _ & C & _) & Hh & _). split_and!; try done; [by apply lock_relaying|congruence].
  - split_and!; try done. apply Z.ltb_ge in E. destruct R as [_ _ _ _ _ R6]. unfold open_ok in R6.
    destruct (activeBlockType (conn s)); [lia|done|destruct R6; lia].
Qed.

Lemma reasoning_start_relaying v t r event s : suppressThinking cfg = false ->
  relaying v t r s -> relaying v t r (reasoning_start cfg wfail tick event s).
Proof using Hstream.
  intros Hs R. unfold reasoning_start. destruct (nonempty _); [|by apply relaying_hist].
  apply ensure_relaying; [|done|done]. apply relaying_hist; [done|]. by apply relaying_hist.
Qed.

Lemma reasoning_delta_relaying v t r event d s : suppressThinking cfg = false ->
  relaying v t r s -> relaying v t (r +:+ d) (reasoning_delta cfg wfail tick event d s).
Proof using Hstream.
  intros Hs R. unfold reasoning_delta. cbv zeta. pose proof (lock_relaying v t r s R) as R1. set (s1 := lock cfg wfail tick s) in *. clearbody s1.
  set (p := if nonempty (pendingThinkingSig (hist s1)) then _ else _).
  assert (Hp : relaying v t r p.1).
  { unfold p. destruct (nonempty _); [done|]. destruct (nonempty _); [|done]. cbn [fst]. apply relaying_hist; [done|]. by apply lock_relaying. }
  destruct p as [s2 sig]. cbn [fst] in Hp. clear dependent s1. clear R s.
  destruct (String.eqb_spec d EmptyString) as [->|Hd].
  { rewrite sapp_nil_r. destruct (nonempty sig); [|done]. destruct (ensure_relaying v t r BlockThinking s2 Hp) as [R1 _]; [done..|].
    destruct (ensureBlock _ _ _ _ _) as [s3 idx]. apply relaying_hist; [intros h; apply late_signature_same|]. by apply lock_relaying. }
  set (s3 := on_hist _ (lock cfg wfail tick s2)).
  assert (R3 : relaying v t r s3) by (apply relaying_hist; [done|]; by apply lock_relaying). clearbody s3.
  set (s4 := if nonempty sig then on_hist _ s3 else s3).
  assert (R4 : relaying v t r s4).
  { unfold s4. destruct (nonempty sig); [|done]. apply relaying_hist; [intros h; apply late_signature_same|done]. }
  assert (H4 : activeThinkingSSEIndex (conn s3) = activeThinkingSSEIndex (conn s4) /\
               activeThinkingBlockIndex (hist s3) = activeThinkingBlockIndex (hist s4)).
  { unfold s4. destruct (nonempty sig); [|done]. split; [done|].
    destruct (late_signature_same sig (activeThinkingBlockIndex (hist s3)) (hist s3)) as (_ & _ & _ & _ & _ & _ & H7). by symmetry. }
  destruct H4 as [-> ->]. clearbody s4. clear dependent s3. clear dependent s2.
  pose proof (thinking_block_ready v t r s4 Hs R4) as Hr.
  destruct (if (activeThinkingSSEIndex (conn s4) <? 0)%Z then _ else _) as [[s5 idx] i]. destruct Hr as (R5 & H5 & ->). clear dependent s4.
  rewrite Hstream. cbn [andb]. unfold writeSSEContentBlockDeltaThinkingLocked, write_block. rewrite silent_hint.
  destruct R5 as [Q1 [T RR] Q3 Q4 Q5 Q6]. unfold open_ok in Q6. rewrite H5 in Q6. destruct Q6 as [Q6 (j & Hj & Hl)].
  assert (Hb : in_blocks (activeThinkingBlockIndex (hist s5)) (hist s5) = true) by (rewrite Hj; by apply (in_blocks_last "thinking")).
  rewrite Hb. constructor; try done.
  - constructor; [done|]. rewrite Hj. etransitivity; [exact (gather_append "thinking" _ _ j d Hl)|]. by f_equal.
  - unfold open_ok. cbn. rewrite H5. split; [done|]. by exists j.
Qed.

Lemma surface_same text s : conn (surface cfg text s) = conn s /\ same_hist (hist s) (hist (surface cfg text s)).
Proof using. unfold surface. by destruct (_ && _). Qed.
Lemma surface_relaying v t r text s : relaying v t r s -> relaying v t r (surface cfg text s).
Proof using. intros R. unfold surface. destruct (_ && _); [by apply relaying_hist|done]. Qed.

Lemma accept_relaying v t r call s : relaying v t r s -> relaying v t r (shouldAcceptToolCall cfg wfail tick call s).1.
Proof using Hstream.
  intros R. unfold shouldAcceptToolCall. cbv zeta. apply lock_relaying in R. set (s1 := lock cfg wfail tick s) in *. clearbody s1.
  assert (forall b text s, relaying v t r s -> relaying v t r (if b : bool then surface cfg text s else s)) as A
    by (intros [] ? ? ?; [by apply surface_relaying|done]).
  assert (forall b text s, relaying v t r s -> relaying v t r (if b : bool then s else surface cfg text s)) as A'
    by (intros [] ? ? ?; [done|by apply surface_relaying]).
  assert (forall s, relaying v t r s -> relaying v t r (count_suppressed s)) as C by (intros; by apply relaying_calls).
  assert (forall b s, relaying v t r s -> relaying v t r (if b : bool then count_suppressed s else s)) as B by (intros [] ? ?; auto).
  assert (forall b s, relaying v t r s -> relaying v t r (if b : bool then s else count_suppressed s)) as B' by (intros [] ? ?; auto).
  match goal with |- context [if disallowToolCalls cfg || _ then (?s5, _) else _] => assert (R5 : relaying v t r s5); [|set (s6 := s5) in *; clearbody s6] end.
  { apply B', B, A, A', A, R. }
  destruct (disallowToolCalls cfg || _); [done|]. destruct (hasNonProjectSandboxToolPath _ _); [by apply surface_relaying, C, lock_relaying|].
  destruct (negb _); [by apply surface_relaying, C, lock_relaying|done].
Qed.

Lemma tool_call_relaying v t r msg s : panicked (conn (tool_call_event cfg wfail tick msg s)) = false ->
  relaying v t r s -> relaying v t r (tool_call_event cfg wfail tick msg s).
Proof using Hstream.
  unfold tool_call_event. destruct (normalizeUpstreamToolCall _ _) as [name input]. cbv zeta. intros Hp R.
  apply lock_relaying in R. set (s1 := lock cfg wfail tick s) in *. clearbody s1.
  destruct (rewriteToolCallToClient _ _ _) as [[name' input']|e]; [|done]. clear Hp.
  destruct (String.eqb _ _); [done|]. destruct (bool_decide _); [done|].
  match goal with |- context [shouldAcceptToolCall _ _ _ ?c s1] => pose proof (accept_relaying v t r c s1 R) as Ha end.
  destruct (shouldAcceptToolCall _ _ _ _ _) as [s2 ok]. cbn [fst] in Ha. destruct ok; cbn [negb]; [|done].
  rewrite Hstream. unfold handleToolCallAfterChecks. apply relaying_calls, lock_relaying. by apply relaying_calls.
Qed.

Lemma usage_relaying v t r usage s : relaying v t r s -> relaying v t r (applyUpstreamUsageTokens cfg wfail tick usage s).
Proof using Hstream.
  intros R. unfold applyUpstreamUsageTokens. destruct usage; [done|]. cbv zeta. destruct (negb _); [done|].
  by apply relaying_meter, lock_relaying.
Qed.

Lemma message_relaying v t r msg s : relaying v t r s -> eventKey msg <> "model.finish" ->
  panicked (conn (handleMessage cfg wfail tick msg s)) = false ->
  relaying (v || nonempty (message_text msg)) (t +:+ message_text msg) (r +:+ message_reasoning cfg msg)
    (handleMessage cfg wfail tick msg s).
Proof using Hstream.
  intros R Hfin. pose proof (r_healthy _ _ _ _ R) as (_ & Hret & _ & Hpan & _). unfold handleMessage, message_text, message_reasoning.
  rewrite Hpan, Hret. cbv zeta. generalize (eventKey msg) Hfin. clear Hfin. intros key Hfin Hp.
  repeat match type of Hp with context [String.eqb key ?k] =>
    destruct (String.eqb_spec key k) as [->|?]; [try congruence|] end;
  repeat match goal with H : ?k <> _ |- context [String.eqb ?k ?k'] => rewrite (proj2 (String.eqb_neq k k') H) end;
  [..|cbn [andb nonempty String.eqb negb]; rewrite !sapp_nil_r, orb_false_r; by destruct (_ && _)];
  match goal with |- context [HasPrefix ?k ?p] =>
    let b := eval vm_compute in (HasPrefix k p) in change (HasPrefix k p) with b in Hp |- * end;
  repeat match goal with |- context [String.eqb ?k ?k'] =>
    is_ground k; let b := eval vm_compute in (String.eqb k k') in change (String.eqb k k') with b in Hp |- * end;
  destruct (suppressThinking cfg) eqn:Hs; cbn [andb negb] in Hp |- *;
  try (change (nonempty EmptyString) with false); rewrite ?sapp_nil_r, ?orb_false_r;
  first [ done | by apply reasoning_start_relaying | by apply reasoning_delta_relaying | by apply text_delta_relaying
        | by apply close_relaying, lock_relaying | by apply (ensure_relaying v t r BlockText s R) | by apply tool_call_relaying
        | by apply usage_relaying | (destruct (nonempty _); [apply relaying_hist; [done|by apply lock_relaying]|done]) ].
Qed.

Definition texts (msgs : list SSEMessage) : string := foldr (fun msg acc => message_text msg +:+ acc) EmptyString msgs.
Definition reasonings (msgs : list SSEMessage) : string := foldr (fun msg acc => message_reasoning cfg msg +:+ acc) EmptyString msgs.

Lemma stuck_run ops s : panicked (conn s) = true -> run cfg wfail tick ops s = s.
Proof using. intros Hp. unfold run. induction ops as [|op ops IH]; [done|]. cbn. unfold step at 2. by rewrite Hp. Qed.

Lemma run_split a b s : panicked (conn (run cfg wfail tick (a ++ b) s)) = false ->
  run cfg wfail tick (a ++ b) s = run cfg wfail tick b (run cfg wfail tick a s) /\ panicked (conn (run cfg wfail tick a s)) = false.
Proof using.
  assert (run cfg wfail tick (a ++ b) s = run cfg wfail tick b (run cfg wfail tick a s)) as E by (unfold run; apply foldl_app).
  rewrite E. intros Hp. split; [done|]. destruct (panicked (conn (run cfg wfail tick a s))) eqn:Hq; [|done].
  rewrite (stuck_run b _ Hq) in Hp. congruence.
Qed.

Lemma run_relaying msgs v t r s : relaying v t r s -> Forall (fun msg => eventKey msg <> "model.finish") msgs ->
  panicked (conn (run cfg wfail tick (map OpMessage msgs) s)) = false ->
  relaying (v || nonempty (texts msgs)) (t +:+ texts msgs) (r +:+ reasonings msgs) (run cfg wfail tick (map OpMessage msgs) s).
Proof using Hstream.
  revert v t r s. induction msgs as [|msg msgs IH]; intros v t r s R Hf Hp.
  { cbn. change (nonempty EmptyString) with false. by rewrite !sapp_nil_r, orb_false_r. }
  apply Forall_cons in Hf as [Hm Hf]. pose proof (r_healthy _ _ _ _ R) as (_ & _ & _ & Hpan & _).
  change (run cfg wfail tick (map OpMessage (msg :: msgs)) s)
    with (run cfg wfail tick (map OpMessage msgs) (step cfg wfail tick (OpMessage msg) s)) in *.
  unfold step in *. rewrite Hpan in *. set (s1 := handleMessage cfg wfail tick msg s) in *.
  destruct (panicked (conn s1)) eqn:Hp1; [rewrite (stuck_run _ s1 Hp1) in Hp; congruence|].
  pose proof (IH _ _ _ s1 (message_relaying v t r msg s R Hm Hp1) Hf Hp) as R'. cbn [texts reasonings foldr] in *.
  fold (texts msgs) (reasonings msgs). rewrite !sapp_assoc in R'.
  replace (v || nonempty (message_text msg +:+ texts msgs)) with (v || nonempty (message_text msg) || nonempty (texts msgs)); [done|].
  rewrite <- orb_assoc. f_equal. by destruct (message_text msg).
Qed.

(** What a finished response keeps. *)
Definition settled (t r : string) (h : Hist) : Prop := holds t r h /\ responseText h = t.

Lemma addOutput_hist text s : hist (addOutputTokens cfg wfail tick text s) = hist s
  /\ same_conn_state (conn s) (conn (addOutputTokens cfg wfail tick text s)).
Proof using Hstream.
  unfold addOutputTokens. destruct (String.eqb _ _); [done|]. destruct (lock_same s) as (Hc & Hh & _). by destruct (useUpstreamUsage _).
Qed.

Lemma emit_conn call s : same_conn_state (conn s) (conn (emitToolCallNonStream cfg wfail tick call s)).
Proof using Hstream.
  unfold emitToolCallNonStream. cbv zeta. destruct (addOutput_hist (call_name call) s) as [_ C1].
  destruct (addOutput_hist (call_input call) (addOutputTokens cfg wfail tick (call_name call) s)) as [_ C2].
  destruct C1 as (?&?&?&?&?&?&?&?&?), C2 as (?&?&?&?&?&?&?&?&?). repeat split; cbn; congruence.
Qed.

Lemma emit_settled t r call s : settled t r (hist s) -> settled t r (hist (emitToolCallNonStream cfg wfail tick call s)).
Proof using Hstream.
  intros [[T R] Hr]. unfold emitToolCallNonStream. cbv zeta.
  destruct (addOutput_hist (call_name call) s) as [H1 _]. set (s1 := addOutputTokens _ _ _ (call_name call) s) in *. clearbody s1.
  destruct (addOutput_hist (call_input call) s1) as [H2 _]. set (s2 := addOutputTokens _ _ _ _ s1) in *. clearbody s2.
  rewrite <- H1, <- H2 in *. split; [|exact Hr].
  match goal with |- holds _ _ ?h' => assert (Hk : kinds h' = kinds (hist s2) ++ ["tool_use"]) by (unfold kinds; cbn; by rewrite fmap_app) end.
  constructor; rewrite Hk; (etransitivity; [apply gather_other; done|done]).
Qed.

Lemma same_conn_trans c1 c2 c3 : same_conn_state c1 c2 -> same_conn_state c2 c3 -> same_conn_state c1 c3.
Proof using. intros (?&?&?&?&?&?&?&?&?) (?&?&?&?&?&?&?&?&?). repeat split; congruence. Qed.

Lemma flush_conn s : same_conn_state (conn s) (conn (flushPendingToolCalls cfg wfail tick s)).
Proof using Hstream.
  unfold flushPendingToolCalls. rewrite Hstream. cbv zeta. destruct (lock_same s) as (C & _ & _).
  set (s1 := lock cfg wfail tick s) in *. set (l := pendingToolCalls (calls s1)). set (s2 := on_calls _ s1).
  change (conn s1) with (conn s2) in C. revert C. clearbody s2 l. clear s1. revert s2.
  induction l as [|call l IH]; intros s2 C; [done|]. apply IH. eapply same_conn_trans; [exact C|apply emit_conn].
Qed.

Lemma flush_settled t r s : settled t r (hist s) -> settled t r (hist (flushPendingToolCalls cfg wfail tick s)).
Proof using Hstream.
  intros Hs. unfold flushPendingToolCalls. rewrite Hstream. cbv zeta. destruct (lock_same s) as (_ & Hh & _).
  set (s1 := lock cfg wfail tick s) in *. rewrite <- Hh in Hs. set (l := pendingToolCalls (calls s1)). set (s2 := on_calls _ s1).
  change (hist s1) with (hist s2) in Hs. revert Hs. clearbody s2 l. clear Hh s1. revert s2.
  induction l as [|call l IH]; intros s2 Hs; [done|]. by apply IH, emit_settled.
Qed.

Lemma empty_fallback_relaying v t r s : relaying v t r s ->
  exists v' t', relaying v' t' r (empty_fallback cfg wfail tick s) /\ (v = true -> t' = t).
Proof using Hstream.
  intros R. unfold empty_fallback, hasVisibleOutput. cbv zeta. pose proof (lock_relaying v t r s R) as R1. set (s1 := lock cfg wfail tick s) in *. clearbody s1.
  match goal with |- context [if ?vis then s1 else _] => destruct vis eqn:Hv end; [by exists v, t|].
  apply orb_false_iff in Hv as [Hv _]. repeat apply orb_false_iff in Hv as [Hv _].
  assert (v = false) as -> by (destruct v; [|done]; rewrite (r_visible _ _ _ _ R1 eq_refl) in Hv; done).
  pose proof (lock_relaying _ t r s1 R1) as R2. set (s2 := lock cfg wfail tick s1) in *. clearbody s2.
  destruct (String.eqb _ _); [by exists false, t|]. pose proof (lock_relaying _ t r s2 R2) as R3. set (s3 := lock cfg wfail tick s2) in *. clearbody s3.
  destruct (returned _); [exists false, t; split; [by apply relaying_meter|done]|].
  eexists _, _. split; [apply text_delta_relaying; by apply relaying_meter|done].
Qed.

(** A response that is over: an error was written, or the body is to be. *)
Definition over (t r : string) (s : St) : Prop :=
  hasReturn (conn s) = true /\ returned (conn s) = true /\ panicked (conn s) = false /\
  (requestFailed (conn s) = true /\ (exists status category message ra, wire (conn s) = [WHTTPError status category message ra])
   \/ requestFailed (conn s) = false /\ wire (conn s) = [] /\ settled t r (hist s)).

Lemma report_over v t r category message ra s : relaying v t r s -> over t r (reportRequestFailure cfg wfail tick category message ra s).
Proof using Hstream.
  intros R. unfold reportRequestFailure. rewrite Hstream. apply lock_relaying in R. set (s1 := lock cfg wfail tick s) in *. clearbody s1.
  destruct (r_healthy _ _ _ _ R) as (H1 & _ & _ & H4 & H5). cbv zeta. rewrite H1. split; [done|]. split; [done|]. split; [exact H4|].
  left. split; [done|]. eexists _, _, _, _. cbn. by rewrite H5.
Qed.

Lemma finish_over v t r reason s : relaying v t r s ->
  exists t', over t' r (finishResponse cfg wfail tick reason s) /\ (v = true -> t' = t).
Proof using Hstream.
  intros R. unfold finishResponse.
  set (p := if String.eqb reason "tool_use" then _ else (s, reason)).
  assert (Rp : relaying v t r p.1) by (unfold p; destruct (String.eqb _ _); [by apply lock_relaying|done]).
  destruct p as [s1 reason']. cbn [fst] in Rp. unfold validateStructuredAnswer. apply lock_relaying in Rp.
  cbv zeta. set (s2 := lock cfg wfail tick s1) in *. clearbody s2.
  match goal with |- context [match ?m with None => _ | Some _ => _ end] => destruct m as [e|] end.
  { exists t. split; [by eapply report_over|done]. }
  destruct (empty_fallback_relaying v t r s2 Rp) as (v' & t' & R3 & Ht). set (s3 := empty_fallback cfg wfail tick s2) in *. clearbody s3.
  apply lock_relaying in R3. set (s4 := lock cfg wfail tick s3) in *. clearbody s4.
  assert (exists o, ensureMessageStartLocked cfg wfail s4 = (s4, o)) as [o ->].
  { unfold ensureMessageStartLocked. destruct (messageStartWritten _); [by eexists|]. rewrite Hstream, orb_true_r. by eexists. }
  rewrite Hstream. cbn [andb]. cbv zeta. apply lock_relaying in R3. set (s5 := lock cfg wfail tick s4) in *. clearbody s5.
  destruct (r_healthy _ _ _ _ R3) as (H1 & _ & H3 & H4 & H5). rewrite H1. exists t'. split; [|done].
  unfold finalizeCompletion, finish_body. rewrite Hstream. cbv zeta.
  set (s6 := on_hist (fun h => h <| finalStopReason := _ |>) _).
  assert (C6 : over t' r s6) by (destruct R3 as [_ [T RR] Hr _ _ _]; repeat (split; [done|]); by right). clearbody s6.
  assert (K : forall s s', same_conn_state (conn s) (conn s') -> (settled t' r (hist s) -> settled t' r (hist s')) -> over t' r s -> over t' r s').
  { intros x x' (C1 & C2 & C3 & C4 & _ & _ & _ & _ & C9) Hs (O1 & O2 & O3 & O4). unfold over. rewrite C1, C2, C3, C4, C9.
    repeat (split; [done|]). destruct O4 as [?|(? & ? & ?)]; [by left|right; auto]. }
  destruct (lock_same (finalizeOutputTokens cfg wfail tick (flushPendingToolCalls cfg wfail tick s6))) as (Cl & Hl & _).
  assert (C8 : over t' r (lock cfg wfail tick (finalizeOutputTokens cfg wfail tick (flushPendingToolCalls cfg wfail tick s6)))).
  { eapply K; [exact Cl|by rewrite Hl|]. unfold finalizeOutputTokens. destruct (lock_same (flushPendingToolCalls cfg wfail tick s6)) as (Cf & Hf & _).
    apply (K (flushPendingToolCalls cfg wfail tick s6)); [by destruct (useUpstreamUsage _)|rewrite <- Hf; by destruct (useUpstreamUsage _)|].
    eapply K; [apply flush_conn|apply flush_settled|exact C6]. }
  destruct (completionLogged _); [exact C8|]. revert C8. apply K; [done|]. by intros [[T RR] Hr].
Qed.

(** A new round starts from nothing. *)
Lemma round_relaying v t r s : relaying v t r s -> relaying false EmptyString EmptyString (step cfg wfail tick OpNextRound s).
Proof using Hstream.
  intros R. pose proof (r_healthy _ _ _ _ R) as (_ & _ & _ & Hpan & _). unfold step, next_round, terminalState. rewrite Hpan. cbv zeta.
  apply lock_relaying in R. set (s1 := lock cfg wfail tick s) in *. clearbody s1. pose proof (r_healthy _ _ _ _ R) as (-> & _).
  apply lock_relaying in R. unfold resetRoundState. cbv zeta. set (s2 := lock cfg wfail tick s1) in *. clearbody s2.
  destruct (close_relaying v t r s2 R) as [[(_ & _ & Hf & Hp & Hw) _ _ _ Hi _] _]. set (s3 := closeActiveBlockLocked cfg wfail s2) in *. clearbody s3.
  by constructor.
Qed.

(** The ways a relay of a response ends by itself. *)
Definition ends (op : Op) : Prop := op = OpForceFinish \/ exists msg, op = OpMessage msg /\ eventKey msg = "model.finish".

Lemma ends_over v t r op s : ends op -> relaying v t r s ->
  exists t', over t' r (step cfg wfail tick op s) /\ (v = true -> t' = t).
Proof using Hstream.
  intros He R. pose proof (r_healthy _ _ _ _ R) as (Hn & Hret & _ & Hpan & _). unfold step. rewrite Hpan.
  destruct He as [->|(msg & -> & Hk)].
  - unfold forceFinishIfMissing. cbv zeta. pose proof (lock_relaying _ t r s R) as R1. set (s1 := lock cfg wfail tick s) in *. clearbody s1.
    pose proof (r_healthy _ _ _ _ R1) as (-> & _). by apply finish_over.
  - unfold handleMessage. rewrite Hpan, Hret, Hk. cbv zeta.
    change (HasPrefix "model.finish" "model.reasoning-") with false. rewrite andb_false_r. cbn [String.eqb Ascii.eqb Bool.eqb].
    unfold finish_event. cbv zeta.
    match goal with |- context [lock cfg wfail tick ?x] => assert (R1 : relaying v t r x) end.
    { destruct (obj_field _ _); [by apply usage_relaying|done]. }
    apply lock_relaying in R1. set (s1 := lock cfg wfail tick _) in *. clearbody s1.
    apply finish_over. by apply close_relaying, lock_relaying.
Qed.
(** ** A panic is never forgotten *)
Lemma lock_panicked s : panicked (conn (lock cfg wfail tick s)) = panicked (conn s).
Proof using Hstream. by destruct (lock_same s) as ((_ & _ & _ & C & _) & _). Qed.
Lemma close_panicked s : panicked (conn (closeActiveBlockLocked cfg wfail s)) = panicked (conn s).
Proof using Hstream.
  unfold closeActiveBlockLocked, popActiveBlockStopDataLocked. destruct (activeBlockType (conn s)); [done|..]; by rewrite silent_locked.
Qed.

Lemma ensure_panicked b s : panicked (conn (ensureBlock cfg wfail tick b s).1) = panicked (conn s).
Proof using Hstream.
  unfold ensureBlock. destruct (_ && _); [done|]. cbv zeta. transitivity (panicked (conn (lock cfg wfail tick s))); [|apply lock_panicked]. set (s1 := lock cfg wfail tick s). clearbody s1.
  set (s2 := if negb _ && _ then _ else s1).
  transitivity (panicked (conn s2)); [|unfold s2; destruct (negb _ && _); [apply close_panicked|done]]. clearbody s2.
  destruct b; [done|..]; destruct (bool_decide _); try done.
  - unfold open_thinking. cbv zeta. cbn [fst]. by rewrite silent_hint.
  - unfold open_text, writeSSEContentBlockStartTextLocked, write_block. cbv zeta. cbn [fst]. by rewrite silent_hint.
Qed.

Lemma text_panicked d s : panicked (conn (text_delta cfg wfail tick d s)) = panicked (conn s).
Proof using Hstream.
  unfold text_delta. destruct (String.eqb _ _); [done|]. cbv zeta. transitivity (panicked (conn (lock cfg wfail tick s))); [|apply lock_panicked]. set (s1 := lock cfg wfail tick s). clearbody s1.
  change (panicked (conn s1)) with (panicked (conn (on_hist (fun h => h <| hasTextOutput := true |>) s1))).
  set (s2 := on_hist _ s1). clearbody s2.
  set (p := if (activeTextSSEIndex (conn s2) <? 0)%Z then _ else _).
  transitivity (panicked (conn p.1.1)).
  2:{ unfold p. destruct (_ <? 0)%Z; [|done]. pose proof (ensure_panicked BlockText s2) as E. destruct (ensureBlock _ _ _ _ _) as [s3 idx].
    cbn [fst] in *. by rewrite lock_panicked. }
  destruct p as [[s3 idx] i]. cbn [fst]. rewrite Hstream. unfold writeSSEContentBlockDeltaTextLocked, write_block. rewrite silent_hint.
  by destruct (useUpstreamUsage _), (in_blocks _ _).
Qed.

Lemma report_panicked category message ra s :
  panicked (conn (reportRequestFailure cfg wfail tick category message ra s)) = panicked (conn s).
Proof using Hstream. unfold reportRequestFailure. rewrite Hstream. cbv zeta. transitivity (panicked (conn (lock cfg wfail tick s))); [|apply lock_panicked]. by destruct (hasReturn _). Qed.

Lemma finish_panicked reason s : panicked (conn s) = true -> panicked (conn (finishResponse cfg wfail tick reason s)) = true.
Proof using Hstream.
  intros Hp. unfold finishResponse. set (p := if String.eqb reason "tool_use" then _ else (s, reason)).
  assert (panicked (conn p.1) = true) as Hp1 by (unfold p; destruct (String.eqb _ _); cbn [fst]; [by rewrite lock_panicked|done]).
  destruct p as [s1 reason']. cbn [fst] in Hp1. unfold validateStructuredAnswer. cbv zeta. rewrite <- lock_panicked in Hp1.
  set (s2 := lock cfg wfail tick s1) in *. clearbody s2.
  match goal with |- context [match ?m with None => _ | Some _ => _ end] => destruct m as [e|] end; [by rewrite report_panicked|].
  assert (panicked (conn (empty_fallback cfg wfail tick s2)) = true) as Hp3.
  { unfold empty_fallback, hasVisibleOutput. cbv zeta. destruct (_ || _); [by rewrite lock_panicked|].
    destruct (String.eqb _ _); [by rewrite !lock_panicked|]. destruct (returned _); [|rewrite text_panicked];
    match goal with |- panicked (conn (on_meter ?f ?x)) = _ => change (panicked (conn x) = true) end; by rewrite !lock_panicked. }
  set (s3 := empty_fallback cfg wfail tick s2) in *. clearbody s3. rewrite <- lock_panicked in Hp3. set (s4 := lock cfg wfail tick s3) in *. clearbody s4.
  assert (exists o, ensureMessageStartLocked cfg wfail s4 = (s4, o)) as [o ->].
  { unfold ensureMessageStartLocked. destruct (messageStartWritten _); [by eexists|]. rewrite Hstream, orb_true_r. by eexists. }
  rewrite Hstream. cbn [andb]. cbv zeta. rewrite <- lock_panicked in Hp3. set (s5 := lock cfg wfail tick s4) in *. clearbody s5.
  destruct (hasReturn (conn s5)); [done|]. unfold finalizeCompletion, finish_body. rewrite Hstream. cbv zeta.
  set (s6 := on_hist (fun h => h <| finalStopReason := _ |>) _). assert (panicked (conn s6) = true) as Hp6 by done. clearbody s6.
  assert (panicked (conn (lock cfg wfail tick (finalizeOutputTokens cfg wfail tick (flushPendingToolCalls cfg wfail tick s6)))) = true) as Hp8.
  { rewrite lock_panicked. unfold finalizeOutputTokens. destruct (flush_conn s6) as (_ & _ & _ & C & _).
    destruct (useUpstreamUsage _); [|match goal with |- panicked (conn (on_meter ?f ?x)) = _ => change (panicked (conn x) = true) end];
      by rewrite lock_panicked, C. }
  destruct (completionLogged _); exact Hp8.
Qed.

(** ** The states of a request that is no stream *)
Definition single (s : St) : Prop :=
  panicked (conn s) = true \/ (exists v t r, relaying v t r s) \/ (exists t r, over t r s).

Lemma over_locked t r s s' : same_conn_state (conn s) (conn s') -> hist s' = hist s -> over t r s -> over t r s'.
Proof using. intros (C1 & C2 & C3 & C4 & _ & _ & _ & _ & C9) Hh. unfold over. by rewrite C1, C2, C3, C4, C9, Hh. Qed.

Lemma lock_over t r s : over t r s -> over t r (lock cfg wfail tick s).
Proof using Hstream. destruct (lock_same s) as (C & Hh & _). by apply over_locked. Qed.

Lemma single_lock s : single s -> single (lock cfg wfail tick s).
Proof using Hstream.
  intros [Hp|[(v & t & r & R)|(t & r & O)]]; [left; by rewrite lock_panicked|right; left|right; right].
  - eexists _, _, _. by apply lock_relaying.
  - eexists _, _. by apply lock_over.
Qed.

Lemma single_message msg s : single s -> single (step cfg wfail tick (OpMessage msg) s).
Proof using Hstream.
  intros [Hp|[(v & t & r & R)|(t & r & O)]].
  - left. unfold step. by rewrite Hp.
  - destruct (decide (eventKey msg = "model.finish")) as [Hk|Hk].
    + destruct (ends_over v t r (OpMessage msg) s) as (t' & O & _); [right; eauto|done|]. right; right. eauto.
    + destruct (panicked (conn (step cfg wfail tick (OpMessage msg) s))) eqn:Hq; [by left|]. right; left.
      pose proof (r_healthy _ _ _ _ R) as (_ & _ & _ & Hpan & _). unfold step in *. rewrite Hpan in *.
      eexists _, _, _. by apply message_relaying.
  - right; right. exists t, r. destruct O as (O1 & O2 & O3 & O4). unfold step, handleMessage. rewrite O3, O2. done.
Qed.

Lemma single_report category message ra s : single s -> single (reportRequestFailure cfg wfail tick category message ra s).
Proof using Hstream.
  intros [Hp|[(v & t & r & R)|(t & r & O)]]; [left; by rewrite report_panicked|right; right..].
  - eexists _, _. by eapply report_over.
  - exists t, r. unfold reportRequestFailure. rewrite Hstream. cbv zeta. apply lock_over in O. destruct O as (O1 & O). rewrite O1. by split.
Qed.

Lemma over_finish t r reason s : over t r s -> over t r (finishResponse cfg wfail tick reason s).
Proof using Hstream.
  intros O. unfold finishResponse. set (p := if String.eqb reason "tool_use" then _ else (s, reason)).
  assert (over t r p.1) as O1 by (unfold p; destruct (String.eqb _ _); [by apply lock_over|done]).
  destruct p as [s1 reason']. cbn [fst] in O1. unfold validateStructuredAnswer. cbv zeta. apply lock_over in O1.
  set (s2 := lock cfg wfail tick s1) in *. clearbody s2.
  match goal with |- context [match ?m with None => _ | Some _ => _ end] => destruct m as [e|] end.
  { unfold reportRequestFailure. rewrite Hstream. cbv zeta. apply lock_over in O1. destruct O1 as (H1 & O1). rewrite H1. by split. }
  assert (over t r (empty_fallback cfg wfail tick s2)) as O3.
  { unfold empty_fallback, hasVisibleOutput. cbv zeta. destruct (_ || _); [by apply lock_over|].
    destruct (String.eqb _ _); [by do 2 apply lock_over|]. do 3 apply lock_over in O1.
    match goal with |- context [returned ?c] => replace (returned c) with true by (symmetry; exact (proj1 (proj2 O1))) end. exact O1. }
  set (s3 := empty_fallback cfg wfail tick s2) in *. clearbody s3. apply lock_over in O3. set (s4 := lock cfg wfail tick s3) in *. clearbody s4.
  assert (exists o, ensureMessageStartLocked cfg wfail s4 = (s4, o)) as [o ->].
  { unfold ensureMessageStartLocked. destruct (messageStartWritten _); [by eexists|]. rewrite Hstream, orb_true_r. by eexists. }
  rewrite Hstream. cbn [andb]. cbv zeta. apply lock_over in O3. pose proof O3 as (-> & _). exact O3.
Qed.

Lemma single_finish reason s : single s -> single (finishResponse cfg wfail tick reason s).
Proof using Hstream.
  intros [Hp|[(v & t & r & R)|(t & r & O)]]; [left; by apply finish_panicked|right; right..].
  - destruct (finish_over v t r reason s R) as (t' & O & _). eauto.
  - exists t, r. by apply over_finish.
Qed.

Lemma single_force s : single s -> single (forceFinishIfMissing cfg wfail tick s).
Proof using Hstream.
  intros I%single_lock. unfold forceFinishIfMissing. cbv zeta. destruct (hasReturn _); [done|by apply single_finish].
Qed.

Lemma single_round s : single s -> single (next_round cfg wfail tick s).
Proof using All.
  intros [Hp|[(v & t & r & R)|(t & r & O)]].
  - left. unfold next_round, terminalState. cbv zeta. destruct (hasReturn _); [by rewrite lock_panicked|].
    unfold resetRoundState. cbv zeta. match goal with |- context [closeActiveBlockLocked _ _ ?x] => pose proof (close_panicked x) as E end.
    rewrite !lock_panicked, Hp in E. exact E.
  - right; left. pose proof (round_relaying v t r s R) as R1. unfold step in R1.
    pose proof (r_healthy _ _ _ _ R) as (_ & _ & _ & Hpan & _). rewrite Hpan in R1. eauto.
  - right; right. exists t, r. unfold next_round, terminalState. cbv zeta. apply lock_over in O. pose proof O as (-> & _). exact O.
Qed.

Lemma single_run msgs s : single s -> single (run cfg wfail tick (map OpMessage msgs) s).
Proof using All.
  unfold run. revert s. induction msgs as [|msg msgs IH]; intros s I; [done|]. by apply IH, single_message.
Qed.
End NonStream.

(** ** What the body says *)
Lemma kind_materialize h i b : block_kind (materialize h i b) = b_type b.
Proof.
  assert (forall fs, block_kind (("type", JStr (b_type b)) :: fs) = b_type b) as Hk by done.
  assert (forall key slots, key <> "type" -> block_kind (materializeBlockField (block_map b) key slots i) = b_type b) as Hm.
  { intros key slots Hn. unfold materializeBlockField, block_map, set_field, del_field. cbn [List.filter fst].
    rewrite (proj2 (String.eqb_neq key "type") Hn). cbn [negb app].
    destruct (builderAt slots i); [apply Hk|]. destruct (field key _); apply Hk. }
  unfold materialize. change (block_kind (block_map b)) with (b_type b).
  destruct (String.eqb _ "text"); [by apply Hm|]. destruct (String.eqb _ "thinking"); [by apply Hm|apply Hk].
Qed.

(** The text of a materialised block, where it is read. *)
Lemma materialized_field h i b key slots : b_type b = key -> existsb (String.eqb key) ["text"; "thinking"] = true ->
  slots = (if String.eqb key "text" then textBlockBuilders h else thinkingBlockBuilders h) ->
  str_at key (materialize h i b) = Some (default EmptyString (builderAt slots i)).
Proof.
  intros Hb Hk ->. unfold materialize. change (block_kind (block_map b)) with (b_type b). unfold block_map, materializeBlockField. rewrite Hb.
  cbn in Hk. destruct (String.eqb_spec key "text") as [->|Hn]; [|destruct (String.eqb_spec key "thinking") as [->|]; [|done]];
    cbn; destruct (b_signature b); cbn; destruct (builderAt _ i); reflexivity.
Qed.

Lemma imap_parts (f : nat -> list (string * json) -> string) h kind slots :
  (forall i b, contentBlocks h !! i = Some b -> f i (materialize h i b) = words kind slots i (b_type b)) ->
  String.concat EmptyString (imap f (imap (materialize h) (contentBlocks h))) = gather kind slots (kinds h).
Proof.
  intros H. unfold gather. f_equal. apply list_eq. intros i. rewrite !list_lookup_imap. unfold kinds. rewrite list_lookup_fmap.
  destruct (contentBlocks h !! i) as [b|] eqn:E; cbn; [|done]. f_equal. by apply H.
Qed.

Lemma part_words kind h i b : existsb (String.eqb kind) ["text"; "thinking"] = true ->
  let slots := if String.eqb kind "text" then textBlockBuilders h else thinkingBlockBuilders h in
  part kind kind slots i (materialize h i b) = words kind slots i (b_type b).
Proof.
  intros Hk. cbn zeta. unfold part, words. rewrite kind_materialize. destruct (String.eqb_spec (b_type b) kind) as [E|]; [|done].
  rewrite (materialized_field h i b kind _ E Hk eq_refl). by destruct (builderAt _ i) as [[|? ?]|].
Qed.

Lemma answer_blocks_settled t r h : settled t r h -> answer_blocks h = imap (materialize h) (contentBlocks h).
Proof.
  intros [[T _] Hr]. unfold answer_blocks. destruct (contentBlocks h) as [|b l] eqn:E; [|done]. cbn.
  unfold kinds in T. rewrite E in T. cbn in T. subst t. by rewrite Hr.
Qed.

Lemma openai_parts t r h : settled t r h ->
  String.concat EmptyString (imap (part "text" "text" (textBlockBuilders h)) (answer_blocks h)) = t
  /\ String.concat EmptyString (imap (part "thinking" "thinking" (thinkingBlockBuilders h)) (answer_blocks h)) = r.
Proof.
  intros Hs. rewrite (answer_blocks_settled _ _ _ Hs). destruct Hs as [[<- <-] _].
  split; apply imap_parts; intros i b _; by apply part_words.
Qed.

Lemma texts_at_imap kind key h :
  texts_at kind key (JObj <$> imap (materialize h) (contentBlocks h))
  = String.concat EmptyString (imap (fun _ fs => if String.eqb (block_kind fs) kind then default EmptyString (str_at key fs) else EmptyString)
      (imap (materialize h) (contentBlocks h))).
Proof. unfold texts_at. f_equal. apply list_eq. intros i. rewrite !list_lookup_fmap, !list_lookup_imap. by destruct (contentBlocks h !! i). Qed.

Lemma anthropic_parts t r h : settled t r h ->
  texts_at "text" "text" (JObj <$> answer_blocks h) = t /\ texts_at "thinking" "thinking" (JObj <$> answer_blocks h) = r.
Proof.
  intros Hs. rewrite (answer_blocks_settled _ _ _ Hs). destruct Hs as [[<- <-] _]. rewrite !texts_at_imap.
  split; apply imap_parts; intros i b _; unfold words; rewrite kind_materialize.
  - destruct (String.eqb_spec (b_type b) "text") as [E|]; [|done]. by rewrite (materialized_field h i b _ _ E eq_refl eq_refl).
  - destruct (String.eqb_spec (b_type b) "thinking") as [E|]; [|done]. by rewrite (materialized_field h i b _ _ E eq_refl eq_refl).
Qed.

Lemma body_says cfg model t r s v : settled t r (hist s) -> response_body cfg model s = Some v ->
  (answer_text (openAI cfg) v = t \/ blank t = true /\ answer_text (openAI cfg) v = EmptyString)
  /\ answer_reasoning (openAI cfg) v = r.
Proof.
  intros Hs. unfold response_body. destruct (_ || _); [done|]. intros [= <-]. destruct (openAI cfg).
  - destruct (openai_parts _ _ _ Hs) as [Ht Hr]. unfold answer_text, answer_reasoning, buildOpenAINonStreamResponse. cbn -[openai_message].
    unfold openai_message. rewrite Ht, Hr. unfold content_at. cbn. split.
    + destruct (blank t && _) eqn:Hb; [right|by left]. apply andb_true_iff in Hb as [Hb _]. done.
    + unfold text_field. destruct r as [|a r]; cbn; by destruct (omap _ _).
  - destruct (anthropic_parts _ _ _ Hs) as [Ht Hr]. split; [left; exact Ht|exact Hr].
Qed.

(** * Theorems *)


(** A conversation with a tool call between two parts of the text, after a round that
    was given up. *)
#[local] Existing Instance print_all.
Definition body_cfg (openai : bool) : Cfg := mkCfg false false openai true "msg_1" 0 "m" false false ∅ [] None.
Definition body_of (openai : bool) : option json :=
  response_body (body_cfg openai) "m" (run (body_cfg openai) (fun _ => false) (fun _ => 1%nat)
    (map OpMessage [says "text-delta" "I can"] ++ OpNextRound :: map OpMessage conversation ++ [OpForceFinish])
    (setUsageTokens 3 (-1) (setEmptyOutputFallback "" newStreamHandler))).


Example body_text : answer_text true <$> body_of true = Some "Hello" /\ answer_text false <$> body_of false = Some "Hello".
Proof. by vm_compute. Qed.
