(* ===== verification/Gateway.v ===== *)
(** * A request through the gateway (src/internal/handler/handler.go, HandleMessages)

    What stands before the retry loop: reading the request, the guards that refuse it,
    the answers the gateway gives itself, the model and the channel, the protocol
    controls, the tool gate, and what the relay and the upstream are given; then the
    whole request, with the body of a response that is no stream. *)

From stdpp Require Import base numbers list strings gmap.
From S2P Require Import Prelude GoLib Json Marshal Channel Errors Account Tokens Tools SseFrame LoadBalancer Models PublicModels Prompt Structured Requests Commands Stream NonStream Selection Retry.

Local Open Scope orchids_scope.

(** ** The request as it arrives *)
Record Incoming := mkIncoming {
  i_post : bool;
  i_path : string;
  i_header : string -> string;
  i_bytes : option string;                (* [None]: reading the body failed *)
  i_allowed : option (list string);       (* the models of the managed key *)
  i_requestID : string;
  i_traceID : string;
  i_flusher : bool;                       (* the writer has a Flush method *)
  i_flushable : bool;                     (* responseWriterSupportsFlush *)
}.

(** The settings of the configuration snapshot that are read here. *)
Record Settings := mkSettings { CacheStrategy : string; SuppressThinking : bool }.

Definition maxRequestBytes : Z := 50 * 1024 * 1024.

Definition invalid (message : string) (status : Z) : AppError := New "invalid_request_error" message status.

Definition read_request (bytes : option string) : result ClaudeRequest AppError :=
  match bytes with
  | None => Err (invalid "Invalid request body" 400)
  | Some text =>
      if (maxRequestBytes <? Z.of_nat (String.length text))%Z then Err (invalid "Request body too large" 413)
      else match Unmarshal text ≫= (fun v => as_struct decode_request (Some v)) with
           | Some r => Ok r
           | None => Err (invalid "Invalid request body" 400)
           end
  end.

(** ** The request that is forwarded *)
Record Forward := mkForward {
  fw_request : ClaudeRequest;
  fw_forced : string;                     (* the channel the path names *)
  fw_channel : string;
  fw_effort : string;
  fw_schema : option Schema;
  fw_gate : option string;                (* tools are off, and why *)
}.

Inductive Prepared :=
  | Refused (e : AppError)
  | RefusedControls (e : protocol_error)  (* 400, the text of the error *)
  | Answered (a : LocalAnswer)
  | Forwarded (f : Forward).

Definition controls_of (r : ClaudeRequest) : Controls :=
  mkControls (ResponseFormat r) (ResponseText r) (Include r) (PromptCacheKey r) (ResponsesTools r).

(** The Anthropic output format as the text format of a response. *)
Definition lower_output_format (r : ClaudeRequest) : ClaudeRequest :=
  match OutputConfig r with
  | Some config =>
      match field "format" config with
      | Some (JObj format) =>
          if bool_decide (ResponseFormat r = []) && bool_decide (ResponseText r = [])
          then r <| ResponseText := [("format", JObj format)] |> else r
      | _ => r
      end
  | None => r
  end.

Definition tool_gate (r : ClaudeRequest) (channel : string) : option string :=
  if toolChoiceDisablesTools (ToolChoice r) || (lastUserIsToolResultFollowup (Messages r) && empty channel)
  then Some (buildToolGateMessage (Messages r)) else None.

Section Gateway.
Context `{TextClasses} (split_words : string -> option (list string)) (store : option Lookups).
Context (settings : Settings) (msg_id : string) (now_unix : Z).

Definition writer_for (i : Incoming) : Answering := mkAnswering msg_id now_unix (DetectOpenAI (i_path i)) (i_flusher i).

(** The kinds of request that are answered before the model is looked at. *)
Definition early_answer (r : ClaudeRequest) : option string :=
  match isCommandPrefixRequest r with
  | Some command => Some (command_answer (detectCommandPrefix split_words command))
  | None =>
      if isTopicClassifierRequest r then Some (topic_answer r)
      else if isTitleGenerationRequest r then Some (title_answer r)
      else None
  end.

Definition cached (r : ClaudeRequest) : ClaudeRequest :=
  let strategy := CacheStrategy settings in
  if negb (empty strategy) && negb (String.eqb strategy "none") then applyCacheStrategy strategy r else r.

Definition target_channel (forced : string) (row : option Models.Model) : string :=
  let forced := TrimSpace forced in
  if empty forced then match row with Some m => TrimSpace (Models.Channel m) | None => EmptyString end else forced.

(** What is done with a request for a known model of a channel. *)
Definition assemble (r : ClaudeRequest) (forced channel effort : string) : Prepared :=
  let passthrough := passthroughChannelName channel in
  let r := lower_output_format r in
  if negb (bool_decide (MCPServers r = [])) then Refused (invalid "MCP servers require a native Responses provider" 400)
  else match ValidateProtocolControls passthrough (controls_of r) with
       | Some e => RefusedControls e
       | None => Forwarded (mkForward r forced channel effort (NewStructuredOutput (controls_of r)) (tool_gate r passthrough))
       end.

Definition prepare (i : Incoming) : Prepared :=
  if negb (i_post i) then Refused (invalid "Method not allowed" 405)
  else match read_request (i_bytes i) with
       | Err e => Refused e
       | Ok r =>
           if negb (APIKeyAllowsModel (i_allowed i) (Prompt.Model r))
           then Refused (New "permission_error" ("API key is not allowed to use model " +:+ TrimSpace (Prompt.Model r)) 403)
           else match early_answer r with
                | Some text => Answered (writeLocalTextResponse (writer_for i) r text)
                | None =>
                    let r := cached r in
                    let forced := channelFromPath (i_path i) in
                    let effort := requested_effort r forced in
                    let '(model, row) := resolve_request store r forced in
                    let r := r <| Prompt.Model := model |> in
                    match row with
                    | Err e => Refused (invalid e 400)
                    | Ok row =>
                        if isSuggestionMode (Messages r) then Answered (writeLocalTextResponse (writer_for i) r (buildLocalSuggestion (Messages r)))
                        else assemble r forced (target_channel forced row) effort
                    end
                end
       end.

(** ** What the relay and the upstream are given *)
Definition effectiveTools (f : Forward) : list json :=
  match fw_gate f with Some _ => [] | None => Prompt.Tools (fw_request f) end.
Definition preSelectChannel (f : Forward) : string := passthroughChannelName (fw_channel f).

(** The selected account confirms the channel the request was taken for. *)
Definition passthroughChannel (f : Forward) (account : option Account) : string :=
  let guessed := preSelectChannel f in
  let actual := match account with Some a => passthroughChannelName (AccountType a) | None => EmptyString end in
  default EmptyString (find (fun name => String.eqb guessed name || String.eqb actual name) ["workbuddy"; "qoder"; "cline"]).

Definition model_for (f : Forward) (account : option Account) : string :=
  let model := Prompt.Model (fw_request f) in
  if empty (passthroughChannel f account) then mapModel model else TrimSpace model.

Definition prompt_for (f : Forward) (account : option Account) : string :=
  let text := TrimSpace (extractUserText (Messages (fw_request f))) in
  let built := if empty text then TrimSpace (passthroughChannel f account +:+ " request") else text in
  match fw_gate f with Some message => injectToolGate built message | None => built end.

Section Relay.
Context (ReadFile : string -> option string) (error_text : answer_error -> string).

Definition relay_cfg (i : Incoming) (f : Forward) : Cfg :=
  let r := fw_request f in
  let cfg := mkCfg (IsStream r) (SuppressThinking settings) (DetectOpenAI (i_path i)) (i_flusher i) msg_id now_unix
               (Prompt.Model r) false false ∅ [] None in
  let cfg := setAllowedToolNames (declaredToolNames (effectiveTools f)) cfg in
  let cfg := if String.eqb (preSelectChannel f) "qoder" then setSurfaceToolRejects true cfg else cfg in
  let cfg := match Prompt.Tools r with [] => cfg | tools => setClientTools tools cfg end in
  let cfg := setDisallowToolCalls (match fw_gate f with Some _ => true | None => false end) cfg in
  setStructuredOutput (Some (fun text => error_text <$> Validate (fw_schema f) text)) cfg.

Definition relay_state (f : Forward) (account : option Account) : St :=
  let breakdown := estimateInputTokenBreakdown (prompt_for f account) (effectiveTools f) in
  setUsageTokens (Total breakdown) (-1)
    (setEmptyOutputFallback (successfulFileMutationToolResultFallback ReadFile (Messages (fw_request f))) newStreamHandler).

Record UpstreamRequest := mkUpstream {
  u_Prompt : string;
  u_Model : string;
  u_Messages : list Message;
  u_System : list SystemItem;
  u_Tools : list json;
  u_ToolChoice : json;
  u_ParallelToolCalls : option bool;
  u_NoTools : bool;
  u_MaxTokens : option Z;
  u_Temperature : option float64;
  u_TopP : option float64;
  u_Stop : option (list string);
  u_ReasoningEffort : string;
  u_Controls : Controls;
  u_RequestID : string;
  u_ConversationID : string;
  u_TraceID : string;
}.

Definition upstream_request (i : Incoming) (f : Forward) (account : option Account) : UpstreamRequest :=
  let r := fw_request f in
  mkUpstream (prompt_for f account) (model_for f account) (Messages r) (PrependSystemHint (System r) (SystemHint (fw_schema f)))
    (effectiveTools f) (ToolChoice r) (ParallelToolCalls r) (match fw_gate f with Some _ => true | None => false end)
    (outputTokenLimit r) (Temperature r) (TopP r) (stopSequences r) (fw_effort f) (controls_of r)
    (workBuddyConversationRequestID (i_header i) (i_requestID i)) (explicitConversationID (i_header i) r) (i_traceID i).

(** ** The whole request *)
Section Whole.
Context {S : Type} `{AccountStoreOps S} `{ModelRows S} `{UnicodeTable}.
Context (wfail : nat -> bool) (tick : nat -> nat) (h : Handler) (env : Env (S := S)) (pool : nat).

Inductive Response :=
  | Direct (p : Prepared)                                     (* answered before an account was asked for *)
  | Relayed (s : Req (S := S)) (body : option json).

Definition request_for (i : Incoming) (f : Forward) (account : option Account) : Request :=
  mkRequest (fw_channel f) (negb (empty (fw_forced f))) (Prompt.Model (fw_request f)) (model_for f account) (i_flushable i).

(** The account the first selection of the request finds: nothing the relay is given
    takes part in it. *)
Definition first_account (i : Incoming) (f : Forward) (w : World S) : option Account :=
  match acquireReservedAccountSelection h (request_for i f None) env pool (TrimSpace (Prompt.Model (fw_request f))) (start newStreamHandler w) with
  | (s, Ok (_, Some p, _, _)) => Some (account_at s p)
  | _ => None
  end.

Definition HandleRequest (i : Incoming) (w : World S) : Response :=
  match prepare i with
  | Forwarded f =>
      let account := first_account i f w in
      let cfg := relay_cfg i f in
      let s := HandleMessages cfg wfail tick h (request_for i f account) env pool (relay_state f account) w in
      let c := conn (sh s) in
      Relayed s (if hasReturn c && negb (panicked c) then response_body cfg (Prompt.Model (fw_request f)) (sh s) else None)
  | p => Direct p
  end.
End Whole.
End Relay.
End Gateway.

(** * Lemmas

    ** The relay of a request that is no stream *)
Section Single.
Context {S : Type} `{AccountStoreOps S} `{ModelRows S} `{UnicodeTable}.
Context (cfg : Cfg) (wfail : nat -> bool) (tick : nat -> nat) (h : Handler) (env : Env (S := S)) (pool : nat).
Hypothesis Hstream : isStream cfg = false.

Lemma single_kept : keeps_relay cfg wfail tick single.
Proof using Hstream.
  constructor; intros.
  - by apply single_lock.
  - by apply single_run.
  - by apply single_round.
  - by apply single_report.
  - by apply single_finish.
  - by apply single_force.
Qed.

(** A response that is no stream ends with one error written and no body, or with
    nothing written and a body. *)
Definition answered_once (s : St) (body : option json) : Prop :=
  panicked (conn s) = true
  \/ (exists status category message ra, wire (conn s) = [WHTTPError status category message ra]) /\ body = None
  \/ wire (conn s) = [] /\ is_Some body.

Lemma over_answered t r model s : over t r s -> answered_once s (response_body cfg model s).
Proof using Hstream.
  intros (_ & _ & _ & [[Hq (st & c & m & ra & Hw)]|(Hq & Hw & _)]); right; [left|right]; unfold response_body; rewrite Hstream, Hq;
    [split; [by eexists _, _, _, _|done]|by split].
Qed.

Lemma single_answered req sh0 w model : (exists v t r, relaying v t r sh0) ->
  let s := HandleMessages cfg wfail tick h req env pool sh0 w in
  let c := conn (sh s) in
  answered_once (sh s) (if hasReturn c && negb (panicked c) then response_body cfg model (sh s) else None).
Proof using Hstream.
  intros R0. cbv zeta.
  destruct (request_relay cfg wfail tick h req env pool _ single_kept sh0 w (or_intror (or_introl R0))) as [[out ->]|[[Hx _]|(x & Ix & -> & Hx)]].
  - destruct R0 as (v & t & r & R0). destruct (r_healthy _ _ _ _ R0) as (Q1 & _ & _ & _ & Q5). right; left. split.
    + eexists _, _, _, _. cbn. by rewrite Q5.
    + change (hasReturn (conn (writePoolExhaustion out sh0))) with (hasReturn (conn sh0)). by rewrite Q1.
  - by rewrite Hstream in Hx.
  - destruct (recovered_panicked cfg wfail x) as [Hp Heq]. destruct (panicked (conn x)) eqn:Hpx; [left; by rewrite Hp|].
    rewrite (Heq eq_refl), Hpx. cbn [negb]. rewrite andb_true_r.
    assert (hasReturn (conn x) = true /\ exists t r, over t r x) as (Hr & t & r & O).
    { destruct Hx as [?|[Hr|(y & Iy & Hy & ->)]]; [congruence| |].
      - split; [done|]. destruct Ix as [?|[(v & t & r & R)|O]]; [congruence| |done]. destruct (r_healthy _ _ _ _ R). congruence.
      - destruct Iy as [Hpy|[(v & t & r & R)|(t & r & O)]]; [rewrite finish_panicked in Hpx; [congruence|done|done]| |].
        + destruct (finish_over cfg wfail tick Hstream v t r "end_turn" y R) as (t' & O & _). split; [apply O|eauto].
        + destruct O. congruence. }
    rewrite Hr. by eapply over_answered.
Qed.
End Single.

Section Theorems.
Context `{TextClasses} (split_words : string -> option (list string)) (store : option Lookups).
Context (settings : Settings) (msg_id : string) (now_unix : Z).
Context (ReadFile : string -> option string) (error_text : answer_error -> string).
Context {S : Type} `{AccountStoreOps S} `{ModelRows S} `{UnicodeTable}.
Context (wfail : nat -> bool) (tick : nat -> nat) (h : Handler) (env : Env (S := S)) (pool : nat).
#[local] Notation handle := (HandleRequest split_words store settings msg_id now_unix ReadFile error_text wfail tick h env pool).

Lemma relay_cfg_stream i f : isStream (relay_cfg settings msg_id now_unix error_text i f) = IsStream (fw_request f)
  /\ openAI (relay_cfg settings msg_id now_unix error_text i f) = DetectOpenAI (i_path i).
Proof using. unfold relay_cfg. by destruct (String.eqb _ _), (Prompt.Tools (fw_request f)). Qed.

(** What a request that is forwarded has passed. *)
Record admitted (i : Incoming) (f : Forward) (r : ClaudeRequest) : Prop := {
  ad_post : i_post i = true;
  ad_read : read_request (i_bytes i) = Ok r;
  ad_key : APIKeyAllowsModel (i_allowed i) (Prompt.Model r) = true;
  ad_early : early_answer split_words r = None;
  ad_mode : isSuggestionMode (Messages (fw_request f)) = false;
  ad_servers : MCPServers r = [];
  ad_controls : ValidateProtocolControls (preSelectChannel f) (controls_of (fw_request f)) = None;
  ad_schema : fw_schema f = NewStructuredOutput (controls_of (fw_request f));
  ad_model : forall s, store = Some s -> TrimSpace (Prompt.Model (fw_request f)) <> EmptyString ->
    exists m, lookupModelRow store (fw_forced f) (TrimSpace (Prompt.Model (fw_request f))) = Some m
      /\ ModelStatus_Enabled (Status m) = true
      /\ (if empty (TrimSpace (fw_forced f)) then fw_channel f = TrimSpace (Models.Channel m)
          else sameModelChannel (Models.Channel m) (fw_forced f) = true /\ fw_channel f = TrimSpace (fw_forced f));
  ad_same : unmarked (fw_request f <| Prompt.Model := Prompt.Model r |> <| ResponseText := ResponseText r |>) = unmarked r;
}.

Lemma unmarked_cached r : unmarked (cached settings r) = unmarked r.
Proof using. unfold cached. destruct (_ && _); [|done]. apply cache_unmarked. Qed.

Lemma lower_same r model text :
  lower_output_format r <| Prompt.Model := model |> <| ResponseText := text |> = r <| Prompt.Model := model |> <| ResponseText := text |>.
Proof using. unfold lower_output_format. by repeat case_match. Qed.

Lemma forwarded_admitted i f : prepare split_words store settings msg_id now_unix i = Forwarded f -> exists r, admitted i f r.
Proof using.
  unfold prepare. destruct (i_post i) eqn:Hpost; [|done]. cbn [negb]. destruct (read_request (i_bytes i)) as [r|e] eqn:Hread; [|done].
  destruct (APIKeyAllowsModel _ _) eqn:Hkey; [|done]. cbn [negb]. destruct (early_answer split_words r) eqn:Hearly; [done|].
  unfold resolve_request. set (model := resolveEffortModelVariant _ _ _ _). set (forced := channelFromPath _).
  destruct (validateModelAvailability store model forced) as [row|e] eqn:Hrow; [|done].
  set (r' := cached settings r <| Prompt.Model := model |>). destruct (isSuggestionMode _) eqn:Hmode; [done|].
  unfold assemble. set (r2 := lower_output_format r'). destruct (bool_decide (MCPServers r2 = [])) eqn:Hm; [|done]. apply bool_decide_eq_true in Hm.
  cbn [negb]. destruct (ValidateProtocolControls _ _) eqn:Hv; [done|]. intros [= <-]. exists r.
  assert (Hl : Messages r2 = Messages r' /\ MCPServers r2 = MCPServers r' /\ Prompt.Model r2 = Prompt.Model r')
    by (unfold r2, lower_output_format; by repeat case_match).
  destruct Hl as (Hl1 & Hl2 & Hl3).
  assert (Hc : MCPServers r' = MCPServers r).
  { pose proof (unmarked_cached r) as U. apply (f_equal MCPServers) in U. exact U. }
  constructor; unfold preSelectChannel; cbn [fw_request fw_forced fw_channel fw_effort fw_schema fw_gate]; try done; rewrite ?Hl1, ?Hl3; try done.
  - by rewrite <- Hc, <- Hl2.
  - intros s Hs Hne. change (Prompt.Model r') with model in *. unfold validateModelAvailability in Hrow. rewrite Hs in Hrow.
    rewrite Hs. destruct (TrimSpace model) as [|a t] eqn:Ht; [done|]. cbn [empty] in Hrow.
    destruct (lookupModelRow (Some s) forced (String a t)) as [m|]; [|done]. destruct (ModelStatus_Enabled (Status m)) eqn:He; [|done].
    cbn [negb] in Hrow. exists m. split; [done|]. split; [done|]. destruct (negb (empty forced) && _) eqn:Hg; [done|].
    injection Hrow as <-. unfold target_channel. destruct (empty (TrimSpace forced)) eqn:Hf; [done|]. split; [|done].
    apply andb_false_iff in Hg as [Hg|Hg]; apply negb_false_iff in Hg; [|done]. by destruct forced.
  - pose proof (unmarked_cached r) as U. unfold r2. rewrite lower_same. unfold r'. clearbody model. clear -U.
    destruct (cached settings r), r. unfold unmarked in *. cbn in U |- *.
    injection U; clear U; intros; subst.
    repeat match goal with E : _ <$> _ = _ |- _ => rewrite E; clear E end. reflexivity.
Qed.


End Theorems.

(** * Witnesses

    Two WorkBuddy accounts and no managed models; the upstream first refuses. *)
#[local] Existing Instances print_all RowsOps RowsModels.
#[local] Instance ascii_text : TextClasses := {| is_punct _ := false; is_han _ := false |}.

Definition post (body : string) : Incoming :=
  mkIncoming true "/workbuddy/v1/messages" (fun _ => EmptyString) (Some body) None "req_1" "" true true.
#[local] Notation sample_handle body :=
  (HandleRequest (fun _ => None) None (mkSettings "mix" false) "msg_1" 0 (fun _ => None) (fun _ => "mismatch")
    (fun _ => false) (fun _ => 1%nat) plain_handler throttled_once 3 (post body) two_accounts).

Definition hello : string := js "{'model':'glm-5','messages':[{'role':'user','content':'Hi'}]}".
Definition relayed (r : Response (S := list Account)) : option (Req (S := list Account) * option json) :=
  match r with Relayed s body => Some (s, body) | Direct _ => None end.


(** The answer of the second account, the refused body, a request answered here. *)
Example requests :
  (relayed (sample_handle hello) ≫= fun p => answer_text false <$> p.2) = Some "Hello" /\
  sample_handle "[]" = Direct (Refused (invalid "Invalid request body" 400)) /\
  sample_handle (js "{'model':'m','mcp_servers':[{}]}") = Direct (Refused (invalid "MCP servers require a native Responses provider" 400)).
Proof. by vm_compute. Qed.
