(* ===== verification/Entrance.v ===== *)
(** * The entrance of an inference route
    (src/internal/middleware/concurrency.go, provider_admission.go, session.go,
    billing.go; composed by inferenceAuth of src/cmd/server/routes.go)

    What a request passes before its handler runs, and what is given back when it
    ends: a slot of the process, a slot of the channel it names, the client key, a
    slot of the key, and a hold on the budget of the key. Every request is a thread
    with the middleware it still has to pass and its stack of deferred calls;
    threads interleave at every access of a shared counter, of the tracker and of
    the store. A panicking handler unwinds like one that returns.

    The weighted semaphore is a package of golang.org/x/sync: a class with the
    documented laws. The tracker is the memory tracker's atomic specification
    ([ConnTracker.Memory.spec_call], which it refines); the branch for a tracker
    without limits is left out, as both trackers of the repository have them.
    Execution deadlines, log lines and the flushing wrapper have no part in
    admission. *)

From stdpp Require Import base numbers list strings gmap.
From S2P Require Import Prelude GoLib ConnTracker Pricing Ledger Keys Json Marshal PublicModels.

Local Open Scope orchids_scope.
Local Open Scope Z_scope.

(** ** Answers of the middleware *)
Record response := mkResponse { rs_status : Z; rs_headers : list (string * string); rs_body : string }.

Definition writeAPIKeyError (headers : list (string * string)) (status : Z) (message code : string) : response :=
  let errorType :=
    if status =? 429 then "rate_limit_error"
    else if status =? 402 then "insufficient_quota" else "authentication_error" in
  mkResponse status (headers ++ [("WWW-Authenticate", "Bearer"); ("Content-Type", "application/json")])
    (Marshal (JObj [("error", JObj [("message", JStr message); ("type", JStr errorType); ("code", JStr code)])])
     +:+ String (Ascii.ascii_of_nat 10) EmptyString).

Definition server_overloaded : response :=
  mkResponse 503 [("Content-Type", "application/json"); ("Retry-After", "1")]
    (js "{'error':{'message':'server is overloaded; retry later','type':'server_error','code':'server_overloaded','param':null}}").

(** ** Requests *)

(** A body delivers its bytes and then ends, or fails. *)
Record stream := mkStream { s_data : string; s_fails : bool }.

Record Request := mkRequest {
  q_method : string;
  q_path : string;
  q_authorization : string;
  q_x_api_key : string;
  q_request_id : string;
  q_body : option stream;
}.

Definition bearerToken (r : Request) : string :=
  let authHeader := TrimSpace (q_authorization r) in
  if String.eqb authHeader EmptyString then EmptyString
  else match Fields authHeader with
       | [scheme; token] => if EqualFold scheme "Bearer" then token else EmptyString
       | _ => EmptyString
       end.

Definition apiKeyToken (r : Request) : string :=
  let token := bearerToken r in
  if negb (String.eqb token EmptyString) then token else TrimSpace (q_x_api_key r).

Record APIKeyPrincipal := mkPrincipal {
  pr_ID : Z;
  pr_AllowedModels : list string;
  pr_MaxConcurrent : Z;
  pr_BillingLimitUSDTicks : Z;
  pr_DenialCode : string;
}.
Definition APIKeyDenialExpired : string := "invalid_api_key".
Definition APIKeyDenialRateLimited : string := "rate_limit_exceeded".

(** ** The body a reservation is estimated from *)
Fixpoint prefix_bytes (n : Z) (s : string) : string :=
  match s with
  | EmptyString => EmptyString
  | String a rest => if n <=? 0 then EmptyString else String a (prefix_bytes (n - 1) rest)
  end.

Definition len (s : string) : Z := Z.of_nat (String.length s).

(** [io.ReadAll(io.LimitReader(body, n))]: a failure past the limit is not met. *)
Definition read_limited (n : Z) (b : stream) : string * bool :=
  if n <=? len (s_data b) then (prefix_bytes n (s_data b), false) else (s_data b, s_fails b).

(** The bytes read and the body the handler is given. *)
Definition readBillingBody (body : option stream) : string * option stream :=
  match body with
  | None => (EmptyString, None)
  | Some b =>
      let '(raw, failed) := read_limited (maxBillingBodyBytes + 1) b in
      if failed then (EmptyString, Some (mkStream raw false))
      else if maxBillingBodyBytes <? len raw then (prefix_bytes maxBillingBodyBytes raw, Some b)
      else (raw, Some (mkStream raw false))
  end.

Definition billingRequestPaths : list string := ["/chat/completions"; "/messages"; "/responses"].
Definition billingRequestPath (path : string) : bool :=
  if HasSuffix path "/count_tokens" then false
  else existsb (Contains (ToLower path)) billingRequestPaths.

Definition DefaultBillingReservationTTL : Duration := 30 * Minute.

(** The handler reads the body it was sent, unless reading it failed: then it gets
    what was read, which ends like a whole body. *)
Lemma body_restored b : (read_limited (maxBillingBodyBytes + 1) b).2 = false -> (readBillingBody (Some b)).2 = Some b.
Proof.
  unfold readBillingBody, read_limited. destruct (Z.leb_spec (maxBillingBodyBytes + 1) (len (s_data b))) as [Hl|Hl].
  - assert (Hp : forall n s, 0 <= n <= len s -> len (prefix_bytes n s) = n).
    { intros n s. revert n. induction s as [|a s IH]; intros n Hn; unfold len in *; cbn [prefix_bytes String.length] in *; [lia|].
      destruct (Z.leb_spec n 0); [cbn; lia|]. cbn [String.length]. specialize (IH (n - 1)). lia. }
    intros _. rewrite Hp by (unfold maxBillingBodyBytes in *; lia). unfold maxBillingBodyBytes. done.
  - intros Hf. cbn in Hf. rewrite Hf. destruct (Z.ltb_spec maxBillingBodyBytes (len (s_data b))); [lia|].
    destruct b as [dt f]. cbn in *. by subst f.
Qed.

Example body_cut_short : readBillingBody (Some (mkStream "{" true)) = (EmptyString, Some (mkStream "{" false)).
Proof. by vm_compute. Qed.

(** ** Reservations *)
Record BillingReservation := mkHold {
  h_KeyID : Z;
  h_EventID : string;
  h_Amount : Z;
  h_settled : bool;
  h_priced : Result;
}.
Definition no_price : Result := mkResult EmptyString 0.

Definition claim (result : Result) (r : BillingReservation) : Result * bool * BillingReservation :=
  if h_settled r then (h_priced r, false, r)
  else (result, true, mkHold (h_KeyID r) (h_EventID r) (h_Amount r) true result).

Definition UsageSourceUpstream : string := "upstream".

(** ** The store over a network: a reply can be lost, and so can the call *)
Inductive delivery := Delivered | ReplyLost | CallLost.
Inductive store_error := Answered (e : ledger_error) | Unreachable.

Definition deliver {A} (d : delivery) (db : KeyDb) (call : result A ledger_error * KeyDb)
    : result A store_error * KeyDb :=
  match d with
  | Delivered => (match call.1 with Ok a => Ok a | Err e => Err (Answered e) end, call.2)
  | ReplyLost => (Err Unreachable, call.2)
  | CallLost => (Err Unreachable, db)
  end.

Definition on_ledger {A} (id : Z) (call : ledger -> result A ledger_error * ledger) (db : KeyDb)
    : result A ledger_error * KeyDb :=
  let '(r, l) := call (ledger_of db id) in (r, set_ledger id l db).

(** ** Threads *)
Inductive stage := StageLimit | StageProvider | StageAuth | StageKey | StageBilling.
Inductive deferred := DeferLimit | DeferProvider (name : string) | DeferKey (id : Z) | DeferBilling.
#[export] Instance deferred_eq_dec : EqDecision deferred.
Proof. solve_decision. Defined.
#[export] Instance stage_eq_dec : EqDecision stage.
Proof. solve_decision. Defined.

Inductive phase :=
  | Entering (rest : list stage)
  | Swapping (name : string) (limit n : Z) (rest : list stage)   (* between Load and CompareAndSwap *)
  | Handling
  | Unwinding.

(** What a request asked of the ledger, in order (for the statements only). *)
Inductive ledger_call :=
  | CallReserve (key : Z) (event : string) (amount : Z) (reply : result bool store_error)
  | CallSettle (key : Z) (event : string) (amount : Z) (reply : result unit store_error)
  | CallRelease (key : Z) (event : string) (reply : result bool store_error).

Record thread := mkThread {
  t_request : Request;
  t_body : option stream;          (* what is left to read of it *)
  t_phase : phase;
  t_admitted : bool;
  t_fingerprint : string;
  t_principal : option APIKeyPrincipal;
  t_hold : option BillingReservation;
  t_defers : list deferred;
  t_response : option response;
  t_calls : list ledger_call;
  t_handled : nat;
}.
#[export] Instance thread_eta : Eta thread := fun t =>
  mkThread (t_request t) (t_body t) (t_phase t) (t_admitted t) (t_fingerprint t) (t_principal t) (t_hold t)
    (t_defers t) (t_response t) (t_calls t) (t_handled t).

Definition refuse (r : response) (t : thread) : thread :=
  t <| t_response := Some r |> <| t_phase := Unwinding |>.
Definition pass (rest : list stage) (t : thread) : thread := t <| t_phase := Entering rest |>.
Definition push (d : deferred) (t : thread) : thread := t <| t_defers := d :: t_defers t |>.

(** [semaphore.Weighted] of golang.org/x/sync. *)
Class Weighted (S : Type) := {
  NewWeighted : Z -> S;
  TryAcquire : Z -> S -> bool * S;
  Release : Z -> S -> S;
}.

(** The weights held and the size it was made with. Nobody waits in Acquire here. *)
Class WeightedLaws (S : Type) `{Weighted S} := {
  weight : S -> Z;
  capacity : S -> Z;
  new_weight : forall n, weight (NewWeighted n) = 0;
  new_capacity : forall n, capacity (NewWeighted n) = n;
  try_acquired : forall n s, 0 <= n -> weight s + n <= capacity s ->
    (TryAcquire n s).1 = true /\ weight (TryAcquire n s).2 = weight s + n /\ capacity (TryAcquire n s).2 = capacity s;
  try_refused : forall n s, 0 <= n -> capacity s < weight s + n -> TryAcquire n s = (false, s);
  released : forall n s, 0 <= n <= weight s ->
    weight (Release n s) = weight s - n /\ capacity (Release n s) = capacity s;
}.

(** ** What the requests of a process share *)
Record Shared (S : Type) := mkShared {
  sem : S;
  activeCount : Z;
  rejectedReqs : Z;
  counts : gmap string Z;
  entries : gmap Z Z;
  conns : gmap Z Z;
  proc : process;
  db : KeyDb;
}.
Arguments sem {S}. Arguments activeCount {S}. Arguments rejectedReqs {S}. Arguments counts {S}.
Arguments entries {S}. Arguments conns {S}. Arguments proc {S}. Arguments db {S}. Arguments mkShared {S}.
#[export] Instance shared_eta {S} : Eta (Shared S) := fun w =>
  mkShared (sem w) (activeCount w) (rejectedReqs w) (counts w) (entries w) (conns w) (proc w) (db w).

(** What a handler does here: it settles, any number of times, and ends. *)
Inductive action :=
  | Settle (model usageSource : string) (input cached output : Z) (allowEstimates : bool)
  | Finish.

(** What one step meets. *)
Record env := mkEnv {
  e_limits : gmap string Z;      (* limits() *)
  e_required : bool;             (* require(r) *)
  e_now : Time;
  e_server : Time;
  e_delivery : delivery;
  e_action : action;
}.

Definition NewConcurrencyLimiter {S} `{Weighted S} (maxConcurrent : Z) : S :=
  NewWeighted (if maxConcurrent <=? 0 then 100 else maxConcurrent).

Definition provider_names : list string := ["grok"; "qoder"; "cline"; "workbuddy"].

(** [strings.Cut(strings.TrimPrefix(path, slash), slash)], its first part. *)
Definition path_name (path : string) : string :=
  let path := TrimPrefix path "/" in
  match Index path "/" with Some i => stake i path | None => path end.

Section Entrance.
Context {S : Type} `{Weighted S}.
Context (HGETALL : gmap string (option (Z * Z)) -> list (string * option (Z * Z))).
Context (cjson : apiKeyRecord -> option apiKeyRecord) (digest : string -> string).
Context (lex : string -> Body).
(** [accountTracker != nil]; a store is wired for settlements. *)
Context (tracked wired : bool) (ttl : Duration).
Abbreviation shared := (Shared S) (only parsing).

(** ** The middleware, one access at a time *)
Definition Limit (rest : list stage) (t : thread) (w : shared) : thread * shared :=
  if t_admitted t then (pass rest t, w)
  else
    let '(acquired, s) := TryAcquire 1 (sem w) in
    if negb acquired
    then (refuse server_overloaded t, w <| sem := s |> <| rejectedReqs := wrap64 (rejectedReqs w + 1) |>)
    else (push DeferLimit (pass rest (t <| t_admitted := true |>)),
          w <| sem := s |> <| activeCount := activeCount w + 1 |>).

Definition provider_overloaded : response :=
  writeAPIKeyError [("Retry-After", "1")] 503 "provider is overloaded; retry later" "provider_overloaded".

(** The limit is read once; then the counter is loaded and swapped until either
    it is full or the swap succeeds. *)
Definition load_count (name : string) (limit : Z) (rest : list stage) (t : thread) (w : shared) : thread * shared :=
  let n := default 0 (counts w !! name) in
  if limit <=? n then (refuse provider_overloaded t, w)
  else (t <| t_phase := Swapping name limit n rest |>, w).

Definition ProviderAdmission (e : env) (rest : list stage) (t : thread) (w : shared) : thread * shared :=
  let name := path_name (q_path (t_request t)) in
  if bool_decide (name ∉ provider_names) then (pass rest t, w)
  else
    let limit := default 0 (e_limits e !! name) in
    if limit <=? 0 then (pass rest t, w) else load_count name limit rest t w.

Definition CompareAndSwap (name : string) (limit n : Z) (rest : list stage) (t : thread) (w : shared)
    : thread * shared :=
  if default 0 (counts w !! name) =? n
  then (push (DeferProvider name) (pass rest t), w <| counts := <[name := n + 1]> (counts w) |>)
  else load_count name limit rest t w.

(** The validator of routes.go. *)
Definition principal_of (r : result ApiKey auth_error) : option (option APIKeyPrincipal) :=
  match r with
  | Ok key =>
      let r := k_record key in
      Some (Some (mkPrincipal (r_ID r) (r_AllowedModels r) (r_MaxConcurrent r) (r_BillingLimitUSDTicks r) EmptyString))
  | Err AuthNoRows => Some None
  | Err AuthExpired => Some (Some (mkPrincipal 0 [] 0 0 APIKeyDenialExpired))
  | Err AuthRateLimited => Some (Some (mkPrincipal 0 [] 0 0 APIKeyDenialRateLimited))
  | Err (AuthStore _) => None
  end.

Definition validate (e : env) (token : string) (w : shared) : option (option APIKeyPrincipal) * shared :=
  let '(r, p, d) := AuthorizeApiKey cjson digest (e_server e) (e_now e) token (proc w) (db w) in
  match e_delivery e with
  | Delivered => (principal_of r, w <| proc := p |> <| db := d |>)
  | ReplyLost => (None, w <| proc := p |> <| db := d |>)
  | CallLost => (None, w)
  end.

(** What the middleware does with the validator's answer. *)
Definition answer_validation (token : string) (verdict : option (option APIKeyPrincipal)) (rest : list stage)
    (t : thread) : thread :=
  match verdict with
  | None => refuse (writeAPIKeyError [] 503 "API key validation unavailable" "auth_unavailable") t
  | Some None => refuse (writeAPIKeyError [] 401 "Invalid API key" "invalid_api_key") t
  | Some (Some principal) =>
      if String.eqb (pr_DenialCode principal) APIKeyDenialExpired
      then refuse (writeAPIKeyError [] 401 "API key has expired" APIKeyDenialExpired) t
      else if String.eqb (pr_DenialCode principal) APIKeyDenialRateLimited
      then refuse (writeAPIKeyError [("Retry-After", "60")] 429 "API key rate limit exceeded" APIKeyDenialRateLimited) t
      else pass rest (t <| t_fingerprint := digest token |> <| t_principal := Some principal |>)
  end.

Definition APIKeyAuthWithRequest (e : env) (rest : list stage) (t : thread) (w : shared) : thread * shared :=
  if negb (e_required e) then (pass rest (t <| t_fingerprint := "anonymous" |>), w)
  else
    let token := apiKeyToken (t_request t) in
    if String.eqb token EmptyString
    then (refuse (writeAPIKeyError [] 401 "Missing API key" "invalid_api_key") t, w)
    else let '(verdict, w) := validate e token w in (answer_validation token verdict rest t, w).

Definition concurrency_exceeded : response :=
  writeAPIKeyError [("Retry-After", "1")] 429 "API key concurrency limit exceeded" "concurrency_limit_exceeded".

(** [TryAcquire] and [Release] of the tracker. *)
Definition tracker_acquire (id limit : Z) (c : gmap Z Z) : bool * gmap Z Z :=
  if bool_decide (0 < limit /\ limit <= Memory.GetCount c id) then (false, c)
  else (true, <[id := wrap64 (Memory.GetCount c id + 1)]> c).
Definition tracker_release (id : Z) (c : gmap Z Z) : gmap Z Z :=
  if Memory.GetCount c id <=? 0 then c else <[id := Memory.GetCount c id - 1]> c.

Definition APIKeyConcurrencyWithTracker (rest : list stage) (t : thread) (w : shared) : thread * shared :=
  match t_principal t with
  | None => (pass rest t, w)
  | Some principal =>
      let id := pr_ID principal in
      if (id =? 0) || (pr_MaxConcurrent principal <=? 0) then (pass rest t, w)
      else if tracked then
        let '(acquired, c) := tracker_acquire (- id) (pr_MaxConcurrent principal) (conns w) in
        if negb acquired then (refuse concurrency_exceeded t, w)
        else (push (DeferKey id) (pass rest t), w <| conns := c |>)
      else
        let active := default 0 (entries w !! id) in
        if pr_MaxConcurrent principal <=? active
        then (refuse concurrency_exceeded t, w <| entries := <[id := active]> (entries w) |>)
        else (push (DeferKey id) (pass rest t), w <| entries := <[id := active + 1]> (entries w) |>)
  end.

(** What the request must hold before it runs: [None] when it is not metered. *)
Definition metered (principal : option APIKeyPrincipal) (r : Request) (body : option stream) : option (Z * Z) :=
  match principal with
  | None => None
  | Some p =>
      if (pr_ID p =? 0) || (pr_BillingLimitUSDTicks p <=? 0) then None
      else if negb (String.eqb (q_method r) "POST") && negb (String.eqb (q_method r) "PUT") then None
      else if negb (billingRequestPath (q_path r)) then None
      else
        let body := (readBillingBody body).1 in
        if String.eqb body EmptyString then None
        else match EstimateTextReservationFromBody (lex body) with
             | None => None
             | Some reservation =>
                 if String.eqb (q_request_id r) EmptyString then None
                 else Some (pr_ID p, CostInUSDTicks reservation)
             end
  end.

(** Whether the body is read, and so replaced. *)
Definition reads_body (principal : option APIKeyPrincipal) (r : Request) : bool :=
  match principal with
  | None => false
  | Some p =>
      negb ((pr_ID p =? 0) || (pr_BillingLimitUSDTicks p <=? 0)) &&
      (String.eqb (q_method r) "POST" || String.eqb (q_method r) "PUT") && billingRequestPath (q_path r)
  end.

Definition restore_body (t : thread) : thread :=
  if reads_body (t_principal t) (t_request t)
  then t <| t_body := (readBillingBody (t_body t)).2 |> else t.

Definition log_call (c : ledger_call) (t : thread) : thread := t <| t_calls := t_calls t ++ [c] |>.

Definition effective_ttl : Duration := if ttl <=? 0 then DefaultBillingReservationTTL else ttl.

Definition APIKeyBillingReservation (e : env) (rest : list stage) (t : thread) (w : shared) : thread * shared :=
  match metered (t_principal t) (t_request t) (t_body t) with
  | None => (pass rest (restore_body t), w)
  | Some (key, amount) =>
      let event := q_request_id (t_request t) in
      let '(reply, d) := deliver (e_delivery e) (db w)
        (on_ledger key (ReserveApiKeyBilling HGETALL (e_server e) (e_now e) key event amount
                          (Add (e_now e) effective_ttl)) (db w)) in
      let w := w <| db := d |> in
      let t := log_call (CallReserve key event amount reply) (restore_body t) in
      match reply with
      | Err _ => (refuse (writeAPIKeyError [] 503 "API key billing check unavailable" "billing_unavailable") t, w)
      | Ok false => (refuse (writeAPIKeyError [] 402 "API key billing limit exceeded" "billing_limit_exceeded") t, w)
      | Ok true =>
          (push DeferBilling (pass rest (t <| t_hold := Some (mkHold key event amount false no_price) |>)), w)
      end
  end.

(** ** Settlement, called by the handler *)
Definition SettleAPIKeyBilling (e : env) (model usageSource : string) (input cached output : Z)
    (allowEstimates : bool) (t : thread) (w : shared) : option Result * (thread * shared) :=
  if negb (String.eqb usageSource UsageSourceUpstream) && negb allowEstimates then (None, (t, w))
  else match EstimateCost model input cached output input with
       | None => (None, (t, w))
       | Some result =>
           match (if wired then t_hold t else None) with
           | None => (Some result, (t, w))
           | Some r =>
               if (h_KeyID r =? 0) || String.eqb (h_EventID r) EmptyString then (Some result, (t, w))
               else
                 let '(claimed, first, r') := claim result r in
                 if negb first then (Some claimed, (t, w))
                 else
                   let '(reply, d) := deliver (e_delivery e) (db w)
                     (on_ledger (h_KeyID r)
                        (SettleApiKeyBilling (e_server e) (h_KeyID r) (h_EventID r) (CostInUSDTicks result)) (db w)) in
                   (Some result,
                    (log_call (CallSettle (h_KeyID r) (h_EventID r) (CostInUSDTicks result) reply)
                       (t <| t_hold := Some r' |>), w <| db := d |>))
           end
       end.

Definition handle (e : env) (t : thread) (w : shared) : thread * shared :=
  match e_action e with
  | Finish => (t <| t_phase := Unwinding |>, w)
  | Settle model source input cached output allow => (SettleAPIKeyBilling e model source input cached output allow t w).2
  end.

(** ** The deferred calls *)
Definition release_hold (e : env) (t : thread) (w : shared) : thread * shared :=
  match t_hold t with
  | None => (t, w)
  | Some r =>
      if h_settled r then (t, w)
      else
        let '(reply, d) := deliver (e_delivery e) (db w)
          (on_ledger (h_KeyID r) (ReleaseApiKeyBilling (e_server e) (h_KeyID r) (h_EventID r)) (db w)) in
        (log_call (CallRelease (h_KeyID r) (h_EventID r) reply) t, w <| db := d |>)
  end.

Definition release_key (id : Z) (w : shared) : shared :=
  if tracked then w <| conns := tracker_release (- id) (conns w) |>
  else match entries w !! id with
       | Some active => w <| entries := if active - 1 <=? 0 then delete id (entries w)
                                        else <[id := active - 1]> (entries w) |>
       | None => w
       end.

Definition run_deferred (e : env) (d : deferred) (t : thread) (w : shared) : thread * shared :=
  match d with
  | DeferLimit => (t, w <| sem := Release 1 (sem w) |> <| activeCount := activeCount w - 1 |>)
  | DeferProvider name => (t, w <| counts := <[name := default 0 (counts w !! name) - 1]> (counts w) |>)
  | DeferKey id => (t, release_key id w)
  | DeferBilling => release_hold e t w
  end.

(** ** One step of one request *)
Definition enter (e : env) (s : stage) (rest : list stage) (t : thread) (w : shared) : thread * shared :=
  match s with
  | StageLimit => Limit rest t w
  | StageProvider => ProviderAdmission e rest t w
  | StageAuth => APIKeyAuthWithRequest e rest t w
  | StageKey => APIKeyConcurrencyWithTracker rest t w
  | StageBilling => APIKeyBillingReservation e rest t w
  end.

Definition advance (e : env) (t : thread) (w : shared) : thread * shared :=
  match t_phase t with
  | Entering (s :: rest) => enter e s rest t w
  | Entering [] => (t <| t_phase := Handling |> <| t_handled := Datatypes.S (t_handled t) |>, w)
  | Swapping name limit n rest => CompareAndSwap name limit n rest t w
  | Handling => handle e t w
  | Unwinding =>
      match t_defers t with
      | [] => (t, w)
      | d :: ds => run_deferred e d (t <| t_defers := ds |>) w
      end
  end.

(** [inferenceAuth(next)]; most handlers are wrapped by the limiter once more. *)
Definition inferenceAuth (next : list stage) : list stage :=
  [StageLimit; StageProvider; StageAuth; StageKey; StageBilling] ++ next.

Definition arrive (r : Request) (limited : bool) : thread :=
  mkThread r (q_body r) (Entering (inferenceAuth (if limited then [StageLimit] else []))) false EmptyString None None [] None [] 0.


(** ** The process: requests that arrive, step and share with others *)
Record World := mkWorld { threads : gmap string thread; common : shared }.

Definition start (maxConcurrent : Z) (p : process) (d : KeyDb) : World :=
  mkWorld ∅ (mkShared (NewConcurrencyLimiter maxConcurrent) 0 0 ∅ ∅ ∅ p d).

(** A request id is new: no hold and no charge bears it yet. *)
Definition unused_event (id : string) (d : KeyDb) : Prop :=
  forall key, holds (ledger_of d key) !! id = None /\ settled (ledger_of d key) !! id = None.

(** What others may do: the accounts' slots, and anything to the database but
    book a request of this process. *)
Definition elsewhere (ours : gset string) (w w' : shared) : Prop :=
  sem w' = sem w /\ activeCount w' = activeCount w /\ counts w' = counts w /\ entries w' = entries w /\
  (forall id, id < 0 -> Memory.GetCount (conns w') id = Memory.GetCount (conns w) id) /\
  (forall key event, event ∈ ours ->
     (holds (ledger_of (db w) key) !! event = None -> holds (ledger_of (db w') key) !! event = None) /\
     (settled (ledger_of (db w) key) !! event = None -> settled (ledger_of (db w') key) !! event = None)).

(** Key ids count from 1 and a limit is an int. *)
Definition machine_row (t : thread) : Prop :=
  forall p, t_principal t = Some p -> 0 <= pr_ID p /\ in_int64 (pr_MaxConcurrent p).

(** [bound]: what the configured limits of the channels stay within. *)
Context (bound : string -> Z).

Inductive step (W : World) : World -> Prop :=
  | step_arrive r limited :
      threads W !! q_request_id r = None -> unused_event (q_request_id r) (db (common W)) ->
      step W (mkWorld (<[q_request_id r := arrive r limited]> (threads W)) (common W))
  | step_thread e id t t' w' :
      threads W !! id = Some t -> (forall name, default 0 (e_limits e !! name) <= bound name) ->
      advance e t (common W) = (t', w') -> machine_row t' ->
      step W (mkWorld (<[id := t']> (threads W)) w')
  | step_other w' :
      elsewhere (dom (threads W)) (common W) w' -> step W (mkWorld (threads W) w').

Definition ended (t : thread) : Prop := t_phase t = Unwinding /\ t_defers t = [].

(** ** Slots are counted exactly *)
Definition owed (d : deferred) (t : thread) : Z := sumZ (fun x => if decide (x = d) then 1 else 0) (t_defers t).
Definition slots (T : gmap string thread) (d : deferred) : Z := map_sum (owed d) T.

Definition same_slots (w w' : shared) : Prop :=
  sem w' = sem w /\ activeCount w' = activeCount w /\ counts w' = counts w /\ entries w' = entries w /\
  conns w' = conns w.

(** What a step does to the slots. *)
Inductive effect (t : thread) (w : shared) (t' : thread) (w' : shared) : Prop :=
  | eff_none ds :
      t_defers t = ds \/ t_defers t = DeferBilling :: ds ->
      t_defers t' = ds \/ t_defers t' = DeferBilling :: ds -> same_slots w w' -> effect t w t' w'
  | eff_limit_full s :
      TryAcquire 1 (sem w) = (false, s) -> t_defers t' = t_defers t ->
      same_slots (w <| sem := s |>) w' -> effect t w t' w'
  | eff_limit_taken s :
      TryAcquire 1 (sem w) = (true, s) -> t_defers t' = DeferLimit :: t_defers t ->
      same_slots (w <| sem := s |> <| activeCount := activeCount w + 1 |>) w' -> effect t w t' w'
  | eff_limit_given :
      t_defers t = DeferLimit :: t_defers t' ->
      same_slots (w <| sem := Release 1 (sem w) |> <| activeCount := activeCount w - 1 |>) w' -> effect t w t' w'
  | eff_provider_taken name n :
      default 0 (counts w !! name) = n -> n < bound name -> t_defers t' = DeferProvider name :: t_defers t ->
      same_slots (w <| counts := <[name := n + 1]> (counts w) |>) w' -> effect t w t' w'
  | eff_provider_given name :
      t_defers t = DeferProvider name :: t_defers t' ->
      same_slots (w <| counts := <[name := default 0 (counts w !! name) - 1]> (counts w) |>) w' -> effect t w t' w'
  | eff_key_taken p :
      t_principal t' = Some p -> pr_ID p <> 0 -> t_defers t' = DeferKey (pr_ID p) :: t_defers t ->
      (if tracked
       then exists c, tracker_acquire (- pr_ID p) (pr_MaxConcurrent p) (conns w) = (true, c) /\
              0 < pr_MaxConcurrent p /\ same_slots (w <| conns := c |>) w'
       else let active := default 0 (entries w !! pr_ID p) in
            active < pr_MaxConcurrent p /\
            same_slots (w <| entries := <[pr_ID p := active + 1]> (entries w) |>) w') ->
      effect t w t' w'
  | eff_key_full id :
      tracked = false -> t_defers t' = t_defers t ->
      same_slots (w <| entries := <[id := default 0 (entries w !! id)]> (entries w) |>) w' -> effect t w t' w'
  | eff_key_given id :
      t_defers t = DeferKey id :: t_defers t' -> same_slots (release_key id w) w' -> effect t w t' w'.

(** A loaded counter was below a limit within the bound. *)
Definition loaded_ok (t : thread) : Prop :=
  match t_phase t with Swapping name limit n _ => n < limit <= bound name | _ => True end.

Lemma same_slots_refl w : same_slots w w.
Proof. by repeat split. Qed.

Lemma pass_effect t w rest t1 w' :
  t_defers t1 = t_defers t -> same_slots w w' -> effect t w (pass rest t1) w'.
Proof. intros Hd Hs. apply (eff_none _ _ _ _ (t_defers t)); [by left|left; exact Hd|done]. Qed.

Lemma refuse_effect t w r t1 w' :
  t_defers t1 = t_defers t -> same_slots w w' -> effect t w (refuse r t1) w'.
Proof. intros Hd Hs. apply (eff_none _ _ _ _ (t_defers t)); [by left|left; exact Hd|done]. Qed.

Lemma Limit_effect rest t w : effect t w (Limit rest t w).1 (Limit rest t w).2.
Proof.
  unfold Limit. destruct (t_admitted t); [by apply pass_effect, same_slots_refl|].
  destruct (TryAcquire 1 (sem w)) as [[] s] eqn:E; cbn [negb fst snd].
  - by eapply eff_limit_taken; [exact E|..].
  - by eapply eff_limit_full; [exact E|..].
Qed.

Lemma load_effect name limit rest t t1 w :
  t_defers t1 = t_defers t -> limit <= bound name ->
  effect t w (load_count name limit rest t1 w).1 (load_count name limit rest t1 w).2 /\
  loaded_ok (load_count name limit rest t1 w).1.
Proof.
  intros Hd Hl. unfold load_count, loaded_ok. destruct (limit <=? _) eqn:E; cbn [fst snd].
  - by split; [apply refuse_effect, same_slots_refl|].
  - bool_to_prop. split; [|cbn; lia].
    apply (eff_none _ _ _ _ (t_defers t)); [by left|left; exact Hd|apply same_slots_refl].
Qed.

Lemma provider_effect e rest t w :
  (forall name, default 0 (e_limits e !! name) <= bound name) ->
  effect t w (ProviderAdmission e rest t w).1 (ProviderAdmission e rest t w).2 /\
  loaded_ok (ProviderAdmission e rest t w).1.
Proof.
  intros Hb. unfold ProviderAdmission. case_bool_decide; [by split; [apply pass_effect, same_slots_refl|]|].
  destruct (_ <=? 0); [by split; [apply pass_effect, same_slots_refl|]|]. by apply load_effect.
Qed.

Lemma swap_effect name limit n rest t w :
  n < limit <= bound name ->
  effect t w (CompareAndSwap name limit n rest t w).1 (CompareAndSwap name limit n rest t w).2 /\
  loaded_ok (CompareAndSwap name limit n rest t w).1.
Proof.
  intros [Hn Hl]. unfold CompareAndSwap. destruct (_ =? n) eqn:E; [|by apply load_effect]. bool_to_prop.
  split; [|done]. eapply eff_provider_taken; [exact E|lia|done|]. by repeat split.
Qed.

Lemma auth_effect e rest t w :
  effect t w (APIKeyAuthWithRequest e rest t w).1 (APIKeyAuthWithRequest e rest t w).2.
Proof.
  unfold APIKeyAuthWithRequest. destruct (negb _); [by apply pass_effect, same_slots_refl|].
  destruct (String.eqb _ _); [by apply refuse_effect, same_slots_refl|].
  assert (Hs : same_slots w (validate e (apiKeyToken (t_request t)) w).2).
  { unfold validate. destruct (AuthorizeApiKey _ _ _ _ _ _ _) as [[r p] d].
    destruct (e_delivery e); by repeat split. }
  destruct (validate _ _ _) as [[[p|]|] w1]; cbn [snd fst answer_validation] in *; [|by apply refuse_effect..].
  destruct (String.eqb _ _); [by apply refuse_effect|]. destruct (String.eqb _ _); [by apply refuse_effect|].
  by apply pass_effect.
Qed.

Lemma key_effect rest t w :
  effect t w (APIKeyConcurrencyWithTracker rest t w).1 (APIKeyConcurrencyWithTracker rest t w).2.
Proof.
  unfold APIKeyConcurrencyWithTracker. destruct (t_principal t) as [p|] eqn:Ep; [|by apply pass_effect, same_slots_refl].
  destruct ((pr_ID p =? 0) || _) eqn:Eb; [by apply pass_effect, same_slots_refl|]. bool_to_prop.
  destruct tracked eqn:Et.
  - destruct (tracker_acquire _ _ _) as [[] c] eqn:Ea; cbn [negb fst snd]; [|by apply refuse_effect, same_slots_refl].
    apply (eff_key_taken _ _ _ _ p); [done..|]. rewrite Et. exists c. by repeat split.
  - destruct (_ <=? default 0 _) eqn:El; cbn [fst snd]; bool_to_prop.
    + by apply (eff_key_full _ _ _ _ (pr_ID p)).
    + apply (eff_key_taken _ _ _ _ p); [done..|]. rewrite Et. by repeat split.
Qed.

Lemma restore_defers t : t_defers (restore_body t) = t_defers t.
Proof. unfold restore_body. by destruct (reads_body _ _). Qed.

Lemma billing_effect e rest t w :
  effect t w (APIKeyBillingReservation e rest t w).1 (APIKeyBillingReservation e rest t w).2.
Proof.
  unfold APIKeyBillingReservation. destruct (metered _ _ _) as [[key amount]|].
  2: { apply pass_effect; [apply restore_defers|apply same_slots_refl]. }
  destruct (deliver _ _ _) as [[[]|] d]; cbn [fst snd].
  - apply (eff_none _ _ _ _ (t_defers t)); [by left| |by repeat split]. right. cbn. by rewrite restore_defers.
  - apply refuse_effect; [apply restore_defers|by repeat split].
  - apply refuse_effect; [apply restore_defers|by repeat split].
Qed.

Lemma handle_effect e t w : effect t w (handle e t w).1 (handle e t w).2.
Proof.
  assert (Hk : forall t1 w1, t_defers t1 = t_defers t -> same_slots w w1 -> effect t w t1 w1).
  { intros t1 w1 Hd Hs. apply (eff_none _ _ _ _ (t_defers t)); [by left|by left|done]. }
  unfold handle. destruct (e_action e); [|by apply Hk; [|apply same_slots_refl]].
  unfold SettleAPIKeyBilling. repeat (case_match; try (by apply Hk; [|apply same_slots_refl])).
  all: by apply Hk; [|repeat split].
Qed.

Lemma deferred_effect e d ds t w :
  t_defers t = d :: ds ->
  effect t w (run_deferred e d (t <| t_defers := ds |>) w).1 (run_deferred e d (t <| t_defers := ds |>) w).2.
Proof.
  intros Hd. destruct d as [|name|id|]; cbn [run_deferred fst snd].
  - by apply eff_limit_given.
  - by apply (eff_provider_given _ _ _ _ name).
  - by apply (eff_key_given _ _ _ _ id).
  - assert (Hk : forall t1 w1, t_defers t1 = ds -> same_slots w w1 -> effect t w t1 w1).
    { intros t1 w1 H1 Hs. apply (eff_none _ _ _ _ ds); [by right|by left|done]. }
    unfold release_hold. repeat (case_match; try (by apply Hk; [|apply same_slots_refl])).
    all: by apply Hk; [|repeat split].
Qed.

Lemma settle_phase e model source input cached output allow t w :
  t_phase (SettleAPIKeyBilling e model source input cached output allow t w).2.1 = t_phase t.
Proof. unfold SettleAPIKeyBilling. by repeat case_match. Qed.

Lemma deferred_phase e d t w : t_phase (run_deferred e d t w).1 = t_phase t.
Proof. destruct d; [done..|]. cbn. unfold release_hold. by repeat case_match. Qed.

Lemma advance_effect e t w :
  (forall name, default 0 (e_limits e !! name) <= bound name) -> loaded_ok t ->
  effect t w (advance e t w).1 (advance e t w).2 /\ loaded_ok (advance e t w).1.
Proof.
  intros Hb Hl. unfold advance. destruct (t_phase t) as [[|s rest]|name limit n rest| |] eqn:Ep.
  - split; [|done]. by apply (eff_none _ _ _ _ (t_defers t)); [left..|apply same_slots_refl].
  - destruct s; cbn [enter].
    + split; [apply Limit_effect|]. unfold Limit. by repeat case_match.
    + by apply provider_effect.
    + split; [apply auth_effect|]. unfold APIKeyAuthWithRequest, answer_validation. by repeat case_match.
    + split; [apply key_effect|]. unfold APIKeyConcurrencyWithTracker. by repeat case_match.
    + split; [apply billing_effect|]. unfold APIKeyBillingReservation. by repeat case_match.
  - unfold loaded_ok in Hl. rewrite Ep in Hl. by apply swap_effect.
  - split; [apply handle_effect|]. unfold handle, loaded_ok.
    destruct (e_action e); [by rewrite settle_phase, Ep|done].
  - destruct (t_defers t) as [|d ds] eqn:Ed.
    + split; [|by unfold loaded_ok; cbn [fst]; rewrite Ep].
      by apply (eff_none _ _ _ _ (t_defers t)); [left..|apply same_slots_refl].
    + split; [by apply deferred_effect|]. unfold loaded_ok. rewrite deferred_phase. cbn. by rewrite Ep.
Qed.

(** [size]: the capacity of the limiter. *)
Context (size : Z).
Context `{!WeightedLaws S}.

Record balanced (n : deferred -> Z) (w : shared) : Prop := mkBalanced {
  bal_limit : weight (sem w) = n DeferLimit;
  bal_active : activeCount w = n DeferLimit;
  bal_capacity : capacity (sem w) = size /\ n DeferLimit <= size;
  bal_provider : forall name, default 0 (counts w !! name) = n (DeferProvider name) /\
                              n (DeferProvider name) <= Z.max 0 (bound name);
  bal_key : forall id, if tracked
    then (0 < id -> Memory.GetCount (conns w) (- id) = n (DeferKey id)) /\ (id <= 0 -> n (DeferKey id) = 0)
    else default 0 (entries w !! id) = n (DeferKey id);
}.

(** What one more call on the stack owes. *)
Definition one (x d : deferred) : Z := if decide (x = d) then 1 else 0.

Lemma owed_cons d x t t' : t_defers t' = x :: t_defers t -> owed d t' = one x d + owed d t.
Proof. intros E. unfold owed. by rewrite E. Qed.

Lemma one_same d : one d d = 1.
Proof. unfold one. by rewrite decide_True. Qed.
Lemma one_other x d : x <> d -> one x d = 0.
Proof. intros Hne. unfold one. by rewrite decide_False. Qed.

Lemma slots_step T i t t' d :
  T !! i = Some t -> slots (<[i := t']> T) d = slots T d + owed d t' - owed d t.
Proof.
  intros Hi. unfold slots. rewrite (map_sum_delete _ T i t Hi), <- insert_delete_eq.
  rewrite map_sum_insert by apply lookup_delete_eq. lia.
Qed.

Lemma owed_nonneg d t : 0 <= owed d t.
Proof. apply sumZ_nonneg. intros x _. by case_decide. Qed.

Lemma slots_nonneg T d : 0 <= slots T d.
Proof. apply map_sum_nonneg. intros k t _. apply owed_nonneg. Qed.

Lemma slots_member T i t d : T !! i = Some t -> owed d t <= slots T d.
Proof.
  intros Hi. unfold slots. rewrite (map_sum_delete _ T i t Hi).
  pose proof (slots_nonneg (delete i T) d). unfold slots in *. lia.
Qed.

(** Counts that differ by one call on the stack. *)
Definition shifts (n n' : deferred -> Z) (by_ : Z) (x : deferred) : Prop :=
  forall d, n' d = n d + by_ * one x d.

Lemma default_insert {K} `{Countable K} (m : gmap K Z) k v j :
  default 0 (<[k := v]> m !! j) = if decide (k = j) then v else default 0 (m !! j).
Proof. case_decide; [subst; by rewrite lookup_insert_eq|by rewrite lookup_insert_ne]. Qed.

Lemma default_delete {K} `{Countable K} (m : gmap K Z) k j :
  default 0 (delete k m !! j) = if decide (k = j) then 0 else default 0 (m !! j).
Proof. case_decide; [subst; by rewrite lookup_delete_eq|by rewrite lookup_delete_ne]. Qed.

Lemma balanced_same n n' w w' :
  (forall d, d <> DeferBilling -> n' d = n d) -> same_slots w w' -> balanced n w -> balanced n' w'.
Proof.
  intros Hn (E1 & E2 & E3 & E4 & E5) [H1 H2 H3 H4 H5].
  split; rewrite ?E1, ?E2, ?E3; intros; rewrite ?E4, ?E5, ?Hn by done; auto. apply H5.
Qed.

(** Every other resource is untouched when one moves. *)
Lemma shifts_other n n' by_ x d : shifts n n' by_ x -> x <> d -> n' d = n d.
Proof. intros Hn Hne. rewrite Hn, one_other by done. lia. Qed.

Lemma limit_balanced n n' w s active by_ :
  shifts n n' by_ DeferLimit -> balanced n w ->
  weight s = weight (sem w) + by_ -> capacity s = capacity (sem w) -> active = activeCount w + by_ ->
  weight s <= size -> balanced n' (w <| sem := s |> <| activeCount := active |>).
Proof.
  intros Hn [H1 H2 H3 H4 H5] Hw Hc -> Hcap. pose proof (Hn DeferLimit) as Hl. rewrite one_same in Hl.
  split; cbn; [lia|lia|rewrite Hc; lia|..].
  - intros name. rewrite (shifts_other _ _ _ _ _ Hn) by done. apply H4.
  - intros id. rewrite (shifts_other _ _ _ _ _ Hn) by done. apply H5.
Qed.

Lemma provider_balanced n n' w name by_ :
  shifts n n' by_ (DeferProvider name) -> balanced n w ->
  n (DeferProvider name) + by_ <= Z.max 0 (bound name) ->
  balanced n' (w <| counts := <[name := default 0 (counts w !! name) + by_]> (counts w) |>).
Proof.
  intros Hn [H1 H2 H3 H4 H5] Hb. pose proof (Hn DeferLimit) as Hl. rewrite one_other in Hl by done.
  split; cbn; [lia..| |].
  - intros name'. rewrite default_insert, Hn. destruct (decide (name = name')) as [->|Hne].
    + rewrite one_same. specialize (H4 name'). lia.
    + rewrite one_other by congruence. specialize (H4 name'). lia.
  - intros id. rewrite (shifts_other _ _ _ _ _ Hn) by done. apply H5.
Qed.

(** The slots of one key, in whichever of the two places they are kept. *)
Definition key_count (w : shared) (id : Z) : Z :=
  if tracked then Memory.GetCount (conns w) (- id) else default 0 (entries w !! id).

Lemma key_balanced n n' w w' id by_ :
  shifts n n' by_ (DeferKey id) -> balanced n w -> 0 < id \/ tracked = false ->
  sem w' = sem w -> activeCount w' = activeCount w -> counts w' = counts w ->
  (forall j, 0 < j \/ tracked = false -> key_count w' j = key_count w j + (if decide (id = j) then by_ else 0)) ->
  balanced n' w'.
Proof.
  intros Hn [H1 H2 H3 H4 H5] Hid E1 E2 E3 Hk. pose proof (Hn DeferLimit) as Hl. rewrite one_other in Hl by done.
  split; rewrite ?E1, ?E2, ?E3; [lia..| |].
  - intros name. rewrite (shifts_other _ _ _ _ _ Hn) by done. apply H4.
  - intros j. specialize (H5 j). specialize (Hk j). pose proof (Hn (DeferKey j)) as Hj.
    assert (Ho : one (DeferKey id) (DeferKey j) = if decide (id = j) then 1 else 0).
    { destruct (decide (id = j)) as [->|Hne]; [apply one_same|apply one_other; congruence]. }
    rewrite Ho in Hj. unfold key_count in Hk. destruct tracked.
    + split; [intros Hp; rewrite Hk by auto|intros Hp]; destruct H5 as [H5 H6].
      * rewrite H5 by done. destruct (decide (id = j)); lia.
      * rewrite Hj, H6 by done. destruct (decide (id = j)); [|lia]. destruct Hid; [lia|done].
    + rewrite Hk by auto. destruct (decide (id = j)); lia.
Qed.

Lemma try_inv (s s' : S) b :
  TryAcquire 1 s = (b, s') ->
  if b then weight s + 1 <= capacity s /\ weight s' = weight s + 1 /\ capacity s' = capacity s else s' = s.
Proof.
  intros E. destruct (decide (weight s + 1 <= capacity s)) as [Hr|Hr].
  - destruct (try_acquired 1 s) as (H1 & H2 & H3); [lia..|]. rewrite E in *. cbn in *. by subst b.
  - rewrite try_refused in E by lia. injection E as <- <-. done.
Qed.

Lemma acquire_count c id limit c' j :
  tracker_acquire id limit c = (true, c') -> 0 < limit -> in_int64 limit -> 0 <= Memory.GetCount c id ->
  Memory.GetCount c id < limit /\
  Memory.GetCount c' j = Memory.GetCount c j + (if decide (id = j) then 1 else 0).
Proof.
  unfold tracker_acquire. case_bool_decide as Hf; [done|]. intros [= <-] Hl [_ Hi] H0.
  split; [lia|]. rewrite Memory.GetCount_insert. destruct (decide (id = j)) as [->|]; [|lia].
  apply wrap64_id. unfold in_int64, min_int64, max_int64 in *. lia.
Qed.

Lemma release_count id w j :
  0 < key_count w id -> key_count (release_key id w) j = key_count w j + (if decide (id = j) then -1 else 0).
Proof.
  unfold release_key, key_count. intros Hpos. destruct tracked.
  - cbn. unfold tracker_release. destruct (Z.leb_spec (Memory.GetCount (conns w) (- id)) 0); [lia|].
    rewrite Memory.GetCount_insert. destruct (decide (- id = - j)), (decide (id = j)); subst; lia.
  - destruct (entries w !! id) as [active|] eqn:E; [|cbn in Hpos; lia]. cbn in Hpos. cbn [entries].
    destruct (Z.leb_spec (active - 1) 0); cbn; [rewrite default_delete|rewrite default_insert];
      destruct (decide (id = j)) as [<-|]; rewrite ?E; cbn; lia.
Qed.

Lemma key_taken_balanced n n' w w' p :
  shifts n n' 1 (DeferKey (pr_ID p)) -> balanced n w -> (forall d, 0 <= n d) ->
  0 <= pr_ID p /\ in_int64 (pr_MaxConcurrent p) -> pr_ID p <> 0 ->
  (if tracked
   then exists c, tracker_acquire (- pr_ID p) (pr_MaxConcurrent p) (conns w) = (true, c) /\
          0 < pr_MaxConcurrent p /\ same_slots (w <| conns := c |>) w'
   else let active := default 0 (entries w !! pr_ID p) in
        active < pr_MaxConcurrent p /\
        same_slots (w <| entries := <[pr_ID p := active + 1]> (entries w) |>) w') ->
  balanced n' w' /\ n (DeferKey (pr_ID p)) < pr_MaxConcurrent p.
Proof.
  intros Hn Hb Hpos [Hid Hi] Hne Ht. pose proof (bal_key _ _ Hb (pr_ID p)) as Hk.
  specialize (Hpos (DeferKey (pr_ID p))). destruct tracked eqn:Et.
  - destruct Ht as (c & Ha & Hl & Hs). destruct Hk as [Hk _]. specialize (Hk ltac:(lia)).
    assert (Hc : Memory.GetCount (conns w) (- pr_ID p) < pr_MaxConcurrent p).
    { eapply (acquire_count _ _ _ _ 0); [exact Ha|done..|lia]. }
    split; [|lia].
    apply (key_balanced n n' w w' (pr_ID p) 1); [done|done|left; lia|apply Hs|apply Hs|apply Hs|]. intros j _.
    destruct Hs as (_ & _ & _ & _ & Hs). unfold key_count. rewrite Et, Hs. cbn.
    destruct (acquire_count _ _ _ _ (- j) Ha) as [_ ->]; [done..|lia|].
    destruct (decide (- pr_ID p = - j)), (decide (pr_ID p = j)); lia.
  - destruct Ht as [Hl Hs]. split; [|lia].
    apply (key_balanced n n' w w' (pr_ID p) 1); [done|done|by right|apply Hs|apply Hs|apply Hs|]. intros j _.
    destruct Hs as (_ & _ & _ & Hs & _). unfold key_count. rewrite Et, Hs. cbn. rewrite default_insert.
    destruct (decide (pr_ID p = j)) as [<-|]; lia.
Qed.

Lemma effect_balanced t w t' w' n n' :
  effect t w t' w' -> balanced n w -> machine_row t' ->
  (forall d, 0 <= n d /\ owed d t <= n d /\ n' d = n d + owed d t' - owed d t) -> balanced n' w'.
Proof.
  intros He Hb Hm Hn.
  assert (Htake : forall x, t_defers t' = x :: t_defers t -> shifts n n' 1 x).
  { intros x E d. destruct (Hn d) as (_ & _ & ->). rewrite (owed_cons d x t t' E). lia. }
  assert (Hgive : forall x, t_defers t = x :: t_defers t' -> shifts n n' (-1) x /\ 0 < n x).
  { intros x E. split; [intros d|].
    - destruct (Hn d) as (_ & _ & ->). rewrite (owed_cons d x t' t E). lia.
    - destruct (Hn x) as (_ & Ho & _). rewrite (owed_cons x x t' t E), one_same in Ho.
      pose proof (owed_nonneg x t'). lia. }
  assert (Hkeep : t_defers t' = t_defers t -> forall d, n' d = n d).
  { intros E d. destruct (Hn d) as (_ & _ & ->). unfold owed. rewrite E. lia. }
  destruct He as [ds E1 E2 Hs|s Ht E Hs|s Ht E Hs|E Hs|name k Hk Hlt E Hs|name E Hs|p Hp Hne E Ht|id Ht E Hs|id E Hs].
  - apply (balanced_same n n' w w'); [|done..]. intros d Hd. destruct (Hn d) as (_ & _ & ->). unfold owed.
    pose proof (one_other DeferBilling d ltac:(congruence)) as Ho. unfold one in Ho.
    destruct E1 as [-> | ->], E2 as [-> | ->]; rewrite ?sumZ_cons; lia.
  - apply try_inv in Ht. subst s. eapply balanced_same; [intros d _; by apply Hkeep|exact Hs|]. by destruct w, Hb.
  - apply try_inv in Ht as (Hr & Hw & Hc). eapply balanced_same; [done|exact Hs|].
    destruct Hb as [? ? [? ?] ? ?] eqn:Hb'. by eapply limit_balanced; [by apply Htake|..]; try lia.
  - destruct (Hgive _ E) as [Hg Hp]. eapply balanced_same; [done|exact Hs|].
    pose proof Hb as [? ? [? ?] ? ?]. destruct (released 1 (sem w)) as [Hw Hc]; [lia|].
    eapply limit_balanced; [exact Hg|done|lia..].
  - eapply balanced_same; [done|exact Hs|]. subst k. pose proof (bal_provider _ _ Hb name).
    apply (provider_balanced n); [by apply Htake|done|lia].
  - destruct (Hgive _ E) as [Hg Hp]. eapply balanced_same; [done|exact Hs|].
    pose proof (bal_provider _ _ Hb name). apply (provider_balanced n n' w name (-1)); [done..|lia].
  - eapply key_taken_balanced; [by apply Htake|done|apply Hn|by apply Hm|done|exact Ht].
  - eapply balanced_same; [intros d _; by apply Hkeep|exact Hs|]. destruct Hb as [? ? ? ? H5]. split; cbn; try done.
    intros j. specialize (H5 j). rewrite Ht in *. rewrite default_insert.
    by destruct (decide (id = j)) as [<-|].
  - destruct (Hgive _ E) as [Hg Hp]. eapply balanced_same; [done|exact Hs|].
    pose proof (bal_key _ _ Hb id) as Hk.
    assert (Hc : (0 < id \/ tracked = false) /\ 0 < key_count w id).
    { unfold key_count. destruct tracked; [|split; [by right|lia]]. destruct Hk as [Hk Hk0].
      destruct (decide (0 < id)); [split; [by left|rewrite Hk; lia]|]. rewrite Hk0 in Hp; lia. }
    destruct Hc as [Hc Hcnt].
    apply (key_balanced n n' w (release_key id w) id (-1)); try done; try (unfold release_key; by repeat case_match).
    intros j _. by apply release_count.
Qed.

(** ** The fate of one request *)
Definition route (limited : bool) : list stage := inferenceAuth (if limited then [StageLimit] else []).

(** Who the request is for: nobody in particular, or a key the store authorised. *)
Definition identified (t : thread) : Prop :=
  (t_principal t = None /\ t_fingerprint t = "anonymous") \/
  exists server now p0 d0 p1 d1 key,
    AuthorizeApiKey cjson digest server now (apiKeyToken (t_request t)) p0 d0 = (Ok key, p1, d1) /\
    t_principal t = Some (mkPrincipal (r_ID (k_record key)) (r_AllowedModels (k_record key))
                            (r_MaxConcurrent (k_record key)) (r_BillingLimitUSDTicks (k_record key)) EmptyString) /\
    t_fingerprint t = digest (apiKeyToken (t_request t)).

Definition must_hold (t : thread) : option (Z * Z) := metered (t_principal t) (t_request t) (q_body (t_request t)).
Definition event_of (t : thread) : string := q_request_id (t_request t).

Definition unbilled (t : thread) : Prop := t_hold t = None /\ owed DeferBilling t = 0 /\ t_calls t = [].

Definition charged (t : thread) : Prop :=
  match must_hold t with
  | None => unbilled t
  | Some (key, amount) =>
      t_hold t = Some (mkHold key (event_of t) amount false no_price) /\ owed DeferBilling t = 1 /\
      t_calls t = [CallReserve key (event_of t) amount (Ok true)]
  end.

Definition booked (t : thread) : Prop :=
  exists key amount price reply, must_hold t = Some (key, amount) /\
    t_hold t = Some (mkHold key (event_of t) amount true price) /\
    t_calls t = [CallReserve key (event_of t) amount (Ok true); CallSettle key (event_of t) (CostInUSDTicks price) reply].

Definition dropped (t : thread) : Prop :=
  exists key amount reply, must_hold t = Some (key, amount) /\
    t_hold t = Some (mkHold key (event_of t) amount false no_price) /\ owed DeferBilling t = 0 /\
    t_calls t = [CallReserve key (event_of t) amount (Ok true); CallRelease key (event_of t) reply].

(** No handler ran; the ledger was not asked, or it refused. *)
Definition refused (t : thread) : Prop :=
  (exists r, t_response t = Some r /\ rs_status r ∈ [503; 401; 429; 402]) /\
  t_hold t = None /\ owed DeferBilling t = 0 /\
  (t_calls t = [] \/ exists key amount reply, must_hold t = Some (key, amount) /\ reply <> Ok true /\
                       t_calls t = [CallReserve key (event_of t) amount reply]).

(** A request that has passed [k] of its middleware. *)
Definition passed (k : nat) (t : thread) : Prop :=
  t_handled t = 0%nat /\ t_response t = None /\ ((0 < k)%nat -> t_admitted t = true) /\
  (if (k <=? 2)%nat then t_principal t = None /\ t_fingerprint t = EmptyString else identified t) /\
  (if (k <=? 4)%nat then unbilled t /\ t_body t = q_body (t_request t) else charged t).

Definition fate (limited : bool) (t : thread) : Prop :=
  match t_phase t with
  | Entering rest => exists k, (k <= length (route limited))%nat /\ rest = drop k (route limited) /\ passed k t
  | Swapping _ _ _ rest => rest = drop 2 (route limited) /\ passed 1 t
  | Handling => t_handled t = 1%nat /\ t_response t = None /\ identified t /\ (charged t \/ booked t)
  | Unwinding =>
      (t_handled t = 1%nat /\ t_response t = None /\ identified t /\ (charged t \/ booked t \/ dropped t)) \/
      (t_handled t = 0%nat /\ refused t)
  end.

Lemma passed_refused k t r :
  passed k t -> (k <= 4)%nat -> rs_status r ∈ [503; 401; 429; 402] ->
  t_handled (refuse r t) = 0%nat /\ refused (refuse r t).
Proof.
  intros (Hh & _ & _ & _ & Hb) Hk Hr. destruct (Nat.leb_spec k 4); [|lia].
  destruct Hb as [(Hhold & Ho & Hc) _]. split; [done|]. split; [by exists r|]. split; [done|]. split; [done|by left].
Qed.

Lemma next_stage limited k s rest :
  s :: rest = drop k (route limited) -> rest = drop (Datatypes.S k) (route limited) /\
  (k < length (route limited))%nat /\ route limited !! k = Some s.
Proof.
  intros E. assert (Hk : route limited !! k = Some s).
  { pose proof (lookup_drop (route limited) k 0) as Hl. rewrite <- E, Nat.add_0_r in Hl. by rewrite <- Hl. }
  split_and!; [|by eapply lookup_lt_Some|done].
  rewrite (drop_S _ s k Hk) in E. by injection E.
Qed.

Lemma push_pass d rest t : push d (pass rest t) = pass rest (push d t).
Proof. done. Qed.

Lemma passed_push k d t : d <> DeferBilling -> passed k t -> passed k (push d t).
Proof.
  intros Hd (Hh & Hr & Ha & Hid & Hb). unfold passed. split_and!; try done.
  assert (Ho : owed DeferBilling (push d t) = owed DeferBilling t).
  { rewrite (owed_cons DeferBilling d t (push d t)), one_other by done. lia. }
  destruct (Nat.leb_spec k 4); [|unfold charged, unbilled in *; rewrite Ho; exact Hb].
  destruct Hb as [(? & ? & ?) ?]. split; [|done]. split; [done|]. by rewrite Ho.
Qed.

(** Refusing and passing on, the two ends of every middleware. *)
Lemma fate_refuse limited k t r :
  passed k t -> (k <= 4)%nat -> rs_status r ∈ [503; 401; 429; 402] -> fate limited (refuse r t).
Proof. intros Hp Hk Hr. right. by eapply passed_refused. Qed.

Lemma fate_pass limited k t :
  (k < length (route limited))%nat -> passed (Datatypes.S k) t -> fate limited (pass (drop (Datatypes.S k) (route limited)) t).
Proof. intros Hk Hp. exists (Datatypes.S k). by split. Qed.

Lemma drop_route limited k : (k < length (route limited))%nat ->
  exists s, route limited !! k = Some s /\ drop k (route limited) = s :: drop (Datatypes.S k) (route limited).
Proof.
  intros Hk. destruct (lookup_lt_is_Some_2 (route limited) k Hk) as [s Hs]. exists s. split; [done|]. by apply drop_S.
Qed.

Lemma passed_next k t : passed k t -> t_admitted t = true -> k <> 2%nat -> k <> 4%nat -> passed (Datatypes.S k) t.
Proof.
  intros (Hh & Hr & _ & Hid & Hb) Ha H2 H4. unfold passed. split_and!; try done.
  - destruct (Nat.leb_spec k 2), (Nat.leb_spec (Datatypes.S k) 2); try lia; done.
  - destruct (Nat.leb_spec k 4), (Nat.leb_spec (Datatypes.S k) 4); try lia; done.
Qed.

Lemma limit_fate limited k t w :
  (k = 0 \/ k = 5)%nat -> (k < length (route limited))%nat -> passed k t ->
  fate limited (Limit (drop (Datatypes.S k) (route limited)) t w).1.
Proof.
  intros Hk Hlen Hp. pose proof Hp as (Hh & Hr & Ha & Hid & Hb). unfold Limit.
  destruct (t_admitted t) eqn:Eadm.
  - apply fate_pass, passed_next; [done|done|done|lia..].
  - destruct Hk as [-> | ->]; [|specialize (Ha ltac:(lia)); congruence].
    destruct (TryAcquire 1 (sem w)) as [[] s]; cbn [negb fst]; [|by eapply fate_refuse; [exact Hp|lia|set_solver]].
    assert (Hp' : passed 0 (t <| t_admitted := true |>)).
    { split_and!; [exact Hh|exact Hr|done|exact Hid|exact Hb]. }
    rewrite push_pass. apply (fate_pass limited 0), passed_push, passed_next; [done|done|exact Hp'|done|lia..].
Qed.

Lemma load_fate limited name limit t w :
  passed 1 t -> fate limited (load_count name limit (drop 2 (route limited)) t w).1.
Proof.
  intros Hp. unfold load_count. destruct (limit <=? _); [by eapply fate_refuse; [exact Hp|lia|set_solver]|done].
Qed.

Lemma fate_pass_provider limited t : passed 1 t -> fate limited (pass (drop 2 (route limited)) t).
Proof. intros Hp. apply (fate_pass limited 1); [cbn; lia|]. apply passed_next; [done|apply Hp; lia|lia..]. Qed.

Lemma provider_fate limited e t w :
  passed 1 t -> fate limited (ProviderAdmission e (drop 2 (route limited)) t w).1.
Proof.
  intros Hp. unfold ProviderAdmission. case_bool_decide; [by apply fate_pass_provider|].
  destruct (_ <=? 0); [by apply fate_pass_provider|by apply load_fate].
Qed.

Lemma swap_fate limited name limit n t w :
  passed 1 t -> fate limited (CompareAndSwap name limit n (drop 2 (route limited)) t w).1.
Proof.
  intros Hp. unfold CompareAndSwap. destruct (_ =? n); [|by apply load_fate].
  cbn [fst]. rewrite push_pass. by apply fate_pass_provider, passed_push.
Qed.

Lemma auth_fate limited e t w :
  passed 2 t -> fate limited (APIKeyAuthWithRequest e (drop 3 (route limited)) t w).1.
Proof.
  intros Hp. pose proof Hp as (Hh & Hr & Ha & [Hn Hfp] & Hb). unfold APIKeyAuthWithRequest.
  assert (Hrefuse : forall r, rs_status r ∈ [503; 401; 429; 402] -> fate limited (refuse r t)).
  { intros r Hr'. eapply fate_refuse; [exact Hp|lia|done]. }
  destruct (negb (e_required e)).
  { apply (fate_pass limited 2); [cbn; lia|]. refine (conj Hh (conj Hr (conj (fun _ => Ha ltac:(lia)) (conj _ Hb)))). by left. }
  destruct (String.eqb _ _); [apply Hrefuse; set_solver|]. unfold validate.
  destruct (AuthorizeApiKey _ _ _ _ _ _ _) as [[r p] d] eqn:Eauth.
  assert (Hv : forall v, v = principal_of r \/ v = None ->
    fate limited (answer_validation (apiKeyToken (t_request t)) v (drop 3 (route limited)) t)).
  { intros v [-> | ->]; [|apply Hrefuse; set_solver].
    destruct r as [key|[| | |e0]]; try (apply Hrefuse; set_solver).
    apply (fate_pass limited 2); [cbn; lia|]. refine (conj Hh (conj Hr (conj (fun _ => Ha ltac:(lia)) (conj _ Hb)))).
    right. eexists _, _, _, _, _, _, key. split; [exact Eauth|]. by split. }
  destruct (e_delivery e); apply Hv; auto.
Qed.

Lemma key_fate limited t w :
  passed 3 t -> fate limited (APIKeyConcurrencyWithTracker (drop 4 (route limited)) t w).1.
Proof.
  intros Hp. pose proof Hp as (Hh & Hr & Ha & Hid & Hb). unfold APIKeyConcurrencyWithTracker.
  assert (Hrefuse : fate limited (refuse concurrency_exceeded t)).
  { eapply fate_refuse; [exact Hp|lia|set_solver]. }
  assert (Hpass : fate limited (pass (drop 4 (route limited)) t)).
  { apply (fate_pass limited 3); [cbn; lia|]. apply passed_next; [done|apply Hp; lia|lia..]. }
  assert (Hpush : forall id, fate limited (push (DeferKey id) (pass (drop 4 (route limited)) t))).
  { intros id. rewrite push_pass. apply (fate_pass limited 3); [cbn; lia|].
    apply passed_push, (passed_next 3); [done|done|apply Hp; lia|lia..]. }
  repeat (case_match; cbn [fst]; try done).
Qed.

(** What restoring the body leaves alone. *)
Lemma restore_same t : exists b, restore_body t = t <| t_body := b |>.
Proof. unfold restore_body. destruct (reads_body _ _); [by eexists|]. exists (t_body t). by destruct t. Qed.

Lemma billing_fate limited e t w :
  passed 4 t -> fate limited (APIKeyBillingReservation e (drop 5 (route limited)) t w).1.
Proof.
  intros (Hh & Hr & Ha & Hid & [(Hhold & Ho & Hc) Hbody]). unfold APIKeyBillingReservation.
  assert (Hm : metered (t_principal t) (t_request t) (t_body t) = must_hold t) by (by rewrite Hbody).
  destruct (restore_same t) as [b ->]. rewrite Hm.
  assert (Hlen : (4 < length (route limited))%nat) by (cbn; lia).
  destruct (must_hold t) as [[key amount]|] eqn:Em.
  - destruct (deliver _ _ _) as [[[]|err] d]; cbn [fst].
    + rewrite push_pass. apply (fate_pass limited 4); [done|].
      refine (conj Hh (conj Hr (conj (fun _ => Ha ltac:(lia)) (conj Hid _)))). unfold charged.
      change (must_hold (push _ _)) with (must_hold t). rewrite Em. split; [done|].
      split; [|by cbn; rewrite Hc]. rewrite (owed_cons DeferBilling DeferBilling t), one_same by done. lia.
    + right. split; [done|]. split; [eexists; split; [done|set_solver]|]. split; [done|]. split; [done|].
      right. eexists key, amount, _. split; [exact Em|]. split; [|by cbn; rewrite Hc]. done.
    + right. split; [done|]. split; [eexists; split; [done|set_solver]|]. split; [done|]. split; [done|].
      right. eexists key, amount, _. split; [exact Em|]. split; [|by cbn; rewrite Hc]. done.
  - apply (fate_pass limited 4); [done|].
    refine (conj Hh (conj Hr (conj (fun _ => Ha ltac:(lia)) (conj Hid _)))). unfold charged.
    change (must_hold (t <| t_body := b |>)) with (must_hold t). by rewrite Em.
Qed.

(** The event of a hold is not empty: such a request is not metered. *)
Lemma must_hold_event t key amount : must_hold t = Some (key, amount) -> (key =? 0) || String.eqb (event_of t) EmptyString = false.
Proof.
  unfold must_hold, metered, event_of. repeat case_match; try done. intros [= <- _]. bool_to_prop.
  apply orb_false_iff. split; [by apply Z.eqb_neq|done].
Qed.

Lemma settle_fate e model source input cached output allow t w :
  charged t \/ booked t ->
  let t' := (SettleAPIKeyBilling e model source input cached output allow t w).2.1 in
  (charged t' \/ booked t') /\ t_handled t' = t_handled t /\ t_response t' = t_response t /\
  (identified t -> identified t').
Proof.
  intros Hb. unfold SettleAPIKeyBilling.
  destruct (negb _ && _); [done|]. destruct (EstimateCost _ _ _ _ _) as [price|]; [|done].
  destruct (if wired then t_hold t else None) as [r|] eqn:Er; [|done].
  assert (Hr : t_hold t = Some r) by (by destruct wired). destruct (_ || _); [done|]. unfold claim.
  destruct (h_settled r) eqn:Es; [done|]. cbn [negb].
  destruct (deliver _ _ _) as [reply d]. cbn [snd fst]. split; [|done]. right.
  destruct Hb as [Hb|(key & amount & p0 & rep & _ & Hh & _)]; [|rewrite Hr in Hh; by simplify_eq].
  unfold charged in Hb. destruct (must_hold t) as [[key amount]|] eqn:Em.
  2: { destruct Hb as [Hb _]. by rewrite Hr in Hb. }
  destruct Hb as (Hh & _ & Hc). rewrite Hr in Hh. injection Hh as ->.
  exists key, amount, price, reply. split; [exact Em|]. split; [done|]. cbn. by rewrite Hc.
Qed.

Lemma handle_fate limited e t w : t_phase t = Handling -> fate limited t -> fate limited (handle e t w).1.
Proof.
  intros Hp Hf. unfold fate in Hf. rewrite Hp in Hf. destruct Hf as (Hh & Hr & Hid & Hb). unfold handle.
  destruct (e_action e) as [model source input cached output allow|].
  - pose proof (settle_fate e model source input cached output allow t w Hb) as (Hb' & Hh' & Hr' & Hid').
    pose proof (settle_phase e model source input cached output allow t w) as Hph.
    unfold fate. rewrite Hph, Hp. split; [congruence|]. split; [congruence|]. split; [by apply Hid'|done].
  - left. split; [done|]. split; [done|]. split; [exact Hid|]. destruct Hb; auto.
Qed.

Lemma deferred_fate limited e d ds t w :
  t_phase t = Unwinding -> t_defers t = d :: ds -> fate limited t ->
  fate limited (run_deferred e d (t <| t_defers := ds |>) w).1.
Proof.
  intros Hp Hd Hf. unfold fate in Hf. rewrite Hp in Hf. unfold fate. rewrite deferred_phase.
  change (t_phase (t <| t_defers := ds |>)) with (t_phase t). rewrite Hp.
  set (t1 := t <| t_defers := ds |>).
  assert (Ho : owed DeferBilling t = one d DeferBilling + owed DeferBilling t1) by (by apply owed_cons).
  destruct (decide (d = DeferBilling)) as [->|Hne].
  - rewrite one_same in Ho. cbn [run_deferred]. pose proof (owed_nonneg DeferBilling t1) as Hpos.
    destruct Hf as [(Hh & Hr & Hid & Hb)|(Hh & _ & _ & Hz & _)]; [|lia]. left.
    destruct Hb as [Hb|[Hb|(k & a & rep & _ & _ & Hz & _)]]; [| |lia].
    + unfold charged in Hb. destruct (must_hold t) as [[key amount]|] eqn:Em; [|destruct Hb as (_ & Hz & _); lia].
      destruct Hb as (Hhold & H1 & Hc). unfold release_hold. change (t_hold t1) with (t_hold t). rewrite Hhold. cbn [h_settled].
      destruct (deliver _ _ _) as [reply dd]. cbn [fst]. split; [done|]. split; [done|]. split; [exact Hid|]. right. right.
      exists key, amount, reply. split; [exact Em|]. split; [exact Hhold|]. split; [change (owed DeferBilling t1 = 0); lia|]. cbn. by rewrite Hc.
    + pose proof Hb as (key & amount & price & reply & Em & Hhold & Hc). unfold release_hold.
      change (t_hold t1) with (t_hold t). rewrite Hhold. cbn [h_settled fst]. split; [done|]. split; [done|]. split; [exact Hid|].
      right. left. exact Hb.
  - rewrite one_other in Ho by done. assert (Hrun : (run_deferred e d t1 w).1 = t1) by (by destruct d).
    rewrite Hrun. destruct Hf as [(Hh & Hr & Hid & Hb)|(Hh & Href & Hn & Hz & Hc)].
    + left. split; [done|]. split; [done|]. split; [exact Hid|].
      destruct Hb as [Hb|[Hb|(k & a & rep & Em & Hhold & Hz & Hc)]]; [left|by right; left|right; right].
      * unfold charged, unbilled in *. change (must_hold t1) with (must_hold t).
        destruct (must_hold t) as [[key amount]|]; rewrite Ho in Hb; exact Hb.
      * exists k, a, rep. split; [exact Em|]. split; [exact Hhold|]. split; [lia|exact Hc].
    + right. split; [done|]. split; [exact Href|]. split; [exact Hn|]. split; [lia|exact Hc].
Qed.

Lemma advance_fate limited e t w : fate limited t -> fate limited (advance e t w).1.
Proof.
  intros Hf. unfold advance. destruct (t_phase t) as [[|s rest]|name limit n rest| |] eqn:Ep.
  - unfold fate in Hf. rewrite Ep in Hf. destruct Hf as (k & Hk & E & (Hh & Hr & Ha & Hid & Hb)).
    assert (Hlen : (5 <= k)%nat).
    { apply (f_equal length) in E. rewrite length_drop in E. cbn in E, Hk. destruct limited; cbn in *; lia. }
    destruct (Nat.leb_spec k 2); [lia|]. destruct (Nat.leb_spec k 4); [lia|].
    split; [by cbn; rewrite Hh|]. split; [done|]. split; [exact Hid|]. left. exact Hb.
  - unfold fate in Hf. rewrite Ep in Hf. destruct Hf as (k & Hk & E & Hp).
    apply next_stage in E as (-> & Hlt & Hs).
    destruct k as [|[|[|[|[|[|k]]]]]]; cbn in Hs; simplify_eq; cbn [enter].
    + by apply limit_fate; [left|..].
    + by apply provider_fate.
    + by apply auth_fate.
    + by apply key_fate.
    + by apply billing_fate.
    + destruct limited; [|done]. injection Hs as <-. by apply limit_fate; [right|..].
    + exfalso. destruct limited; cbn in Hlt; lia.
  - unfold fate in Hf. rewrite Ep in Hf. destruct Hf as [-> Hp]. by apply swap_fate.
  - by apply handle_fate.
  - destruct (t_defers t) as [|d ds] eqn:Ed; [done|]. by apply deferred_fate.
Qed.

(** ** Who a hold belongs to *)
Hypothesis HGETALL_fields : forall h, HGETALL h ≡ₚ map_to_list h.

(** Nothing is booked under [ev] that was not. *)
Definition quiet (ev : string) (l l' : ledger) : Prop :=
  (is_Some (holds l' !! ev) -> is_Some (holds l !! ev)) /\ (is_Some (settled l' !! ev) -> is_Some (settled l !! ev)).
Definition quiet_db (ev : string) (d d' : KeyDb) : Prop := forall key, quiet ev (ledger_of d key) (ledger_of d' key).

Lemma quiet_refl ev l : quiet ev l l.
Proof. done. Qed.
Lemma quiet_db_refl ev d : quiet_db ev d d.
Proof. intros key. apply quiet_refl. Qed.
Lemma quiet_db_trans ev d1 d2 d3 : quiet_db ev d1 d2 -> quiet_db ev d2 d3 -> quiet_db ev d1 d3.
Proof. intros H1 H2 key. destruct (H1 key), (H2 key). split; auto. Qed.

Lemma ledger_of_set id l d key : ledger_of (set_ledger id l d) key = if decide (id = key) then l else ledger_of d key.
Proof.
  unfold ledger_of. cbn. case_decide; [subst; by rewrite lookup_insert_eq|by rewrite lookup_insert_ne].
Qed.

Lemma set_ledger_quiet ev id l d : quiet ev (ledger_of d id) l -> quiet_db ev d (set_ledger id l d).
Proof. intros Hq key. rewrite ledger_of_set. destruct (decide (id = key)) as [<-|]; [done|apply quiet_refl]. Qed.

Lemma set_holds_quiet ev h e l : (is_Some (h !! ev) -> is_Some (holds l !! ev)) -> quiet ev l (set_holds h e l).
Proof. by intros Hh. Qed.

Lemma shrunk_live now server l h ev : shrunk now (live_holds server l) h -> is_Some (h !! ev) -> is_Some (holds l !! ev).
Proof.
  intros Hs [raw Hr]. exists raw. eapply lookup_weaken; [|apply (live_sub server)].
  eapply lookup_weaken; [exact Hr|]. by eapply shrunk_subseteq.
Qed.

(** A reservation books its own event at most, and only when it is granted. *)
Lemma reserve_books_own server now id event amount expires l ev :
  let '(reply, l') := ReserveApiKeyBilling HGETALL server now id event amount expires l in
  ev <> event \/ reply <> Ok true -> quiet ev l l'.
Proof.
  unfold ReserveApiKeyBilling. destruct (_ || _); [done|]. destruct (_ <=? 0); [done|].
  destruct (IsZero expires); [done|].
  pose proof (reserve_spec HGETALL HGETALL_fields (UnixMilli server) event amount (Unix now) (Unix expires) l) as Hsp.
  cbv zeta in Hsp. destruct (reserveApiKeyBillingScript _ _ _ _ _ _ _) as [reply l'].
  destruct Hsp as (h & e & Hs & Hcase).
  assert (Hq : quiet ev l (set_holds h e l)) by (apply set_holds_quiet; by eapply shrunk_live).
  destruct (held_already _ _ _) as [held|].
  - destruct Hcase as [-> ->]. by destruct (held =? amount).
  - destruct (_ && _); [destruct Hcase as [-> ->]; done|]. destruct Hcase as (-> & -> & _ & _).
    intros [Hne|Hne]; [|done]. apply set_holds_quiet. rewrite lookup_insert_ne by done. by eapply shrunk_live.
Qed.

Lemma delete_live_quiet ev event server l e : quiet ev l (set_holds (delete event (live_holds server l)) e l).
Proof.
  apply set_holds_quiet. intros [raw [_ Hr]%lookup_delete_Some]. exists raw.
  eapply lookup_weaken; [exact Hr|apply live_sub].
Qed.

Lemma release_quiet server id event l ev : quiet ev l (ReleaseApiKeyBilling server id event l).2.
Proof.
  unfold ReleaseApiKeyBilling. destruct (_ || _); [done|]. apply delete_live_quiet.
Qed.

Lemma release_gone server id event l b l' :
  ReleaseApiKeyBilling server id event l = (Ok b, l') -> holds l' !! event = None.
Proof.
  unfold ReleaseApiKeyBilling. destruct (_ || _); [done|]. intros [= _ <-]. apply lookup_delete_eq.
Qed.

(** A settlement books its own event, which leaves the holds. *)
Lemma settle_spec server id event amount l :
  let '(reply, l') := SettleApiKeyBilling server id event amount l in
  (forall ev, ev <> event -> quiet ev l l') /\
  (is_Some (holds l' !! event) -> is_Some (holds l !! event)) /\
  (reply = Ok tt -> settled l !! event = None -> holds l' !! event = None).
Proof.
  unfold SettleApiKeyBilling. destruct (_ || _); [done|]. destruct (amount <? 0); [done|].
  unfold settleApiKeyBillingScript. destruct (settled l !! event) as [prior|] eqn:E.
  { destruct (prior =? amount); done. }
  assert (Hh : forall ev, is_Some (delete event (live_holds (UnixMilli server) l) !! ev) -> is_Some (holds l !! ev)).
  { intros ev. apply (proj1 (delete_live_quiet ev event (UnixMilli server) l None)). }
  destruct (_ && _); cbn [fst snd]; (split; [|split; [apply Hh|intros; apply lookup_delete_eq]]);
    intros ev Hne; (split; [apply Hh|cbn; by rewrite lookup_insert_ne]).
Qed.

(** Authorising a key books nothing. *)
Lemma same_ledgers_quiet ev d d' : key_ledgers d' = key_ledgers d -> quiet_db ev d d'.
Proof. intros E key. unfold ledger_of. rewrite E. apply quiet_refl. Qed.

Lemma rollover_quiet ev key now d : quiet_db ev d (rolloverApiKeyBilling cjson key now d).2.
Proof.
  unfold rolloverApiKeyBilling. destruct (_ <=? 0); [apply quiet_db_refl|].
  assert (Hq : quiet_db ev d (RolloverApiKeyBilling cjson key now d).2).
  { unfold RolloverApiKeyBilling, rolloverApiKeyBillingScript.
    repeat (case_match; simplify_eq; try apply quiet_db_refl); cbn [snd].
    all: intros j; rewrite ledger_of_set; case_decide; [subst j|apply quiet_refl].
    all: split; [done|]; cbn; by intros [? ?]. }
  by destruct (RolloverApiKeyBilling _ _ _ _) as [[[]|] d'].
Qed.

Lemma authorize_quiet ev server now token p d : quiet_db ev d (AuthorizeApiKey cjson digest server now token p d).2.
Proof.
  unfold AuthorizeApiKey. destruct (String.eqb _ _); [apply quiet_db_refl|].
  destruct (GetApiKeyByHash _ _ _) as [[key|e] p1]; [|apply quiet_db_refl].
  destruct (negb _); [apply quiet_db_refl|].
  match goal with |- quiet_db _ _ (if ?b then _ else _).2 => destruct b end; [apply quiet_db_refl|].
  assert (Hfin : forall r (p2 : process) d2, key_ledgers d2 = key_ledgers d -> quiet_db ev d
    (let '(k, d3) := rolloverApiKeyBilling cjson r now d2 in (@Ok ApiKey auth_error k, p2, d3)).2).
  { intros r p2 d2 E. pose proof (rollover_quiet ev r now d2) as Hr.
    destruct (rolloverApiKeyBilling _ _ _ _) as [k d3]. cbn in *.
    eapply quiet_db_trans; [by apply same_ledgers_quiet|exact Hr]. }
  destruct (0 <? _).
  - assert (Hc : key_ledgers (ConsumeApiKeyRPM cjson server (r_ID (k_record key)) (r_RPMLimit (k_record key)) now d).2 = key_ledgers d).
    { unfold ConsumeApiKeyRPM, consumeApiKeyRPMScript. by repeat case_match; simplify_eq. }
    destruct (ConsumeApiKeyRPM _ _ _ _ _ _) as [[[]|] d2]; [by apply Hfin|by apply same_ledgers_quiet..].
  - assert (Ht : key_ledgers (touchApiKeyCoalesced cjson (r_ID (k_record key)) now p1 d).2 = key_ledgers d).
    { unfold touchApiKeyCoalesced, TouchApiKeyLastUsed. by repeat case_match; simplify_eq. }
    destruct (touchApiKeyCoalesced _ _ _ _ _) as [[[|] p2] d2]; [by apply Hfin|by apply same_ledgers_quiet].
Qed.

(** ** Accounts *)
Definition call_failed (c : ledger_call) : Prop :=
  match c with
  | CallReserve _ _ _ (Err _) | CallSettle _ _ _ (Err _) | CallRelease _ _ (Err _) => True
  | _ => False
  end.
Definition failed (t : thread) : Prop := Exists call_failed (t_calls t).

(** The request still has to give its hold on [key] back. *)
Definition owes (t : thread) (key : Z) : Prop :=
  exists amount, t_hold t = Some (mkHold key (event_of t) amount false no_price) /\ 0 < owed DeferBilling t.
Definition settled_on (t : thread) (key : Z) : Prop :=
  exists r, t_hold t = Some r /\ h_settled r = true /\ h_KeyID r = key.

Definition accounted (t : thread) (d : KeyDb) : Prop :=
  forall key,
    (is_Some (holds (ledger_of d key) !! event_of t) -> owes t key \/ failed t) /\
    (is_Some (settled (ledger_of d key) !! event_of t) -> settled_on t key).

(** A step that leaves the hold and the calls of its request alone. *)
Lemma accounted_quiet t t' d d' :
  accounted t d -> quiet_db (event_of t) d d' ->
  t_request t' = t_request t -> t_hold t' = t_hold t -> t_calls t' = t_calls t ->
  (t_hold t <> None -> 0 < owed DeferBilling t -> 0 < owed DeferBilling t') -> accounted t' d'.
Proof.
  intros Ha Hq Er Eh Ec Ho key. destruct (Ha key) as [H1 H2], (Hq key) as [H3 H4].
  unfold owes, settled_on, failed, event_of in *. rewrite Er, Eh, Ec. split.
  - intros Hs. destruct (H1 (H3 Hs)) as [(a & Hh & Hp)|Hf]; [left|by right]. exists a. split; [done|].
    apply Ho; [by rewrite Hh|done].
  - auto.
Qed.

Lemma deliver_quiet {A} ev dl d (call : result A ledger_error * KeyDb) :
  quiet_db ev d call.2 -> quiet_db ev d (deliver dl d call).2.
Proof. intros Hq. destruct dl; [done..|apply quiet_db_refl]. Qed.

Lemma on_ledger_quiet {A} ev key (call : ledger -> result A ledger_error * ledger) d :
  quiet ev (ledger_of d key) (call (ledger_of d key)).2 -> quiet_db ev d (on_ledger key call d).2.
Proof. unfold on_ledger. destruct (call _) as [r l]. apply set_ledger_quiet. Qed.

Lemma reserve_settled server now id event amount expires l :
  settled (ReserveApiKeyBilling HGETALL server now id event amount expires l).2 = settled l.
Proof. unfold ReserveApiKeyBilling, reserveApiKeyBillingScript. by repeat case_match; simplify_eq. Qed.

Lemma restore_accounts t :
  t_request (restore_body t) = t_request t /\ t_hold (restore_body t) = t_hold t /\
  t_calls (restore_body t) = t_calls t /\ owed DeferBilling (restore_body t) = owed DeferBilling t.
Proof. destruct (restore_same t) as [b ->]. done. Qed.

(** A request without a hold that asked nothing of the ledger has nothing in it. *)
Lemma unbilled_clean t d key : unbilled t -> accounted t d ->
  holds (ledger_of d key) !! event_of t = None /\ settled (ledger_of d key) !! event_of t = None.
Proof.
  intros (Hh & _ & Hc) Ha. destruct (Ha key) as [H1 H2]. split; apply eq_None_not_Some; intros Hs.
  - destruct (H1 Hs) as [(a & Hh' & _)|Hf]; [congruence|]. unfold failed in Hf. rewrite Hc in Hf. by apply Exists_nil in Hf.
  - destruct (H2 Hs) as (r & Hh' & _). congruence.
Qed.

(** One reservation over the network. *)
Lemma reserve_call dl server now key event amount expires d :
  let '(reply, d') := deliver dl d
     (on_ledger key (ReserveApiKeyBilling HGETALL server now key event amount expires) d) in
  (forall ev, ev <> event -> quiet_db ev d d') /\
  (forall j, settled (ledger_of d' j) = settled (ledger_of d j)) /\
  match reply with
  | Ok true => forall j, j <> key -> ledger_of d' j = ledger_of d j
  | Ok false => quiet_db event d d'
  | Err _ => True
  end.
Proof.
  unfold on_ledger. set (l := ledger_of d key).
  pose proof (fun ev => reserve_books_own server now key event amount expires l ev) as Hq.
  pose proof (reserve_settled server now key event amount expires l) as Hs.
  destruct (ReserveApiKeyBilling _ _ _ _ _ _ _ _) as [reply l'] eqn:Er. cbn [snd] in Hs.
  assert (H1 : forall ev, ev <> event -> quiet_db ev d (set_ledger key l' d)).
  { intros ev Hne. apply set_ledger_quiet, Hq. by left. }
  assert (H2 : forall j, settled (ledger_of (set_ledger key l' d) j) = settled (ledger_of d j)).
  { intros j. rewrite ledger_of_set. case_decide; [by subst j|done]. }
  destruct dl; cbn [deliver fst snd].
  2: { by split. }
  2: { split; [intros; apply quiet_db_refl|done]. }
  split; [exact H1|]. split; [exact H2|]. destruct reply as [[]|]; [| |done].
  - intros j Hj. rewrite ledger_of_set. by rewrite decide_False.
  - apply set_ledger_quiet, Hq. by right.
Qed.

Lemma accounted_fresh t d :
  (forall key, is_Some (holds (ledger_of d key) !! event_of t) -> owes t key \/ failed t) ->
  (forall key, settled (ledger_of d key) !! event_of t = None) -> accounted t d.
Proof. intros Hh Hs key. split; [apply Hh|]. rewrite Hs. by intros [? ?]. Qed.

Lemma billing_accounted e rest t w :
  unbilled t -> accounted t (db w) ->
  let '(t', w') := APIKeyBillingReservation e rest t w in
  accounted t' (db w') /\ t_request t' = t_request t /\ forall ev, ev <> event_of t -> quiet_db ev (db w) (db w').
Proof.
  intros Hu Ha. pose proof Hu as (Hhold & Ho & Hc). unfold APIKeyBillingReservation.
  destruct (restore_accounts t) as (Rr & Rh & Rc & Ro).
  destruct (metered _ _ _) as [[key amount]|].
  2: { split; [|split; [exact Rr|intros ev _; apply quiet_db_refl]].
       apply (accounted_quiet t _ (db w)); [done|apply quiet_db_refl|exact Rr|exact Rh|exact Rc|by rewrite Hhold]. }
  fold (event_of t).
  pose proof (reserve_call (e_delivery e) (e_server e) (e_now e) key (event_of t) amount
    (Add (e_now e) effective_ttl) (db w)) as Hcall.
  destruct (deliver _ _ _) as [reply d]. destruct Hcall as (Hall & Hset & Hcase).
  pose proof (fun j => unbilled_clean t (db w) j Hu Ha) as Hclean.
  assert (Hset' : forall j, settled (ledger_of d j) !! event_of t = None).
  { intros j. rewrite Hset. apply Hclean. }
  destruct (restore_same t) as [b Eb]. rewrite Eb in *.
  destruct reply as [[]|err]; (split; [apply accounted_fresh; [|exact Hset']|by split]); intros j Hs.
  - left. destruct (decide (j = key)) as [->|Hne].
    + exists amount. split; [done|].
      rewrite (owed_cons DeferBilling DeferBilling t), one_same by done. lia.
    + change (is_Some (holds (ledger_of d j) !! event_of t)) in Hs. rewrite Hcase in Hs by done.
      rewrite (proj1 (Hclean j)) in Hs. by destruct Hs.
  - apply (Hcase j) in Hs. rewrite (proj1 (Hclean j)) in Hs. by destruct Hs.
  - right. unfold failed. cbn. rewrite Hc. by apply Exists_cons_hd.
Qed.

(** One settlement and one release over the network. *)
Lemma settle_call dl server key event amount d :
  let '(reply, d') := deliver dl d (on_ledger key (SettleApiKeyBilling server key event amount) d) in
  (forall ev, ev <> event -> quiet_db ev d d') /\
  (forall j, j <> key -> ledger_of d' j = ledger_of d j) /\
  (reply = Ok tt -> settled (ledger_of d key) !! event = None -> holds (ledger_of d' key) !! event = None).
Proof.
  unfold on_ledger. pose proof (settle_spec server key event amount (ledger_of d key)) as Hs.
  destruct (SettleApiKeyBilling _ _ _ _ _) as [reply l']. destruct Hs as (H1 & _ & H3).
  assert (Hq : forall ev, ev <> event -> quiet_db ev d (set_ledger key l' d)).
  { intros ev Hne. by apply set_ledger_quiet, H1. }
  assert (Ho : forall j, j <> key -> ledger_of (set_ledger key l' d) j = ledger_of d j).
  { intros j Hj. rewrite ledger_of_set. by rewrite decide_False. }
  destruct dl; cbn [deliver fst snd].
  - split; [exact Hq|]. split; [exact Ho|]. rewrite ledger_of_set, decide_True by done.
    destruct reply as [[]|]; [|done]. intros _. by apply H3.
  - by split.
  - split; [intros; apply quiet_db_refl|done].
Qed.

Lemma release_call dl server key event d :
  let '(reply, d') := deliver dl d (on_ledger key (ReleaseApiKeyBilling server key event) d) in
  (forall ev, quiet_db ev d d') /\ (forall j, j <> key -> ledger_of d' j = ledger_of d j) /\
  (forall b, reply = Ok b -> holds (ledger_of d' key) !! event = None).
Proof.
  unfold on_ledger. pose proof (fun ev => release_quiet server key event (ledger_of d key) ev) as H1.
  pose proof (fun b l' => release_gone server key event (ledger_of d key) b l') as H2.
  destruct (ReleaseApiKeyBilling _ _ _ _) as [reply l']. cbn [snd] in H1.
  assert (Hq : forall ev, quiet_db ev d (set_ledger key l' d)) by (intros ev; by apply set_ledger_quiet).
  assert (Ho : forall j, j <> key -> ledger_of (set_ledger key l' d) j = ledger_of d j).
  { intros j Hj. rewrite ledger_of_set. by rewrite decide_False. }
  destruct dl; cbn [deliver fst snd].
  - split; [exact Hq|]. split; [exact Ho|]. rewrite ledger_of_set, decide_True by done.
    destruct reply; [|done]. intros b _. by eapply H2.
  - by split.
  - split; [intros; apply quiet_db_refl|done].
Qed.

(** A request whose hold on [key] is not settled has nothing in another ledger,
    and nothing settled. *)
Lemma unsettled_clean t d key amount :
  t_hold t = Some (mkHold key (event_of t) amount false no_price) -> ~ failed t -> accounted t d ->
  (forall j, j <> key -> holds (ledger_of d j) !! event_of t = None) /\
  (forall j, settled (ledger_of d j) !! event_of t = None).
Proof.
  intros Hh Hf Ha. split; intros j; [intros Hj|]; apply eq_None_not_Some; intros Hs; destruct (Ha j) as [H1 H2].
  - destruct (H1 Hs) as [(a & Hh' & _)|]; [congruence|done].
  - destruct (H2 Hs) as (r & Hh' & Hset & _). rewrite Hh in Hh'. injection Hh' as <-. done.
Qed.

Lemma charged_unfailed t key amount : must_hold t = Some (key, amount) -> charged t -> ~ failed t.
Proof.
  unfold charged, failed. intros -> (_ & _ & Hc). rewrite Hc. intros [Hf|Hf]%Exists_cons; [done|by apply Exists_nil in Hf].
Qed.

Lemma settle_accounted e model source input cached output allow t w :
  charged t \/ booked t -> accounted t (db w) ->
  let '(t', w') := (SettleAPIKeyBilling e model source input cached output allow t w).2 in
  accounted t' (db w') /\ t_request t' = t_request t /\ forall ev, ev <> event_of t -> quiet_db ev (db w) (db w').
Proof.
  intros Hb Ha. assert (Hsame : accounted t (db w) /\ t_request t = t_request t /\
    forall ev, ev <> event_of t -> quiet_db ev (db w) (db w)).
  { split; [done|]. split; [done|]. intros. apply quiet_db_refl. }
  unfold SettleAPIKeyBilling. destruct (negb _ && _); [done|]. destruct (EstimateCost _ _ _ _ _) as [price|]; [|done].
  destruct (if wired then t_hold t else None) as [r|] eqn:Er; [|done].
  assert (Hr : t_hold t = Some r) by (by destruct wired). destruct (_ || _); [done|]. unfold claim.
  destruct (h_settled r) eqn:Es; [done|]. cbn [negb snd fst].
  destruct Hb as [Hb|(key & amount & p0 & rep & _ & Hh & _)]; [|rewrite Hr in Hh; by simplify_eq].
  destruct (must_hold t) as [[key amount]|] eqn:Em.
  2: { unfold charged in Hb. rewrite Em in Hb. destruct Hb as [Hb _]. by rewrite Hr in Hb. }
  pose proof (charged_unfailed t key amount Em Hb) as Hnf. unfold charged in Hb. rewrite Em in Hb.
  destruct Hb as (Hh & _ & Hc). rewrite Hr in Hh. injection Hh as ->. cbn [h_KeyID h_EventID h_Amount].
  destruct (unsettled_clean t (db w) key amount Hr Hnf Ha) as [Hother Hset].
  pose proof (settle_call (e_delivery e) (e_server e) key (event_of t) (CostInUSDTicks price) (db w)) as Hcall.
  destruct (deliver _ _ _) as [reply d]. destruct Hcall as (Hall & Hj & Hgone).
  split; [|by split]. intros j. split; intros Hs.
  - right. change (is_Some (holds (ledger_of d j) !! event_of t)) in Hs. unfold failed. cbn. rewrite Hc.
    apply Exists_cons_tl, Exists_cons_hd. destruct reply as [[]|]; [|done].
    destruct (decide (j = key)) as [->|Hne].
    + rewrite Hgone in Hs by done. by destruct Hs.
    + rewrite Hj, Hother in Hs by done. by destruct Hs.
  - change (is_Some (settled (ledger_of d j) !! event_of t)) in Hs. eexists. split; [done|]. split; [done|]. cbn.
    destruct (decide (j = key)) as [->|Hne]; [done|]. rewrite Hj, Hset in Hs by done. by destruct Hs.
Qed.

Lemma drop_accounted e ds t w :
  t_defers t = DeferBilling :: ds -> (charged t \/ booked t) -> accounted t (db w) ->
  let '(t', w') := release_hold e (t <| t_defers := ds |>) w in
  accounted t' (db w') /\ t_request t' = t_request t /\ forall ev, ev <> event_of t -> quiet_db ev (db w) (db w').
Proof.
  intros Hd Hb Ha. unfold release_hold. change (t_hold (t <| t_defers := ds |>)) with (t_hold t).
  destruct (t_hold t) as [r|] eqn:Hr.
  2: { split; [|split; [done|intros; apply quiet_db_refl]]. apply (accounted_quiet t _ (db w)); [done|apply quiet_db_refl|done..|].
       by rewrite Hr. }
  destruct (h_settled r) eqn:Es.
  { split; [|split; [done|intros; apply quiet_db_refl]]. intros j. destruct (Ha j) as [H1 H2]. split; [|exact H2].
    intros Hs. destruct (H1 Hs) as [(a & Hh & _)|Hf]; [|by right]. rewrite Hr in Hh. by simplify_eq. }
  destruct Hb as [Hb|(key & amount & p0 & rep & _ & Hh & _)]; [|rewrite Hr in Hh; by simplify_eq].
  destruct (must_hold t) as [[key amount]|] eqn:Em.
  2: { unfold charged in Hb. rewrite Em in Hb. destruct Hb as [Hb _]. by rewrite Hr in Hb. }
  pose proof (charged_unfailed t key amount Em Hb) as Hnf. unfold charged in Hb. rewrite Em in Hb.
  destruct Hb as (Hh & _ & Hc). rewrite Hr in Hh. injection Hh as ->. cbn [h_KeyID h_EventID h_Amount].
  destruct (unsettled_clean t (db w) key amount Hr Hnf Ha) as [Hother Hset].
  pose proof (release_call (e_delivery e) (e_server e) key (event_of t) (db w)) as Hcall.
  destruct (deliver _ _ _) as [reply d]. destruct Hcall as (Hall & Hj & Hgone).
  split; [|split; [done|intros ev _; apply Hall]]. apply accounted_fresh.
  - intros j Hs. right. change (is_Some (holds (ledger_of d j) !! event_of t)) in Hs. unfold failed. cbn. rewrite Hc.
    apply Exists_cons_tl, Exists_cons_hd. destruct reply as [b|]; [|done].
    destruct (decide (j = key)) as [->|Hne].
    + rewrite (Hgone b) in Hs by done. by destruct Hs.
    + rewrite Hj, Hother in Hs by done. by destruct Hs.
  - intros j. apply eq_None_not_Some. intros Hs. apply (Hall (event_of t) j) in Hs. rewrite Hset in Hs. by destruct Hs.
Qed.

(** The other middleware has no part in the accounts. *)
Definition apart (t t' : thread) : Prop :=
  t_request t' = t_request t /\ t_hold t' = t_hold t /\ t_calls t' = t_calls t /\
  owed DeferBilling t' = owed DeferBilling t.

Lemma apart_push d t t' : d <> DeferBilling -> apart t t' -> apart t (push d t').
Proof.
  intros Hd (H1 & H2 & H3 & H4). split_and!; try done.
  rewrite (owed_cons DeferBilling d t' (push d t')), one_other by done. rewrite H4. lia.
Qed.

Lemma apart_refl t : apart t t.
Proof. done. Qed.

Lemma load_apart name limit rest t w : apart t (load_count name limit rest t w).1.
Proof. unfold load_count. by case_match. Qed.

Lemma enter_apart e s rest t w : s <> StageBilling -> apart t (enter e s rest t w).1.
Proof.
  destruct s; [intros _..|done]; cbn [enter].
  - unfold Limit. destruct (t_admitted t); [done|]. destruct (TryAcquire _ _) as [[] s]; [|done].
    by apply apart_push.
  - unfold ProviderAdmission. case_bool_decide; [done|]. destruct (_ <=? 0); [done|]. apply load_apart.
  - unfold APIKeyAuthWithRequest, answer_validation. by repeat case_match.
  - unfold APIKeyConcurrencyWithTracker. repeat (case_match; try done); by apply apart_push.
Qed.

Lemma enter_quiet e s rest t w ev : s <> StageBilling -> quiet_db ev (db w) (db (enter e s rest t w).2).
Proof.
  destruct s; [intros _..|done]; cbn [enter].
  - unfold Limit. repeat case_match; apply quiet_db_refl.
  - unfold ProviderAdmission, load_count. repeat case_match; apply quiet_db_refl.
  - unfold APIKeyAuthWithRequest, validate.
    pose proof (authorize_quiet ev (e_server e) (e_now e) (apiKeyToken (t_request t)) (proc w) (db w)) as Hq.
    destruct (AuthorizeApiKey _ _ _ _ _ _ _) as [[r p] d]. repeat case_match; simplify_eq; try apply quiet_db_refl; exact Hq.
  - unfold APIKeyConcurrencyWithTracker. repeat case_match; apply quiet_db_refl.
Qed.

Lemma apart_accounted t t' (w w' : shared) :
  accounted t (db w) -> apart t t' -> (forall ev, quiet_db ev (db w) (db w')) ->
  accounted t' (db w') /\ t_request t' = t_request t /\ forall ev, ev <> event_of t -> quiet_db ev (db w) (db w').
Proof.
  intros Ha (H1 & H2 & H3 & H4) Hq. split; [|by split].
  apply (accounted_quiet t _ (db w)); [done|apply Hq|done..|]. intros _. by rewrite H4.
Qed.

Lemma run_deferred_db e d t w : d <> DeferBilling -> db (run_deferred e d t w).2 = db w.
Proof. destruct d; [done..| |done]; intros _. cbn. unfold release_key. by repeat case_match. Qed.

Lemma advance_accounted limited e t w :
  fate limited t -> accounted t (db w) ->
  let '(t', w') := advance e t w in
  accounted t' (db w') /\ t_request t' = t_request t /\ forall ev, ev <> event_of t -> quiet_db ev (db w) (db w').
Proof.
  intros Hf Ha. assert (Hsame : forall t', apart t t' -> accounted t' (db w) /\ t_request t' = t_request t /\
    forall ev, ev <> event_of t -> quiet_db ev (db w) (db w)).
  { intros t' Ht. apply (apart_accounted t t' w w); [done|done|]. intros ev. apply quiet_db_refl. }
  unfold advance. destruct (t_phase t) as [[|s rest]|name limit n rest| |] eqn:Ep; unfold fate in Hf; rewrite Ep in Hf.
  - by apply Hsame.
  - destruct (decide (s = StageBilling)) as [->|Hne]; cbn [enter].
    + destruct Hf as (k & _ & E & (_ & _ & _ & _ & Hb)). apply next_stage in E as (_ & _ & Hs).
      assert (k = 4%nat) as ->.
      { destruct k as [|[|[|[|[|[|k]]]]]]; try done; destruct limited; cbn in Hs; try done. }
      apply billing_accounted; [apply Hb|done].
    + pose proof (enter_apart e s rest t w Hne) as H1. pose proof (fun ev => enter_quiet e s rest t w ev Hne) as H2.
      destruct (enter e s rest t w) as [t' w']. by eapply apart_accounted.
  - unfold CompareAndSwap. destruct (_ =? n); [apply Hsame, apart_push; done|].
    pose proof (load_apart name limit rest t w) as H1. unfold load_count in *. by case_match; apply Hsame.
  - unfold handle. destruct (e_action e) as [model source input cached output allow|]; [|by apply Hsame].
    apply settle_accounted; [apply Hf|done].
  - destruct (t_defers t) as [|d ds] eqn:Ed; [by apply Hsame|].
    destruct (decide (d = DeferBilling)) as [->|Hne]; cbn [run_deferred].
    + assert (Ho : 0 < owed DeferBilling t).
      { set (t1 := t <| t_defers := ds |>). assert (Hc : t_defers t = DeferBilling :: t_defers t1) by exact Ed.
        rewrite (owed_cons DeferBilling DeferBilling t1 t Hc), one_same.
        pose proof (owed_nonneg DeferBilling t1). lia. }
      destruct Hf as [(_ & _ & _ & [Hb|[Hb|(k & a & rep & _ & _ & Hz & _)]])|(_ & _ & _ & Hz & _)]; [..|lia|lia];
        apply drop_accounted; auto.
    + pose proof (run_deferred_db e d (t <| t_defers := ds |>) w Hne) as Hdb.
      assert (Hrun : (run_deferred e d (t <| t_defers := ds |>) w).1 = t <| t_defers := ds |>) by (by destruct d).
      destruct (run_deferred _ _ _ _) as [t' w']. cbn in Hdb, Hrun. subst t'. rewrite Hdb. apply Hsame.
      split_and!; try done. unfold owed. rewrite Ed. cbn. rewrite decide_False by done. done.
Qed.

(** ** The process as a whole *)

(** A principal stays with its request. *)
Lemma settle_principal e model source input cached output allow t w :
  t_principal (SettleAPIKeyBilling e model source input cached output allow t w).2.1 = t_principal t.
Proof. unfold SettleAPIKeyBilling. by repeat case_match. Qed.

Lemma advance_principal limited e t w p :
  fate limited t -> t_principal t = Some p -> t_principal (advance e t w).1 = Some p.
Proof.
  intros Hf Hp. unfold advance. destruct (t_phase t) as [[|s rest]|name limit n rest| |] eqn:Ep; [done|..].
  - destruct s; cbn [enter].
    + unfold Limit. by repeat case_match.
    + unfold ProviderAdmission, load_count. by repeat case_match.
    + exfalso. unfold fate in Hf. rewrite Ep in Hf. destruct Hf as (k & _ & E & (_ & _ & _ & Hid & _)).
      apply next_stage in E as (_ & _ & Hs).
      assert (k = 2%nat) as ->.
      { destruct k as [|[|[|[|[|[|k]]]]]]; try done; destruct limited; cbn in Hs; try done. }
      cbn in Hid. destruct Hid as [Hn _]. congruence.
    + unfold APIKeyConcurrencyWithTracker. rewrite Hp. by repeat case_match.
    + unfold APIKeyBillingReservation. destruct (restore_same t) as [b ->]. by repeat case_match.
  - unfold CompareAndSwap, load_count. by repeat case_match.
  - unfold handle. destruct (e_action e); [by rewrite settle_principal|done].
  - destruct (t_defers t) as [|d ds]; [done|]. destruct d; [done..|]. cbn. unfold release_hold. by repeat case_match.
Qed.

(** Only taking a slot of a key adds to the slots of keys. *)
Lemma effect_keys t w t' w' n :
  effect t w t' w' -> balanced n w -> (forall d, 0 <= n d) -> machine_row t' ->
  (forall k, owed (DeferKey k) t' <= owed (DeferKey k) t) \/
  exists p, t_principal t' = Some p /\ n (DeferKey (pr_ID p)) < pr_MaxConcurrent p /\
    forall k, owed (DeferKey k) t' = owed (DeferKey k) t + one (DeferKey (pr_ID p)) (DeferKey k).
Proof.
  intros He Hb Hpos Hm.
  assert (Hpush : forall x a b, t_defers b = x :: t_defers a -> forall k, owed (DeferKey k) a <= owed (DeferKey k) b).
  { intros x a b E k. rewrite (owed_cons _ x a b E). unfold one. case_decide; lia. }
  destruct He as [ds E1 E2 Hs|s Ht E Hs|s Ht E Hs|E Hs|name m Hk Hlt E Hs|name E Hs|p Hp Hne E Ht|id Ht E Hs|id E Hs].
  7: { right. exists p. split; [done|]. split; [|intros k; rewrite (owed_cons _ _ t t' E); lia].
    eapply (key_taken_balanced n (fun d => n d + 1 * one (DeferKey (pr_ID p)) d)); [done|done|done|by apply Hm|done|exact Ht]. }
  all: left; intros k.
  - unfold owed. pose proof (one_other DeferBilling (DeferKey k) ltac:(done)) as Ho. unfold one in Ho.
    destruct E1 as [-> | ->], E2 as [-> | ->]; rewrite ?sumZ_cons, ?Ho; lia.
  - unfold owed. by rewrite E.
  - rewrite (owed_cons _ _ t t' E), one_other by done. lia.
  - by apply (Hpush DeferLimit).
  - rewrite (owed_cons _ _ t t' E), one_other by done. lia.
  - by apply (Hpush (DeferProvider name)).
  - unfold owed. by rewrite E.
  - by apply (Hpush (DeferKey id)).
Qed.

Definition key_capped (T : gmap string thread) (k : Z) : Prop :=
  slots T (DeferKey k) <= 0 \/
  exists i t p, T !! i = Some t /\ t_principal t = Some p /\ pr_ID p = k /\ slots T (DeferKey k) <= pr_MaxConcurrent p.

Record sound (W : World) : Prop := mkSound {
  so_balanced : balanced (slots (threads W)) (common W);
  so_thread : forall id t, threads W !! id = Some t ->
    event_of t = id /\ (exists limited, fate limited t) /\ loaded_ok t /\ accounted t (db (common W));
  so_capped : forall k, key_capped (threads W) k;
}.

Lemma arrive_slots T r limited d : T !! q_request_id r = None ->
  slots (<[q_request_id r := arrive r limited]> T) d = slots T d.
Proof. intros Hn. unfold slots. rewrite map_sum_insert by done. done. Qed.

Lemma arrive_fate r limited : fate limited (arrive r limited).
Proof.
  exists 0%nat. split; [lia|]. split; [done|]. split; [done|]. split; [done|]. split; [lia|]. split; [done|]. done.
Qed.

Lemma unused_accounted t d : unused_event (event_of t) d -> accounted t d.
Proof. intros Hu key. destruct (Hu key) as [-> ->]. split; by intros [? ?]. Qed.

Lemma capped_mono T T' k :
  key_capped T k -> slots T' (DeferKey k) <= slots T (DeferKey k) ->
  (forall i t p, T !! i = Some t -> t_principal t = Some p -> exists t', T' !! i = Some t' /\ t_principal t' = Some p) ->
  key_capped T' k.
Proof.
  intros [Hz|(i & t & p & Hi & Hp & Hk & Hle)] Hs Hkeep; [left; lia|right].
  destruct (Hkeep i t p Hi Hp) as (t' & Hi' & Hp'). exists i, t', p. split_and!; try done. lia.
Qed.

Lemma step_arrive_sound W r limited :
  threads W !! q_request_id r = None -> unused_event (q_request_id r) (db (common W)) -> sound W ->
  sound (mkWorld (<[q_request_id r := arrive r limited]> (threads W)) (common W)).
Proof.
  intros Hn Hu [Hb Ht Hc]. split; cbn [threads common].
  - eapply balanced_same; [intros d _; by apply arrive_slots|apply same_slots_refl|done].
  - intros id t [[<- <-]|[Hne Hi]]%lookup_insert_Some; [|by apply Ht].
    split; [done|]. split; [by eexists; apply arrive_fate|]. split; [done|]. by apply unused_accounted.
  - intros k. apply (capped_mono (threads W)); [done|by rewrite arrive_slots|].
    intros i t p Hi Hp. exists t. split; [|done]. rewrite lookup_insert_ne; [done|]. intros E. congruence.
Qed.

Lemma step_thread_sound W e id t t' w' :
  threads W !! id = Some t -> (forall name, default 0 (e_limits e !! name) <= bound name) ->
  advance e t (common W) = (t', w') -> machine_row t' -> sound W ->
  sound (mkWorld (<[id := t']> (threads W)) w').
Proof.
  intros Hi Hlim Hadv Hm [Hb Ht Hc].
  destruct (Ht id t Hi) as (Hev & (limited & Hf) & Hload & Hacc).
  destruct (advance_effect e t (common W) Hlim Hload) as [He Hload'].
  pose proof (advance_fate limited e t (common W) Hf) as Hf'.
  pose proof (advance_accounted limited e t (common W) Hf Hacc) as Ha'.
  pose proof (fun p => advance_principal limited e t (common W) p Hf) as Hpr.
  rewrite Hadv in *. destruct Ha' as (Hacc' & Hreq & Hq). cbn [fst snd] in *.
  assert (Hn : forall d, slots (<[id := t']> (threads W)) d = slots (threads W) d + owed d t' - owed d t).
  { intros d. by apply slots_step. }
  split; cbn [threads common].
  - eapply effect_balanced; [exact He|exact Hb|exact Hm|]. intros d.
    split; [apply slots_nonneg|]. split; [by eapply slots_member|apply Hn].
  - intros j tj [[<- <-]|[Hne Hj]]%lookup_insert_Some.
    + split; [unfold event_of; by rewrite Hreq|]. split; [by exists limited|]. by split.
    + destruct (Ht j tj Hj) as (Hevj & Hfj & Hlj & Haj). split; [done|]. split; [done|]. split; [done|].
      eapply accounted_quiet; [exact Haj|apply Hq; congruence|done..].
  - intros k. destruct (effect_keys t (common W) t' w' (slots (threads W)) He Hb (slots_nonneg _) Hm) as [Hle|(p & Hp & Hlt & Ho)].
    + apply (capped_mono (threads W)); [done|rewrite Hn; specialize (Hle k); lia|].
      intros i ti p Hti Hp. destruct (decide (i = id)) as [->|Hne].
      * exists t'. split; [apply lookup_insert_eq|]. apply Hpr. congruence.
      * exists ti. split; [|done]. by rewrite lookup_insert_ne.
    + destruct (decide (k = pr_ID p)) as [->|Hne].
      * right. exists id, t', p. split; [apply lookup_insert_eq|]. split; [done|]. split; [done|].
        rewrite Hn, Ho, one_same. lia.
      * apply (capped_mono (threads W)); [done|rewrite Hn, Ho, one_other by congruence; lia|].
        intros i ti q Hti Hq'. destruct (decide (i = id)) as [->|Hne'].
        -- exists t'. split; [apply lookup_insert_eq|]. apply Hpr. congruence.
        -- exists ti. split; [|done]. by rewrite lookup_insert_ne.
Qed.

Lemma step_other_sound W w' :
  elsewhere (dom (threads W)) (common W) w' -> sound W -> sound (mkWorld (threads W) w').
Proof.
  intros (E1 & E2 & E3 & E4 & E5 & E6) [[H1 H2 H3 H4 H5] Ht Hc]. split; cbn [threads common]; [| |done].
  - split; rewrite ?E1, ?E2, ?E3; try done. intros k. specialize (H5 k). rewrite E4. destruct tracked; [|done].
    destruct H5 as [H5 H6]. split; [|done]. intros Hk. rewrite E5 by lia. by apply H5.
  - intros id t Hi. destruct (Ht id t Hi) as (Hev & Hf & Hl & Ha). split; [done|]. split; [done|]. split; [done|].
    assert (Hin : event_of t ∈ dom (threads W)) by (rewrite Hev; by apply elem_of_dom_2 in Hi).
    eapply accounted_quiet; [exact Ha| |done..]. intros key. destruct (E6 key (event_of t) Hin) as [Hh Hs].
    split; rewrite <- !not_eq_None_Some; naive_solver.
Qed.

Lemma step_sound W W' : step W W' -> sound W -> sound W'.
Proof.
  intros [r limited Hn Hu|e id t t' w' Hi Hlim Hadv Hm|w' He].
  - by apply step_arrive_sound.
  - by eapply step_thread_sound.
  - by apply step_other_sound.
Qed.

Lemma start_sound maxConcurrent p d :
  size = (if maxConcurrent <=? 0 then 100 else maxConcurrent) -> sound (start maxConcurrent p d).
Proof.
  intros Hsize. split; cbn [threads common start]; [|by intros|by left].
  split; cbn.
  - apply new_weight.
  - done.
  - unfold NewConcurrencyLimiter. rewrite new_capacity, Hsize. split; [done|].
    change (slots ∅ DeferLimit) with 0. destruct (Z.leb_spec maxConcurrent 0); lia.
  - intros name. rewrite lookup_empty. change (slots ∅ (DeferProvider name)) with 0. cbn. lia.
  - intros k. change (slots ∅ (DeferKey k)) with 0. destruct tracked; [|by rewrite lookup_empty].
    by split.
Qed.

Lemma reach_sound maxConcurrent p d W :
  size = (if maxConcurrent <=? 0 then 100 else maxConcurrent) -> rtc step (start maxConcurrent p d) W -> sound W.
Proof.
  intros Hsize Hr. pose proof (start_sound maxConcurrent p d Hsize) as H0.
  induction Hr as [|a b c Hab _ IH]; [done|]. by apply IH, (step_sound a).
Qed.

(** The slots of ended requests are none. *)
Lemma ended_slots T d : (forall id t, T !! id = Some t -> ended t) -> slots T d = 0.
Proof.
  intros He. unfold slots. rewrite (map_sum_ext _ (fun _ => 0)).
  - clear He. induction T as [|k v T Hk IH] using map_ind; [by rewrite map_sum_empty|]. by rewrite map_sum_insert, IH.
  - intros id t Hi. destruct (He id t Hi) as [_ E]. unfold owed. by rewrite E.
Qed.


(** C18: every request has one fate. When it has ended, either it was refused with
    503, 401, 429 or 402, no handler saw it and the ledger keeps nothing it granted,
    or its handler ran exactly once, for nobody in particular where no key is
    required or for a key the store authorised; and if the key is metered the
    ledger had granted the estimated cost first, and was asked exactly once more:
    to settle the event or to release it. *)
Theorem request_fate (maxConcurrent : Z) (p : process) (d : KeyDb) (W : World) (id : string) (t : thread) :
  size = (if maxConcurrent <=? 0 then 100 else maxConcurrent) ->
  rtc step (start maxConcurrent p d) W -> threads W !! id = Some t -> ended t ->
  (t_handled t = 0%nat /\ (exists r, t_response t = Some r /\ rs_status r ∈ [503; 401; 429; 402]) /\
   (t_calls t = [] \/ exists key amount reply, reply <> Ok true /\ t_calls t = [CallReserve key id amount reply])) \/
  (t_handled t = 1%nat /\ t_response t = None /\ identified t /\
   match must_hold t with
   | None => t_calls t = []
   | Some (key, amount) =>
       (exists price reply, t_calls t = [CallReserve key id amount (Ok true); CallSettle key id price reply]) \/
       (exists reply, t_calls t = [CallReserve key id amount (Ok true); CallRelease key id reply])
   end).
Proof.
  intros Hsize Hr Hi [Hp Hd]. destruct (reach_sound _ _ _ _ Hsize Hr) as [_ Ht _].
  destruct (Ht id t Hi) as (Hev & (limited & Hf) & _ & _). unfold fate in Hf. rewrite Hp in Hf.
  assert (Hz : owed DeferBilling t = 0) by (unfold owed; by rewrite Hd).
  destruct Hf as [(Hh & Hn & Hid & Hb)|(Hh & Hn & _ & _ & Hc)]; [right|left]; (split; [done|]).
  - split; [done|]. split; [done|]. unfold charged, unbilled, booked, dropped in Hb. rewrite Hev in Hb.
    destruct Hb as [Hb|[(k & a & price & reply & -> & _ & Hc)|(k & a & reply & -> & _ & _ & Hc)]].
    + destruct (must_hold t) as [[key amount]|]; [lia|apply Hb].
    + left. by exists (CostInUSDTicks price), reply.
    + right. by exists reply.
  - split; [done|]. destruct Hc as [Hc|(k & a & reply & _ & Hne & Hc)]; [by left|right]. rewrite Hev in Hc.
    by exists k, a, reply.
Qed.

(** C19: no budget is held for nothing. At any moment, whatever fails and whoever
    else writes to the ledgers, a hold or a charge that bears the id of a request
    belongs to that request: a hold is one it has still to give back, unless a call
    of it to the ledger failed; a charge is one it has booked. So a request that
    has ended without a failing call leaves no hold behind in any ledger. *)
Theorem no_orphan_hold (maxConcurrent : Z) (p : process) (d : KeyDb) (W : World) (id : string) (t : thread) (key : Z) :
  size = (if maxConcurrent <=? 0 then 100 else maxConcurrent) ->
  rtc step (start maxConcurrent p d) W -> threads W !! id = Some t ->
  let l := ledger_of (db (common W)) key in
  (is_Some (holds l !! id) -> owes t key \/ failed t) /\
  (is_Some (settled l !! id) -> settled_on t key) /\
  (ended t -> ~ failed t -> holds l !! id = None).
Proof.
  intros Hsize Hr Hi. cbv zeta. destruct (reach_sound _ _ _ _ Hsize Hr) as [_ Ht _].
  destruct (Ht id t Hi) as (Hev & _ & _ & Ha). destruct (Ha key) as [H1 H2]. rewrite Hev in H1, H2.
  split; [done|]. split; [done|]. intros [_ Hd] Hnf. apply eq_None_not_Some. intros Hs.
  destruct (H1 Hs) as [(a & _ & Ho)|]; [|done]. unfold owed in Ho. rewrite Hd in Ho. cbn in Ho. lia.
Qed.

(** ** Runs of one request *)
Fixpoint drive (es : list env) (t : thread) (w : shared) : thread * shared :=
  match es with
  | [] => (t, w)
  | e :: es => let '(t, w) := advance e t w in drive es t w
  end.

Definition machine_rowb (t : thread) : bool :=
  match t_principal t with
  | Some p => (0 <=? pr_ID p) && (min_int64 <=? pr_MaxConcurrent p) && (pr_MaxConcurrent p <=? max_int64)
  | None => true
  end.

Fixpoint drivable (es : list env) (t : thread) (w : shared) : bool :=
  match es with
  | [] => true
  | e :: es => let '(t, w) := advance e t w in machine_rowb t && drivable es t w
  end.

Lemma drive_steps es : forall W id t,
  threads W !! id = Some t -> Forall (fun e => forall name, default 0 (e_limits e !! name) <= bound name) es ->
  drivable es t (common W) = true ->
  rtc step W (mkWorld (<[id := (drive es t (common W)).1]> (threads W)) (drive es t (common W)).2).
Proof.
  induction es as [|e es IH]; intros W id t Hi Hl Hd; cbn [drive drivable] in *.
  - cbn [fst snd]. rewrite insert_id by done. by destruct W.
  - apply Forall_cons in Hl as [Hl0 Hl]. destruct (advance e t (common W)) as [t' w'] eqn:E. apply andb_true_iff in Hd as [Hm Hd].
    eapply rtc_l.
    + eapply (step_thread W e id t t' w'); [done|done|exact E|]. intros p Hp. unfold machine_rowb in Hm. rewrite Hp in Hm.
      bool_to_prop. unfold in_int64. lia.
    + specialize (IH (mkWorld (<[id := t']> (threads W)) w') id t' (lookup_insert_eq _ _ _) Hl Hd).
      cbn [threads common] in IH. by rewrite insert_insert_eq in IH.
Qed.
End Entrance.

(** ** One metered request of one key *)
#[local] Instance pair_weighted : Weighted (Z * Z) := {
  NewWeighted n := (0, n);
  TryAcquire n s := if s.1 + n <=? s.2 then (true, (s.1 + n, s.2)) else (false, s);
  Release n s := (s.1 - n, s.2);
}.
#[local] Instance pair_laws : WeightedLaws (Z * Z).
Proof.
  refine {| weight := fst; capacity := snd |}.
  - done.
  - done.
  - intros n s Hn Hle. cbn. by rewrite (proj2 (Z.leb_le _ _) Hle).
  - intros n s Hn Hlt. cbn. by rewrite (proj2 (Z.leb_gt _ _) Hlt).
  - done.
Defined.

Definition metered_record : apiKeyRecord :=
  mkApiKeyRecord 0 "ci" (sample_digest "sk-1") "sk" "1" true [] 2 1 100000000000 0 0 0 None None 0.
Definition metered_keys : KeyDb := (CreateApiKey 100 (mkApiKey metered_record EmptyString) empty_keys).2.

Definition chat_request : Request :=
  mkRequest "POST" "/qoder/v1/messages" "Bearer sk-1" EmptyString "req-1" (Some (mkStream "{}" false)).

Definition calm (a : action) : env := mkEnv {[ "qoder" := 2 ]} true year_2026 year_2026 Delivered a.
Definition settle_once : action := Settle "grok-4.5" "upstream" 100 0 50 false.
Definition whole_run : list env := repeat (calm Finish) 8 ++ [calm settle_once] ++ repeat (calm Finish) 5.

#[local] Notation sample_drive es :=
  (drive map_to_list Some sample_digest (fun _ => sample_body) true true 0 es (arrive chat_request true)
     (common (start 4 replica metered_keys : World (S := Z * Z)))).
#[local] Notation sample_step := (step (S := Z * Z) map_to_list Some sample_digest (fun _ => sample_body) true true 0 (fun _ => 5)).
#[local] Notation sample_world es := (mkWorld {[ "req-1" := (sample_drive es).1 ]} (sample_drive es).2).

Example whole_run_settles :
  (sample_drive whole_run).1.(t_calls) =
    [CallReserve 1 "req-1" 65120000 (Ok true); CallSettle 1 "req-1" 5000000 (Ok tt)] /\
  (sample_drive whole_run).1.(t_handled) = 1%nat /\ (sample_drive whole_run).1.(t_defers) = [].
Proof. by vm_compute. Qed.

Lemma sample_unused : unused_event "req-1" metered_keys.
Proof.
  intros key. unfold ledger_of. change (key_ledgers metered_keys) with (<[1 := mkLedger ∅ None None ∅ 100000000000]> (∅ : gmap Z ledger)).
  destruct (decide (key = 1)) as [->|Hne]; [by rewrite lookup_insert_eq|]. by rewrite lookup_insert_ne.
Qed.

Lemma sample_reached es :
  Forall (fun e => forall name, default 0 (e_limits e !! name) <= 5) es ->
  drivable map_to_list Some sample_digest (fun _ => sample_body) true true 0 es (arrive chat_request true)
    (common (start 4 replica metered_keys : World (S := Z * Z))) = true ->
  rtc sample_step (start 4 replica metered_keys) (sample_world es).
Proof.
  intros Hl Hd. eapply rtc_l; [apply (step_arrive _ _ _ _ _ _ _ _ _ chat_request true); [done|apply sample_unused]|].
  set (W1 := mkWorld (<["req-1" := arrive chat_request true]> (∅ : gmap string thread))
               (common (start 4 replica metered_keys : World (S := Z * Z)))).
  assert (Hi : threads W1 !! "req-1" = Some (arrive chat_request true)) by done.
  pose proof (drive_steps map_to_list Some sample_digest (fun _ => sample_body) true true 0 (fun _ => 5) es W1
    "req-1" (arrive chat_request true) Hi Hl Hd) as Hr.
  subst W1. cbn [threads common] in Hr. rewrite insert_insert_eq in Hr. exact Hr.
Qed.

Lemma calm_limits a name : default 0 (e_limits (calm a) !! name) <= 5.
Proof.
  cbn. destruct (decide (name = "qoder")) as [->|Hne]; [by rewrite lookup_singleton_eq|].
  by rewrite lookup_singleton_ne.
Qed.

Lemma whole_run_calm : Forall (fun e => forall name, default 0 (e_limits e !! name) <= 5) whole_run.
Proof. repeat (constructor; [apply calm_limits|]). constructor. Qed.

(** Before the deferred calls run: the slot, the counters and the hold are taken. *)
Definition half_run : list env := take 8 whole_run.


Lemma request_fate_witness :
  exists price reply, (sample_drive whole_run).1.(t_calls) =
    [CallReserve 1 "req-1" 65120000 (Ok true); CallSettle 1 "req-1" price reply].
Proof.
  assert (Hr : rtc sample_step (start 4 replica metered_keys) (sample_world whole_run)).
  { apply sample_reached; [apply whole_run_calm|by vm_compute]. }
  pose proof (request_fate map_to_list Some sample_digest (fun _ => sample_body) true true 0 (fun _ => 5) 4
    (fun _ => reflexivity _) 4 replica metered_keys _ "req-1" _ eq_refl Hr (lookup_singleton_eq _ _) ltac:(by vm_compute)) as H.
  destruct H as [[Hh _]|(_ & _ & _ & H)]; [exfalso; revert Hh; by vm_compute|].
  assert (Hm : must_hold (fun _ => sample_body) (sample_drive whole_run).1 = Some (1, 65120000)) by by vm_compute.
  rewrite Hm in H. destruct H as [(price & reply & H)|(reply & H)]; [by exists price, reply|].
  exfalso. revert H. by vm_compute.
Defined.

Lemma no_orphan_hold_witness :
  holds (ledger_of (db (sample_drive whole_run).2) 1) !! "req-1" = None.
Proof.
  assert (Hr : rtc sample_step (start 4 replica metered_keys) (sample_world whole_run)).
  { apply sample_reached; [apply whole_run_calm|by vm_compute]. }
  destruct (no_orphan_hold map_to_list Some sample_digest (fun _ => sample_body) true true 0 (fun _ => 5) 4
    (fun _ => reflexivity _) 4 replica metered_keys _ "req-1" _ 1 eq_refl Hr (lookup_singleton_eq _ _)) as (_ & _ & H).
  assert (He : ended (sample_drive whole_run).1) by (split; vm_compute; reflexivity).
  assert (Hc : t_calls (sample_drive whole_run).1 = [CallReserve 1 "req-1" 65120000 (Ok true); CallSettle 1 "req-1" 5000000 (Ok tt)])
    by by vm_compute.
  assert (Hnf : ~ failed (sample_drive whole_run).1).
  { unfold failed. rewrite Hc. by intros [?|[?|?%Exists_nil]%Exists_cons]%Exists_cons. }
  exact (H He Hnf).
Defined.
