(* ===== verification/Proxy.v ===== *)
(** * The address of the caller (src/internal/middleware/trusted_proxy.go)

    Which address a request comes from, when forwarding headers may be forged, and
    which callers need no key. The part of package net it uses is defined first:
    addresses are their 4 or 16 bytes, as in Go. *)

From stdpp Require Import base numbers list strings gmap.
From S2P Require Import Prelude GoLib Json Tools Requests.

Local Open Scope orchids_scope.
Local Open Scope Z_scope.

(** ** Package net *)
Abbreviation IP := (list Z) (only parsing).

(** [netip.parseIPv4]: [digLen] digits of the current octet are read, [done_] holds the octets before. *)
Fixpoint v4_fields (s : string) (val digLen : Z) (done_ : list Z) : option IP :=
  match s with
  | EmptyString => if (length done_ <? 3)%nat then None else Some (done_ ++ [val])
  | String c rest =>
      if digit c then
        if (digLen =? 1) && (val =? 0) then None
        else
          let val := val * 10 + (Z.of_nat (byte_of c) - 48) in
          if 255 <? val then None else v4_fields rest val (digLen + 1) done_
      else if is_byte 46 c then
        if (digLen =? 0) || String.eqb rest EmptyString || (length done_ =? 3)%nat then None
        else v4_fields rest 0 0 (done_ ++ [val])
      else None
  end.
Definition parseIPv4 (s : string) : option IP := v4_fields s 0 0 [].

(** The hexadecimal number at the start of a text: its value, its length and the
    rest; [None] when it has more than four digits. *)
Fixpoint hex_run (acc : Z) (off : nat) (s : string) : option (Z * nat * string) :=
  match s with
  | EmptyString => Some (acc, off, s)
  | String c rest =>
      match unhex c with
      | None => Some (acc, off, s)
      | Some d => if (3 <? off)%nat then None else hex_run (acc * 16 + d) (S off) rest
      end
  end.

(** The groups of [netip.parseIPv6]: the bytes read, where the ellipsis is and what
    is left. Each round reads two bytes, so eight rounds are enough. *)
Fixpoint v6_groups (fuel : nat) (ip : IP) (ellipsis : option nat) (s : string)
    : option (IP * option nat * string) :=
  match fuel with
  | O => Some (ip, ellipsis, s)
  | S fuel =>
      match hex_run 0 O s with
      | None | Some (_, O, _) => None
      | Some (acc, _, rest) =>
          if HasPrefix rest "." then
            if match ellipsis with None => negb (length ip =? 12)%nat | Some _ => false end || (12 <? length ip)%nat
            then None
            else match parseIPv4 s with
                 | None => None
                 | Some v4 => Some (ip ++ v4, ellipsis, EmptyString)
                 end
          else
            let ip := ip ++ [acc / 256; acc mod 256] in
            match rest with
            | EmptyString => Some (ip, ellipsis, EmptyString)
            | String c after =>
                if negb (is_byte 58 c) || String.eqb after EmptyString then None
                else match after with
                     | String c2 after2 =>
                         if is_byte 58 c2 then
                           match ellipsis with
                           | Some _ => None
                           | None =>
                               if String.eqb after2 EmptyString then Some (ip, Some (length ip), EmptyString)
                               else v6_groups fuel ip (Some (length ip)) after2
                           end
                         else v6_groups fuel ip ellipsis after
                     | EmptyString => None
                     end
            end
      end
  end.

Definition zeros16 (n : nat) : IP := repeat 0 n.

(** [netip.parseIPv6] of a text without a zone. *)
Definition parseIPv6 (s : string) : option IP :=
  if String.eqb s "::" then Some (zeros16 16)
  else
    let '(ellipsis, s) := if HasPrefix s "::" then (Some O, sdrop 2 s) else (None, s) in
    match v6_groups 8 [] ellipsis s with
    | None => None
    | Some (ip, ellipsis, rest) =>
        if negb (String.eqb rest EmptyString) then None
        else if (length ip <? 16)%nat then
          match ellipsis with
          | None => None
          | Some e => Some (take e ip ++ zeros16 (16 - length ip) ++ drop e ip)
          end
        else match ellipsis with Some _ => None | None => Some ip end
    end.

Definition v4_mapped : IP := [0; 0; 0; 0; 0; 0; 0; 0; 0; 0; 255; 255].

(** [netip.ParseAddr] without zones: the address and whether it was written as IPv4.
    The first of the two separators decides; a zone makes ParseIP refuse. *)
Definition ParseAddr (s : string) : option (IP * bool) :=
  match IndexAny s ".:%" with
  | None => None
  | Some i =>
      let c := default Ascii.zero (String.get i s) in
      if is_byte 46 c then (fun v4 => (v4_mapped ++ v4, true)) <$> parseIPv4 s
      else if is_byte 58 c then
        if Contains s "%" then None else (fun ip => (ip, false)) <$> parseIPv6 s
      else None
  end.

Definition ParseIP (s : string) : option IP := fst <$> ParseAddr s.

Definition To4 (ip : IP) : option IP :=
  if (length ip =? 4)%nat then Some ip
  else if (length ip =? 16)%nat && bool_decide (take 12 ip = v4_mapped) then Some (drop 12 ip) else None.

(** [IP.String]. *)
Definition dotted (v4 : IP) : string :=
  match v4 with
  | [a; b; c; d] => fmt_d a +:+ "." +:+ fmt_d b +:+ "." +:+ fmt_d c +:+ "." +:+ fmt_d d
  | _ => EmptyString
  end.

Fixpoint groups_of (ip : IP) : list Z :=
  match ip with
  | hi :: lo :: rest => (hi * 256 + lo) :: groups_of rest
  | _ => []
  end.

Fixpoint hex_text (fuel : nat) (z : Z) : string :=
  match fuel with
  | O => EmptyString
  | S fuel => (if z <? 16 then EmptyString else hex_text fuel (z / 16)) +:+ String (hex (Z.to_nat (z mod 16))) EmptyString
  end.

Fixpoint zero_run (gs : list Z) : nat :=
  match gs with
  | 0 :: rest => S (zero_run rest)
  | _ => O
  end.

(** The first of the longest runs of at least two zero groups: start and end. *)
Definition longest_run (gs : list Z) : option (nat * nat) :=
  foldl (fun best i =>
    let l := zero_run (drop i gs) in
    if (2 <=? l)%nat && match best with Some (a, b) => (b - a <? l)%nat | None => true end
    then Some (i, (i + l)%nat) else best) None (seq 0 8).

Definition hex_groups (gs : list Z) : string := String.concat ":" (hex_text 4 <$> gs).

Definition v6_text (gs : list Z) : string :=
  match longest_run gs with
  | None => hex_groups gs
  | Some (a, b) => hex_groups (take a gs) +:+ "::" +:+ hex_groups (drop b gs)
  end.

Definition IP_String (ip : IP) : string :=
  match To4 ip with Some v4 => dotted v4 | None => v6_text (groups_of ip) end.

Record IPNet := mkIPNet { n_IP : IP; n_Mask : IP }.

(** [net.CIDRMask(ones, bits)], as bytes. *)
Definition CIDRMask (ones bits : Z) : IP :=
  (fun i => let k := Z.max 0 (Z.min 8 (ones - 8 * Z.of_nat i)) in 256 - Z.shiftl 1 (8 - k)) <$> seq 0 (Z.to_nat (bits / 8)).

Definition and_bytes (a b : IP) : IP := zip_with Z.land a b.

(** [IPNet.Contains], with [networkNumberAndMask]. *)
Definition network_and_mask (n : IPNet) : option (IP * IP) :=
  match (match To4 (n_IP n) with Some v4 => Some v4 | None => if (length (n_IP n) =? 16)%nat then Some (n_IP n) else None end) with
  | None => None
  | Some ip =>
      if (length (n_Mask n) =? 4)%nat then (if (length ip =? 4)%nat then Some (ip, n_Mask n) else None)
      else if (length (n_Mask n) =? 16)%nat then
        Some (ip, if (length ip =? 4)%nat then drop 12 (n_Mask n) else n_Mask n)
      else None
  end.

Definition IPNet_Contains (n : IPNet) (ip : IP) : bool :=
  match network_and_mask n with
  | None => false
  | Some (nn, m) =>
      let ip := default ip (To4 ip) in
      (length ip =? length nn)%nat && bool_decide (and_bytes nn m = and_bytes ip m)
  end.

(** [dtoi] of the digits after the slash. *)
Definition prefix_length (s : string) : option Z :=
  if String.eqb s EmptyString || negb (str_all digit s) then None
  else match digits_value 0 s with Some n => if 16777215 <=? n then None else Some n | None => None end.

Definition ParseCIDR (s : string) : option IPNet :=
  match Index s "/" with
  | None => None
  | Some i =>
      match ParseAddr (stake i s), prefix_length (sdrop (S i) s) with
      | Some (ip, is4), Some n =>
          let bits := if is4 then 32 else 128 in
          if bits <? n then None
          else
            let m := CIDRMask n bits in
            let ip := if is4 then default ip (To4 ip) else ip in
            Some (mkIPNet (and_bytes ip m) m)
      | _, _ => None
      end
  end.

(** The host of [net.SplitHostPort]. *)
Definition byte_at (s : string) (i : nat) (c : nat) : bool :=
  match String.get i s with Some a => is_byte c a | None => false end.

Definition SplitHostPort (s : string) : option string :=
  match LastIndex s ":" with
  | None => None
  | Some i =>
      if byte_at s 0 91 then
        match Index s "]" with
        | None => None
        | Some e =>
            if negb (S e =? i)%nat then None
            else if Contains (sdrop 1 s) "[" || Contains (sdrop (S e) s) "]" then None
            else Some (stake (e - 1) (sdrop 1 s))
        end
      else
        let host := stake i s in
        if Contains host ":" || Contains s "[" || Contains s "]" then None else Some host
  end.

(** ** Headers: the values of each canonical name *)
Abbreviation Header := (gmap string (list string)) (only parsing).
Definition Get (h : Header) (name : string) : string :=
  match h !! name with Some (v :: _) => v | _ => EmptyString end.
Definition Del (name : string) (h : Header) : Header := delete name h.
Definition Set_ (name value : string) (h : Header) : Header := <[name := [value]]> h.

(** ** trusted_proxy.go *)
Definition ipInNetworks (ip : option IP) (networks : list IPNet) : bool :=
  match ip with None => false | Some ip => existsb (fun n => IPNet_Contains n ip) networks end.

(** One configured proxy; [inr] is its error. *)
Definition trusted_entry (value : string) : IPNet + string :=
  if Contains value "/" then
    match ParseCIDR value with Some n => inl n | None => inr value end
  else match ParseIP value with
       | None => inr value
       | Some ip => inl (match To4 ip with
                         | Some v4 => mkIPNet v4 (CIDRMask 32 32)
                         | None => mkIPNet ip (CIDRMask 128 128)
                         end)
       end.

Fixpoint parseTrustedProxyNetworks (values : list string) : list IPNet + string :=
  match values with
  | [] => inl []
  | raw :: rest =>
      let value := TrimSpace raw in
      if String.eqb value EmptyString then parseTrustedProxyNetworks rest
      else match trusted_entry value with
           | inr e => inr e
           | inl n => match parseTrustedProxyNetworks rest with inl ns => inl (n :: ns) | inr e => inr e end
           end
  end.

Definition remoteIP (value : string) : option IP :=
  let value := TrimSpace value in
  ParseIP (match SplitHostPort value with Some host => host | None => trim_byte "[]" value end).

Definition ipString (ip : option IP) (fallback : string) : string :=
  match ip with Some ip => IP_String ip | None => TrimSpace fallback end.

Definition cloudflareClientIP (remote : option IP) (value : string) : option IP :=
  match remote with
  | None => None
  | Some _ =>
      let trimmed := TrimSpace value in
      if String.eqb trimmed EmptyString || Contains trimmed "," then None else ParseIP trimmed
  end.

(** The addresses of the header, unreadable ones left out. *)
Definition chain_of (header : string) : list IP := omap (fun raw => ParseIP (TrimSpace raw)) (split_byte (Ascii.ascii_of_nat 44) header).

(** The walk, over the chain from its right end. *)
Fixpoint walk_back (current : IP) (chain : list IP) (trusted : list IPNet) : IP :=
  match chain with
  | [] => current
  | ip :: rest => if ipInNetworks (Some current) trusted then walk_back ip rest trusted else current
  end.
Definition forwardedClientIP (remote : IP) (header : string) (trusted : list IPNet) : IP :=
  walk_back remote (rev (chain_of header)) trusted.

Definition forwarding_headers : list string :=
  ["Forwarded"; "X-Forwarded-For"; "X-Forwarded-Host"; "X-Forwarded-Proto"; "X-Real-Ip"; "Cf-Connecting-Ip"].
Definition clearForwardingHeaders (h : Header) : Header := foldl (fun h name => Del name h) h forwarding_headers.

Definition sanitizeForwardedSingleValue (h : Header) (name : string) (valid : string -> bool) : Header :=
  let value := TrimSpace (default EmptyString (last (split_byte (Ascii.ascii_of_nat 44) (Get h name)))) in
  if String.eqb value EmptyString || negb (valid value) then Del name h else Set_ name value h.

Definition valid_proto (value : string) : bool := EqualFold value "http" || EqualFold value "https".

(** What the next handler is given: the caller's address and the headers. *)
Definition TrustedProxyMiddleware (networks : list IPNet) (remoteAddr : string) (h : Header) : string * Header :=
  let remote := remoteIP remoteAddr in
  match (if ipInNetworks remote networks then remote else None) with
  | None => (ipString remote remoteAddr, clearForwardingHeaders h)
  | Some peer =>
      let client := match cloudflareClientIP remote (Get h "Cf-Connecting-Ip") with
                    | Some ip => ip
                    | None => forwardedClientIP peer (Get h "X-Forwarded-For") networks
                    end in
      let h := Del "Forwarded" h in
      let h := Set_ "X-Forwarded-For" (IP_String client) h in
      let h := sanitizeForwardedSingleValue h "X-Forwarded-Host" (fun _ => true) in
      let h := sanitizeForwardedSingleValue h "X-Forwarded-Proto" valid_proto in
      let h := Set_ "X-Real-Ip" (IP_String client) h in
      (IP_String client, h)
  end.

(** [ClientIP]: the address the middleware captured, or the peer's. *)
Definition ClientIP (captured : string) (remoteAddr : string) : string :=
  if negb (String.eqb captured EmptyString) then captured else ipString (remoteIP remoteAddr) remoteAddr.

(** ** Who needs no key *)
Definition allow_entry (entry : string) : IPNet + string :=
  match ParseIP entry with
  | Some address => inl (mkIPNet address (match To4 address with None => CIDRMask 128 128 | Some _ => CIDRMask 32 32 end))
  | None => match ParseCIDR entry with Some n => inl n | None => inr entry end
  end.

Fixpoint NewAnonymousAllowlist (values : list string) : list IPNet + string :=
  match values with
  | [] => inl []
  | raw :: rest =>
      let entry := TrimSpace raw in
      if String.eqb entry EmptyString then NewAnonymousAllowlist rest
      else match allow_entry entry with
           | inr e => inr e
           | inl n => match NewAnonymousAllowlist rest with inl ns => inl (n :: ns) | inr e => inr e end
           end
  end.

Definition Empty (a : list IPNet) : bool := match a with [] => true | _ => false end.

Definition Allows (a : list IPNet) (client : string) : bool :=
  if Empty a then false
  else match ParseIP (TrimSpace client) with
       | None => false
       | Some address => existsb (fun n => IPNet_Contains n address) a
       end.

Record AnonymousAllowlistCache := mkCache { c_values : list string; c_list : list IPNet + string; c_ready : bool }.
Definition empty_cache : AnonymousAllowlistCache := mkCache [] (inl []) false.

(** [Get]; its second check, under the write lock, makes concurrent calls one update. *)
Definition cache_Get (values : list string) (c : AnonymousAllowlistCache)
    : (list IPNet + string) * AnonymousAllowlistCache :=
  if c_ready c && bool_decide (values = c_values c) then (c_list c, c)
  else let l := NewAnonymousAllowlist values in (l, mkCache values l true).

(** The predicate inferenceAuth passes to the key middleware. *)
Definition key_required (allow : list string) (client : string) (c : AnonymousAllowlistCache)
    : bool * AnonymousAllowlistCache :=
  let '(l, c) := cache_Get allow c in
  (match l with inr _ => true | inl a => negb (Allows a client) end, c).

(** ** Samples *)
Example parse_v4 : ParseIP "203.0.113.9" = Some (v4_mapped ++ [203; 0; 113; 9]).
Proof. by vm_compute. Qed.
Example parse_v6 : (IP_String <$> ParseIP "2001:DB8:0:0:1::1") = Some "2001:db8::1:0:0:1".
Proof. by vm_compute. Qed.
Example parse_mapped : (IP_String <$> ParseIP "::ffff:10.0.0.1") = Some "10.0.0.1".
Proof. by vm_compute. Qed.
Example parse_refused : ParseIP <$> ["1.2.3"; "01.2.3.4"; "256.1.1.1"; "1::2::3"; "fe80::1%eth0"; "1.2.3.4:80"; "::1:"; "12345::"] = repeat None 8.
Proof. by vm_compute. Qed.
Example parse_loopback : (IP_String <$> ParseIP "::1") = Some "::1" /\ (IP_String <$> ParseIP "::") = Some "::".
Proof. by vm_compute. Qed.
Example cidr : (fun n => (IPNet_Contains n (v4_mapped ++ [10; 7; 8; 9]), IPNet_Contains n (v4_mapped ++ [11; 0; 0; 1])))
  <$> ParseCIDR "10.0.0.0/8" = Some (true, false).
Proof. by vm_compute. Qed.
Example cidr6 : (fun n => (IPNet_Contains n <$> ParseIP "2001:db8:ff::1", IPNet_Contains n <$> ParseIP "2001:db9::1"))
  <$> ParseCIDR "2001:db8::/32" = Some (Some true, Some false).
Proof. by vm_compute. Qed.
Example host_ports : SplitHostPort <$> ["10.0.0.1:80"; "[::1]:443"; "::1:443"; "[::1]"; "h"] = [Some "10.0.0.1"; Some "::1"; None; None; None].
Proof. by vm_compute. Qed.

(** ** Addresses read and written *)
Definition byte (b : Z) : Prop := 0 <= b <= 255.
Definition dot : Ascii.ascii := Ascii.ascii_of_nat 46.

(** An octet is read back, and the separator after it is the first one. *)
Definition octet_reads (b : Z) : Prop :=
  (exists digLen, 0 < digLen /\ forall rest done_, v4_fields (fmt_d b +:+ rest) 0 0 done_ = v4_fields rest b digLen done_) /\
  (forall rest, exists i, IndexAny (fmt_d b +:+ String dot rest) ".:%" = Some i /\
                  String.get i (fmt_d b +:+ String dot rest) = Some dot).

(** The text of an octet, digit by digit. *)
Definition dig (d : Z) : Ascii.ascii := Ascii.ascii_of_nat (Z.to_nat (48 + d)).
Definition octet_text (b : Z) (rest : string) : string :=
  if b <? 10 then String (dig b) rest
  else if b <? 100 then String (dig (b / 10)) (String (dig (b mod 10)) rest)
  else String (dig (b / 100)) (String (dig (b / 10 mod 10)) (String (dig (b mod 10)) rest)).

Lemma byte_in b : byte b -> b ∈ Z.of_nat <$> seq 0 256.
Proof.
  intros Hb. unfold byte in Hb. apply list_elem_of_fmap. exists (Z.to_nat b). split; [lia|]. apply elem_of_seq. lia.
Qed.

Lemma octet_texts : Forall (fun b => fmt_d b = octet_text b EmptyString) (Z.of_nat <$> seq 0 256).
Proof. apply (bool_decide_unpack _). by vm_compute. Qed.

Lemma octet_text_app b rest : octet_text b EmptyString +:+ rest = octet_text b rest.
Proof. unfold octet_text. by repeat case_match. Qed.

Lemma fmt_octet b rest : byte b -> fmt_d b +:+ rest = octet_text b rest.
Proof.
  intros Hb. rewrite (proj1 (Forall_forall _ _) octet_texts b (byte_in b Hb)). apply octet_text_app.
Qed.

Lemma digits_seen : Forall (fun d => digit (dig d) = true /\ Z.of_nat (byte_of (dig d)) - 48 = d /\
  contains_byte ".:%" (dig d) = false) (Z.of_nat <$> seq 0 10).
Proof. apply (bool_decide_unpack _). by vm_compute. Qed.

Lemma digit_seen d : 0 <= d <= 9 ->
  digit (dig d) = true /\ Z.of_nat (byte_of (dig d)) - 48 = d /\ contains_byte ".:%" (dig d) = false.
Proof.
  intros Hd. apply (proj1 (Forall_forall _ _) digits_seen). apply list_elem_of_fmap. exists (Z.to_nat d).
  split; [lia|]. apply elem_of_seq. lia.
Qed.

Lemma v4_digit d rest val digLen done_ : 0 <= d <= 9 -> ~ (digLen = 1 /\ val = 0) -> val * 10 + d <= 255 ->
  v4_fields (String (dig d) rest) val digLen done_ = v4_fields rest (val * 10 + d) (digLen + 1) done_.
Proof.
  intros Hd Hz Hle. destruct (digit_seen d Hd) as (H1 & H2 & _). cbn [v4_fields]. rewrite H1, H2.
  assert ((digLen =? 1) && (val =? 0) = false) as ->.
  { apply andb_false_iff. destruct (Z.eqb_spec digLen 1); [right; apply Z.eqb_neq; lia|by left]. }
  by rewrite (proj2 (Z.ltb_ge _ _) Hle).
Qed.

Lemma octet_read b rest done_ : byte b ->
  exists digLen, 0 < digLen /\ v4_fields (fmt_d b +:+ rest) 0 0 done_ = v4_fields rest b digLen done_.
Proof.
  intros Hb. rewrite fmt_octet by done. unfold byte in Hb. unfold octet_text.
  pose proof (Z.div_mod b 10). pose proof (Z.mod_pos_bound b 10). pose proof (Z.div_mod (b / 10) 10).
  pose proof (Z.mod_pos_bound (b / 10) 10). assert (b / 10 / 10 = b / 100) by (rewrite Z.div_div; [done|lia..]).
  destruct (Z.ltb_spec b 10); [|destruct (Z.ltb_spec b 100)].
  - exists 1. split; [lia|]. rewrite v4_digit by lia. f_equal; lia.
  - exists 2. split; [lia|]. rewrite !v4_digit by lia. f_equal; lia.
  - exists 3. split; [lia|]. rewrite !v4_digit by lia. f_equal; lia.
Qed.

Lemma octet_first_dot b rest : byte b ->
  exists i, IndexAny (fmt_d b +:+ String dot rest) ".:%" = Some i /\ String.get i (fmt_d b +:+ String dot rest) = Some dot.
Proof.
  intros Hb. rewrite fmt_octet by done. unfold byte in Hb. unfold octet_text.
  pose proof (Z.mod_pos_bound b 10). pose proof (Z.mod_pos_bound (b / 10) 10).
  assert (0 <= b / 10 < 26) by (split; [apply Z.div_pos; lia|apply Z.div_lt_upper_bound; lia]).
  assert (0 <= b / 100 < 3) by (split; [apply Z.div_pos; lia|apply Z.div_lt_upper_bound; lia]).
  assert (Hs : forall d s i, 0 <= d <= 9 -> IndexAny s ".:%" = Some i -> IndexAny (String (dig d) s) ".:%" = Some (S i)).
  { intros d s i Hd Hi. destruct (digit_seen d Hd) as (_ & _ & Hc). cbn [IndexAny]. by rewrite Hc, Hi. }
  destruct (Z.ltb_spec b 10); [exists 1%nat|destruct (Z.ltb_spec b 100); [exists 2%nat|exists 3%nat]];
    (split; [|done]).
  all: pose proof (Z.div_mod b 10); repeat (apply Hs; [lia|]).
  all: by vm_compute.
Qed.

Lemma v4_dot b digLen rest done_ : 0 < digLen -> rest <> EmptyString -> length done_ <> 3%nat ->
  v4_fields (String dot rest) b digLen done_ = v4_fields rest 0 0 (done_ ++ [b]).
Proof.
  intros Hd Hr Hl. cbn [v4_fields]. change (digit dot) with false. change (is_byte 46 dot) with true. cbn [orb].
  rewrite (proj2 (Z.eqb_neq digLen 0)) by lia. rewrite (proj2 (String.eqb_neq rest EmptyString)) by done.
  by rewrite (proj2 (Nat.eqb_neq _ 3)).
Qed.

Lemma fmt_app_nonempty b rest : fmt_d b +:+ rest <> EmptyString.
Proof. pose proof (fmt_d_nonempty b). by destruct (fmt_d b). Qed.

(** A dotted address is read back. *)
Lemma parse_dotted a b c d : Forall byte [a; b; c; d] -> ParseIP (dotted [a; b; c; d]) = Some (v4_mapped ++ [a; b; c; d]).
Proof.
  intros Hall. rewrite !Forall_cons in Hall. destruct Hall as (Ha & Hb & Hc & Hd & _).
  set (text := dotted [a; b; c; d]).
  assert (E : text = fmt_d a +:+ String dot (fmt_d b +:+ String dot (fmt_d c +:+ String dot (fmt_d d)))) by done.
  destruct (octet_first_dot a (fmt_d b +:+ String dot (fmt_d c +:+ String dot (fmt_d d))) Ha) as (i & Hi & Hg).
  rewrite <- E in Hi, Hg.
  assert (Hp : parseIPv4 text = Some [a; b; c; d]).
  { unfold parseIPv4. rewrite E.
    destruct (octet_read a (String dot (fmt_d b +:+ String dot (fmt_d c +:+ String dot (fmt_d d)))) [] Ha) as (n1 & Hn1 & ->).
    rewrite v4_dot by (try apply fmt_app_nonempty; cbn; lia). cbn [app].
    destruct (octet_read b (String dot (fmt_d c +:+ String dot (fmt_d d))) [a] Hb) as (n2 & Hn2 & ->).
    rewrite v4_dot by (try apply fmt_app_nonempty; cbn; lia). cbn [app].
    destruct (octet_read c (String dot (fmt_d d)) [a; b] Hc) as (n3 & Hn3 & ->).
    rewrite v4_dot by (try apply fmt_d_nonempty; cbn; lia). cbn [app].
    destruct (octet_read d EmptyString [a; b; c] Hd) as (n4 & Hn4 & Hr).
    rewrite sapp_nil_r in Hr. cbn [app]. by rewrite Hr. }
  unfold ParseIP, ParseAddr. rewrite Hi, Hg. cbn [default]. change (is_byte 46 (default Ascii.zero (Some dot))) with true.
  cbn iota. by rewrite Hp.
Qed.

(** What is read are bytes, sixteen of them. *)
Lemma v4_bytes s : forall val digLen done_ ip,
  byte val -> Forall byte done_ -> (length done_ <= 3)%nat -> v4_fields s val digLen done_ = Some ip ->
  Forall byte ip /\ length ip = 4%nat.
Proof.
  induction s as [|c s IH]; intros val digLen done_ ip Hv Hd Hl; cbn [v4_fields].
  - destruct (Nat.ltb_spec (length done_) 3); [done|]. intros [= <-]. rewrite length_app. cbn.
    split; [by apply Forall_app; split; [|constructor]|lia].
  - destruct (digit c) eqn:Ec.
    + destruct (_ && _); [done|]. destruct (255 <? _) eqn:E; [done|]. apply IH; try done.
      apply andb_true_iff in Ec as [H1 _]. apply Nat.leb_le in H1. bool_to_prop. unfold byte in *. lia.
    + destruct (is_byte 46 c); [|done]. destruct (_ || _ || _) eqn:E; [done|]. bool_to_prop. apply Nat.eqb_neq in H0.
      intros Hf. eapply IH; [| | |exact Hf]; [unfold byte; lia|by apply Forall_app; split; [|constructor]|].
      rewrite length_app. cbn. lia.
Qed.

Lemma parseIPv4_bytes s ip : parseIPv4 s = Some ip -> Forall byte ip /\ length ip = 4%nat.
Proof. apply v4_bytes; [unfold byte; lia|constructor|cbn; lia]. Qed.

Lemma unhex_bound c d : unhex c = Some d -> 0 <= d < 16.
Proof.
  unfold unhex, between. repeat case_match; intros [= <-];
    repeat match goal with H : _ && _ = true |- _ => apply andb_true_iff in H as [?%Nat.leb_le ?%Nat.leb_le] end; lia.
Qed.

Lemma hex_run_bound s : forall acc off a o r,
  (off <= 4)%nat -> 0 <= acc < 16 ^ Z.of_nat off -> hex_run acc off s = Some (a, o, r) -> 0 <= a < 65536.
Proof.
  assert (Hend : forall acc off, (off <= 4)%nat -> 0 <= acc < 16 ^ Z.of_nat off -> 0 <= acc < 65536).
  { intros acc off Ho Ha. pose proof (Z.pow_le_mono_r 16 (Z.of_nat off) 4). change (16 ^ 4) with 65536 in *. lia. }
  induction s as [|c s IH]; intros acc off a o r Ho Ha; cbn [hex_run].
  - intros [= <- _ _]. by eapply Hend.
  - destruct (unhex c) as [d|] eqn:Ec; [|intros [= <- _ _]; by eapply Hend].
    destruct (Nat.ltb_spec 3 off); [done|]. apply unhex_bound in Ec. apply IH; [lia|].
    rewrite Nat2Z.inj_succ, Z.pow_succ_r by lia. lia.
Qed.

Lemma group_bytes a : 0 <= a < 65536 -> Forall byte [a / 256; a mod 256].
Proof.
  intros Ha. pose proof (Z.mod_pos_bound a 256). repeat constructor; unfold byte; try lia;
    try (apply Z.div_pos; lia); assert (a / 256 < 256) by (apply Z.div_lt_upper_bound; lia); lia.
Qed.

Lemma v6_bytes fuel : forall ip e s ip' e' r,
  Forall byte ip -> (length ip <= 16 - 2 * fuel)%nat -> (fuel <= 8)%nat ->
  (forall k, e = Some k -> (k <= length ip)%nat) ->
  v6_groups fuel ip e s = Some (ip', e', r) ->
  Forall byte ip' /\ (length ip' <= 16)%nat /\ forall k, e' = Some k -> (k <= length ip')%nat.
Proof.
  induction fuel as [|fuel IH]; intros ip e s ip' e' r Hb Hl Hf He; cbn [v6_groups].
  { intros [= <- <- _]. split; [done|]. split; [lia|done]. }
  destruct (hex_run 0 0 s) as [[[a [|o]] rest]|] eqn:Eh; [done| |done].
  apply hex_run_bound in Eh; [|lia|cbn; lia].
  destruct (HasPrefix rest ".").
  - destruct (_ || _) eqn:Eb; [done|]. apply orb_false_iff in Eb as [_ Eb]. apply Nat.ltb_ge in Eb.
    destruct (parseIPv4 s) as [v4|] eqn:E4; [|done]. intros [= <- <- _].
    apply parseIPv4_bytes in E4 as [H1 H2]. rewrite length_app. split; [by apply Forall_app|]. split; [lia|].
    intros k Hk. specialize (He k Hk). lia.
  - set (ip2 := ip ++ [a / 256; a mod 256]).
    assert (Hb' : Forall byte ip2) by (by apply Forall_app; split; [|apply group_bytes]).
    assert (Hl' : length ip2 = (length ip + 2)%nat) by (unfold ip2; rewrite length_app; done).
    assert (He' : forall k, e = Some k -> (k <= length ip2)%nat).
    { intros k Hk. specialize (He k Hk). lia. }
    assert (Hend : Forall byte ip2 /\ (length ip2 <= 16)%nat) by (split; [done|lia]).
    destruct rest as [|c after]; [intros [= <- <- _]; by destruct Hend|]. destruct (_ || _); [done|].
    destruct after as [|c2 after2]; [done|]. destruct (is_byte 58 c2).
    + destruct e; [done|]. destruct (String.eqb after2 _).
      * intros [= <- <- _]. destruct Hend. split; [done|]. split; [done|]. intros k [= <-]. lia.
      * apply IH; [done|lia|lia|]. intros k [= <-]. lia.
    + apply IH; [done|lia|lia|done].
Qed.

Lemma parse_bytes s ip : ParseIP s = Some ip -> Forall byte ip /\ length ip = 16%nat.
Proof.
  unfold ParseIP, ParseAddr. destruct (IndexAny s _) as [i|]; [|done].
  assert (Hm : Forall byte v4_mapped) by (repeat constructor; done).
  destruct (is_byte 46 _).
  { destruct (parseIPv4 s) as [v4|] eqn:E; [|done]. intros [= <-]. apply parseIPv4_bytes in E as [H1 H2].
    change (Forall byte (v4_mapped ++ v4) /\ length (v4_mapped ++ v4) = 16%nat).
    rewrite length_app, H2. split; [by apply Forall_app|done]. }
  destruct (is_byte 58 _); [|done]. destruct (Contains s "%"); [done|].
  assert (Hz : forall n, Forall byte (zeros16 n)) by (intros n; unfold zeros16; induction n; by constructor).
  unfold parseIPv6. destruct (String.eqb s "::").
  { intros [= <-]. split; [apply (Hz 16%nat)|done]. }
  destruct (if HasPrefix s "::" then _ else _) as [e s1] eqn:Ee.
  assert (He : forall k, e = Some k -> (k <= 0)%nat) by (destruct (HasPrefix s "::"); injection Ee as <- _; by intros k [= <-]).
  destruct (v6_groups 8 [] e s1) as [[[ip' e'] r]|] eqn:Eg; [|done].
  apply v6_bytes in Eg as (Hb & Hl & Hk); [|constructor|cbn; lia|lia|done].
  destruct (negb _); [done|]. destruct (Nat.ltb_spec (length ip') 16) as [Hlt|Hge].
  - destruct e' as [k|]; [|done]. intros [= <-]. specialize (Hk k eq_refl).
    split; [apply Forall_app; split; [by apply Forall_take|apply Forall_app; split; [apply Hz|by apply Forall_drop]]|].
    rewrite !length_app, length_take, length_drop. unfold zeros16. rewrite repeat_length. lia.
  - destruct e'; [done|]. intros [= <-]. split; [done|lia].
Qed.

(** An IPv4 address, however it came to be read, is the same after being written
    and read again. *)
Lemma written_and_read s ip v4 : ParseIP s = Some ip -> To4 ip = Some v4 -> ParseIP (IP_String ip) = Some ip.
Proof.
  intros Hp Ht. destruct (parse_bytes s ip Hp) as [Hb Hl]. unfold IP_String. rewrite Ht. unfold To4 in Ht. rewrite Hl in Ht.
  cbn [Nat.eqb andb] in Ht. case_bool_decide as Hm; [|done]. injection Ht as <-.
  assert (Hd : length (drop 12 ip) = 4%nat) by (rewrite length_drop; lia).
  assert (Hbd : Forall byte (drop 12 ip)) by (by apply Forall_drop).
  rewrite <- (take_drop 12 ip) at 2. rewrite Hm.
  destruct (drop 12 ip) as [|a [|b [|c [|d [|x l]]]]]; try done. by apply parse_dotted.
Qed.

(** ** The walk over the forwarded chain *)
Section Walk.
Context (trusted : list IPNet).
Abbreviation known ip := (ipInNetworks (Some ip) trusted = true) (only parsing).

Lemma walk_split chain : forall current, exists passed rest,
  current :: chain = passed ++ walk_back current chain trusted :: rest /\
  Forall (fun ip => known ip) passed /\
  (rest = [] \/ ipInNetworks (Some (walk_back current chain trusted)) trusted = false).
Proof.
  induction chain as [|ip chain IH]; intros current; cbn [walk_back].
  - exists [], []. split; [done|]. split; [constructor|by left].
  - destruct (ipInNetworks (Some current) trusted) eqn:E.
    + destruct (IH ip) as (passed & rest & Hs & Hp & Hr). exists (current :: passed), rest. rewrite Hs.
      split; [done|]. split; [by constructor|done].
    + exists [], (ip :: chain). split; [done|]. split; [constructor|by right].
Qed.

(** What stands left of an address that is not trusted does not count. *)
Lemma walk_stops chain more : forall current,
  Exists (fun ip => ipInNetworks (Some ip) trusted = false) (current :: chain) ->
  walk_back current (chain ++ more) trusted = walk_back current chain trusted.
Proof.
  induction chain as [|ip chain IH]; intros current Hex; cbn [walk_back app].
  - apply Exists_cons in Hex as [Hex|Hex]; [|by apply Exists_nil in Hex].
    destruct more; [done|]. cbn [walk_back]. by rewrite Hex.
  - destruct (ipInNetworks (Some current) trusted) eqn:E; [|done]. apply IH.
    apply Exists_cons in Hex as [Hex|Hex]; [congruence|done].
Qed.
End Walk.

Lemma split_byte_app sep a b :
  split_byte sep (a +:+ String sep b) = split_byte sep a ++ split_byte sep b.
Proof.
  induction a as [|c a IH]; cbn [String.append split_byte].
  - change (EmptyString +:+ String sep b) with (String sep b). cbn [split_byte]. rewrite Ascii.eqb_refl.
    destruct (split_byte sep b) eqn:E; [|done]. exfalso. revert E. clear. induction b as [|c b IH]; [done|].
    cbn. destruct (split_byte sep b); [done|]. by destruct (Ascii.eqb c sep).
  - change (String c a +:+ String sep b) with (String c (a +:+ String sep b)). cbn [split_byte]. rewrite IH.
    destruct (split_byte sep a) as [|cur rest] eqn:E; [|by destruct (Ascii.eqb c sep)].
    exfalso. revert E. clear. induction a as [|x a IH]; [done|].
    cbn. destruct (split_byte sep a); [done|]. by destruct (Ascii.eqb x sep).
Qed.

Lemma chain_app forged header :
  chain_of (forged +:+ String (Ascii.ascii_of_nat 44) header) = chain_of forged ++ chain_of header.
Proof. unfold chain_of. by rewrite split_byte_app, omap_app. Qed.

Lemma cleared h name : name ∈ forwarding_headers -> clearForwardingHeaders h !! name = None.
Proof.
  unfold clearForwardingHeaders, forwarding_headers, Del. cbn [foldl]. intros Hin.
  repeat (apply elem_of_cons in Hin as [->|Hin]; [repeat (rewrite lookup_delete_ne by done); apply lookup_delete_eq|]).
  by apply elem_of_nil in Hin.
Qed.

Lemma cleared_others h name : name ∉ forwarding_headers -> clearForwardingHeaders h !! name = h !! name.
Proof.
  unfold clearForwardingHeaders, forwarding_headers, Del. cbn [foldl]. intros Hin.
  rewrite !lookup_delete_ne; [done|..]; intros <-; apply Hin; set_solver.
Qed.

(** The address the middleware resolves: [None] when the peer's cannot be read. *)
Definition resolved (networks : list IPNet) (remoteAddr : string) (h : Header) : option IP :=
  match remoteIP remoteAddr with
  | None => None
  | Some peer =>
      if ipInNetworks (Some peer) networks then
        Some (match cloudflareClientIP (Some peer) (Get h "Cf-Connecting-Ip") with
              | Some ip => ip
              | None => forwardedClientIP peer (Get h "X-Forwarded-For") networks
              end)
      else Some peer
  end.

Lemma middleware_client networks remoteAddr h :
  (TrustedProxyMiddleware networks remoteAddr h).1 = ipString (resolved networks remoteAddr h) remoteAddr.
Proof.
  unfold TrustedProxyMiddleware, resolved. destruct (remoteIP remoteAddr) as [peer|]; [|done].
  by destruct (ipInNetworks (Some peer) networks).
Qed.

Lemma sanitized_other h name valid other : other <> name ->
  sanitizeForwardedSingleValue h name valid !! other = h !! other.
Proof.
  intros Hne. unfold sanitizeForwardedSingleValue, Del, Set_. case_match; [by rewrite lookup_delete_ne|by rewrite lookup_insert_ne].
Qed.


(** ** The cache of the allowlist *)
Definition cache_ok (c : AnonymousAllowlistCache) : Prop :=
  c_ready c = true -> c_list c = NewAnonymousAllowlist (c_values c).

Definition cache_after (history : list (list string)) : AnonymousAllowlistCache :=
  foldl (fun c values => (cache_Get values c).2) empty_cache history.

Lemma get_ok values c : cache_ok c ->
  (cache_Get values c).1 = NewAnonymousAllowlist values /\ cache_ok (cache_Get values c).2.
Proof.
  intros Hc. unfold cache_Get. destruct (c_ready c) eqn:Er; cbn [andb]; [|done].
  case_bool_decide as Ev; [|done]. subst values. cbn. split; [by apply Hc|done].
Qed.

Lemma cache_after_ok history : cache_ok (cache_after history).
Proof.
  unfold cache_after. assert (He : cache_ok empty_cache) by done. revert He. generalize empty_cache.
  induction history as [|values history IH]; intros c Hc; cbn [foldl]; [done|]. apply IH. by apply get_ok.
Qed.

(** An IPv4 text has no space at its ends. *)
Lemma digit_plain s : str_all digit_or_sign s = true -> str_all plain_byte s = true.
Proof.
  induction s as [|c s IH]; [done|]. cbn [str_all]. intros [Hc Hs]%andb_true_iff. rewrite IH by done. rewrite andb_true_r.
  unfold digit_or_sign in Hc. unfold plain_byte. apply andb_true_iff. rewrite negb_true_iff, andb_true_iff, andb_false_iff,
    !Nat.leb_le, !Nat.leb_gt. apply orb_true_iff in Hc as [Hc|Hc].
  - apply andb_true_iff in Hc as [?%Nat.leb_le ?%Nat.leb_le]. lia.
  - apply Nat.eqb_eq in Hc. lia.
Qed.

Lemma dotted_trim v4 : TrimSpace (dotted v4) = dotted v4.
Proof.
  apply TrimSpace_plain. unfold dotted. repeat (case_match; [done|]). case_match; [|done].
  pose proof (fun z => digit_plain _ (fmt_d_digits z)) as Hd. rewrite !str_all_app. by rewrite !Hd.
Qed.

Lemma resolved_read networks remoteAddr h ip : resolved networks remoteAddr h = Some ip -> exists s, ParseIP s = Some ip.
Proof.
  unfold resolved, remoteIP. set (text := match SplitHostPort _ with Some _ => _ | None => _ end).
  destruct (ParseIP text) as [peer|] eqn:Ep; [|done]. destruct (ipInNetworks _ _); intros E; apply (inj Some) in E; subst ip; [|by exists text].
  destruct (cloudflareClientIP _ _) as [c|] eqn:Ec.
  - unfold cloudflareClientIP in Ec. destruct (_ || _); [done|]. by eexists.
  - assert (Hin : forwardedClientIP peer (Get h "X-Forwarded-For") networks ∈ peer :: rev (chain_of (Get h "X-Forwarded-For"))).
    { destruct (walk_split networks (rev (chain_of (Get h "X-Forwarded-For"))) peer) as (passed & rest & -> & _).
      apply elem_of_app. right. by left. }
    apply elem_of_cons in Hin as [->|Hin]; [by exists text|]. apply list_elem_of_In, in_rev, list_elem_of_In in Hin.
    unfold chain_of in Hin. apply list_elem_of_omap in Hin as (raw & _ & Hr). by eexists.
Qed.

(** Only a listed address goes without a key. Whatever lists the cache of the
    server was asked for before, and whatever headers a request carries, a request
    whose resolved caller is an IPv4 address is let in without a key exactly when
    every entry of the configured list can be read and one of them contains that
    address. *)
Theorem anonymous_only_if_listed (history : list (list string)) (allow : list string)
    (networks : list IPNet) (remoteAddr : string) (h : Header) (ip v4 : IP) :
  resolved networks remoteAddr h = Some ip -> To4 ip = Some v4 ->
  let captured := (TrustedProxyMiddleware networks remoteAddr h).1 in
  (key_required allow (ClientIP captured remoteAddr) (cache_after history)).1 = false <->
  exists a n, NewAnonymousAllowlist allow = inl a /\ n ∈ a /\ IPNet_Contains n ip = true.
Proof.
  intros Hres H4. cbv zeta. rewrite middleware_client, Hres. cbn [ipString].
  assert (Htext : IP_String ip = dotted v4) by (unfold IP_String; by rewrite H4).
  destruct (resolved_read _ _ _ _ Hres) as [s Hs]. pose proof (written_and_read s ip v4 Hs H4) as Hrt.
  assert (Hne : IP_String ip <> EmptyString) by (intros E; by rewrite E in Hrt).
  unfold ClientIP. rewrite (proj2 (String.eqb_neq _ _) Hne). cbn [negb]. unfold key_required.
  destruct (get_ok allow (cache_after history) (cache_after_ok history)) as [Hg _].
  destruct (cache_Get allow (cache_after history)) as [l c]. cbn [fst] in *. rewrite Hg.
  destruct (NewAnonymousAllowlist allow) as [a|e]; [|split; [done|intros (a & n & [=] & _)]].
  rewrite negb_false_iff. unfold Allows. rewrite Htext, dotted_trim, <- Htext, Hrt.
  destruct (Empty a) eqn:Ee.
  { destruct a; [|done]. split; [done|]. intros (a & n & [= <-] & Hn & _). by apply elem_of_nil in Hn. }
  rewrite existsb_exists. split.
  - intros (n & Hn%list_elem_of_In & Hc). by exists a, n.
  - intros (a' & n & [= <-] & Hn & Hc). exists n. split; [by apply list_elem_of_In|done].
Qed.

(** ** A caller behind the local proxy, and one that is not *)
Definition local_proxy : list IPNet := match parseTrustedProxyNetworks ["127.0.0.1"; " 10.0.0.0/8 "] with inl ns => ns | inr _ => [] end.
Definition forged_headers : Header :=
  {[ "X-Forwarded-For" := ["198.51.100.7, 203.0.113.9, 10.1.2.3"]; "X-Real-Ip" := ["198.51.100.7"] ]}.

Example behind_proxy : (TrustedProxyMiddleware local_proxy "127.0.0.1:5000" forged_headers).1 = "203.0.113.9".
Proof. by vm_compute. Qed.

Example direct_caller : (TrustedProxyMiddleware local_proxy "192.0.2.4:5000" forged_headers).1 = "192.0.2.4".
Proof. by vm_compute. Qed.


Lemma anonymous_only_if_listed_witness :
  (key_required ["203.0.113.0/24"] "203.0.113.9" (cache_after [["198.51.100.7"]])).1 = false.
Proof.
  apply (anonymous_only_if_listed [["198.51.100.7"]] ["203.0.113.0/24"] local_proxy "127.0.0.1:5000" forged_headers
    (v4_mapped ++ [203; 0; 113; 9]) [203; 0; 113; 9]); [by vm_compute|by vm_compute|].
  exists [mkIPNet [203; 0; 113; 0] [255; 255; 255; 0]], (mkIPNet [203; 0; 113; 0] [255; 255; 255; 0]).
  split; [by vm_compute|]. split; [by left|]. by vm_compute.
Defined.
