(* ===== verification/Wire.v ===== *)
(** * Provider streams: the shared part (src/internal/upstream/emit.go, src/internal/util/)

    Every provider answers with a body of lines that is read while it arrives. This
    file holds what the readers share: the lines of a body (bufio.Scanner), the
    emitters of the events the relay consumes and the usage they normalise
    (upstream/emit.go, UsageInt of util/toolstream.go), the accumulator that rebuilds
    streamed tool calls (util/toolstream.go), and the unwrapping of tool arguments
    (util/tool_args.go). WorkBuddyWire.v, ClineWire.v and QoderWire.v are the readers.

    A reader's listener is never nil: the retry loop passes its handler. *)

From Corelib Require Import SpecFloat.
From stdpp Require Import base numbers list strings gmap.
From S2P Require Import Prelude GoLib Json Marshal Policy Tools SseFrame Stream Prompt.

Local Open Scope Z_scope.
Local Open Scope orchids_scope.

Definition strlen (s : string) : Z := Z.of_nat (String.length s).

(** ** The lines of a body

    A body delivers its bytes and then ends, or fails with an error that comes by a
    read of its own. [bufio.Scanner] cuts it at line feeds; it delivers what stands
    after the last one when the body ends, whether it ends or fails; and it refuses
    a line that does not fit its buffer. *)
Record Body := mkBody { b_data : string; b_error : option string }.

Definition CR : string := String (Ascii.ascii_of_nat 13) EmptyString.
Definition LF : Ascii.ascii := Ascii.ascii_of_nat 10.

(** The text up to the first line feed, and the texts between and after the others. *)
Fixpoint cut_lines (s : string) : string * list string :=
  match s with
  | EmptyString => (EmptyString, [])
  | String a s' =>
      let '(line, rest) := cut_lines s' in
      if is_byte 10 a then (EmptyString, line :: rest) else (String a line, rest)
  end.

Definition drop_cr (line : string) : string :=
  if HasSuffix line CR then stake (String.length line - 1) line else line.

(** A line, and what [Err] answers once it is delivered. *)
Record Token := mkToken { t_line : string; t_err : option string }.

Definition ErrTooLong : string := "bufio.Scanner: token too long".

Fixpoint tokens (limit : Z) (err : option string) (line : string) (rest : list string) :
    list Token * option string :=
  match rest with
  | [] =>
      if String.eqb line EmptyString then ([], err)
      else if limit <=? strlen line then ([], Some ErrTooLong)
      else ([mkToken (drop_cr line) err], err)
  | next :: rest' =>
      if limit <? strlen line + 1 then ([], Some ErrTooLong)
      else
        let '(ts, e) := tokens limit err next rest' in
        (mkToken (drop_cr line) None :: ts, e)
  end.

Definition Scan (limit : Z) (body : Body) : list Token * option string :=
  let '(line, rest) := cut_lines (b_data body) in tokens limit (b_error body) line rest.

(** ** Tool calls as they are streamed

    A call is a heap object; the order lists the objects, and the map names the
    object that takes the next fragment of an index, by its position. *)
Record ToolCall := mkCall {
  c_ID : string;
  c_Name : string;
  c_Arguments : string;
  c_emitted : bool;
}.
#[export] Instance eta_ToolCall : Eta ToolCall := fun r =>
  mkCall (c_ID r) (c_Name r) (c_Arguments r) (c_emitted r).

Record ToolCallAccumulator := mkAccumulator { a_order : list ToolCall; a_calls : gmap Z nat }.
#[export] Instance eta_Accumulator : Eta ToolCallAccumulator := fun r => mkAccumulator (a_order r) (a_calls r).

Definition NewToolCallAccumulator : ToolCallAccumulator := mkAccumulator [] ∅.

(** One fragment of a call. *)
Record Fragment := mkFragment { f_index : Z; f_id : string; f_name : string; f_args : string }.

Definition takes_fragment (d : Fragment) (state : ToolCall) : bool :=
  negb (c_emitted state ||
        (nonempty (TrimSpace (f_id d)) && nonempty (c_ID state) &&
         negb (String.eqb (c_ID state) (TrimSpace (f_id d))))).

Definition open_call (a : ToolCallAccumulator) (d : Fragment) : option nat :=
  p ← a_calls a !! f_index d;
  state ← a_order a !! p;
  if takes_fragment d state then Some p else None.

Definition fold_fragment (d : Fragment) (state : ToolCall) : ToolCall :=
  let trimmedID := TrimSpace (f_id d) in
  let trimmed := TrimSpace (f_name d) in
  let state := if nonempty trimmedID then state <| c_ID := trimmedID |> else state in
  let state := if nonempty trimmed then state <| c_Name := trimmed |> else state in
  state <| c_Arguments := c_Arguments state +:+ f_args d |>.

Definition new_call : ToolCall := mkCall EmptyString EmptyString EmptyString false.

Definition AddFragment (d : Fragment) (a : ToolCallAccumulator) : ToolCallAccumulator :=
  match open_call a d with
  | Some p => a <| a_order := alter (fold_fragment d) p (a_order a) |>
  | None => mkAccumulator (a_order a ++ [fold_fragment d new_call])
                          (<[f_index d := length (a_order a)]> (a_calls a))
  end.

Definition complete (state : ToolCall) : bool := negb (c_emitted state) && nonempty (c_Name state).

Definition CompleteAll (a : ToolCallAccumulator) : ToolCallAccumulator * list ToolCall :=
  let close state := if complete state then state <| c_emitted := true |> else state in
  (a <| a_order := map close (a_order a) |>,
   map close (List.filter complete (a_order a))).

(** One fragment of a call, as a chunk has it. *)
Definition decode_fragment (fs : list (string * json)) : option Fragment :=
  index ← as_int (struct_field "index" fs);
  id ← as_string (struct_field "id" fs);
  _ ← as_string (struct_field "type" fs);
  '(name, arguments) ← as_struct (fun fn =>
      name ← as_string (struct_field "name" fn); arguments ← as_string (struct_field "arguments" fn);
      Some (name, arguments)) (struct_field "function" fs);
  Some (mkFragment index id name arguments).

(** ** Tool arguments *)
Definition toolInputDepth : nat := 3.

Definition unwrapOpenAIArguments (input : string) : option string :=
  v ← Unmarshal input;
  obj ← match v with JObj fs => Some fs | JNull => Some [] | _ => None end;
  rawArgs ← field "arguments" obj;
  text ← as_string (Some rawArgs);
  let text := TrimSpace text in
  if String.eqb text EmptyString || String.eqb text "null" then Some "{}"
  else match Unmarshal text with Some _ => Some text | None => None end.

Fixpoint normalizeToolInputDepth (depth : nat) (input : string) : string :=
  match depth with
  | O => TrimSpace input
  | S depth' =>
      let trimmed := TrimSpace input in
      if String.eqb trimmed EmptyString || String.eqb trimmed "null" then "{}"
      else
        match (v ← Unmarshal trimmed; as_string (Some v)) with
        | Some text =>
            let text := TrimSpace text in
            if String.eqb text EmptyString then "{}" else normalizeToolInputDepth depth' text
        | None =>
            match unwrapOpenAIArguments trimmed with
            | Some inner => normalizeToolInputDepth depth' inner
            | None => trimmed
            end
        end
  end.

Definition NormalizeToolInput (raw : string) : string := normalizeToolInputDepth toolInputDepth raw.

(** ** What a reader has produced *)
Record Result := mkResult {
  SawMeaningfulEvent : bool;
  ToolCallCount : Z;
  Usage : list (string * json);           (* empty for nil *)
  ThinkingSignature : string;
  FinishReasonValue : string;
  emitted : list SSEMessage;              (* what the listener was given *)
  minted : nat;                           (* the ids made so far *)
}.
#[export] Instance eta_Result : Eta Result := fun r =>
  mkResult (SawMeaningfulEvent r) (ToolCallCount r) (Usage r) (ThinkingSignature r) (FinishReasonValue r)
    (emitted r) (minted r).

Definition initialResult : Result := mkResult false 0 [] EmptyString EmptyString [] 0.

Definition tell (msg : SSEMessage) (r : Result) : Result := r <| emitted := emitted r ++ [msg] |>.
Definition event (type : string) (fields : list (string * json)) : SSEMessage := mkSSEMessage type (Some fields).
Definition meaningful (r : Result) : Result := r <| SawMeaningfulEvent := true |>.

Definition EmitTextDelta (text : string) (r : Result) : Result :=
  if String.eqb text EmptyString then r
  else tell (event "model.text-delta" [("delta", JStr text)]) (meaningful r).

(** The id of a call the upstream did not name: the clock and the process-wide
    counter, both as the reader's [k]-th new id finds them. *)
Definition NewToolCallID (now : Time) (seq : Z) : string :=
  "toolu_" +:+ fmt_d (now - unix_epoch) +:+ "_" +:+ fmt_d seq.

Section Emit.
Context (mint : nat -> Time * Z).

Definition call_event (id : string) (state : ToolCall) : SSEMessage :=
  event "model.tool-call" [("toolCallId", JStr id); ("toolName", JStr (c_Name state));
                           ("input", JStr (NormalizeToolInput (c_Arguments state)))].

Definition emit_call (r : Result) (state : ToolCall) : Result :=
  let r := meaningful r <| ToolCallCount := ToolCallCount r + 1 |> in
  if String.eqb (c_ID state) EmptyString
  then tell (call_event (NewToolCallID (mint (minted r)).1 (mint (minted r)).2) state) (r <| minted := S (minted r) |>)
  else tell (call_event (c_ID state) state) r.

Definition EmitToolCalls (states : list ToolCall) (r : Result) : Result := foldl emit_call r states.
End Emit.

Definition ApplyStreamUsage (usage : list (string * json)) (r : Result) : Result :=
  match usage with
  | [] => r
  | _ => tell (event "model.tokens-used" usage) (meaningful (r <| Usage := usage |>))
  end.

(** *** Usage

    The maps read here are decoded from JSON: a number is a float64, truncated to an int. *)
Fixpoint UsageInt (values : list (string * json)) (keys : list string) : option Z :=
  match keys with
  | [] => None
  | key :: keys' =>
      match (match field key values with Some (JNum lit) => truncate <$> ParseFloat lit | _ => None end) with
      | Some v => Some v
      | None => UsageInt values keys'
      end
  end.

Fixpoint UsageMap (values : list (string * json)) (keys : list string) : option (list (string * json)) :=
  match keys with
  | [] => None
  | key :: keys' => match obj_field key values with Some nested => Some nested | None => UsageMap values keys' end
  end.

Definition detail_keys : list string :=
  ["completion_tokens_details"; "completionTokensDetails"; "output_tokens_details"; "outputTokensDetails"].

Fixpoint reasoning_details (raw : list (string * json)) (keys : list string) : option Z :=
  match keys with
  | [] => None
  | key :: keys' =>
      match (details ← UsageMap raw [key];
             UsageInt details ["reasoning_tokens"; "reasoningTokens"; "thinking_tokens"; "thinkingTokens"]) with
      | Some v => Some v
      | None => reasoning_details raw keys'
      end
  end.

Definition reasoningUsage (raw : list (string * json)) : option Z :=
  match UsageInt raw ["reasoning_tokens"; "reasoningTokens"; "completion_thinking_tokens"] with
  | Some v => Some v
  | None => reasoning_details raw detail_keys
  end.

Definition both_spellings (camel snake : string) (v : option Z) : list (string * json) :=
  match v with Some z => [(camel, JInt z); (snake, JInt z)] | None => [] end.

Definition NormalizeUsageMap (raw : list (string * json)) : list (string * json) :=
  let input := UsageInt raw ["prompt_tokens"; "promptTokens"; "input_tokens"; "inputTokens"] in
  let output := UsageInt raw ["completion_tokens"; "completionTokens"; "output_tokens"; "outputTokens"] in
  match raw, input, output with
  | [], _, _ | _, None, None => []
  | _, _, _ =>
      both_spellings "inputTokens" "input_tokens" input ++
      both_spellings "outputTokens" "output_tokens" output ++
      both_spellings "cacheReadTokens" "cache_read_tokens" (UsageInt raw ["prompt_cache_hit_tokens"; "cached_tokens"]) ++
      both_spellings "reasoningTokens" "reasoning_tokens" (reasoningUsage raw)
  end.

(** ** What the accumulator rebuilds *)
Definition rebuilt (ds : list Fragment) : ToolCallAccumulator :=
  foldl (fun a d => AddFragment d a) NewToolCallAccumulator ds.
Definition frag_id (d : Fragment) : string := TrimSpace (f_id d).
Definition fragments_at (i : Z) (ds : list Fragment) : list Fragment := List.filter (fun d => f_index d =? i) ds.
Definition join (g : list Fragment) : ToolCall := foldl (fun c d => fold_fragment d c) new_call g.

(** The fragments of the calls, call by call in the order of their first fragments:
    every fragment of an index goes, in its place, to exactly one call; a call has one
    id; and a new call at the same index starts only where the id changes. *)
Record grouping (ds : list Fragment) (gs : list (Z * list Fragment)) : Prop := {
  one_index : forall i g, (i, g) ∈ gs -> g <> [] /\ Forall (fun d => f_index d = i) g;
  one_id : forall i g d, (i, g) ∈ gs -> d ∈ g -> frag_id d <> EmptyString -> frag_id d = c_ID (join g);
  all_fragments : forall i, concat (List.filter (fun ig => ig.1 =? i) gs).*2 = fragments_at i ds;
  in_order : omap (fun ig => head ig.2) gs `sublist_of` ds;
  ids_change : forall i p q g g',
    gs !! p = Some (i, g) -> gs !! q = Some (i, g') -> (p < q)%nat ->
    (forall r g0, (p < r < q)%nat -> gs !! r <> Some (i, g0)) ->
    exists d, head g' = Some d /\ frag_id d <> EmptyString /\ c_ID (join g) <> EmptyString /\
              frag_id d <> c_ID (join g);
}.

Lemma nonempty_spec s : nonempty s = true <-> s <> EmptyString.
Proof. unfold nonempty. destruct (String.eqb_spec s EmptyString); cbn; split; congruence. Qed.
Lemma nonempty_false s : nonempty s = false <-> s = EmptyString.
Proof. unfold nonempty. destruct (String.eqb_spec s EmptyString); cbn; split; congruence. Qed.

Lemma join_snoc g d : join (g ++ [d]) = fold_fragment d (join g).
Proof. unfold join. by rewrite foldl_app. Qed.

Lemma join_open g : c_emitted (join g) = false.
Proof.
  induction g as [|d g IH] using rev_ind; [done|]. rewrite join_snoc. unfold fold_fragment. cbv zeta.
  by destruct (nonempty (TrimSpace (f_id d))), (nonempty (TrimSpace (f_name d))).
Qed.

Lemma join_arguments g : c_Arguments (join g) = foldr (fun d acc => f_args d +:+ acc) EmptyString g.
Proof.
  assert (H : forall g c, c_Arguments (foldl (fun c d => fold_fragment d c) c g) =
                          c_Arguments c +:+ foldr (fun d acc => f_args d +:+ acc) EmptyString g).
  { clear. induction g as [|d g IH]; intros c; cbn [foldl foldr]; [by rewrite sapp_nil_r|].
    rewrite IH, <- sapp_assoc. f_equal. unfold fold_fragment. cbv zeta.
    by destruct (nonempty (TrimSpace (f_id d))), (nonempty (TrimSpace (f_name d))). }
  exact (H g new_call).
Qed.

Lemma fold_fragment_ID d c :
  c_ID (fold_fragment d c) = if nonempty (frag_id d) then frag_id d else c_ID c.
Proof.
  unfold fold_fragment, frag_id. cbv zeta.
  by destruct (nonempty (TrimSpace (f_id d))), (nonempty (TrimSpace (f_name d))).
Qed.

Lemma takes_join d g :
  takes_fragment d (join g) = true <->
  (frag_id d = EmptyString \/ c_ID (join g) = EmptyString \/ c_ID (join g) = frag_id d).
Proof.
  unfold takes_fragment. fold (frag_id d). rewrite join_open. cbn [orb].
  rewrite negb_true_iff, !andb_false_iff, negb_false_iff, !nonempty_false, String.eqb_eq. tauto.
Qed.

(** The map names the last call of each index. *)
Definition last_call (i : Z) (gs : list (Z * list Fragment)) (at_ : option nat) : Prop :=
  match at_ with
  | None => forall p g, gs !! p <> Some (i, g)
  | Some p => (exists g, gs !! p = Some (i, g)) /\ forall q g, gs !! q = Some (i, g) -> (q <= p)%nat
  end.

Lemma filter_absent i (gs : list (Z * list Fragment)) :
  (forall p g, gs !! p <> Some (i, g)) -> List.filter (fun ig => ig.1 =? i) gs = [].
Proof.
  induction gs as [|[j g] gs IH]; intros Hno; [done|]. cbn.
  destruct (Z.eqb_spec j i) as [->|]; [by destruct (Hno O g)|].
  apply IH. intros p g'. exact (Hno (S p) g').
Qed.

Lemma fragments_at_snoc i ds d :
  fragments_at i (ds ++ [d]) = fragments_at i ds ++ (if f_index d =? i then [d] else []).
Proof. unfold fragments_at. rewrite List.filter_app. cbn. by destruct (_ =? _). Qed.

(** The fragments of an index when the last call of index [i] takes one more. *)
Lemma concat_insert i j p g d (gs : list (Z * list Fragment)) :
  gs !! p = Some (i, g) -> (forall q g0, gs !! q = Some (i, g0) -> (q <= p)%nat) ->
  concat (List.filter (fun ig => ig.1 =? j) (<[p := (i, g ++ [d])]> gs)).*2 =
  concat (List.filter (fun ig => ig.1 =? j) gs).*2 ++ (if i =? j then [d] else []).
Proof.
  intros Hp Hlast. rewrite insert_take_drop by (by apply lookup_lt_Some in Hp).
  rewrite <- (take_drop_middle gs p (i, g) Hp) at 3.
  rewrite !List.filter_app, !fmap_app, !concat_app, <- !app_assoc. f_equal. cbn.
  destruct (Z.eqb_spec i j) as [<-|Hne]; [|by rewrite app_nil_r].
  rewrite filter_absent; [cbn; by rewrite !app_nil_r|].
  intros q g0. rewrite lookup_drop. intros Hq. specialize (Hlast _ _ Hq). lia.
Qed.

Record rebuilding (ds : list Fragment) (gs : list (Z * list Fragment)) (a : ToolCallAccumulator) : Prop := {
  rb_grouping : grouping ds gs;
  rb_order : a_order a = map (fun ig => join ig.2) gs;
  rb_last : forall i, last_call i gs (a_calls a !! i);
}.

Lemma open_call_spec ds gs a d : rebuilding ds gs a ->
  match open_call a d with
  | Some p => exists g, gs !! p = Some (f_index d, g) /\ takes_fragment d (join g) = true /\
                        forall q g0, gs !! q = Some (f_index d, g0) -> (q <= p)%nat
  | None => (forall p g, gs !! p <> Some (f_index d, g)) \/
            exists p g, gs !! p = Some (f_index d, g) /\ takes_fragment d (join g) = false /\
                        forall q g0, gs !! q = Some (f_index d, g0) -> (q <= p)%nat
  end.
Proof.
  intros [_ Ho Hl]. specialize (Hl (f_index d)). unfold open_call, last_call in *.
  destruct (a_calls a !! f_index d) as [p|]; cbn [mbind option_bind]; [|by left].
  destruct Hl as [[g Hg] Hlast]. rewrite Ho, list_lookup_fmap, Hg.
  cbn [mbind option_bind fmap option_fmap option_map snd].
  destruct (takes_fragment d (join g)) eqn:Ht; [by exists g|]. right. by exists p, g.
Qed.

Lemma joined_id g d d' : takes_fragment d (join g) = true ->
  (forall x, x ∈ g -> frag_id x <> EmptyString -> frag_id x = c_ID (join g)) ->
  d' ∈ g ++ [d] -> frag_id d' <> EmptyString -> frag_id d' = c_ID (join (g ++ [d])).
Proof.
  intros Ht Hg Hin Hne. rewrite join_snoc, fold_fragment_ID. apply takes_join in Ht.
  apply elem_of_app in Hin as [Hin| ->%list_elem_of_singleton].
  - specialize (Hg _ Hin Hne). destruct (nonempty (frag_id d)) eqn:Hd; [|done].
    apply nonempty_spec in Hd. destruct Ht as [|[|]]; congruence.
  - by rewrite (proj2 (nonempty_spec _) Hne).
Qed.

Lemma in_insert {A} (x y : A) (p : nat) (l : list A) : x ∈ <[p := y]> l -> x = y \/ x ∈ l.
Proof.
  intros [q Hq]%list_elem_of_lookup. destruct (decide (q = p)) as [->|Hne].
  - left. assert (Hlt := lookup_lt_Some _ _ _ Hq). rewrite length_insert in Hlt.
    rewrite list_lookup_insert_eq in Hq by done. congruence.
  - right. rewrite list_lookup_insert_ne in Hq by done. by apply list_elem_of_lookup; exists q.
Qed.

Lemma heads_insert i p g d (gs : list (Z * list Fragment)) : gs !! p = Some (i, g) -> g <> [] ->
  omap (fun ig => head ig.2) (<[p := (i, g ++ [d])]> gs) = omap (fun ig => head ig.2) gs.
Proof.
  intros Hp Hne. rewrite insert_take_drop by (by apply lookup_lt_Some in Hp).
  rewrite <- (take_drop_middle gs p (i, g) Hp) at 3. rewrite !omap_app. f_equal. cbn. by destruct g.
Qed.

(** The fragment goes to the open call of its index. *)
Lemma rebuild_joins ds gs a d p g :
  rebuilding ds gs a -> open_call a d = Some p -> gs !! p = Some (f_index d, g) ->
  takes_fragment d (join g) = true ->
  (forall q g0, gs !! q = Some (f_index d, g0) -> (q <= p)%nat) ->
  rebuilding (ds ++ [d]) (<[p := (f_index d, g ++ [d])]> gs) (AddFragment d a).
Proof.
  intros [[H1 H2 H3 H5 H4] Ho Hl] Hopen Hp Ht Hlast.
  assert (Hlt : (p < length gs)%nat) by by apply lookup_lt_Some in Hp.
  assert (Hg : (f_index d, g) ∈ gs) by by apply list_elem_of_lookup; exists p.
  split; [split|..].
  - intros i h Hin. apply in_insert in Hin as [[= -> ->]|Hin]; [|by apply H1].
    destruct (H1 _ _ Hg) as [_ HF]. split; [by destruct g|]. apply Forall_app_2; [done|by repeat constructor].
  - intros i h d' Hin Hd'. apply in_insert in Hin as [[= -> ->]|Hin]; [|by apply (H2 i)].
    apply joined_id; [done| |done]. intros x Hx. by apply (H2 (f_index d)).
  - intros i. rewrite (concat_insert (f_index d)) by done. by rewrite H3, fragments_at_snoc.
  - rewrite (heads_insert (f_index d) p g) by (done || by apply (H1 (f_index d))). by apply sublist_inserts_r.
  - intros i q r h h' Hq Hr Hqr Hgap.
    assert (Hgap' : forall x g0, (q < x < r)%nat -> gs !! x <> Some (i, g0)).
    { intros x g0 Hx Hx'. destruct (decide (x = p)) as [->|Hxp]; [|by apply (Hgap x g0 Hx); rewrite list_lookup_insert_ne].
      apply (Hgap p (g ++ [d]) Hx). rewrite list_lookup_insert_eq by done. congruence. }
    destruct (decide (q = p)) as [->|Hqp].
    { rewrite list_lookup_insert_eq in Hq by done. rewrite list_lookup_insert_ne in Hr by lia.
      injection Hq as <- <-. specialize (Hlast _ _ Hr). lia. }
    rewrite list_lookup_insert_ne in Hq by done. destruct (decide (r = p)) as [->|Hrp].
    + rewrite list_lookup_insert_eq in Hr by done. injection Hr as <- <-.
      destruct (H4 _ q p h g Hq Hp Hqr Hgap') as (x & Hx & Hrest). exists x. split; [|done]. by destruct g.
    + rewrite list_lookup_insert_ne in Hr by done. by apply (H4 i q r).
  - unfold AddFragment. rewrite Hopen. cbn [a_order update]. rewrite Ho, list_fmap_insert.
    apply list_eq. intros q. destruct (decide (q = p)) as [->|Hne].
    + rewrite list_lookup_alter_eq, list_lookup_insert_eq by (by rewrite length_fmap).
      rewrite list_lookup_fmap, Hp. cbn. by rewrite join_snoc.
    + by rewrite list_lookup_alter_ne, list_lookup_insert_ne by done.
  - intros i. unfold AddFragment. rewrite Hopen. cbn [a_calls update]. specialize (Hl i). unfold last_call in *.
    assert (Hto : forall q h, <[p := (f_index d, g ++ [d])]> gs !! q = Some (i, h) -> exists h', gs !! q = Some (i, h')).
    { intros q h Hq. destruct (decide (q = p)) as [->|]; [|rewrite list_lookup_insert_ne in Hq by done; by exists h].
      rewrite list_lookup_insert_eq in Hq by done. injection Hq as <- _. by exists g. }
    destruct (a_calls a !! i) as [q|].
    + destruct Hl as [[h Hq] Hl]. split.
      * destruct (decide (q = p)) as [->|]; [|exists h; by rewrite list_lookup_insert_ne].
        rewrite list_lookup_insert_eq by done. exists (g ++ [d]). congruence.
      * intros r h' Hr. apply Hto in Hr as [h'' Hr]. by apply (Hl _ h'').
    + intros q h Hq. apply Hto in Hq as [h' Hq]. by apply (Hl q h').
Qed.

(** The fragment opens a call. *)
Lemma rebuild_starts ds gs a d :
  rebuilding ds gs a -> open_call a d = None ->
  rebuilding (ds ++ [d]) (gs ++ [(f_index d, [d])]) (AddFragment d a).
Proof.
  intros Hr Hopen. pose proof (open_call_spec _ _ _ d Hr) as Hspec. rewrite Hopen in Hspec.
  destruct Hr as [[H1 H2 H3 H5 H4] Ho Hl]. assert (Hjoin : join [d] = fold_fragment d new_call) by done.
  split; [split|..].
  - intros i h [Hin| [= -> ->]%list_elem_of_singleton]%elem_of_app; [by apply H1|]. by repeat constructor.
  - intros i h d' [Hin| [= -> ->]%list_elem_of_singleton]%elem_of_app Hd' Hne; [by apply (H2 i)|].
    apply list_elem_of_singleton in Hd' as ->.
    by rewrite Hjoin, fold_fragment_ID, (proj2 (nonempty_spec _) Hne).
  - intros i. rewrite List.filter_app, fmap_app, concat_app, H3, fragments_at_snoc. cbn. by destruct (_ =? _).
  - rewrite omap_app. by apply sublist_app.
  - intros i p q g g' Hp Hq Hpq Hgap.
    assert (Hq' := lookup_lt_Some _ _ _ Hq). rewrite length_app in Hq'. cbn in Hq'.
    assert (Hold : forall r, (r < length gs)%nat -> (gs ++ [(f_index d, [d])]) !! r = gs !! r)
      by (intros r ?; by apply lookup_app_l).
    assert (Hgap' : forall r g0, (p < r < q)%nat -> gs !! r <> Some (i, g0)).
    { intros r g0 Hr. rewrite <- (Hold r) by lia. by apply Hgap. }
    rewrite Hold in Hp by lia. destruct (decide (q = length gs)) as [->|Hne].
    + rewrite lookup_app_r, Nat.sub_diag in Hq by lia. injection Hq as <- <-. exists d. split; [done|].
      destruct Hspec as [Hno|(p' & g0 & Hp' & Ht & Hlast)]; [by destruct (Hno _ _ Hp)|].
      assert (p' = p) as ->.
      { specialize (Hlast _ _ Hp). destruct (decide (p' = p)) as [|Hne]; [done|].
        assert (Hlt := lookup_lt_Some _ _ _ Hp'). destruct (Hgap' p' g0); [lia|done]. }
      assert (g0 = g) as -> by congruence.
      assert (Hn : ~ (frag_id d = EmptyString \/ c_ID (join g) = EmptyString \/ c_ID (join g) = frag_id d)).
      { rewrite <- takes_join. by rewrite Ht. }
      repeat split; intros E; apply Hn; auto.
    + rewrite Hold in Hq by lia. by apply (H4 i p q).
  - unfold AddFragment. rewrite Hopen. cbn [a_order]. by rewrite Ho, map_app.
  - intros i. unfold AddFragment. rewrite Hopen. cbn [a_calls]. rewrite Ho.
    rewrite length_map. unfold last_call. destruct (decide (i = f_index d)) as [->|Hne].
    + rewrite lookup_insert_eq. split.
      * exists [d]. by rewrite lookup_app_r, Nat.sub_diag by lia.
      * intros q g Hq. apply lookup_lt_Some in Hq. rewrite length_app in Hq. cbn in Hq. lia.
    + rewrite lookup_insert_ne by done. specialize (Hl i). unfold last_call in Hl.
      assert (Hsame : forall q g, (gs ++ [(f_index d, [d])]) !! q = Some (i, g) <-> gs !! q = Some (i, g)).
      { intros q g. rewrite lookup_app. destruct (gs !! q) eqn:Hq; [done|]. split; [|done].
        intros Hq'. apply list_lookup_singleton_Some in Hq' as [_ [= E _]]. congruence. }
      destruct (a_calls a !! i) as [p|].
      * destruct Hl as [[g Hg] Hl]. split; [exists g; by apply Hsame|]. intros q h Hq. apply (Hl q h). by apply Hsame.
      * intros p g Hp. apply (Hl p g). by apply Hsame.
Qed.

Lemma rebuilt_snoc ds d : rebuilt (ds ++ [d]) = AddFragment d (rebuilt ds).
Proof. unfold rebuilt. by rewrite foldl_app. Qed.

(** C32: the accumulator of streamed tool calls. Whatever the order in which the fragments
    of parallel calls arrive, every fragment ends up in exactly one call, at its place;
    the calls stand in the order of their first fragments; a call has one id, and at an
    index a new call starts exactly where the id changes. *)
Lemma calls_rebuilt ds : exists gs, rebuilding ds gs (rebuilt ds).
Proof.
  induction ds as [|d ds [gs IH]] using rev_ind.
  - exists []. split; [split| |]; try done; [by intros ? ? ?%not_elem_of_nil|by intros ? ? ? ?%not_elem_of_nil|intros i; unfold last_call; cbn; by rewrite lookup_empty].
  - rewrite rebuilt_snoc. pose proof (open_call_spec _ _ _ d IH) as Hspec.
    destruct (open_call (rebuilt ds) d) as [p|] eqn:Hopen.
    + destruct Hspec as (g & Hp & Ht & Hlast). eexists. by apply rebuild_joins.
    + eexists. by apply rebuild_starts.
Qed.

(** ** What the emitters tell *)
Definition told (f : SSEMessage -> string) (msgs : list SSEMessage) : string :=
  foldr (fun msg acc => f msg +:+ acc) EmptyString msgs.
Definition telling {A} (f : A -> string) (l : list A) : string := foldr (fun a acc => f a +:+ acc) EmptyString l.

Lemma telling_app {A} (f : A -> string) l l' : telling f (l ++ l') = telling f l +:+ telling f l'.
Proof. induction l as [|a l IH]; cbn; [done|]. unfold telling in IH. by rewrite IH, sapp_assoc. Qed.
Lemma telling_snoc {A} (f : A -> string) l a : telling f (l ++ [a]) = telling f l +:+ f a.
Proof. rewrite telling_app. cbn. by rewrite sapp_nil_r. Qed.
Lemma told_app f l l' : told f (l ++ l') = told f l +:+ told f l'.
Proof. exact (telling_app f l l'). Qed.

(** The text of the events, their reasoning, and those that are tool calls. *)
Definition event_text (msg : SSEMessage) : string := message_text msg.
Definition event_reasoning (msg : SSEMessage) : string :=
  if String.eqb (eventKey msg) "model.reasoning-delta" then event_str msg "delta" else EmptyString.
Definition is_call (msg : SSEMessage) : bool := String.eqb (eventKey msg) "model.tool-call".
Definition call_events (msgs : list SSEMessage) : list SSEMessage := List.filter is_call msgs.

(** Text, reasoning and calls are what is left of the events for the caller. *)
Record says_all (r : Result) (text reasoning : string) (calls : list SSEMessage) : Prop := {
  says_text : told event_text (emitted r) = text;
  says_reasoning : told event_reasoning (emitted r) = reasoning;
  says_calls : call_events (emitted r) = calls;
  says_open : Forall (fun msg => eventKey msg <> "model.finish") (emitted r);
}.

(** The events of finished calls, the [k]-th new id first. *)
Fixpoint deliveries (mint : nat -> Time * Z) (k : nat) (states : list ToolCall) : list SSEMessage :=
  match states with
  | [] => []
  | state :: rest =>
      if String.eqb (c_ID state) EmptyString
      then call_event (NewToolCallID (mint k).1 (mint k).2) state :: deliveries mint (S k) rest
      else call_event (c_ID state) state :: deliveries mint k rest
  end.

Lemma says_tell msg r r' t rs cs :
  says_all r t rs cs -> emitted r' = emitted r ++ [msg] -> eventKey msg <> "model.finish" ->
  says_all r' (t +:+ event_text msg) (rs +:+ event_reasoning msg) (cs ++ (if is_call msg then [msg] else [])).
Proof.
  intros [<- <- <- Hf] E Hm. split; rewrite E; [by rewrite told_app; cbn; rewrite sapp_nil_r..| |].
  - unfold call_events. rewrite List.filter_app. cbn. by destruct (is_call msg).
  - apply Forall_app_2; [done|by repeat constructor].
Qed.

(** [r'] is [r] after one event that is no call and carries [text] and [thought]. *)
Ltac says_one_event Hs msg :=
  let H := fresh in
  match goal with |- says_all ?r' _ _ _ =>
    match type of Hs with says_all ?r _ _ _ =>
      pose proof (says_tell msg r r' _ _ _ Hs eq_refl ltac:(done)) as H; cbn in H;
      rewrite ?sapp_nil_r, ?app_nil_r in H; exact H
    end
  end.

Lemma says_same r r' t rs cs : emitted r' = emitted r -> says_all r t rs cs -> says_all r' t rs cs.
Proof. intros E [????]. split; by rewrite E. Qed.

Lemma says_EmitTextDelta text r t rs cs : says_all r t rs cs -> says_all (EmitTextDelta text r) (t +:+ text) rs cs.
Proof.
  intros Hs. unfold EmitTextDelta. destruct (String.eqb_spec text EmptyString) as [->|Hne]; [by rewrite sapp_nil_r|].
  says_one_event Hs (event "model.text-delta" [("delta", JStr text)]).
Qed.

Lemma says_usage usage r t rs cs : says_all r t rs cs -> says_all (ApplyStreamUsage usage r) t rs cs.
Proof.
  intros Hs. unfold ApplyStreamUsage. destruct usage as [|u us]; [done|].
  says_one_event Hs (event "model.tokens-used" (u :: us)).
Qed.

Lemma says_calls_emitted mint states r t rs cs : says_all r t rs cs ->
  says_all (EmitToolCalls mint states r) t rs (cs ++ deliveries mint (minted r) states) /\
  ToolCallCount (EmitToolCalls mint states r) = ToolCallCount r + Z.of_nat (length states).
Proof.
  revert r cs. induction states as [|state states IH]; intros r cs Hs; cbn [EmitToolCalls foldl deliveries].
  { rewrite app_nil_r. cbn. split; [done|lia]. }
  unfold emit_call at 2 4. cbn zeta. destruct (String.eqb _ _);
    match goal with |- context [foldl _ (tell ?m ?r0)] =>
      assert (H1 : says_all (tell m r0) t rs (cs ++ [m]));
      [says_one_event Hs m
      |destruct (IH _ _ H1) as [H2 H3]] end;
    rewrite <- app_assoc in H2; (split; [exact H2|]); unfold EmitToolCalls in H3; rewrite H3; cbn; lia.
Qed.

(** No finish among the events. *)
Definition unfinished (r : Result) : Prop := Forall (fun msg => eventKey msg <> "model.finish") (emitted r).

Lemma says_itself r : unfinished r ->
  says_all r (told event_text (emitted r)) (told event_reasoning (emitted r)) (call_events (emitted r)).
Proof. by split. Qed.

Lemma unfinished_text text r : unfinished r -> unfinished (EmitTextDelta text r).
Proof. intros H. exact (says_open _ _ _ _ (says_EmitTextDelta text _ _ _ _ (says_itself r H))). Qed.
Lemma unfinished_usage usage r : unfinished r -> unfinished (ApplyStreamUsage usage r).
Proof. intros H. exact (says_open _ _ _ _ (says_usage usage _ _ _ _ (says_itself r H))). Qed.
Lemma unfinished_calls mint states r : unfinished r -> unfinished (EmitToolCalls mint states r).
Proof. intros H. exact (says_open _ _ _ _ (proj1 (says_calls_emitted mint states _ _ _ _ (says_itself r H)))). Qed.

(** ** From the events to the client

    What a relay that streams in the Anthropic format has written once it has handled the
    events of a reader. *)
Section Delivery.
Context `{UnicodeTable} (cfg : Cfg) (wfail : nat -> bool) (tick : nat -> nat).

Lemma delivered r t rs cs :
  isStream cfg = true -> openAI cfg = false -> (forall n, wfail n = false) -> says_all r t rs cs ->
  let s := run cfg wfail tick (map OpMessage (emitted r)) newStreamHandler in
  panicked (conn s) = false ->
  text_of (wire (conn s)) = t /\
  reasoning_of (wire (conn s)) = (if suppressThinking cfg then EmptyString else rs).
Proof.
  intros Hs Hf Hw [Ht Hr _ Ho] s Hp.
  destruct (run_adds cfg wfail tick Hs Hf Hw (emitted r) newStreamHandler) as (_ & w & Hwire & Hwt & Hwr); try done.
  subst s. rewrite Hwire. change (wire (conn newStreamHandler) ++ w) with w.
  split; [rewrite Hwt; exact Ht|].
  rewrite Hwr, <- Hr. clear. induction (emitted r) as [|m ms IH]; [by destruct (suppressThinking cfg)|].
  cbn [foldr told]. rewrite IH. unfold message_reasoning, event_reasoning.
  destruct (suppressThinking cfg); cbn [negb]; [by rewrite andb_false_r|by rewrite andb_true_r].
Qed.
End Delivery.
