(* ===== verification/WorkBuddyWire.v ===== *)
(** * The WorkBuddy stream (src/internal/workbuddy/stream.go, client.go, auth.go)

    The answer of a chat request: the reader of the event stream (consumeStream), the
    typed business failure and its text (APIError), and the part of runChat that stands
    after the response headers, up to the finish event. The connection, the access token
    and the request body are not part of it. *)

From Corelib Require Import SpecFloat.
From stdpp Require Import base numbers list strings gmap.
From S2P Require Import Prelude GoLib Json Marshal Policy Tools Pricing SseFrame Stream Prompt Wire.

Local Open Scope Z_scope.
Local Open Scope orchids_scope.

(** ** Business failures *)
Definition CodeLoginPending : Z := 11217.
Definition CodeModelThrottle : Z := 6004.
Definition CodePolicyBlocked : Z := 11128.
Definition CodeSessionDead : Z := 12153.

Record APIError := mkAPIError { HTTPStatus : Z; Code : Z; Message : string; RetryDelay : Duration }.

Definition Truncate (value : string) (limit : nat) : string :=
  let value := TrimSpace value in
  if (String.length value <=? limit)%nat then value else stake limit value +:+ "...".

Definition errorHints (code : Z) : string :=
  if code =? CodeLoginPending then "workbuddy login has not completed; finish the browser authorization"
  else if code =? CodeModelThrottle then
    "this model hit the per-model frequency limit; wait for the window reset or use another model"
  else if code =? CodePolicyBlocked then
    "workbuddy blocked the request by security policy (unapproved channel); the prompt may carry a client identity marker"
  else if code =? CodeSessionDead then
    "workbuddy session is dead (Offline user session not found); re-login the account"
  else EmptyString.

Definition APIError_Error (e : APIError) : string :=
  let status := HTTPStatus e in
  let upstream_status := "upstream_status=" +:+ fmt_d status in
  let parts :=
    if (Code e =? CodeSessionDead) && negb (status =? 401) then ["status=401"; upstream_status]
    else if (Code e =? CodeModelThrottle) && negb (status =? 429) then ["status=429"; upstream_status]
    else ["status=" +:+ fmt_d status] in
  let parts := if negb (Code e =? 0) then parts ++ ["code=" +:+ fmt_d (Code e)] else parts in
  let parts := if nonempty (Message e) then parts ++ ["message=" +:+ Truncate (Message e) 300] else parts in
  let text := "workbuddy API error: " +:+ String.concat ", " parts in
  let hint := errorHints (Code e) in
  if nonempty hint then text +:+ " (" +:+ hint +:+ ")" else text.

(** [json.RawMessage] takes any value. *)
Record envelope := mkEnvelope { env_Code : Z; env_Msg : string }.
Definition decode_envelope (text : string) : option envelope :=
  v ← Unmarshal text;
  as_struct (fun fs => code ← as_int (struct_field "code" fs); msg ← as_string (struct_field "msg" fs);
                       Some (mkEnvelope code msg)) (Some v).

Definition apiErrorWithRetry (status : Z) (raw : string) (retryDelay : Duration) : APIError :=
  let body := TrimSpace raw in
  let '(code, msg) :=
    if HasPrefix body "{" then
      match decode_envelope body with
      | Some env => (env_Code env, TrimSpace (env_Msg env))
      | None => (0, EmptyString)
      end
    else (0, EmptyString) in
  let msg := if negb (code =? 0) && String.eqb msg EmptyString then body else msg in
  mkAPIError status code (FirstNonEmptyUntrimmed [msg; body]) retryDelay.
Definition apiError (status : Z) (raw : string) : APIError := apiErrorWithRetry status raw 0.

(** A failure is typed or a text. *)
Inductive Failure := Business (e : APIError) | Other (text : string).
Definition go_error (f : Failure) : GoError :=
  match f with
  | Business e => mkError (APIError_Error e) (Some (RetryDelay e))
  | Other text => mkError text None
  end.

(** ** A chunk of the stream

    Members the reader does not use are decoded all the same: a value of another type
    there makes the chunk invalid. *)
Record Choice := mkChoice {
  FinishReason_ : string;
  Content : string;
  ReasoningContent : string;
  ToolCalls : list Fragment;
}.
Record streamChunk := mkChunk {
  ck_Code : Z;
  ck_Error : string;
  ck_Usage : list (string * json);
  Choices : list Choice;
}.

Definition decode_choice (fs : list (string * json)) : option Choice :=
  _ ← as_int (struct_field "index" fs);
  finish ← as_string (struct_field "finish_reason" fs);
  as_struct (fun delta =>
      _ ← as_string (struct_field "role" delta);
      content ← as_string (struct_field "content" delta);
      reasoning ← as_string (struct_field "reasoning_content" delta);
      calls ← as_list (as_struct decode_fragment) (struct_field "tool_calls" delta);
      Some (mkChoice finish content reasoning calls)) (struct_field "delta" fs).

Definition decode_error (v : option json) : option string :=
  as_struct (fun fs => as_string (struct_field "message" fs)) v.

Definition decode_chunk (payload : string) : option streamChunk :=
  v ← Unmarshal payload;
  as_struct (fun fs =>
      _ ← as_string (struct_field "id" fs);
      _ ← as_string (struct_field "object" fs);
      _ ← as_string (struct_field "model" fs);
      code ← as_int (struct_field "code" fs);
      _ ← as_string (struct_field "msg" fs);
      choices ← as_list (as_struct decode_choice) (struct_field "choices" fs);
      usage ← any_map (struct_field "usage" fs);
      error ← decode_error (struct_field "error" fs);
      Some (mkChunk code error usage choices)) (Some v).

(** ** Reading the stream *)
Record Reading := mkReading {
  result : Result;
  tools : ToolCallAccumulator;
  sawDone : bool;
  sawFinish : bool;
}.
#[export] Instance eta_Reading : Eta Reading := fun r => mkReading (result r) (tools r) (sawDone r) (sawFinish r).

Inductive Step := Next (s : Reading) | Stop (s : Reading) | Fails (s : Reading) (f : Failure).

Section Reader.
(** The texts of encoding/json's errors, the ids and the signature made up here. *)
Context (json_error : string -> string) (mint : nat -> Time * Z) (nonce : string).

Definition newThinkingSignature : string := "workbuddy-v1:" +:+ nonce.

Definition on_result (f : Result -> Result) (s : Reading) : Reading := s <| result := f (result s) |>.

Definition emit_reasoning (text : string) (r : Result) : Result :=
  if String.eqb text EmptyString then r
  else
    let r := meaningful r in
    let r := if String.eqb (ThinkingSignature r) EmptyString then r <| ThinkingSignature := newThinkingSignature |> else r in
    tell (event "model.reasoning-delta" [("delta", JStr text); ("signature", JStr (ThinkingSignature r))]) r.

Definition add_call (s : Reading) (d : Fragment) : Reading :=
  on_result meaningful s <| tools := AddFragment d (tools s) |>.

Definition emitTools (s : Reading) : Reading :=
  let '(a, states) := CompleteAll (tools s) in
  on_result (EmitToolCalls mint states) (s <| tools := a |>).

Definition note_finish (reason : string) (r : Result) : Result := r <| FinishReasonValue := reason |>.

Definition take_choice (c : Choice) (s : Reading) : Reading :=
  let s := on_result (fun r => EmitTextDelta (Content c) (emit_reasoning (ReasoningContent c) r)) s in
  let s := foldl add_call s (ToolCalls c) in
  let reason := TrimSpace (FinishReason_ c) in
  if nonempty reason
  then emitTools (on_result (note_finish reason) s <| sawFinish := true |>)
  else s.

Definition take_payload (payload : string) (s : Reading) : Step :=
  match decode_chunk payload with
  | None => Fails s (Other ("workbuddy stream protocol error: invalid JSON: " +:+ json_error payload))
  | Some chunk =>
      if negb (ck_Code chunk =? 0) then Fails s (Business (apiError 200 payload))
      else
        let msg := TrimSpace (ck_Error chunk) in
        if nonempty msg then Fails s (Other ("workbuddy stream error: " +:+ msg))
        else
          let s := on_result (ApplyStreamUsage (NormalizeUsageMap (ck_Usage chunk))) s in
          match Choices chunk with
          | [] => Next s
          | c :: _ =>
              if sawFinish s
              then Fails s (Other "workbuddy stream protocol error: choice data after finish")
              else Next (take_choice c s)
          end
  end.

Definition plain_refusal (line : string) : option Failure :=
  if HasPrefix line "{" then
    env ← decode_envelope line;
    if negb (env_Code env =? 0) then Some (Business (apiError 200 line)) else None
  else None.

Definition take_line (text : string) (s : Reading) : Step :=
  let line := TrimSpace text in
  if String.eqb line EmptyString || HasPrefix line ":" then Next s
  else if negb (HasPrefix line "data:") then
    match plain_refusal line with Some f => Fails s f | None => Next s end
  else
    let payload := TrimSpace (TrimPrefix line "data:") in
    if String.eqb payload "[DONE]" then Stop (s <| sawDone := true |>)
    else if String.eqb payload EmptyString then Next s
    else take_payload payload s.

(** The loop, and what the scanner's [Err] answers after it; or the failure that ends it. *)
Fixpoint lines (ts : list Token) (err : option string) (s : Reading) : Reading * (option string + Failure) :=
  match ts with
  | [] => (s, inl err)
  | t :: ts' =>
      match take_line (t_line t) s with
      | Next s' => lines ts' err s'
      | Stop s' => (s', inl (t_err t))
      | Fails s' f => (s', inr f)
      end
  end.

Definition line_limit : Z := 8 * 1024 * 1024.

Definition consumeStream (body : Body) : Result * option Failure :=
  let '(ts, err) := Scan line_limit body in
  let '(s, ended) := lines ts err (mkReading initialResult NewToolCallAccumulator false false) in
  (result s,
   match ended with
   | inr f => Some f
   | inl (Some e) => Some (Other ("failed to read workbuddy stream: " +:+ e))
   | inl None =>
       if negb (sawDone s) || negb (sawFinish s)
       then Some (Other "workbuddy stream ended before terminal finish") else None
   end).

(** ** The finish event *)
Definition FinishReason (r : Result) : string :=
  if (0 <? ToolCallCount r) || EqualFold (FinishReasonValue r) "tool_calls" then "tool_use"
  else
    let reason := ToLower (TrimSpace (FinishReasonValue r)) in
    if String.eqb reason "length" || String.eqb reason "max_tokens" then "max_tokens"
    else if String.eqb reason "content_filter" then "refusal" else "end_turn".

Definition finish_message (r : Result) : SSEMessage :=
  event "model.finish" (("finishReason", JStr (FinishReason r)) ::
                        match Usage r with [] => [] | usage => [("usage", JObj usage)] end).

(** ** The response

    What the HTTP client hands over: the status, the Retry-After header and the body. *)
Record Response := mkResponse { StatusCode : Z; RetryAfterHeader : string; rs_body : Body }.

(** [http.ParseTime] reads the dates of HTTP. *)
Context (ParseTime : string -> option Time) (now : Time).

Definition ParseRetryAfter (value : string) (limit : Duration) : Duration :=
  let value := TrimSpace value in
  let clip (delay : Duration) :=
    if delay <=? 0 then 0 else if (0 <? limit) && (limit <? delay) then limit else delay in
  match ParseInt value with
  | Some seconds =>
      if seconds <=? 0 then 0
      else if (0 <? limit) && (Z.quot limit Second <? seconds) then limit
      else clip (if Z.quot max_int64 Second <? seconds then max_int64 else seconds * Second)
  | None => clip (match ParseTime value with Some at_ => Sub at_ now | None => 0 end)
  end.
Definition parseRetryAfter (value : string) : Duration := ParseRetryAfter value (30 * Second).

Definition error_body_limit : nat := 8192.

(** [runChat] from the response on. *)
Definition runChat (resp : Response) : list SSEMessage * option GoError :=
  if 400 <=? StatusCode resp
  then ([], Some (go_error (Business (apiErrorWithRetry (StatusCode resp) (stake error_body_limit (b_data (rs_body resp)))
                                        (parseRetryAfter (RetryAfterHeader resp))))))
  else
    let '(r, failure) := consumeStream (rs_body resp) in
    match failure with
    | Some (Business e) =>
        let delay := if RetryDelay e =? 0 then parseRetryAfter (RetryAfterHeader resp) else RetryDelay e in
        (emitted r, Some (go_error (Business (mkAPIError (HTTPStatus e) (Code e) (Message e) delay))))
    | Some f => (emitted r, Some (go_error f))
    | None =>
        if negb (SawMeaningfulEvent r)
        then (emitted r, Some (mkError "workbuddy API returned no usable stream events" None))
        else (emitted r ++ [finish_message r], None)
    end.
End Reader.

(** ** The answer a body holds

    Read without the reader's state: the chunks of the data lines up to the marker
    [DONE], all of them decoded and free of failures; of their choices the last one,
    and only it, finishes. *)
Inductive Kind := Ignored | Refused | Data (payload : string) | Done.

Definition line_kind (text : string) : Kind :=
  let line := TrimSpace text in
  if String.eqb line EmptyString || HasPrefix line ":" then Ignored
  else if negb (HasPrefix line "data:") then
    match plain_refusal line with Some _ => Refused | None => Ignored end
  else
    let payload := TrimSpace (TrimPrefix line "data:") in
    if String.eqb payload "[DONE]" then Done
    else if String.eqb payload EmptyString then Ignored else Data payload.

Definition healthy_chunk (payload : string) : option streamChunk :=
  chunk ← decode_chunk payload;
  if (ck_Code chunk =? 0) && negb (nonempty (TrimSpace (ck_Error chunk))) then Some chunk else None.

Fixpoint chunks_until_done (ts : list Token) : option (list streamChunk) :=
  match ts with
  | [] => None
  | t :: ts' =>
      match line_kind (t_line t) with
      | Ignored => chunks_until_done ts'
      | Refused => None
      | Done => match t_err t with None => Some [] | Some _ => None end
      | Data payload => chunk ← healthy_chunk payload; chunks ← chunks_until_done ts'; Some (chunk :: chunks)
      end
  end.

Definition first_choices (chunks : list streamChunk) : list Choice := omap (fun k => head (Choices k)) chunks.

Definition finishes (c : Choice) : bool := nonempty (TrimSpace (FinishReason_ c)).
Fixpoint finishes_at_end (finished : bool) (cs : list Choice) : bool :=
  match cs with
  | [] => finished
  | c :: cs' => negb finished && finishes_at_end (finishes c) cs'
  end.

Definition answer_choices (body : Body) : option (list Choice) :=
  chunks ← chunks_until_done (Scan line_limit body).1;
  if finishes_at_end false (first_choices chunks) then Some (first_choices chunks) else None.

Definition answer_calls (cs : list Choice) : list ToolCall :=
  (CompleteAll (rebuilt (concat (ToolCalls <$> cs)))).2.

Section Proofs.
Context (json_error : string -> string) (mint : nat -> Time * Z) (nonce : string).

Notation take := (take_choice mint nonce) (only parsing).
Notation reads := (lines json_error mint nonce) (only parsing).

(** A healthy chunk. *)
Definition absorb (s : Reading) (chunk : streamChunk) : Reading :=
  let s := on_result (ApplyStreamUsage (NormalizeUsageMap (ck_Usage chunk))) s in
  match Choices chunk with [] => s | c :: _ => take c s end.

Lemma take_payload_spec payload s :
  match take_payload json_error mint nonce payload s with
  | Next s' => exists chunk, healthy_chunk payload = Some chunk /\ s' = absorb s chunk /\
                             (Choices chunk = [] \/ sawFinish s = false)
  | Stop _ => False
  | Fails _ _ => healthy_chunk payload = None \/
                 exists chunk c cs, healthy_chunk payload = Some chunk /\ Choices chunk = c :: cs /\ sawFinish s = true
  end.
Proof.
  unfold take_payload, healthy_chunk, absorb. destruct (decode_chunk payload) as [chunk|]; cbn [mbind option_bind]; [|by left].
  destruct (ck_Code chunk =? 0); cbn [negb andb]; [|by left].
  destruct (nonempty _); cbn [negb]; [by left|]. destruct (Choices chunk) as [|c cs] eqn:Hc.
  - exists chunk. rewrite Hc. repeat split. by left.
  - cbn [sawFinish on_result update]. destruct (sawFinish s) eqn:Hf.
    + right. by exists chunk, c, cs.
    + exists chunk. rewrite Hc. repeat split. by right.
Qed.

Lemma take_line_spec text s :
  match line_kind text with
  | Ignored => take_line json_error mint nonce text s = Next s
  | Refused => exists f, take_line json_error mint nonce text s = Fails s f
  | Done => take_line json_error mint nonce text s = Stop (s <| sawDone := true |>)
  | Data payload => take_line json_error mint nonce text s = take_payload json_error mint nonce payload s
  end.
Proof.
  unfold line_kind, take_line. cbv zeta. destruct (_ || _); [done|]. destruct (negb _).
  - destruct (plain_refusal _) as [f|]; [by exists f|done].
  - destruct (String.eqb _ "[DONE]"); [done|]. by destruct (String.eqb _ EmptyString).
Qed.

(** A choice after the finish. *)
Fixpoint late (finished : bool) (cs : list Choice) : bool :=
  match cs with [] => false | c :: cs' => finished || late (finishes c) cs' end.

Lemma take_choice_flags c s :
  sawDone (take c s) = sawDone s /\ sawFinish (take c s) = sawFinish s || finishes c.
Proof.
  assert (Hcalls : forall ds s, sawDone (foldl add_call s ds) = sawDone s /\ sawFinish (foldl add_call s ds) = sawFinish s).
  { induction ds as [|d ds IH]; intros s'; [done|]. cbn [foldl]. by destruct (IH (add_call s' d)) as [-> ->]. }
  unfold take_choice. cbv zeta. fold (finishes c). set (s1 := on_result _ s).
  destruct (Hcalls (ToolCalls c) s1) as [H1 H2]. destruct (finishes c).
  - unfold emitTools. by rewrite orb_true_r.
  - by rewrite H1, H2, orb_false_r.
Qed.

Lemma absorb_flags chunk s :
  sawDone (absorb s chunk) = sawDone s /\
  sawFinish (absorb s chunk) = match head (Choices chunk) with None => sawFinish s | Some c => sawFinish s || finishes c end.
Proof. unfold absorb. destruct (Choices chunk) as [|c cs]; [done|]. exact (take_choice_flags c (on_result _ s)). Qed.

Lemma first_choices_cons chunk chunks :
  first_choices (chunk :: chunks) =
  match head (Choices chunk) with None => first_choices chunks | Some c => c :: first_choices chunks end.
Proof. unfold first_choices. cbn. by destruct (head (Choices chunk)). Qed.

Lemma lines_spec ts err s : sawDone s = false ->
  match chunks_until_done ts with
  | Some chunks =>
      if late (sawFinish s) (first_choices chunks) then exists s' f, reads ts err s = (s', inr f)
      else reads ts err s = (foldl absorb s chunks <| sawDone := true |>, inl None)
  | None => forall s', reads ts err s = (s', inl None) -> sawDone s' = false
  end.
Proof.
  revert s. induction ts as [|t ts IH]; intros s Hd; cbn [chunks_until_done lines]; [by intros s' [= <- _]|].
  pose proof (take_line_spec (t_line t) s) as Hl.
  destruct (line_kind (t_line t)) as [| |payload|].
  - rewrite Hl. by apply IH.
  - destruct Hl as [f ->]. by intros s' [=].
  - rewrite Hl. pose proof (take_payload_spec payload s) as Hp.
    destruct (take_payload _ _ _ payload s) as [s1|s1|s1 f]; [|done|].
    + destruct Hp as (chunk & -> & -> & Hc). cbn [mbind option_bind].
      destruct (absorb_flags chunk s) as [Hd1 Hf1]. specialize (IH (absorb s chunk) ltac:(congruence)).
      destruct (chunks_until_done ts) as [chunks|]; cbn [mbind option_bind foldl]; [|done].
      rewrite Hf1 in IH. rewrite first_choices_cons.
      destruct (head (Choices chunk)) as [c|] eqn:Hh; [|exact IH].
      destruct Hc as [Hc|Hc]; [by rewrite Hc in Hh|]. rewrite Hc in IH |- *. exact IH.
    + destruct (healthy_chunk payload) as [chunk|]; cbn [mbind option_bind]; [|by intros s' [=]].
      destruct Hp as [Hp|(k & c & cs & [= <-] & Hc & Hf)]; [done|].
      destruct (chunks_until_done ts) as [chunks|]; cbn [mbind option_bind]; [|by intros s' [=]].
      rewrite first_choices_cons, Hc, Hf. cbn. by exists s1, f.
  - rewrite Hl. destruct (t_err t) as [e|]; [by intros s' [=]|]. done.
Qed.

Lemma finishes_at_end_late b cs : finishes_at_end b cs = negb (late b cs) && (b || existsb finishes cs).
Proof.
  revert b. induction cs as [|c cs IH]; intros b; cbn; [by rewrite orb_false_r|].
  rewrite IH. by destruct b, (finishes c); cbn; rewrite ?andb_true_r, ?andb_false_r.
Qed.

Lemma absorbed_finish chunks s :
  sawFinish (foldl absorb s chunks) = sawFinish s || existsb finishes (first_choices chunks).
Proof.
  revert s. induction chunks as [|k ks IH]; intros s; cbn [foldl]; [by rewrite orb_false_r|].
  rewrite IH, first_choices_cons. destruct (absorb_flags k s) as [_ ->].
  destruct (head (Choices k)); [|done]. cbn. by rewrite orb_assoc.
Qed.

(** What the emitters leave alone. *)
Definition same_counts (r r' : Result) : Prop :=
  minted r' = minted r /\ ToolCallCount r' = ToolCallCount r /\ FinishReasonValue r' = FinishReasonValue r.

Lemma counts_trans a b c : same_counts a b -> same_counts b c -> same_counts a c.
Proof. intros (?&?&?) (?&?&?). repeat split; congruence. Qed.
Lemma text_counts text r : same_counts r (EmitTextDelta text r).
Proof. unfold EmitTextDelta. by destruct (String.eqb _ _). Qed.
Lemma reasoning_counts text r : same_counts r (emit_reasoning nonce text r).
Proof. unfold emit_reasoning. cbv zeta. destruct (String.eqb text _); [done|]. by destruct (String.eqb _ _). Qed.
Lemma usage_counts usage r : same_counts r (ApplyStreamUsage usage r).
Proof. by destruct usage. Qed.

Lemma says_reasoning_delta text r t rs cs : says_all r t rs cs -> says_all (emit_reasoning nonce text r) t (rs +:+ text) cs.
Proof.
  intros Hs. unfold emit_reasoning. cbv zeta. destruct (String.eqb_spec text EmptyString) as [->|Hne]; [by rewrite sapp_nil_r|].
  destruct (String.eqb _ _);
    match goal with |- says_all (tell ?m _) _ _ _ => says_one_event Hs m end.
Qed.

(** The state after unfinished choices. *)
Record read_choices (cs : list Choice) (s : Reading) : Prop := {
  rc_says : says_all (result s) (telling Content cs) (telling ReasoningContent cs) [];
  rc_tools : tools s = rebuilt (concat (ToolCalls <$> cs));
  rc_counts : same_counts initialResult (result s);
}.

Lemma read_usage_ok cs usage s : read_choices cs s -> read_choices cs (on_result (ApplyStreamUsage usage) s).
Proof.
  intros [Hs Ht Hc]. split; [by apply says_usage|done|]. exact (counts_trans _ _ _ Hc (usage_counts usage (result s))).
Qed.

Lemma add_calls_spec ds s : let s' := foldl add_call s ds in
  emitted (result s') = emitted (result s) /\ same_counts (result s) (result s') /\
  tools s' = foldl (fun a d => AddFragment d a) (tools s) ds.
Proof.
  revert s. induction ds as [|d ds IH]; intros s; [done|].
  destruct (IH (add_call s d)) as (H1 & (H2 & H3 & H4) & H5). cbn [foldl]. by rewrite H1, H5.
Qed.

(** A choice but for its finish. *)
Definition take_content (c : Choice) (s : Reading) : Reading :=
  foldl add_call (on_result (fun r => EmitTextDelta (Content c) (emit_reasoning nonce (ReasoningContent c) r)) s) (ToolCalls c).

Lemma take_content_ok cs c s : read_choices cs s -> read_choices (cs ++ [c]) (take_content c s).
Proof.
  intros [Hs Ht Hc]. unfold take_content. set (s1 := on_result _ s).
  destruct (add_calls_spec (ToolCalls c) s1) as (H1 & H2 & H3). split.
  - apply (says_same _ _ _ _ _ H1). rewrite !telling_snoc. apply says_EmitTextDelta. by apply says_reasoning_delta.
  - rewrite H3. cbn. rewrite Ht. unfold rebuilt. rewrite fmap_app, concat_app, foldl_app. cbn. by rewrite app_nil_r.
  - apply (counts_trans _ _ _ Hc), (counts_trans _ _ _ (reasoning_counts (ReasoningContent c) (result s))).
    exact (counts_trans _ _ _ (text_counts (Content c) _) H2).
Qed.

(** The state after the choice that finishes. *)
Record read_answer (cs : list Choice) (s : Reading) : Prop := {
  ra_says : says_all (result s) (telling Content cs) (telling ReasoningContent cs) (deliveries mint 0 (answer_calls cs));
  ra_count : ToolCallCount (result s) = Z.of_nat (length (answer_calls cs));
  ra_finish : exists c, last cs = Some c /\ FinishReasonValue (result s) = TrimSpace (FinishReason_ c);
}.

Lemma take_choice_open cs c s : read_choices cs s -> finishes c = false -> read_choices (cs ++ [c]) (take c s).
Proof.
  intros Hr Hf. unfold take_choice. cbv zeta. fold (finishes c). rewrite Hf. by apply take_content_ok.
Qed.

Lemma take_choice_last cs c s : read_choices cs s -> finishes c = true -> read_answer (cs ++ [c]) (take c s).
Proof.
  intros Hr Hf. unfold take_choice. cbv zeta. fold (finishes c). rewrite Hf. fold (take_content c s).
  apply (take_content_ok _ c) in Hr as [Hs Ht (Hm & Hc & _)]. set (s1 := take_content c s) in *. clearbody s1.
  unfold emitTools. cbn [tools on_result update]. rewrite Ht.
  destruct (CompleteAll _) as [a states] eqn:Hall.
  assert (Hcalls : answer_calls (cs ++ [c]) = states) by (unfold answer_calls; by rewrite Hall).
  set (r := note_finish (TrimSpace (FinishReason_ c)) (result s1)).
  assert (Hs' : says_all r (telling Content (cs ++ [c])) (telling ReasoningContent (cs ++ [c])) [])
    by (by apply (says_same (result s1))).
  destruct (says_calls_emitted mint states r _ _ _ Hs') as [H1 H2]. split.
  - assert (minted r = 0%nat) as Hr0 by exact Hm. rewrite Hr0 in H1. rewrite Hcalls. exact H1.
  - rewrite Hcalls. etransitivity; [exact H2|]. change (ToolCallCount r) with (ToolCallCount (result s1)). by rewrite Hc.
  - exists c. split; [by rewrite last_snoc|].
    assert (Hfin : forall l r, FinishReasonValue (EmitToolCalls mint l r) = FinishReasonValue r).
    { clear. induction l as [|x l IH]; intros r; [done|]. cbn. etransitivity; [apply IH|].
      unfold emit_call. cbv zeta. by destruct (String.eqb _ _). }
    apply Hfin.
Qed.

Lemma usage_answer cs usage s : read_answer cs s -> read_answer cs (on_result (ApplyStreamUsage usage) s).
Proof.
  intros [Hs Hc Hf]. destruct (usage_counts usage (result s)) as (_ & H2 & H3).
  split; cbn [result on_result update]; [by apply says_usage|by rewrite H2|by rewrite H3].
Qed.

Lemma absorb_after chunks cs s : read_answer cs s -> late true (first_choices chunks) = false ->
  first_choices chunks = [] /\ read_answer cs (foldl absorb s chunks).
Proof.
  revert s. induction chunks as [|k ks IH]; intros s Hr Hl; [done|]. rewrite first_choices_cons in *. cbn [foldl].
  unfold absorb at 2. destruct (Choices k) as [|c cs']; [|done]. by apply IH; [apply usage_answer|].
Qed.

Lemma absorb_all chunks cs s : read_choices cs s ->
  finishes_at_end false (first_choices chunks) = true ->
  read_answer (cs ++ first_choices chunks) (foldl absorb s chunks).
Proof.
  revert cs s. induction chunks as [|k ks IH]; intros cs s Hr Hf; [done|].
  rewrite first_choices_cons in *. cbn [foldl]. unfold absorb at 2.
  apply (read_usage_ok _ (NormalizeUsageMap (ck_Usage k))) in Hr.
  destruct (Choices k) as [|c cs']; [by apply IH|]. cbn in Hf |- *.
  rewrite cons_middle, app_assoc. destruct (finishes c) eqn:Hc.
  - rewrite finishes_at_end_late in Hf. bool_to_prop.
    destruct (absorb_after ks _ _ (take_choice_last _ _ _ Hr Hc)) as [E Ha]; [done|].
    rewrite E, app_nil_r. exact Ha.
  - apply IH; [by apply take_choice_open|done].
Qed.

Lemma initial_read : read_choices [] (mkReading initialResult NewToolCallAccumulator false false).
Proof. by repeat split. Qed.

Lemma consume_spec body :
  match answer_choices body with
  | Some cs => exists s, consumeStream json_error mint nonce body = (result s, None) /\ read_answer cs s
  | None => (consumeStream json_error mint nonce body).2 <> None
  end.
Proof.
  unfold answer_choices, consumeStream. destruct (Scan line_limit body) as [ts err]. cbn [fst].
  pose proof (lines_spec ts err (mkReading initialResult NewToolCallAccumulator false false) eq_refl) as Hl.
  destruct (chunks_until_done ts) as [chunks|]; cbn [mbind option_bind].
  - cbn [sawFinish] in Hl. rewrite finishes_at_end_late. destruct (late false _) eqn:Hlate; cbn [negb andb orb].
    { by destruct Hl as (s' & f & ->). }
    rewrite Hl. cbn [sawDone sawFinish update]. rewrite absorbed_finish. cbn [sawFinish orb negb].
    destruct (existsb finishes _) eqn:He; cbn [negb]; [|done]. eexists. split; [done|].
    assert (Hr := absorb_all chunks [] _ initial_read). rewrite finishes_at_end_late, Hlate, He in Hr.
    destruct (Hr eq_refl) as [H1 H2 H3]. by split.
  - destruct (reads ts err _) as [s' [[e|]|f]] eqn:Hs; try done. by rewrite (Hl s' eq_refl).
Qed.

(** *** No finish comes from the reader *)
Lemma unfinished_choice c s : unfinished (result s) -> unfinished (result (take c s)).
Proof.
  intros H. unfold take_choice. cbv zeta. fold (take_content c s).
  assert (H1 : unfinished (result (take_content c s))).
  { unfold take_content. set (s1 := on_result _ s). destruct (add_calls_spec (ToolCalls c) s1) as [E _].
    unfold unfinished. rewrite E. apply unfinished_text.
    exact (says_open _ _ _ _ (says_reasoning_delta (ReasoningContent c) _ _ _ _ (says_itself _ H))). }
  destruct (nonempty _); [|exact H1]. unfold emitTools. destruct (CompleteAll _) as [a states].
  exact (unfinished_calls mint states (note_finish _ _) H1).
Qed.

Lemma unfinished_lines ts err s : unfinished (result s) -> unfinished (result (reads ts err s).1).
Proof.
  revert s. induction ts as [|t ts IH]; intros s H; [done|]. cbn [lines].
  pose proof (take_line_spec (t_line t) s) as Hl. destruct (line_kind (t_line t)) as [| |payload|].
  - rewrite Hl. by apply IH.
  - by destruct Hl as [f ->].
  - rewrite Hl. pose proof (unfinished_usage) as Hu. unfold take_payload. destruct (decode_chunk payload) as [k|]; [|done].
    destruct (negb _); [done|]. destruct (nonempty _); [done|].
    specialize (Hu (NormalizeUsageMap (ck_Usage k)) (result s) H). destruct (Choices k) as [|c cs]; [by apply IH|].
    destruct (sawFinish _); [exact Hu|]. by apply IH, unfinished_choice.
  - by rewrite Hl.
Qed.
End Proofs.

(** The reader of a WorkBuddy answer. A body that holds an answer (up to [DONE] every
    data line is a chunk without a failure, and of the choices the last one, and only it,
    finishes) is read to its end: the listener is given the text and the reasoning of the
    choices, every byte, in order, once, and each tool call once, with all its fragments.
    Any other body (cut off, malformed, refused, with data after the finish) is a failure. *)
Theorem answer_read_whole json_error mint nonce body :
  match answer_choices body with
  | Some cs => exists r,
      consumeStream json_error mint nonce body = (r, None) /\
      says_all r (telling Content cs) (telling ReasoningContent cs) (deliveries mint 0 (answer_calls cs)) /\
      ToolCallCount r = Z.of_nat (length (answer_calls cs))
  | None => (consumeStream json_error mint nonce body).2 <> None
  end.
Proof.
  pose proof (consume_spec json_error mint nonce body) as Hc. destruct (answer_choices body) as [cs|]; [|done].
  destruct Hc as (s & Hs & [H1 H2 _]). by exists (result s).
Qed.


(** ** A concrete answer

    Two calls stream at the same time, their fragments interleaved; the second one has no
    id. *)
Definition line_of (chunk : string) : string := "data: " +:+ js chunk +:+ String LF EmptyString.
Definition choice_of (delta finish : string) : string :=
  "{'choices':[{'delta':" +:+ delta +:+ ",'finish_reason':" +:+ finish +:+ "}]}".
Definition streamed : string :=
  String.concat EmptyString (map line_of [
    choice_of "{'role':'assistant','reasoning_content':'hm'}" "null";
    choice_of "{'content':'Hel'}" "null";
    choice_of "{'content':'lo','tool_calls':[{'index':0,'id':'a','function':{'name':'glob','arguments':'{'}}]}" "null";
    choice_of "{'tool_calls':[{'index':1,'function':{'name':'read','arguments':'{}'}},{'index':0,'function':{'arguments':'}'}}]}" "null";
    choice_of "{}" "'tool_calls'";
    "{'choices':[],'usage':{'prompt_tokens':12,'completion_tokens':3.0}}";
    "[DONE]"]).
Definition answered (data : string) : list SSEMessage * option GoError :=
  runChat (fun _ => "unexpected end of JSON input") (fun k => (unix_epoch, Z.of_nat k + 1)) "n" (fun _ => None) unix_epoch
    (mkResponse 200 EmptyString (mkBody data None)).

Example streamed_events :
  (map (fun msg => (msg_Type msg, event_str msg "delta", event_str msg "toolCallId", event_str msg "input"))
       (answered streamed).1, (answered streamed).2) =
  ([("model.reasoning-delta", "hm", "", ""); ("model.text-delta", "Hel", "", ""); ("model.text-delta", "lo", "", "");
    ("model.tool-call", "", "a", "{}"); ("model.tool-call", "", "toolu_0_1", "{}");
    ("model.tokens-used", "", "", ""); ("model.finish", "", "", "")], None).
Proof. vm_compute. reflexivity. Qed.

(** The same bytes without their end, and refused as plain JSON under status 200. *)
Example cut_short :
  (err_Error <$> (answered (stake (String.length streamed - 13) streamed)).2,
   err_Error <$> (answered (js "{'code':6004,'msg':'slow down'}")).2) =
  (Some "workbuddy stream ended before terminal finish",
   Some "workbuddy API error: status=429, upstream_status=200, code=6004, message=slow down (this model hit the per-model frequency limit; wait for the window reset or use another model)").
Proof. vm_compute. reflexivity. Qed.

#[local] Existing Instance print_all.
