(* ===== verification/ClineWire.v ===== *)
(** * The Cline stream (src/internal/cline/stream.go)

    The reader of a Cline answer: chunks that may come wrapped, reasoning that stands in
    fields of its own or between <think> tags inside the text, and tool calls that some
    models write into the text. The splitter of the tags works on whatever pieces the
    text arrives in; [split] is what it computes of the whole text.

    [html.UnescapeString] is a parameter. Go's regular expressions are written out for
    the three patterns the file compiles. Of a chunk that is decoded a second time out of
    its wrapper, the first decoding leaves nothing but the error's message. *)

From Corelib Require Import SpecFloat.
From stdpp Require Import base numbers list strings gmap.
From S2P Require Import Prelude GoLib Json Marshal Policy Tools SseFrame Stream Prompt Wire.

Local Open Scope Z_scope.
Local Open Scope orchids_scope.

(** ** Reasoning inside the text *)
Record clineThinkingSplitter := mkSplitter { thinking : bool; pending : string }.

Definition tag_of (thinking : bool) : string := if thinking then "</think>" else "<think>".

(** The longest end of the text that begins a tag without completing it. *)
Fixpoint held (n : nat) (text tag : string) : nat :=
  match n with
  | O => O
  | S n' => if HasSuffix text (stake n tag) then n else held n' text tag
  end.

(** The loop; every turn but the last removes a tag. What is emitted goes to the
    reasoning or to the text. *)
Fixpoint feed_fuel (fuel : nat) (final : bool) (s : clineThinkingSplitter) :
    clineThinkingSplitter * list (bool * string) :=
  match fuel with
  | O => (s, [])
  | S fuel' =>
      if String.eqb (pending s) EmptyString then (s, [])
      else
        let tag := tag_of (thinking s) in
        match Index (pending s) tag with
        | Some idx =>
            let '(s', out) := feed_fuel fuel' final
              (mkSplitter (negb (thinking s)) (sdrop (idx + String.length tag) (pending s))) in
            (s', (thinking s, stake idx (pending s)) :: out)
        | None =>
            let keep := if final then O
                        else held (Nat.min (String.length (pending s)) (String.length tag - 1)) (pending s) tag in
            let safe := (String.length (pending s) - keep)%nat in
            (mkSplitter (thinking s) (sdrop safe (pending s)), [(thinking s, stake safe (pending s))])
        end
  end.

Definition feed (content : string) (final : bool) (s : clineThinkingSplitter) :
    clineThinkingSplitter * list (bool * string) :=
  let s := mkSplitter (thinking s) (pending s +:+ content) in
  feed_fuel (S (String.length (pending s))) final s.

(** *** What the whole text says

    Byte by byte: at the tag of the mode the mode changes, any other byte belongs to it.
    [skip] bytes of a tag are still to be passed over. *)
Fixpoint split (thinking : bool) (skip : nat) (s : string) : list (bool * Ascii.ascii) :=
  match s with
  | EmptyString => []
  | String a s' =>
      match skip with
      | S skip' => split thinking skip' s'
      | O =>
          if HasPrefix s (tag_of thinking)
          then split (negb thinking) (String.length (tag_of thinking) - 1) s'
          else (thinking, a) :: split thinking 0 s'
      end
  end.

(** The emitted bytes, each with its mode. *)
Fixpoint marked (mode : bool) (s : string) : list (bool * Ascii.ascii) :=
  match s with EmptyString => [] | String a s' => (mode, a) :: marked mode s' end.
Definition bytes (out : list (bool * string)) : list (bool * Ascii.ascii) :=
  concat (map (fun o => marked o.1 o.2) out).

Fixpoint feed_all (contents : list string) (s : clineThinkingSplitter) :
    clineThinkingSplitter * list (bool * string) :=
  match contents with
  | [] => (s, [])
  | c :: cs =>
      let '(s, out) := feed c false s in
      let '(s, out') := feed_all cs s in (s, out ++ out')
  end.

Definition split_stream (contents : list string) : list (bool * string) :=
  let '(s, out) := feed_all contents (mkSplitter false EmptyString) in
  out ++ (feed EmptyString true s).2.

Lemma marked_app m a b : marked m (a +:+ b) = marked m a ++ marked m b.
Proof. induction a as [|x a IH]; [done|]. cbn. by rewrite IH. Qed.
Lemma bytes_app a b : bytes (a ++ b) = bytes a ++ bytes b.
Proof. unfold bytes. by rewrite map_app, concat_app. Qed.

Lemma split_skip m n s : split m n s = split m 0 (sdrop n s).
Proof.
  revert n. induction s as [|a s IH]; intros [|n]; try done. cbn [split sdrop]. apply IH.
Qed.

(** A run of bytes no tag starts at. *)
Lemma split_plain m n s : (n <= String.length s)%nat ->
  (forall i, (i < n)%nat -> HasPrefix (sdrop i s) (tag_of m) = false) ->
  split m 0 s = marked m (stake n s) ++ split m 0 (sdrop n s).
Proof.
  revert s. induction n as [|n IH]; intros s Hn Hno; [done|].
  destruct s as [|a s]; [cbn in Hn; lia|]. cbn [stake sdrop marked].
  assert (H0 := Hno O ltac:(lia)). cbn [sdrop] in H0. cbn [split]. rewrite H0. cbn [app]. f_equal.
  apply IH; [cbn in Hn; lia|]. intros i Hi. by apply (Hno (S i)); lia.
Qed.

Lemma split_tag m s : split m 0 (tag_of m +:+ s) = split (negb m) 0 s.
Proof.
  assert (H : HasPrefix (tag_of m +:+ s) (tag_of m) = true) by (apply HasPrefix_spec; by exists s).
  destruct m; cbn [tag_of] in *.
  - change ("</think>" +:+ s) with (String (Ascii.ascii_of_nat 60) ("/think>" +:+ s)) in *. cbn [split tag_of]. rewrite H.
    rewrite split_skip. exact (f_equal (split false 0) (sdrop_app "/think>" s)).
  - change ("<think>" +:+ s) with (String (Ascii.ascii_of_nat 60) ("think>" +:+ s)) in *. cbn [split tag_of]. rewrite H.
    rewrite split_skip. exact (f_equal (split true 0) (sdrop_app "think>" s)).
Qed.

Lemma Index_Some s sub i : Index s sub = Some i ->
  exists pre post, s = pre +:+ sub +:+ post /\ String.length pre = i /\
  forall j, (j < i)%nat -> HasPrefix (sdrop j s) sub = false.
Proof.
  revert i. induction s as [|a s IH]; intros i; cbn [Index].
  - destruct (HasPrefix EmptyString sub) eqn:Hp; [|done]. intros [= <-].
    apply HasPrefix_spec in Hp as [q Hq]. exists EmptyString, q. split; [done|]. split; [done|lia].
  - destruct (HasPrefix (String a s) sub) eqn:Hp.
    + intros [= <-]. apply HasPrefix_spec in Hp as [q Hq]. exists EmptyString, q. split; [done|]. split; [done|lia].
    + destruct (Index s sub) as [k|] eqn:Hk; [|done]. intros [= <-].
      destruct (IH k eq_refl) as (pre & post & -> & Hl & Hno). exists (String a pre), post.
      split; [done|]. split; [cbn; by rewrite Hl|]. intros [|j] Hj; [done|]. cbn. apply Hno. lia.
Qed.

Lemma Index_None s sub j : Index s sub = None -> HasPrefix (sdrop j s) sub = false.
Proof.
  revert j. induction s as [|a s IH]; intros j; cbn [Index]; destruct (HasPrefix _ sub) eqn:Hp; try done.
  - by destruct j.
  - intros Hi. destruct j; [done|]. cbn. apply IH. by destruct (Index s sub).
Qed.

Lemma HasPrefix_long s r p : (String.length p <= String.length s)%nat -> HasPrefix (s +:+ r) p = HasPrefix s p.
Proof.
  revert s. induction p as [|b p IH]; intros [|a s] Hl; try done; cbn in *; try lia.
  by rewrite IH by lia.
Qed.

(** A text that a tag begins in, and that is too short for it, is where the tag begins. *)
Lemma HasPrefix_short s r p : (String.length s <= String.length p)%nat ->
  HasPrefix (s +:+ r) p = true -> s = stake (String.length s) p.
Proof.
  revert s. induction p as [|b p IH]; intros [|a s] Hl; try done; cbn in *; try lia.
  intros Hp. bool_to_prop. match goal with H : Ascii.eqb _ _ = true |- _ => apply Ascii.eqb_eq in H as -> end.
  f_equal. apply IH; [lia|done].
Qed.

Lemma held_spec n text tag m : (held n text tag < m <= n)%nat -> HasSuffix text (stake m tag) = false.
Proof.
  induction n as [|n IH]; cbn [held]; [lia|]. destruct (HasSuffix text (stake (S n) tag)) eqn:Hs; [lia|].
  intros Hm. destruct (decide (m = S n)) as [->|]; [done|]. apply IH. lia.
Qed.

Lemma held_le n text tag : (held n text tag <= n)%nat.
Proof. induction n as [|n IH]; cbn [held]; [done|]. destruct (HasSuffix _ _); lia. Qed.

Lemma drop_app_le j a b : (j <= String.length a)%nat -> sdrop j (a +:+ b) = sdrop j a +:+ b.
Proof. revert j. induction a as [|x a IH]; intros [|j] Hj; cbn in *; try done; [lia|]. apply IH. lia. Qed.
Lemma take_app_le j a b : (j <= String.length a)%nat -> stake j (a +:+ b) = stake j a.
Proof. revert j. induction a as [|x a IH]; intros [|j] Hj; cbn in *; try done; [lia|]. f_equal. apply IH. lia. Qed.

Lemma sdrop_all s : sdrop (String.length s) s = EmptyString.
Proof. induction s as [|a s IH]; [done|exact IH]. Qed.

(** No tag starts among the bytes that are let go, whatever comes next. *)
Lemma safe_bytes m p rest j :
  Index p (tag_of m) = None ->
  (j < String.length p - held (Nat.min (String.length p) (String.length (tag_of m) - 1)) p (tag_of m))%nat ->
  HasPrefix (sdrop j (p +:+ rest)) (tag_of m) = false.
Proof.
  intros Hi Hj. rewrite drop_app_le by lia.
  destruct (decide (String.length (tag_of m) <= String.length (sdrop j p))%nat) as [Hl|Hl].
  { rewrite HasPrefix_long by done. by apply Index_None. }
  destruct (HasPrefix (sdrop j p +:+ rest) (tag_of m)) eqn:Hp; [|done]. exfalso.
  apply HasPrefix_short in Hp; [|lia]. rewrite sdrop_length in Hp, Hl.
  assert (Hs : HasSuffix p (stake (String.length p - j) (tag_of m)) = false).
  { apply (held_spec (Nat.min (String.length p) (String.length (tag_of m) - 1))). lia. }
  rewrite <- Hp in Hs. unfold HasSuffix in Hs. rewrite sdrop_length in Hs.
  replace (String.length p - (String.length p - j))%nat with j in Hs by lia.
  rewrite String.eqb_refl, andb_true_r in Hs. apply Nat.leb_gt in Hs. lia.
Qed.

Lemma tag_nonempty m : (0 < String.length (tag_of m))%nat.
Proof. destruct m; cbn; lia. Qed.

Lemma feed_fuel_spec fuel final s rest : (String.length (pending s) < fuel)%nat ->
  (final = true -> rest = EmptyString) ->
  let '(s', out) := feed_fuel fuel final s in
  split (thinking s) 0 (pending s +:+ rest) = bytes out ++ split (thinking s') 0 (pending s' +:+ rest) /\
  (final = true -> pending s' = EmptyString).
Proof.
  revert s. induction fuel as [|fuel IH]; intros [m p]; cbn [thinking pending feed_fuel]; [lia|]. intros Hl Hr.
  destruct (String.eqb_spec p EmptyString) as [->|Hne]; [done|].
  destruct (Index p (tag_of m)) as [idx|] eqn:Hi.
  - destruct (Index_Some _ _ _ Hi) as (pre & post & Hp & <- & Hno). pose proof (tag_nonempty m) as Ht.
    assert (Hpost : sdrop (String.length pre + String.length (tag_of m)) p = post).
    { rewrite Hp, <- sapp_assoc, <- sapp_length. apply sdrop_app. }
    assert (Hpre : stake (String.length pre) p = pre) by (rewrite Hp; apply stake_app).
    rewrite Hpost, Hpre.
    assert (Hlen : String.length p = (String.length pre + String.length (tag_of m) + String.length post)%nat)
      by (rewrite Hp, !sapp_length; lia).
    specialize (IH (mkSplitter (negb m) post) ltac:(cbn; lia) Hr). cbn [thinking pending] in IH.
    destruct (feed_fuel fuel final _) as [s' out]. destruct IH as [IH1 IH2]. split; [|done].
    change (bytes ((m, pre) :: out)) with (marked m pre ++ bytes out). rewrite <- app_assoc, <- IH1.
    rewrite (split_plain m (String.length pre)).
    + rewrite Hp, !sapp_assoc, stake_app, sdrop_app. by rewrite split_tag.
    + rewrite sapp_length. lia.
    + intros i Hlt. rewrite drop_app_le by lia. rewrite HasPrefix_long; [by apply Hno|]. rewrite sdrop_length. lia.
  - set (keep := if final then O else _). set (safe := (String.length p - keep)%nat). cbn [thinking pending].
    split.
    + change (bytes [(m, stake safe p)]) with (marked m (stake safe p) ++ []). rewrite app_nil_r.
      rewrite (split_plain m safe).
      * rewrite take_app_le, drop_app_le by lia. done.
      * rewrite sapp_length. lia.
      * intros i Hlt. destruct final.
        -- rewrite (Hr eq_refl), sapp_nil_r. by apply Index_None.
        -- by apply safe_bytes.
    + intros ->. subst safe keep. cbn. rewrite Nat.sub_0_r. apply sdrop_all.
Qed.

Lemma feed_spec content final s rest : (final = true -> rest = EmptyString) ->
  let '(s', out) := feed content final s in
  split (thinking s) 0 (pending s +:+ content +:+ rest) = bytes out ++ split (thinking s') 0 (pending s' +:+ rest) /\
  (final = true -> pending s' = EmptyString).
Proof.
  intros Hr. unfold feed. rewrite <- sapp_assoc.
  exact (feed_fuel_spec _ final (mkSplitter (thinking s) (pending s +:+ content)) rest (Nat.lt_succ_diag_r _) Hr).
Qed.

Lemma feed_all_spec contents s rest :
  let '(s', out) := feed_all contents s in
  split (thinking s) 0 (pending s +:+ telling id contents +:+ rest) =
  bytes out ++ split (thinking s') 0 (pending s' +:+ rest).
Proof.
  revert s. induction contents as [|c cs IH]; intros s; cbn [feed_all]; [done|].
  pose proof (feed_spec c false s (telling id cs +:+ rest)) as Hf. destruct (feed c false s) as [s1 out].
  specialize (IH s1). destruct (feed_all cs s1) as [s2 out']. destruct Hf as [Hf _]; [done|].
  rewrite bytes_app, <- app_assoc, <- IH, <- Hf. cbn [telling foldr id]. by rewrite sapp_assoc.
Qed.

(** C33: however a text is cut into pieces, inside a tag or anywhere else, the splitter
    sends every byte outside the <think> and </think> tags to the reasoning or to the
    answer as the whole text says, in order, once. *)
Theorem any_pieces_same_split contents : bytes (split_stream contents) = split false 0 (telling id contents).
Proof.
  unfold split_stream. pose proof (feed_all_spec contents (mkSplitter false EmptyString) EmptyString) as Ha.
  destruct (feed_all _ _) as [s out]. pose proof (feed_spec EmptyString true s EmptyString (fun _ => eq_refl)) as Hf.
  cbn [thinking pending String.append] in Ha. rewrite sapp_nil_r in Ha. rewrite Ha, bytes_app.
  destruct (feed EmptyString true s) as [s' out']. destruct Hf as [Hf He]. cbn [snd] in *.
  f_equal. rewrite !sapp_nil_r in *. rewrite Hf, (He eq_refl). cbn. by rewrite app_nil_r.
Qed.

Example tags_in_pieces :
  filter (fun o => o.2 <> EmptyString) (split_stream ["Hi <th"; "ink>why"; " so</"; "think>done <b"; "> <think"]) =
  [(false, "Hi "); (true, "why"); (true, " so"); (false, "done <b"); (false, "> "); (false, "<think")].
Proof. vm_compute. reflexivity. Qed.

(** ** Tool calls written into the text

    [\s] of a regular expression is an ASCII space. *)
Definition re_space (a : Ascii.ascii) : bool :=
  is_byte 9 a || is_byte 10 a || is_byte 12 a || is_byte 13 a || is_byte 32 a.
Fixpoint re_skip (s : string) : string :=
  match s with String a s' => if re_space a then re_skip s' else s | EmptyString => s end.
Definition re_trim (s : string) : string := String.rev (re_skip (String.rev (re_skip s))).

(** The texts around the first [sub]. *)
Definition cut (sub s : string) : option (string * string) :=
  idx ← Index s sub; Some (stake idx s, sdrop (idx + String.length sub) s).

(** clineTextToolBlockRE: what stands before each match and between its tags, and what
    follows the last one. *)
Fixpoint tool_blocks (fuel : nat) (text : string) : list (string * string) * string :=
  match fuel with
  | O => ([], text)
  | S fuel' =>
      match ('(before, t) ← cut "<tool_call>" text; '(body, rest) ← cut "</tool_call>" t; Some (before, body, rest)) with
      | None => ([], text)
      | Some (before, body, rest) =>
          let '(more, tail) := tool_blocks fuel' rest in ((before, body) :: more, tail)
      end
  end.

Definition last_byte (s : string) : string := sdrop (String.length s - 1) s.

(** clineTextToolArgumentRE at an opening tag: its two groups and the text after it. *)
Definition argument_at (t : string) : option (string * string * string) :=
  '(key, _) ← cut "<" t;
  t ← after "</arg_key>" (sdrop (String.length key) t);
  if String.eqb key EmptyString then None
  else
    t ← after "<arg_value>" (re_skip t);
    '(value, rest) ← cut "</arg_value>" t;
    Some (if String.eqb (re_trim key) EmptyString then last_byte key else re_trim key, re_trim value, rest).

Fixpoint arguments_of (fuel : nat) (s : string) : list (string * string) :=
  match fuel with
  | O => []
  | S fuel' =>
      match cut "<arg_key>" s with
      | None => []
      | Some (_, t) =>
          match argument_at t with
          | Some (key, value, rest) => (key, value) :: arguments_of fuel' rest
          | None => arguments_of fuel' t
          end
      end
  end.

(** clineTextToolNameRE *)
Definition letter (a : Ascii.ascii) : bool := between 65 90 a || between 97 122 a || is_byte 95 a.
Definition name_byte (a : Ascii.ascii) : bool := letter a || digit a || is_byte 46 a || is_byte 45 a.
Definition is_name (s : string) : bool :=
  match s with String a s' => letter a && str_all name_byte s' | EmptyString => false end.

(** A call found in the text: its name and its arguments. The ids are given in order. *)
Definition text_call : Type := string * string.

Definition typed (value : string) : json := default (JStr value) (UnmarshalAny value).

Section Fallback.
Context (UnescapeString : string -> string).

Definition text_arguments (s : string) : list (string * json) :=
  foldl (fun args kv =>
    set_field (TrimSpace (UnescapeString kv.1)) (typed (UnescapeString (TrimSpace kv.2))) args)
    [] (arguments_of (S (String.length s)) s).

(** One block: a call, or text that stays visible. *)
Definition block_call (body : string) : option text_call :=
  let body := re_trim body in
  match Index body ":" with
  | None | Some O => None
  | Some colon =>
      let name := TrimSpace (stake colon body) in
      let args := text_arguments (sdrop (colon + 1) body) in
      if String.eqb name EmptyString then None
      else match args with [] => None | _ => Some (name, Marshal (JObj args)) end
  end.

Definition parseClineClosedTextToolCalls (text : string) : string * list text_call :=
  match tool_blocks (S (String.length text)) text with
  | ([], _) => (text, [])
  | (blocks, tail) =>
      let '(visible, calls) :=
        foldl (fun acc b =>
          match block_call b.2 with
          | Some call => (acc.1 +:+ b.1, acc.2 ++ [call])
          | None => (acc.1 +:+ b.1 +:+ "<tool_call>" +:+ b.2 +:+ "</tool_call>", acc.2)
          end) (EmptyString, []) blocks in
      (visible +:+ tail, calls)
  end.

(** [strings.Split] at the marker. *)
Fixpoint segments_of (fuel : nat) (s : string) : list string :=
  match fuel with
  | O => [s]
  | S fuel' => match cut "<tool_call>" s with Some (a, b) => a :: segments_of fuel' b | None => [s] end
  end.

Definition compact_call (segment : string) : option text_call :=
  match Index segment "," with
  | None | Some O => None
  | Some comma =>
      let name := TrimSpace (stake comma segment) in
      let arguments := TrimSpace (sdrop (comma + 1) segment) in
      if is_name name && some_b (Unmarshal arguments) then Some (name, arguments) else None
  end.

(** One labelled part of a call. *)
Definition add_part (name : string) (args : list (string * json)) (part : string) : list (string * json) :=
  match Index part ":" with
  | None | Some O => args
  | Some colon =>
      let key := TrimSpace (stake colon part) in
      let value := TrimSpace (sdrop (colon + 1) part) in
      if String.eqb key EmptyString || String.eqb value EmptyString || EqualFold key name ||
         EqualFold key "run_in_background" then args
      else if EqualFold key "args" || EqualFold key "arguments" then
        foldl (fun args kv => set_field kv.1 kv.2 args) args (default [] (UnmarshalMap value))
      else set_field key (typed value) args
  end.

(** The parts up to the next name, and the segments from it on. *)
Fixpoint gather (name : string) (args : list (string * json)) (segs : list string) :
    list (string * json) * list string :=
  match segs with
  | [] => (args, [])
  | seg :: segs' =>
      let part := TrimSpace seg in
      if is_name part then (args, segs) else gather name (add_part name args part) segs'
  end.

Fixpoint segment_calls (fuel : nat) (segs : list string) : list text_call :=
  match fuel, segs with
  | S fuel', seg :: rest =>
      let segment := TrimSpace seg in
      match compact_call segment with
      | Some call => call :: segment_calls fuel' rest
      | None =>
          if negb (is_name segment) then segment_calls fuel' rest
          else
            let '(args, next) := gather segment [] rest in
            match args with
            | [] => segment_calls fuel' next
            | _ => (segment, Marshal (JObj args)) :: segment_calls fuel' next
            end
      end
  | _, _ => []
  end.

Definition parseClineRepeatedTagToolCall (text : string) : string * list text_call :=
  match cut "<tool_call>" text with
  | None => (text, [])
  | Some (visible, t) =>
      let segments := segments_of (String.length t) t in
      match segment_calls (length segments) segments with
      | [] => (text, [])
      | calls => (visible, calls)
      end
  end.

Definition parseClineTextToolCalls (text : string) : string * list text_call :=
  match parseClineClosedTextToolCalls text with
  | (visible, (_ :: _) as calls) => (visible, calls)
  | (_, []) => parseClineRepeatedTagToolCall text
  end.
End Fallback.

(** ** A chunk of the stream *)
Record Choice := mkChoice {
  FinishReason_ : string;
  Content : string;
  Reasoning : string;                     (* the first alias that is not empty *)
  ToolCalls : list Fragment;
}.
Record streamChunk := mkChunk { ck_Error : string; ck_Usage : list (string * json); Choices : list Choice }.

Definition decode_choice (fs : list (string * json)) : option Choice :=
  _ ← as_int (struct_field "index" fs);
  finish ← as_string (struct_field "finish_reason" fs);
  as_struct (fun delta =>
      _ ← as_string (struct_field "role" delta);
      content ← as_string (struct_field "content" delta);
      reasoning_content ← as_string (struct_field "reasoning_content" delta);
      reasoning ← as_string (struct_field "reasoning" delta);
      thinking ← as_string (struct_field "thinking" delta);
      calls ← as_list (as_struct decode_fragment) (struct_field "tool_calls" delta);
      Some (mkChoice finish content
              (if nonempty reasoning_content then reasoning_content
               else if nonempty reasoning then reasoning else thinking) calls)) (struct_field "delta" fs).

Definition error_message (fs : list (string * json)) : option string :=
  as_struct (fun e => as_string (struct_field "message" e)) (struct_field "error" fs).

(** Whether there is a message at all. *)
Definition message_given (fs : list (string * json)) : option string :=
  match struct_field "error" fs with
  | Some (JObj e) => match struct_field "message" e with Some (JStr m) => Some m | _ => None end
  | _ => None
  end.

Definition decode_members (fs : list (string * json)) : option streamChunk :=
  _ ← as_string (struct_field "id" fs);
  _ ← as_string (struct_field "object" fs);
  _ ← as_string (struct_field "model" fs);
  choices ← as_list (as_struct decode_choice) (struct_field "choices" fs);
  usage ← any_map (struct_field "usage" fs);
  error ← error_message fs;
  Some (mkChunk error usage choices).

(** The members of a value decoded into a struct. *)
Definition members (v : json) : option (list (string * json)) :=
  match v with JObj fs => Some fs | JNull => Some [] | _ => None end.

Definition chunkLooksDecoded (fs : list (string * json)) : bool :=
  existsb (fun key => some_b (field key fs)) ["choices"; "usage"; "id"; "object"; "model"].

Definition unwrapEnvelope (fs : list (string * json)) : option (list (string * json)) :=
  match struct_field "data" fs with Some (JObj inner) => Some inner | _ => None end.

Inductive Decoded := Chunk (c : streamChunk) | NoChunk | NoWrapped.

Definition decode_payload (payload : string) : Decoded :=
  match Unmarshal payload ≫= members with
  | None => NoChunk
  | Some fs =>
      match (if chunkLooksDecoded fs then decode_members fs else None) with
      | Some c => Chunk c
      | None =>
          match unwrapEnvelope fs with
          | None => NoChunk
          | Some inner =>
              match (if chunkLooksDecoded inner then decode_members inner else None) with
              | None => NoWrapped
              | Some c =>
                  Chunk (mkChunk (default (default EmptyString (error_message fs)) (message_given inner)) (ck_Usage c) (Choices c))
              end
          end
      end
  end.

(** ** Reading the stream *)
Definition maxClineTextToolBufferBytes : Z := 1048576.

Record Reading := mkReading {
  result : Result;
  tools : ToolCallAccumulator;
  pendingText : string;
  splitter : clineThinkingSplitter;
  sawNativeTools : bool;
  sawFinish : bool;
}.
#[export] Instance eta_Reading : Eta Reading := fun r =>
  mkReading (result r) (tools r) (pendingText r) (splitter r) (sawNativeTools r) (sawFinish r).

Definition initialReading : Reading :=
  mkReading initialResult NewToolCallAccumulator EmptyString (mkSplitter false EmptyString) false false.

Inductive Step := Next (s : Reading) | Stop (s : Reading) | Fails (s : Reading) (text : string).

Definition ErrStreamTruncated : string := "cline stream ended before the finish event".

Section Reader.
Context (UnescapeString : string -> string) (mint : nat -> Time * Z) (nonce : string) (toolsEnabled : bool).

Definition newThinkingSignature : string := "cline-v1:" +:+ nonce.
Definition on_result (f : Result -> Result) (s : Reading) : Reading := s <| result := f (result s) |>.

Definition emitText (text : string) (s : Reading) : Reading := on_result (EmitTextDelta text) s.

Definition emitReasoning (text : string) (s : Reading) : Reading :=
  if String.eqb text EmptyString then s
  else
    on_result (fun r =>
      let r := meaningful r in
      let r := if String.eqb (ThinkingSignature r) EmptyString then r <| ThinkingSignature := newThinkingSignature |> else r in
      tell (event "model.reasoning-delta" [("delta", JStr text); ("signature", JStr (ThinkingSignature r))]) r) s.

Definition emitContent (content : string) (s : Reading) : Reading :=
  if String.eqb content EmptyString then s
  else if toolsEnabled && negb (sawNativeTools s) then
    let s := s <| pendingText := pendingText s +:+ content |> in
    if maxClineTextToolBufferBytes <? strlen (pendingText s)
    then emitText (pendingText s) s <| pendingText := EmptyString |> else s
  else emitText content s.

(** The splitter calls back for every piece; the callbacks leave it alone. *)
Definition emit_pieces (pieces : list (bool * string)) (s : Reading) : Reading :=
  foldl (fun s p => if p.1 : bool then emitReasoning p.2 s else emitContent p.2 s) s pieces.

Definition split_content (content : string) (final : bool) (s : Reading) : Reading :=
  let '(sp, pieces) := feed content final (splitter s) in
  emit_pieces pieces (s <| splitter := sp |>).

Definition emitTools (s : Reading) : Reading :=
  let '(a, states) := CompleteAll (tools s) in
  on_result (EmitToolCalls mint states) (s <| tools := a |>).

(** Every call found in a text takes an id when it is found. *)
Definition use_ids (n : nat) (s : Reading) : Reading := on_result (fun r => r <| minted := (minted r + n)%nat |>) s.

Definition native_call (s : Reading) (d : Fragment) : Reading :=
  let s := on_result meaningful s in
  let s :=
    if sawNativeTools s then s
    else
      let s := s <| sawNativeTools := true |> in
      if String.eqb (pendingText s) EmptyString then s
      else
        let '(visible, calls) := parseClineTextToolCalls UnescapeString (pendingText s) in
        emitText visible (use_ids (length calls) s) <| pendingText := EmptyString |> in
  s <| tools := AddFragment d (tools s) |>.

Definition note_finish (reason : string) (r : Result) : Result := r <| FinishReasonValue := reason |>.

Definition take_choice (c : Choice) (s : Reading) : Reading :=
  let s := emitReasoning (Reasoning c) s in
  let s := if String.eqb (Content c) EmptyString then s else split_content (Content c) false s in
  let s := foldl native_call s (ToolCalls c) in
  let reason := TrimSpace (FinishReason_ c) in
  if nonempty reason
  then emitTools (on_result (note_finish reason) s <| sawFinish := true |>)
  else s.

Definition take_payload (payload : string) (s : Reading) : Step :=
  match decode_payload payload with
  | NoChunk => Fails s "cline stream protocol error: invalid chunk"
  | NoWrapped => Fails s "cline stream protocol error: invalid wrapped chunk"
  | Chunk chunk =>
      let msg := TrimSpace (ck_Error chunk) in
      if nonempty msg then Fails s ("cline stream error: " +:+ msg)
      else
        let s := on_result (ApplyStreamUsage (NormalizeUsageMap (ck_Usage chunk))) s in
        Next (match Choices chunk with [] => s | c :: _ => take_choice c s end)
  end.

Definition take_line (text : string) (s : Reading) : Step :=
  let line := TrimSpace text in
  if String.eqb line EmptyString || HasPrefix line ":" then Next s
  else if negb (HasPrefix line "data:") then Next s
  else
    let payload := TrimSpace (TrimPrefix line "data:") in
    if String.eqb payload "[DONE]" then Stop (s <| sawFinish := true |>)
    else if String.eqb payload EmptyString then Next s
    else take_payload payload s.

Fixpoint lines (ts : list Token) (err : option string) (s : Reading) : Reading * (option string + string) :=
  match ts with
  | [] => (s, inl err)
  | t :: ts' =>
      match take_line (t_line t) s with
      | Next s' => lines ts' err s'
      | Stop s' => (s', inl (t_err t))
      | Fails s' text => (s', inr text)
      end
  end.

(** The calls of the text, with their ids, as the accumulator takes them. *)
Fixpoint text_fragments (index : Z) (id : nat) (calls : list text_call) : list Fragment :=
  match calls with
  | [] => []
  | (name, arguments) :: calls' =>
      mkFragment index (NewToolCallID (mint id).1 (mint id).2) name arguments :: text_fragments (index + 1) (S id) calls'
  end.

Definition flush_text (s : Reading) : Reading :=
  if toolsEnabled && negb (sawNativeTools s) && nonempty (pendingText s) then
    let '(visible, calls) := parseClineTextToolCalls UnescapeString (pendingText s) in
    let fragments := text_fragments 0 (minted (result s)) calls in
    let s := emitText visible (use_ids (length calls) s) in
    s <| tools := foldl (fun a d => AddFragment d a) (tools s) fragments |> <| pendingText := EmptyString |>
  else s.

Definition line_limit : Z := 8 * 1024 * 1024.

Definition consumeStream (body : Body) : Result * option string :=
  let '(ts, err) := Scan line_limit body in
  let '(s, ended) := lines ts err initialReading in
  match ended with
  | inr text => (result s, Some text)
  | inl (Some e) => (result s, Some ("failed to read cline stream: " +:+ e))
  | inl None =>
      if negb (sawFinish s) then (result s, Some ErrStreamTruncated)
      else (result (emitTools (flush_text (split_content EmptyString true s))), None)
  end.

Definition FinishReason (r : Result) : string :=
  if 0 <? ToolCallCount r then "tool_use"
  else
    let reason := ToLower (TrimSpace (FinishReasonValue r)) in
    if existsb (String.eqb reason) ["length"; "max_tokens"; "max_token_limit"] then "max_tokens"
    else if existsb (String.eqb reason) ["stop"; "stop_sequence"; "end_turn"; ""] then "end_turn"
    else FinishReasonValue r.

Definition finish_message (r : Result) : SSEMessage :=
  event "model.finish" (("finishReason", JStr (FinishReason r)) ::
                        match Usage r with [] => [] | usage => [("usage", JObj usage)] end).

(** [runChat] once a response with status 200 is there: what the listener is given and
    the error. A 401 before that renews the token and sends the request again. *)
Definition runChat (body : Body) : list SSEMessage * option GoError :=
  let '(r, failure) := consumeStream body in
  match failure with
  | Some text => (emitted r, Some (mkError text None))
  | None =>
      if negb (SawMeaningfulEvent r) then (emitted r, Some (mkError "cline stream produced no usable events" None))
      else (emitted r ++ [finish_message r], None)
  end.
End Reader.

(** ** The answer a body holds *)
Inductive Kind := Ignored | Data (payload : string) | Done.

Definition line_kind (text : string) : Kind :=
  let line := TrimSpace text in
  if String.eqb line EmptyString || HasPrefix line ":" then Ignored
  else if negb (HasPrefix line "data:") then Ignored
  else
    let payload := TrimSpace (TrimPrefix line "data:") in
    if String.eqb payload "[DONE]" then Done
    else if String.eqb payload EmptyString then Ignored else Data payload.

Definition healthy_chunk (payload : string) : option streamChunk :=
  match decode_payload payload with
  | Chunk c => if nonempty (TrimSpace (ck_Error c)) then None else Some c
  | _ => None
  end.

(** The chunks up to the marker [DONE] or the end, and whether the marker was there. *)
Fixpoint chunks_read (ts : list Token) (err : option string) : option (list streamChunk * bool) :=
  match ts with
  | [] => match err with None => Some ([], false) | Some _ => None end
  | t :: ts' =>
      match line_kind (t_line t) with
      | Ignored => chunks_read ts' err
      | Done => match t_err t with None => Some ([], true) | Some _ => None end
      | Data payload =>
          chunk ← healthy_chunk payload; '(chunks, marker) ← chunks_read ts' err; Some (chunk :: chunks, marker)
      end
  end.

Definition first_choices (chunks : list streamChunk) : list Choice := omap (fun k => head (Choices k)) chunks.
Definition finishes (c : Choice) : bool := nonempty (TrimSpace (FinishReason_ c)).

Definition answer_choices (body : Body) : option (list Choice) :=
  let '(ts, err) := Scan line_limit body in
  '(chunks, marker) ← chunks_read ts err;
  if marker || existsb finishes (first_choices chunks) then Some (first_choices chunks) else None.

(** The bytes of a mode. *)
Fixpoint spoken (mode : bool) (l : list (bool * Ascii.ascii)) : string :=
  match l with
  | [] => EmptyString
  | (m, a) :: l' => if eqb m mode then String a (spoken mode l') else spoken mode l'
  end.
Definition answer_text (cs : list Choice) : string := spoken false (split false 0 (telling Content cs)).
Definition answer_thoughts (cs : list Choice) : string := spoken true (split false 0 (telling Content cs)).

Lemma spoken_app m a b : spoken m (a ++ b) = spoken m a +:+ spoken m b.
Proof. induction a as [|[x c] a IH]; [done|]. cbn. rewrite IH. by destruct (eqb x m). Qed.
Lemma spoken_marked m x s : spoken m (marked x s) = if eqb x m then s else EmptyString.
Proof.
  induction s as [|a s IH]; cbn; [by destruct (eqb x m)|]. rewrite IH. by destruct (eqb x m).
Qed.

Lemma cut_absent sub s : Contains s sub = false -> cut sub s = None.
Proof.
  intros Hc. unfold cut. destruct (Index s sub) as [i|] eqn:Hi; [|done]. exfalso.
  destruct (Index_Some _ _ _ Hi) as (pre & post & -> & _).
  assert (Ht : Contains (pre +:+ sub +:+ post) sub = true) by (apply Contains_spec; by exists pre, post). congruence.
Qed.

(** *** The fuel of the parsers is enough *)
Lemma cut_shorter sub s a b : cut sub s = Some (a, b) ->
  (String.length a + String.length sub + String.length b = String.length s)%nat.
Proof.
  unfold cut. destruct (Index s sub) as [i|] eqn:Hi; [|done]. intros [= <- <-].
  destruct (Index_Some _ _ _ Hi) as (pre & post & -> & <- & _).
  rewrite stake_app, <- sapp_assoc, <- sapp_length, sdrop_app, !sapp_length. lia.
Qed.

Lemma tool_blocks_fuel n m s : (String.length s < n)%nat -> (String.length s < m)%nat ->
  tool_blocks n s = tool_blocks m s.
Proof.
  revert m s. induction n as [|n IH]; intros [|m] s Hn Hm; try lia. cbn [tool_blocks].
  destruct (cut "<tool_call>" s) as [[a t]|] eqn:H1; [|done]. cbn [mbind option_bind].
  destruct (cut "</tool_call>" t) as [[b r]|] eqn:H2; [|done]. cbn [mbind option_bind].
  apply cut_shorter in H1, H2. cbn in H1, H2. by rewrite (IH m) by lia.
Qed.

Lemma segments_fuel n m s : (String.length s <= n)%nat -> (String.length s <= m)%nat ->
  segments_of n s = segments_of m s.
Proof.
  assert (H0 : forall k, String.length s = O -> segments_of k s = [s]).
  { intros [|k] Hl; [done|]. by destruct s. }
  revert m s H0. induction n as [|n IH]; intros m s H0 Hn Hm; [rewrite (H0 m) by lia; done|].
  destruct m as [|m]; [rewrite (H0 (S n)) by lia; done|]. cbn [segments_of].
  destruct (cut _ s) as [[a b]|] eqn:Hc; [|done]. apply cut_shorter in Hc. cbn in Hc. f_equal.
  apply IH; [|lia|lia]. intros [|k] Hl; [done|]. by destruct b.
Qed.

Lemma re_skip_length s : (String.length (re_skip s) <= String.length s)%nat.
Proof. induction s as [|a s IH]; [done|]. cbn. destruct (re_space a); cbn; lia. Qed.

Lemma after_length p s r : after p s = Some r -> (String.length r <= String.length s)%nat.
Proof. unfold after. destruct (HasPrefix s p); [|done]. intros [= <-]. rewrite sdrop_length. lia. Qed.

Lemma argument_at_length t key value rest : argument_at t = Some (key, value, rest) ->
  (String.length rest <= String.length t)%nat.
Proof.
  unfold argument_at. destruct (cut "<" t) as [[k x]|] eqn:H1; [|done]. cbn [mbind option_bind].
  destruct (after _ _) as [t1|] eqn:H2; [|done]. cbn [mbind option_bind]. destruct (String.eqb k _); [done|].
  destruct (after "<arg_value>" _) as [t2|] eqn:H3; [|done]. cbn [mbind option_bind].
  destruct (cut _ t2) as [[v r]|] eqn:H4; [|done]. intros [= _ _ <-].
  apply after_length in H2, H3. apply cut_shorter in H4. rewrite sdrop_length in H2.
  pose proof (re_skip_length t1). cbn in H4. lia.
Qed.

Lemma arguments_fuel n m s : (String.length s < n)%nat -> (String.length s < m)%nat ->
  arguments_of n s = arguments_of m s.
Proof.
  revert m s. induction n as [|n IH]; intros [|m] s Hn Hm; try lia. cbn [arguments_of].
  destruct (cut _ s) as [[a t]|] eqn:H1; [|done]. apply cut_shorter in H1. cbn in H1.
  destruct (argument_at t) as [[[k v] r]|] eqn:Ha; [|apply IH; lia].
  apply argument_at_length in Ha. f_equal. apply IH; lia.
Qed.

Lemma gather_length name args segs : (length (gather name args segs).2 <= length segs)%nat.
Proof.
  revert args. induction segs as [|seg segs IH]; intros args; [done|]. cbn [gather].
  destruct (is_name _); [done|]. specialize (IH (add_part name args (TrimSpace seg))). cbn. lia.
Qed.

Lemma segment_calls_fuel n m segs : (length segs <= n)%nat -> (length segs <= m)%nat ->
  segment_calls n segs = segment_calls m segs.
Proof.
  revert m segs. induction n as [|n IH]; intros [|m] [|seg segs] Hn Hm; cbn in Hn, Hm; try done; try lia.
  cbn [segment_calls]. destruct (compact_call _); [f_equal; apply IH; lia|].
  destruct (negb _); [apply IH; lia|]. pose proof (gather_length (TrimSpace seg) [] segs) as Hg.
  destruct (gather _ _ segs) as [args next]. cbn [snd] in Hg. rewrite (IH m next) by lia. done.
Qed.

(** A text without the marker holds no call. *)
Lemma no_marker unescape text : Contains text "<tool_call>" = false ->
  parseClineTextToolCalls unescape text = (text, []).
Proof.
  intros Hc. apply cut_absent in Hc. unfold parseClineTextToolCalls, parseClineClosedTextToolCalls, parseClineRepeatedTagToolCall.
  cbn [tool_blocks]. by rewrite Hc.
Qed.

Section Proofs.
Context (UnescapeString : string -> string) (mint : nat -> Time * Z) (nonce : string) (toolsEnabled : bool).

Notation emit := (emit_pieces nonce toolsEnabled) (only parsing).

(** What is written down of the text so far: the emitted bytes [out], of which the end may
    still wait in [pendingText]; [quiet] while no reasoning came outside the text. *)
Record written (quiet : bool) (out : list (bool * Ascii.ascii)) (s : Reading) : Prop := {
  w_says : exists t rs cs, says_all (result s) t rs cs /\ t +:+ pendingText s = spoken false out /\
                           (quiet = true -> rs = spoken true out);
  w_pending : toolsEnabled && negb (sawNativeTools s) = false -> pendingText s = EmptyString;
}.

Lemma emitText_written t rs cs s text :
  says_all (result s) t rs cs -> says_all (result (emitText text s)) (t +:+ text) rs cs.
Proof. exact (says_EmitTextDelta text (result s) t rs cs). Qed.

Lemma emitReasoning_says text s t rs cs :
  says_all (result s) t rs cs -> says_all (result (emitReasoning nonce text s)) t (rs +:+ text) cs.
Proof.
  intros Hs. unfold emitReasoning. destruct (String.eqb_spec text EmptyString) as [->|Hne]; [by rewrite sapp_nil_r|].
  cbn [result on_result update]. cbv zeta. destruct (String.eqb _ _);
    match goal with |- says_all (tell ?m _) _ _ _ => says_one_event Hs m end.
Qed.

Lemma emitReasoning_rest text s : let s' := emitReasoning nonce text s in
  pendingText s' = pendingText s /\ sawNativeTools s' = sawNativeTools s /\ splitter s' = splitter s /\
  sawFinish s' = sawFinish s /\ tools s' = tools s.
Proof. unfold emitReasoning. by destruct (String.eqb _ _). Qed.

Lemma emitContent_written quiet out s text : written quiet out s ->
  written quiet (out ++ marked false text) (emitContent toolsEnabled text s).
Proof.
  intros [(t & rs & cs & Hs & Ht & Hq) Hp]. unfold emitContent.
  destruct (String.eqb_spec text EmptyString) as [->|Hne].
  { cbn [marked]. rewrite app_nil_r. split; [by exists t, rs, cs|done]. }
  assert (Hq' : quiet = true -> rs = spoken true (out ++ marked false text)).
  { intros E. rewrite spoken_app, spoken_marked. cbn. rewrite sapp_nil_r. by apply Hq. }
  assert (Ho : spoken false (out ++ marked false text) = (t +:+ pendingText s) +:+ text)
    by (by rewrite spoken_app, spoken_marked, Ht).
  destruct (toolsEnabled && negb (sawNativeTools s)) eqn:Hb.
  - destruct (maxClineTextToolBufferBytes <? _).
    + split; [|done]. exists (t +:+ pendingText s +:+ text), rs, cs. split; [by apply emitText_written|].
      split; [|done]. cbn [pendingText update emitText on_result]. by rewrite sapp_nil_r, Ho, sapp_assoc.
    + split; [|cbn [sawNativeTools update]; congruence]. exists t, rs, cs. split; [done|]. split; [|done].
      cbn [pendingText update]. by rewrite Ho, sapp_assoc.
  - split; [|intros _; exact (Hp eq_refl)]. exists (t +:+ text), rs, cs. split; [by apply emitText_written|]. split; [|done].
    rewrite Ho, (Hp eq_refl). change (pendingText (emitText text s)) with (pendingText s). by rewrite (Hp eq_refl), !sapp_nil_r.
Qed.

Lemma emitReasoning_written quiet out s text : written quiet out s ->
  written quiet (out ++ marked true text) (emitReasoning nonce text s).
Proof.
  intros [(t & rs & cs & Hs & Ht & Hq) Hp]. destruct (emitReasoning_rest text s) as (E1 & E2 & _).
  split; [|by rewrite E1, E2]. exists t, (rs +:+ text), cs. split; [by apply emitReasoning_says|].
  rewrite E1, !spoken_app, !spoken_marked. cbn [eqb]. rewrite sapp_nil_r. split; [done|].
  intros E. by rewrite (Hq E).
Qed.

Lemma emit_pieces_written quiet pieces out s : written quiet out s ->
  written quiet (out ++ bytes pieces) (emit pieces s).
Proof.
  revert out s. induction pieces as [|[m text] pieces IH]; intros out s Hw; [by rewrite app_nil_r|].
  change (bytes ((m, text) :: pieces)) with (marked m text ++ bytes pieces). rewrite app_assoc. cbn [emit_pieces foldl fst snd].
  apply IH. destruct m; [by apply emitReasoning_written|by apply emitContent_written].
Qed.

Lemma emit_pieces_rest pieces s : splitter (emit pieces s) = splitter s /\
  sawNativeTools (emit pieces s) = sawNativeTools s /\ sawFinish (emit pieces s) = sawFinish s.
Proof.
  revert s. induction pieces as [|[m text] pieces IH]; intros s; [done|]. cbn [emit_pieces foldl fst snd].
  match goal with |- context [foldl _ ?s1 pieces] => destruct (IH s1) as (H1 & H2 & H3) end.
  unfold emit_pieces in H1, H2, H3. rewrite H1, H2, H3. destruct m.
  - destruct (emitReasoning_rest text s) as (? & ? & ? & ? & _). done.
  - unfold emitContent. destruct (String.eqb _ _); [done|]. destruct (_ && _); [|done]. cbv zeta. by destruct (_ <? _).
Qed.

(** The reading once the text [p] has gone through the splitter. *)
Definition reading (quiet : bool) (p : string) (s : Reading) : Prop := exists out,
  written quiet out s /\
  forall rest, split false 0 (p +:+ rest) = out ++ split (thinking (splitter s)) 0 (pending (splitter s) +:+ rest).

Lemma split_content_reading quiet p content s : reading quiet p s ->
  reading quiet (p +:+ content) (split_content nonce toolsEnabled content false s).
Proof.
  intros (out & Hw & Hsp). unfold split_content. pose proof (fun rest => feed_spec content false (splitter s) rest) as Hf.
  destruct (feed content false (splitter s)) as [sp pieces]. exists (out ++ bytes pieces). split.
  - apply emit_pieces_written. destruct Hw as [Hs Hp]. by split.
  - destruct (emit_pieces_rest pieces (s <| splitter := sp |>)) as (E & _). rewrite E. cbn [splitter update].
    intros rest. rewrite sapp_assoc, Hsp, <- app_assoc. f_equal. by apply Hf.
Qed.

(** No marker in the text that waits. *)
Definition no_markup (s : Reading) : Prop := Contains (pendingText s) "<tool_call>" = false.

Lemma native_call_written quiet out s d : written quiet out s -> no_markup s ->
  written quiet out (native_call UnescapeString s d) /\ no_markup (native_call UnescapeString s d).
Proof.
  intros [(t & rs & cs & Hs & Ht & Hq) Hp] Hm. unfold native_call. cbv zeta.
  change (sawNativeTools (on_result meaningful s)) with (sawNativeTools s).
  destruct (sawNativeTools s) eqn:Hn.
  { split; [split|done]; [exists t, rs, cs; split; [by apply (says_same (result s))|done]|].
    intros _. apply Hp. by rewrite andb_false_r. }
  change (pendingText (update _ _ (on_result meaningful s))) with (pendingText s).
  destruct (String.eqb_spec (pendingText s) EmptyString) as [He|He].
  - split; [split|done]; [exists t, rs, cs; split; [by apply (says_same (result s))|done]|done].
  - rewrite (no_marker UnescapeString _ Hm). cbv iota beta. split; [split|done].
    + exists (t +:+ pendingText s), rs, cs. split; [|split; [|done]].
      * apply says_EmitTextDelta. by apply (says_same (result s)).
      * change (pendingText (update _ _ _)) with EmptyString. by rewrite sapp_nil_r.
    + done.
Qed.

Lemma native_call_rest s d : splitter (native_call UnescapeString s d) = splitter s /\
  sawFinish (native_call UnescapeString s d) = sawFinish s.
Proof.
  unfold native_call. cbv zeta. destruct (sawNativeTools _); [done|]. destruct (String.eqb _ _); [done|].
  by destruct (parseClineTextToolCalls _ _).
Qed.

Lemma native_calls_written quiet out ds s : written quiet out s -> no_markup s ->
  written quiet out (foldl (native_call UnescapeString) s ds) /\
  splitter (foldl (native_call UnescapeString) s ds) = splitter s /\
  sawFinish (foldl (native_call UnescapeString) s ds) = sawFinish s.
Proof.
  revert s. induction ds as [|d ds IH]; intros s Hw Hm; [done|]. cbn [foldl].
  destruct (native_call_written _ _ _ d Hw Hm) as [Hw' Hm']. destruct (IH _ Hw' Hm') as (H1 & -> & ->).
  split; [done|]. apply native_call_rest.
Qed.

Notation take := (take_choice UnescapeString mint nonce toolsEnabled) (only parsing).

(** With tools declared, no markup of a tool call in the answer's text. *)
Definition unmarked (p : string) : Prop :=
  toolsEnabled = true -> Contains (spoken false (split false 0 p)) "<tool_call>" = false.

Lemma written_no_markup quiet out s : written quiet out s ->
  (toolsEnabled = true -> Contains (spoken false out) "<tool_call>" = false) -> no_markup s.
Proof.
  intros [(t & rs & cs & _ & Ht & _) Hp] Hm. unfold no_markup.
  destruct toolsEnabled; [|by rewrite (Hp eq_refl)]. specialize (Hm eq_refl).
  destruct (Contains (pendingText s) "<tool_call>") eqn:Hc; [|done].
  rewrite <- Ht, Contains_app_r in Hm by done. done.
Qed.

Lemma reading_no_markup quiet p rest s : reading quiet p s -> unmarked (p +:+ rest) -> no_markup s.
Proof.
  intros (out & Hw & Hsp) Hm. apply (written_no_markup _ _ _ Hw). intros E. specialize (Hm E).
  destruct (Contains (spoken false out) "<tool_call>") eqn:Hc; [|done].
  by rewrite Hsp, spoken_app, Contains_app_l in Hm.
Qed.

Lemma emitTools_rest s : let s' := emitTools mint s in
  pendingText s' = pendingText s /\ sawNativeTools s' = sawNativeTools s /\ splitter s' = splitter s /\ sawFinish s' = sawFinish s.
Proof. unfold emitTools. by destruct (CompleteAll _). Qed.

Lemma emitTools_written quiet out s : written quiet out s -> written quiet out (emitTools mint s).
Proof.
  intros [(t & rs & cs & Hs & Ht & Hq) Hp]. destruct (emitTools_rest s) as (E1 & E2 & _ & _).
  split; [|by rewrite E1, E2]. rewrite E1. unfold emitTools. destruct (CompleteAll (tools s)) as [a states].
  destruct (says_calls_emitted mint states (result s) _ _ _ Hs) as [H1 _]. by eexists t, rs, _.
Qed.

Lemma reasoning_reading quiet p c s : reading quiet p s ->
  reading (quiet && negb (nonempty (Reasoning c))) p (emitReasoning nonce (Reasoning c) s).
Proof.
  intros (out & Hw & Hsp). destruct (emitReasoning_rest (Reasoning c) s) as (E1 & E2 & E3 & _).
  exists out. rewrite E3. split; [|done]. destruct Hw as [(t & rs & cs & Hs & Ht & Hq) Hp].
  split; [|by rewrite E1, E2]. exists t, (rs +:+ Reasoning c), cs. rewrite E1.
  split; [by apply emitReasoning_says|]. split; [done|]. intros E. bool_to_prop.
  match goal with H : nonempty _ = false |- _ => apply nonempty_false in H as -> end. rewrite sapp_nil_r. by apply Hq.
Qed.

Lemma split_content_finish content final s :
  sawFinish (split_content nonce toolsEnabled content final s) = sawFinish s.
Proof.
  unfold split_content. destruct (feed _ _ _) as [sp pieces].
  by destruct (emit_pieces_rest pieces (s <| splitter := sp |>)) as (_ & _ & ->).
Qed.

Lemma choice_reading quiet p c s rest : reading quiet p s -> unmarked (p +:+ Content c +:+ rest) ->
  reading (quiet && negb (nonempty (Reasoning c))) (p +:+ Content c) (take c s) /\
  sawFinish (take c s) = sawFinish s || finishes c.
Proof.
  intros Hr Hm. apply (reasoning_reading _ _ c) in Hr. unfold take_choice. cbv zeta. fold (finishes c).
  destruct (emitReasoning_rest (Reasoning c) s) as (_ & _ & _ & E4 & _).
  set (s1 := emitReasoning nonce (Reasoning c) s) in *.
  set (s2 := if String.eqb (Content c) EmptyString then s1 else split_content nonce toolsEnabled (Content c) false s1).
  assert (H2 : reading (quiet && negb (nonempty (Reasoning c))) (p +:+ Content c) s2 /\ sawFinish s2 = sawFinish s).
  { subst s2. destruct (String.eqb_spec (Content c) EmptyString) as [E|_]; [by rewrite E, sapp_nil_r|].
    split; [by apply split_content_reading|]. by rewrite split_content_finish. }
  destruct H2 as [H2 F2]. rewrite <- sapp_assoc in Hm. pose proof (reading_no_markup _ _ _ _ H2 Hm) as Hno.
  destruct H2 as (out & Hw & Hsp). destruct (native_calls_written _ _ (ToolCalls c) _ Hw Hno) as (H3 & E3 & F3).
  set (s3 := foldl _ s2 (ToolCalls c)) in *. destruct (finishes c).
  - set (s4 := on_result _ s3 <| sawFinish := true |>). assert (H4 : written (quiet && negb (nonempty (Reasoning c))) out s4).
    { destruct H3 as [(t & rs & cs & Hs & Ht & Hq) Hp]. split; [|exact Hp]. exists t, rs, cs. split; [|done].
      by apply (says_same (result s3)). }
    destruct (emitTools_rest s4) as (_ & _ & E5 & F5). split; [|by rewrite F5, orb_true_r].
    exists out. split; [by apply emitTools_written|]. rewrite E5. change (splitter s4) with (splitter s3). by rewrite E3.
  - split; [|by rewrite F3, F2, orb_false_r]. exists out. rewrite E3. done.
Qed.

(** A healthy chunk. *)
Definition absorb (s : Reading) (chunk : streamChunk) : Reading :=
  let s := on_result (ApplyStreamUsage (NormalizeUsageMap (ck_Usage chunk))) s in
  match Choices chunk with [] => s | c :: _ => take c s end.

Lemma usage_reading quiet p usage s : reading quiet p s -> reading quiet p (on_result (ApplyStreamUsage usage) s).
Proof.
  intros (out & [(t & rs & cs & Hs & Ht & Hq) Hp] & Hsp). exists out. split; [|done]. split; [|exact Hp].
  exists t, rs, cs. split; [by apply says_usage|done].
Qed.

Lemma tagged_first_choices_cons chunk chunks :
  first_choices (chunk :: chunks) =
  match Choices chunk with [] => first_choices chunks | c :: _ => c :: first_choices chunks end.
Proof. unfold first_choices. cbn. by destruct (Choices chunk). Qed.

Lemma tagged_absorb_all chunks quiet p s : reading quiet p s -> unmarked (p +:+ telling Content (first_choices chunks)) ->
  reading (quiet && forallb (fun c => negb (nonempty (Reasoning c))) (first_choices chunks))
          (p +:+ telling Content (first_choices chunks)) (foldl absorb s chunks).
Proof.
  revert quiet p s. induction chunks as [|k ks IH]; intros quiet p s Hr Hm.
  { cbn. by rewrite andb_true_r, sapp_nil_r. }
  rewrite tagged_first_choices_cons in *. cbn [foldl]. apply (usage_reading _ _ (NormalizeUsageMap (ck_Usage k))) in Hr.
  unfold absorb at 2. destruct (Choices k) as [|c cs]; [by apply IH|]. cbn [telling foldr forallb] in *.
  fold (telling Content (first_choices ks)) in *. rewrite <- sapp_assoc, andb_assoc.
  apply IH; [|by rewrite sapp_assoc]. by apply (choice_reading _ _ _ _ _ Hr Hm).
Qed.

Lemma absorb_finish k s : sawFinish (absorb s k) =
  sawFinish s || match Choices k with [] => false | c :: _ => finishes c end.
Proof.
  unfold absorb. destruct (Choices k) as [|c cs]; [by rewrite orb_false_r|].
  set (s0 := on_result _ s). change (sawFinish s) with (sawFinish s0). unfold take_choice. cbv zeta. fold (finishes c).
  destruct (finishes c).
  { match goal with |- sawFinish (emitTools mint ?x) = _ => destruct (emitTools_rest x) as (_ & _ & _ & ->) end.
    by rewrite orb_true_r. }
  assert (Hn : forall ds s, sawFinish (foldl (native_call UnescapeString) s ds) = sawFinish s).
  { induction ds as [|d ds IH]; intros s'; [done|]. cbn [foldl]. rewrite IH. apply native_call_rest. }
  rewrite Hn, orb_false_r. destruct (emitReasoning_rest (Reasoning c) s0) as (_ & _ & _ & E & _).
  destruct (String.eqb _ _); [done|]. by rewrite split_content_finish.
Qed.

Lemma tagged_absorbed_finish chunks s :
  sawFinish (foldl absorb s chunks) = sawFinish s || existsb finishes (first_choices chunks).
Proof.
  revert s. induction chunks as [|k ks IH]; intros s; cbn [foldl]; [by rewrite orb_false_r|].
  rewrite IH, absorb_finish, tagged_first_choices_cons. destruct (Choices k); cbn; by rewrite <- ?orb_assoc.
Qed.

Notation reads := (lines UnescapeString mint nonce toolsEnabled) (only parsing).

Lemma tagged_lines_spec ts err s :
  match chunks_read ts err with
  | Some (chunks, marker) =>
      reads ts err s = ((if marker : bool then foldl absorb s chunks <| sawFinish := true |> else foldl absorb s chunks), inl None)
  | None => (reads ts err s).2 <> inl None
  end.
Proof.
  revert s. induction ts as [|t ts IH]; intros s; cbn [chunks_read lines]; [by destruct err|].
  unfold take_line, line_kind. cbv zeta. destruct (_ || _); [apply IH|]. destruct (negb _); [apply IH|].
  destruct (String.eqb _ "[DONE]"); [by destruct (t_err t)|]. destruct (String.eqb _ EmptyString); [apply IH|].
  unfold take_payload, healthy_chunk. destruct (decode_payload _) as [k| |]; cbn [mbind option_bind]; try done.
  destruct (nonempty _); cbn [mbind option_bind]; [done|].
  specialize (IH (absorb s k)). destruct (chunks_read ts err) as [[chunks marker]|]; exact IH.
Qed.

(** The end of the stream. *)
Lemma flush_says quiet out s : written quiet out s -> no_markup s ->
  exists rs cs, says_all (result (emitTools mint (flush_text UnescapeString mint toolsEnabled s))) (spoken false out) rs cs /\
                (quiet = true -> rs = spoken true out).
Proof.
  intros Hw Hm. assert (Hf : written quiet out (flush_text UnescapeString mint toolsEnabled s) /\
                            pendingText (flush_text UnescapeString mint toolsEnabled s) = EmptyString).
  { unfold flush_text. destruct Hw as [(t & rs & cs & Hs & Ht & Hq) Hp].
    destruct (toolsEnabled && negb (sawNativeTools s)) eqn:Hb; cbn [andb].
    - destruct (nonempty (pendingText s)) eqn:Hn; [|apply nonempty_false in Hn; split; [split; [by exists t, rs, cs|done]|done]].
      rewrite (no_marker UnescapeString _ Hm). cbv iota beta. split; [split|done]; [|done].
      exists (t +:+ pendingText s), rs, cs. split; [|split; [|done]].
      + apply says_EmitTextDelta. by apply (says_same (result s)).
      + change (pendingText (update _ _ _)) with EmptyString. by rewrite sapp_nil_r.
    - split; [split; [by exists t, rs, cs|by intros _; apply Hp]|by apply Hp]. }
  destruct Hf as [Hf He]. apply emitTools_written in Hf as [(t & rs & cs & Hs & Ht & Hq) _].
  destruct (emitTools_rest (flush_text UnescapeString mint toolsEnabled s)) as (E & _). rewrite E, He, sapp_nil_r in Ht.
  subst t. by exists rs, cs.
Qed.

Lemma tagged_consume_spec body :
  match answer_choices body with
  | Some cs => exists r, consumeStream UnescapeString mint nonce toolsEnabled body = (r, None) /\
      (unmarked (telling Content cs) ->
       exists rs calls, says_all r (answer_text cs) rs calls /\
         (forallb (fun c => negb (nonempty (Reasoning c))) cs = true -> rs = answer_thoughts cs))
  | None => (consumeStream UnescapeString mint nonce toolsEnabled body).2 <> None
  end.
Proof.
  unfold answer_choices, consumeStream. destruct (Scan line_limit body) as [ts err].
  pose proof (tagged_lines_spec ts err initialReading) as Hl.
  destruct (chunks_read ts err) as [[chunks marker]|]; cbn [mbind option_bind].
  2: { by destruct (reads ts err initialReading) as [s [[e|]|e]]. }
  rewrite Hl. set (s := if marker then _ else _). assert (Hfin : sawFinish s = marker || existsb finishes (first_choices chunks)).
  { subst s. destruct marker; [done|]. by rewrite tagged_absorbed_finish. }
  rewrite Hfin. destruct (_ || _); [|done]. cbn [negb]. eexists. split; [done|]. intros Hm.
  assert (Hi : reading true EmptyString initialReading).
  { exists []. split; [split; [by exists EmptyString, EmptyString, []|done]|done]. }
  assert (Hr := tagged_absorb_all chunks true EmptyString initialReading Hi Hm). cbn [andb String.append] in Hr.
  set (quiet := forallb _ _) in *. set (p := telling Content (first_choices chunks)) in *.
  assert (Hs : reading quiet p s) by (subst s; destruct marker; [destruct Hr as (out & [] & Hsp); exists out; by repeat split|done]).
  clearbody s. destruct Hs as (out & Hw & Hsp). unfold split_content.
  pose proof (feed_spec EmptyString true (splitter s) EmptyString (fun _ => eq_refl)) as Hf.
  destruct (feed EmptyString true (splitter s)) as [sp pieces]. destruct Hf as [Hf He]. rewrite (He eq_refl) in Hf.
  assert (Hout : split false 0 p = out ++ bytes pieces).
  { specialize (Hsp EmptyString). rewrite !sapp_nil_r in *. rewrite Hsp. f_equal. rewrite Hf. cbn. by rewrite app_nil_r. }
  assert (Hw' : written quiet (out ++ bytes pieces) (emit pieces (s <| splitter := sp |>))).
  { apply emit_pieces_written. destruct Hw. by split. }
  rewrite <- Hout in Hw'. destruct (flush_says _ _ _ Hw' (written_no_markup _ _ _ Hw' Hm)) as (rs & calls & Hsays & Hq).
  by exists rs, calls.
Qed.
End Proofs.


(** ** Concrete answers *)
Definition line_of (chunk : string) : string := "data: " +:+ js chunk +:+ String LF EmptyString.
Definition says_chunk (content : string) : string := "{'id':'c','choices':[{'delta':{'content':'" +:+ content +:+ "'}}]}".
Definition read_text (toolsEnabled : bool) (chunks : list string) : list (string * string) * option string :=
  let '(r, failure) := consumeStream id (fun k => (unix_epoch, Z.of_nat k + 1)) "n" toolsEnabled
    (mkBody (String.concat EmptyString (map line_of chunks)) None) in
  (map (fun msg => (msg_Type msg, event_str msg "delta" +:+ event_str msg "toolName" +:+ event_str msg "input")) (emitted r), failure).

(** A wrapped chunk, a tag cut in two, and the end without a finish. *)
Example thinking_read :
  (read_text true [says_chunk "a<th"; "{'data':" +:+ says_chunk "ink>b</think>c" +:+ "}"; "[DONE]"],
   (read_text false [says_chunk "a"]).2) =
  (([("model.reasoning-delta", "b"); ("model.text-delta", "ac")], None), Some ErrStreamTruncated).
Proof. vm_compute. reflexivity. Qed.

(** The two textual forms of a call. *)
Example text_calls :
  (read_text true [says_chunk "x <tool_call>bash:ignored</arg_value><arg_key>command</arg_key><arg_value>ls</arg_value></tool_call>"; "[DONE]"],
   read_text true [says_chunk "y<tool_call>glob<tool_call>glob: *<tool_call>limit: 5<tool_call>path: src"; "[DONE]"]) =
  (([("model.text-delta", "x "); ("model.tool-call", "bash" +:+ js "{'command':'ls'}")], None),
   ([("model.text-delta", "y"); ("model.tool-call", "glob" +:+ js "{'limit':5,'path':'src'}")], None)).
Proof. vm_compute. reflexivity. Qed.

Definition tagged_body : Body :=
  mkBody (String.concat EmptyString (map line_of [says_chunk "a<th"; says_chunk "ink>b</think>c"; "[DONE]"])) None.

